(* ===== verification/_CoqProject ===== *)
-Q . S2P
Prelude.v
RustStd.v
Json.v
Platform.v
Reference.v
Errors.v
Types.v
Aad.v
Crypto.v
Authorization.v
SecretStore.v
Alias.v
AuditTypes.v
LedgerTypes.v
LedgerPayload.v
LedgerEntry.v
LedgerChain.v
LedgerRpc.v
LedgerAppender.v
ApiError.v
WriteLedger.v
ReadModel.v
Digest.v
DigestUseCases.v
Files.v
Archive.v
AuditEvent.v
AuditSchema.v
AuditBuilders.v
Incident.v
KeyRotation.v
AuditFallback.v
App.v
ExportUseCase.v
Siem.v
AuditReporter.v
UseCases.v
AliasUseCases.v
Handlers.v
Maintenance.v
Scheduler.v
Auditor.v
Timestamping.v
SignatureKey.v
DigestCommand.v
Authentication.v
Background.v
AuditReport.v
AuditUi.v
Config.v
S3Client.v
Backends.v
Runtime.v
Examples.v
ServerExamples.v
OpsExamples.v
UseCaseExamples.v
AccessExamples.v
StoreExamples.v
