(* ===== verification/Prelude.v ===== *)
(** * mipsorcu: a verification development of the secret store

    mipsorcu is a secret store in Rust: clients write and read versioned secrets
    over HTTP; a small trusted server (the "SBC") encrypts them and keeps rows in
    a Supabase/Postgres database it does not trust; every write and every
    security-relevant event is recorded in an append-only, hash-chained and
    signed ledger, which monthly digests summarize.  This library models the
    program's own logic under [src/] as Rocq functions that can be run, and
    proves the properties that make it correct.

    ** How the code is modelled

    - A Rust [Result<A, E>] is [result E A], [?] with its error conversion is the
      notation [r !? f]; an async or effectful function is [io World E A], which
      takes the world it runs in and returns the world it leaves; a function that
      can panic is [pio], where [None] is the panic (Prelude).
    - Integers are [Z] with the bounds of their width written out, strings are
      byte strings with [trim], slices, prefixes and UTF-8 validation as Rust
      defines them (RustStd); [serde_json::Value] and its sorted map are data
      types (Json).
    - The crates the program calls (uuid, time, serde_json, hex, sha2, hmac,
      chacha20poly1305, ed25519-dalek, getrandom, the clock) are the fields of
      the class [Platform]; one class per crate states the documented behaviour
      the theorems use, and [Reference] implements all of it with concrete
      functions, so that every hypothesis is met and examples evaluate.
    - What is outside the process is a class of operations: the database
      ([LedgerService], [DigestService], [KeyRotationService], [SecretService],
      [AliasService], [CheckService], [IncidentService], [PublicKeyService],
      [TimestampingService], [AuditReportService], [AuditUiService], [AuditRpc],
      [ReadinessProbe], [AuditEventAppender]: the remote calls, with no assumption
      on what they return), the files ([FileSystem] and [WholeFiles], with the laws
      of [FileLaws] and [WholeFileLaws], and [ConfigSystem] for the configuration),
      the object store ([S3Http], which the client over [S3Transport] implements,
      and [S3Server] for what a bucket promises), the sinks of security events and
      notifications ([SiemSink], [NotificationSink]), the published keys and the
      library that checks tokens ([JwksEndpoint], [JwtLibrary], [HttpValues]), the
      socket ([ServerSystem]), the calendar and the clocks ([Calendar], [Instants],
      [InstantArithmetic], [MonotonicClock]).  Logging is left out.
    - Of the columns of the database only one needs a law: [TimestampColumn]
      (ReadModel) says that a [timestamptz] keeps whole microseconds, while the
      server's clock gives nanoseconds.
    - A request runs in [proc], an [io] over the records the handlers share (App)
      and the world; a step that cannot fail is an [act]; the scheduler's own
      state is threaded through [sched] (Scheduler).

    ** The parts of the program and their files

    - Errors: the error enums of [src/error.rs] and the texts they print.
    - Types: identifiers, version numbers, key material, envelopes, timestamps
      ([src/types/]).
    - Aad: the associated data that binds a ciphertext to its row
      ([src/aad.rs]).
    - Crypto: master key ring, data key wrapping, secret encryption
      ([src/crypto.rs]).
    - Authorization: verified claims and decisions ([src/authorization.rs],
      [src/auth/jwt.rs]).
    - SecretStore: preparing a new or rotated version, decrypting the current one
      ([src/write/], [src/read.rs]); uses the four files above.
    - Alias: encrypted aliases with keyed fingerprints ([src/alias/]).
    - AuditTypes: actions, results, triggers and identifiers of audit events
      ([src/audit/event/]).
    - LedgerTypes, LedgerPayload, LedgerEntry, LedgerChain: the ledger's
      vocabulary, payload validation, canonical bytes and signing of entries, and
      chain verification ([src/ledger/]).
    - LedgerRpc: rows exchanged with the database ([src/server/supabase/]).
    - LedgerAppender: signing over the chain head and appending with retries
      ([src/server/ledger_appender.rs]).
    - ApiError, WriteLedger: errors of the HTTP API, and the ledger entries of a
      secret write with the retention of versions
      ([src/server/use_cases/write_secret_version/]).
    - Digest, DigestUseCases: monthly digests, their generation and verification
      ([src/ledger/digest.rs], [src/server/use_cases/]).
    - Files: lines of a file, the file system, and the delivery queue that both
      queues on disk keep ([src/audit/fallback/], [src/archive/s3/queue.rs]).
    - Archive: export documents, the S3 backend with its retries, the export
      queue ([src/archive/]).
    - AuditEvent, AuditBuilders: validation of audit events, and one builder of
      metadata per action ([src/audit/event/]).
    - AuditSchema: the schema of the metadata of every action, written down apart
      from the code's tables, as the specification of that validation.
    - KeyRotation: the commands that move data keys to a new master key
      ([src/server/key_rotation/], [src/server/supabase/key_rotation_rpc.rs]).
    - AuditFallback: recording of audit events, the file they fall back to, its
      resending, rollover and sweep ([src/audit/recorder.rs],
      [src/audit/fallback/]).
    - App: the shared records of the process, health and readiness
      ([src/server/state.rs], [src/server/handlers/health.rs]).
    - Siem: forwarding of events and entries, its buffer file
      ([src/siem/], [src/server/siem_forwarding.rs]).
    - ReadModel: decoding of stored versions and references to secrets
      ([src/server/read_model.rs], [src/server/supabase/secret_rpc.rs]).
    - AuditReporter: the audit records the use cases make
      ([src/server/audit_reporter/]).
    - UseCases, AliasUseCases, Handlers: writing, rotating, decrypting, aliases,
      and the HTTP handlers over them ([src/server/use_cases/],
      [src/server/handlers/], [src/server/dto.rs]).
    - Maintenance: the restore test and the integrity check
      ([src/server/restore_test.rs], [src/server/integrity_check.rs]).
    - Incident: detection, notification and recording of incidents
      ([src/incident/], [src/server/supabase/incident_rpc.rs]).
    - ExportUseCase: a digest into the archive, and the archive in a directory
      ([src/server/use_cases/export_digest_to_archive.rs],
      [src/archive/dummy.rs]).
    - Scheduler: the monthly and quarterly jobs ([src/server/scheduler.rs]).
    - Auditor: the command that verifies an exported range
      ([src/server/auditor.rs]).
    - Timestamping: time stamps of digests ([src/timestamping/],
      [src/server/use_cases/request_timestamping_for_digest.rs]).
    - SignatureKey, DigestCommand: the commands for signature keys and digests
      ([src/server/signature_key.rs], [src/server/digest.rs],
      [src/server/supabase/ledger_public_key_rpc.rs]).
    - Authentication: key sets, tokens, the audit of refusals, the rate limit and
      the time limit ([src/auth/], [src/server/middleware.rs]).
    - Background: the loops beside the server ([src/server/background.rs]).
    - AuditReport: the command that reports on a period
      ([src/server/audit_report.rs], [src/server/supabase/audit_report_rpc.rs]).
    - AuditUi: the endpoints auditors read ([src/server/handlers/audit_ui.rs],
      [src/server/supabase/audit_ui_rpc.rs]).
    - Config: the [.env] file, the variables and the configuration
      ([src/server/config/]).
    - S3Client: the client of the object store, from its settings to the signed
      request ([src/archive/s3/]); the implementation of [S3Http].
    - Backends: implementations of the traits by the database and in memory
      ([src/server/supabase/audit_rpc.rs], [src/siem/dummy.rs],
      [src/archive/dummy.rs]).
    - Runtime: commands, startup and routes ([src/server/runtime.rs],
      [src/server/router.rs]).
    - Examples, ServerExamples, OpsExamples, UseCaseExamples, AccessExamples,
      StoreExamples: the theorems at concrete data.

    ** What the theorems show

    - Secrets: what is created or rotated is decrypted again by its owner through
      the key ring; decryption is fail-closed (owner, algorithm, stored context,
      key and authentication all checked); writing does not panic; decryption and
      unwrapping accept exactly what encryption and wrapping make; canonical
      documents determine every field they authenticate.
    - Aliases: normal form, write-then-read, fingerprints that separate owners
      and texts.
    - Ledger: verification refines the relation [Chain]; it is incremental, names
      the first faulty entry, and detects edited and removed entries; two
      verified ledgers with the same end have the same fields; what the appender
      signs verifies, also after a round trip through the database; signing fails
      exactly when sequence numbers leave [i64]; appending ends after a bounded
      number of rounds; payloads hold no forbidden key, are bounded and canonical.
    - Writes: rotation purges exactly what exceeds four versions; the entries of
      a write extend the chain.
    - Digests: verification is fail-closed; generated digests are hashed and
      signed over their canonical form; the signature the database returns for a
      digest, that of the ledger entry, is not the digest's own and never
      verifies.

    - Audit events: an event is accepted exactly when its result is possible for
      its action and its metadata conforms to the schema; no forbidden key gets in at any depth; every builder builds
      metadata its action knows.
    - Audit queue: the file refines an abstract queue of events; a recorded event
      is in the database or in the queue; resending takes exactly the pending
      events, sends each once and then marks it, and empties the queue when the
      database takes them; a rollover never loses a pending event.
    - Key rotation: a rewrapped version decrypts as before; a batch sends exactly
      the rewrapped rows with their audit event and ledger entry.
    - Archive: an archived document holds what verifies the digest; an export is
      stored or queued; retries are bounded; the export answers a key only when
      the archive gave the content back and the ledger took its entry.  Over a
      bucket that keeps its promises the client is the store the backend relies
      on: a stored document is at the URL of its key and, while the configuration
      forbids to overwrite, is never changed; every request is signed as it is sent, and the signed text determines the request;
      uploads are locked; paths and listings are read back as they were written.
    - Access: who is let in has a token signed by a published key for this issuer
      and audience; the cached key set is always usable; the rate is bounded by the
      windows as long as the clock can represent their end, and not at all
      otherwise; audit reads need the role and are recorded before they are answered,
      and no forbidden key leaves in a row; pages are windows of the rows.  A
      verification of signatures over the audit UI does not notice that the
      database withholds the end of the range.
    - Commands: a signature key is created only while the configured one is active,
      with an event and an entry that both name its version and fingerprint; a printed report is in the audit log; a time stamp
      is recorded with its hash, and lost when the ledger refuses the entry.
    - Startup: a [.env] file is read back as it was written and gives way to the
      process; a key directory is the key ring; a server that starts has keys,
      intervals and limits it can run with, one runner of the restore test and an
      active signing key; every handler has one address.
    - Requests: a secret created over HTTP at a time of whole microseconds is
      answered again, in the same spelling, to its owner and to nobody without a
      record; one created at a finer time is never answered, because the row the
      database keeps no longer matches its associated data; a plaintext leaves
      only after its decryption is in the audit log and the ledger; a rotation
      writes the next version of the caller's own secret; a created or renamed
      alias is listed and resolves, and both resolutions agree; a failure before
      a write has no audit record, because its event cannot be built.
    - Checks: the restore test succeeds only when every sample decrypts and the
      success is recorded, and what the server wrote passes it, under the same
      condition on its time; the scheduler's
      two passes over the ledger are the chain's verification; a digest is only
      done after both; an anomaly is an incident; a reported incident is known,
      taken by the database with its event and entry, or suppressed by it; incidents raised by the checks
      are accepted by the audit log and the ledger; a failed verification ends
      the day's tick before the quarterly jobs.
    - Operations: the server is ready exactly while its last probe is recent; a
      security event is sent or kept, and an outage is tracked from the first failed
      forward after the last success; resends never start one; the auditor's
      command verifies from the beginning of the ledger only.

    ** Bounds

    The loops that are not structural have a count.  [extract_loop] takes the length
    of the text, and [extract_loop_enough] shows that more rounds change
    nothing.  In [append_loop] it is the length of the range
    [0..=max_conflict_retries], which is what the source iterates over,
    and [append_bounded_rounds] shows that it is never exhausted.
    In [run_with_backoff_loop] it is the number of retries the configuration
    allows, which [run_with_backoff_bounded] shows to be enough.  The pages of a
    bucket listing have no bound in the source: [list_objects] takes a fuel and
    returns nothing when it runs out.  JSON values are bounded by the nesting
    depth [serde_json] reads back.

    ** Not modelled

    Debug output, log lines and tracing; the HTTP framework (extractors, layers,
    sockets), tokio's tasks, timers and signals, and reqwest: they are input and
    output around this logic, and appear as interfaces or, for a loop, as the list
    of what ended its waits.  Tasks that run beside each other are modelled one by
    one, over the shared records and the world, not interleaved at every step. *)

From stdpp Require Export ssreflect base tactics numbers list strings option gmap.

(** ** Results: Rust's [Result<A, E>] *)

Inductive result (E A : Type) : Type :=
| Ok (a : A)
| Err (e : E).
Arguments Ok {E A} a.
Arguments Err {E A} e.

#[global] Instance result_ret {E} : MRet (result E) := λ A a, Ok a.
#[global] Instance result_bind {E} : MBind (result E) := λ A B f m,
  match m with Ok a => f a | Err e => Err e end.
#[global] Instance result_fmap {E} : FMap (result E) := λ A B f m,
  match m with Ok a => Ok (f a) | Err e => Err e end.
#[global] Instance result_eq_dec {E A} `{!EqDecision E, !EqDecision A} : EqDecision (result E A).
Proof. solve_decision. Defined.

Definition is_ok {E A} (r : result E A) : bool :=
  match r with Ok _ => true | Err _ => false end.

(** [Result::map_err]. *)
Definition map_err {E1 E2 A} (f : E1 → E2) (r : result E1 A) : result E2 A :=
  match r with Ok a => Ok a | Err e => Err (f e) end.

(** [Option::ok_or]. *)
Definition ok_or {E A} (o : option A) (e : E) : result E A :=
  match o with Some a => Ok a | None => Err e end.

(** A [for] loop whose body only validates: the first error leaves it. *)
Fixpoint try_for_each {E A} (f : A → result E unit) (l : list A) : result E unit :=
  match l with
  | [] => Ok tt
  | x :: l => _ ← f x; try_for_each f l
  end.

(** [Iterator::map(f).collect::<Result<Vec<_>, _>>()]. *)
Fixpoint try_map {E A B} (f : A → result E B) (l : list A) : result E (list B) :=
  match l with
  | [] => Ok []
  | x :: l => y ← f x; ys ← try_map f l; Ok (y :: ys)
  end.

(** ** Effects

    An operation that reads the clock, the random source or a remote service
    takes the world it runs in and returns the world it leaves. *)

Definition io (W E A : Type) : Type := W → result E A * W.

#[global] Instance io_ret {W E} : MRet (io W E) := λ A a w, (Ok a, w).
#[global] Instance io_bind {W E} : MBind (io W E) := λ A B f m w,
  match m w with
  | (Ok a, w') => f a w'
  | (Err e, w') => (Err e, w')
  end.

Definition lift {W E A} (r : result E A) : io W E A := λ w, (r, w).
Definition io_map_err {W E1 E2 A} (f : E1 → E2) (m : io W E1 A) : io W E2 A := λ w,
  let '(r, w') := m w in (map_err f r, w').

(** [match m.await { Ok(..) => .., Err(..) => .. }]. *)
Definition io_match {W E1 E2 A B} (m : io W E1 A) (f : result E1 A → io W E2 B) : io W E2 B := λ w,
  let '(r, w') := m w in f r w'.

Fixpoint io_map {W E A B} (f : A → io W E B) (l : list A) : io W E (list B) :=
  match l with
  | [] => mret []
  | x :: l => y ← f x; ys ← io_map f l; mret (y :: ys)
  end.

(** Operations that can also panic: [None] is a panic. *)
Definition pio (W E A : Type) : Type := W → option (result E A * W).

#[global] Instance pio_ret {W E} : MRet (pio W E) := λ A a w, Some (Ok a, w).
#[global] Instance pio_bind {W E} : MBind (pio W E) := λ A B f m w,
  match m w with
  | Some (Ok a, w') => f a w'
  | Some (Err e, w') => Some (Err e, w')
  | None => None
  end.
Definition run {W E A} (m : io W E A) : pio W E A := λ w, Some (m w).
Definition or_panic {W E A} (o : option A) : pio W E A := λ w,
  match o with Some a => Some (Ok a, w) | None => None end.

(** The [?] operator with the [From] conversion of the error written out. *)
Declare Scope rust_scope.
Delimit Scope rust_scope with rust.
Notation "r !? f" := (map_err f r) (at level 54, left associativity) : rust_scope.
Notation "m !?? f" := (io_map_err f m) (at level 54, left associativity) : rust_scope.
Open Scope rust_scope.

(** ** Inversion lemmas for the two monads *)

Section result_lemmas.
Context {E A B : Type}.

Lemma result_bind_Ok (m : result E A) (f : A → result E B) b :
  (m ≫= f) = Ok b ↔ ∃ a, m = Ok a ∧ f a = Ok b.
Proof. destruct m; simpl; naive_solver. Qed.

Lemma result_bind_Err (m : result E A) (f : A → result E B) e :
  (m ≫= f) = Err e ↔ m = Err e ∨ ∃ a, m = Ok a ∧ f a = Err e.
Proof. destruct m; simpl; naive_solver. Qed.

Lemma result_fmap_Ok (m : result E A) (f : A → B) b :
  (f <$> m) = Ok b ↔ ∃ a, m = Ok a ∧ b = f a.
Proof. destruct m; simpl; naive_solver. Qed.

Lemma ok_or_Ok (o : option A) (e : E) a : ok_or o e = Ok a ↔ o = Some a.
Proof. destruct o; simpl; naive_solver. Qed.

Lemma map_err_Ok {E'} (f : E → E') (r : result E A) a : map_err f r = Ok a ↔ r = Ok a.
Proof. destruct r; simpl; naive_solver. Qed.

Lemma map_err_Err {E'} (f : E → E') (r : result E A) e' :
  map_err f r = Err e' ↔ ∃ e, r = Err e ∧ e' = f e.
Proof. destruct r; simpl; naive_solver. Qed.

End result_lemmas.

(** Outcomes found by evaluation. *)
Lemma is_ok_inv {E A} (r : result E A) : is_ok r = true → ∃ a, r = Ok a.
Proof. destruct r; naive_solver. Qed.

Lemma is_ok_io_inv {W E A} (r : result E A * W) : is_ok r.1 = true → ∃ a w, r = (Ok a, w).
Proof. destruct r as [[]]; naive_solver. Qed.

Lemma is_err_io_inv {W E A} (r : result E A * W) : is_ok r.1 = false → ∃ e w, r = (Err e, w).
Proof. destruct r as [[]]; naive_solver. Qed.

Section loop_lemmas.
Context {E A B : Type}.

Lemma try_for_each_Ok (f : A → result E unit) l :
  try_for_each f l = Ok tt ↔ Forall (λ x, f x = Ok tt) l.
Proof.
  induction l as [|x l IH]; simpl; [by split; [constructor|]|].
  rewrite result_bind_Ok Forall_cons -IH. split; [|naive_solver].
  intros ([] & -> & ->); done.
Qed.

(** The loop stops at the first element its body rejects. *)
Lemma try_for_each_Err (f : A → result E unit) l e :
  try_for_each f l = Err e ↔
  ∃ l1 x l2, l = l1 ++ x :: l2 ∧ Forall (λ y, f y = Ok tt) l1 ∧ f x = Err e.
Proof.
  induction l as [|x l IH]; simpl.
  { split; [done|]. intros ([|] & ? & ? & ? & _); done. }
  rewrite result_bind_Err. split.
  - intros [Hx|([] & Hx & Hl)].
    + exists [], x, l. by repeat constructor.
    + apply IH in Hl as (l1 & y & l2 & -> & Hl1 & Hy).
      exists (x :: l1), y, l2. by repeat constructor.
  - intros ([|z l1] & y & l2 & Heq & Hl1 & Hy); simplify_eq/=; [by left|].
    right. apply Forall_cons in Hl1 as [Hz Hl1]. exists tt. split; [done|].
    apply IH. by exists l1, y, l2.
Qed.

Lemma try_map_Ok (f : A → result E B) l k :
  try_map f l = Ok k ↔ Forall2 (λ x y, f x = Ok y) l k.
Proof.
  revert k. induction l as [|x l IH]; intros k; simpl.
  { split; [intros [= <-]; constructor|by intros ->%Forall2_nil_inv_l]. }
  rewrite result_bind_Ok. split.
  - intros (y & Hy & Hk). apply result_bind_Ok in Hk as (ys & Hys & [= <-]).
    constructor; [done|by apply IH].
  - intros (y & ys & Hy & Hys%IH & ->)%Forall2_cons_inv_l. exists y. split; [done|].
    by rewrite Hys.
Qed.
End loop_lemmas.

(** Induction on a list two elements at a time. *)
Lemma pair_list_ind {A} (Q : list A → Prop) :
  Q [] → (∀ a, Q [a]) → (∀ a b l, Q l → Q (a :: b :: l)) → ∀ l, Q l.
Proof.
  intros H0 H1 H2 l. cut (Q l ∧ ∀ a, Q (a :: l)); [by intros []|].
  induction l as [|b l [IHl IHc]]; [by split|]. split; [apply IHc|]. intros a. by apply H2.
Qed.

Lemma Forall_Forall2_impl {A B} (P : A → Prop) (Q R : A → B → Prop) l k :
  Forall P l → Forall2 Q l k → (∀ x y, P x → Q x y → R x y) → Forall2 R l k.
Proof. intros Hl Hlk HR. induction Hlk; constructor; inversion Hl; subst; auto. Qed.

Section io_lemmas.
Context {W E A B : Type}.

Lemma io_bind_Ok (m : io W E A) (f : A → io W E B) w b w' :
  (m ≫= f) w = (Ok b, w') ↔ ∃ a w1, m w = (Ok a, w1) ∧ f a w1 = (Ok b, w').
Proof.
  unfold mbind, io_bind. destruct (m w) as [[a|e] w1]; naive_solver.
Qed.

Lemma lift_Ok (r : result E A) (w : W) a w' :
  lift r w = (Ok a, w') ↔ r = Ok a ∧ w' = w.
Proof. unfold lift. naive_solver. Qed.

Lemma io_bind_Err (m : io W E A) (f : A → io W E B) w e w' :
  mbind f m w = (Err e, w') ↔
  m w = (Err e, w') ∨ ∃ a w1, m w = (Ok a, w1) ∧ f a w1 = (Err e, w').
Proof. unfold mbind, io_bind. destruct (m w) as [[a|e'] w1]; naive_solver. Qed.
Lemma pio_bind_Ok (m : pio W E A) (f : A → pio W E B) w b w' :
  (m ≫= f) w = Some (Ok b, w') ↔ ∃ a w1, m w = Some (Ok a, w1) ∧ f a w1 = Some (Ok b, w').
Proof.
  unfold mbind, pio_bind. destruct (m w) as [[[a|e] w1]|]; naive_solver.
Qed.

Lemma run_Some (m : io W E A) w r : run m w = Some r ↔ m w = r.
Proof. unfold run. naive_solver. Qed.

Lemma or_panic_Ok (o : option A) (w w' : W) a :
  @or_panic W E A o w = Some (Ok a, w') ↔ o = Some a ∧ w' = w.
Proof. unfold or_panic. destruct o; naive_solver. Qed.

Lemma io_map_err_Ok {E'} (f : E → E') (m : io W E A) w a w' :
  io_map_err f m w = (Ok a, w') ↔ m w = (Ok a, w').
Proof. unfold io_map_err. destruct (m w) as [[] ?]; simpl; naive_solver. Qed.
End io_lemmas.

(** ** Automation

    [inv_ok] takes a hypothesis saying that a computation succeeded apart into
    the successes of its steps. *)

Ltac inv_ok_step :=
  match goal with
  | H : _ ∧ _ |- _ => destruct H
  | H : ∃ _, _ |- _ => destruct H
  | H : prod _ _ |- _ => destruct H
  | H : mbind _ (_ : result _ _) = Ok _ |- _ => apply result_bind_Ok in H
  | H : mbind _ _ _ = (Ok _, _) |- _ => apply io_bind_Ok in H
  | H : mbind _ _ _ = Some (Ok _, _) |- _ => apply pio_bind_Ok in H
  | H : run _ _ = Some _ |- _ => apply run_Some in H
  | H : or_panic _ _ = Some (Ok _, _) |- _ => apply or_panic_Ok in H
  | H : fmap _ (_ : result _ _) = Ok _ |- _ => apply result_fmap_Ok in H
  | H : map_err _ _ = Ok _ |- _ => apply map_err_Ok in H
  | H : io_map_err _ _ _ = (Ok _, _) |- _ => apply io_map_err_Ok in H
  | H : lift _ _ = (Ok _, _) |- _ => apply lift_Ok in H
  | H : ok_or _ _ = Ok _ |- _ => apply ok_or_Ok in H
  | H : mret _ = Ok _ |- _ => unfold mret, result_ret in H
  | H : mret _ _ = (Ok _, _) |- _ => unfold mret, io_ret in H
  | H : Ok _ = Ok _ |- _ => injection H as H
  | H : (Ok _, _) = (Ok _, _) |- _ => injection H as ? ?
  | H : Err _ = Ok _ |- _ => discriminate H
  | H : (Err _, _) = (Ok _, _) |- _ => discriminate H
  | u : unit |- _ => destruct u
  end.
Ltac inv_ok := repeat (inv_ok_step; simplify_eq).

(** The same for the steps of a long effectful run, without looking for other
    equations to simplify in between. *)
Ltac inv_run := repeat inv_ok_step; subst.

(** [case_if] splits the first conditional of a hypothesis or of the goal. *)
Ltac case_if :=
  match goal with
  | H : context [if ?b then _ else _] |- _ => destruct b eqn:?
  | |- context [if ?b then _ else _] => destruct b eqn:?
  end.

(** Boolean tests as propositions. *)
Ltac b2p :=
  repeat match goal with
  | H : bool_decide _ = true |- _ => apply bool_decide_eq_true_1 in H
  | H : bool_decide _ = false |- _ => apply bool_decide_eq_false_1 in H
  | H : (_ && _) = true |- _ => apply andb_true_iff in H as [? ?]
  | H : (_ || _) = false |- _ => apply orb_false_iff in H as [? ?]
  | H : negb _ = true |- _ => apply negb_true_iff in H
  | H : negb _ = false |- _ => apply negb_false_iff in H
  | H : (_ <=? _)%Z = true |- _ => apply Z.leb_le in H
  | H : (_ <=? _)%Z = false |- _ => apply Z.leb_gt in H
  | H : (_ <? _)%Z = true |- _ => apply Z.ltb_lt in H
  | H : (_ <? _)%Z = false |- _ => apply Z.ltb_ge in H
  | H : (_ =? _)%Z = true |- _ => apply Z.eqb_eq in H
  | H : (_ =? _)%Z = false |- _ => apply Z.eqb_neq in H
  | H : (_ <=? _)%nat = true |- _ => apply Nat.leb_le in H
  | H : (_ <=? _)%nat = false |- _ => apply Nat.leb_gt in H
  | H : (_ <? _)%nat = true |- _ => apply Nat.ltb_lt in H
  | H : (_ <? _)%nat = false |- _ => apply Nat.ltb_ge in H
  | H : (_ =? _)%nat = true |- _ => apply Nat.eqb_eq in H
  | H : (_ =? _)%nat = false |- _ => apply Nat.eqb_neq in H
  end.

(** The hint database of the development: round trips and inversions the
    components register as they prove them. *)
Create HintDb mips discriminated.
#[export] Hint Constants Opaque : mips.
