(* ===== verification/RustStd.v ===== *)
(** * The parts of Rust's standard library the program uses

    Machine integers are [Z] values with their bounds written out; a [str] is
    its UTF-8 bytes as a [string], so [str::len] is [String.length]; [Vec<u8>]
    and [[u8; n]] are [list byte]. *)

From Stdlib Require Export Ascii String Strings.Byte.
From stdpp Require Export pretty sorting.
From S2P Require Import Prelude.
Open Scope Z_scope.

Abbreviation str := string (only parsing).
Abbreviation bytes := (list byte) (only parsing).

#[global] Instance byte_eq_decision : EqDecision byte := Byte.byte_eq_dec.

(** ** Integers *)

Definition u8_max : Z := 255.
Definition u32_max : Z := 4294967295.
Definition u64_max : Z := 18446744073709551615.
Definition i64_max : Z := 9223372036854775807.

Definition is_u8 (z : Z) : Prop := 0 ≤ z ≤ u8_max.
Definition is_u32 (z : Z) : Prop := 0 ≤ z ≤ u32_max.
Definition is_u64 (z : Z) : Prop := 0 ≤ z ≤ u64_max.

(** [uN::try_from] of a wider integer, and [uN::checked_add]. *)
Definition u_try_from (max z : Z) : option Z :=
  if (0 <=? z) && (z <=? max) then Some z else None.
Definition u_checked_add (max a b : Z) : option Z :=
  if a + b <=? max then Some (a + b) else None.

Lemma u_checked_add_Some max a b c :
  u_checked_add max a b = Some c ↔ c = a + b ∧ a + b ≤ max.
Proof. unfold u_checked_add. case_if; b2p; naive_solver lia. Qed.

Lemma u_try_from_Some max a c : u_try_from max a = Some c ↔ c = a ∧ 0 ≤ a ≤ max.
Proof.
  unfold u_try_from. destruct (0 <=? a) eqn:?, (a <=? max) eqn:?; b2p; naive_solver lia.
Qed.

(** ** Strings *)

Definition code (a : ascii) : Z := Z.of_N (N_of_ascii a).
Definition between (lo hi : Z) (a : ascii) : bool := (lo <=? code a) && (code a <=? hi).

(** The [White_Space] characters of Unicode, by the number of their UTF-8
    bytes: U+0009..U+000D and U+0020; U+0085 and U+00A0; U+1680,
    U+2000..U+200A, U+2028, U+2029, U+202F, U+205F and U+3000. *)
Definition ws1 (a : ascii) : bool := between 9 13 a || (code a =? 32).
Definition ws2 (a b : ascii) : bool :=
  (code a =? 0xC2) && ((code b =? 0x85) || (code b =? 0xA0)).
Definition ws3 (a b c : ascii) : bool :=
  ((code a =? 0xE1) && (code b =? 0x9A) && (code c =? 0x80))
  || ((code a =? 0xE2) && (code b =? 0x80)
      && (between 0x80 0x8A c || (code c =? 0xA8) || (code c =? 0xA9) || (code c =? 0xAF)))
  || ((code a =? 0xE2) && (code b =? 0x81) && (code c =? 0x9F))
  || ((code a =? 0xE3) && (code b =? 0x80) && (code c =? 0x80)).

(** Strips the white space a sequence of bytes starts with; [w2] and [w3] say
    which two and three bytes make a white-space character in reading order. *)
Fixpoint strip (w2 : ascii → ascii → bool) (w3 : ascii → ascii → ascii → bool)
    (l : list ascii) : list ascii :=
  match l with
  | [] => []
  | a :: l1 =>
      if ws1 a then strip w2 w3 l1 else
      match l1 with
      | [] => l
      | b :: l2 =>
          if w2 a b then strip w2 w3 l2 else
          match l2 with
          | [] => l
          | c :: l3 => if w3 a b c then strip w2 w3 l3 else l
          end
      end
  end.

(** [str::trim]: on valid UTF-8 a lead byte fixes the length of its character,
    so the bytes can be matched from either end. *)
Definition trim_ascii_list (l : list ascii) : list ascii :=
  let l1 := strip ws2 ws3 l in
  rev (strip (λ b a, ws2 a b) (λ c b a, ws3 a b c) (rev l1)).

Definition chars (s : str) : list ascii := list_ascii_of_string s.
Definition of_chars (l : list ascii) : str := string_of_list_ascii l.
Definition trim (s : str) : str := of_chars (trim_ascii_list (chars s)).
Definition is_empty (s : str) : bool := bool_decide (s = EmptyString).
Definition str_len (s : str) : Z := Z.of_nat (String.length s).

(** [str::as_bytes] and [String::from_utf8] on the bytes of a [str]. *)
Definition as_bytes (s : str) : bytes := list_byte_of_string s.
Definition from_bytes (b : bytes) : str := string_of_list_byte b.

Definition is_ascii_digit (a : ascii) : bool := between 48 57 a.
Definition is_ascii_uppercase (a : ascii) : bool := between 65 90 a.
Definition is_ascii_lowercase (a : ascii) : bool := between 97 122 a.
Definition is_ascii_hexdigit (a : ascii) : bool :=
  is_ascii_digit a || between 65 70 a || between 97 102 a.

Definition ascii_to_lower (a : ascii) : ascii :=
  if is_ascii_uppercase a then ascii_of_N (N_of_ascii a + 32) else a.
Definition ascii_to_upper (a : ascii) : ascii :=
  if is_ascii_lowercase a then ascii_of_N (N_of_ascii a - 32) else a.
Definition to_ascii_lowercase (s : str) : str := of_chars (ascii_to_lower <$> chars s).
Definition to_ascii_uppercase (s : str) : str := of_chars (ascii_to_upper <$> chars s).

(** [str::ends_with] and the slices [&s[..n]], [&s[n..]]. *)
Definition ends_with (s suffix : str) : bool :=
  bool_decide (chars suffix `suffix_of` chars s).
Definition slice_to (s : str) (n : nat) : str := of_chars (take n (chars s)).
Definition slice_from (s : str) (n : nat) : str := of_chars (drop n (chars s)).

(** [str::strip_prefix]. *)
Fixpoint strip_prefix (p s : str) : option str :=
  match p, s with
  | EmptyString, _ => Some s
  | String a p, String b s => if Ascii.eqb a b then strip_prefix p s else None
  | String _ _, EmptyString => None
  end.

(** [str::starts_with] and [str::contains]. *)
Definition starts_with (s prefix : str) : bool :=
  match strip_prefix prefix s with Some _ => true | None => false end.
Fixpoint str_contains (s t : str) : bool :=
  starts_with s t || match s with EmptyString => false | String _ s => str_contains s t end.

(** [i32 as u32] and the signed bounds. *)
Definition i32_max : Z := 2147483647.
Definition is_i32 (z : Z) : Prop := - (i32_max + 1) ≤ z ≤ i32_max.
Definition is_i64 (z : Z) : Prop := - (i64_max + 1) ≤ z ≤ i64_max.
Definition i32_as_u32 (z : Z) : Z := z mod (u32_max + 1).

(** [std::str::from_utf8]: the byte sequences of RFC 3629. *)
Definition utf8_cont (a : ascii) : bool := between 0x80 0xBF a.
Fixpoint utf8_valid (l : list ascii) : bool :=
  match l with
  | [] => true
  | a :: l1 =>
      if code a <? 0x80 then utf8_valid l1 else
      match l1 with
      | [] => false
      | b :: l2 =>
          if between 0xC2 0xDF a then utf8_cont b && utf8_valid l2 else
          match l2 with
          | [] => false
          | c :: l3 =>
              if code a =? 0xE0 then between 0xA0 0xBF b && utf8_cont c && utf8_valid l3
              else if code a =? 0xED then between 0x80 0x9F b && utf8_cont c && utf8_valid l3
              else if between 0xE1 0xEF a then utf8_cont b && utf8_cont c && utf8_valid l3 else
              match l3 with
              | [] => false
              | d :: l4 =>
                  if code a =? 0xF0 then between 0x90 0xBF b && utf8_cont c && utf8_cont d && utf8_valid l4
                  else if between 0xF1 0xF3 a then utf8_cont b && utf8_cont c && utf8_cont d && utf8_valid l4
                  else if code a =? 0xF4
                  then between 0x80 0x8F b && utf8_cont c && utf8_cont d && utf8_valid l4
                  else false
              end
          end
      end
  end.
Definition from_utf8 (b : bytes) : option str :=
  if utf8_valid (chars (from_bytes b)) then Some (from_bytes b) else None.

(** [str::parse] at an unsigned type: an optional [+], then decimal digits within
    range. *)
Fixpoint digits_value (acc : Z) (l : list ascii) : option Z :=
  match l with
  | [] => Some acc
  | a :: l => if is_ascii_digit a then digits_value (10 * acc + (code a - 48)) l else None
  end.
Definition parse_uint (max : Z) (s : str) : option Z :=
  let body := match chars s with "+"%char :: l => l | l => l end in
  match body with
  | [] => None
  | _ => v ← digits_value 0 body; u_try_from max v
  end.
Definition parse_u8 : str → option Z := parse_uint u8_max.
Definition parse_u32 : str → option Z := parse_uint u32_max.

(** Decimal text of an integer, as [to_string] prints it. *)
Definition int_to_string (z : Z) : str := pretty z.

(** [Iterator::any] with [==] over a table of strings. *)
Definition str_in (s : str) (l : list str) : bool := bool_decide (s ∈ l).

(** ** Lemmas on strings *)

Lemma of_chars_chars s : of_chars (chars s) = s.
Proof. apply string_of_list_ascii_of_string. Qed.

Lemma chars_of_chars l : chars (of_chars l) = l.
Proof. apply list_ascii_of_string_of_list_ascii. Qed.

Lemma chars_inj s t : chars s = chars t → s = t.
Proof. intros H. by rewrite -(of_chars_chars s) H of_chars_chars. Qed.

Lemma chars_app s t : chars (s +:+ t) = chars s ++ chars t.
Proof. induction s as [|a s IH]; simpl; [done|]. unfold chars in *. by rewrite IH. Qed.

Lemma length_chars s : length (chars s) = String.length s.
Proof. induction s; simpl; congruence. Qed.

Lemma from_bytes_as_bytes s : from_bytes (as_bytes s) = s.
Proof. apply string_of_list_byte_of_string. Qed.

Lemma as_bytes_inj s t : as_bytes s = as_bytes t → s = t.
Proof. intros H. by rewrite -(from_bytes_as_bytes s) H from_bytes_as_bytes. Qed.

Lemma length_as_bytes s : length (as_bytes s) = String.length s.
Proof.
  unfold as_bytes, list_byte_of_string. by rewrite length_map length_chars.
Qed.

(** An ASCII byte that is not white space: no white-space character of any
    length starts or ends with it. *)
Definition plain (a : ascii) : bool := (code a <? 128) && negb (ws1 a).

Lemma ws2_ends a b : ws2 a b = true → 128 ≤ code a ∧ 128 ≤ code b.
Proof. unfold ws2. intros H. b2p. apply orb_true_iff in H0 as [?|?]; b2p; lia. Qed.

Lemma ws3_ends a b c : ws3 a b c = true → 128 ≤ code a ∧ 128 ≤ code c.
Proof.
  unfold ws3, between. intros H.
  repeat match goal with
  | H : (_ || _) = true |- _ => apply orb_true_iff in H as [?|?]
  | _ => progress b2p
  end; lia.
Qed.

Section strip.
Context (w2 : ascii → ascii → bool) (w3 : ascii → ascii → ascii → bool).
Hypothesis Hw2 : ∀ a b, w2 a b = true → 128 ≤ code a.
Hypothesis Hw3 : ∀ a b c, w3 a b c = true → 128 ≤ code a.

Lemma strip_plain a l : plain a = true → strip w2 w3 (a :: l) = a :: l.
Proof.
  unfold plain. intros H. b2p. simpl. rewrite H0.
  destruct l as [|b [|c l]]; [done|..].
  - destruct (w2 a b) eqn:E; [|done]. apply Hw2 in E; lia.
  - destruct (w2 a b) eqn:E; [apply Hw2 in E; lia|].
    destruct (w3 a b c) eqn:E3; [|done]. apply Hw3 in E3; lia.
Qed.

(** Stripping removes a prefix and nothing else. *)
Lemma strip_is_suffix l : strip w2 w3 l `suffix_of` l.
Proof.
  induction l as [l IH] using (induction_ltof1 _ length); unfold ltof in IH.
  assert (∀ k l', l = k ++ l' → k ≠ [] → strip w2 w3 l' `suffix_of` l) as IH'.
  { intros k l' -> Hk. etrans; [apply IH|by exists k].
    rewrite length_app. destruct k; simpl; [done|lia]. }
  destruct l as [|a l1]; [done|]. simpl. case_if; [by apply (IH' [a])|].
  destruct l1 as [|b l2]; [done|]. case_if; [by apply (IH' [a; b])|].
  destruct l2 as [|c l3]; [done|]. case_if; [by apply (IH' [a; b; c])|done].
Qed.
End strip.

Lemma strip_fwd_plain a l : plain a = true → strip ws2 ws3 (a :: l) = a :: l.
Proof.
  apply strip_plain; [by intros ?? [? _]%ws2_ends|by intros ??? [? _]%ws3_ends].
Qed.

Lemma strip_bwd_plain a l :
  plain a = true → strip (λ b a, ws2 a b) (λ c b a, ws3 a b c) (a :: l) = a :: l.
Proof.
  apply strip_plain; [by intros ?? [_ ?]%ws2_ends|by intros ??? [_ ?]%ws3_ends].
Qed.

(** A string that starts and ends with a plain byte is its own [trim]. *)
Lemma trim_plain_ends s a l k b :
  chars s = a :: l → chars s = k ++ [b] → plain a = true → plain b = true → trim s = s.
Proof.
  intros Ha Hb Hpa Hpb. unfold trim, trim_ascii_list.
  rewrite Ha strip_fwd_plain // -Ha Hb rev_unit strip_bwd_plain //.
  by rewrite -rev_unit rev_involutive -Hb of_chars_chars.
Qed.

Lemma trim_all_plain s : Forall (λ a, plain a = true) (chars s) → trim s = s.
Proof.
  intros H. destruct (chars s) as [|a l] eqn:E.
  { unfold trim. rewrite E /=. symmetry. apply chars_inj. by rewrite E. }
  destruct (exists_last (l := a :: l)) as (k & b & Hk); [done|].
  eapply trim_plain_ends; [done|by rewrite E|by inversion H|].
  rewrite Hk in H. apply Forall_app in H as [_ H]. by inversion H.
Qed.

Lemma strip_prefix_app p s : strip_prefix p (p +:+ s) = Some s.
Proof. induction p as [|a p IH]; simpl; [done|]. by rewrite Ascii.eqb_refl. Qed.

Lemma strip_prefix_Some p s t : strip_prefix p s = Some t ↔ s = p +:+ t.
Proof.
  split; [|intros ->; apply strip_prefix_app].
  revert s. induction p as [|a p IH]; intros s; simpl; [by intros [= ->]|].
  destruct s as [|b s]; [done|]. destruct (Ascii.eqb_spec a b) as [->|]; [|done]. by intros ->%IH.
Qed.

Lemma parse_uint_range max s v : parse_uint max s = Some v → 0 ≤ v ≤ max.
Proof.
  unfold parse_uint. cbv zeta. generalize (match chars s with "+"%char :: l => l | l => l end) as body.
  intros [|a body]; [done|]. intros (z & _ & [-> ?]%u_try_from_Some)%bind_Some. done.
Qed.

Lemma parse_u8_in_range s v : parse_u8 s = Some v → is_u8 v.
Proof. apply parse_uint_range. Qed.

Lemma utf8_valid_ascii l : Forall (λ a, code a < 128) l → utf8_valid l = true.
Proof. induction 1 as [|a l Ha _ IH]; simpl; [done|]. by rewrite (proj2 (Z.ltb_lt _ _) Ha). Qed.

Lemma from_utf8_as_bytes s : utf8_valid (chars s) = true → from_utf8 (as_bytes s) = Some s.
Proof. intros H. unfold from_utf8. by rewrite from_bytes_as_bytes H. Qed.

Lemma trim_empty s : s = EmptyString → trim s = EmptyString.
Proof. by intros ->. Qed.

Lemma is_empty_true s : is_empty s = true ↔ s = EmptyString.
Proof. apply bool_decide_eq_true. Qed.

Lemma is_empty_false s : is_empty s = false ↔ s ≠ EmptyString.
Proof. apply bool_decide_eq_false. Qed.

Example trim_examples :
  trim "  a b  "%string = "a b"%string ∧ trim "　あ "%string = "あ"%string
  ∧ trim " "%string = EmptyString.
Proof. vm_compute. done. Qed.

Example parse_u8_examples :
  parse_u8 "05" = Some 5 ∧ parse_u8 "255" = Some 255 ∧ parse_u8 "256" = None
  ∧ parse_u8 EmptyString = None ∧ parse_u8 "+" = None.
Proof. vm_compute. done. Qed.

#[export] Hint Rewrite of_chars_chars chars_of_chars from_bytes_as_bytes : mips.
