(* ===== verification/Json.v ===== *)
(** * JSON values and maps

    [serde_json::Value], [Number] and [Map<String, Value>].  The crate is built
    without [preserve_order], so a map is a [BTreeMap]: it is kept here as an
    association list whose keys increase in byte order, and iteration follows
    that order.  A [JObject] that is built only to be serialized (a
    [#[derive(Serialize)]] struct) lists its fields in declaration order. *)

From S2P Require Import Prelude RustStd.

(** [Float] carries the text the number prints as: the program only asks
    whether a number is an unsigned integer and prints it in errors. *)
Inductive Number :=
| PosInt (n : Z)
| NegInt (n : Z)
| Float (text : str).

Inductive Value :=
| JNull
| JBool (b : bool)
| JNumber (n : Number)
| JString (s : str)
| JArray (l : list Value)
| JObject (m : list (str * Value)).

Abbreviation Map := (list (str * Value)) (only parsing).

Definition number_as_u64 (n : Number) : option Z :=
  match n with PosInt z => Some z | _ => None end.
Definition number_to_string (n : Number) : str :=
  match n with PosInt z | NegInt z => int_to_string z | Float t => t end.

Definition as_object (v : Value) : option Map :=
  match v with JObject m => Some m | _ => None end.
Definition as_str (v : Value) : option str :=
  match v with JString s => Some s | _ => None end.
Definition as_u64 (v : Value) : option Z :=
  match v with JNumber n => number_as_u64 n | _ => None end.
Definition is_null (v : Value) : bool := match v with JNull => true | _ => false end.

(** The number literal [json!] makes of an unsigned integer. *)
Definition json_uint (z : Z) : Value := JNumber (PosInt z).
(** [Option<&str>] as [Serialize] writes it. *)
Definition json_opt_str (o : option str) : Value :=
  match o with Some s => JString s | None => JNull end.

(** ** Map operations *)

Section map.
Context {V : Type}.
Implicit Types m l : list (str * V).

Fixpoint map_get (k : str) m : option V :=
  match m with
  | [] => None
  | (k', v) :: m => if String.eqb k k' then Some v else map_get k m
  end.

Fixpoint map_insert (k : str) (v : V) m : list (str * V) :=
  match m with
  | [] => [(k, v)]
  | (k', v') :: m' =>
      match String.compare k k' with
      | Lt => (k, v) :: m
      | Eq => (k, v) :: m'
      | Gt => (k', v') :: map_insert k v m'
      end
  end.

Definition map_contains_key (k : str) m : bool :=
  match map_get k m with Some _ => true | None => false end.

(** A map built by inserting the pairs one after the other, as [json!] and the
    parser do. *)
Definition map_of_list l : list (str * V) :=
  fold_left (λ m p, map_insert p.1 p.2 m) l [].

Definition str_lt (s t : str) : Prop := String.compare s t = Lt.
Definition map_sorted m : Prop := StronglySorted str_lt m.*1.
End map.

(** ** The value read back from its text

    Parsing gives every object as a map. *)
Fixpoint normalize (v : Value) : Value :=
  match v with
  | JArray l => JArray (List.map normalize l)
  | JObject m => JObject (map_of_list (List.map (λ p, (fst p, normalize (snd p))) m))
  | v => v
  end.

Definition number_exact (n : Number) : bool :=
  match n with
  | PosInt z => (0 <=? z) && (z <=? u64_max)
  | NegInt z => (- (i64_max + 1) <=? z) && (z <? 0)
  | Float _ => false
  end.

(** Values whose text determines them: integer numbers in range, distinct keys
    in each object, and nesting below the parser's recursion limit. *)
Fixpoint json_exact (depth : nat) (v : Value) : bool :=
  match v with
  | JNull | JBool _ | JString _ => true
  | JNumber n => number_exact n
  | JArray l =>
      match depth with
      | O => false
      | S d => forallb (json_exact d) l
      end
  | JObject m =>
      match depth with
      | O => false
      | S d => bool_decide (NoDup m.*1) && forallb (λ p, json_exact d (snd p)) m
      end
  end.
Definition json_max_depth : nat := 127.

Lemma json_exact_object_S d m :
  json_exact (S d) (JObject m) = true ↔ NoDup m.*1 ∧ Forall (λ p, json_exact d p.2 = true) m.
Proof.
  cbn [json_exact]. rewrite andb_true_iff bool_decide_eq_true.
  by rewrite forallb_forall List.Forall_forall.
Qed.
Lemma json_exact_object m :
  json_exact json_max_depth (JObject m) = true ↔
  NoDup m.*1 ∧ Forall (λ p, json_exact 126 p.2 = true) m.
Proof. exact (json_exact_object_S 126 m). Qed.

(** ** Induction and decidable equality *)

Section value_ind.
Context (P : Value → Prop).
Hypothesis Hnull : P JNull.
Hypothesis Hbool : ∀ b, P (JBool b).
Hypothesis Hnum : ∀ n, P (JNumber n).
Hypothesis Hstr : ∀ s, P (JString s).
Hypothesis Harr : ∀ l, Forall P l → P (JArray l).
Hypothesis Hobj : ∀ m, Forall (λ p, P (snd p)) m → P (JObject m).

Fixpoint Value_ind' (v : Value) : P v :=
  match v with
  | JNull => Hnull
  | JBool b => Hbool b
  | JNumber n => Hnum n
  | JString s => Hstr s
  | JArray l => Harr l
      ((fix go l : Forall P l :=
          match l with
          | [] => Forall_nil_2 P
          | v :: l => Forall_cons_2 P v l (Value_ind' v) (go l)
          end) l)
  | JObject m => Hobj m
      ((fix go m : Forall (λ p, P (snd p)) m :=
          match m with
          | [] => Forall_nil_2 _
          | p :: m => Forall_cons_2 (λ p, P (snd p)) p m (Value_ind' (snd p)) (go m)
          end) m)
  end.
End value_ind.

Lemma json_exact_S d v : json_exact d v = true → json_exact (S d) v = true.
Proof.
  revert d. induction v as [| | | |l IH|m IH] using Value_ind'; intros [|d]; try done.
  - cbn [json_exact]. rewrite !forallb_forall. intros H x Hx. apply (proj1 (List.Forall_forall _ _) IH); auto.
  - cbn [json_exact]. rewrite !andb_true_iff !forallb_forall. intros [Hn H]. split; [done|].
    intros x Hx. apply (proj1 (List.Forall_forall _ _) IH); auto.
Qed.

#[global] Instance Number_eq_dec : EqDecision Number.
Proof. solve_decision. Defined.

Fixpoint value_eqb (v w : Value) : bool :=
  match v, w with
  | JNull, JNull => true
  | JBool a, JBool b => Bool.eqb a b
  | JNumber a, JNumber b => bool_decide (a = b)
  | JString a, JString b => String.eqb a b
  | JArray l, JArray k =>
      (fix go l k := match l, k with
        | [], [] => true
        | v :: l, w :: k => value_eqb v w && go l k
        | _, _ => false
        end) l k
  | JObject l, JObject k =>
      (fix go l k := match l, k with
        | [], [] => true
        | p :: l, q :: k =>
            String.eqb (fst p) (fst q) && value_eqb (snd p) (snd q) && go l k
        | _, _ => false
        end) l k
  | _, _ => false
  end.

Lemma value_eqb_eq v w : value_eqb v w = true ↔ v = w.
Proof.
  revert w. induction v as [| | | |l IH|m IH] using Value_ind'; intros [| | | |k|k]; simpl;
    try (split; congruence).
  - rewrite Bool.eqb_true_iff. split; congruence.
  - rewrite bool_decide_eq_true. split; congruence.
  - rewrite String.eqb_eq. split; congruence.
  - trans (l = k); [|split; congruence]. revert k.
    induction IH as [|v l Hv _ IHl]; intros [|w k]; try (split; congruence).
    rewrite andb_true_iff Hv IHl. split; [naive_solver|by intros [= -> ->]].
  - trans (m = k); [|split; congruence]. revert k.
    induction IH as [|[x v] l Hv _ IHl]; intros [|[y w] k]; try (split; congruence).
    simpl in *. rewrite !andb_true_iff String.eqb_eq Hv IHl.
    split; [naive_solver|by intros [= -> -> ->]].
Qed.

#[global] Instance Value_eq_dec : EqDecision Value.
Proof.
  intros v w. destruct (value_eqb v w) eqn:E; [left|right].
  - by apply value_eqb_eq.
  - intros Heq%value_eqb_eq. congruence.
Defined.

(** ** Lemmas on maps *)

Lemma str_compare_refl s : String.compare s s = Eq.
Proof.
  induction s as [|a s IH]; simpl; [done|].
  unfold Ascii.compare. by rewrite N.compare_refl.
Qed.

Lemma str_compare_eq s t : String.compare s t = Eq ↔ s = t.
Proof. split; [apply String.compare_eq_iff|intros ->; apply str_compare_refl]. Qed.

Lemma str_lt_trans s t u : str_lt s t → str_lt t u → str_lt s u.
Proof.
  unfold str_lt. revert t u.
  induction s as [|a s IH]; intros [|b t] [|c u]; simpl; try done.
  unfold Ascii.compare.
  destruct (N.compare_spec (N_of_ascii a) (N_of_ascii b)) as [Hab|Hab|Hab]; try done;
  destruct (N.compare_spec (N_of_ascii b) (N_of_ascii c)) as [Hbc|Hbc|Hbc]; try done;
  destruct (N.compare_spec (N_of_ascii a) (N_of_ascii c)) as [Hac|Hac|Hac]; try done;
  first [lia|by eauto].
Qed.

Lemma str_lt_irrefl s : ¬ str_lt s s.
Proof. unfold str_lt. by rewrite str_compare_refl. Qed.

Lemma str_lt_compare_swap s t : str_lt s t → String.compare t s = Gt.
Proof. unfold str_lt. rewrite String.compare_antisym. by destruct (String.compare t s). Qed.

Section map_lemmas.
Context {V : Type}.
Implicit Types m l : list (str * V).

Lemma map_get_insert j k v m :
  map_get j (map_insert k v m) = if String.eqb j k then Some v else map_get j m.
Proof.
  induction m as [|[k' v'] m IH]; simpl; [done|].
  destruct (String.compare k k') eqn:E; simpl.
  - apply str_compare_eq in E as ->. by destruct (String.eqb j k').
  - done.
  - rewrite IH. destruct (String.eqb_spec j k') as [->|]; [|done].
    destruct (String.eqb_spec k' k) as [->|]; [|done]. by rewrite str_compare_refl in E.
Qed.

Lemma map_get_elem k v m : map_get k m = Some v → (k, v) ∈ m.
Proof.
  induction m as [|[k' v'] m IH]; simpl; [done|].
  destruct (String.eqb_spec k k') as [->|].
  - intros [= ->]. left.
  - intros ?. right. by apply IH.
Qed.

Lemma map_get_None k m : map_get k m = None ↔ k ∉ m.*1.
Proof.
  induction m as [|[k' v'] m IH]; [split; [intros _; apply not_elem_of_nil|done]|].
  rewrite fmap_cons not_elem_of_cons /= -IH.
  destruct (String.eqb_spec k k') as [->|]; naive_solver.
Qed.

Lemma map_contains_key_true k m : map_contains_key k m = true ↔ k ∈ m.*1.
Proof.
  unfold map_contains_key. destruct (map_get k m) eqn:E.
  - split; [|done]. intros _. apply map_get_elem in E. by apply (list_elem_of_fmap_2 fst) in E.
  - split; [done|]. intros ?. by apply map_get_None in E.
Qed.

Lemma elem_map_get k v m : NoDup m.*1 → (k, v) ∈ m → map_get k m = Some v.
Proof.
  induction m as [|[k' v'] m IH]; simpl; [by intros _ ?%not_elem_of_nil|].
  rewrite NoDup_cons. intros [Hk' Hm] [[= -> ->]|Hin]%elem_of_cons.
  - by rewrite String.eqb_refl.
  - destruct (String.eqb_spec k k') as [->|]; [|by apply IH].
    exfalso. apply Hk'. by apply (list_elem_of_fmap_2 fst) in Hin.
Qed.

Lemma map_get_fold_notin k l m :
  k ∉ l.*1 → map_get k (fold_left (λ m p, map_insert p.1 p.2 m) l m) = map_get k m.
Proof.
  revert m. induction l as [|[k' v'] l IH]; intros m; simpl; [done|].
  rewrite not_elem_of_cons. intros [Hne Hk]. rewrite IH // map_get_insert.
  by destruct (String.eqb_spec k k').
Qed.

Lemma map_get_fold k l m :
  NoDup l.*1 →
  map_get k (fold_left (λ m p, map_insert p.1 p.2 m) l m) =
  match map_get k l with Some v => Some v | None => map_get k m end.
Proof.
  revert m. induction l as [|[k' v'] l IH]; intros m; simpl; [done|].
  rewrite NoDup_cons. intros [Hk' Hl].
  destruct (String.eqb_spec k k') as [->|Hne].
  - rewrite map_get_fold_notin // map_get_insert. by rewrite String.eqb_refl.
  - rewrite IH // map_get_insert. by destruct (String.eqb_spec k k').
Qed.

Lemma map_get_of_list k l : NoDup l.*1 → map_get k (map_of_list l) = map_get k l.
Proof.
  intros Hl. unfold map_of_list. rewrite map_get_fold //. by destruct (map_get k l).
Qed.

(** Two field lists with the same names are equal when they make the same map. *)
Lemma map_of_list_same_keys l1 l2 :
  l1.*1 = l2.*1 → NoDup l1.*1 → map_of_list l1 = map_of_list l2 → l1 = l2.
Proof.
  intros Hk Hnd Heq.
  assert (∀ k v1 v2, (k, v1) ∈ l1 → (k, v2) ∈ l2 → v1 = v2) as Hag.
  { intros k v1 v2 H1%elem_map_get H2%elem_map_get; [|by rewrite -Hk|done].
    rewrite -map_get_of_list // Heq map_get_of_list in H1; [congruence|by rewrite -Hk]. }
  clear Heq Hnd. revert l2 Hk Hag.
  induction l1 as [|[k1 v1] l1 IH]; intros [|[k2 v2] l2] Hk Hag; simplify_eq/=; [done|].
  rewrite (Hag k2 v1 v2); [|by left|by left]. f_equal.
  apply IH; [done|]. intros k w1 w2 ??. eapply Hag; by right.
Qed.

Lemma map_insert_last k v m :
  Forall (λ p, str_lt p.1 k) m → map_insert k v m = m ++ [(k, v)].
Proof.
  induction 1 as [|[k' v'] m Hk' Hm IH]; simpl in *; [done|].
  by rewrite str_lt_compare_swap // IH.
Qed.

Lemma map_fold_sorted l m :
  map_sorted l → Forall (λ p, Forall (λ q, str_lt p.1 q.1) l) m →
  fold_left (λ m p, map_insert p.1 p.2 m) l m = m ++ l.
Proof.
  unfold map_sorted. revert m.
  induction l as [|[k v] l IH]; intros m Hs Hm; cbn [fold_left fst snd]; [by rewrite app_nil_r|].
  rewrite fmap_cons in Hs. apply StronglySorted_inv in Hs as [Hs Hk].
  rewrite map_insert_last; [|eapply Forall_impl; [done|]; by intros ? []%Forall_cons].
  rewrite IH //; [by rewrite -app_assoc|]. apply Forall_app; split.
  - eapply Forall_impl; [done|]. by intros ? [_ ?]%Forall_cons.
  - constructor; [|done]. revert Hk. by rewrite Forall_fmap.
Qed.

(** A field list already in key order is its own map. *)
Lemma map_of_list_sorted l : map_sorted l → map_of_list l = l.
Proof. intros. by apply map_fold_sorted. Qed.

Lemma map_insert_keys j k v m : j ∈ (map_insert k v m).*1 → j = k ∨ j ∈ m.*1.
Proof.
  intros Hj. destruct (decide (j = k)) as [|Hne]; [by left|right].
  destruct (decide (j ∈ m.*1)) as [|Hm]; [done|].
  apply map_get_None in Hm. exfalso. revert Hj.
  apply map_get_None. rewrite map_get_insert. by destruct (String.eqb_spec j k).
Qed.

Lemma map_sorted_insert k v m : map_sorted m → map_sorted (map_insert k v m).
Proof.
  unfold map_sorted. induction m as [|[k' v'] m IH]; simpl; [repeat constructor|].
  intros [Hs Hk]%StronglySorted_inv. destruct (String.compare k k') eqn:E; simpl.
  - apply str_compare_eq in E as ->. by constructor.
  - constructor; [by constructor|]. constructor; [done|].
    eapply Forall_impl; [done|]. intros j ?. by eapply str_lt_trans.
  - constructor; [by apply IH|]. apply Forall_forall. intros j [->|Hj]%map_insert_keys.
    + unfold str_lt. by rewrite String.compare_antisym E.
    + by eapply Forall_forall in Hk.
Qed.

Lemma map_sorted_of_list l : map_sorted (map_of_list l).
Proof.
  unfold map_of_list. cut (∀ m, map_sorted m →
    map_sorted (fold_left (λ m p, map_insert p.1 p.2 m) l m)).
  { intros H. apply H. constructor. }
  induction l as [|[k v] l IH]; intros m Hm; simpl; [done|]. by apply IH, map_sorted_insert.
Qed.

Lemma map_sorted_NoDup m : map_sorted m → NoDup m.*1.
Proof.
  unfold map_sorted. generalize m.*1 as ks. intros ks.
  induction 1 as [|k ks Hs IH Hk]; constructor; [|done].
  intros Hin. eapply Forall_forall in Hk; [|done]. by eapply str_lt_irrefl.
Qed.

Lemma map_insert_same k v m : map_sorted m → map_get k m = Some v → map_insert k v m = m.
Proof.
  unfold map_sorted. induction m as [|[k' v'] m IH]; simpl; [done|].
  intros [Hs Hk]%StronglySorted_inv. destruct (String.eqb_spec k k') as [->|Hne].
  - rewrite str_compare_refl. by intros [= ->].
  - intros Hg. pose proof (map_get_elem _ _ _ Hg) as Hin. apply (list_elem_of_fmap_2 fst) in Hin.
    rewrite Forall_forall in Hk. apply Hk, str_lt_compare_swap in Hin. simpl in Hin.
    rewrite Hin. by rewrite IH.
Qed.
End map_lemmas.

(** Closed facts on key lists (distinct, sorted, a member) by evaluation. *)
Ltac decide_keys := apply (bool_decide_eq_true_1 _); vm_compute; reflexivity.

#[global] Instance str_lt_dec s t : Decision (str_lt s t).
Proof. unfold str_lt. apply _. Defined.

Fixpoint strictly_sorted (l : list str) : bool :=
  match l with
  | s :: (t :: _) as l' => bool_decide (str_lt s t) && strictly_sorted l'
  | _ => true
  end.

Lemma strictly_sorted_StronglySorted l : strictly_sorted l = true → StronglySorted str_lt l.
Proof.
  intros H. apply Sorted_StronglySorted; [intros s t u; apply str_lt_trans|].
  induction l as [|s [|t l] IH]; simpl in *; [constructor|repeat constructor|].
  b2p. constructor; [by apply IH|by constructor].
Qed.

(** ** The values [serde_json]'s types can hold

    Integers within their machine width and objects with their keys in order. *)
Fixpoint representable (v : Value) : bool :=
  match v with
  | JNumber (PosInt z) => (0 <=? z) && (z <=? u64_max)
  | JNumber (NegInt z) => (- (i64_max + 1) <=? z) && (z <? 0)
  | JArray l => forallb representable l
  | JObject m => strictly_sorted m.*1 && forallb (λ p, representable (snd p)) m
  | _ => true
  end.

Lemma representable_object m :
  representable (JObject m) = true → map_sorted m ∧ Forall (λ p, representable p.2 = true) m.
Proof.
  cbn [representable]. intros [Hs Hf]%andb_true_iff. split.
  - by apply strictly_sorted_StronglySorted.
  - rewrite forallb_forall in Hf. by apply List.Forall_forall.
Qed.

(** Parsing its text changes nothing in a value the program can hold. *)
Lemma normalize_representable v : representable v = true → normalize v = v.
Proof.
  induction v as [| | | |l IH|m IH] using Value_ind'; intros Hv; try done.
  - cbn [normalize representable] in *. f_equal. induction IH as [|v l Hx _ IHl]; [done|].
    cbn [forallb] in Hv. apply andb_true_iff in Hv as [Hv1 Hv2]. cbn [List.map]. by rewrite Hx // IHl.
  - apply representable_object in Hv as [Hs Hf]. cbn [normalize]. f_equal.
    assert (List.map (λ p, (p.1, normalize p.2)) m = m) as ->; [|by apply map_of_list_sorted].
    clear Hs. induction IH as [|[k v] m Hx _ IHm]; [done|]. apply Forall_cons in Hf as [Hv Hf].
    cbn [List.map fst snd] in *. by rewrite Hx // IHm.
Qed.

Lemma map_get_map {V W} (f : V → W) k (m : list (str * V)) :
  map_get k (List.map (λ p, (p.1, f p.2)) m) = f <$> map_get k m.
Proof. induction m as [|[k' v] m IH]; [done|]. simpl. by destruct (String.eqb k k'). Qed.

(** A map filled by inserting holds the last value of each key. *)
Lemma map_get_of_list_last {V} k v (l : list (str * V)) :
  map_get k (map_of_list l) = Some v ↔ ∃ l1 l2, l = l1 ++ (k, v) :: l2 ∧ k ∉ l2.*1.
Proof.
  unfold map_of_list. induction l as [|[k' v'] l IH] using rev_ind.
  { split; [done|]. intros ([] & ? & ? & _); done. }
  rewrite fold_left_app /= map_get_insert. destruct (String.eqb_spec k k') as [->|Hne].
  - split.
    + intros [= ->]. exists l, []. split; [done|]. by apply not_elem_of_nil.
    + intros (l1 & l2 & Heq & Hk). destruct l2 as [|p l2 _] using rev_ind.
      * apply app_inj_tail in Heq as [_ Heq]. congruence.
      * rewrite app_comm_cons app_assoc in Heq. apply app_inj_tail in Heq as [_ <-].
        rewrite fmap_app in Hk. set_solver.
  - rewrite IH. split.
    + intros (l1 & l2 & -> & Hk). exists l1, (l2 ++ [(k', v')]). split; [by rewrite -app_assoc|].
      rewrite fmap_app. set_solver.
    + intros (l1 & l2 & Heq & Hk). destruct l2 as [|p l2 _] using rev_ind.
      * apply app_inj_tail in Heq as [_ Heq]. congruence.
      * rewrite app_comm_cons app_assoc in Heq. apply app_inj_tail in Heq as [-> <-].
        exists l1, l2. split; [done|]. rewrite fmap_app in Hk. set_solver.
Qed.

(** Maps filled alike from related lists are related. *)
Lemma map_insert_Forall2 {V W} (R : V → W → Prop) k v w (m1 : list (str * V)) (m2 : list (str * W)) :
  R v w → Forall2 (λ a b, a.1 = b.1 ∧ R a.2 b.2) m1 m2 →
  Forall2 (λ a b, a.1 = b.1 ∧ R a.2 b.2) (map_insert k v m1) (map_insert k w m2).
Proof.
  intros Hvw. induction 1 as [|[k1 v1] [k2 v2] m1 m2 [Hk HR] Hm IH]; simpl in *; [by repeat constructor|].
  subst k2. destruct (String.compare k k1); repeat (constructor; [done|]); [done|done|done].
Qed.

Lemma map_of_list_Forall2 {V W} (R : V → W → Prop) (l1 : list (str * V)) (l2 : list (str * W)) :
  Forall2 (λ a b, a.1 = b.1 ∧ R a.2 b.2) l1 l2 →
  Forall2 (λ a b, a.1 = b.1 ∧ R a.2 b.2) (map_of_list l1) (map_of_list l2).
Proof.
  intros H. unfold map_of_list. cut (∀ m1 m2, Forall2 (λ a b, a.1 = b.1 ∧ R a.2 b.2) m1 m2 →
    Forall2 (λ a b, a.1 = b.1 ∧ R a.2 b.2) (fold_left (λ m p, map_insert p.1 p.2 m) l1 m1)
      (fold_left (λ m p, map_insert p.1 p.2 m) l2 m2)).
  { intros Hc. apply Hc. constructor. }
  induction H as [|[k1 v1] [k2 v2] l1 l2 [Hk HR] _ IH]; intros m1 m2 Hm; simpl in *; [done|].
  subst k2. by apply IH, map_insert_Forall2.
Qed.

(** Picking the keys of a sorted list out of a map that has no others gives the
    map back. *)
Lemma omap_get_sorted {V} (ks : list str) (m : list (str * V)) :
  StronglySorted str_lt ks → map_sorted m → m.*1 ⊆ ks →
  omap (λ k, (k,.) <$> map_get k m) ks = m.
Proof.
  revert m. induction ks as [|k ks IH]; intros m Hks Hm Hsub.
  { destruct m as [|[k v] m]; [done|]. exfalso. by eapply not_elem_of_nil, Hsub; left. }
  apply StronglySorted_inv in Hks as [Hks Hk]. destruct m as [|[k' v'] m].
  { clear. induction (k :: ks); [done|]. simpl. done. }
  unfold map_sorted in Hm. apply StronglySorted_inv in Hm as [Hm Hk'].
  destruct (decide (k = k')) as [->|Hne].
  - simpl. rewrite String.eqb_refl /=. f_equal. rewrite -{2}(IH m) //.
    + apply list_omap_ext, Forall_Forall2_diag, Forall_forall. intros j Hj. simpl.
      destruct (String.eqb_spec j k') as [->|]; [|done].
      rewrite Forall_forall in Hk. apply Hk in Hj. by apply str_lt_irrefl in Hj.
    + intros j Hj. assert (j ∈ k' :: ks) as [->|]%elem_of_cons; [by apply Hsub; right| |done].
      rewrite Forall_forall in Hk'. apply Hk' in Hj. by apply str_lt_irrefl in Hj.
  - assert (k' ∈ ks) as Hin.
    { assert (k' ∈ k :: ks) as [->|]%elem_of_cons; [apply Hsub; by left|done|done]. }
    assert (str_lt k k') as Hlt by (by eapply Forall_forall in Hk).
    assert (map_get k ((k', v') :: m) = None) as Hnone.
    { apply map_get_None. rewrite fmap_cons. intros [->|Hj]%elem_of_cons; [done|].
      eapply Forall_forall in Hk'; [|done]. simpl in Hk'.
      eapply str_lt_irrefl, str_lt_trans; done. }
    cbn [omap list_omap]. rewrite Hnone. simpl. apply (IH ((k', v') :: m)); [done|by constructor|].
    intros j Hj. assert (j ∈ k :: ks) as [->|]%elem_of_cons; [by apply Hsub| |done].
    exfalso. by apply map_get_None in Hnone.
Qed.

(** What a map holds after its pairs were inserted one after the other. *)
Lemma elem_map_of_list {V} (l : list (str * V)) p : NoDup l.*1 → p ∈ map_of_list l ↔ p ∈ l.
Proof.
  intros Hl. destruct p as [k v]. pose proof (map_get_of_list k l Hl) as Hg.
  split; intros Hp.
  - rewrite (elem_map_get k v) // in Hg; [by apply map_get_elem|apply map_sorted_NoDup, map_sorted_of_list].
  - rewrite (elem_map_get k v l) // in Hg. by apply map_get_elem.
Qed.

Lemma StronglySorted_strictly_sorted l : StronglySorted str_lt l → strictly_sorted l = true.
Proof.
  induction 1 as [|s l Hl IH Hs]; [done|]. destruct l as [|t l]; [done|].
  apply Forall_cons in Hs as [Hst _]. simpl in *. by rewrite bool_decide_eq_true_2.
Qed.

Lemma representable_of_list l :
  NoDup l.*1 → Forall (λ p, representable p.2 = true) l → representable (JObject (map_of_list l)) = true.
Proof.
  intros Hnd Hl. cbn [representable]. apply andb_true_iff. split.
  - apply StronglySorted_strictly_sorted, map_sorted_of_list.
  - apply forallb_forall. intros p Hp%list_elem_of_In. rewrite elem_map_of_list // in Hp.
    rewrite Forall_forall in Hl. by apply Hl.
Qed.

(** ** Keys at any depth

    The forbidden keys of ledger payloads and of audit metadata are looked for by
    the same traversal, in the order of the map and of the array, each with its
    own table and error. *)

Section keys.
Context {E : Type} (bad : str → bool) (error : str → E).

Fixpoint reject_keys (value : Value) : result E unit :=
  match value with
  | JObject object =>
      (fix go object :=
        match object with
        | [] => Ok tt
        | (key, nested) :: object =>
            if bad key then Err (error key) else _ ← reject_keys nested; go object
        end) object
  | JArray values =>
      (fix go values :=
        match values with
        | [] => Ok tt
        | nested :: values => _ ← reject_keys nested; go values
        end) values
  | JNull | JBool _ | JNumber _ | JString _ => Ok tt
  end.

(** A key that occurs in a value, at any depth. *)
Inductive key_occurs (k : str) : Value → Prop :=
| occurs_here o v : (k, v) ∈ o → key_occurs k (JObject o)
| occurs_in_field o k' v : (k', v) ∈ o → key_occurs k v → key_occurs k (JObject o)
| occurs_in_item l v : v ∈ l → key_occurs k v → key_occurs k (JArray l).

(** The outcome the traversal promises for a value. *)
Definition keys_verdict (v : Value) (r : result E unit) : Prop :=
  match r with
  | Ok _ => ∀ k, key_occurs k v → bad k = false
  | Err e => ∃ k, e = error k ∧ key_occurs k v ∧ bad k = true
  end.

Lemma key_occurs_array k v l :
  key_occurs k (JArray (v :: l)) ↔ key_occurs k v ∨ key_occurs k (JArray l).
Proof.
  split.
  - inversion 1; subst. set_unfold. naive_solver eauto using key_occurs.
  - intros [H|H]; [|inversion H; subst]; eapply occurs_in_item; eauto; set_solver.
Qed.

Lemma key_occurs_object k k' v o :
  key_occurs k (JObject ((k', v) :: o)) ↔ k = k' ∨ key_occurs k v ∨ key_occurs k (JObject o).
Proof.
  split.
  - inversion 1; subst; set_unfold; naive_solver eauto using key_occurs.
  - intros [->|[H|H]]; [eapply occurs_here; by left|eapply occurs_in_field; [by left|done]|].
    inversion H; subst; [eapply occurs_here|eapply occurs_in_field; [|done]]; by right.
Qed.

Lemma reject_keys_array l :
  Forall (λ v, keys_verdict v (reject_keys v)) l → keys_verdict (JArray l) (reject_keys (JArray l)).
Proof.
  induction 1 as [|v l Hv _ IH]; [intros k Hk; inversion Hk; set_solver|].
  cbn [reject_keys] in IH |- *. pose proof (λ k, key_occurs_array k v l).
  destruct (reject_keys v) as [[]|e]; [|cbn [keys_verdict] in *; naive_solver].
  cbn [mbind result_bind]. match goal with |- keys_verdict _ ?r => destruct r end;
    cbn [keys_verdict] in *; naive_solver.
Qed.

Lemma reject_keys_object o :
  Forall (λ q, keys_verdict q.2 (reject_keys q.2)) o → keys_verdict (JObject o) (reject_keys (JObject o)).
Proof.
  induction 1 as [|[k v] o Hv _ IH]; [intros k Hk; inversion Hk; set_solver|].
  cbn [reject_keys snd] in *. pose proof (λ k', key_occurs_object k' k v o). destruct (bad k) eqn:Hf.
  { exists k. split_and!; [done| |done]. apply key_occurs_object. by left. }
  destruct (reject_keys v) as [[]|e]; [|cbn [keys_verdict] in *; naive_solver].
  cbn [mbind result_bind]. match goal with |- keys_verdict _ ?r => destruct r end;
    cbn [keys_verdict] in *; naive_solver.
Qed.

Lemma reject_keys_spec v : keys_verdict v (reject_keys v).
Proof.
  induction v using Value_ind'; try (by intros k Hk; inversion Hk);
    [by apply reject_keys_array|by apply reject_keys_object].
Qed.
End keys.
