(* ===== verification/Platform.v ===== *)
(** * The crates and services the program calls

    The code of these crates is not part of the repository, so each is a
    parameter: [Platform] holds their types and functions, and one class per
    crate states the documented behaviour that the theorems rely on.  Every
    class of laws has an instance in [Reference], with concrete functions. *)

From S2P Require Import Prelude RustStd Json.

(** [uuid::Version], reduced to what the program distinguishes. *)
Inductive UuidVersion := VersionRandom | VersionOther.
#[global] Instance UuidVersion_eq_dec : EqDecision UuidVersion.
Proof. solve_decision. Defined.

Class Platform := {
  (** uuid *)
  Uuid : Type;
  Uuid_eq_dec :: EqDecision Uuid;
  uuid_parse_str : str → option Uuid;
  uuid_hyphenated : Uuid → str;
  uuid_get_version : Uuid → option UuidVersion;
  uuid_from_random_bytes : bytes → Uuid;
  (** time: [OffsetDateTime] with the RFC 3339 format; the error is its message *)
  DateTime : Type;
  DateTime_eq_dec :: EqDecision DateTime;
  dt_parse : str → option DateTime;
  dt_format : DateTime → result str str;
  dt_offset_is_utc : DateTime → bool;
  dt_to_utc : DateTime → DateTime;
  (** serde_json: compact text; the error is its message *)
  serde_to_string : Value → result str str;
  serde_from_str : str → result str Value;
  (** hex *)
  hex_encode : bytes → str;
  hex_decode : str → option bytes;
  (** sha2 *)
  sha256 : bytes → bytes;
  (** chacha20poly1305: XChaCha20-Poly1305 *)
  Cipher : Type;
  cipher_new_from_slice : bytes → option Cipher;
  cipher_encrypt : Cipher → bytes → bytes → bytes → option bytes;
  cipher_decrypt : Cipher → bytes → bytes → bytes → option bytes;
  (** ed25519-dalek *)
  SigningKey : Type;
  VerifyingKey : Type;
  ed_signing_key_from_bytes : bytes → SigningKey;
  ed_verifying_key : SigningKey → VerifyingKey;
  ed_verifying_key_from_bytes : bytes → option VerifyingKey;
  ed_verifying_key_to_bytes : VerifyingKey → bytes;
  ed_sign : SigningKey → bytes → bytes;
  ed_verify : VerifyingKey → bytes → bytes → bool;
  (** hmac with sha3: [None] when the key is refused *)
  hmac_sha3_256 : bytes → bytes → option bytes;
  (** getrandom and the system clock, which change the world they are read in *)
  World : Type;
  getrandom_fill : nat → World → option bytes * World;
  clock_now_utc : World → DateTime * World;
}.

(** [OffsetDateTime::unix_timestamp_nanos], of which [OffsetDateTime] differences are the
    differences. *)
Class Instants (P : Platform) := { dt_nanos : DateTime → Z }.

(** [serde_json::to_vec] is the text [to_string] gives, as bytes. *)
Definition serde_to_vec {P : Platform} (v : Value) : result str bytes :=
  as_bytes <$> serde_to_string v.

(** ** Documented behaviour *)

Class UuidLaws (P : Platform) : Prop := {
  uuid_parse_hyphenated u : uuid_parse_str (uuid_hyphenated u) = Some u;
  uuid_hyphenated_length u : str_len (uuid_hyphenated u) = 36;
  uuid_random_version b : uuid_get_version (uuid_from_random_bytes b) = Some VersionRandom;
}.

Class TimeLaws (P : Platform) : Prop := {
  dt_to_utc_is_utc d : dt_offset_is_utc (dt_to_utc d) = true;
  dt_to_utc_id d : dt_offset_is_utc d = true → dt_to_utc d = d;
  dt_parse_format d s :
    dt_offset_is_utc d = true → dt_format d = Ok s → dt_parse s = Some d;
  (** A UTC timestamp starts with a digit of its year and ends with [Z]. *)
  dt_format_shape d s :
    dt_offset_is_utc d = true → dt_format d = Ok s →
    ∃ a l, chars s = a :: l ++ ["Z"%char] ∧ is_ascii_digit a = true;
  clock_now_is_utc w : dt_offset_is_utc (clock_now_utc w).1 = true;
}.

Class SerdeLaws (P : Platform) : Prop := {
  serde_round_trip v :
    json_exact json_max_depth v = true →
    ∃ s, serde_to_string v = Ok s ∧ serde_from_str s = Ok (normalize v);
}.

Class HexLaws (P : Platform) : Prop := {
  hex_decode_encode b : hex_decode (hex_encode b) = Some b;
  hex_encode_length b : str_len (hex_encode b) = 2 * Z.of_nat (length b);
  hex_encode_lower b :
    Forall (λ c, is_ascii_hexdigit c = true ∧ is_ascii_uppercase c = false)
      (chars (hex_encode b));
  hex_decode_lower s :
    Z.even (str_len s) = true →
    Forall (λ c, is_ascii_hexdigit c = true ∧ is_ascii_uppercase c = false) (chars s) →
    ∃ b, hex_decode s = Some b ∧ hex_encode b = s;
}.

Class Sha256Laws (P : Platform) : Prop := {
  sha256_length b : length (sha256 b) = 32%nat;
}.

(** The cipher accepts 32-byte keys; a ciphertext is sixteen bytes longer than
    its message; decryption inverts encryption and, the tag being a function of
    the rest, accepts nothing else. *)
Class AeadLaws (P : Platform) : Prop := {
  cipher_new_32 k : length k = 32%nat → is_Some (cipher_new_from_slice k);
  cipher_encrypt_length c n a m ct :
    cipher_encrypt c n a m = Some ct → length ct = (length m + 16)%nat;
  cipher_decrypt_encrypt c n a m ct :
    cipher_encrypt c n a m = Some ct → cipher_decrypt c n a ct = Some m;
  cipher_encrypt_decrypt c n a m ct :
    cipher_decrypt c n a ct = Some m → cipher_encrypt c n a m = Some ct;
}.

Class Ed25519Laws (P : Platform) : Prop := {
  ed_sign_length k m : length (ed_sign k m) = 64%nat;
  ed_verify_sign k m : ed_verify (ed_verifying_key k) m (ed_sign k m) = true;
  ed_verifying_key_bytes_length k : length (ed_verifying_key_to_bytes k) = 32%nat;
  ed_verifying_key_bytes k :
    ed_verifying_key_from_bytes (ed_verifying_key_to_bytes k) = Some k;
}.

Class HmacLaws (P : Platform) : Prop := {
  hmac_length k m t : hmac_sha3_256 k m = Some t → length t = 32%nat;
  hmac_accepts_key k m : is_Some (hmac_sha3_256 k m);
}.

Class RandomLaws (P : Platform) : Prop := {
  getrandom_length n w b : (getrandom_fill n w).1 = Some b → length b = n;
}.

(** ** Consequences used by the components *)

Section consequences.
Context {P : Platform}.

Lemma uuid_hyphenated_inj {L : UuidLaws P} u v :
  uuid_hyphenated u = uuid_hyphenated v → u = v.
Proof.
  intros H. apply (f_equal uuid_parse_str) in H.
  rewrite !uuid_parse_hyphenated in H. congruence.
Qed.

Lemma hex_encode_inj {L : HexLaws P} b c : hex_encode b = hex_encode c → b = c.
Proof.
  intros H. apply (f_equal hex_decode) in H. rewrite !hex_decode_encode in H. congruence.
Qed.

(** Two documents with the same text have the same value. *)
Lemma serde_to_string_inj {L : SerdeLaws P} v w s :
  json_exact json_max_depth v = true → json_exact json_max_depth w = true →
  serde_to_string v = Ok s → serde_to_string w = Ok s → normalize v = normalize w.
Proof.
  intros (s1 & Hv & Hv')%serde_round_trip (s2 & Hw & Hw')%serde_round_trip ??.
  congruence.
Qed.

Lemma serde_to_vec_Ok v b : serde_to_vec v = Ok b ↔ ∃ s, serde_to_string v = Ok s ∧ b = as_bytes s.
Proof. apply result_fmap_Ok. Qed.

(** Flat documents: every field a scalar, with the same field names in the same
    order, are determined by their text. *)
Lemma serde_struct_inj {L : SerdeLaws P} (l1 l2 : Map) s :
  json_exact json_max_depth (JObject l1) = true →
  json_exact json_max_depth (JObject l2) = true →
  l1.*1 = l2.*1 →
  serde_to_string (JObject l1) = Ok s → serde_to_string (JObject l2) = Ok s →
  List.map (λ p, (p.1, normalize p.2)) l1 = List.map (λ p, (p.1, normalize p.2)) l2.
Proof.
  intros H1 H2 Hk Hs1 Hs2. pose proof (serde_to_string_inj _ _ _ H1 H2 Hs1 Hs2) as Hn.
  cbn [normalize] in Hn. injection Hn as Hn.
  assert (∀ l : Map, (List.map (λ p, (p.1, normalize p.2)) l).*1 = l.*1) as Hfst.
  { intros l. induction l as [|[k v] l IH]; [done|].
    cbn [List.map]. by rewrite !fmap_cons IH. }
  apply map_of_list_same_keys; rewrite ?Hfst //.
  by apply json_exact_object in H1 as [? _].
Qed.
End consequences.
