(* ===== verification/Reference.v ===== *)
(** * A concrete platform

    Functions that satisfy the documented behaviour [Platform] asks for, so
    that the theorems can be applied to concrete data.  The hexadecimal and
    UUID texts are the real ones; the checksums stand in for the hash, the
    authentication tag and the signature and have no cryptographic strength. *)

From S2P Require Import Prelude RustStd Json Platform.

(** ** Texts of bits: a binary numeral, least significant digit first *)

Fixpoint bits_of_pos (p : positive) : list ascii :=
  match p with
  | xH => ["1"%char]
  | xO p => "0"%char :: bits_of_pos p
  | xI p => "1"%char :: bits_of_pos p
  end.

Fixpoint pos_of_bits (l : list ascii) : option positive :=
  match l with
  | [] => None
  | [a] => if Ascii.eqb a "1" then Some xH else None
  | a :: l => p ← pos_of_bits l; Some (if Ascii.eqb a "1" then xI p else xO p)
  end.

Lemma bits_of_pos_nonnil p : bits_of_pos p ≠ [].
Proof. by destruct p. Qed.

Lemma pos_of_bits_cons a l : l ≠ [] →
  pos_of_bits (a :: l) = p ← pos_of_bits l; Some (if Ascii.eqb a "1" then xI p else xO p).
Proof. by destruct l. Qed.

Lemma pos_of_bits_of_pos p : pos_of_bits (bits_of_pos p) = Some p.
Proof.
  induction p as [p IH|p IH|]; simpl bits_of_pos; [| |done];
    rewrite pos_of_bits_cons ?IH //; apply bits_of_pos_nonnil.
Qed.

Lemma bits_of_pos_digit p : ∃ a l, bits_of_pos p = a :: l ∧ is_ascii_digit a = true.
Proof. destruct p; simpl; eauto. Qed.

(** ** JSON: values are encoded as trees *)

Definition leaf : Type := unit + bool + (Z + Z + str) + str.

Fixpoint value_to_tree (v : Value) : gen_tree leaf :=
  match v with
  | JNull => GenLeaf (inl (inl (inl tt)))
  | JBool b => GenLeaf (inl (inl (inr b)))
  | JNumber (PosInt z) => GenLeaf (inl (inr (inl (inl z))))
  | JNumber (NegInt z) => GenLeaf (inl (inr (inl (inr z))))
  | JNumber (Float t) => GenLeaf (inl (inr (inr t)))
  | JString s => GenLeaf (inr s)
  | JArray l => GenNode 0 (List.map value_to_tree l)
  | JObject m =>
      GenNode 1 (List.map (λ p, GenNode 2 [GenLeaf (inr (fst p)); value_to_tree (snd p)]) m)
  end.

Definition pair_of_tree (f : gen_tree leaf → Value) (t : gen_tree leaf) : str * Value :=
  match t with
  | GenNode _ [GenLeaf (inr k); v] => (k, f v)
  | _ => (EmptyString, JNull)
  end.

Fixpoint tree_to_value (t : gen_tree leaf) : Value :=
  match t with
  | GenLeaf (inl (inl (inl _))) => JNull
  | GenLeaf (inl (inl (inr b))) => JBool b
  | GenLeaf (inl (inr (inl (inl z)))) => JNumber (PosInt z)
  | GenLeaf (inl (inr (inl (inr z)))) => JNumber (NegInt z)
  | GenLeaf (inl (inr (inr t))) => JNumber (Float t)
  | GenLeaf (inr s) => JString s
  | GenNode O l => JArray (List.map tree_to_value l)
  | GenNode (S _) l => JObject (List.map (λ t,
      match t with
      | GenNode _ [GenLeaf (inr k); v] => (k, tree_to_value v)
      | _ => (EmptyString, JNull)
      end) l)
  end.

Lemma tree_to_value_to_tree v : tree_to_value (value_to_tree v) = v.
Proof.
  induction v as [| |[]| |l IH|m IH] using Value_ind'; simpl; try done; f_equal;
    rewrite map_map; induction IH as [|x l Hx _ IHl]; simpl; try done;
    rewrite ?IHl ?Hx; by destruct x.
Qed.

Definition ref_to_string (v : Value) : result str str :=
  Ok (of_chars (bits_of_pos (encode (value_to_tree v)))).
Definition ref_from_str (s : str) : result str Value :=
  ok_or (p ← pos_of_bits (chars s); t ← decode p; Some (normalize (tree_to_value t)))
    "expected value"%string.

Lemma ref_serde v : ∃ s, ref_to_string v = Ok s ∧ ref_from_str s = Ok (normalize v).
Proof.
  eexists; split; [done|]. unfold ref_from_str.
  by rewrite chars_of_chars pos_of_bits_of_pos /= decode_encode /= tree_to_value_to_tree.
Qed.

(** ** Hexadecimal *)

Definition hex_digit (n : N) : ascii :=
  ascii_of_N (if n <? 10 then 48 + n else 87 + n)%N.
Definition hex_value (a : ascii) : option N :=
  let c := N_of_ascii a in
  if (48 <=? c)%N && (c <=? 57)%N then Some (c - 48)%N
  else if (97 <=? c)%N && (c <=? 102)%N then Some (c - 87)%N
  else if (65 <=? c)%N && (c <=? 70)%N then Some (c - 55)%N else None.

Definition hex_byte (b : byte) : list ascii :=
  let n := Byte.to_N b in [hex_digit (n / 16); hex_digit (n mod 16)]%N.
Fixpoint hex_chars (l : bytes) : list ascii :=
  match l with [] => [] | b :: l => hex_byte b ++ hex_chars l end.
Fixpoint unhex_chars (l : list ascii) : option bytes :=
  match l with
  | [] => Some []
  | a :: b :: l =>
      x ← hex_value a; y ← hex_value b; z ← Byte.of_N (16 * x + y); r ← unhex_chars l;
      Some (z :: r)
  | _ => None
  end.

Lemma unhex_byte b l : unhex_chars (hex_byte b ++ l) = r ← unhex_chars l; Some (b :: r).
Proof. by destruct b. Qed.

Lemma unhex_hex l : unhex_chars (hex_chars l) = Some l.
Proof.
  induction l as [|b l IH]; [done|]. cbn [hex_chars]. by rewrite unhex_byte IH.
Qed.

Lemma length_hex_chars l : length (hex_chars l) = (2 * length l)%nat.
Proof. induction l as [|b l IH]; simpl; lia. Qed.

Definition hexlike (c : ascii) : Prop :=
  is_ascii_hexdigit c = true ∧ is_ascii_uppercase c = false ∧ Ascii.eqb c "-" = false.
Lemma hex_chars_hexlike l : Forall hexlike (hex_chars l).
Proof.
  induction l as [|b l IH]; cbn [hex_chars]; [constructor|].
  apply Forall_app; split; [|done]. by destruct b; repeat constructor.
Qed.

(** A lowercase digit has a value, whose digit it is. *)
Lemma hex_value_lower a :
  is_ascii_hexdigit a = true → is_ascii_uppercase a = false →
  ∃ x, hex_value a = Some x ∧ hex_digit x = a ∧ (x < 16)%N.
Proof.
  destruct a as [[] [] [] [] [] [] [] []]; intros H1 H2; vm_compute in H1, H2; try discriminate;
    (eexists; split; [reflexivity|split; [reflexivity|vm_compute; reflexivity]]).
Qed.
Lemma hex_byte_of x y :
  (x < 16)%N → (y < 16)%N →
  ∃ z, Byte.of_N (16 * x + y) = Some z ∧ hex_byte z = [hex_digit x; hex_digit y].
Proof.
  intros Hx Hy. destruct (Byte.of_N (16 * x + y)) as [z|] eqn:E.
  - exists z. split; [done|]. unfold hex_byte. apply Byte.to_of_N in E. rewrite E.
    by rewrite -(N.div_unique (16 * x + y) 16 x y Hy eq_refl) -(N.mod_unique (16 * x + y) 16 x y Hy eq_refl).
  - apply Byte.of_N_None_iff in E. lia.
Qed.
Lemma unhex_lower n l :
  length l = (2 * n)%nat →
  Forall (λ c, is_ascii_hexdigit c = true ∧ is_ascii_uppercase c = false) l →
  ∃ b, unhex_chars l = Some b ∧ hex_chars b = l.
Proof.
  revert l. induction n as [|n IH]; intros l Hl Hf.
  { destruct l; [|cbn in Hl; lia]. by exists []. }
  destruct l as [|a [|b l]]; cbn in Hl; try lia.
  apply Forall_cons in Hf as [[Ha1 Ha2] [[Hb1 Hb2] Hf]%Forall_cons].
  destruct (hex_value_lower a Ha1 Ha2) as (x & Hx & Hdx & Hxl), (hex_value_lower b Hb1 Hb2) as (y & Hy & Hdy & Hyl).
  destruct (hex_byte_of x y Hxl Hyl) as (z & Hz & Hzb). destruct (IH l ltac:(lia) Hf) as (r & Hr & Hrl).
  exists (z :: r). cbn [unhex_chars hex_chars]. rewrite Hx Hy. cbn [mbind option_bind]. rewrite Hz. cbn [mbind option_bind].
  rewrite Hr. cbn [mbind option_bind]. by rewrite Hzb Hrl Hdx Hdy.
Qed.

Definition ref_hex_encode (l : bytes) : str := of_chars (hex_chars l).
Definition ref_hex_decode (s : str) : option bytes := unhex_chars (chars s).

(** ** UUIDs: sixteen bytes *)

Definition RefUuid : Type := { l : bytes | bool_decide (length l = 16%nat) = true }.
Definition uuid_bytes (u : RefUuid) : bytes := proj1_sig u.

Lemma RefUuid_eq (u v : RefUuid) : uuid_bytes u = uuid_bytes v → u = v.
Proof.
  destruct u as [l Hl], v as [k Hk]. simpl. intros ->. f_equal. apply (proof_irrel _).
Qed.

#[global] Instance RefUuid_eq_dec : EqDecision RefUuid.
Proof.
  intros u v. destruct (decide (uuid_bytes u = uuid_bytes v)) as [|Hne].
  - left. by apply RefUuid_eq.
  - right. congruence.
Defined.

Definition mk_uuid (l : bytes) : option RefUuid :=
  match decide (bool_decide (length l = 16%nat) = true) with
  | left H => Some (exist _ l H)
  | right _ => None
  end.

Lemma mk_uuid_bytes u : mk_uuid (uuid_bytes u) = Some u.
Proof.
  destruct u as [l Hl]. unfold mk_uuid. simpl.
  destruct (decide _); [|done]. f_equal. by apply RefUuid_eq.
Qed.

Definition uuid_groups (h : list ascii) : list ascii :=
  take 8 h ++ "-"%char :: take 4 (drop 8 h) ++ "-"%char :: take 4 (drop 12 h)
  ++ "-"%char :: take 4 (drop 16 h) ++ "-"%char :: drop 20 h.
Definition ref_hyphenated (u : RefUuid) : str := of_chars (uuid_groups (hex_chars (uuid_bytes u))).
Definition ref_parse_uuid (s : str) : option RefUuid :=
  l ← unhex_chars (List.filter (λ c, negb (Ascii.eqb c "-")) (chars s)); mk_uuid l.

Lemma filter_uuid_groups h :
  Forall hexlike h → List.filter (λ c, negb (Ascii.eqb c "-")) (uuid_groups h) = h.
Proof.
  intros Hh. set (f := λ c, negb (Ascii.eqb c "-")).
  assert (∀ l : list ascii, Forall hexlike l → List.filter f l = l) as Hid.
  { induction 1 as [|c l (_ & _ & Hc) _ IH]; simpl; [done|].
    unfold f at 1. by rewrite Hc /= IH. }
  assert (∀ l, List.filter f ("-"%char :: l) = List.filter f l) as Hdash by done.
  unfold uuid_groups. repeat rewrite ?List.filter_app ?Hdash.
  repeat (rewrite Hid; [|by auto using Forall_take, Forall_drop]).
  assert (∀ n m k, (n + m)%nat = k → take m (drop n h) ++ drop k h = drop n h) as Hs.
  { intros n m k <-. by rewrite -drop_drop take_drop. }
  rewrite (Hs 16 4 20)%nat // (Hs 12 4 16)%nat // (Hs 8 4 12)%nat //. apply take_drop.
Qed.

Lemma ref_parse_hyphenated u : ref_parse_uuid (ref_hyphenated u) = Some u.
Proof.
  unfold ref_parse_uuid, ref_hyphenated.
  rewrite chars_of_chars filter_uuid_groups; [|apply hex_chars_hexlike].
  by rewrite unhex_hex /= mk_uuid_bytes.
Qed.

Lemma ref_hyphenated_length u : str_len (ref_hyphenated u) = 36.
Proof.
  unfold str_len, ref_hyphenated. rewrite -length_chars chars_of_chars.
  destruct u as [l Hl]. simpl. apply bool_decide_eq_true_1 in Hl.
  assert (length (hex_chars l) = 32%nat) as Hh by (rewrite length_hex_chars; lia).
  unfold uuid_groups. rewrite !length_app /= !length_app /= !length_app /= !length_app /=.
  rewrite !length_take !length_drop Hh. done.
Qed.

(** [Builder::from_random_bytes] sets the version and variant bits. *)
Definition set_bits (mask bits : N) (b : byte) : byte :=
  match Byte.of_N (N.lor (N.land (Byte.to_N b) mask) bits) with Some c => c | None => b end.
Definition pad16 (l : bytes) : bytes := take 16 (l ++ replicate 16 x00).
Definition random_layout (l : bytes) : bytes :=
  alter (set_bits 15 64) 6%nat (alter (set_bits 63 128) 8%nat (pad16 l)).

Lemma length_random_layout l : bool_decide (length (random_layout l) = 16%nat) = true.
Proof.
  apply bool_decide_eq_true. unfold random_layout.
  rewrite !length_alter /pad16 length_take length_app length_replicate. lia.
Qed.

Definition ref_from_random_bytes (l : bytes) : RefUuid := exist _ _ (length_random_layout l).
Definition ref_get_version (u : RefUuid) : option UuidVersion :=
  b ← uuid_bytes u !! 6%nat;
  Some (if (Byte.to_N b / 16 =? 4)%N then VersionRandom else VersionOther).

Lemma set_bits_version b : (Byte.to_N (set_bits 15 64 b) / 16 =? 4)%N = true.
Proof. by destruct b. Qed.

Lemma ref_random_version l : ref_get_version (ref_from_random_bytes l) = Some VersionRandom.
Proof.
  unfold ref_get_version. simpl. unfold random_layout.
  rewrite list_lookup_alter_eq list_lookup_alter_ne; [|done].
  destruct (pad16 l !! 6%nat) as [b|] eqn:E; simpl.
  - by rewrite set_bits_version.
  - apply lookup_ge_None in E. unfold pad16 in E.
    rewrite length_take length_app length_replicate in E. lia.
Qed.

(** ** Checksums *)

Definition checksum (l : bytes) : byte :=
  match Byte.of_N (fold_right (λ b n, (7 * n + Byte.to_N b + 1) mod 251)%N 0%N l) with
  | Some b => b
  | None => x00
  end.

Definition ref_tag (k n a m : bytes) : bytes := replicate 16 (checksum (k ++ n ++ a ++ m)).
Definition ref_encrypt (k n a m : bytes) : option bytes := Some (m ++ ref_tag k n a m).
Definition ref_decrypt (k n a ct : bytes) : option bytes :=
  let m := take (length ct - 16) ct in
  if bool_decide (ct = m ++ ref_tag k n a m) then Some m else None.

Lemma ref_decrypt_encrypt k n a m ct :
  ref_encrypt k n a m = Some ct → ref_decrypt k n a ct = Some m.
Proof.
  intros [= <-]. unfold ref_decrypt.
  assert (take (length (m ++ ref_tag k n a m) - 16) (m ++ ref_tag k n a m) = m) as ->.
  { rewrite length_app length_replicate Nat.add_sub. by rewrite take_app_length. }
  by rewrite bool_decide_eq_true_2.
Qed.

Lemma ref_encrypt_decrypt k n a m ct :
  ref_decrypt k n a ct = Some m → ref_encrypt k n a m = Some ct.
Proof.
  unfold ref_decrypt, ref_encrypt. case_bool_decide as H; [|done].
  intros [= Hm]. rewrite Hm in H. congruence.
Qed.

Definition ref_format (d : positive * bool) : result str str :=
  Ok (of_chars (bits_of_pos d.1 ++ [if d.2 then "Z"%char else "L"%char])).
Definition ref_dt_parse (s : str) : option (positive * bool) :=
  let l := chars s in
  p ← pos_of_bits (take (length l - 1) l);
  a ← last l;
  if Ascii.eqb a "Z" then Some (p, true) else
  if Ascii.eqb a "L" then Some (p, false) else None.

Lemma ref_parse_format d s : ref_format d = Ok s → ref_dt_parse s = Some d.
Proof.
  destruct d as [p b]. intros [= <-]. unfold ref_dt_parse. simpl.
  rewrite chars_of_chars length_app Nat.add_sub take_app_length pos_of_bits_of_pos /= last_snoc.
  by destruct b.
Qed.

Definition ref_key (l : bytes) : option bytes :=
  if bool_decide (length l = 32%nat) then Some l else None.

Definition RefVerifyingKey : Type := { l : bytes | bool_decide (length l = 32%nat) = true }.
Definition ref_verifying_key (k : bytes) : RefVerifyingKey :=
  exist _ (replicate 32 (checksum k)) (bool_decide_eq_true_2 _ (length_replicate _ _)).
Definition ref_verifying_key_from_bytes (l : bytes) : option RefVerifyingKey :=
  match decide (bool_decide (length l = 32%nat) = true) with
  | left H => Some (exist _ l H)
  | right _ => None
  end.

Definition ref_byte (n : nat) : byte :=
  match Byte.of_N (N.of_nat n mod 256)%N with Some b => b | None => x00 end.

(** The world counts the calls made, so that no two draws agree by chance, and
    holds the files. *)
Definition RefWorld : Type := nat * gmap str str.
Definition ref_tick (w : RefWorld) : RefWorld := (S w.1, w.2).

Definition reference : Platform := {|
  Uuid := RefUuid;
  uuid_parse_str := ref_parse_uuid;
  uuid_hyphenated := ref_hyphenated;
  uuid_get_version := ref_get_version;
  uuid_from_random_bytes := ref_from_random_bytes;
  DateTime := positive * bool;
  dt_parse := ref_dt_parse;
  dt_format := ref_format;
  dt_offset_is_utc := snd;
  dt_to_utc := λ d, (d.1, true);
  serde_to_string := ref_to_string;
  serde_from_str := ref_from_str;
  hex_encode := ref_hex_encode;
  hex_decode := ref_hex_decode;
  sha256 := λ l, replicate 32 (checksum l);
  Cipher := bytes;
  cipher_new_from_slice := ref_key;
  cipher_encrypt := ref_encrypt;
  cipher_decrypt := ref_decrypt;
  SigningKey := bytes;
  VerifyingKey := RefVerifyingKey;
  ed_signing_key_from_bytes := λ l, l;
  ed_verifying_key := ref_verifying_key;
  ed_verifying_key_from_bytes := ref_verifying_key_from_bytes;
  ed_verifying_key_to_bytes := λ k, proj1_sig k;
  ed_sign := λ k m, replicate 64 (checksum (replicate 32 (checksum k) ++ m));
  ed_verify := λ k m s, bool_decide (s = replicate 64 (checksum (proj1_sig k ++ m)));
  hmac_sha3_256 := λ k m, Some (replicate 32 (checksum (k ++ m)));
  World := RefWorld;
  getrandom_fill := λ n w, (Some (replicate n (ref_byte w.1)), ref_tick w);
  clock_now_utc := λ w, ((Pos.of_succ_nat w.1, true), ref_tick w);
|}.

#[global] Instance reference_uuid : UuidLaws reference.
Proof.
  split; [apply ref_parse_hyphenated|apply ref_hyphenated_length|apply ref_random_version].
Qed.

#[global] Instance reference_time : TimeLaws reference.
Proof.
  split.
  - done.
  - intros [p b]. simpl. by intros ->.
  - intros d s _. apply ref_parse_format.
  - intros [p b] s Hb [= <-]. simpl in Hb. subst b.
    destruct (bits_of_pos_digit p) as (a & l & Hp & Ha). exists a, l.
    by rewrite chars_of_chars /= Hp.
  - done.
Qed.

#[global] Instance reference_serde : SerdeLaws reference.
Proof. split. intros v _. apply ref_serde. Qed.

#[global] Instance reference_hex : HexLaws reference.
Proof.
  split; intros b; simpl; unfold ref_hex_decode, ref_hex_encode, str_len;
    rewrite -?length_chars ?chars_of_chars.
  - apply unhex_hex.
  - rewrite length_hex_chars. lia.
  - eapply Forall_impl; [apply hex_chars_hexlike|]. intros c (? & ? & _). done.
  - intros [n Hn]%Zeven_bool_iff%Zeven_ex Hf. destruct (unhex_lower (Z.to_nat n) (chars b)) as (l & Hl & Hc); [lia|done|].
    exists l. split; [done|]. by rewrite Hc of_chars_chars.
Qed.

#[global] Instance reference_sha256 : Sha256Laws reference.
Proof. split. intros b. apply (length_replicate 32). Qed.

#[global] Instance reference_aead : AeadLaws reference.
Proof.
  split; simpl.
  - intros k Hk. unfold ref_key. rewrite bool_decide_eq_true_2 //.
  - intros c n a m ct [= <-]. by rewrite length_app length_replicate.
  - apply ref_decrypt_encrypt.
  - apply ref_encrypt_decrypt.
Qed.

#[global] Instance reference_ed25519 : Ed25519Laws reference.
Proof.
  split.
  - intros k m. apply (length_replicate 64).
  - intros k m. apply (bool_decide_eq_true_2 _). reflexivity.
  - intros [l Hl]. exact (bool_decide_eq_true_1 _ Hl).
  - intros [l Hl]. change (ref_verifying_key_from_bytes l = Some (l ↾ Hl)).
    unfold ref_verifying_key_from_bytes.
    destruct (decide _); [|done]. do 2 f_equal. apply (proof_irrel _).
Qed.

#[global] Instance reference_hmac : HmacLaws reference.
Proof.
  split; [|intros k m; by eexists]. intros k m t [= <-]. apply (length_replicate 32).
Qed.

#[global] Instance reference_random : RandomLaws reference.
Proof. split. intros n w b [= <-]. apply length_replicate. Qed.

(** A world to start the examples from. *)
Definition sample_world : @World reference := (7%nat, ∅).
