(* ===== verification/Errors.v ===== *)
(** * Error enums of [src/error.rs]

    One inductive per enum, a constructor per variant with the variant's data;
    the [From] conversions are the coercing constructors, used with [!?]. *)

From S2P Require Import Prelude RustStd.

Inductive AadError :=
| AadError_ExpectedJsonObject
| AadError_MissingField (field : str)
| AadError_UnexpectedField (field : str)
| AadError_InvalidFieldType (field expected : str)
| AadError_UnsupportedAadVersion (value : str)
| AadError_InvalidUuid (field value : str)
| AadError_InvalidUuidVersion (field value expected : str)
| AadError_InvalidPositiveInteger (field value : str)
| AadError_InvalidClassification
| AadError_InvalidTimestamp (field value : str)
| AadError_SerializationFailed (message : str).

Inductive InputError :=
| InputError_InvalidDeviceId
| InputError_InvalidSecretAlias
| InputError_SecretAliasTooLong (max : Z)
| InputError_SecretAliasLooksLikeUuid
| InputError_SecretVersionOverflow.

Inductive CryptoError :=
| CryptoError_InvalidDataKeyLength (actual : Z)
| CryptoError_InvalidMasterKeyLength (actual : Z)
| CryptoError_InvalidAliasEncryptionKeyLength (actual : Z)
| CryptoError_InvalidAliasFingerprintKeyLength (actual : Z)
| CryptoError_InvalidAliasFingerprintLength (actual : Z)
| CryptoError_InvalidNonceLength (actual : Z)
| CryptoError_InvalidKeyVersion (value : Z)
| CryptoError_UnsupportedAliasFingerprintSchemaVersion (value : Z)
| CryptoError_InvalidEncryptedDataKeyLength (actual : Z)
| CryptoError_UnsupportedEncryptedDataKeyVersion (version : byte)
| CryptoError_EmptyCiphertext
| CryptoError_RandomnessUnavailable
| CryptoError_AadFailed
| CryptoError_EncryptionFailed
| CryptoError_DecryptionFailed
| CryptoError_FingerprintComputationFailed
| CryptoError_KeyWrapFailed
| CryptoError_KeyUnwrapFailed.

(** [impl From<AadError> for CryptoError]: the cause is dropped. *)
Definition CryptoError_from_AadError (_ : AadError) : CryptoError := CryptoError_AadFailed.

Inductive KeyringError :=
| KeyringError_Empty
| KeyringError_DuplicateKeyVersion (key_version : Z)
| KeyringError_ActiveKeyMissing (key_version : Z)
| KeyringError_KeyUnavailable (key_version : Z).

Inductive SecretWriteError :=
| SecretWriteError_Input (e : InputError)
| SecretWriteError_Aad (e : AadError)
| SecretWriteError_Crypto (e : CryptoError)
| SecretWriteError_Keyring (e : KeyringError).

Inductive AuthorizationError :=
| AuthorizationError_OwnerMismatch
| AuthorizationError_NotCurrentVersion
| AuthorizationError_MissingAuditorRole.

Inductive DecryptIntegrityError :=
| DecryptIntegrityError_AadContextMismatch.

Inductive SecretDecryptError :=
| SecretDecryptError_Authorization (e : AuthorizationError)
| SecretDecryptError_Aad (e : AadError)
| SecretDecryptError_Crypto (e : CryptoError)
| SecretDecryptError_Integrity (e : DecryptIntegrityError)
| SecretDecryptError_Keyring (e : KeyringError).

(** [AliasInputError] of [src/alias/error.rs]. *)
Inductive AliasInputError :=
| AliasInputError_Empty
| AliasInputError_TooLong (actual max : Z)
| AliasInputError_DisallowedCharacter (position : Z).

(** [JwtVerificationError] of [src/error.rs]. *)
Inductive JwtVerificationError :=
| JwtVerificationError_EmptyToken
| JwtVerificationError_InvalidToken
| JwtVerificationError_MissingKeyId
| JwtVerificationError_UnsupportedAlgorithm
| JwtVerificationError_KeyNotFound
| JwtVerificationError_InvalidSignature
| JwtVerificationError_Expired
| JwtVerificationError_InvalidIssuer
| JwtVerificationError_InvalidAudience
| JwtVerificationError_InvalidSubject
| JwtVerificationError_InvalidJwks
| JwtVerificationError_MalformedClaims.

#[global] Instance AadError_eq_dec : EqDecision AadError.
Proof. solve_decision. Defined.
#[global] Instance InputError_eq_dec : EqDecision InputError.
Proof. solve_decision. Defined.
#[global] Instance CryptoError_eq_dec : EqDecision CryptoError.
Proof. solve_decision. Defined.
#[global] Instance KeyringError_eq_dec : EqDecision KeyringError.
Proof. solve_decision. Defined.
#[global] Instance AuthorizationError_eq_dec : EqDecision AuthorizationError.
Proof. solve_decision. Defined.

(** ** [Display]: the texts the errors print as *)

Definition AadError_to_string (e : AadError) : str :=
  (match e with
  | AadError_ExpectedJsonObject => "aad_context must be a JSON object"
  | AadError_MissingField field => "required field is missing: " +:+ field
  | AadError_UnexpectedField field => "unexpected field in aad_context: " +:+ field
  | AadError_InvalidFieldType field expected => "field " +:+ field +:+ " must be " +:+ expected
  | AadError_UnsupportedAadVersion value => "unsupported aad_version: " +:+ value
  | AadError_InvalidUuid field value => "field " +:+ field +:+ " must be a canonicalizable UUID: " +:+ value
  | AadError_InvalidUuidVersion field value expected => "field " +:+ field +:+ " must be a " +:+ expected +:+ " UUID: " +:+ value
  | AadError_InvalidPositiveInteger field value => "field " +:+ field +:+ " must be a positive integer: " +:+ value
  | AadError_InvalidClassification => "classification must not be empty or whitespace only"
  | AadError_InvalidTimestamp field value => "field " +:+ field +:+ " must be a UTC RFC3339 timestamp: " +:+ value
  | AadError_SerializationFailed message => "failed to serialize canonical AAD: " +:+ message
  end)%string.

Definition InputError_to_string (e : InputError) : str :=
  (match e with
  | InputError_InvalidDeviceId => "device_id must not be empty or whitespace only"
  | InputError_InvalidSecretAlias => "secret alias must use only ASCII letters, digits, '.', '_', or '-'"
  | InputError_SecretAliasTooLong max => "secret alias must be at most " +:+ int_to_string max +:+ " characters"
  | InputError_SecretAliasLooksLikeUuid => "secret alias must not be a UUID v4"
  | InputError_SecretVersionOverflow => "secret version cannot be incremented"
  end)%string.

Definition JwtVerificationError_to_string (e : JwtVerificationError) : str :=
  (match e with
  | JwtVerificationError_EmptyToken => "jwt must not be empty or whitespace only"
  | JwtVerificationError_InvalidToken => "jwt is invalid"
  | JwtVerificationError_MissingKeyId => "jwt header is missing kid"
  | JwtVerificationError_UnsupportedAlgorithm => "jwt algorithm is not supported"
  | JwtVerificationError_KeyNotFound => "matching jwks key was not found"
  | JwtVerificationError_InvalidSignature => "jwt signature is invalid"
  | JwtVerificationError_Expired => "jwt is expired"
  | JwtVerificationError_InvalidIssuer => "jwt issuer is invalid"
  | JwtVerificationError_InvalidAudience => "jwt audience is invalid"
  | JwtVerificationError_InvalidSubject => "jwt subject is invalid"
  | JwtVerificationError_InvalidJwks => "jwks is invalid"
  | JwtVerificationError_MalformedClaims => "jwt claims are malformed"
  end)%string.

Definition CryptoError_to_string (e : CryptoError) : str :=
  (match e with
  | CryptoError_InvalidDataKeyLength actual => "data key must be 32 bytes: actual length " +:+ int_to_string actual
  | CryptoError_InvalidMasterKeyLength actual => "master key must be 32 bytes: actual length " +:+ int_to_string actual
  | CryptoError_InvalidAliasEncryptionKeyLength actual => "alias encryption key must be 32 bytes: actual length " +:+ int_to_string actual
  | CryptoError_InvalidAliasFingerprintKeyLength actual => "alias fingerprint key must be 32 bytes: actual length " +:+ int_to_string actual
  | CryptoError_InvalidAliasFingerprintLength actual => "alias fingerprint must be 32 bytes: actual length " +:+ int_to_string actual
  | CryptoError_InvalidNonceLength actual => "nonce must be 24 bytes: actual length " +:+ int_to_string actual
  | CryptoError_InvalidKeyVersion value => "key version must be positive: actual value " +:+ int_to_string value
  | CryptoError_UnsupportedAliasFingerprintSchemaVersion value => "unsupported alias fingerprint schema version: " +:+ int_to_string value
  | CryptoError_InvalidEncryptedDataKeyLength actual => "encrypted data key envelope has invalid length: actual length " +:+ int_to_string actual
  | CryptoError_UnsupportedEncryptedDataKeyVersion version => "unsupported encrypted data key envelope version: " +:+ int_to_string (Z.of_N (Byte.to_N version))
  | CryptoError_EmptyCiphertext => "ciphertext must not be empty"
  | CryptoError_RandomnessUnavailable => "cryptographic randomness is unavailable"
  | CryptoError_AadFailed => "failed to build canonical AAD"
  | CryptoError_EncryptionFailed => "encryption failed"
  | CryptoError_DecryptionFailed => "decryption failed"
  | CryptoError_FingerprintComputationFailed => "alias fingerprint computation failed"
  | CryptoError_KeyWrapFailed => "data key wrapping failed"
  | CryptoError_KeyUnwrapFailed => "data key unwrapping failed"
  end)%string.

Definition KeyringError_to_string (e : KeyringError) : str :=
  (match e with
  | KeyringError_Empty => "master keyring must not be empty"
  | KeyringError_DuplicateKeyVersion key_version => "duplicate master key version: " +:+ int_to_string key_version
  | KeyringError_ActiveKeyMissing key_version => "active master key version is not present: " +:+ int_to_string key_version
  | KeyringError_KeyUnavailable key_version => "master key version is unavailable: " +:+ int_to_string key_version
  end)%string.

Definition AuthorizationError_to_string (e : AuthorizationError) : str :=
  (match e with
  | AuthorizationError_OwnerMismatch => "actor is not allowed to decrypt this secret"
  | AuthorizationError_NotCurrentVersion => "requested secret version is not current"
  | AuthorizationError_MissingAuditorRole => "actor is not allowed to read audit ui data"
  end)%string.

Definition DecryptIntegrityError_to_string (e : DecryptIntegrityError) : str :=
  (match e with
  | DecryptIntegrityError_AadContextMismatch => "aad_context does not match row metadata"
  end)%string.

Definition SecretWriteError_to_string (e : SecretWriteError) : str :=
  match e with
  | SecretWriteError_Input e => InputError_to_string e
  | SecretWriteError_Aad e => AadError_to_string e
  | SecretWriteError_Crypto e => CryptoError_to_string e
  | SecretWriteError_Keyring e => KeyringError_to_string e
  end.
