(* ===== verification/Types.v ===== *)
(** * Identifiers, key material and timestamps ([src/types/])

    A newtype is a record with one field, named [<Type>_0] after Rust's [.0]; a
    constructor function that checks its argument returns a [result], and the
    predicate [<Type>_wf] is what the checks establish. *)

From S2P Require Import Prelude RustStd Json Platform Reference Errors.

Section types.
Context {P : Platform}.

(** ** UUID identifiers *)

Record SecretId := mk_SecretId { SecretId_0 : Uuid }.
Record SecretAliasId := mk_SecretAliasId { SecretAliasId_0 : Uuid }.
Record SecretVersionId := mk_SecretVersionId { SecretVersionId_0 : Uuid }.
Record OwnerUserId := mk_OwnerUserId { OwnerUserId_0 : Uuid }.

(** The sixteen random bytes every [generate] draws. *)
Definition generate_uuid {E} (e : E) : io World E Uuid := λ w,
  match getrandom_fill 16 w with
  | (Some b, w') => (Ok (uuid_from_random_bytes b), w')
  | (None, w') => (Err e, w')
  end.

(** The two checks of the version-4 identifiers' [parse]. *)
Definition parse_uuid_v4 (field value : str) : result AadError Uuid :=
  uuid ← ok_or (uuid_parse_str value) (AadError_InvalidUuid field value);
  if bool_decide (uuid_get_version uuid ≠ Some VersionRandom)
  then Err (AadError_InvalidUuidVersion field value "v4")
  else Ok uuid.

Definition SecretId_generate : io World CryptoError SecretId :=
  uuid ← generate_uuid CryptoError_RandomnessUnavailable; mret (mk_SecretId uuid).
Definition SecretId_parse (value : str) : result AadError SecretId :=
  mk_SecretId <$> parse_uuid_v4 "secret_id" value.
Definition SecretId_as_canonical_string (i : SecretId) : str := uuid_hyphenated (SecretId_0 i).

Definition SecretAliasId_generate : io World CryptoError SecretAliasId :=
  uuid ← generate_uuid CryptoError_RandomnessUnavailable; mret (mk_SecretAliasId uuid).
Definition SecretAliasId_parse (value : str) : result AadError SecretAliasId :=
  mk_SecretAliasId <$> parse_uuid_v4 "secret_alias_id" value.
Definition SecretAliasId_as_canonical_string (i : SecretAliasId) : str :=
  uuid_hyphenated (SecretAliasId_0 i).

Definition SecretVersionId_generate : io World CryptoError SecretVersionId :=
  uuid ← generate_uuid CryptoError_RandomnessUnavailable; mret (mk_SecretVersionId uuid).
Definition SecretVersionId_parse (value : str) : result AadError SecretVersionId :=
  mk_SecretVersionId <$> parse_uuid_v4 "secret_version_id" value.
Definition SecretVersionId_as_canonical_string (i : SecretVersionId) : str :=
  uuid_hyphenated (SecretVersionId_0 i).

Definition OwnerUserId_parse (value : str) : result AadError OwnerUserId :=
  mk_OwnerUserId <$> ok_or (uuid_parse_str value) (AadError_InvalidUuid "owner_user_id" value).
Definition OwnerUserId_as_canonical_string (i : OwnerUserId) : str :=
  uuid_hyphenated (OwnerUserId_0 i).

Definition uuid_v4 (u : Uuid) : Prop := uuid_get_version u = Some VersionRandom.
Definition SecretId_wf (i : SecretId) : Prop := uuid_v4 (SecretId_0 i).
Definition SecretAliasId_wf (i : SecretAliasId) : Prop := uuid_v4 (SecretAliasId_0 i).
Definition SecretVersionId_wf (i : SecretVersionId) : Prop := uuid_v4 (SecretVersionId_0 i).
End types.

(** ** Version numbers: [NonZeroU32] *)

Definition nonzero_u32 (z : Z) : Prop := 0 < z ≤ u32_max.

(** [NonZeroU32::new]. *)
Definition NonZeroU32_new (value : Z) : option Z := if value =? 0 then None else Some value.

Record SecretVersion := mk_SecretVersion { SecretVersion_get : Z }.

Definition SecretVersion_first : SecretVersion := mk_SecretVersion 1.
Definition SecretVersion_new (value : Z) : result AadError SecretVersion :=
  mk_SecretVersion <$> ok_or (NonZeroU32_new value)
    (AadError_InvalidPositiveInteger "version" (int_to_string value)).
Definition SecretVersion_next (v : SecretVersion) : result InputError SecretVersion :=
  next ← ok_or (u_checked_add u32_max (SecretVersion_get v) 1) InputError_SecretVersionOverflow;
  mk_SecretVersion <$> ok_or (NonZeroU32_new next) InputError_SecretVersionOverflow.
Definition SecretVersion_wf (v : SecretVersion) : Prop := nonzero_u32 (SecretVersion_get v).

Record KeyVersion := mk_KeyVersion { KeyVersion_get : Z }.

Definition KeyVersion_new (value : Z) : result CryptoError KeyVersion :=
  mk_KeyVersion <$> ok_or (NonZeroU32_new value) (CryptoError_InvalidKeyVersion value).
Definition KeyVersion_wf (v : KeyVersion) : Prop := nonzero_u32 (KeyVersion_get v).

Record AliasFingerprintSchemaVersion :=
  mk_AliasFingerprintSchemaVersion { AliasFingerprintSchemaVersion_get : Z }.

Definition AliasFingerprintSchemaVersion_V1 : AliasFingerprintSchemaVersion :=
  mk_AliasFingerprintSchemaVersion 1.
Definition AliasFingerprintSchemaVersion_new (value : Z) :
    result CryptoError AliasFingerprintSchemaVersion :=
  v ← ok_or (NonZeroU32_new value) (CryptoError_InvalidKeyVersion value);
  if negb (v =? AliasFingerprintSchemaVersion_get AliasFingerprintSchemaVersion_V1)
  then Err (CryptoError_UnsupportedAliasFingerprintSchemaVersion v)
  else Ok (mk_AliasFingerprintSchemaVersion v).

(** ** Text with content *)

Record Classification := mk_Classification { Classification_as_str : str }.
Definition Classification_new (value : str) : result AadError Classification :=
  if is_empty (trim value) then Err AadError_InvalidClassification
  else Ok (mk_Classification value).
Definition Classification_wf (c : Classification) : Prop :=
  is_empty (trim (Classification_as_str c)) = false.

Record DeviceId := mk_DeviceId { DeviceId_as_str : str }.
Definition DeviceId_new (value : str) : result InputError DeviceId :=
  if is_empty (trim value) then Err InputError_InvalidDeviceId else Ok (mk_DeviceId value).
Definition DeviceId_wf (d : DeviceId) : Prop := is_empty (trim (DeviceId_as_str d)) = false.

(** ** Key material: byte arrays of a fixed length *)

Definition DATA_KEY_LENGTH : nat := 32.
Definition MASTER_KEY_LENGTH : nat := 32.
Definition NONCE_LENGTH : nat := 24.
Definition ENCRYPTED_DATA_KEY_VERSION : byte := x01.
Definition ENCRYPTED_DATA_KEY_TAG_LENGTH : nat := 16.
Definition ENCRYPTED_DATA_KEY_CIPHERTEXT_LENGTH : nat :=
  (DATA_KEY_LENGTH + ENCRYPTED_DATA_KEY_TAG_LENGTH)%nat.
Definition ENCRYPTED_DATA_KEY_LENGTH : nat :=
  (1 + NONCE_LENGTH + ENCRYPTED_DATA_KEY_CIPHERTEXT_LENGTH)%nat.

Definition zlen (b : bytes) : Z := Z.of_nat (length b).

(** The length check shared by every [parse] of a byte array. *)
Definition parse_array {E A} (n : nat) (mk : bytes → A) (e : Z → E) (b : bytes) : result E A :=
  if negb (length b =? n)%nat then Err (e (zlen b)) else Ok (mk b).

Record DataKey := mk_DataKey { DataKey_as_bytes : bytes }.
Definition DataKey_parse : bytes → result CryptoError DataKey :=
  parse_array DATA_KEY_LENGTH mk_DataKey CryptoError_InvalidDataKeyLength.
Definition DataKey_wf (k : DataKey) : Prop := length (DataKey_as_bytes k) = DATA_KEY_LENGTH.

Record MasterKey := mk_MasterKey { MasterKey_as_bytes : bytes }.
Definition MasterKey_parse : bytes → result CryptoError MasterKey :=
  parse_array MASTER_KEY_LENGTH mk_MasterKey CryptoError_InvalidMasterKeyLength.
Definition MasterKey_wf (k : MasterKey) : Prop := length (MasterKey_as_bytes k) = MASTER_KEY_LENGTH.

Record AliasEncryptionKey := mk_AliasEncryptionKey { AliasEncryptionKey_as_bytes : bytes }.
Definition AliasEncryptionKey_parse : bytes → result CryptoError AliasEncryptionKey :=
  parse_array MASTER_KEY_LENGTH mk_AliasEncryptionKey CryptoError_InvalidAliasEncryptionKeyLength.
Definition AliasEncryptionKey_wf (k : AliasEncryptionKey) : Prop :=
  length (AliasEncryptionKey_as_bytes k) = MASTER_KEY_LENGTH.

Record AliasFingerprintKey := mk_AliasFingerprintKey { AliasFingerprintKey_as_bytes : bytes }.
Definition AliasFingerprintKey_parse : bytes → result CryptoError AliasFingerprintKey :=
  parse_array MASTER_KEY_LENGTH mk_AliasFingerprintKey CryptoError_InvalidAliasFingerprintKeyLength.

Record Nonce := mk_Nonce { Nonce_as_bytes : bytes }.
Definition Nonce_parse : bytes → result CryptoError Nonce :=
  parse_array NONCE_LENGTH mk_Nonce CryptoError_InvalidNonceLength.
Definition Nonce_wf (n : Nonce) : Prop := length (Nonce_as_bytes n) = NONCE_LENGTH.

Record Ciphertext := mk_Ciphertext { Ciphertext_as_bytes : bytes }.
Definition Ciphertext_new (b : bytes) : result CryptoError Ciphertext :=
  match b with [] => Err CryptoError_EmptyCiphertext | _ => Ok (mk_Ciphertext b) end.

Record Plaintext := mk_Plaintext { Plaintext_as_bytes : bytes }.

(** The envelope of a wrapped data key: version byte, nonce, ciphertext. *)
Record EncryptedDataKey := mk_EncryptedDataKey { EncryptedDataKey_as_bytes : bytes }.

Definition validate_encrypted_data_key_envelope (b : bytes) : result CryptoError unit :=
  if negb (length b =? ENCRYPTED_DATA_KEY_LENGTH)%nat
  then Err (CryptoError_InvalidEncryptedDataKeyLength (zlen b))
  else match b with
  | version :: _ =>
      if negb (bool_decide (version = ENCRYPTED_DATA_KEY_VERSION))
      then Err (CryptoError_UnsupportedEncryptedDataKeyVersion version)
      else Ok tt
  | [] => Err (CryptoError_InvalidEncryptedDataKeyLength 0) (* no bytes: refused above *)
  end.

Definition EncryptedDataKey_parse (b : bytes) : result CryptoError EncryptedDataKey :=
  _ ← validate_encrypted_data_key_envelope b; Ok (mk_EncryptedDataKey b).
Definition EncryptedDataKey_from_envelope_bytes (b : bytes) : result CryptoError EncryptedDataKey :=
  _ ← validate_encrypted_data_key_envelope b; Ok (mk_EncryptedDataKey b).

(** [self.0[0]], [self.0[1..25]] and [self.0[25..]]; [None] is a panic. *)
Definition EncryptedDataKey_version (k : EncryptedDataKey) : option byte :=
  head (EncryptedDataKey_as_bytes k).
Definition EncryptedDataKey_nonce_bytes (k : EncryptedDataKey) : bytes :=
  take NONCE_LENGTH (drop 1 (EncryptedDataKey_as_bytes k)).
Definition EncryptedDataKey_ciphertext_bytes (k : EncryptedDataKey) : bytes :=
  drop (1 + NONCE_LENGTH) (EncryptedDataKey_as_bytes k).
Definition EncryptedDataKey_wf (k : EncryptedDataKey) : Prop :=
  length (EncryptedDataKey_as_bytes k) = ENCRYPTED_DATA_KEY_LENGTH
  ∧ EncryptedDataKey_version k = Some ENCRYPTED_DATA_KEY_VERSION.

(** ** Random material *)

Section random.
Context {P : Platform}.

Definition random_array (n : nat) : io World CryptoError bytes := λ w,
  match getrandom_fill n w with
  | (Some b, w') => (Ok b, w')
  | (None, w') => (Err CryptoError_RandomnessUnavailable, w')
  end.

Definition DataKey_generate : io World CryptoError DataKey :=
  b ← random_array DATA_KEY_LENGTH; mret (mk_DataKey b).
Definition MasterKey_generate : io World CryptoError MasterKey :=
  b ← random_array MASTER_KEY_LENGTH; mret (mk_MasterKey b).
Definition Nonce_generate : io World CryptoError Nonce :=
  b ← random_array NONCE_LENGTH; mret (mk_Nonce b).

(** ** Timestamps ([src/types/time.rs]) *)

Record CreatedAt := mk_CreatedAt { CreatedAt_0 : DateTime }.
Record SourceEventAt := mk_SourceEventAt { SourceEventAt_as_str : str }.

(** A trailing [UTC], in any case and with or without a space, becomes [Z]. *)
Definition rewrite_utc_suffix (value : str) : str :=
  let trimmed := trim value in
  let upper := to_ascii_uppercase trimmed in
  if ends_with upper " UTC" then slice_to trimmed (String.length trimmed - 4) +:+ "Z"
  else if ends_with upper "UTC" then slice_to trimmed (String.length trimmed - 3) +:+ "Z"
  else trimmed.

Definition parse_utc_rfc3339 (value field : str) : result AadError DateTime :=
  let normalized_value := rewrite_utc_suffix value in
  parsed ← ok_or (dt_parse normalized_value) (AadError_InvalidTimestamp field value);
  if negb (dt_offset_is_utc parsed) then Err (AadError_InvalidTimestamp field value)
  else Ok (dt_to_utc parsed).

Definition format_utc_rfc3339 (value : DateTime) : result AadError str :=
  dt_format (dt_to_utc value) !? AadError_SerializationFailed.

Definition CreatedAt_now_utc {E} : io World E CreatedAt := λ w,
  let '(d, w') := clock_now_utc w in (Ok (mk_CreatedAt d), w').
Definition CreatedAt_parse (value : str) : result AadError CreatedAt :=
  mk_CreatedAt <$> parse_utc_rfc3339 value "created_at".
Definition CreatedAt_as_rfc3339_utc (c : CreatedAt) : result AadError str :=
  format_utc_rfc3339 (CreatedAt_0 c).
Definition CreatedAt_wf (c : CreatedAt) : Prop := dt_offset_is_utc (CreatedAt_0 c) = true.

Definition SourceEventAt_now_utc : io World AadError SourceEventAt := λ w,
  let '(d, w') := clock_now_utc w in (mk_SourceEventAt <$> format_utc_rfc3339 d, w').

Definition SourceEventAt_parse (value : str) : result AadError SourceEventAt :=
  let error := AadError_InvalidTimestamp "source_event_at" value in
  if negb (ends_with value "Z") then Err error else
  parsed ← ok_or (dt_parse value) error;
  if negb (dt_offset_is_utc parsed) then Err error else
  Ok (mk_SourceEventAt value).
End random.

(** ** Lemmas *)

Section type_lemmas.
Context {P : Platform}.

#[global] Instance SecretId_eq_dec : EqDecision SecretId.
Proof. solve_decision. Defined.
#[global] Instance SecretAliasId_eq_dec : EqDecision SecretAliasId.
Proof. solve_decision. Defined.
#[global] Instance SecretVersionId_eq_dec : EqDecision SecretVersionId.
Proof. solve_decision. Defined.
#[global] Instance OwnerUserId_eq_dec : EqDecision OwnerUserId.
Proof. solve_decision. Defined.
#[global] Instance CreatedAt_eq_dec : EqDecision CreatedAt.
Proof. solve_decision. Defined.
#[global] Instance SourceEventAt_eq_dec : EqDecision SourceEventAt.
Proof. solve_decision. Defined.
#[global] Instance SecretVersion_eq_dec : EqDecision SecretVersion.
Proof. solve_decision. Defined.
#[global] Instance KeyVersion_eq_dec : EqDecision KeyVersion.
Proof. solve_decision. Defined.
#[global] Instance Classification_eq_dec : EqDecision Classification.
Proof. solve_decision. Defined.
#[global] Instance DeviceId_eq_dec : EqDecision DeviceId.
Proof. solve_decision. Defined.
#[global] Instance EncryptedDataKey_eq_dec : EqDecision EncryptedDataKey.
Proof. solve_decision. Defined.
#[global] Instance Nonce_eq_dec : EqDecision Nonce.
Proof. solve_decision. Defined.
#[global] Instance Ciphertext_eq_dec : EqDecision Ciphertext.
Proof. solve_decision. Defined.

Lemma parse_uuid_v4_Ok field value u :
  parse_uuid_v4 field value = Ok u ↔ uuid_parse_str value = Some u ∧ uuid_v4 u.
Proof.
  unfold parse_uuid_v4, uuid_v4. destruct (uuid_parse_str value) as [u'|]; simpl; [|naive_solver].
  case_bool_decide as H; naive_solver.
Qed.

Lemma parse_uuid_v4_hyphenated {L : UuidLaws P} field u :
  uuid_v4 u → parse_uuid_v4 field (uuid_hyphenated u) = Ok u.
Proof. intros. apply parse_uuid_v4_Ok. by rewrite uuid_parse_hyphenated. Qed.

Lemma SecretId_parse_canonical {L : UuidLaws P} i :
  SecretId_wf i → SecretId_parse (SecretId_as_canonical_string i) = Ok i.
Proof.
  destruct i as [u]. intros. unfold SecretId_parse, SecretId_as_canonical_string.
  by rewrite parse_uuid_v4_hyphenated.
Qed.

Lemma SecretAliasId_parse_canonical {L : UuidLaws P} i :
  SecretAliasId_wf i → SecretAliasId_parse (SecretAliasId_as_canonical_string i) = Ok i.
Proof.
  destruct i as [u]. intros. unfold SecretAliasId_parse, SecretAliasId_as_canonical_string.
  by rewrite parse_uuid_v4_hyphenated.
Qed.

Lemma OwnerUserId_parse_canonical {L : UuidLaws P} i :
  OwnerUserId_parse (OwnerUserId_as_canonical_string i) = Ok i.
Proof.
  destruct i as [u]. unfold OwnerUserId_parse, OwnerUserId_as_canonical_string.
  by rewrite uuid_parse_hyphenated.
Qed.

Lemma SecretId_canonical_inj {L : UuidLaws P} i j :
  SecretId_as_canonical_string i = SecretId_as_canonical_string j → i = j.
Proof. destruct i, j. intros H%uuid_hyphenated_inj. simpl in H. congruence. Qed.

Lemma OwnerUserId_canonical_inj {L : UuidLaws P} i j :
  OwnerUserId_as_canonical_string i = OwnerUserId_as_canonical_string j → i = j.
Proof. destruct i, j. intros H%uuid_hyphenated_inj. simpl in H. congruence. Qed.

Lemma generate_uuid_v4 {L : UuidLaws P} {E} (e : E) w u w' :
  generate_uuid e w = (Ok u, w') → uuid_v4 u.
Proof.
  unfold generate_uuid. destruct (getrandom_fill 16 w) as [[b|] ?]; intros [= <- <-].
  apply uuid_random_version.
Qed.

Lemma SecretId_generate_wf {L : UuidLaws P} w i w' :
  SecretId_generate w = (Ok i, w') → SecretId_wf i.
Proof. unfold SecretId_generate. intros. inv_ok. by eapply generate_uuid_v4. Qed.

Lemma SecretAliasId_generate_wf {L : UuidLaws P} w i w' :
  SecretAliasId_generate w = (Ok i, w') → SecretAliasId_wf i.
Proof. unfold SecretAliasId_generate. intros. inv_ok. by eapply generate_uuid_v4. Qed.

Lemma SecretVersion_new_Ok z v :
  is_u32 z → SecretVersion_new z = Ok v ↔ v = mk_SecretVersion z ∧ nonzero_u32 z.
Proof.
  unfold SecretVersion_new, NonZeroU32_new, is_u32, nonzero_u32.
  destruct (z =? 0) eqn:?; b2p; simpl; naive_solver lia.
Qed.

Lemma parse_array_Ok {E A} n (mk : bytes → A) (e : Z → E) b a :
  parse_array n mk e b = Ok a ↔ length b = n ∧ a = mk b.
Proof. unfold parse_array. destruct (length b =? n)%nat eqn:?; b2p; simpl; naive_solver. Qed.

Lemma random_array_length {L : RandomLaws P} n w b w' :
  random_array n w = (Ok b, w') → length b = n.
Proof.
  unfold random_array. destruct (getrandom_fill n w) as [[b'|] ?] eqn:E; intros [= <- <-].
  eapply (getrandom_length n w). by rewrite E.
Qed.

Lemma Nonce_generate_wf {L : RandomLaws P} w n w' : Nonce_generate w = (Ok n, w') → Nonce_wf n.
Proof. unfold Nonce_generate. intros. inv_ok. by eapply random_array_length. Qed.

Lemma DataKey_generate_wf {L : RandomLaws P} w k w' :
  DataKey_generate w = (Ok k, w') → DataKey_wf k.
Proof. unfold DataKey_generate. intros. inv_ok. by eapply random_array_length. Qed.

Lemma validate_envelope_Ok b :
  validate_encrypted_data_key_envelope b = Ok tt ↔ EncryptedDataKey_wf (mk_EncryptedDataKey b).
Proof.
  unfold validate_encrypted_data_key_envelope, EncryptedDataKey_wf, EncryptedDataKey_version.
  simpl. destruct (length b =? ENCRYPTED_DATA_KEY_LENGTH)%nat eqn:?; b2p; simpl; [|naive_solver].
  destruct b as [|v b]; simpl; [naive_solver|]. case_bool_decide; simpl; naive_solver.
Qed.
End type_lemmas.

Lemma digit_plain a : is_ascii_digit a = true → plain a = true.
Proof. by destruct a as [[] [] [] [] [] [] [] []]. Qed.
Lemma upper_c_plain a : "C"%char = ascii_to_upper a → plain a = true.
Proof. by destruct a as [[] [] [] [] [] [] [] []]. Qed.

Section time_lemmas.
Context {P : Platform} {L : TimeLaws P}.

Lemma ends_with_true s t : ends_with s t = true ↔ chars t `suffix_of` chars s.
Proof. apply bool_decide_eq_true. Qed.

Lemma ends_with_last_ne s t k b j c :
  chars s = k ++ [b] → chars t = j ++ [c] → b ≠ c → ends_with s t = false.
Proof.
  intros Hs Ht Hne. apply bool_decide_eq_false. rewrite Hs Ht.
  intros Hsuf%suffix_snoc_inv_1. congruence.
Qed.

Lemma chars_to_ascii_uppercase s : chars (to_ascii_uppercase s) = ascii_to_upper <$> chars s.
Proof. apply chars_of_chars. Qed.

(** A timestamp that ends with [Z] has no [UTC] suffix to rewrite. *)
Lemma rewrite_utc_suffix_id s a l :
  chars s = a :: l ++ ["Z"%char] → is_ascii_digit a = true → rewrite_utc_suffix s = s.
Proof.
  intros Hs Ha. unfold rewrite_utc_suffix.
  assert (trim s = s) as ->.
  { by eapply (trim_plain_ends s a _ (a :: l) "Z"); auto using digit_plain. }
  assert (chars (to_ascii_uppercase s) = (ascii_to_upper <$> a :: l) ++ ["Z"%char]) as Hup.
  { by rewrite chars_to_ascii_uppercase Hs app_comm_cons fmap_app. }
  rewrite (ends_with_last_ne _ " UTC" _ _ (chars " UT") "C" Hup); [|done|done].
  by rewrite (ends_with_last_ne _ "UTC" _ _ (chars "UT") "C" Hup).
Qed.

(** A [UTC] suffix after a space, in any case, is read as [Z]. *)
Lemma rewrite_utc_suffix_utc p u a l :
  chars p = a :: l → is_ascii_digit a = true → to_ascii_uppercase u = " UTC" →
  rewrite_utc_suffix (p +:+ u) = p +:+ "Z".
Proof.
  intros Hp Ha Hu. pose proof (chars_to_ascii_uppercase u) as Hc. rewrite Hu in Hc. simpl in Hc.
  destruct (chars u) as [|c1 [|c2 [|c3 [|c4 [|]]]]] eqn:Hcu; try discriminate Hc. clear Hu.
  unfold rewrite_utc_suffix. assert (trim (p +:+ u) = p +:+ u) as ->.
  { eapply (trim_plain_ends _ a (l ++ [c1; c2; c3; c4]) (a :: l ++ [c1; c2; c3]) c4);
      rewrite ?chars_app ?Hp ?Hcu //=; [by rewrite -app_assoc|by apply digit_plain|].
    injection Hc as _ _ _ Hc4. by apply upper_c_plain. }
  assert (ends_with (to_ascii_uppercase (p +:+ u)) " UTC" = true) as ->.
  { apply ends_with_true. rewrite chars_to_ascii_uppercase chars_app fmap_app Hcu -Hc. by eexists. }
  f_equal. unfold slice_to. rewrite -length_chars chars_app Hcu length_app /= Nat.add_sub.
  by rewrite take_app_length of_chars_chars.
Qed.

Lemma format_utc_Ok d s :
  format_utc_rfc3339 d = Ok s ↔ dt_format (dt_to_utc d) = Ok s.
Proof. apply map_err_Ok. Qed.

Lemma CreatedAt_parse_wf s c : CreatedAt_parse s = Ok c → CreatedAt_wf c.
Proof.
  unfold CreatedAt_parse, parse_utc_rfc3339. intros. inv_ok.
  destruct (negb _); inv_ok. apply dt_to_utc_is_utc.
Qed.

Lemma CreatedAt_round_trip c s :
  CreatedAt_wf c → CreatedAt_as_rfc3339_utc c = Ok s → CreatedAt_parse s = Ok c.
Proof.
  destruct c as [d]. unfold CreatedAt_wf, CreatedAt_as_rfc3339_utc, CreatedAt_parse,
    parse_utc_rfc3339. simpl. intros Hd Hs%format_utc_Ok. rewrite dt_to_utc_id // in Hs.
  destruct (dt_format_shape d s Hd Hs) as (a & l & Hc & Ha).
  rewrite (rewrite_utc_suffix_id s a l) // (dt_parse_format d s) //= Hd /=.
  by rewrite dt_to_utc_id.
Qed.

Lemma CreatedAt_text_inj c1 c2 s :
  CreatedAt_wf c1 → CreatedAt_wf c2 →
  CreatedAt_as_rfc3339_utc c1 = Ok s → CreatedAt_as_rfc3339_utc c2 = Ok s → c1 = c2.
Proof.
  intros H1 H2 E1%CreatedAt_round_trip E2%CreatedAt_round_trip; [congruence|done..].
Qed.

(** The timestamps the program makes are accepted where they are read back. *)
Lemma SourceEventAt_now_parse w e w' :
  SourceEventAt_now_utc w = (Ok e, w') → SourceEventAt_parse (SourceEventAt_as_str e) = Ok e.
Proof.
  unfold SourceEventAt_now_utc. pose proof (clock_now_is_utc w) as Hd.
  destruct (clock_now_utc w) as [d w1]. simpl in Hd.
  intros [= He <-]. apply result_fmap_Ok in He as (s & Hs%format_utc_Ok & ->).
  rewrite dt_to_utc_id // in Hs.
  destruct (dt_format_shape d s Hd Hs) as (a & l & Hc & Ha).
  unfold SourceEventAt_parse. simpl.
  assert (ends_with s "Z" = true) as ->.
  { apply ends_with_true. rewrite Hc. by exists (a :: l). }
  by rewrite /= (dt_parse_format d s) //= Hd.
Qed.
End time_lemmas.

Lemma SourceEventAt_parse_str {P : Platform} s e :
  SourceEventAt_parse s = Ok e → SourceEventAt_as_str e = s ∧ ends_with s "Z" = true.
Proof.
  unfold SourceEventAt_parse. intros H. case_if; [done|]. b2p. inv_ok. by case_if; inv_ok.
Qed.

(** ** Properties *)

(** Version numbers never wrap: the successor of a version is the next
    [u32], and at [u32::MAX] it is the overflow error. *)
Theorem secret_version_next v :
  SecretVersion_wf v →
  SecretVersion_next v =
    if SecretVersion_get v =? u32_max then Err InputError_SecretVersionOverflow
    else Ok (mk_SecretVersion (SecretVersion_get v + 1)).
Proof.
  destruct v as [z]. unfold SecretVersion_wf, nonzero_u32, SecretVersion_next, NonZeroU32_new, u_checked_add.
  simpl. intros Hz. destruct (Z.eqb_spec z u32_max) as [->|Hne]; [done|].
  rewrite (proj2 (Z.leb_le _ _)); [|lia]. simpl. by rewrite (proj2 (Z.eqb_neq _ _)); [|lia].
Qed.

(** Timestamps survive text: a creation time prints as a text that parses to
    it, also when its [Z] is written as [UTC] after a space in any case; and a
    source event time taken from the clock is accepted, unchanged, where event
    times are read. *)
Theorem timestamps_round_trip {P : Platform} {L : TimeLaws P} :
  (∀ c s, CreatedAt_wf c → CreatedAt_as_rfc3339_utc c = Ok s →
     CreatedAt_parse s = Ok c
     ∧ ∀ p u, s = p +:+ "Z" → to_ascii_uppercase u = " UTC" → CreatedAt_parse (p +:+ u) = Ok c)
  ∧ (∀ w e w', SourceEventAt_now_utc w = (Ok e, w') → SourceEventAt_parse (SourceEventAt_as_str e) = Ok e).
Proof.
  split; [|exact SourceEventAt_now_parse]. intros c s Hc Hs.
  pose proof (CreatedAt_round_trip c s Hc Hs) as Hp. split; [done|]. intros p u -> Hu.
  destruct c as [d]. unfold CreatedAt_wf in Hc. simpl in Hc. apply format_utc_Ok in Hs. simpl in Hs.
  rewrite dt_to_utc_id // in Hs. destruct (dt_format_shape d _ Hc Hs) as (a & l & Hch & Ha).
  rewrite chars_app app_comm_cons in Hch. apply app_inj_tail in Hch as [Hch _].
  unfold CreatedAt_parse, parse_utc_rfc3339 in *.
  rewrite (rewrite_utc_suffix_utc p u a l) // (dt_parse_format d _) //= Hc /= dt_to_utc_id //.
Qed.

Section type_witnesses.
#[local] Existing Instance reference.

Lemma secret_version_next_witness :
  SecretVersion_next (mk_SecretVersion 4294967295) = Err InputError_SecretVersionOverflow.
Proof. rewrite secret_version_next; [reflexivity|done]. Defined.

Lemma timestamps_round_trip_witness : CreatedAt_parse "101 Utc" = Ok (mk_CreatedAt (5%positive, true)).
Proof.
  exact (proj2 (proj1 timestamps_round_trip (mk_CreatedAt (5%positive, true)) "101Z" eq_refl eq_refl)
    "101"%string " Utc"%string eq_refl eq_refl).
Defined.
End type_witnesses.
