(* ===== verification/Aad.v ===== *)
(** * The associated data of a secret version ([src/aad.rs])

    Every ciphertext is bound to the row it belongs to by the canonical JSON of
    five fields.  [AadV1_canonical_bytes] is what the cipher authenticates,
    [AadV1_to_stored_context] what the database keeps, and
    [AadV1_from_stored_context] reads that back. *)

From S2P Require Import Prelude RustStd Json Platform Reference Errors Types.

Definition AAD_VERSION_V1 : Z := 1.
Definition AAD_V1_FIELDS : list str :=
  ["aad_version"; "classification"; "created_at"; "owner_user_id"; "secret_id"; "version"]%string.

Section fields.
(** The helpers below are written twice in the source, in [aad.rs] and in
    [alias/aad.rs], with the same bodies. *)
Definition required_value (object : Map) (field : str) : result AadError Value :=
  ok_or (map_get field object) (AadError_MissingField field).

Definition validate_field_set (fields : list str) (object : Map) : result AadError unit :=
  _ ← try_for_each (λ field, _ ← required_value object field; Ok tt) fields;
  match List.find (λ key, negb (str_in key fields)) object.*1 with
  | Some field => Err (AadError_UnexpectedField field)
  | None => Ok tt
  end.

Definition parse_required_string (object : Map) (field : str) : result AadError str :=
  value ← required_value object field;
  ok_or (as_str value) (AadError_InvalidFieldType field "a string").

Definition parse_positive_integer (value : Value) (field : str) : result AadError Z :=
  match value with
  | JNumber number =>
      let error := AadError_InvalidPositiveInteger field (number_to_string number) in
      parsed ← ok_or (number_as_u64 number) error;
      parsed ← ok_or (u_try_from u32_max parsed) error;
      if parsed =? 0 then Err error else Ok parsed
  | _ => Err (AadError_InvalidFieldType field "a positive integer")
  end.

Definition parse_required_positive_integer (object : Map) (field : str) : result AadError Z :=
  value ← required_value object field;
  parse_positive_integer value field.

Definition parse_aad_version (value : Value) : result AadError Z :=
  match value with
  | JNumber number =>
      let error := AadError_UnsupportedAadVersion (number_to_string number) in
      parsed ← ok_or (n ← number_as_u64 number; u_try_from u8_max n) error;
      if parsed =? AAD_VERSION_V1 then Ok parsed else Err error
  | _ => Err (AadError_InvalidFieldType "aad_version" "the integer 1")
  end.
End fields.

Section aad.
Context {P : Platform}.

Record AadV1 := mk_AadV1 {
  aad_secret_id : SecretId;
  aad_version : SecretVersion;
  aad_owner_user_id : OwnerUserId;
  aad_classification : Classification;
  aad_created_at : CreatedAt;
}.

#[global] Instance AadV1_eq_dec : EqDecision AadV1.
Proof. solve_decision. Defined.

Definition AadV1_new := mk_AadV1.

Definition AadV1_parse (secret_id : str) (version : Z) (owner_user_id classification created_at : str)
    : result AadError AadV1 :=
  secret_id ← SecretId_parse secret_id;
  version ← SecretVersion_new version;
  owner_user_id ← OwnerUserId_parse owner_user_id;
  classification ← Classification_new classification;
  created_at ← CreatedAt_parse created_at;
  Ok (AadV1_new secret_id version owner_user_id classification created_at).

Definition validate_aad_v1_field_set (object : Map) : result AadError unit :=
  validate_field_set AAD_V1_FIELDS object.

Definition AadV1_from_stored_context (context : Value) : result AadError AadV1 :=
  object ← ok_or (as_object context) AadError_ExpectedJsonObject;
  _ ← validate_aad_v1_field_set object;
  value ← required_value object "aad_version";
  aad_version ← parse_aad_version value;
  if negb (aad_version =? AAD_VERSION_V1)
  then Err (AadError_UnsupportedAadVersion (int_to_string aad_version)) else
  secret_id ← parse_required_string object "secret_id";
  version ← parse_required_positive_integer object "version";
  owner_user_id ← parse_required_string object "owner_user_id";
  classification ← parse_required_string object "classification";
  created_at ← parse_required_string object "created_at";
  AadV1_parse secret_id version owner_user_id classification created_at.

Definition AadV1_from_row_metadata := AadV1_new.

(** [#[derive(Serialize)] struct CanonicalAad], fields in declaration order. *)
Definition CanonicalAad (classification created_at owner_user_id secret_id : str) (version : Z) : Map :=
  [("aad_version", json_uint AAD_VERSION_V1);
   ("classification", JString classification);
   ("created_at", JString created_at);
   ("owner_user_id", JString owner_user_id);
   ("secret_id", JString secret_id);
   ("version", json_uint version)]%string.

Definition AadV1_canonical_json (aad : AadV1) : result AadError str :=
  created_at ← CreatedAt_as_rfc3339_utc (aad_created_at aad);
  let owner_user_id := OwnerUserId_as_canonical_string (aad_owner_user_id aad) in
  let secret_id := SecretId_as_canonical_string (aad_secret_id aad) in
  let canonical := CanonicalAad (Classification_as_str (aad_classification aad)) created_at
    owner_user_id secret_id (SecretVersion_get (aad_version aad)) in
  serde_to_string (JObject canonical) !? AadError_SerializationFailed.

Definition AadV1_canonical_bytes (aad : AadV1) : result AadError bytes :=
  as_bytes <$> AadV1_canonical_json aad.

Definition AadV1_to_stored_context (aad : AadV1) : result AadError Value :=
  created_at ← CreatedAt_as_rfc3339_utc (aad_created_at aad);
  Ok (JObject (map_of_list
    [("aad_version", json_uint AAD_VERSION_V1);
     ("secret_id", JString (SecretId_as_canonical_string (aad_secret_id aad)));
     ("version", json_uint (SecretVersion_get (aad_version aad)));
     ("owner_user_id", JString (OwnerUserId_as_canonical_string (aad_owner_user_id aad)));
     ("classification", JString (Classification_as_str (aad_classification aad)));
     ("created_at", JString created_at)]%string)).

Definition AadV1_wf (aad : AadV1) : Prop :=
  SecretId_wf (aad_secret_id aad) ∧ SecretVersion_wf (aad_version aad)
  ∧ Classification_wf (aad_classification aad) ∧ CreatedAt_wf (aad_created_at aad).
End aad.

(** ** Lemmas *)

Lemma validate_field_set_Ok fields object :
  validate_field_set fields object = Ok tt ↔ ∀ k, k ∈ object.*1 ↔ k ∈ fields.
Proof.
  unfold validate_field_set, str_in. rewrite result_bind_Ok. split.
  - intros ([] & Hall%try_for_each_Ok & Hfind) k. rewrite Forall_forall in Hall.
    destruct (List.find _ _) eqn:E; [done|]. split.
    + intros Hk. pose proof (List.find_none _ _ E k) as Hn.
      rewrite -list_elem_of_In in Hn. specialize (Hn Hk). b2p. done.
    + intros Hk%Hall. unfold required_value in Hk. inv_ok.
      apply map_get_elem in H. by apply (list_elem_of_fmap_2 fst) in H.
  - intros Hiff. exists tt. split.
    + apply try_for_each_Ok, Forall_forall. intros k Hk%Hiff.
      apply map_contains_key_true in Hk. unfold map_contains_key in Hk.
      unfold required_value. by destruct (map_get k object).
    + destruct (List.find _ _) eqn:E; [|done]. apply List.find_some in E as [Hin Hneg].
      b2p. rewrite -list_elem_of_In in Hin. by apply Hiff in Hin.
Qed.

Lemma parse_positive_integer_Ok v field z :
  parse_positive_integer v field = Ok z ↔ v = json_uint z ∧ nonzero_u32 z.
Proof.
  unfold parse_positive_integer, json_uint, nonzero_u32. destruct v as [| |[n|n|t]| | |]; simpl;
    try naive_solver. split.
  - intros. inv_ok. apply u_try_from_Some in H as [-> ?]. case_if; [done|]. b2p. inv_ok. naive_solver lia.
  - intros [[= ->] ?].
    assert (u_try_from u32_max z = Some z) as -> by (apply u_try_from_Some; lia). simpl.
    by rewrite (proj2 (Z.eqb_neq z 0)); [|lia].
Qed.

Lemma parse_aad_version_Ok v z : parse_aad_version v = Ok z ↔ v = json_uint 1 ∧ z = 1.
Proof.
  unfold parse_aad_version, json_uint. destruct v as [| |[n|n|t]| | |]; simpl; try naive_solver.
  unfold AAD_VERSION_V1. split.
  - intros. inv_ok. apply u_try_from_Some in H as [-> ?]. case_if; b2p; inv_ok. naive_solver.
  - by intros [[= ->] ->].
Qed.

Lemma parse_required_string_Ok object field s :
  parse_required_string object field = Ok s ↔ map_get field object = Some (JString s).
Proof.
  unfold parse_required_string, required_value. split.
  - intros. inv_ok. destruct x; simplify_eq/=. done.
  - by intros ->.
Qed.

Section aad_lemmas.
Context {P : Platform}.

Lemma AadV1_parse_Ok {L : TimeLaws P} si v oi c ca aad :
  is_u32 v → AadV1_parse si v oi c ca = Ok aad → AadV1_wf aad.
Proof.
  unfold AadV1_parse. intros Hv H. inv_ok.
  unfold SecretId_parse, Classification_new in *. inv_ok. case_if; [done|]. inv_ok.
  select (parse_uuid_v4 _ _ = _) (fun H => apply parse_uuid_v4_Ok in H as [_ ?]).
  select (SecretVersion_new _ = _) (fun H => apply SecretVersion_new_Ok in H as [-> ?]); [|done].
  repeat split; simpl; [done|..|done|by eapply CreatedAt_parse_wf]; unfold nonzero_u32 in *; lia.
Qed.

Lemma AadV1_parse_canonical {LU : UuidLaws P} {LT : TimeLaws P} aad s :
  AadV1_wf aad → CreatedAt_as_rfc3339_utc (aad_created_at aad) = Ok s →
  AadV1_parse (SecretId_as_canonical_string (aad_secret_id aad))
    (SecretVersion_get (aad_version aad))
    (OwnerUserId_as_canonical_string (aad_owner_user_id aad))
    (Classification_as_str (aad_classification aad)) s = Ok aad.
Proof.
  destruct aad as [si [v] oi [c] ca]. intros (Hsi & Hv & Hc & Hca) Hs. simpl in *.
  unfold AadV1_parse. rewrite SecretId_parse_canonical //=.
  assert (SecretVersion_new v = Ok (mk_SecretVersion v)) as ->.
  { apply SecretVersion_new_Ok; unfold SecretVersion_wf, nonzero_u32, is_u32 in *; simpl in *; [lia|done]. }
  rewrite /= OwnerUserId_parse_canonical /=. unfold Classification_new, Classification_wf in *.
  simpl in Hc. rewrite Hc /= (CreatedAt_round_trip ca s) //=.
Qed.

Lemma CanonicalAad_exact c ca oi si v :
  nonzero_u32 v → json_exact json_max_depth (JObject (CanonicalAad c ca oi si v)) = true.
Proof.
  intros Hv. apply json_exact_object. split.
  { by decide_keys. }
  unfold nonzero_u32, u32_max in Hv.
  repeat constructor. cbn. apply andb_true_iff; split; apply Z.leb_le; unfold u64_max; lia.
Qed.
End aad_lemmas.

Section aad_theorems.
Context {P : Platform}.

(** The stored context is the canonical document: inserting the fields into a
    map puts them in the order the canonical struct declares them. *)
Lemma AadV1_to_stored_context_Ok (aad : AadV1) v :
  AadV1_to_stored_context aad = Ok v ↔
  ∃ s, CreatedAt_as_rfc3339_utc (aad_created_at aad) = Ok s
    ∧ v = JObject (CanonicalAad (Classification_as_str (aad_classification aad)) s
        (OwnerUserId_as_canonical_string (aad_owner_user_id aad))
        (SecretId_as_canonical_string (aad_secret_id aad)) (SecretVersion_get (aad_version aad))).
Proof.
  unfold AadV1_to_stored_context. rewrite result_bind_Ok. split.
  - intros (s & Hs & [= <-]). by exists s.
  - intros (s & Hs & ->). by exists s.
Qed.

Lemma AadV1_canonical_json_Ok (aad : AadV1) t :
  AadV1_canonical_json aad = Ok t ↔
  ∃ v, AadV1_to_stored_context aad = Ok v ∧ serde_to_string v = Ok t.
Proof.
  unfold AadV1_canonical_json. rewrite result_bind_Ok. split.
  - intros (s & Hs & Ht%map_err_Ok). eexists; split; [|done].
    apply AadV1_to_stored_context_Ok. by exists s.
  - intros (v & (s & Hs & ->)%AadV1_to_stored_context_Ok & Ht). exists s.
    split; [done|]. by apply map_err_Ok.
Qed.

Lemma AadV1_from_canonical_object c ca oi si v :
  nonzero_u32 v →
  AadV1_from_stored_context (JObject (CanonicalAad c ca oi si v)) = AadV1_parse si v oi c ca.
Proof.
  intros Hv. unfold AadV1_from_stored_context.
  assert (validate_aad_v1_field_set (CanonicalAad c ca oi si v) = Ok tt) as Hset.
  { apply validate_field_set_Ok. intros k. done. }
  change (as_object (JObject (CanonicalAad c ca oi si v))) with (Some (CanonicalAad c ca oi si v)).
  cbn [ok_or mbind result_bind]. rewrite Hset. cbn.
  assert (u_try_from u32_max v = Some v) as ->.
  { apply u_try_from_Some. unfold nonzero_u32 in Hv. lia. }
  cbn. rewrite (proj2 (Z.eqb_neq v 0)); [done|]. unfold nonzero_u32 in Hv. lia.
Qed.

(** A context written for a row is read back as the same associated data. *)
Lemma AadV1_from_to_stored {LU : UuidLaws P} {LT : TimeLaws P} (aad : AadV1) v :
  AadV1_wf aad → AadV1_to_stored_context aad = Ok v → AadV1_from_stored_context v = Ok aad.
Proof.
  intros Hwf (s & Hs & ->)%AadV1_to_stored_context_Ok.
  rewrite AadV1_from_canonical_object; [|apply Hwf]. by apply AadV1_parse_canonical.
Qed.

Lemma AadV1_stored_exact (aad : AadV1) v :
  AadV1_wf aad → AadV1_to_stored_context aad = Ok v →
  json_exact json_max_depth v = true ∧ normalize v = v.
Proof.
  intros Hwf (s & Hs & ->)%AadV1_to_stored_context_Ok. split; [|done].
  apply CanonicalAad_exact, Hwf.
Qed.

Lemma AadV1_canonical_bytes_Ok (aad : AadV1) x :
  AadV1_canonical_bytes aad = Ok x ↔
  ∃ v s, AadV1_to_stored_context aad = Ok v ∧ serde_to_string v = Ok s ∧ x = as_bytes s.
Proof.
  unfold AadV1_canonical_bytes. rewrite result_fmap_Ok.
  setoid_rewrite AadV1_canonical_json_Ok. naive_solver.
Qed.

Lemma AadV1_canonical_inj {LU : UuidLaws P} {LT : TimeLaws P} {LS : SerdeLaws P} (a b : AadV1) x :
  AadV1_wf a → AadV1_wf b →
  AadV1_canonical_bytes a = Ok x → AadV1_canonical_bytes b = Ok x → a = b.
Proof.
  intros Ha Hb (va & sa & Hva & Hsa & ->)%AadV1_canonical_bytes_Ok
    (vb & sb & Hvb & Hsb & <-%as_bytes_inj)%AadV1_canonical_bytes_Ok.
  destruct (AadV1_stored_exact a va) as [Hea Hna]; [done..|].
  destruct (AadV1_stored_exact b vb) as [Heb Hnb]; [done..|].
  assert (va = vb) as <- by (rewrite -Hna -Hnb; by eapply serde_to_string_inj).
  pose proof (AadV1_from_to_stored a va Ha Hva).
  pose proof (AadV1_from_to_stored b va Hb Hvb). congruence.
Qed.

(** Reading a context back: which contexts are accepted, and as what. *)
Lemma AadV1_from_stored_context_Ok v (aad : AadV1) :
  AadV1_from_stored_context v = Ok aad ↔
  ∃ object si n oi c ca,
    v = JObject object ∧ (∀ k, k ∈ object.*1 ↔ k ∈ AAD_V1_FIELDS)
    ∧ map_get "aad_version" object = Some (json_uint 1)
    ∧ map_get "secret_id" object = Some (JString si)
    ∧ map_get "version" object = Some (json_uint n) ∧ nonzero_u32 n
    ∧ map_get "owner_user_id" object = Some (JString oi)
    ∧ map_get "classification" object = Some (JString c)
    ∧ map_get "created_at" object = Some (JString ca)
    ∧ AadV1_parse si n oi c ca = Ok aad.
Proof.
  unfold AadV1_from_stored_context, parse_required_positive_integer, validate_aad_v1_field_set.
  split.
  - intros H. inv_ok. case_if; [done|]. inv_ok.
    destruct v; simplify_eq/=.
    repeat select (parse_required_string _ _ = _) (fun H => apply parse_required_string_Ok in H).
    select (parse_positive_integer _ _ = _) (fun H => apply parse_positive_integer_Ok in H as [-> ?]).
    select (parse_aad_version _ = _) (fun H => apply parse_aad_version_Ok in H as [-> ->]).
    select (validate_field_set _ _ = _) (fun H => pose proof (proj1 (validate_field_set_Ok _ _) H)).
    unfold required_value in *. inv_ok. naive_solver.
  - intros (object & si & n & oi & c & ca & -> & Hset & Hv & Hsi & Hn & Hn' & Hoi & Hc & Hca & Hp).
    rewrite -validate_field_set_Ok in Hset. unfold required_value.
    rewrite /= Hset /= Hv /= (proj2 (parse_required_string_Ok _ _ _) Hsi) /= Hn /=.
    assert (u_try_from u32_max n = Some n) as -> by (apply u_try_from_Some; unfold nonzero_u32 in Hn'; lia).
    rewrite /= (proj2 (Z.eqb_neq n 0)); [|unfold nonzero_u32 in Hn'; lia].
    by rewrite /= (proj2 (parse_required_string_Ok _ _ _) Hoi) /=
      (proj2 (parse_required_string_Ok _ _ _) Hc) /= (proj2 (parse_required_string_Ok _ _ _) Hca).
Qed.

Lemma AadV1_from_stored_wf {L : TimeLaws P} v (aad : AadV1) :
  AadV1_from_stored_context v = Ok aad → AadV1_wf aad.
Proof.
  intros (object & si & n & oi & c & ca & -> & _ & _ & _ & _ & Hn & _ & _ & _ & Hp)%AadV1_from_stored_context_Ok.
  eapply AadV1_parse_Ok; [|done]. unfold nonzero_u32, is_u32 in *. lia.
Qed.
End aad_theorems.

(** ** Properties *)

Section aad_properties.
Context {P : Platform}.

(** The context stored beside a row is read back as the associated data it
    was written for.  Conversely a context is accepted only when it is an object
    with exactly the six fields of version one, and what it is read as is
    well-formed and survives being stored again. *)
Theorem aad_stored_round_trip {LU : UuidLaws P} {LT : TimeLaws P} :
  (∀ aad v, AadV1_wf aad → AadV1_to_stored_context aad = Ok v → AadV1_from_stored_context v = Ok aad)
  ∧ (∀ v aad, AadV1_from_stored_context v = Ok aad →
      (∃ object, v = JObject object ∧ ∀ k, k ∈ object.*1 ↔ k ∈ AAD_V1_FIELDS)
      ∧ AadV1_wf aad
      ∧ ∀ v', AadV1_to_stored_context aad = Ok v' → AadV1_from_stored_context v' = Ok aad).
Proof.
  split; [apply AadV1_from_to_stored|]. intros v aad H.
  pose proof (AadV1_from_stored_wf v aad H) as Hwf. split; [|split; [done|]].
  - apply AadV1_from_stored_context_Ok in H as (object & ? & ? & ? & ? & ? & -> & Hk & _). by exists object.
  - intros v'. by apply AadV1_from_to_stored.
Qed.

(** The bytes that are authenticated are the text of the stored context and
    determine every field: two rows with the same bytes have the same secret,
    version, owner, classification and creation time. *)
Theorem aad_canonical_binding {LU : UuidLaws P} {LT : TimeLaws P} {LS : SerdeLaws P} (a b : AadV1) x :
  AadV1_wf a → AadV1_wf b → AadV1_canonical_bytes a = Ok x → AadV1_canonical_bytes b = Ok x →
  a = b ∧ ∃ v s, AadV1_to_stored_context a = Ok v ∧ serde_to_string v = Ok s ∧ x = as_bytes s.
Proof.
  intros Ha Hb Hxa Hxb. split; [by eapply AadV1_canonical_inj|].
  by apply AadV1_canonical_bytes_Ok.
Qed.
End aad_properties.

Section aad_witnesses.
#[local] Existing Instance reference.

Definition sample_aad : AadV1 :=
  mk_AadV1 (mk_SecretId (ref_from_random_bytes [x01; x02; x03])) (mk_SecretVersion 3)
    (mk_OwnerUserId (ref_from_random_bytes [x0a])) (mk_Classification "confidential")
    (mk_CreatedAt (5%positive, true)).

Lemma sample_aad_wf : AadV1_wf sample_aad.
Proof. by split_and!. Qed.

Lemma aad_stored_round_trip_witness :
  ∃ v, AadV1_to_stored_context sample_aad = Ok v ∧ AadV1_from_stored_context v = Ok sample_aad.
Proof.
  destruct (is_ok_inv (AadV1_to_stored_context sample_aad)) as [v Hv]; [vm_compute; reflexivity|].
  exists v. split; [exact Hv|]. exact (proj1 aad_stored_round_trip sample_aad v sample_aad_wf Hv).
Defined.

Lemma aad_canonical_binding_witness :
  ∃ x v s, AadV1_canonical_bytes sample_aad = Ok x
    ∧ AadV1_to_stored_context sample_aad = Ok v ∧ serde_to_string v = Ok s ∧ x = as_bytes s.
Proof.
  destruct (is_ok_inv (AadV1_canonical_bytes sample_aad)) as [x Hx]; [vm_compute; reflexivity|].
  destruct (proj2 (aad_canonical_binding sample_aad sample_aad x sample_aad_wf sample_aad_wf Hx Hx))
    as (v & s & H). exists x, v, s. exact (conj Hx H).
Defined.
End aad_witnesses.
