(* ===== verification/Crypto.v ===== *)
(** * Envelope encryption ([src/crypto.rs])

    A master key wraps the data key of a secret; the data key encrypts the
    plaintext.  Both steps draw a fresh nonce and authenticate a canonical
    document: the key-wrap context or the associated data of the row. *)

From S2P Require Import Prelude RustStd Json Platform Reference Errors Types Aad.

Definition ALGORITHM_XCHACHA20_POLY1305 : str := "xchacha20-poly1305".
Definition KEY_WRAP_CONTEXT : str := "data_key_wrap".
Definition KEY_WRAP_VERSION : Z := 1.

#[global] Instance KeyVersion_countable : Countable KeyVersion :=
  inj_countable' KeyVersion_get mk_KeyVersion (λ '(mk_KeyVersion z), eq_refl).

(** ** The master key ring *)

Record MasterKeyRing := mk_MasterKeyRing {
  ring_active_key_version : KeyVersion;
  ring_keys : gmap KeyVersion MasterKey;
}.

Definition MasterKeyRing_new (active : KeyVersion) (keys : gmap KeyVersion MasterKey)
    : result KeyringError MasterKeyRing :=
  if bool_decide (keys = ∅) then Err KeyringError_Empty else
  if negb (bool_decide (is_Some (keys !! active)))
  then Err (KeyringError_ActiveKeyMissing (KeyVersion_get active)) else
  Ok (mk_MasterKeyRing active keys).

(** The loop of [from_key_entries]; [BTreeMap::insert] reports a replaced key. *)
Fixpoint insert_entries (keys : gmap KeyVersion MasterKey) (entries : list (KeyVersion * MasterKey))
    : result KeyringError (gmap KeyVersion MasterKey) :=
  match entries with
  | [] => Ok keys
  | (key_version, master_key) :: entries =>
      match keys !! key_version with
      | Some _ => Err (KeyringError_DuplicateKeyVersion (KeyVersion_get key_version))
      | None => insert_entries (<[key_version := master_key]> keys) entries
      end
  end.

Definition MasterKeyRing_from_key_entries (active : KeyVersion)
    (entries : list (KeyVersion * MasterKey)) : result KeyringError MasterKeyRing :=
  keys ← insert_entries ∅ entries;
  MasterKeyRing_new active keys.

Definition MasterKeyRing_single (active : KeyVersion) (master_key : MasterKey)
    : result KeyringError MasterKeyRing :=
  MasterKeyRing_from_key_entries active [(active, master_key)].

(** [None] is the [unreachable!] of the source. *)
Definition MasterKeyRing_active (ring : MasterKeyRing) : option (KeyVersion * MasterKey) :=
  master_key ← ring_keys ring !! ring_active_key_version ring;
  Some (ring_active_key_version ring, master_key).

Definition MasterKeyRing_get (ring : MasterKeyRing) (key_version : KeyVersion)
    : result KeyringError MasterKey :=
  ok_or (ring_keys ring !! key_version) (KeyringError_KeyUnavailable (KeyVersion_get key_version)).

Definition MasterKeyRing_contains (ring : MasterKeyRing) (key_version : KeyVersion) : bool :=
  bool_decide (is_Some (ring_keys ring !! key_version)).

Definition MasterKeyRing_wf (ring : MasterKeyRing) : Prop :=
  is_Some (ring_keys ring !! ring_active_key_version ring)
  ∧ ∀ v k, ring_keys ring !! v = Some k → MasterKey_wf k.

Section crypto.
Context {P : Platform}.

(** ** Key wrapping *)

Record KeyWrapContext := mk_KeyWrapContext {
  kw_secret_id : SecretId;
  kw_key_version : KeyVersion;
}.
Definition KeyWrapContext_new := mk_KeyWrapContext.

(** [#[derive(Serialize)] struct CanonicalKeyWrapAad]. *)
Definition CanonicalKeyWrapAad (key_version : Z) (secret_id : str) : Map :=
  [("context", JString KEY_WRAP_CONTEXT);
   ("key_version", json_uint key_version);
   ("secret_id", JString secret_id);
   ("wrap_version", json_uint KEY_WRAP_VERSION)]%string.

Definition KeyWrapContext_canonical_bytes (context : KeyWrapContext) : result CryptoError bytes :=
  let secret_id := SecretId_as_canonical_string (kw_secret_id context) in
  let aad := CanonicalKeyWrapAad (KeyVersion_get (kw_key_version context)) secret_id in
  serde_to_vec (JObject aad) !? (λ _, CryptoError_AadFailed).

Definition cipher_from_data_key (data_key : DataKey) : result CryptoError Cipher :=
  ok_or (cipher_new_from_slice (DataKey_as_bytes data_key))
    (CryptoError_InvalidDataKeyLength (zlen (DataKey_as_bytes data_key))).
Definition cipher_from_master_key (master_key : MasterKey) : result CryptoError Cipher :=
  ok_or (cipher_new_from_slice (MasterKey_as_bytes master_key))
    (CryptoError_InvalidMasterKeyLength (zlen (MasterKey_as_bytes master_key))).

Definition wrap_data_key (master_key : MasterKey) (context : KeyWrapContext) (data_key : DataKey)
    : io World CryptoError EncryptedDataKey :=
  nonce ← Nonce_generate;
  aad_bytes ← lift (KeyWrapContext_canonical_bytes context);
  cipher ← lift (cipher_from_master_key master_key);
  encrypted_data_key ← lift (ok_or
    (cipher_encrypt cipher (Nonce_as_bytes nonce) aad_bytes (DataKey_as_bytes data_key))
    CryptoError_KeyWrapFailed);
  if negb (length encrypted_data_key =? ENCRYPTED_DATA_KEY_CIPHERTEXT_LENGTH)%nat
  then lift (Err CryptoError_KeyWrapFailed) else
  let envelope := [ENCRYPTED_DATA_KEY_VERSION] ++ Nonce_as_bytes nonce ++ encrypted_data_key in
  lift (EncryptedDataKey_from_envelope_bytes envelope).

Definition unwrap_data_key (master_key : MasterKey) (context : KeyWrapContext)
    (encrypted_data_key : EncryptedDataKey) : result CryptoError DataKey :=
  aad_bytes ← KeyWrapContext_canonical_bytes context;
  cipher ← cipher_from_master_key master_key;
  data_key ← ok_or
    (cipher_decrypt cipher (EncryptedDataKey_nonce_bytes encrypted_data_key) aad_bytes
      (EncryptedDataKey_ciphertext_bytes encrypted_data_key))
    CryptoError_KeyUnwrapFailed;
  if negb (length data_key =? DATA_KEY_LENGTH)%nat then Err CryptoError_KeyUnwrapFailed
  else DataKey_parse data_key !? (λ _, CryptoError_KeyUnwrapFailed).

(** ** Secrets *)

Record EncryptedPayload := mk_EncryptedPayload {
  ep_ciphertext : Ciphertext;
  ep_nonce : Nonce;
  ep_aad_context : Value;
}.

Definition encrypt_secret (data_key : DataKey) (aad : AadV1) (plaintext : Plaintext)
    : io World CryptoError EncryptedPayload :=
  nonce ← Nonce_generate;
  aad_bytes ← lift (AadV1_canonical_bytes aad !? CryptoError_from_AadError);
  cipher ← lift (cipher_from_data_key data_key);
  ciphertext ← lift (c ← ok_or
      (cipher_encrypt cipher (Nonce_as_bytes nonce) aad_bytes (Plaintext_as_bytes plaintext))
      CryptoError_EncryptionFailed;
    Ciphertext_new c);
  aad_context ← lift (AadV1_to_stored_context aad !? CryptoError_from_AadError);
  mret (mk_EncryptedPayload ciphertext nonce aad_context).

Definition decrypt_secret (data_key : DataKey) (aad : AadV1) (nonce : Nonce) (ciphertext : Ciphertext)
    : result CryptoError Plaintext :=
  aad_bytes ← AadV1_canonical_bytes aad !? CryptoError_from_AadError;
  cipher ← cipher_from_data_key data_key;
  plaintext ← ok_or
    (cipher_decrypt cipher (Nonce_as_bytes nonce) aad_bytes (Ciphertext_as_bytes ciphertext))
    CryptoError_DecryptionFailed;
  Ok (mk_Plaintext plaintext).
End crypto.

(** ** Lemmas *)

Lemma MasterKeyRing_new_Ok active keys ring :
  MasterKeyRing_new active keys = Ok ring ↔
  ring = mk_MasterKeyRing active keys ∧ is_Some (keys !! active).
Proof.
  unfold MasterKeyRing_new. repeat case_bool_decide; simpl; split; try naive_solver.
  intros [_ [k Hk]]. subst keys. by rewrite lookup_empty in Hk.
Qed.

Lemma MasterKeyRing_active_wf ring :
  MasterKeyRing_wf ring →
  ∃ mk, MasterKeyRing_active ring = Some (ring_active_key_version ring, mk)
    ∧ MasterKeyRing_get ring (ring_active_key_version ring) = Ok mk ∧ MasterKey_wf mk.
Proof.
  intros [[mk Hmk] Hwf]. exists mk. unfold MasterKeyRing_active, MasterKeyRing_get.
  rewrite Hmk. naive_solver.
Qed.

Lemma MasterKeyRing_get_wf ring v mk :
  MasterKeyRing_wf ring → MasterKeyRing_get ring v = Ok mk → MasterKey_wf mk.
Proof. intros [_ Hwf]. unfold MasterKeyRing_get. intros. inv_ok. eauto. Qed.

(** A ring built from entries holds exactly those entries, none twice. *)
Lemma insert_entries_Ok keys entries keys' :
  insert_entries keys entries = Ok keys' ↔
  NoDup entries.*1 ∧ (∀ v, v ∈ entries.*1 → keys !! v = None)
  ∧ keys' = list_to_map entries ∪ keys.
Proof.
  revert keys. induction entries as [|[v k] entries IH]; intros keys.
  { simpl. rewrite (left_id_L ∅ (∪)). split; [intros [= ->]|by intros (_ & _ & ->)].
    split; [constructor|]. split; [|done]. by intros v ?%not_elem_of_nil. }
  rewrite !fmap_cons NoDup_cons. cbn [insert_entries list_to_map fst snd].
  destruct (keys !! v) as [k'|] eqn:Hv.
  { split; [done|]. intros (_ & Hn & _). specialize (Hn v). rewrite Hv in Hn.
    discriminate Hn. by left. }
  rewrite IH. split.
  - intros (Hnd & Hn & ->). repeat split; [|done|..].
    + intros Hin%Hn. by rewrite lookup_insert_eq in Hin.
    + intros v' [->|Hin]%elem_of_cons; [done|]. apply Hn in Hin.
      by apply lookup_insert_None in Hin as [? _].
    + rewrite -insert_union_l -insert_union_r; [done|].
      apply not_elem_of_list_to_map_1. intros Hin%Hn. by rewrite lookup_insert_eq in Hin.
  - intros ([Hv' Hnd] & Hn & ->). repeat split; [done|..].
    + intros v' Hin. rewrite lookup_insert_ne; [|by intros ->]. apply Hn. by right.
    + rewrite -insert_union_l -insert_union_r; [done|].
      by apply not_elem_of_list_to_map_1.
Qed.

Section crypto_lemmas.
Context {P : Platform}.

Lemma envelope_nonce n c :
  length n = NONCE_LENGTH →
  EncryptedDataKey_nonce_bytes (mk_EncryptedDataKey ([ENCRYPTED_DATA_KEY_VERSION] ++ n ++ c)) = n.
Proof.
  intros Hn. unfold EncryptedDataKey_nonce_bytes. simpl. rewrite -Hn. by rewrite take_app_length.
Qed.

Lemma envelope_ciphertext n c :
  length n = NONCE_LENGTH →
  EncryptedDataKey_ciphertext_bytes (mk_EncryptedDataKey ([ENCRYPTED_DATA_KEY_VERSION] ++ n ++ c)) = c.
Proof.
  intros Hn. unfold EncryptedDataKey_ciphertext_bytes. simpl. rewrite -Hn. by rewrite drop_app_length.
Qed.

(** What a successful wrap produced: the envelope of a fresh nonce and the
    encryption of the data key under the context. *)
Lemma wrap_data_key_Ok {LR : RandomLaws P} mk ctx dk w edk w' :
  wrap_data_key mk ctx dk w = (Ok edk, w') →
  ∃ nonce aad cipher ct,
    length (Nonce_as_bytes nonce) = NONCE_LENGTH
    ∧ KeyWrapContext_canonical_bytes ctx = Ok aad ∧ cipher_from_master_key mk = Ok cipher
    ∧ cipher_encrypt cipher (Nonce_as_bytes nonce) aad (DataKey_as_bytes dk) = Some ct
    ∧ edk = mk_EncryptedDataKey ([ENCRYPTED_DATA_KEY_VERSION] ++ Nonce_as_bytes nonce ++ ct)
    ∧ EncryptedDataKey_wf edk.
Proof.
  unfold wrap_data_key. intros H. inv_ok. case_if; inv_ok.
  select (Nonce_generate _ = _) (fun H => apply Nonce_generate_wf in H).
  unfold EncryptedDataKey_from_envelope_bytes in *. inv_ok.
  select (validate_encrypted_data_key_envelope _ = _) (fun H => apply validate_envelope_Ok in H).
  by do 4 eexists.
Qed.

Lemma unwrap_wrap_data_key {LR : RandomLaws P} {LA : AeadLaws P} mk ctx dk w edk w' :
  DataKey_wf dk → wrap_data_key mk ctx dk w = (Ok edk, w') →
  unwrap_data_key mk ctx edk = Ok dk ∧ EncryptedDataKey_wf edk.
Proof.
  intros Hdk (n & aad & cipher & ct & Hn & Haad & Hcipher & Hct & -> & Hwf)%wrap_data_key_Ok.
  split; [|done]. unfold unwrap_data_key.
  rewrite Haad /= Hcipher /= envelope_nonce // envelope_ciphertext //.
  erewrite cipher_decrypt_encrypt by done. simpl.
  unfold DataKey_wf in Hdk. rewrite Hdk Nat.eqb_refl /=.
  apply map_err_Ok, parse_array_Ok. by destruct dk.
Qed.

Lemma unwrap_data_key_wf mk ctx edk dk : unwrap_data_key mk ctx edk = Ok dk → DataKey_wf dk.
Proof.
  unfold unwrap_data_key. intros H. inv_ok. case_if; inv_ok.
  by select (DataKey_parse _ = _) (fun H => apply parse_array_Ok in H as [? ->]).
Qed.

Lemma encrypt_secret_Ok {LR : RandomLaws P} dk aad pt w ep w' :
  encrypt_secret dk aad pt w = (Ok ep, w') →
  ∃ x cipher,
    AadV1_canonical_bytes aad = Ok x ∧ cipher_from_data_key dk = Ok cipher
    ∧ cipher_encrypt cipher (Nonce_as_bytes (ep_nonce ep)) x (Plaintext_as_bytes pt)
      = Some (Ciphertext_as_bytes (ep_ciphertext ep))
    ∧ AadV1_to_stored_context aad = Ok (ep_aad_context ep) ∧ Nonce_wf (ep_nonce ep).
Proof.
  unfold encrypt_secret. intros H. inv_ok.
  select (Nonce_generate _ = _) (fun H => apply Nonce_generate_wf in H).
  select (Ciphertext_new _ = _) (fun H => unfold Ciphertext_new in H; case_match; inv_ok).
  do 2 eexists. simpl. eauto.
Qed.

Lemma decrypt_encrypt_secret {LR : RandomLaws P} {LA : AeadLaws P} dk aad pt w ep w' :
  encrypt_secret dk aad pt w = (Ok ep, w') →
  decrypt_secret dk aad (ep_nonce ep) (ep_ciphertext ep) = Ok pt.
Proof.
  intros (x & cipher & Hx & Hc & Hct & _)%encrypt_secret_Ok. unfold decrypt_secret.
  rewrite Hx /= Hc /=. erewrite cipher_decrypt_encrypt by done. by destruct pt.
Qed.

(** The two key-wrap contexts with the same canonical bytes are the same. *)
Lemma KeyWrapContext_canonical_inj {LU : UuidLaws P} {LS : SerdeLaws P} c1 c2 x :
  KeyVersion_wf (kw_key_version c1) → KeyVersion_wf (kw_key_version c2) →
  KeyWrapContext_canonical_bytes c1 = Ok x → KeyWrapContext_canonical_bytes c2 = Ok x → c1 = c2.
Proof.
  destruct c1 as [i1 [v1]], c2 as [i2 [v2]]. unfold KeyVersion_wf. simpl. intros H1 H2.
  unfold KeyWrapContext_canonical_bytes.
  intros (s1 & Hs1 & ->)%map_err_Ok%serde_to_vec_Ok (s2 & Hs2 & Heq)%map_err_Ok%serde_to_vec_Ok.
  apply as_bytes_inj in Heq as <-.
  assert (∀ i v, nonzero_u32 v → json_exact json_max_depth (JObject
    (CanonicalKeyWrapAad v (SecretId_as_canonical_string i))) = true) as Hex.
  { intros i v Hv. apply json_exact_object. split; [by decide_keys|].
    unfold nonzero_u32, u32_max in Hv. repeat constructor. cbn.
    apply andb_true_iff; split; apply Z.leb_le; unfold u64_max; lia. }
  pose proof (serde_struct_inj _ _ s1 (Hex i1 v1 H1) (Hex i2 v2 H2) eq_refl Hs1 Hs2) as Heq.
  simpl in Heq. injection Heq as -> ->%SecretId_canonical_inj. done.
Qed.
End crypto_lemmas.

(** ** Properties *)

(** A key ring is built from a list of entries exactly when no version occurs
    twice and the active one is among them; it then holds those entries and
    nothing else, and asking for the active key does not panic. *)
Theorem keyring_from_entries active entries :
  (∀ ring, MasterKeyRing_from_key_entries active entries = Ok ring ↔
    NoDup entries.*1 ∧ active ∈ entries.*1 ∧ ring = mk_MasterKeyRing active (list_to_map entries))
  ∧ (∀ ring, MasterKeyRing_from_key_entries active entries = Ok ring →
      (∃ mk, MasterKeyRing_active ring = Some (active, mk))
      ∧ ∀ v mk, MasterKeyRing_get ring v = Ok mk ↔ (v, mk) ∈ entries).
Proof.
  assert (∀ ring, MasterKeyRing_from_key_entries active entries = Ok ring ↔
    NoDup entries.*1 ∧ active ∈ entries.*1 ∧ ring = mk_MasterKeyRing active (list_to_map entries)) as Hiff.
  { intros ring. unfold MasterKeyRing_from_key_entries. rewrite result_bind_Ok.
    setoid_rewrite insert_entries_Ok. setoid_rewrite MasterKeyRing_new_Ok. split.
    - intros (keys & (Hnd & _ & ->) & -> & [k Hk]). rewrite right_id_L in Hk |- *.
      apply elem_of_list_to_map_2 in Hk. split_and!; [done| |done].
      by apply (list_elem_of_fmap_2 fst) in Hk.
    - intros (Hnd & ([v k] & -> & Hk)%list_elem_of_fmap & ->). eexists. split; [by split_and!|].
      rewrite right_id_L. split; [done|]. exists k. by apply elem_of_list_to_map_1. }
  split; [done|]. intros ring (Hnd & ([v k] & -> & Hk)%list_elem_of_fmap & ->)%Hiff.
  unfold MasterKeyRing_active, MasterKeyRing_get. simpl. split.
  - exists k. by rewrite (elem_of_list_to_map_1 entries v k).
  - intros v' mk. rewrite ok_or_Ok. by rewrite elem_of_list_to_map.
Qed.

Section crypto_theorems.
Context {P : Platform}.

(** What an envelope and a ciphertext are, without the random choice of the
    nonce: the encryption of the data key under the context, of the plaintext
    under the associated data. *)
Definition wraps_to (mk : MasterKey) (ctx : KeyWrapContext) (dk : DataKey) (edk : EncryptedDataKey) : Prop :=
  ∃ c a, cipher_from_master_key mk = Ok c ∧ KeyWrapContext_canonical_bytes ctx = Ok a
    ∧ cipher_encrypt c (EncryptedDataKey_nonce_bytes edk) a (DataKey_as_bytes dk)
      = Some (EncryptedDataKey_ciphertext_bytes edk).
Definition encrypts_to (dk : DataKey) (aad : AadV1) (n : Nonce) (pt : Plaintext) (ct : Ciphertext) : Prop :=
  ∃ c a, cipher_from_data_key dk = Ok c ∧ AadV1_canonical_bytes aad = Ok a
    ∧ cipher_encrypt c (Nonce_as_bytes n) a (Plaintext_as_bytes pt) = Some (Ciphertext_as_bytes ct).

(** A wrapped data key is an envelope of 73 bytes and version one that holds
    the encryption of the data key, and unwrapping it under the same master key
    and context gives the data key back. *)
Theorem key_wrap_round_trip {LR : RandomLaws P} {LA : AeadLaws P} mk ctx dk w edk w' :
  DataKey_wf dk → wrap_data_key mk ctx dk w = (Ok edk, w') →
  length (EncryptedDataKey_as_bytes edk) = 73%nat
  ∧ EncryptedDataKey_version edk = Some ENCRYPTED_DATA_KEY_VERSION
  ∧ wraps_to mk ctx dk edk
  ∧ unwrap_data_key mk ctx edk = Ok dk.
Proof.
  intros Hdk H. pose proof (unwrap_wrap_data_key _ _ _ _ _ _ Hdk H) as [Hun Hwf].
  apply wrap_data_key_Ok in H as (n & aad & cipher & ct & Hn & Haad & Hcipher & Hct & -> & _).
  split_and!; [apply Hwf|done| |done]. exists cipher, aad.
  by rewrite envelope_nonce // envelope_ciphertext.
Qed.

(** Unwrapping accepts exactly what wrapping makes: an envelope unwraps to a
    data key under a master key and context if and only if it is the encryption
    of that data key under them; and contexts for different secrets or key
    versions authenticate different bytes. *)
Theorem key_unwrap_authentic {LA : AeadLaws P} {LU : UuidLaws P} {LS : SerdeLaws P} :
  (∀ mk ctx edk dk, unwrap_data_key mk ctx edk = Ok dk ↔ DataKey_wf dk ∧ wraps_to mk ctx dk edk)
  ∧ (∀ ctx1 ctx2, KeyVersion_wf (kw_key_version ctx1) → KeyVersion_wf (kw_key_version ctx2) →
      KeyWrapContext_canonical_bytes ctx1 = KeyWrapContext_canonical_bytes ctx2 →
      is_ok (KeyWrapContext_canonical_bytes ctx1) = true → ctx1 = ctx2).
Proof.
  split.
  - intros mk ctx edk dk. split.
    + intros H. split; [by eapply unwrap_data_key_wf|]. unfold unwrap_data_key in H. inv_ok. case_if; inv_ok.
      select (DataKey_parse _ = _) (fun H => apply parse_array_Ok in H as [_ ->]).
      do 2 eexists. split_and!; [done..|]. by apply cipher_encrypt_decrypt.
    + intros [Hdk (c & a & Hc & Ha & He)]. unfold unwrap_data_key. rewrite Ha /= Hc /=.
      apply cipher_decrypt_encrypt in He. rewrite He /=. unfold DataKey_wf in Hdk.
      rewrite Hdk Nat.eqb_refl /=. apply map_err_Ok, parse_array_Ok. by destruct dk.
  - intros ctx1 ctx2 H1 H2 Heq [x Hx]%is_ok_inv.
    eapply KeyWrapContext_canonical_inj; [done|done|exact Hx|congruence].
Qed.

(** Decryption of a secret accepts exactly what encryption makes: a fresh
    ciphertext decrypts to its plaintext, and a ciphertext and nonce decrypt to
    a plaintext under a data key and associated data if and only if they are the
    encryption of that plaintext under them. *)
Theorem secret_decryption_authentic {LR : RandomLaws P} {LA : AeadLaws P} dk aad :
  (∀ pt w ep w', encrypt_secret dk aad pt w = (Ok ep, w') →
     encrypts_to dk aad (ep_nonce ep) pt (ep_ciphertext ep)
     ∧ AadV1_to_stored_context aad = Ok (ep_aad_context ep))
  ∧ (∀ n ct pt, decrypt_secret dk aad n ct = Ok pt ↔ encrypts_to dk aad n pt ct).
Proof.
  split.
  - intros pt w ep w' (x & c & Hx & Hc & He & Hctx & _)%encrypt_secret_Ok.
    split; [|done]. by exists c, x.
  - intros n ct pt. unfold decrypt_secret, encrypts_to. split.
    + intros H. inv_ok. do 2 eexists. split_and!; [done..|]. by apply cipher_encrypt_decrypt.
    + intros (c & a & Hc & Ha & He%cipher_decrypt_encrypt). rewrite Ha /= Hc /= He /=. by destruct pt.
Qed.
End crypto_theorems.

Section crypto_witnesses.
#[local] Existing Instance reference.

Definition sample_master_key : MasterKey := mk_MasterKey (replicate 32 x11).
Definition sample_data_key : DataKey := mk_DataKey (replicate 32 x33).
Definition sample_wrap_context : KeyWrapContext :=
  mk_KeyWrapContext (mk_SecretId (ref_from_random_bytes [x01; x02; x03])) (mk_KeyVersion 1).

Lemma key_wrap_round_trip_witness :
  ∃ edk, unwrap_data_key sample_master_key sample_wrap_context edk = Ok sample_data_key
    ∧ length (EncryptedDataKey_as_bytes edk) = 73%nat.
Proof.
  destruct (is_ok_io_inv (wrap_data_key sample_master_key sample_wrap_context sample_data_key sample_world))
    as (edk & w & E); [vm_compute; reflexivity|].
  destruct (key_wrap_round_trip sample_master_key sample_wrap_context sample_data_key sample_world edk w eq_refl E)
    as (H1 & _ & _ & H2). exists edk. exact (conj H2 H1).
Defined.

Lemma key_unwrap_authentic_witness :
  unwrap_data_key sample_master_key sample_wrap_context (mk_EncryptedDataKey []) ≠ Ok sample_data_key.
Proof.
  intros H. apply (proj1 key_unwrap_authentic) in H as [_ (c & a & Hc & _ & He)].
  apply cipher_encrypt_length in He. discriminate He.
Defined.

Lemma secret_decryption_authentic_witness :
  ∃ ep, decrypt_secret sample_data_key sample_aad (ep_nonce ep) (ep_ciphertext ep)
    = Ok (mk_Plaintext [x68; x69]).
Proof.
  destruct (is_ok_io_inv (encrypt_secret sample_data_key sample_aad (mk_Plaintext [x68; x69]) sample_world))
    as (ep & w & E); [vm_compute; reflexivity|].
  exists ep. destruct (secret_decryption_authentic sample_data_key sample_aad) as [H1 H2].
  apply H2. exact (proj1 (H1 _ _ _ _ E)).
Defined.

Lemma keyring_from_entries_witness :
  ∃ ring, MasterKeyRing_from_key_entries (mk_KeyVersion 2)
      [(mk_KeyVersion 1, sample_master_key); (mk_KeyVersion 2, sample_master_key)] = Ok ring
    ∧ MasterKeyRing_get ring (mk_KeyVersion 1) = Ok sample_master_key.
Proof.
  destruct (is_ok_inv (MasterKeyRing_from_key_entries (mk_KeyVersion 2)
      [(mk_KeyVersion 1, sample_master_key); (mk_KeyVersion 2, sample_master_key)])) as [ring E];
    [vm_compute; reflexivity|].
  exists ring. split; [exact E|]. apply (proj2 (keyring_from_entries _ _) ring E). by left.
Defined.
End crypto_witnesses.
