(* ===== verification/Authorization.v ===== *)
(** * Verified claims and authorization ([src/auth/jwt.rs], [src/authorization.rs]) *)

From S2P Require Import Prelude RustStd Json Platform Reference Errors Types.

Section authorization.
Context {P : Platform}.

Record RawJwt := mk_RawJwt { RawJwt_as_str : str }.
Definition RawJwt_new (value : str) : result JwtVerificationError RawJwt :=
  if is_empty (trim value) then Err JwtVerificationError_EmptyToken else Ok (mk_RawJwt value).

Record VerifiedJwtClaims := mk_VerifiedJwtClaims {
  claims_subject_user_id : OwnerUserId;
  claims_issuer : str;
  claims_audience : str;
  claims_expires_at : Z;
  claims_mipsorcu_roles : list str;
}.

Definition claims_for_restore_test_only (owner_user_id : OwnerUserId) : VerifiedJwtClaims :=
  mk_VerifiedJwtClaims owner_user_id EmptyString EmptyString 0 [].

Definition has_mipsorcu_role (claims : VerifiedJwtClaims) (role : str) : bool :=
  existsb (λ candidate, String.eqb candidate role) (claims_mipsorcu_roles claims).

Definition AUDITOR_ROLE : str := "auditor".

Definition authorize_new_secret_create (claims : VerifiedJwtClaims)
    : result AuthorizationError unit := Ok tt.

Definition authorize_current_version_decrypt (claims : VerifiedJwtClaims)
    (owner_user_id : OwnerUserId) (requested_version current_version : SecretVersion)
    : result AuthorizationError unit :=
  if negb (bool_decide (claims_subject_user_id claims = owner_user_id))
  then Err AuthorizationError_OwnerMismatch else
  if negb (bool_decide (requested_version = current_version))
  then Err AuthorizationError_NotCurrentVersion else Ok tt.

Definition authorize_existing_secret_version_write (claims : VerifiedJwtClaims)
    (owner_user_id : OwnerUserId) : result AuthorizationError unit :=
  if negb (bool_decide (claims_subject_user_id claims = owner_user_id))
  then Err AuthorizationError_OwnerMismatch else Ok tt.

Definition authorize_audit_ui_read (claims : VerifiedJwtClaims) : result AuthorizationError unit :=
  if negb (has_mipsorcu_role claims AUDITOR_ROLE)
  then Err AuthorizationError_MissingAuditorRole else Ok tt.

Lemma authorize_decrypt_Ok claims owner v cur :
  authorize_current_version_decrypt claims owner v cur = Ok tt ↔
  claims_subject_user_id claims = owner ∧ v = cur.
Proof.
  unfold authorize_current_version_decrypt. repeat case_bool_decide; simpl; naive_solver.
Qed.

Lemma has_mipsorcu_role_true claims role :
  has_mipsorcu_role claims role = true ↔ role ∈ claims_mipsorcu_roles claims.
Proof.
  unfold has_mipsorcu_role. rewrite existsb_exists. setoid_rewrite String.eqb_eq.
  rewrite list_elem_of_In. naive_solver.
Qed.
End authorization.
