(* ===== verification/SecretStore.v ===== *)
(** * Writing and reading secret versions ([src/write/], [src/read.rs]) *)

From S2P Require Import Prelude RustStd Json Platform Reference Errors Types Aad Crypto Authorization.

Section write.
Context {P : Platform}.

(** ** Inputs ([src/write/input.rs]) *)

Record NewSecretVersionInput := mk_NewSecretVersionInput {
  new_owner_user_id : OwnerUserId;
  new_classification : Classification;
  new_created_by_device_id : DeviceId;
  new_created_at : CreatedAt;
  new_key_version : KeyVersion;
  new_plaintext : Plaintext;
}.

Record CurrentSecretVersionState := mk_CurrentSecretVersionState {
  cur_secret_id : SecretId;
  cur_current_version : SecretVersion;
  cur_owner_user_id : OwnerUserId;
  cur_classification : Classification;
  cur_key_version : KeyVersion;
  cur_encrypted_data_key : EncryptedDataKey;
}.

Record ExistingSecretVersionInput := mk_ExistingSecretVersionInput {
  ex_current : CurrentSecretVersionState;
  ex_created_by_device_id : DeviceId;
  ex_created_at : CreatedAt;
  ex_plaintext : Plaintext;
}.

(** ** Preparation ([src/write/prepare.rs]) *)

Inductive SecretWriteAction := EncryptCreate | EncryptRotate.
#[global] Instance SecretWriteAction_eq_dec : EqDecision SecretWriteAction.
Proof. solve_decision. Defined.

Definition SecretWriteAction_as_str (a : SecretWriteAction) : str :=
  match a with EncryptCreate => "encrypt_create" | EncryptRotate => "encrypt_rotate" end.

Record PreparedSecretVersion := mk_PreparedSecretVersion {
  prep_write_action : SecretWriteAction;
  prep_secret_id : SecretId;
  prep_secret_version_id : SecretVersionId;
  prep_version : SecretVersion;
  prep_owner_user_id : OwnerUserId;
  prep_classification : Classification;
  prep_created_by_device_id : DeviceId;
  prep_created_at : CreatedAt;
  prep_key_version : KeyVersion;
  prep_ciphertext : Ciphertext;
  prep_encrypted_data_key : EncryptedDataKey;
  prep_nonce_or_iv : Nonce;
  prep_aad_context : Value;
}.

Definition prep_algorithm (_ : PreparedSecretVersion) : str := ALGORITHM_XCHACHA20_POLY1305.

Record SecretVersionMetadata := mk_SecretVersionMetadata {
  meta_secret_id : SecretId;
  meta_version : SecretVersion;
  meta_owner_user_id : OwnerUserId;
  meta_classification : Classification;
  meta_created_by_device_id : DeviceId;
  meta_created_at : CreatedAt;
  meta_key_version : KeyVersion;
  meta_encrypted_data_key : EncryptedDataKey;
}.

Definition prepare_secret_version_with_data_key (write_action : SecretWriteAction)
    (metadata : SecretVersionMetadata) (data_key : DataKey) (plaintext : Plaintext)
    : io World SecretWriteError PreparedSecretVersion :=
  secret_version_id ← SecretVersionId_generate !?? SecretWriteError_Crypto;
  let aad := AadV1_from_row_metadata (meta_secret_id metadata) (meta_version metadata)
    (meta_owner_user_id metadata) (meta_classification metadata) (meta_created_at metadata) in
  encrypted_payload ← encrypt_secret data_key aad plaintext !?? SecretWriteError_Crypto;
  mret {|
    prep_write_action := write_action;
    prep_secret_id := meta_secret_id metadata;
    prep_secret_version_id := secret_version_id;
    prep_version := meta_version metadata;
    prep_owner_user_id := meta_owner_user_id metadata;
    prep_classification := meta_classification metadata;
    prep_created_by_device_id := meta_created_by_device_id metadata;
    prep_created_at := meta_created_at metadata;
    prep_key_version := meta_key_version metadata;
    prep_ciphertext := ep_ciphertext encrypted_payload;
    prep_encrypted_data_key := meta_encrypted_data_key metadata;
    prep_nonce_or_iv := ep_nonce encrypted_payload;
    prep_aad_context := ep_aad_context encrypted_payload;
  |}.

Definition prepare_new_secret_version_parts (master_key : MasterKey) (key_version : KeyVersion)
    (input : NewSecretVersionInput) : io World SecretWriteError PreparedSecretVersion :=
  secret_id ← SecretId_generate !?? SecretWriteError_Crypto;
  let version := SecretVersion_first in
  data_key ← DataKey_generate !?? SecretWriteError_Crypto;
  let key_wrap_context := KeyWrapContext_new secret_id key_version in
  encrypted_data_key ← wrap_data_key master_key key_wrap_context data_key !?? SecretWriteError_Crypto;
  prepare_secret_version_with_data_key EncryptCreate
    (mk_SecretVersionMetadata secret_id version (new_owner_user_id input) (new_classification input)
      (new_created_by_device_id input) (new_created_at input) key_version encrypted_data_key)
    data_key (new_plaintext input).

Definition prepare_new_secret_version (master_key : MasterKey) (input : NewSecretVersionInput)
    : io World SecretWriteError PreparedSecretVersion :=
  prepare_new_secret_version_parts master_key (new_key_version input) input.

(** [MasterKeyRing::active] panics on a ring without its active key. *)
Definition prepare_new_secret_version_with_keyring (ring : MasterKeyRing)
    (input : NewSecretVersionInput) : pio World SecretWriteError PreparedSecretVersion :=
  '(key_version, master_key) ← or_panic (MasterKeyRing_active ring);
  run (prepare_new_secret_version_parts master_key key_version input).

Definition prepare_existing_secret_version (master_key : MasterKey)
    (input : ExistingSecretVersionInput) : io World SecretWriteError PreparedSecretVersion :=
  let current := ex_current input in
  version ← lift (SecretVersion_next (cur_current_version current) !? SecretWriteError_Input);
  let key_wrap_context := KeyWrapContext_new (cur_secret_id current) (cur_key_version current) in
  data_key ← lift (unwrap_data_key master_key key_wrap_context (cur_encrypted_data_key current)
    !? SecretWriteError_Crypto);
  prepare_secret_version_with_data_key EncryptRotate
    (mk_SecretVersionMetadata (cur_secret_id current) version (cur_owner_user_id current)
      (cur_classification current) (ex_created_by_device_id input) (ex_created_at input)
      (cur_key_version current) (cur_encrypted_data_key current))
    data_key (ex_plaintext input).

(** The data key of the current version is unwrapped with the key it was
    wrapped with and wrapped again with the active key. *)
Definition prepare_existing_secret_version_with_keyring (ring : MasterKeyRing)
    (input : ExistingSecretVersionInput) : pio World SecretWriteError PreparedSecretVersion :=
  let current := ex_current input in
  version ← run (lift (SecretVersion_next (cur_current_version current) !? SecretWriteError_Input));
  current_master_key ← run (lift (MasterKeyRing_get ring (cur_key_version current)
    !? SecretWriteError_Keyring));
  let current_key_wrap_context :=
    KeyWrapContext_new (cur_secret_id current) (cur_key_version current) in
  data_key ← run (lift (unwrap_data_key current_master_key current_key_wrap_context
    (cur_encrypted_data_key current) !? SecretWriteError_Crypto));
  '(active_key_version, active_master_key) ← or_panic (MasterKeyRing_active ring);
  let active_key_wrap_context := KeyWrapContext_new (cur_secret_id current) active_key_version in
  rewrapped_data_key ← run (wrap_data_key active_master_key active_key_wrap_context data_key
    !?? SecretWriteError_Crypto);
  run (prepare_secret_version_with_data_key EncryptRotate
    (mk_SecretVersionMetadata (cur_secret_id current) version (cur_owner_user_id current)
      (cur_classification current) (ex_created_by_device_id input) (ex_created_at input)
      active_key_version rewrapped_data_key)
    data_key (ex_plaintext input)).

(** ** Decryption ([src/read.rs]) *)

Record DecryptCurrentSecretVersionInput := mk_DecryptCurrentSecretVersionInput {
  dec_claims : VerifiedJwtClaims;
  dec_secret_id : SecretId;
  dec_version : SecretVersion;
  dec_current_version : SecretVersion;
  dec_owner_user_id : OwnerUserId;
  dec_classification : Classification;
  dec_created_at : CreatedAt;
  dec_key_version : KeyVersion;
  dec_encrypted_data_key : EncryptedDataKey;
  dec_nonce_or_iv : Nonce;
  dec_ciphertext : Ciphertext;
  dec_aad_context : Value;
}.

Definition row_aad_from_input (input : DecryptCurrentSecretVersionInput) : AadV1 :=
  AadV1_from_row_metadata (dec_secret_id input) (dec_version input) (dec_owner_user_id input)
    (dec_classification input) (dec_created_at input).

Definition verify_stored_aad_matches_row (stored_context : Value) (row_aad : AadV1)
    : result SecretDecryptError unit :=
  stored_aad ← AadV1_from_stored_context stored_context !? SecretDecryptError_Aad;
  stored_bytes ← AadV1_canonical_bytes stored_aad !? SecretDecryptError_Aad;
  row_bytes ← AadV1_canonical_bytes row_aad !? SecretDecryptError_Aad;
  if bool_decide (stored_bytes = row_bytes) then Ok tt
  else Err (SecretDecryptError_Integrity DecryptIntegrityError_AadContextMismatch).

Definition validate_decrypt_input (input : DecryptCurrentSecretVersionInput)
    : result SecretDecryptError AadV1 :=
  _ ← authorize_current_version_decrypt (dec_claims input) (dec_owner_user_id input)
        (dec_version input) (dec_current_version input) !? SecretDecryptError_Authorization;
  let row_aad := row_aad_from_input input in
  _ ← verify_stored_aad_matches_row (dec_aad_context input) row_aad;
  Ok row_aad.

Definition decrypt_current_secret_version_with_selected_master_key (master_key : MasterKey)
    (row_aad : AadV1) (input : DecryptCurrentSecretVersionInput)
    : result SecretDecryptError Plaintext :=
  let key_wrap_context := KeyWrapContext_new (dec_secret_id input) (dec_key_version input) in
  data_key ← unwrap_data_key master_key key_wrap_context (dec_encrypted_data_key input)
    !? SecretDecryptError_Crypto;
  decrypt_secret data_key row_aad (dec_nonce_or_iv input) (dec_ciphertext input)
    !? SecretDecryptError_Crypto.

Definition decrypt_current_secret_version (master_key : MasterKey)
    (input : DecryptCurrentSecretVersionInput) : result SecretDecryptError Plaintext :=
  row_aad ← validate_decrypt_input input;
  decrypt_current_secret_version_with_selected_master_key master_key row_aad input.

Definition decrypt_current_secret_version_with_keyring (ring : MasterKeyRing)
    (input : DecryptCurrentSecretVersionInput) : result SecretDecryptError Plaintext :=
  row_aad ← validate_decrypt_input input;
  master_key ← MasterKeyRing_get ring (dec_key_version input) !? SecretDecryptError_Keyring;
  decrypt_current_secret_version_with_selected_master_key master_key row_aad input.
End write.

(** ** Lemmas *)

Section store_lemmas.
Context {P : Platform}.

(** The row a prepared version becomes, as its reader presents it when the
    version is the current one. *)
Definition row_of_prepared (p : PreparedSecretVersion) (claims : VerifiedJwtClaims)
    : DecryptCurrentSecretVersionInput := {|
  dec_claims := claims;
  dec_secret_id := prep_secret_id p;
  dec_version := prep_version p;
  dec_current_version := prep_version p;
  dec_owner_user_id := prep_owner_user_id p;
  dec_classification := prep_classification p;
  dec_created_at := prep_created_at p;
  dec_key_version := prep_key_version p;
  dec_encrypted_data_key := prep_encrypted_data_key p;
  dec_nonce_or_iv := prep_nonce_or_iv p;
  dec_ciphertext := prep_ciphertext p;
  dec_aad_context := prep_aad_context p;
|}.

Definition row_wf (input : DecryptCurrentSecretVersionInput) : Prop :=
  AadV1_wf (row_aad_from_input input).

Definition meta_aad (m : SecretVersionMetadata) : AadV1 :=
  AadV1_from_row_metadata (meta_secret_id m) (meta_version m) (meta_owner_user_id m)
    (meta_classification m) (meta_created_at m).

Lemma meta_aad_wf m :
  SecretId_wf (meta_secret_id m) → SecretVersion_wf (meta_version m) →
  Classification_wf (meta_classification m) → CreatedAt_wf (meta_created_at m) →
  AadV1_wf (meta_aad m).
Proof. intros H1 H2 H3 H4. exact (conj H1 (conj H2 (conj H3 H4))). Qed.

(** A stored context passes the check exactly when it reads as the row's own
    associated data. *)
Lemma verify_stored_aad_Ok {LU : UuidLaws P} {LT : TimeLaws P} {LS : SerdeLaws P} ctx row x :
  AadV1_wf row → AadV1_canonical_bytes row = Ok x →
  verify_stored_aad_matches_row ctx row = Ok tt ↔ AadV1_from_stored_context ctx = Ok row.
Proof.
  intros Hrow Hx. unfold verify_stored_aad_matches_row. split.
  - intros H. inv_ok. case_bool_decide; [subst|done].
    select (AadV1_from_stored_context _ = _) (fun H => pose proof (AadV1_from_stored_wf _ _ H); rewrite H).
    f_equal. by eapply AadV1_canonical_inj.
  - intros ->. by rewrite /= Hx /= bool_decide_eq_true_2.
Qed.

Lemma verify_stored_aad_sound {LU : UuidLaws P} {LT : TimeLaws P} {LS : SerdeLaws P} ctx row :
  AadV1_wf row → verify_stored_aad_matches_row ctx row = Ok tt →
  AadV1_from_stored_context ctx = Ok row.
Proof.
  intros Hrow H. destruct (AadV1_canonical_bytes row) as [x|] eqn:Hx.
  - by eapply verify_stored_aad_Ok.
  - unfold verify_stored_aad_matches_row in H. rewrite Hx in H. inv_ok.
Qed.

(** What preparing a version fixes about it. *)
Lemma prepare_with_data_key_Ok {LR : RandomLaws P} action m dk pt w p w' :
  prepare_secret_version_with_data_key action m dk pt w = (Ok p, w') →
  ∃ w0 ep, encrypt_secret dk (meta_aad m) pt w0 = (Ok ep, w')
    ∧ row_aad_from_input (row_of_prepared p (claims_for_restore_test_only (meta_owner_user_id m))) = meta_aad m
    ∧ prep_write_action p = action ∧ prep_secret_id p = meta_secret_id m
    ∧ prep_version p = meta_version m ∧ prep_owner_user_id p = meta_owner_user_id m
    ∧ prep_classification p = meta_classification m ∧ prep_created_at p = meta_created_at m
    ∧ prep_key_version p = meta_key_version m
    ∧ prep_encrypted_data_key p = meta_encrypted_data_key m
    ∧ prep_ciphertext p = ep_ciphertext ep ∧ prep_nonce_or_iv p = ep_nonce ep
    ∧ prep_aad_context p = ep_aad_context ep.
Proof.
  unfold prepare_secret_version_with_data_key. intros H. inv_ok. do 2 eexists.
  split; [done|]. done.
Qed.

Lemma prepared_validates {LU : UuidLaws P} {LT : TimeLaws P} {LR : RandomLaws P}
    action m dk pt w p w' claims :
  prepare_secret_version_with_data_key action m dk pt w = (Ok p, w') →
  AadV1_wf (meta_aad m) → claims_subject_user_id claims = meta_owner_user_id m →
  validate_decrypt_input (row_of_prepared p claims) = Ok (meta_aad m).
Proof.
  intros (w0 & ep & Hep & _ & _ & Hsi & Hv & Ho & Hc & Hca & _ & _ & _ & _ & Hctx)%prepare_with_data_key_Ok
    Hwf Hsub.
  apply encrypt_secret_Ok in Hep as (x & cipher & Hx & _ & _ & Hst & _).
  unfold validate_decrypt_input.
  assert (row_aad_from_input (row_of_prepared p claims) = meta_aad m) as ->.
  { unfold row_aad_from_input, meta_aad. simpl. by rewrite Hsi Hv Ho Hc Hca. }
  simpl. rewrite Ho Hctx.
  rewrite (proj2 (authorize_decrypt_Ok claims (meta_owner_user_id m) (prep_version p) (prep_version p))) //=.
  unfold verify_stored_aad_matches_row.
  by rewrite (AadV1_from_to_stored (meta_aad m)) //= Hx /= bool_decide_eq_true_2.
Qed.

Lemma prepared_decrypts {LU : UuidLaws P} {LT : TimeLaws P} {LR : RandomLaws P} {LA : AeadLaws P}
    action m dk pt w p w' claims mk :
  prepare_secret_version_with_data_key action m dk pt w = (Ok p, w') →
  unwrap_data_key mk (KeyWrapContext_new (meta_secret_id m) (meta_key_version m))
    (meta_encrypted_data_key m) = Ok dk →
  decrypt_current_secret_version_with_selected_master_key mk (meta_aad m) (row_of_prepared p claims)
    = Ok pt.
Proof.
  intros (w0 & ep & Hep & _ & _ & Hsi & _ & _ & _ & _ & Hkv & Hedk & Hct & Hn & _)%prepare_with_data_key_Ok Hun.
  unfold decrypt_current_secret_version_with_selected_master_key. simpl.
  rewrite Hsi Hkv Hedk Hun /= Hct Hn.
  apply map_err_Ok. by eapply decrypt_encrypt_secret.
Qed.

Lemma SecretVersion_next_Ok v v' :
  SecretVersion_wf v →
  SecretVersion_next v = Ok v' ↔
  SecretVersion_get v' = SecretVersion_get v + 1 ∧ SecretVersion_get v < u32_max.
Proof.
  destruct v as [z], v' as [z']. unfold SecretVersion_wf, SecretVersion_next, nonzero_u32. simpl.
  intros Hz. rewrite result_bind_Ok. setoid_rewrite ok_or_Ok. setoid_rewrite result_fmap_Ok.
  unfold NonZeroU32_new. setoid_rewrite u_checked_add_Some. split.
  - intros (n & [-> ?] & a & Ha & [= ->]). case_if; simplify_eq/=. lia.
  - intros [-> ?]. eexists; split; [split; [done|lia]|]. exists (z + 1).
    rewrite (proj2 (Z.eqb_neq (z + 1) 0)) //. lia.
Qed.

Lemma SecretVersion_first_wf : SecretVersion_wf SecretVersion_first.
Proof. unfold SecretVersion_wf, nonzero_u32. simpl. unfold u32_max. lia. Qed.

Definition new_input_wf (input : NewSecretVersionInput) : Prop :=
  Classification_wf (new_classification input) ∧ CreatedAt_wf (new_created_at input).
Definition existing_input_wf (input : ExistingSecretVersionInput) : Prop :=
  SecretId_wf (cur_secret_id (ex_current input))
  ∧ SecretVersion_wf (cur_current_version (ex_current input))
  ∧ Classification_wf (cur_classification (ex_current input)) ∧ CreatedAt_wf (ex_created_at input).
Lemma created_version_decrypts {LU : UuidLaws P} {LT : TimeLaws P} {LR : RandomLaws P} {LA : AeadLaws P}
    ring input w p w' claims :
  MasterKeyRing_wf ring → new_input_wf input →
  claims_subject_user_id claims = new_owner_user_id input →
  prepare_new_secret_version_with_keyring ring input w = Some (Ok p, w') →
  decrypt_current_secret_version_with_keyring ring (row_of_prepared p claims) = Ok (new_plaintext input)
  ∧ prep_version p = SecretVersion_first
  ∧ prep_key_version p = ring_active_key_version ring
  ∧ prep_owner_user_id p = new_owner_user_id input.
Proof.
  intros Hring [Hcl Hca] Hsub H.
  destruct (MasterKeyRing_active_wf ring) as (mk & Hact & Hget & Hmk); [done|].
  unfold prepare_new_secret_version_with_keyring in H. rewrite Hact in H. inv_ok.
  unfold prepare_new_secret_version_parts in *. inv_ok.
  select (SecretId_generate _ = _) (fun H => apply SecretId_generate_wf in H).
  select (DataKey_generate _ = _) (fun H => apply DataKey_generate_wf in H).
  select (wrap_data_key _ _ _ _ = _) (fun H => apply unwrap_wrap_data_key in H as [? ?]; [|done]).
  select (prepare_secret_version_with_data_key _ _ _ _ _ = _) (fun H => rename H into Hprep).
  pose proof (prepare_with_data_key_Ok _ _ _ _ _ _ _ Hprep) as
    (_ & _ & _ & _ & _ & _ & Hv & Ho & _ & _ & Hkv & _).
  split; [|done]. unfold decrypt_current_secret_version_with_keyring.
  rewrite (prepared_validates _ _ _ _ _ _ _ claims Hprep _ Hsub);
    [|by apply meta_aad_wf; auto using SecretVersion_first_wf]. simpl.
  rewrite Hkv Hget /=. by eapply prepared_decrypts.
Qed.

Lemma rotated_version_decrypts {LU : UuidLaws P} {LT : TimeLaws P} {LR : RandomLaws P} {LA : AeadLaws P}
    ring input w p w' claims :
  MasterKeyRing_wf ring → existing_input_wf input →
  claims_subject_user_id claims = cur_owner_user_id (ex_current input) →
  prepare_existing_secret_version_with_keyring ring input w = Some (Ok p, w') →
  decrypt_current_secret_version_with_keyring ring (row_of_prepared p claims) = Ok (ex_plaintext input)
  ∧ SecretVersion_get (prep_version p)
    = SecretVersion_get (cur_current_version (ex_current input)) + 1
  ∧ prep_key_version p = ring_active_key_version ring
  ∧ prep_secret_id p = cur_secret_id (ex_current input)
  ∧ ∃ old_mk new_mk dk,
      MasterKeyRing_get ring (cur_key_version (ex_current input)) = Ok old_mk
      ∧ MasterKeyRing_get ring (prep_key_version p) = Ok new_mk
      ∧ unwrap_data_key old_mk (KeyWrapContext_new (prep_secret_id p) (cur_key_version (ex_current input)))
          (cur_encrypted_data_key (ex_current input)) = Ok dk
      ∧ unwrap_data_key new_mk (KeyWrapContext_new (prep_secret_id p) (prep_key_version p))
          (prep_encrypted_data_key p) = Ok dk.
Proof.
  intros Hring (Hsi & Hv & Hcl & Hca) Hsub H.
  destruct (MasterKeyRing_active_wf ring) as (mk & Hact & Hget & Hmk); [done|].
  unfold prepare_existing_secret_version_with_keyring in H. rewrite Hact in H. inv_ok.
  select (SecretVersion_next _ = _) (fun H => apply SecretVersion_next_Ok in H as [Hnext ?]; [|done]).
  select (unwrap_data_key _ _ _ = _) (fun H => rename H into Hun; pose proof (unwrap_data_key_wf _ _ _ _ Hun)).
  select (wrap_data_key _ _ _ _ = _) (fun H => apply unwrap_wrap_data_key in H as [? ?]; [|done]).
  select (prepare_secret_version_with_data_key _ _ _ _ _ = _) (fun H => rename H into Hprep).
  pose proof (prepare_with_data_key_Ok _ _ _ _ _ _ _ Hprep) as
    (_ & _ & _ & _ & _ & Hpsi & Hpv & Ho & _ & _ & Hkv & Hedk & _).
  simpl in *. rewrite Hpv Hkv Hpsi Hedk. split; [|naive_solver].
  unfold decrypt_current_secret_version_with_keyring.
  rewrite (prepared_validates _ _ _ _ _ _ _ claims Hprep _ Hsub);
    [|apply meta_aad_wf; try done; unfold SecretVersion_wf, nonzero_u32 in *; simpl; lia].
  simpl. rewrite Hkv Hget /=. by eapply prepared_decrypts.
Qed.
End store_lemmas.

(** ** Properties *)

Section store_theorems.
Context {P : Platform}.

(** A secret created with a well-formed key ring is decrypted by the same
    ring to the plaintext it was created with, for the owner who created it:
    the data key unwraps from the stored envelope, the stored context passes
    the row check and the ciphertext authenticates. *)
Theorem create_then_decrypt {LU : UuidLaws P} {LT : TimeLaws P} {LR : RandomLaws P} {LA : AeadLaws P}
    ring input w p w' claims :
  MasterKeyRing_wf ring → new_input_wf input →
  claims_subject_user_id claims = new_owner_user_id input →
  prepare_new_secret_version_with_keyring ring input w = Some (Ok p, w') →
  decrypt_current_secret_version_with_keyring ring (row_of_prepared p claims) = Ok (new_plaintext input)
  ∧ prep_version p = SecretVersion_first
  ∧ prep_key_version p = ring_active_key_version ring
  ∧ prep_owner_user_id p = new_owner_user_id input.
Proof. apply created_version_decrypts. Qed.

(** C2. A rotation with a key ring moves the secret one version up, re-wraps
    the same data key under the active master key, and the new version
    decrypts to the new plaintext. *)
Theorem rotate_then_decrypt {LU : UuidLaws P} {LT : TimeLaws P} {LR : RandomLaws P} {LA : AeadLaws P}
    ring input w p w' claims :
  MasterKeyRing_wf ring → existing_input_wf input →
  claims_subject_user_id claims = cur_owner_user_id (ex_current input) →
  prepare_existing_secret_version_with_keyring ring input w = Some (Ok p, w') →
  decrypt_current_secret_version_with_keyring ring (row_of_prepared p claims) = Ok (ex_plaintext input)
  ∧ SecretVersion_get (prep_version p)
    = SecretVersion_get (cur_current_version (ex_current input)) + 1
  ∧ prep_key_version p = ring_active_key_version ring
  ∧ prep_secret_id p = cur_secret_id (ex_current input)
  ∧ ∃ old_mk new_mk dk,
      MasterKeyRing_get ring (cur_key_version (ex_current input)) = Ok old_mk
      ∧ MasterKeyRing_get ring (prep_key_version p) = Ok new_mk
      ∧ unwrap_data_key old_mk (KeyWrapContext_new (prep_secret_id p) (cur_key_version (ex_current input)))
          (cur_encrypted_data_key (ex_current input)) = Ok dk
      ∧ unwrap_data_key new_mk (KeyWrapContext_new (prep_secret_id p) (prep_key_version p))
          (prep_encrypted_data_key p) = Ok dk.
Proof. apply rotated_version_decrypts. Qed.

(** With a ring whose active key is present, neither write path panics,
    whatever its input and whatever the random source does. *)
Theorem write_paths_never_panic ring new_input ex_input w :
  MasterKeyRing_wf ring →
  prepare_new_secret_version_with_keyring ring new_input w ≠ None
  ∧ prepare_existing_secret_version_with_keyring ring ex_input w ≠ None.
Proof.
  intros (mk & Hact & _ & _)%MasterKeyRing_active_wf.
  unfold prepare_new_secret_version_with_keyring, prepare_existing_secret_version_with_keyring.
  rewrite Hact. unfold mbind, pio_bind, or_panic, run, lift.
  split; [done|]. repeat case_match; simplify_eq; done.
Qed.

(** C3. Decryption is fail-closed: a plaintext is returned only to the owner,
    only for the current version, only when the stored context reads as the
    row's own associated data, and only when the cipher authenticates the
    ciphertext and the data key under exactly that data. *)
Theorem decrypt_is_fail_closed {LU : UuidLaws P} {LT : TimeLaws P} {LS : SerdeLaws P} {LA : AeadLaws P}
    ring input pt :
  row_wf input →
  decrypt_current_secret_version_with_keyring ring input = Ok pt →
  claims_subject_user_id (dec_claims input) = dec_owner_user_id input
  ∧ dec_version input = dec_current_version input
  ∧ AadV1_from_stored_context (dec_aad_context input) = Ok (row_aad_from_input input)
  ∧ ∃ mk dk x cipher,
      MasterKeyRing_get ring (dec_key_version input) = Ok mk
      ∧ unwrap_data_key mk (KeyWrapContext_new (dec_secret_id input) (dec_key_version input))
          (dec_encrypted_data_key input) = Ok dk
      ∧ AadV1_canonical_bytes (row_aad_from_input input) = Ok x
      ∧ cipher_from_data_key dk = Ok cipher
      ∧ cipher_encrypt cipher (Nonce_as_bytes (dec_nonce_or_iv input)) x (Plaintext_as_bytes pt)
        = Some (Ciphertext_as_bytes (dec_ciphertext input)).
Proof.
  intros Hrow H. unfold decrypt_current_secret_version_with_keyring, validate_decrypt_input,
    decrypt_current_secret_version_with_selected_master_key, decrypt_secret in H. inv_ok.
  select (authorize_current_version_decrypt _ _ _ _ = _) (fun H => apply authorize_decrypt_Ok in H as [? ?]).
  select (verify_stored_aad_matches_row _ _ = _) (fun H => apply verify_stored_aad_sound in H; [|done]).
  select (cipher_decrypt _ _ _ _ = _) (fun H => apply cipher_encrypt_decrypt in H).
  naive_solver.
Qed.
End store_theorems.

(** ** The properties at concrete data *)

Section store_witnesses.
#[local] Existing Instance reference.

Definition sample_ring : MasterKeyRing :=
  mk_MasterKeyRing (mk_KeyVersion 2)
    (<[mk_KeyVersion 1 := mk_MasterKey (replicate 32 x11)]>
      {[mk_KeyVersion 2 := mk_MasterKey (replicate 32 x22)]}).
Definition sample_owner : OwnerUserId := mk_OwnerUserId (ref_from_random_bytes [x0a; x0b]).
Definition sample_claims : VerifiedJwtClaims := claims_for_restore_test_only sample_owner.
Definition sample_new_input : NewSecretVersionInput :=
  mk_NewSecretVersionInput sample_owner (mk_Classification "confidential") (mk_DeviceId "sbc-1")
    (mk_CreatedAt (5%positive, true)) (mk_KeyVersion 1) (mk_Plaintext [x68; x69]).

Lemma sample_ring_wf : MasterKeyRing_wf sample_ring.
Proof.
  split; [by eexists|]. intros v k Hk. unfold sample_ring in Hk. simpl in Hk.
  apply lookup_insert_Some in Hk as [[_ <-]|[_ [_ <-]%lookup_singleton_Some]]; done.
Qed.


(** Whether a run ended with a value, by evaluation. *)
Definition succeeds {W E A} (o : option (result E A * W)) : bool :=
  match o with Some (Ok _, _) => true | _ => false end.
Lemma succeeds_inv {W E A} (o : option (result E A * W)) :
  succeeds o = true → ∃ a w, o = Some (Ok a, w).
Proof. destruct o as [[[]]|]; naive_solver. Qed.

Lemma create_then_decrypt_witness :
  ∃ p w', prepare_new_secret_version_with_keyring sample_ring sample_new_input sample_world = Some (Ok p, w')
    ∧ decrypt_current_secret_version_with_keyring sample_ring (row_of_prepared p sample_claims)
      = Ok (mk_Plaintext [x68; x69])
    ∧ prep_version p = SecretVersion_first
    ∧ prep_key_version p = mk_KeyVersion 2 ∧ prep_owner_user_id p = sample_owner.
Proof.
  destruct (succeeds_inv (prepare_new_secret_version_with_keyring sample_ring sample_new_input
    sample_world)) as (p & w' & E); [vm_compute; reflexivity|].
  exists p, w'. split; [exact E|].
  exact (create_then_decrypt sample_ring sample_new_input _ p w' sample_claims
    sample_ring_wf (conj eq_refl eq_refl) eq_refl E).
Defined.

Definition sample_secret_id : SecretId := mk_SecretId (ref_from_random_bytes [x01; x02; x03]).
Definition sample_wrapped : EncryptedDataKey :=
  match wrap_data_key (mk_MasterKey (replicate 32 x11))
    (KeyWrapContext_new sample_secret_id (mk_KeyVersion 1)) (mk_DataKey (replicate 32 x33)) sample_world with
  | (Ok e, _) => e
  | _ => mk_EncryptedDataKey []
  end.
Definition sample_existing_input : ExistingSecretVersionInput :=
  mk_ExistingSecretVersionInput
    (mk_CurrentSecretVersionState sample_secret_id (mk_SecretVersion 3) sample_owner
      (mk_Classification "confidential") (mk_KeyVersion 1) sample_wrapped)
    (mk_DeviceId "sbc-1") (mk_CreatedAt (6%positive, true)) (mk_Plaintext [x6e; x65; x77]).

Lemma sample_existing_wf : existing_input_wf sample_existing_input.
Proof. by split_and!. Qed.

Lemma rotate_then_decrypt_witness :
  ∃ p w', prepare_existing_secret_version_with_keyring sample_ring sample_existing_input sample_world
      = Some (Ok p, w')
    ∧ decrypt_current_secret_version_with_keyring sample_ring (row_of_prepared p sample_claims)
      = Ok (mk_Plaintext [x6e; x65; x77])
    ∧ SecretVersion_get (prep_version p) = 4 ∧ prep_key_version p = mk_KeyVersion 2.
Proof.
  destruct (succeeds_inv (prepare_existing_secret_version_with_keyring sample_ring
    sample_existing_input sample_world)) as (p & w' & E); [vm_compute; reflexivity|].
  exists p, w'. split; [exact E|].
  destruct (rotate_then_decrypt sample_ring sample_existing_input _ p w' sample_claims
    sample_ring_wf sample_existing_wf eq_refl E) as (H1 & H2 & H3 & _).
  exact (conj H1 (conj H2 H3)).
Defined.

Lemma write_paths_never_panic_witness :
  prepare_new_secret_version_with_keyring sample_ring sample_new_input sample_world ≠ None
  ∧ prepare_existing_secret_version_with_keyring sample_ring sample_existing_input sample_world ≠ None.
Proof. exact (write_paths_never_panic sample_ring _ _ _ sample_ring_wf). Defined.

(** The row of a fresh secret, read by its owner. *)
Definition sample_row : option DecryptCurrentSecretVersionInput :=
  match prepare_new_secret_version_with_keyring sample_ring sample_new_input sample_world with
  | Some (Ok p, _) => Some (row_of_prepared p sample_claims)
  | _ => None
  end.

Lemma decrypt_is_fail_closed_witness :
  ∃ input pt, sample_row = Some input
    ∧ decrypt_current_secret_version_with_keyring sample_ring input = Ok pt
    ∧ AadV1_from_stored_context (dec_aad_context input) = Ok (row_aad_from_input input).
Proof.
  assert (match sample_row with
    | Some input => is_ok (decrypt_current_secret_version_with_keyring sample_ring input)
        && bool_decide (row_aad_from_input input = mk_AadV1 (dec_secret_id input) SecretVersion_first
             sample_owner (mk_Classification "confidential") (mk_CreatedAt (5%positive, true)))
        && bool_decide (uuid_get_version (SecretId_0 (dec_secret_id input)) = Some VersionRandom)
    | None => false end = true) as Hok by (vm_compute; reflexivity).
  destruct sample_row as [input|]; [|done]. b2p.
  destruct (decrypt_current_secret_version_with_keyring sample_ring input) as [pt|] eqn:Hdec; [|done].
  exists input, pt. split; [done|]. split; [done|].
  assert (row_wf input) as Hwf.
  { unfold row_wf. select (row_aad_from_input input = _) (fun H => rewrite H). by split_and!. }
  exact (proj1 (proj2 (proj2 (decrypt_is_fail_closed sample_ring input pt Hwf Hdec)))).
Defined.
End store_witnesses.
