(* ===== verification/Alias.v ===== *)
(** * Encrypted secret aliases ([src/alias/])

    An alias is normalized, encrypted under associated data that names its row,
    and indexed by a keyed fingerprint of its owner and text. *)

From S2P Require Import Prelude RustStd Json Platform Reference Errors Types Aad Crypto.

(** ** Input ([src/alias/input.rs]) *)

Definition ALIAS_MAX_LENGTH : Z := 128.

Record NormalizedAlias := mk_NormalizedAlias { NormalizedAlias_as_str : str }.
#[global] Instance NormalizedAlias_eq_dec : EqDecision NormalizedAlias.
Proof. solve_decision. Defined.

Definition is_allowed_byte (a : ascii) : bool :=
  is_ascii_uppercase a || is_ascii_lowercase a || is_ascii_digit a
  || Ascii.eqb a "-" || Ascii.eqb a "_".

(** [for (position, byte) in trimmed.bytes().enumerate()]. *)
Fixpoint check_alias_bytes (position : Z) (l : list ascii) : result AliasInputError unit :=
  match l with
  | [] => Ok tt
  | a :: l =>
      if negb (is_allowed_byte a) then Err (AliasInputError_DisallowedCharacter position)
      else check_alias_bytes (position + 1) l
  end.

Definition NormalizedAlias_parse (value : str) : result AliasInputError NormalizedAlias :=
  let trimmed := trim value in
  if is_empty trimmed then Err AliasInputError_Empty else
  if ALIAS_MAX_LENGTH <? str_len trimmed
  then Err (AliasInputError_TooLong (str_len trimmed) ALIAS_MAX_LENGTH) else
  _ ← check_alias_bytes 0 (chars trimmed);
  Ok (mk_NormalizedAlias trimmed).

Definition NormalizedAlias_as_bytes (a : NormalizedAlias) : bytes := as_bytes (NormalizedAlias_as_str a).

(** The invariant: one to 128 allowed bytes. *)
Definition NormalizedAlias_wf (a : NormalizedAlias) : Prop :=
  NormalizedAlias_as_str a ≠ EmptyString ∧ str_len (NormalizedAlias_as_str a) ≤ ALIAS_MAX_LENGTH
  ∧ Forall (λ c, is_allowed_byte c = true) (chars (NormalizedAlias_as_str a)).

Section alias.
Context {P : Platform}.

(** ** Associated data ([src/alias/aad.rs])

    The field readers are those of the secrets' associated data, which the
    source repeats. *)

Definition ALIAS_AAD_VERSION_V1 : Z := 1.
Definition ALIAS_AAD_V1_FIELDS : list str :=
  ["aad_version"; "alias_key_version"; "owner_user_id"; "secret_alias_id"; "secret_id"]%string.

Record AliasAadV1 := mk_AliasAadV1 {
  al_secret_alias_id : SecretAliasId;
  al_secret_id : SecretId;
  al_owner_user_id : OwnerUserId;
  al_alias_key_version : KeyVersion;
}.
#[global] Instance AliasAadV1_eq_dec : EqDecision AliasAadV1.
Proof. solve_decision. Defined.
Definition AliasAadV1_new := mk_AliasAadV1.

Definition validate_alias_aad_v1_field_set (object : Map) : result AadError unit :=
  validate_field_set ALIAS_AAD_V1_FIELDS object.

Definition AliasAadV1_from_stored_context (context : Value) : result AadError AliasAadV1 :=
  object ← ok_or (as_object context) AadError_ExpectedJsonObject;
  _ ← validate_alias_aad_v1_field_set object;
  value ← required_value object "aad_version";
  aad_version ← parse_aad_version value;
  if negb (aad_version =? ALIAS_AAD_VERSION_V1)
  then Err (AadError_UnsupportedAadVersion (int_to_string aad_version)) else
  secret_alias_id ← parse_required_string object "secret_alias_id";
  secret_id ← parse_required_string object "secret_id";
  owner_user_id ← parse_required_string object "owner_user_id";
  alias_key_version ← parse_required_positive_integer object "alias_key_version";
  secret_alias_id ← SecretAliasId_parse secret_alias_id;
  secret_id ← SecretId_parse secret_id;
  owner_user_id ← OwnerUserId_parse owner_user_id;
  key_version ← KeyVersion_new alias_key_version
    !? (λ _, AadError_InvalidPositiveInteger "alias_key_version" (int_to_string alias_key_version));
  Ok (AliasAadV1_new secret_alias_id secret_id owner_user_id key_version).

(** [#[derive(Serialize)] struct CanonicalAliasAad]. *)
Definition CanonicalAliasAad (alias_key_version : Z) (owner_user_id secret_alias_id secret_id : str) : Map :=
  [("aad_version", json_uint ALIAS_AAD_VERSION_V1);
   ("alias_key_version", json_uint alias_key_version);
   ("owner_user_id", JString owner_user_id);
   ("secret_alias_id", JString secret_alias_id);
   ("secret_id", JString secret_id)]%string.

Definition alias_document (aad : AliasAadV1) : Map :=
  CanonicalAliasAad (KeyVersion_get (al_alias_key_version aad))
    (OwnerUserId_as_canonical_string (al_owner_user_id aad))
    (SecretAliasId_as_canonical_string (al_secret_alias_id aad))
    (SecretId_as_canonical_string (al_secret_id aad)).

Definition AliasAadV1_canonical_json (aad : AliasAadV1) : result AadError str :=
  serde_to_string (JObject (alias_document aad)) !? AadError_SerializationFailed.
Definition AliasAadV1_canonical_bytes (aad : AliasAadV1) : result AadError bytes :=
  as_bytes <$> AliasAadV1_canonical_json aad.
Definition AliasAadV1_to_stored_context (aad : AliasAadV1) : result AadError Value :=
  canonical ← AliasAadV1_canonical_json aad;
  serde_from_str canonical !? AadError_SerializationFailed.

Definition AliasAadV1_wf (aad : AliasAadV1) : Prop :=
  SecretAliasId_wf (al_secret_alias_id aad) ∧ SecretId_wf (al_secret_id aad)
  ∧ KeyVersion_wf (al_alias_key_version aad).

(** ** Encryption ([src/alias/crypto.rs]) *)

Record EncryptedAlias := mk_EncryptedAlias {
  ea_ciphertext : Ciphertext;
  ea_nonce : Nonce;
}.

Definition cipher_from_alias_key (key : AliasEncryptionKey) : result CryptoError Cipher :=
  ok_or (cipher_new_from_slice (AliasEncryptionKey_as_bytes key))
    (CryptoError_InvalidAliasEncryptionKeyLength (zlen (AliasEncryptionKey_as_bytes key))).

Definition encrypt_alias (encryption_key : AliasEncryptionKey) (aad : AliasAadV1)
    (alias : NormalizedAlias) : io World CryptoError EncryptedAlias :=
  nonce ← Nonce_generate;
  aad_bytes ← lift (AliasAadV1_canonical_bytes aad !? CryptoError_from_AadError);
  cipher ← lift (cipher_from_alias_key encryption_key);
  ciphertext ← lift (c ← ok_or
      (cipher_encrypt cipher (Nonce_as_bytes nonce) aad_bytes (NormalizedAlias_as_bytes alias))
      CryptoError_EncryptionFailed;
    Ciphertext_new c);
  mret (mk_EncryptedAlias ciphertext nonce).

Definition decrypt_alias (encryption_key : AliasEncryptionKey) (aad : AliasAadV1) (nonce : Nonce)
    (ciphertext : Ciphertext) : result CryptoError NormalizedAlias :=
  aad_bytes ← AliasAadV1_canonical_bytes aad !? CryptoError_from_AadError;
  cipher ← cipher_from_alias_key encryption_key;
  plaintext ← ok_or
    (cipher_decrypt cipher (Nonce_as_bytes nonce) aad_bytes (Ciphertext_as_bytes ciphertext))
    CryptoError_DecryptionFailed;
  plaintext ← ok_or (from_utf8 plaintext) CryptoError_DecryptionFailed;
  NormalizedAlias_parse plaintext !? (λ _, CryptoError_DecryptionFailed).

(** ** Fingerprints ([src/alias/fingerprint.rs]) *)

Definition ALIAS_FINGERPRINT_LENGTH : nat := 32.
Definition FINGERPRINT_DOMAIN : str := "mipsorcu:v1:secret-alias-fingerprint".

Record AliasFingerprint := mk_AliasFingerprint { AliasFingerprint_as_bytes : bytes }.
Definition AliasFingerprint_parse : bytes → result CryptoError AliasFingerprint :=
  parse_array ALIAS_FINGERPRINT_LENGTH mk_AliasFingerprint CryptoError_InvalidAliasFingerprintLength.
Definition AliasFingerprint_to_hex_string (f : AliasFingerprint) : str :=
  hex_encode (AliasFingerprint_as_bytes f).

(** The bytes [mac.update] is fed, in order. *)
Definition fingerprint_message (owner_user_id : OwnerUserId) (alias : NormalizedAlias) : bytes :=
  as_bytes FINGERPRINT_DOMAIN ++ as_bytes (OwnerUserId_as_canonical_string owner_user_id)
  ++ NormalizedAlias_as_bytes alias.

Definition compute_alias_fingerprint (fingerprint_key : AliasFingerprintKey)
    (owner_user_id : OwnerUserId) (alias : NormalizedAlias) : result CryptoError AliasFingerprint :=
  mk_AliasFingerprint <$> ok_or
    (hmac_sha3_256 (AliasFingerprintKey_as_bytes fingerprint_key) (fingerprint_message owner_user_id alias))
    CryptoError_FingerprintComputationFailed.

(** ** Writing ([src/alias/write.rs]) *)

Record PreparedAliasCreate := mk_PreparedAliasCreate {
  pc_secret_alias_id : SecretAliasId;
  pc_secret_id : SecretId;
  pc_owner_user_id : OwnerUserId;
  pc_ciphertext : Ciphertext;
  pc_nonce : Nonce;
  pc_alias_key_version : KeyVersion;
  pc_alias_fingerprint : AliasFingerprint;
  pc_fingerprint_key_version : KeyVersion;
  pc_fingerprint_schema_version : AliasFingerprintSchemaVersion;
  pc_aad_context : Value;
  pc_created_at : CreatedAt;
}.

Record PreparedAliasUpdate := mk_PreparedAliasUpdate {
  pu_secret_alias_id : SecretAliasId;
  pu_secret_id : SecretId;
  pu_owner_user_id : OwnerUserId;
  pu_ciphertext : Ciphertext;
  pu_nonce : Nonce;
  pu_alias_key_version : KeyVersion;
  pu_new_alias_fingerprint : AliasFingerprint;
  pu_fingerprint_key_version : KeyVersion;
  pu_fingerprint_schema_version : AliasFingerprintSchemaVersion;
  pu_aad_context : Value;
}.

Definition prepare_alias_create (encryption_key : AliasEncryptionKey) (encryption_key_version : KeyVersion)
    (fingerprint_key : AliasFingerprintKey) (fingerprint_key_version : KeyVersion) (secret_id : SecretId)
    (owner_user_id : OwnerUserId) (alias_input : NormalizedAlias) (created_at : CreatedAt) :
    io World CryptoError PreparedAliasCreate :=
  secret_alias_id ← SecretAliasId_generate;
  let aad := AliasAadV1_new secret_alias_id secret_id owner_user_id encryption_key_version in
  encrypted ← encrypt_alias encryption_key aad alias_input;
  alias_fingerprint ← lift (compute_alias_fingerprint fingerprint_key owner_user_id alias_input);
  aad_context ← lift (AliasAadV1_to_stored_context aad !? CryptoError_from_AadError);
  mret (mk_PreparedAliasCreate secret_alias_id secret_id owner_user_id (ea_ciphertext encrypted)
    (ea_nonce encrypted) encryption_key_version alias_fingerprint fingerprint_key_version
    AliasFingerprintSchemaVersion_V1 aad_context created_at).

Definition prepare_alias_update (encryption_key : AliasEncryptionKey) (encryption_key_version : KeyVersion)
    (fingerprint_key : AliasFingerprintKey) (fingerprint_key_version : KeyVersion)
    (secret_alias_id : SecretAliasId) (secret_id : SecretId) (owner_user_id : OwnerUserId)
    (new_alias : NormalizedAlias) : io World CryptoError PreparedAliasUpdate :=
  let aad := AliasAadV1_new secret_alias_id secret_id owner_user_id encryption_key_version in
  encrypted ← encrypt_alias encryption_key aad new_alias;
  new_alias_fingerprint ← lift (compute_alias_fingerprint fingerprint_key owner_user_id new_alias);
  aad_context ← lift (AliasAadV1_to_stored_context aad !? CryptoError_from_AadError);
  mret (mk_PreparedAliasUpdate secret_alias_id secret_id owner_user_id (ea_ciphertext encrypted)
    (ea_nonce encrypted) encryption_key_version new_alias_fingerprint fingerprint_key_version
    AliasFingerprintSchemaVersion_V1 aad_context).

(** ** Reading ([src/alias/read.rs]) *)

Record DecryptedAlias := mk_DecryptedAlias {
  da_secret_alias_id : SecretAliasId;
  da_secret_id : SecretId;
  da_alias : NormalizedAlias;
}.

Definition decrypt_alias_row (encryption_key : AliasEncryptionKey) (secret_alias_id : SecretAliasId)
    (secret_id : SecretId) (owner_user_id : OwnerUserId) (alias_key_version : KeyVersion)
    (ciphertext : Ciphertext) (nonce : Nonce) (aad_context : Value) :
    result SecretDecryptError DecryptedAlias :=
  stored_aad ← AliasAadV1_from_stored_context aad_context !? SecretDecryptError_Aad;
  let row_aad := AliasAadV1_new secret_alias_id secret_id owner_user_id alias_key_version in
  stored_bytes ← AliasAadV1_canonical_bytes stored_aad !? SecretDecryptError_Aad;
  row_bytes ← AliasAadV1_canonical_bytes row_aad !? SecretDecryptError_Aad;
  if negb (bool_decide (stored_bytes = row_bytes))
  then Err (SecretDecryptError_Integrity DecryptIntegrityError_AadContextMismatch) else
  alias ← decrypt_alias encryption_key row_aad nonce ciphertext !? SecretDecryptError_Crypto;
  Ok (mk_DecryptedAlias secret_alias_id secret_id alias).

Definition compute_lookup_fingerprint := compute_alias_fingerprint.
End alias.

(** ** Lemmas *)

Lemma allowed_byte_plain a : is_allowed_byte a = true → plain a = true ∧ code a < 128.
Proof. destruct a as [[] [] [] [] [] [] [] []]; vm_compute; intuition congruence. Qed.

Lemma check_alias_bytes_Ok n l :
  check_alias_bytes n l = Ok tt ↔ Forall (λ c, is_allowed_byte c = true) l.
Proof.
  revert n. induction l as [|a l IH]; intros n; simpl; [by split|].
  rewrite Forall_cons -(IH (n + 1)). destruct (is_allowed_byte a); simpl; naive_solver.
Qed.

Lemma NormalizedAlias_parse_Ok s a :
  NormalizedAlias_parse s = Ok a ↔ NormalizedAlias_as_str a = trim s ∧ NormalizedAlias_wf a.
Proof.
  destruct a as [t]. unfold NormalizedAlias_parse, NormalizedAlias_wf. simpl. split.
  - intros H. case_if; [done|]. apply is_empty_false in Heqb. case_if; [done|]. b2p. inv_ok.
    by apply check_alias_bytes_Ok in H.
  - intros (-> & Hne & Hlen & Hall). rewrite (proj2 (is_empty_false _) Hne) (proj2 (Z.ltb_ge _ _) Hlen).
    by rewrite (proj2 (check_alias_bytes_Ok 0 _) Hall).
Qed.

Lemma NormalizedAlias_parse_id a : NormalizedAlias_wf a → NormalizedAlias_parse (NormalizedAlias_as_str a) = Ok a.
Proof.
  intros Ha. apply NormalizedAlias_parse_Ok. split; [|done]. symmetry. apply trim_all_plain.
  destruct Ha as (_ & _ & Hall). eapply Forall_impl; [exact Hall|]. by intros ? [? _]%allowed_byte_plain.
Qed.

Lemma NormalizedAlias_utf8 a :
  NormalizedAlias_wf a → from_utf8 (NormalizedAlias_as_bytes a) = Some (NormalizedAlias_as_str a).
Proof.
  intros (_ & _ & Hall). apply from_utf8_as_bytes, utf8_valid_ascii.
  eapply Forall_impl; [exact Hall|]. by intros ? [_ ?]%allowed_byte_plain.
Qed.

Section alias_lemmas.
Context {P : Platform}.

Lemma alias_document_exact aad :
  AliasAadV1_wf aad →
  json_exact json_max_depth (JObject (alias_document aad)) = true
  ∧ normalize (JObject (alias_document aad)) = JObject (alias_document aad).
Proof.
  intros (_ & _ & Hk). split; [|done]. apply json_exact_object. split; [by decide_keys|].
  unfold KeyVersion_wf, nonzero_u32, u32_max in Hk.
  repeat constructor. cbn. apply andb_true_iff; split; apply Z.leb_le; unfold u64_max; lia.
Qed.

Lemma AliasAadV1_from_document {LU : UuidLaws P} aad :
  AliasAadV1_wf aad → AliasAadV1_from_stored_context (JObject (alias_document aad)) = Ok aad.
Proof.
  destruct aad as [ai si oi [k]]. intros (Hai & Hsi & Hk). unfold KeyVersion_wf, nonzero_u32 in Hk. simpl in *.
  unfold AliasAadV1_from_stored_context.
  assert (validate_alias_aad_v1_field_set (alias_document (mk_AliasAadV1 ai si oi (mk_KeyVersion k))) = Ok tt) as Hset.
  { apply validate_field_set_Ok. intros j. done. }
  cbn [as_object ok_or mbind result_bind]. rewrite Hset. cbn.
  assert (u_try_from u32_max k = Some k) as -> by (apply u_try_from_Some; lia).
  cbn. rewrite (proj2 (Z.eqb_neq k 0)); [|lia].
  rewrite SecretAliasId_parse_canonical //= SecretId_parse_canonical //= OwnerUserId_parse_canonical /=.
  unfold KeyVersion_new, NonZeroU32_new. by rewrite (proj2 (Z.eqb_neq k 0)); [|lia].
Qed.

Lemma AliasAadV1_from_stored_wf v aad :
  AliasAadV1_from_stored_context v = Ok aad → AliasAadV1_wf aad.
Proof.
  unfold AliasAadV1_from_stored_context, parse_required_positive_integer, SecretAliasId_parse, SecretId_parse,
    KeyVersion_new. intros H. inv_ok. case_if; [done|]. inv_ok.
  repeat select (parse_uuid_v4 _ _ = _) (fun H => apply parse_uuid_v4_Ok in H as [_ ?]).
  select (parse_positive_integer _ _ = _) (fun H => apply parse_positive_integer_Ok in H as [_ ?]).
  unfold NonZeroU32_new in *. case_if; simplify_eq. done.
Qed.

(** The stored context of an alias reads back as its associated data. *)
Lemma AliasAadV1_stored_round_trip {LU : UuidLaws P} {LS : SerdeLaws P} aad v :
  AliasAadV1_wf aad → AliasAadV1_to_stored_context aad = Ok v → AliasAadV1_from_stored_context v = Ok aad.
Proof.
  intros Hwf H. destruct (alias_document_exact aad Hwf) as [Hex Hnorm].
  destruct (serde_round_trip _ Hex) as (s & Hs & Hback).
  unfold AliasAadV1_to_stored_context, AliasAadV1_canonical_json in H. rewrite Hs /= Hback Hnorm in H.
  inv_ok. by apply AliasAadV1_from_document.
Qed.

Lemma AliasAadV1_canonical_inj {LU : UuidLaws P} {LS : SerdeLaws P} a b x :
  AliasAadV1_wf a → AliasAadV1_wf b →
  AliasAadV1_canonical_bytes a = Ok x → AliasAadV1_canonical_bytes b = Ok x → a = b.
Proof.
  intros Ha Hb H1 H2. unfold AliasAadV1_canonical_bytes, AliasAadV1_canonical_json in *. inv_ok.
  select (as_bytes _ = as_bytes _) (fun H => apply as_bytes_inj in H; subst).
  destruct (alias_document_exact a Ha) as [Hea Hna], (alias_document_exact b Hb) as [Heb Hnb].
  pose proof (serde_to_string_inj _ _ _ Hea Heb ltac:(eassumption) ltac:(eassumption)) as Hn.
  rewrite Hna Hnb in Hn. pose proof (AliasAadV1_from_document a Ha) as E.
  rewrite Hn AliasAadV1_from_document // in E. congruence.
Qed.

Lemma decrypt_encrypt_alias {LR : RandomLaws P} {LA : AeadLaws P} key aad alias w e w' :
  NormalizedAlias_wf alias → encrypt_alias key aad alias w = (Ok e, w') →
  decrypt_alias key aad (ea_nonce e) (ea_ciphertext e) = Ok alias.
Proof.
  intros Ha H. unfold encrypt_alias in H. inv_ok. unfold decrypt_alias. simpl.
  select (AliasAadV1_canonical_bytes _ = _) (fun H => rewrite H /=).
  select (cipher_from_alias_key _ = _) (fun H => rewrite H /=).
  select (cipher_encrypt _ _ _ _ = _) (fun H => apply cipher_decrypt_encrypt in H; rename H into Hd).
  unfold Ciphertext_new in *. case_match; simplify_eq/=.
  by rewrite Hd /= NormalizedAlias_utf8 //= NormalizedAlias_parse_id.
Qed.

(** A row whose context is the one stored for its own associated data. *)
Lemma decrypt_row_of_stored {LU : UuidLaws P} {LS : SerdeLaws P} key ai si oi kv ct n ctx :
  let aad := AliasAadV1_new ai si oi kv in
  AliasAadV1_wf aad → AliasAadV1_to_stored_context aad = Ok ctx →
  decrypt_alias_row key ai si oi kv ct n ctx
  = alias ← decrypt_alias key aad n ct !? SecretDecryptError_Crypto; Ok (mk_DecryptedAlias ai si alias).
Proof.
  intros aad Hwf Hctx. unfold decrypt_alias_row. fold aad.
  rewrite (AliasAadV1_stored_round_trip aad ctx) //=.
  destruct (AliasAadV1_canonical_bytes aad) as [x|] eqn:Hx; simpl; [by rewrite bool_decide_eq_true_2|].
  unfold AliasAadV1_to_stored_context in Hctx. unfold AliasAadV1_canonical_bytes in Hx.
  by destruct (AliasAadV1_canonical_json aad).
Qed.
End alias_lemmas.

(** ** Properties *)

(** Normalization accepts exactly the texts whose trimmed form has one to 128
    bytes among ASCII letters, digits, hyphen and underscore, and returns that
    form; normalizing again changes nothing. *)
Theorem alias_normal_form s :
  (∀ a, NormalizedAlias_parse s = Ok a ↔
    NormalizedAlias_as_str a = trim s ∧ 0 < str_len (trim s) ≤ 128
    ∧ Forall (λ c, is_allowed_byte c = true) (chars (trim s)))
  ∧ (∀ a, NormalizedAlias_parse s = Ok a → NormalizedAlias_parse (NormalizedAlias_as_str a) = Ok a).
Proof.
  split; intros a.
  - rewrite NormalizedAlias_parse_Ok. unfold NormalizedAlias_wf, ALIAS_MAX_LENGTH.
    assert (∀ t, t ≠ EmptyString ↔ 0 < str_len t) as Hne.
    { intros [|c t]; unfold str_len; simpl; [split; [done|lia]|split; [lia|done]]. }
    destruct a as [t]. simpl. rewrite Hne. split; intros (-> & ?); naive_solver.
  - intros [_ Hwf]%NormalizedAlias_parse_Ok. by apply NormalizedAlias_parse_id.
Qed.

Section alias_theorems.
Context {P : Platform}.

(** An alias that was created or updated is read back from its row: the
    stored context passes the row check, the ciphertext authenticates, and the
    text is the one that was given; and the fingerprint stored for it is the one
    a lookup of the same owner and text computes. *)
Theorem alias_write_then_read {LU : UuidLaws P} {LS : SerdeLaws P} {LR : RandomLaws P} {LA : AeadLaws P}
    key kv fkey fkv ai si oi alias created_at w p w' w2 p2 w2' :
  SecretId_wf si → SecretAliasId_wf ai → KeyVersion_wf kv → NormalizedAlias_wf alias →
  prepare_alias_create key kv fkey fkv si oi alias created_at w = (Ok p, w') →
  prepare_alias_update key kv fkey fkv ai si oi alias w2 = (Ok p2, w2') →
  decrypt_alias_row key (pc_secret_alias_id p) si oi kv (pc_ciphertext p) (pc_nonce p) (pc_aad_context p)
    = Ok (mk_DecryptedAlias (pc_secret_alias_id p) si alias)
  ∧ decrypt_alias_row key ai si oi kv (pu_ciphertext p2) (pu_nonce p2) (pu_aad_context p2)
    = Ok (mk_DecryptedAlias ai si alias)
  ∧ compute_lookup_fingerprint fkey oi alias = Ok (pc_alias_fingerprint p)
  ∧ pu_new_alias_fingerprint p2 = pc_alias_fingerprint p.
Proof.
  intros Hsi Hai Hkv Ha Hc Hu. unfold prepare_alias_create in Hc. unfold prepare_alias_update in Hu. inv_ok. simpl.
  repeat select (encrypt_alias _ _ _ _ = _) (fun H => apply decrypt_encrypt_alias in H; [|done]).
  select (SecretAliasId_generate _ = _) (fun H => apply SecretAliasId_generate_wf in H).
  rewrite !decrypt_row_of_stored; try done.
  repeat select (decrypt_alias _ _ _ _ = _) (fun H => rewrite H; clear H). simpl.
  unfold compute_lookup_fingerprint. split_and!; congruence.
Qed.

(** Fingerprints separate owners and texts: the message that is authenticated
    determines the owner and the alias, so two rows with one fingerprint under
    one key are the same owner's same alias, or HMAC-SHA3-256 gives one tag to
    their two different messages. *)
Theorem alias_fingerprint_separates {LU : UuidLaws P} key o1 a1 o2 a2 f :
  compute_alias_fingerprint key o1 a1 = Ok f → compute_alias_fingerprint key o2 a2 = Ok f →
  (o1 = o2 ∧ a1 = a2)
  ∨ (fingerprint_message o1 a1 ≠ fingerprint_message o2 a2
     ∧ hmac_sha3_256 (AliasFingerprintKey_as_bytes key) (fingerprint_message o1 a1)
       = hmac_sha3_256 (AliasFingerprintKey_as_bytes key) (fingerprint_message o2 a2)).
Proof.
  unfold compute_alias_fingerprint. intros H1 H2. inv_ok. simplify_eq.
  destruct (decide (fingerprint_message o1 a1 = fingerprint_message o2 a2)) as [Heq|Hne]; [left|right; split; congruence].
  - unfold fingerprint_message in Heq. apply app_inj_1 in Heq as [_ Heq]; [|done].
    apply app_inj_1 in Heq as [Ho%as_bytes_inj Ha%as_bytes_inj].
    + destruct a1, a2. simpl in Ha. subst. split; [by apply OwnerUserId_canonical_inj|done].
    + rewrite !length_as_bytes. pose proof (uuid_hyphenated_length (OwnerUserId_0 o1)).
      pose proof (uuid_hyphenated_length (OwnerUserId_0 o2)). unfold str_len, OwnerUserId_as_canonical_string in *. lia.
Qed.
End alias_theorems.
