(* ===== verification/AuditTypes.v ===== *)
(** * Audit identifiers, actions and results ([src/audit/event/{id,action}.rs])

    The closed vocabularies of the audit log, each with its text form, and the
    error enum of [src/audit/error.rs]. *)

From S2P Require Import Prelude RustStd Json Platform Errors Types.

(** ** Actions *)

Inductive AuditAction :=
| AuditAction_EncryptCreate
| AuditAction_EncryptRotate
| AuditAction_Decrypt
| AuditAction_VersionPurge
| AuditAction_IntegrityCheck
| AuditAction_RestoreTest
| AuditAction_AuthFailure
| AuditAction_KeyRotationStart
| AuditAction_KeyRotationReencrypt
| AuditAction_KeyRotationComplete
| AuditAction_SignatureKeyCreated
| AuditAction_SignatureKeyActivated
| AuditAction_SignatureKeyRetired
| AuditAction_MonthlyDigestGenerate
| AuditAction_MonthlyDigestVerify
| AuditAction_ArchiveExport
| AuditAction_DigestTimestamping
| AuditAction_SiemForwardFailure
| AuditAction_AuditReportGenerate
| AuditAction_AuditUiRead
| AuditAction_SchedulerJob
| AuditAction_IncidentDetected
| AuditAction_SecretAliasCreate
| AuditAction_SecretAliasUpdate
| AuditAction_SecretAliasDelete
| AuditAction_SecretAliasList.
#[global] Instance AuditAction_eq_dec : EqDecision AuditAction.
Proof. solve_decision. Defined.

Definition AuditAction_as_str (v : AuditAction) : str :=
  match v with
  | AuditAction_EncryptCreate => "encrypt_create"
  | AuditAction_EncryptRotate => "encrypt_rotate"
  | AuditAction_Decrypt => "decrypt"
  | AuditAction_VersionPurge => "version_purge"
  | AuditAction_IntegrityCheck => "integrity_check"
  | AuditAction_RestoreTest => "restore_test"
  | AuditAction_AuthFailure => "auth_failure"
  | AuditAction_KeyRotationStart => "key_rotation_start"
  | AuditAction_KeyRotationReencrypt => "key_rotation_reencrypt"
  | AuditAction_KeyRotationComplete => "key_rotation_complete"
  | AuditAction_SignatureKeyCreated => "signature_key_created"
  | AuditAction_SignatureKeyActivated => "signature_key_activated"
  | AuditAction_SignatureKeyRetired => "signature_key_retired"
  | AuditAction_MonthlyDigestGenerate => "monthly_digest_generate"
  | AuditAction_MonthlyDigestVerify => "monthly_digest_verify"
  | AuditAction_ArchiveExport => "archive_export"
  | AuditAction_DigestTimestamping => "digest_timestamping"
  | AuditAction_SiemForwardFailure => "siem_forward_failure"
  | AuditAction_AuditReportGenerate => "audit_report_generate"
  | AuditAction_AuditUiRead => "audit_ui_read"
  | AuditAction_SchedulerJob => "scheduler_job"
  | AuditAction_IncidentDetected => "incident_detected"
  | AuditAction_SecretAliasCreate => "secret_alias_create"
  | AuditAction_SecretAliasUpdate => "secret_alias_update"
  | AuditAction_SecretAliasDelete => "secret_alias_delete"
  | AuditAction_SecretAliasList => "secret_alias_list"
  end.

Inductive AuditEventError :=
| AuditEventError_InvalidUuid (field : str)
| AuditEventError_UnknownAction (value : str)
| AuditEventError_UnknownResult (value : str)
| AuditEventError_WriteSuccessActionNotAllowed (action : AuditAction)
| AuditEventError_FailureOnlyActionSuccessNotAllowed (action : AuditAction)
| AuditEventError_AuthFailureFieldMustBeNull (field : str)
| AuditEventError_MetadataMustBeObject
| AuditEventError_ForbiddenMetadataKey (key : str)
| AuditEventError_UnknownMetadataKey (key : str)
| AuditEventError_MissingMetadataKey (key : str)
| AuditEventError_InvalidMetadataValue (key : str)
| AuditEventError_ViolationSummaryMustBeObject
| AuditEventError_InvalidTrigger (value : str)
| AuditEventError_InvalidSourceEventAt
| AuditEventError_MissingSourceEventAt
| AuditEventError_SourceEventAtUnavailable.
#[global] Instance AuditEventError_eq_dec : EqDecision AuditEventError.
Proof. solve_decision. Defined.

Definition AuditEventError_to_string (e : AuditEventError) : str :=
  match e with
  | AuditEventError_InvalidUuid field => field +:+ " must be a valid UUID"
  | AuditEventError_UnknownAction value => "unknown audit action: " +:+ value
  | AuditEventError_UnknownResult value => "unknown audit result: " +:+ value
  | AuditEventError_WriteSuccessActionNotAllowed action =>
      "success audit for " +:+ AuditAction_as_str action +:+ " must be recorded by the write RPC"
  | AuditEventError_FailureOnlyActionSuccessNotAllowed action =>
      "success audit for " +:+ AuditAction_as_str action +:+ " is not allowed"
  | AuditEventError_AuthFailureFieldMustBeNull field =>
      "auth_failure audit field must be null: " +:+ field
  | AuditEventError_MetadataMustBeObject => "audit metadata must be a JSON object"
  | AuditEventError_ForbiddenMetadataKey key => "audit metadata contains forbidden key: " +:+ key
  | AuditEventError_UnknownMetadataKey key => "audit metadata contains unknown key for action: " +:+ key
  | AuditEventError_MissingMetadataKey key => "audit metadata is missing required key: " +:+ key
  | AuditEventError_InvalidMetadataValue key => "audit metadata contains invalid value for key: " +:+ key
  | AuditEventError_ViolationSummaryMustBeObject =>
      "integrity_check violation_summary must be a JSON object"
  | AuditEventError_InvalidTrigger value =>
      "audit metadata trigger must be startup, background, or cli: " +:+ value
  | AuditEventError_InvalidSourceEventAt =>
      "audit metadata source_event_at must be a canonical UTC RFC3339 timestamp string"
  | AuditEventError_MissingSourceEventAt => "audit metadata source_event_at is required"
  | AuditEventError_SourceEventAtUnavailable => "failed to generate audit source_event_at"
  end.

(** A [match] on string literals is a lookup in the table of its arms. *)
Definition AuditAction_table : list (str * AuditAction) :=
  [("encrypt_create", AuditAction_EncryptCreate);
   ("encrypt_rotate", AuditAction_EncryptRotate);
   ("decrypt", AuditAction_Decrypt);
   ("version_purge", AuditAction_VersionPurge);
   ("integrity_check", AuditAction_IntegrityCheck);
   ("restore_test", AuditAction_RestoreTest);
   ("auth_failure", AuditAction_AuthFailure);
   ("key_rotation_start", AuditAction_KeyRotationStart);
   ("key_rotation_reencrypt", AuditAction_KeyRotationReencrypt);
   ("key_rotation_complete", AuditAction_KeyRotationComplete);
   ("signature_key_created", AuditAction_SignatureKeyCreated);
   ("signature_key_activated", AuditAction_SignatureKeyActivated);
   ("signature_key_retired", AuditAction_SignatureKeyRetired);
   ("monthly_digest_generate", AuditAction_MonthlyDigestGenerate);
   ("monthly_digest_verify", AuditAction_MonthlyDigestVerify);
   ("archive_export", AuditAction_ArchiveExport);
   ("digest_timestamping", AuditAction_DigestTimestamping);
   ("siem_forward_failure", AuditAction_SiemForwardFailure);
   ("audit_report_generate", AuditAction_AuditReportGenerate);
   ("audit_ui_read", AuditAction_AuditUiRead);
   ("scheduler_job", AuditAction_SchedulerJob);
   ("incident_detected", AuditAction_IncidentDetected);
   ("secret_alias_create", AuditAction_SecretAliasCreate);
   ("secret_alias_update", AuditAction_SecretAliasUpdate);
   ("secret_alias_delete", AuditAction_SecretAliasDelete);
   ("secret_alias_list", AuditAction_SecretAliasList)]%string.
Definition AuditAction_parse (value : str) : result AuditEventError AuditAction :=
  ok_or (map_get value AuditAction_table) (AuditEventError_UnknownAction value).

Definition AuditAction_is_write_success_only (a : AuditAction) : bool :=
  match a with
  | AuditAction_EncryptCreate | AuditAction_EncryptRotate | AuditAction_VersionPurge => true
  | _ => false
  end.
Definition AuditAction_is_failure_only (a : AuditAction) : bool :=
  match a with
  | AuditAction_AuthFailure | AuditAction_SiemForwardFailure | AuditAction_IncidentDetected => true
  | _ => false
  end.

(** ** Results and triggers *)

Inductive AuditResult :=
| AuditResult_Success
| AuditResult_Failure.
#[global] Instance AuditResult_eq_dec : EqDecision AuditResult.
Proof. solve_decision. Defined.

Definition AuditResult_as_str (v : AuditResult) : str :=
  match v with
  | AuditResult_Success => "success"
  | AuditResult_Failure => "failure"
  end.

Definition AuditResult_table : list (str * AuditResult) :=
  [("success", AuditResult_Success);
   ("failure", AuditResult_Failure)]%string.
Definition AuditResult_parse (value : str) : result AuditEventError AuditResult :=
  ok_or (map_get value AuditResult_table) (AuditEventError_UnknownResult value).

Inductive AuditTrigger :=
| AuditTrigger_Startup
| AuditTrigger_Background
| AuditTrigger_Cli.
#[global] Instance AuditTrigger_eq_dec : EqDecision AuditTrigger.
Proof. solve_decision. Defined.

Definition AuditTrigger_as_str (v : AuditTrigger) : str :=
  match v with
  | AuditTrigger_Startup => "startup"
  | AuditTrigger_Background => "background"
  | AuditTrigger_Cli => "cli"
  end.

Definition AuditTrigger_table : list (str * AuditTrigger) :=
  [("startup", AuditTrigger_Startup);
   ("background", AuditTrigger_Background);
   ("cli", AuditTrigger_Cli)]%string.
Definition AuditTrigger_parse (value : str) : result AuditEventError AuditTrigger :=
  ok_or (map_get value AuditTrigger_table) (AuditEventError_InvalidTrigger value).

(** ** Identifiers *)

Section ids.
Context {P : Platform}.

Record AuditEventId := mk_AuditEventId { AuditEventId_0 : Uuid }.
Record RequestId := mk_RequestId { RequestId_0 : Uuid }.

#[global] Instance AuditEventId_eq_dec : EqDecision AuditEventId.
Proof. solve_decision. Defined.
#[global] Instance RequestId_eq_dec : EqDecision RequestId.
Proof. solve_decision. Defined.

Definition AuditEventId_generate : io World AuditEventError AuditEventId :=
  uuid ← generate_uuid (AuditEventError_InvalidUuid "audit_event_id"); mret (mk_AuditEventId uuid).
Definition AuditEventId_parse (value : str) : result AuditEventError AuditEventId :=
  mk_AuditEventId <$> ok_or (uuid_parse_str value) (AuditEventError_InvalidUuid "audit_event_id").
Definition AuditEventId_as_canonical_string (i : AuditEventId) : str :=
  uuid_hyphenated (AuditEventId_0 i).

Definition RequestId_generate : io World AuditEventError RequestId :=
  uuid ← generate_uuid (AuditEventError_InvalidUuid "request_id"); mret (mk_RequestId uuid).
Definition RequestId_parse (value : str) : result AuditEventError RequestId :=
  mk_RequestId <$> ok_or (uuid_parse_str value) (AuditEventError_InvalidUuid "request_id").
Definition RequestId_as_canonical_string (i : RequestId) : str := uuid_hyphenated (RequestId_0 i).
End ids.

(** ** Lemmas *)

(** A table of names lists each constructor under its own name. *)
Lemma table_get_as_str {A} (as_str : A → str) (table : list (str * A)) s a :
  Forall (λ p, p.1 = as_str p.2) table → map_get s table = Some a → s = as_str a.
Proof. intros Ht Hs%map_get_elem. rewrite Forall_forall in Ht. by apply Ht in Hs. Qed.

Lemma AuditAction_parse_as_str a : AuditAction_parse (AuditAction_as_str a) = Ok a.
Proof. by destruct a. Qed.
Lemma AuditAction_parse_Ok s a : AuditAction_parse s = Ok a ↔ s = AuditAction_as_str a.
Proof.
  split; [|intros ->; apply AuditAction_parse_as_str].
  intros H%ok_or_Ok. revert H. apply table_get_as_str. by repeat constructor.
Qed.
Lemma AuditTrigger_parse_as_str a : AuditTrigger_parse (AuditTrigger_as_str a) = Ok a.
Proof. by destruct a. Qed.
Lemma AuditTrigger_parse_Ok s a : AuditTrigger_parse s = Ok a ↔ s = AuditTrigger_as_str a.
Proof.
  split; [|intros ->; apply AuditTrigger_parse_as_str].
  intros H%ok_or_Ok. revert H. apply table_get_as_str. by repeat constructor.
Qed.
Lemma AuditResult_parse_as_str a : AuditResult_parse (AuditResult_as_str a) = Ok a.
Proof. by destruct a. Qed.
Lemma AuditResult_parse_Ok s a : AuditResult_parse s = Ok a ↔ s = AuditResult_as_str a.
Proof.
  split; [|intros ->; apply AuditResult_parse_as_str].
  intros H%ok_or_Ok. revert H. apply table_get_as_str. by repeat constructor.
Qed.

Section id_lemmas.
Context {P : Platform} {L : UuidLaws P}.

Lemma AuditEventId_parse_canonical i :
  AuditEventId_parse (AuditEventId_as_canonical_string i) = Ok i.
Proof. destruct i. unfold AuditEventId_parse. by rewrite uuid_parse_hyphenated. Qed.
Lemma RequestId_parse_canonical i : RequestId_parse (RequestId_as_canonical_string i) = Ok i.
Proof. destruct i. unfold RequestId_parse. by rewrite uuid_parse_hyphenated. Qed.
End id_lemmas.
