(* ===== verification/LedgerTypes.v ===== *)
(** * Ledger vocabulary ([src/ledger/{constants,error,entry_type,result,ids,hash,signature}.rs])

    Entry types with the payload keys each allows, identifiers and sequence
    numbers, hashes, signatures and the Ed25519 keys that make and check them. *)

From S2P Require Import Prelude RustStd Json Platform Errors Types AuditTypes.

(** ** Constants *)

Definition LEDGER_CANONICALIZATION_VERSION_V1 : Z := 1.
Definition LEDGER_CANONICAL_SCHEMA_V1 : str := "mipsorcu.ledger_entry.v1".
Definition LEDGER_HASH_ALGORITHM_SHA256 : str := "sha-256".
Definition LEDGER_SIGNATURE_ALGORITHM_ED25519 : str := "ed25519".
Definition LEDGER_HASH_LENGTH : nat := 32.
Definition LEDGER_SIGNATURE_LENGTH : nat := 64.
Definition LEDGER_ED25519_SECRET_KEY_LENGTH : nat := 32.
Definition LEDGER_ED25519_PUBLIC_KEY_LENGTH : nat := 32.
Definition LEDGER_PAYLOAD_MAX_CANONICAL_BYTES : Z := 8192.
Definition LEDGER_I64_MAX_U64 : Z := 9223372036854775807.

Definition FORBIDDEN_LEDGER_PAYLOAD_KEYS : list str :=
  ["alias_decryption_key"; "alias_encryption_key"; "alias_fingerprint_key";
   "authorization"; "authorization_header"; "bearer_token"; "canonical_alias_plaintext";
   "ciphertext"; "data_key"; "decrypt_result"; "decrypted"; "decrypted_data";
   "ed25519_private_key"; "encrypted_data_key"; "jwt"; "jwt_full"; "ledger_signing_key";
   "master_key"; "passphrase"; "password"; "plain_text"; "plaintext"; "raw_jwt";
   "request_body"; "request_body_full"; "response_body"; "response_body_full";
   "secret_body"; "secret_key"; "secret_value"; "service_role"; "service_role_key";
   "token"]%string.

(** ** Entry types and errors *)

Inductive LedgerEntryType :=
| LedgerEntryType_SecretCreated
| LedgerEntryType_SecretVersionCreated
| LedgerEntryType_SecretDecrypted
| LedgerEntryType_SecretVersionPurged
| LedgerEntryType_IntegrityCheckCompleted
| LedgerEntryType_RestoreTestCompleted
| LedgerEntryType_KeyRotationStarted
| LedgerEntryType_KeyRotationReencrypted
| LedgerEntryType_KeyRotationCompleted
| LedgerEntryType_KeyRotationAborted
| LedgerEntryType_SignatureKeyCreated
| LedgerEntryType_SignatureKeyActivated
| LedgerEntryType_SignatureKeyRetired
| LedgerEntryType_LedgerVerified
| LedgerEntryType_LedgerVerificationFailed
| LedgerEntryType_AuditFallbackResent
| LedgerEntryType_MonthlyDigest
| LedgerEntryType_ArchiveExported
| LedgerEntryType_DigestTimestamped
| LedgerEntryType_SchedulerJobCompleted
| LedgerEntryType_IncidentDetected.
#[global] Instance LedgerEntryType_eq_dec : EqDecision LedgerEntryType.
Proof. solve_decision. Defined.

Definition LedgerEntryType_as_str (v : LedgerEntryType) : str :=
  match v with
  | LedgerEntryType_SecretCreated => "secret_created"
  | LedgerEntryType_SecretVersionCreated => "secret_version_created"
  | LedgerEntryType_SecretDecrypted => "secret_decrypted"
  | LedgerEntryType_SecretVersionPurged => "secret_version_purged"
  | LedgerEntryType_IntegrityCheckCompleted => "integrity_check_completed"
  | LedgerEntryType_RestoreTestCompleted => "restore_test_completed"
  | LedgerEntryType_KeyRotationStarted => "key_rotation_started"
  | LedgerEntryType_KeyRotationReencrypted => "key_rotation_reencrypted"
  | LedgerEntryType_KeyRotationCompleted => "key_rotation_completed"
  | LedgerEntryType_KeyRotationAborted => "key_rotation_aborted"
  | LedgerEntryType_SignatureKeyCreated => "signature_key_created"
  | LedgerEntryType_SignatureKeyActivated => "signature_key_activated"
  | LedgerEntryType_SignatureKeyRetired => "signature_key_retired"
  | LedgerEntryType_LedgerVerified => "ledger_verified"
  | LedgerEntryType_LedgerVerificationFailed => "ledger_verification_failed"
  | LedgerEntryType_AuditFallbackResent => "audit_fallback_resent"
  | LedgerEntryType_MonthlyDigest => "monthly_digest"
  | LedgerEntryType_ArchiveExported => "archive_exported"
  | LedgerEntryType_DigestTimestamped => "digest_timestamped"
  | LedgerEntryType_SchedulerJobCompleted => "scheduler_job_completed"
  | LedgerEntryType_IncidentDetected => "incident_detected"
  end.

(** The keys an entry of each type may carry, in alphabetical order. *)
Definition LedgerEntryType_allowed_payload_keys (v : LedgerEntryType) : list str :=
  (match v with
  | LedgerEntryType_SecretCreated | LedgerEntryType_SecretVersionCreated =>
      ["algorithm"; "classification"; "key_version"; "version"]
  | LedgerEntryType_SecretDecrypted =>
      ["algorithm"; "key_version"; "version"]
  | LedgerEntryType_SecretVersionPurged =>
      ["key_version"; "retention_limit"; "version"]
  | LedgerEntryType_IntegrityCheckCompleted =>
      ["checked_audit_event_count"; "checked_secret_count";
       "checked_secret_version_count"; "duration_ms"; "violation_count"]
  | LedgerEntryType_RestoreTestCompleted =>
      ["duration_ms"; "failure_count"; "sample_count"; "success_count"; "trigger"]
  | LedgerEntryType_KeyRotationStarted =>
      ["new_key_version"; "old_key_version"]
  | LedgerEntryType_KeyRotationReencrypted =>
      ["batch_size"; "new_key_version"; "old_key_version"; "processed_count";
       "remaining_count"]
  | LedgerEntryType_KeyRotationCompleted =>
      ["new_key_version"; "old_key_version"; "remaining_count"]
  | LedgerEntryType_KeyRotationAborted =>
      ["new_key_version"; "old_key_version"; "reason_code"]
  | LedgerEntryType_SignatureKeyCreated =>
      ["created_at"; "public_key_fingerprint"; "signature_key_version"]
  | LedgerEntryType_SignatureKeyActivated =>
      ["activated_at"; "public_key_fingerprint"; "signature_key_version"]
  | LedgerEntryType_SignatureKeyRetired =>
      ["public_key_fingerprint"; "retired_at"; "signature_key_version"]
  | LedgerEntryType_LedgerVerified =>
      ["checked_count"; "duration_ms"; "end_sequence_no"; "start_sequence_no"]
  | LedgerEntryType_LedgerVerificationFailed =>
      ["end_sequence_no"; "error_code"; "failed_count"; "start_sequence_no"]
  | LedgerEntryType_AuditFallbackResent =>
      ["duration_ms"; "failed_count"; "resent_count"]
  | LedgerEntryType_MonthlyDigest =>
      ["digest_hash"; "end_sequence_no"; "entry_count"; "start_sequence_no";
       "target_year_month"]
  | LedgerEntryType_ArchiveExported =>
      ["archive_key"; "digest_hash"; "target_year_month"]
  | LedgerEntryType_DigestTimestamped =>
      ["digest_hash"; "target_year_month"; "timestamp_token_hash"]
  | LedgerEntryType_SchedulerJobCompleted =>
      ["duration_ms"; "job_name"; "target_year_month"; "trigger"]
  | LedgerEntryType_IncidentDetected =>
      ["dedupe_key"; "detection_source"; "incident_type"; "notification_result";
       "notification_sink"; "severity"; "target_sequence_no"; "target_year_month"]
  end)%string.

Inductive LedgerError :=
| LedgerError_InvalidUuid (field : str)
| LedgerError_InvalidUuidVersion (field expected : str)
| LedgerError_InvalidPositiveInteger (field : str)
| LedgerError_InvalidNonNegativeInteger (field : str)
| LedgerError_SequenceOverflow
| LedgerError_UnknownEntryType (value : str)
| LedgerError_UnknownResult (value : str)
| LedgerError_PayloadMustBeObject
| LedgerError_ForbiddenPayloadKey (key : str)
| LedgerError_UnknownPayloadKey (key : str) (entry_type : LedgerEntryType)
| LedgerError_PayloadValueMustBeScalar (key : str)
| LedgerError_InvalidPayloadField (key expected : str)
| LedgerError_PayloadTooLarge (max_bytes : Z)
| LedgerError_InvalidErrorCode (field : str)
| LedgerError_InvalidActorDeviceId
| LedgerError_InvalidHashLength (actual : Z)
| LedgerError_InvalidHashEncoding
| LedgerError_InvalidSignatureLength (actual : Z)
| LedgerError_InvalidSignatureEncoding
| LedgerError_InvalidSigningKeyLength (actual : Z)
| LedgerError_InvalidVerificationKeyLength (actual : Z)
| LedgerError_InvalidVerificationKey
| LedgerError_SignatureKeyVersionMismatch (expected actual : Z)
| LedgerError_UnknownSignatureKey (key_version sequence_no : Z)
| LedgerError_SignatureInvalid (sequence_no : Z)
| LedgerError_HashMismatch (sequence_no : Z)
| LedgerError_PreviousHashMismatch (sequence_no : Z)
| LedgerError_SequenceGap (expected actual : Z)
| LedgerError_SerializationFailed (message : str)
| LedgerError_RandomnessUnavailable
| LedgerError_InvalidMonthlyDigestPeriod
| LedgerError_DigestSignatureInvalid.
#[global] Instance LedgerError_eq_dec : EqDecision LedgerError.
Proof. solve_decision. Defined.

Definition LedgerEntryType_table : list (str * LedgerEntryType) :=
  [("secret_created", LedgerEntryType_SecretCreated);
   ("secret_version_created", LedgerEntryType_SecretVersionCreated);
   ("secret_decrypted", LedgerEntryType_SecretDecrypted);
   ("secret_version_purged", LedgerEntryType_SecretVersionPurged);
   ("integrity_check_completed", LedgerEntryType_IntegrityCheckCompleted);
   ("restore_test_completed", LedgerEntryType_RestoreTestCompleted);
   ("key_rotation_started", LedgerEntryType_KeyRotationStarted);
   ("key_rotation_reencrypted", LedgerEntryType_KeyRotationReencrypted);
   ("key_rotation_completed", LedgerEntryType_KeyRotationCompleted);
   ("key_rotation_aborted", LedgerEntryType_KeyRotationAborted);
   ("signature_key_created", LedgerEntryType_SignatureKeyCreated);
   ("signature_key_activated", LedgerEntryType_SignatureKeyActivated);
   ("signature_key_retired", LedgerEntryType_SignatureKeyRetired);
   ("ledger_verified", LedgerEntryType_LedgerVerified);
   ("ledger_verification_failed", LedgerEntryType_LedgerVerificationFailed);
   ("audit_fallback_resent", LedgerEntryType_AuditFallbackResent);
   ("monthly_digest", LedgerEntryType_MonthlyDigest);
   ("archive_exported", LedgerEntryType_ArchiveExported);
   ("digest_timestamped", LedgerEntryType_DigestTimestamped);
   ("scheduler_job_completed", LedgerEntryType_SchedulerJobCompleted);
   ("incident_detected", LedgerEntryType_IncidentDetected)]%string.
Definition LedgerEntryType_parse (value : str) : result LedgerError LedgerEntryType :=
  ok_or (map_get value LedgerEntryType_table) (LedgerError_UnknownEntryType value).

Inductive LedgerResult :=
| LedgerResult_Success
| LedgerResult_Failure.
#[global] Instance LedgerResult_eq_dec : EqDecision LedgerResult.
Proof. solve_decision. Defined.

Definition LedgerResult_as_str (v : LedgerResult) : str :=
  match v with
  | LedgerResult_Success => "success"
  | LedgerResult_Failure => "failure"
  end.

Definition LedgerResult_table : list (str * LedgerResult) :=
  [("success", LedgerResult_Success);
   ("failure", LedgerResult_Failure)]%string.
Definition LedgerResult_parse (value : str) : result LedgerError LedgerResult :=
  ok_or (map_get value LedgerResult_table) (LedgerError_UnknownResult value).

(** [Display]. *)
Definition LedgerError_to_string (e : LedgerError) : str :=
  (match e with
  | LedgerError_InvalidUuid field => "ledger " +:+ field +:+ " must be a UUID"
  | LedgerError_InvalidUuidVersion field expected => "ledger " +:+ field +:+ " must be a " +:+ expected +:+ " UUID"
  | LedgerError_InvalidPositiveInteger field => "ledger " +:+ field +:+ " must be a positive integer"
  | LedgerError_InvalidNonNegativeInteger field => "ledger " +:+ field +:+ " must be a non-negative integer"
  | LedgerError_SequenceOverflow => "ledger sequence number overflow"
  | LedgerError_UnknownEntryType value => "unknown ledger entry_type: " +:+ value
  | LedgerError_UnknownResult value => "unknown ledger result: " +:+ value
  | LedgerError_PayloadMustBeObject => "ledger payload must be a JSON object"
  | LedgerError_ForbiddenPayloadKey key => "ledger payload contains a forbidden key: " +:+ key
  | LedgerError_UnknownPayloadKey key entry_type => "ledger payload key " +:+ key +:+ " is not allowed for entry_type " +:+ LedgerEntryType_as_str entry_type
  | LedgerError_PayloadValueMustBeScalar key => "ledger payload field " +:+ key +:+ " must be scalar"
  | LedgerError_InvalidPayloadField key expected => "ledger payload field " +:+ key +:+ " must be " +:+ expected
  | LedgerError_PayloadTooLarge max_bytes => "ledger payload canonical JSON exceeds " +:+ int_to_string max_bytes +:+ " bytes"
  | LedgerError_InvalidErrorCode field => "ledger " +:+ field +:+ " must be non-blank and at most 128 bytes"
  | LedgerError_InvalidActorDeviceId => "ledger actor_device_id must be at most 128 bytes"
  | LedgerError_InvalidHashLength actual => "ledger hash must be 32 bytes: actual length " +:+ int_to_string actual
  | LedgerError_InvalidHashEncoding => "ledger hash bytea encoding is invalid"
  | LedgerError_InvalidSignatureLength actual => "ledger signature must be 64 bytes: actual length " +:+ int_to_string actual
  | LedgerError_InvalidSignatureEncoding => "ledger signature bytea encoding is invalid"
  | LedgerError_InvalidSigningKeyLength actual => "ledger signing key must be 32 bytes: actual length " +:+ int_to_string actual
  | LedgerError_InvalidVerificationKeyLength actual => "ledger verification key must be 32 bytes: actual length " +:+ int_to_string actual
  | LedgerError_InvalidVerificationKey => "ledger verification key is invalid"
  | LedgerError_SignatureKeyVersionMismatch expected actual => "ledger signature key version mismatch: expected " +:+ int_to_string expected +:+ ", actual " +:+ int_to_string actual
  | LedgerError_UnknownSignatureKey key_version sequence_no => "unknown ledger signature key version: " +:+ int_to_string key_version +:+ " at sequence " +:+ int_to_string sequence_no
  | LedgerError_SignatureInvalid sequence_no => "ledger signature is invalid at sequence " +:+ int_to_string sequence_no
  | LedgerError_HashMismatch sequence_no => "ledger entry hash mismatch at sequence " +:+ int_to_string sequence_no
  | LedgerError_PreviousHashMismatch sequence_no => "ledger previous hash mismatch at sequence " +:+ int_to_string sequence_no
  | LedgerError_SequenceGap expected actual => "ledger sequence gap: expected " +:+ int_to_string expected +:+ ", actual " +:+ int_to_string actual
  | LedgerError_SerializationFailed message => "failed to serialize canonical ledger payload: " +:+ message
  | LedgerError_RandomnessUnavailable => "ledger randomness unavailable"
  | LedgerError_InvalidMonthlyDigestPeriod => "monthly digest period must be in YYYY-MM format with a valid month (01-12)"
  | LedgerError_DigestSignatureInvalid => "digest Ed25519 signature is invalid"
  end)%string.

(** ** Hashes *)

Record LedgerHash := mk_LedgerHash { LedgerHash_as_bytes : bytes }.
#[global] Instance LedgerHash_eq_dec : EqDecision LedgerHash.
Proof. solve_decision. Defined.

Definition LedgerHash_genesis : LedgerHash := mk_LedgerHash (replicate LEDGER_HASH_LENGTH x00).
Definition LedgerHash_from_bytes : bytes → result LedgerError LedgerHash :=
  parse_array LEDGER_HASH_LENGTH mk_LedgerHash LedgerError_InvalidHashLength.
Definition LedgerHash_wf (h : LedgerHash) : Prop := length (LedgerHash_as_bytes h) = LEDGER_HASH_LENGTH.

(** The bytes a hash and a signature are computed over. *)
Record LedgerCanonicalPayload := mk_LedgerCanonicalPayload { LedgerCanonicalPayload_as_bytes : bytes }.
#[global] Instance LedgerCanonicalPayload_eq_dec : EqDecision LedgerCanonicalPayload.
Proof. solve_decision. Defined.

(** ** Sequence numbers: positive [u64] within [i64] *)

Record LedgerSequenceNo := mk_LedgerSequenceNo { LedgerSequenceNo_get : Z }.
#[global] Instance LedgerSequenceNo_eq_dec : EqDecision LedgerSequenceNo.
Proof. solve_decision. Defined.

Definition LedgerSequenceNo_new (value : Z) : result LedgerError LedgerSequenceNo :=
  if (value =? 0) || (LEDGER_I64_MAX_U64 <? value)
  then Err (LedgerError_InvalidPositiveInteger "sequence_no")
  else Ok (mk_LedgerSequenceNo value).
Definition LedgerSequenceNo_from_i64 (value : Z) : result LedgerError LedgerSequenceNo :=
  converted ← ok_or (u_try_from u64_max value) (LedgerError_InvalidPositiveInteger "sequence_no");
  LedgerSequenceNo_new converted.
Definition LedgerSequenceNo_as_i64 (n : LedgerSequenceNo) : result LedgerError Z :=
  if LedgerSequenceNo_get n <=? i64_max then Ok (LedgerSequenceNo_get n)
  else Err (LedgerError_InvalidPositiveInteger "sequence_no").
Definition LedgerSequenceNo_wf (n : LedgerSequenceNo) : Prop :=
  0 < LedgerSequenceNo_get n ≤ LEDGER_I64_MAX_U64.

(** ** Signatures and signature key versions *)

Record LedgerSignature := mk_LedgerSignature { LedgerSignature_as_bytes : bytes }.
#[global] Instance LedgerSignature_eq_dec : EqDecision LedgerSignature.
Proof. solve_decision. Defined.

Definition LedgerSignature_from_bytes : bytes → result LedgerError LedgerSignature :=
  parse_array LEDGER_SIGNATURE_LENGTH mk_LedgerSignature LedgerError_InvalidSignatureLength.
Definition LedgerSignature_wf (s : LedgerSignature) : Prop :=
  length (LedgerSignature_as_bytes s) = LEDGER_SIGNATURE_LENGTH.

Record LedgerSignatureKeyVersion :=
  mk_LedgerSignatureKeyVersion { LedgerSignatureKeyVersion_get : Z }.
#[global] Instance LedgerSignatureKeyVersion_eq_dec : EqDecision LedgerSignatureKeyVersion.
Proof. solve_decision. Defined.

Definition LedgerSignatureKeyVersion_new (value : Z) : result LedgerError LedgerSignatureKeyVersion :=
  mk_LedgerSignatureKeyVersion <$> ok_or (NonZeroU32_new value)
    (LedgerError_InvalidPositiveInteger "signature_key_version").
Definition LedgerSignatureKeyVersion_wf (v : LedgerSignatureKeyVersion) : Prop :=
  nonzero_u32 (LedgerSignatureKeyVersion_get v).

Section ledger_types.
Context {P : Platform}.

(** ** Encodings of hashes and signatures *)

Definition LedgerHash_from_hex (value : str) : result LedgerError LedgerHash :=
  bytes ← ok_or (hex_decode value) LedgerError_InvalidHashEncoding;
  LedgerHash_from_bytes bytes.
Definition LedgerHash_from_bytea_hex (value : str) : result LedgerError LedgerHash :=
  hex_value ← ok_or (strip_prefix "\x" value) LedgerError_InvalidHashEncoding;
  LedgerHash_from_hex hex_value.
Definition LedgerHash_from_canonical_payload (payload : LedgerCanonicalPayload) : LedgerHash :=
  mk_LedgerHash (sha256 (LedgerCanonicalPayload_as_bytes payload)).
Definition LedgerHash_to_hex (h : LedgerHash) : str := hex_encode (LedgerHash_as_bytes h).
Definition LedgerHash_to_bytea_hex (h : LedgerHash) : str := "\x" +:+ LedgerHash_to_hex h.

Definition LedgerSignature_from_bytea_hex (value : str) : result LedgerError LedgerSignature :=
  hex_value ← ok_or (strip_prefix "\x" value) LedgerError_InvalidSignatureEncoding;
  bytes ← ok_or (hex_decode hex_value) LedgerError_InvalidSignatureEncoding;
  LedgerSignature_from_bytes bytes.
Definition LedgerSignature_to_bytea_hex (s : LedgerSignature) : str :=
  "\x" +:+ hex_encode (LedgerSignature_as_bytes s).

(** ** Identifiers *)

Record LedgerEntryId := mk_LedgerEntryId { LedgerEntryId_0 : Uuid }.
Record LedgerTargetSecretVersionId :=
  mk_LedgerTargetSecretVersionId { LedgerTargetSecretVersionId_0 : Uuid }.
#[global] Instance LedgerEntryId_eq_dec : EqDecision LedgerEntryId.
Proof. solve_decision. Defined.
#[global] Instance LedgerTargetSecretVersionId_eq_dec : EqDecision LedgerTargetSecretVersionId.
Proof. solve_decision. Defined.

Definition ledger_parse_uuid (value field : str) : result LedgerError Uuid :=
  ok_or (uuid_parse_str value) (LedgerError_InvalidUuid field).
Definition ledger_require_uuid_v4 (uuid : Uuid) (field : str) : result LedgerError unit :=
  if bool_decide (uuid_get_version uuid ≠ Some VersionRandom)
  then Err (LedgerError_InvalidUuidVersion field "v4") else Ok tt.

Definition LedgerEntryId_generate : io World LedgerError LedgerEntryId :=
  uuid ← generate_uuid LedgerError_RandomnessUnavailable; mret (mk_LedgerEntryId uuid).
Definition LedgerEntryId_parse (value : str) : result LedgerError LedgerEntryId :=
  uuid ← ledger_parse_uuid value "ledger_entry_id";
  _ ← ledger_require_uuid_v4 uuid "ledger_entry_id";
  Ok (mk_LedgerEntryId uuid).
Definition LedgerEntryId_as_canonical_string (i : LedgerEntryId) : str :=
  uuid_hyphenated (LedgerEntryId_0 i).
Definition LedgerEntryId_wf (i : LedgerEntryId) : Prop := uuid_v4 (LedgerEntryId_0 i).

Definition LedgerTargetSecretVersionId_parse (value : str) : result LedgerError LedgerTargetSecretVersionId :=
  mk_LedgerTargetSecretVersionId <$> ledger_parse_uuid value "target_secret_version_id".
Definition LedgerTargetSecretVersionId_from_secret_version_id (value : SecretVersionId) :
    result LedgerError LedgerTargetSecretVersionId :=
  LedgerTargetSecretVersionId_parse (SecretVersionId_as_canonical_string value).
Definition LedgerTargetSecretVersionId_as_canonical_string (i : LedgerTargetSecretVersionId) : str :=
  uuid_hyphenated (LedgerTargetSecretVersionId_0 i).

(** ** Keys *)

Record LedgerSigningKey := mk_LedgerSigningKey {
  sk_key_version : LedgerSignatureKeyVersion;
  sk_signing_key : SigningKey;
}.
Record LedgerVerifyingKey := mk_LedgerVerifyingKey {
  vk_key_version : LedgerSignatureKeyVersion;
  vk_verifying_key : VerifyingKey;
}.

Definition LedgerSigningKey_from_secret_key_bytes (key_version : LedgerSignatureKeyVersion)
    (secret_key : bytes) : result LedgerError LedgerSigningKey :=
  if negb (length secret_key =? LEDGER_ED25519_SECRET_KEY_LENGTH)%nat
  then Err (LedgerError_InvalidSigningKeyLength (zlen secret_key))
  else Ok (mk_LedgerSigningKey key_version (ed_signing_key_from_bytes secret_key)).

Definition LedgerSigningKey_verification_key (k : LedgerSigningKey) : LedgerVerifyingKey :=
  mk_LedgerVerifyingKey (sk_key_version k) (ed_verifying_key (sk_signing_key k)).

Definition LedgerSigningKey_sign_raw_bytes (k : LedgerSigningKey)
    (expected_key_version : LedgerSignatureKeyVersion) (b : bytes) : result LedgerError LedgerSignature :=
  if negb (bool_decide (sk_key_version k = expected_key_version))
  then Err (LedgerError_SignatureKeyVersionMismatch
    (LedgerSignatureKeyVersion_get expected_key_version)
    (LedgerSignatureKeyVersion_get (sk_key_version k)))
  else LedgerSignature_from_bytes (ed_sign (sk_signing_key k) b).

Definition LedgerSigningKey_sign_payload (k : LedgerSigningKey)
    (expected_key_version : LedgerSignatureKeyVersion) (payload : LedgerCanonicalPayload) :
    result LedgerError LedgerSignature :=
  if negb (bool_decide (sk_key_version k = expected_key_version))
  then Err (LedgerError_SignatureKeyVersionMismatch
    (LedgerSignatureKeyVersion_get expected_key_version)
    (LedgerSignatureKeyVersion_get (sk_key_version k)))
  else LedgerSignature_from_bytes
    (ed_sign (sk_signing_key k) (LedgerCanonicalPayload_as_bytes payload)).

Definition LedgerVerifyingKey_from_public_key_bytes (key_version : LedgerSignatureKeyVersion)
    (public_key : bytes) : result LedgerError LedgerVerifyingKey :=
  if negb (length public_key =? LEDGER_ED25519_PUBLIC_KEY_LENGTH)%nat
  then Err (LedgerError_InvalidVerificationKeyLength (zlen public_key))
  else
    verifying_key ← ok_or (ed_verifying_key_from_bytes public_key) LedgerError_InvalidVerificationKey;
    Ok (mk_LedgerVerifyingKey key_version verifying_key).

Definition LedgerVerifyingKey_as_bytes (k : LedgerVerifyingKey) : bytes :=
  ed_verifying_key_to_bytes (vk_verifying_key k).
Definition LedgerVerifyingKey_fingerprint_hex (k : LedgerVerifyingKey) : str :=
  hex_encode (sha256 (LedgerVerifyingKey_as_bytes k)).

Definition LedgerVerifyingKey_verify_payload (k : LedgerVerifyingKey)
    (expected_key_version : LedgerSignatureKeyVersion) (payload : LedgerCanonicalPayload)
    (signature : LedgerSignature) : result LedgerError unit :=
  if negb (bool_decide (vk_key_version k = expected_key_version))
  then Err (LedgerError_SignatureKeyVersionMismatch
    (LedgerSignatureKeyVersion_get expected_key_version)
    (LedgerSignatureKeyVersion_get (vk_key_version k)))
  else if ed_verify (vk_verifying_key k) (LedgerCanonicalPayload_as_bytes payload)
    (LedgerSignature_as_bytes signature)
  then Ok tt else Err (LedgerError_SignatureInvalid 0).

Definition LedgerVerifyingKey_verify_digest_bytes (k : LedgerVerifyingKey) (b : bytes)
    (signature : LedgerSignature) : result LedgerError unit :=
  if ed_verify (vk_verifying_key k) b (LedgerSignature_as_bytes signature)
  then Ok tt else Err LedgerError_DigestSignatureInvalid.
End ledger_types.

(** ** Lemmas *)

Lemma LedgerEntryType_parse_as_str t : LedgerEntryType_parse (LedgerEntryType_as_str t) = Ok t.
Proof. by destruct t. Qed.
Lemma LedgerEntryType_parse_Ok s t : LedgerEntryType_parse s = Ok t ↔ s = LedgerEntryType_as_str t.
Proof.
  split; [|intros ->; apply LedgerEntryType_parse_as_str].
  intros H%ok_or_Ok. revert H. apply table_get_as_str. by repeat constructor.
Qed.
Lemma LedgerEntryType_as_str_inj t u :
  LedgerEntryType_as_str t = LedgerEntryType_as_str u → t = u.
Proof.
  intros H. pose proof (LedgerEntryType_parse_as_str t) as Ht.
  rewrite H LedgerEntryType_parse_as_str in Ht. congruence.
Qed.
Lemma LedgerResult_parse_as_str t : LedgerResult_parse (LedgerResult_as_str t) = Ok t.
Proof. by destruct t. Qed.
Lemma LedgerResult_parse_Ok s t : LedgerResult_parse s = Ok t ↔ s = LedgerResult_as_str t.
Proof.
  split; [|intros ->; apply LedgerResult_parse_as_str].
  intros H%ok_or_Ok. revert H. apply table_get_as_str. by repeat constructor.
Qed.
Lemma LedgerResult_as_str_inj t u : LedgerResult_as_str t = LedgerResult_as_str u → t = u.
Proof. by destruct t, u. Qed.

(** The payload keys of every type are in strict alphabetical order. *)
Lemma allowed_payload_keys_sorted t :
  StronglySorted str_lt (LedgerEntryType_allowed_payload_keys t).
Proof. apply strictly_sorted_StronglySorted. by destruct t. Qed.

Lemma LedgerSequenceNo_new_Ok z n :
  0 ≤ z → LedgerSequenceNo_new z = Ok n ↔ LedgerSequenceNo_get n = z ∧ LedgerSequenceNo_wf n.
Proof.
  destruct n as [z']. unfold LedgerSequenceNo_new, LedgerSequenceNo_wf. simpl. intros Hz.
  destruct (z =? 0) eqn:?, (LEDGER_I64_MAX_U64 <? z) eqn:?; b2p; simpl; naive_solver lia.
Qed.

Lemma LedgerHash_from_bytes_Ok b h : LedgerHash_from_bytes b = Ok h ↔ LedgerHash_wf h ∧ h = mk_LedgerHash b.
Proof. unfold LedgerHash_from_bytes. rewrite parse_array_Ok. unfold LedgerHash_wf. naive_solver. Qed.

Section ledger_type_lemmas.
Context {P : Platform}.

Lemma LedgerHash_of_payload_wf {L : Sha256Laws P} p : LedgerHash_wf (LedgerHash_from_canonical_payload p).
Proof. apply sha256_length. Qed.

Lemma LedgerHash_bytea_round_trip {L : HexLaws P} h :
  LedgerHash_wf h → LedgerHash_from_bytea_hex (LedgerHash_to_bytea_hex h) = Ok h.
Proof.
  destruct h as [b]. intros Hb. unfold LedgerHash_from_bytea_hex, LedgerHash_to_bytea_hex, LedgerHash_from_hex.
  rewrite strip_prefix_app /= hex_decode_encode /=. by apply LedgerHash_from_bytes_Ok.
Qed.

Lemma LedgerHash_hex_inj {L : HexLaws P} h1 h2 : LedgerHash_to_hex h1 = LedgerHash_to_hex h2 → h1 = h2.
Proof. destruct h1, h2. intros H%hex_encode_inj. simpl in H. congruence. Qed.

Lemma LedgerSignature_bytea_round_trip {L : HexLaws P} s :
  LedgerSignature_wf s → LedgerSignature_from_bytea_hex (LedgerSignature_to_bytea_hex s) = Ok s.
Proof.
  destruct s as [b]. intros Hb. unfold LedgerSignature_from_bytea_hex, LedgerSignature_to_bytea_hex.
  rewrite strip_prefix_app /= hex_decode_encode /=. by apply parse_array_Ok.
Qed.

Lemma LedgerEntryId_parse_canonical {L : UuidLaws P} i :
  LedgerEntryId_wf i → LedgerEntryId_parse (LedgerEntryId_as_canonical_string i) = Ok i.
Proof.
  destruct i as [u]. intros Hu. unfold LedgerEntryId_parse, ledger_parse_uuid, ledger_require_uuid_v4.
  rewrite uuid_parse_hyphenated /=. by rewrite bool_decide_eq_false_2; [|intros []].
Qed.

Lemma LedgerTargetSecretVersionId_parse_canonical {L : UuidLaws P} i :
  LedgerTargetSecretVersionId_parse (LedgerTargetSecretVersionId_as_canonical_string i) = Ok i.
Proof.
  destruct i as [u]. unfold LedgerTargetSecretVersionId_parse, ledger_parse_uuid.
  by rewrite uuid_parse_hyphenated.
Qed.

(** A target built from a stored version never fails and names that version. *)
Lemma LedgerTarget_from_version {L : UuidLaws P} v :
  LedgerTargetSecretVersionId_from_secret_version_id v
  = Ok (mk_LedgerTargetSecretVersionId (SecretVersionId_0 v)).
Proof.
  unfold LedgerTargetSecretVersionId_from_secret_version_id, LedgerTargetSecretVersionId_parse,
    ledger_parse_uuid, SecretVersionId_as_canonical_string. by rewrite uuid_parse_hyphenated.
Qed.

Lemma sign_payload_Ok {L : Ed25519Laws P} k v p :
  sk_key_version k = v →
  LedgerSigningKey_sign_payload k v p
  = Ok (mk_LedgerSignature (ed_sign (sk_signing_key k) (LedgerCanonicalPayload_as_bytes p))).
Proof.
  intros <-. unfold LedgerSigningKey_sign_payload. rewrite bool_decide_eq_true_2 //=.
  apply parse_array_Ok. by rewrite ed_sign_length.
Qed.

Lemma verify_payload_Ok k v p s :
  LedgerVerifyingKey_verify_payload k v p s = Ok tt ↔
  vk_key_version k = v
  ∧ ed_verify (vk_verifying_key k) (LedgerCanonicalPayload_as_bytes p) (LedgerSignature_as_bytes s) = true.
Proof.
  unfold LedgerVerifyingKey_verify_payload. case_bool_decide; simpl; [|naive_solver].
  destruct (ed_verify _ _ _); naive_solver.
Qed.

Lemma verifying_key_bytes_round_trip {L : Ed25519Laws P} k :
  LedgerVerifyingKey_from_public_key_bytes (vk_key_version k) (LedgerVerifyingKey_as_bytes k) = Ok k.
Proof.
  destruct k as [v k]. unfold LedgerVerifyingKey_from_public_key_bytes, LedgerVerifyingKey_as_bytes. simpl.
  by rewrite ed_verifying_key_bytes_length /= ed_verifying_key_bytes.
Qed.
End ledger_type_lemmas.

(** ** Properties *)

(** The names under which entry types, results, audit actions, audit results
    and triggers are stored are exact: a text parses to a value if and only if it
    is the name of that value, so no two values share a name and no other
    spelling is accepted. *)
Theorem stored_names_exact s :
  (∀ t, LedgerEntryType_parse s = Ok t ↔ s = LedgerEntryType_as_str t)
  ∧ (∀ r, LedgerResult_parse s = Ok r ↔ s = LedgerResult_as_str r)
  ∧ (∀ a, AuditAction_parse s = Ok a ↔ s = AuditAction_as_str a)
  ∧ (∀ r, AuditResult_parse s = Ok r ↔ s = AuditResult_as_str r)
  ∧ (∀ t, AuditTrigger_parse s = Ok t ↔ s = AuditTrigger_as_str t).
Proof.
  split_and!; intros ?; [apply LedgerEntryType_parse_Ok|apply LedgerResult_parse_Ok|apply AuditAction_parse_Ok
    |apply AuditResult_parse_Ok|apply AuditTrigger_parse_Ok].
Qed.

(** Sequence numbers stay within what both sides can hold: a [u64] is a
    sequence number exactly when it is positive and fits an [i64]; every sequence
    number converts to [i64] and back without change. *)
Theorem sequence_no_bounds z n :
  (is_u64 z → LedgerSequenceNo_new z = Ok n ↔ LedgerSequenceNo_get n = z ∧ 0 < z ≤ i64_max)
  ∧ (LedgerSequenceNo_from_i64 z = Ok n ↔ LedgerSequenceNo_get n = z ∧ 0 < z ≤ i64_max)
  ∧ (LedgerSequenceNo_wf n →
      ∃ i, LedgerSequenceNo_as_i64 n = Ok i ∧ LedgerSequenceNo_from_i64 i = Ok n).
Proof.
  assert (∀ z, LedgerSequenceNo_from_i64 z = Ok n ↔ LedgerSequenceNo_get n = z ∧ 0 < z ≤ i64_max) as Hfrom.
  { intros z'. unfold LedgerSequenceNo_from_i64. rewrite result_bind_Ok. split.
    - intros (c & [-> Hc]%ok_or_Ok%u_try_from_Some & [Hn Hwf]%LedgerSequenceNo_new_Ok); [|lia].
      unfold LedgerSequenceNo_wf in Hwf. by rewrite Hn in Hwf.
    - intros [Hn Hz]. exists z'. rewrite ok_or_Ok u_try_from_Some LedgerSequenceNo_new_Ok; [|lia].
      unfold LedgerSequenceNo_wf, LEDGER_I64_MAX_U64, u64_max, i64_max in *. lia. }
  split; [|split; [done|]].
  - intros Hz. rewrite LedgerSequenceNo_new_Ok; [|apply Hz]. unfold LedgerSequenceNo_wf. naive_solver.
  - intros Hwf. exists (LedgerSequenceNo_get n). rewrite Hfrom. unfold LedgerSequenceNo_as_i64.
    unfold LedgerSequenceNo_wf, LEDGER_I64_MAX_U64, i64_max in *. rewrite (proj2 (Z.leb_le _ _)); [|lia]. done.
Qed.
