(* ===== verification/LedgerPayload.v ===== *)
(** * Ledger payloads ([src/ledger/payload.rs], and the payload serializer of
    [src/ledger/canonical.rs])

    A payload is a flat JSON object whose keys are those its entry type allows
    and whose values pass the validator of their key. *)

From S2P Require Import Prelude RustStd Json Platform Reference Errors Types AuditTypes LedgerTypes.

(** ** Canonical form

    [CanonicalPayloadObject] writes the keys in the order of the entry type's
    table. *)
Definition CanonicalPayloadObject (entry_type : LedgerEntryType) (object : Map) : Value :=
  JObject (omap (λ key, (key,.) <$> map_get key object)
    (LedgerEntryType_allowed_payload_keys entry_type)).

(** ** Forbidden keys, at any depth *)

Definition is_forbidden_payload_key (key : str) : bool :=
  let normalized := to_ascii_lowercase (trim key) in
  str_in normalized FORBIDDEN_LEDGER_PAYLOAD_KEYS.

Definition reject_forbidden_payload_keys : Value → result LedgerError unit :=
  reject_keys is_forbidden_payload_key LedgerError_ForbiddenPayloadKey.

(** ** Validators of single fields *)

Definition require_json_u64 (key : str) (value : Value) (expected : str) : result LedgerError Z :=
  parsed ← ok_or (as_u64 value) (LedgerError_InvalidPayloadField key expected);
  if LEDGER_I64_MAX_U64 <? parsed then Err (LedgerError_InvalidPayloadField key expected)
  else Ok parsed.

Definition require_positive_json_u64 (key : str) (value : Value) : result LedgerError Z :=
  parsed ← require_json_u64 key value "a positive integer";
  if parsed =? 0 then Err (LedgerError_InvalidPayloadField key "a positive integer") else Ok parsed.

Definition require_non_negative_json_u64 (key : str) (value : Value) : result LedgerError Z :=
  require_json_u64 key value "a non-negative integer".

Definition require_string_value (key : str) (value : Value) (expected_value : str) :
    result LedgerError unit :=
  if bool_decide (as_str value = Some expected_value) then Ok tt
  else Err (LedgerError_InvalidPayloadField key expected_value).

Definition short_string_error (key : str) : LedgerError :=
  LedgerError_InvalidPayloadField key "a non-blank string at most 128 bytes".

Definition validate_classification_value (key : str) (value : Value) : result LedgerError unit :=
  text ← ok_or (as_str value) (short_string_error key);
  if is_empty (trim text) || (128 <? str_len text) then Err (short_string_error key) else Ok tt.

Definition validate_non_blank_short_string (key : str) (value : Value) : result LedgerError unit :=
  text ← ok_or (as_str value) (short_string_error key);
  if is_empty (trim text) || (128 <? str_len text) then Err (short_string_error key) else Ok tt.

Definition invalid_trigger_payload_field (key : str) : LedgerError :=
  LedgerError_InvalidPayloadField key "one of background, cli, startup".
Definition validate_trigger_value (key : str) (value : Value) : result LedgerError unit :=
  trigger ← ok_or (as_str value) (invalid_trigger_payload_field key);
  _ ← AuditTrigger_parse trigger !? (λ _, invalid_trigger_payload_field key);
  Ok tt.

Definition validate_string_enum_value (key : str) (value : Value) (allowed : list str) :
    result LedgerError unit :=
  text ← ok_or (as_str value) (LedgerError_InvalidPayloadField key "an allowed string value");
  if str_in text allowed then Ok tt
  else Err (LedgerError_InvalidPayloadField key "an allowed string value").

Definition validate_incident_type_value (key : str) (value : Value) : result LedgerError unit :=
  validate_string_enum_value key value
    ["hash_chain_mismatch"; "signature_mismatch"; "monthly_digest_mismatch";
     "digest_timestamping_mismatch"; "archive_export_mismatch"; "sequence_gap";
     "unknown_signature_key"; "non_auditor_ledger_read"; "ledger_secret_leak_suspected";
     "siem_long_failure"; "audit_ui_forbidden_operation"]%string.

(** [bytes[4] == b'-' && ...] on seven bytes: the conjunction is evaluated
    from the left, so no index is out of range. *)
Definition validate_year_month_value (key : str) (value : Value) : result LedgerError unit :=
  let error := LedgerError_InvalidPayloadField key "a string in YYYY-MM format" in
  text ← ok_or (as_str value) error;
  let b := chars text in
  let is_valid :=
    (length b =? 7)%nat
    && bool_decide (b !! 4%nat = Some "-"%char)
    && forallb is_ascii_digit (take 4 b)
    && forallb is_ascii_digit (drop 5 b)
    && (let month := default 0 (parse_u8 (slice_from text 5)) in (1 <=? month) && (month <=? 12)) in
  if negb is_valid then Err error else Ok tt.

Definition validate_digest_hash_value (key : str) (value : Value) : result LedgerError unit :=
  let error := LedgerError_InvalidPayloadField key "a 64-character lowercase hex string" in
  text ← ok_or (as_str value) error;
  if negb (str_len text =? 64)
     || negb (forallb (λ c, is_ascii_hexdigit c && negb (is_ascii_uppercase c)) (chars text))
  then Err error else Ok tt.

Section payload.
Context {P : Platform}.

Definition validate_source_event_at_value (key : str) (value : Value) : result LedgerError unit :=
  let error := LedgerError_InvalidPayloadField key "an RFC3339 UTC timestamp ending with Z" in
  text ← ok_or (as_str value) error;
  _ ← SourceEventAt_parse text !? (λ _, error);
  Ok tt.

(** ** The field dispatch *)

Definition positive_keys : list str :=
  ["version"; "key_version"; "old_key_version"; "new_key_version"; "signature_key_version";
   "retention_limit"; "start_sequence_no"; "end_sequence_no"; "entry_count";
   "target_sequence_no"]%string.
Definition count_keys : list str :=
  ["batch_size"; "checked_audit_event_count"; "checked_count"; "checked_secret_count";
   "checked_secret_version_count"; "duration_ms"; "failed_count"; "failure_count";
   "processed_count"; "remaining_count"; "resent_count"; "sample_count"; "success_count";
   "violation_count"]%string.
Definition short_string_keys : list str :=
  ["error_code"; "reason_code"; "archive_key"; "job_name"; "detection_source"; "dedupe_key";
   "notification_sink"]%string.
Definition hash_keys : list str :=
  ["digest_hash"; "timestamp_token_hash"; "public_key_fingerprint"]%string.
Definition timestamp_keys : list str := ["created_at"; "activated_at"; "retired_at"]%string.

Definition validate_payload_field (key : str) (value : Value) : result LedgerError unit :=
  if str_in key positive_keys then
    parsed ← require_positive_json_u64 key value;
    if String.eqb key "retention_limit" && negb (parsed =? 4)
    then Err (LedgerError_InvalidPayloadField key "the integer 4") else Ok tt
  else if str_in key count_keys then
    _ ← require_non_negative_json_u64 key value; Ok tt
  else if String.eqb key "algorithm" then require_string_value key value "xchacha20-poly1305"
  else if String.eqb key "classification" then validate_classification_value key value
  else if String.eqb key "trigger" then validate_trigger_value key value
  else if str_in key short_string_keys then validate_non_blank_short_string key value
  else if String.eqb key "incident_type" then validate_incident_type_value key value
  else if String.eqb key "severity" then
    validate_string_enum_value key value ["critical"; "high"; "medium"; "low"]%string
  else if String.eqb key "notification_result" then
    validate_string_enum_value key value ["sent"; "failed"; "suppressed"; "not_configured"]%string
  else if String.eqb key "target_year_month" then validate_year_month_value key value
  else if str_in key hash_keys then validate_digest_hash_value key value
  else if str_in key timestamp_keys then validate_source_event_at_value key value
  else Err (LedgerError_UnknownPayloadKey key LedgerEntryType_SecretCreated).

(** ** Whole objects *)

Definition required_incident_keys : list str :=
  ["incident_type"; "severity"; "detection_source"; "dedupe_key"; "notification_sink";
   "notification_result"]%string.

Definition validate_required_payload_keys (entry_type : LedgerEntryType) (object : Map) :
    result LedgerError unit :=
  if negb (bool_decide (entry_type = LedgerEntryType_IncidentDetected)) then Ok tt else
  try_for_each (λ key,
    if negb (map_contains_key key object)
    then Err (LedgerError_InvalidPayloadField key "a required incident_detected payload key")
    else Ok tt) required_incident_keys.

Definition validate_old_new_key_versions (object : Map) : result LedgerError unit :=
  match map_get "old_key_version" object with
  | None => Ok tt
  | Some old_value =>
      match map_get "new_key_version" object with
      | None => Ok tt
      | Some new_value =>
          old_key_version ← require_positive_json_u64 "old_key_version" old_value;
          new_key_version ← require_positive_json_u64 "new_key_version" new_value;
          if old_key_version =? new_key_version
          then Err (LedgerError_InvalidPayloadField "new_key_version"
            "a different value from old_key_version")
          else Ok tt
      end
  end.

Definition is_scalar (value : Value) : bool :=
  match value with JObject _ | JArray _ => false | _ => true end.

Definition validate_payload_entry (entry_type : LedgerEntryType) (p : str * Value) :
    result LedgerError unit :=
  let '(key, value) := p in
  if negb (str_in key (LedgerEntryType_allowed_payload_keys entry_type))
  then Err (LedgerError_UnknownPayloadKey key entry_type)
  else if negb (is_scalar value) then Err (LedgerError_PayloadValueMustBeScalar key)
  else validate_payload_field key value.

Definition validate_payload_object (entry_type : LedgerEntryType) (object : Map) :
    result LedgerError unit :=
  _ ← try_for_each (validate_payload_entry entry_type) object;
  _ ← validate_required_payload_keys entry_type object;
  validate_old_new_key_versions object.

Definition ensure_payload_size (entry_type : LedgerEntryType) (object : Map) :
    result LedgerError unit :=
  bytes ← serde_to_vec (CanonicalPayloadObject entry_type object) !? LedgerError_SerializationFailed;
  if LEDGER_PAYLOAD_MAX_CANONICAL_BYTES <? zlen bytes
  then Err (LedgerError_PayloadTooLarge LEDGER_PAYLOAD_MAX_CANONICAL_BYTES) else Ok tt.
End payload.

Record LedgerPayload := mk_LedgerPayload {
  payload_entry_type : LedgerEntryType;
  payload_object : Map;
}.
#[global] Instance LedgerPayload_eq_dec : EqDecision LedgerPayload.
Proof. solve_decision. Defined.

Section ledger_payload.
Context {P : Platform}.

Definition LedgerPayload_new (entry_type : LedgerEntryType) (value : Value) :
    result LedgerError LedgerPayload :=
  object ← ok_or (as_object value) LedgerError_PayloadMustBeObject;
  _ ← reject_forbidden_payload_keys (JObject object);
  _ ← validate_payload_object entry_type object;
  _ ← ensure_payload_size entry_type object;
  Ok (mk_LedgerPayload entry_type object).

Definition LedgerPayload_empty (entry_type : LedgerEntryType) : result LedgerError LedgerPayload :=
  LedgerPayload_new entry_type (JObject []).
Definition LedgerPayload_as_value (p : LedgerPayload) : Value := JObject (payload_object p).
Definition LedgerPayload_canonical_serializer (p : LedgerPayload) : Value :=
  CanonicalPayloadObject (payload_entry_type p) (payload_object p).

(** The invariant [new] establishes, over a map as [serde_json] keeps it. *)
Definition LedgerPayload_wf (p : LedgerPayload) : Prop :=
  representable (LedgerPayload_as_value p) = true
  ∧ LedgerPayload_new (payload_entry_type p) (LedgerPayload_as_value p) = Ok p.
End ledger_payload.

(** ** Lemmas *)

Section payload_lemmas.
Context {P : Platform}.

Lemma LedgerPayload_new_Ok t v p :
  LedgerPayload_new t v = Ok p ↔
  v = JObject (payload_object p) ∧ payload_entry_type p = t
  ∧ reject_forbidden_payload_keys (JObject (payload_object p)) = Ok tt
  ∧ validate_payload_object t (payload_object p) = Ok tt
  ∧ ensure_payload_size t (payload_object p) = Ok tt.
Proof.
  unfold LedgerPayload_new. split.
  - intros H. inv_ok. by destruct v; simplify_eq/=.
  - destruct p as [t' o]. cbn [payload_object payload_entry_type]. intros (-> & -> & H1 & H2 & H3).
    change (as_object (JObject o)) with (Some o). cbn [ok_or mbind result_bind].
    rewrite H1. cbn [mbind result_bind]. by rewrite H2 /= H3.
Qed.

Lemma LedgerPayload_new_wf t v p :
  representable v = true → LedgerPayload_new t v = Ok p → LedgerPayload_wf p.
Proof.
  intros Hv H. unfold LedgerPayload_wf, LedgerPayload_as_value.
  pose proof H as (-> & <- & _)%LedgerPayload_new_Ok. done.
Qed.

(** A payload written as a list of fields in key order. *)
Lemma LedgerPayload_new_fields t l p :
  strictly_sorted l.*1 = true → Forall (λ q, representable q.2 = true) l →
  LedgerPayload_new t (JObject (map_of_list l)) = Ok p →
  LedgerPayload_wf p ∧ payload_object p = l ∧ payload_entry_type p = t.
Proof.
  intros Hs Hl H. pose proof (strictly_sorted_StronglySorted _ Hs) as Hss.
  rewrite map_of_list_sorted // in H. split.
  - eapply LedgerPayload_new_wf; [|done]. cbn [representable]. apply andb_true_iff. split; [done|].
    by apply forallb_forall, List.Forall_forall.
  - by apply LedgerPayload_new_Ok in H as ([= ->] & -> & _).
Qed.

Lemma validate_payload_object_Ok t o :
  validate_payload_object t o = Ok tt ↔
  Forall (λ p, p.1 ∈ LedgerEntryType_allowed_payload_keys t ∧ is_scalar p.2 = true
    ∧ validate_payload_field p.1 p.2 = Ok tt) o
  ∧ validate_required_payload_keys t o = Ok tt ∧ validate_old_new_key_versions o = Ok tt.
Proof.
  assert (∀ p, validate_payload_entry t p = Ok tt ↔
    p.1 ∈ LedgerEntryType_allowed_payload_keys t ∧ is_scalar p.2 = true
    ∧ validate_payload_field p.1 p.2 = Ok tt) as Hp.
  { intros [k v]. unfold validate_payload_entry, str_in. simpl. case_bool_decide; simpl; [|naive_solver].
    destruct (is_scalar v); naive_solver. }
  unfold validate_payload_object. rewrite result_bind_Ok. split.
  - intros ([] & H1%try_for_each_Ok & H2). inv_ok. split; [|done].
    eapply Forall_impl; [done|]. intros p. apply Hp.
  - intros (H1 & H2 & H3). exists tt. split; [|by rewrite H2].
    apply try_for_each_Ok. eapply Forall_impl; [done|]. intros p. apply Hp.
Qed.

(** Validated values are short: an integer within [i64], or a string. *)
Lemma validate_payload_field_value k v :
  validate_payload_field k v = Ok tt →
  (∃ s, v = JString s) ∨ (∃ z, v = json_uint z ∧ z ≤ LEDGER_I64_MAX_U64).
Proof.
  assert (∀ v e z, require_json_u64 k v e = Ok z → v = json_uint z ∧ z ≤ LEDGER_I64_MAX_U64) as Hnum.
  { unfold require_json_u64. intros v' e z H. inv_ok. case_if; [done|]. b2p. inv_ok.
    by destruct v' as [| |[]| | |]; simplify_eq/=. }
  assert (∀ v s, as_str v = Some s → ∃ s, v = JString s) as Hstr.
  { intros [] ? ?; simplify_eq/=. by eexists. }
  unfold validate_payload_field, require_positive_json_u64, require_non_negative_json_u64,
    require_string_value, validate_classification_value, validate_trigger_value,
    validate_non_blank_short_string, validate_incident_type_value, validate_string_enum_value,
    validate_year_month_value, validate_digest_hash_value, validate_source_event_at_value.
  intros H. repeat (case_if; [inv_ok; try by eauto|]); try done.
  case_bool_decide; [|done]. eauto.
Qed.

Lemma ensure_payload_size_Ok t o :
  ensure_payload_size t o = Ok tt ↔
  ∃ s, serde_to_string (CanonicalPayloadObject t o) = Ok s
    ∧ str_len s ≤ LEDGER_PAYLOAD_MAX_CANONICAL_BYTES.
Proof.
  unfold ensure_payload_size, serde_to_vec, zlen, str_len. split.
  - intros H. inv_ok. case_if; [done|]. b2p. rewrite length_as_bytes in Heqb. naive_solver.
  - intros (s & -> & Hs). simpl. rewrite length_as_bytes.
    by rewrite (proj2 (Z.ltb_ge _ _) Hs).
Qed.

(** No key that an entry type allows is a forbidden one. *)
Lemma allowed_key_not_forbidden t k :
  k ∈ LedgerEntryType_allowed_payload_keys t → is_forbidden_payload_key k = false.
Proof.
  intros Hk. assert (Forall (λ k, is_forbidden_payload_key k = false)
    (LedgerEntryType_allowed_payload_keys t)) as H.
  { destruct t; repeat (constructor; [by vm_compute|]); constructor. }
  by eapply Forall_forall in H.
Qed.

Section wf.
Context (p : LedgerPayload) (Hwf : LedgerPayload_wf p).

Lemma payload_sorted : map_sorted (payload_object p).
Proof. by destruct Hwf as [[? _]%representable_object _]. Qed.

Lemma payload_fields :
  Forall (λ q, q.1 ∈ LedgerEntryType_allowed_payload_keys (payload_entry_type p)
    ∧ is_scalar q.2 = true ∧ validate_payload_field q.1 q.2 = Ok tt) (payload_object p).
Proof. by destruct Hwf as (_ & (_ & _ & _ & (? & _)%validate_payload_object_Ok & _)%LedgerPayload_new_Ok). Qed.

(** The canonical form loses nothing: it is the object itself. *)
Lemma payload_canonical_object :
  LedgerPayload_canonical_serializer p = JObject (payload_object p).
Proof.
  unfold LedgerPayload_canonical_serializer, CanonicalPayloadObject. f_equal.
  apply omap_get_sorted; [apply allowed_payload_keys_sorted|apply payload_sorted|].
  intros k ([k' v] & -> & Hin)%list_elem_of_fmap.
  pose proof payload_fields as Hf. rewrite Forall_forall in Hf. by apply Hf in Hin as [? _].
Qed.

Lemma payload_values_exact :
  Forall (λ q, json_exact 126 q.2 = true ∧ normalize q.2 = q.2) (payload_object p)
  ∧ Forall (λ q, json_exact 125 q.2 = true) (payload_object p).
Proof.
  destruct Hwf as [[_ Hrep]%representable_object _].
  pose proof (proj2 (Forall_and _ _) (conj payload_fields Hrep)) as Hf.
  split; (eapply Forall_impl; [exact Hf|]); intros [k v] [(_ & _ & Hv) Hr]; cbn [snd] in *;
    apply validate_payload_field_value in Hv as [[s ->]|(z & -> & Hz)]; try done;
    unfold json_uint in *; cbn in Hr |- *; auto.
Qed.

(** An accepted payload, embedded in a document, is determined by its text. *)
Lemma payload_exact :
  json_exact 126 (LedgerPayload_canonical_serializer p) = true
  ∧ normalize (LedgerPayload_canonical_serializer p) = LedgerPayload_as_value p.
Proof.
  rewrite payload_canonical_object. destruct payload_values_exact as [H126 H125]. split.
  - assert (∀ d, NoDup (payload_object p).*1 → Forall (λ q, json_exact d q.2 = true) (payload_object p) →
      json_exact (S d) (JObject (payload_object p)) = true) as H.
    { intros d Hnd Hd. cbn [json_exact]. apply andb_true_iff. split; [by apply bool_decide_eq_true|].
      apply forallb_forall. by apply List.Forall_forall. }
    apply (H 125%nat); [apply map_sorted_NoDup, payload_sorted|done].
  - unfold LedgerPayload_as_value. cbn [normalize]. f_equal.
    assert (List.map (λ q, (q.1, normalize q.2)) (payload_object p) = payload_object p) as ->.
    { rewrite -{2}(List.map_id (payload_object p)). apply List.map_ext_Forall.
      eapply Forall_impl; [exact H126|]. intros [k v] [_ Hn]. cbn [fst snd] in *. by rewrite Hn. }
    apply map_of_list_sorted, payload_sorted.
Qed.
End wf.
End payload_lemmas.

(** ** Properties *)

Section payload_theorems.
Context {P : Platform}.

(** A payload with a forbidden key anywhere, in a nested object or array and
    in any case or surrounded by white space, is refused with an error that
    names such a key, before anything else about it is checked; and an accepted
    payload has none. *)
Theorem payload_forbidden_keys t o :
  (∀ k, key_occurs k (JObject o) → is_forbidden_payload_key k = true →
     ∃ k', LedgerPayload_new t (JObject o) = Err (LedgerError_ForbiddenPayloadKey k')
       ∧ key_occurs k' (JObject o) ∧ is_forbidden_payload_key k' = true)
  ∧ (∀ p k, LedgerPayload_new t (JObject o) = Ok p → key_occurs k (JObject o) →
       is_forbidden_payload_key k = false).
Proof.
  pose proof (reject_keys_spec is_forbidden_payload_key LedgerError_ForbiddenPayloadKey (JObject o)) as Hspec.
  change (reject_keys _ _) with reject_forbidden_payload_keys in Hspec. unfold LedgerPayload_new.
  cbn [as_object ok_or mbind result_bind].
  destruct (reject_forbidden_payload_keys (JObject o)) as [[]|e]; cbn [keys_verdict] in Hspec.
  - split; [intros k Hk Hf; by rewrite Hspec in Hf|]. intros p k _. apply Hspec.
  - destruct Hspec as (k' & -> & Hk' & Hf'). split; [by eauto|done].
Qed.

(** What the ledger stores as a payload is flat and bounded: every key is one
    the entry type allows, every value is a text or an integer within [i64], the
    canonical form is the object itself and has at most 8192 bytes, and two
    accepted payloads with the same canonical text are equal. *)
Theorem accepted_payload_canonical {LS : SerdeLaws P} t v p :
  representable v = true → LedgerPayload_new t v = Ok p →
  Forall (λ q, q.1 ∈ LedgerEntryType_allowed_payload_keys t
    ∧ ((∃ s, q.2 = JString s) ∨ ∃ z, q.2 = json_uint z ∧ z ≤ i64_max)) (payload_object p)
  ∧ LedgerPayload_canonical_serializer p = v
  ∧ (∃ s, serde_to_string (LedgerPayload_canonical_serializer p) = Ok s ∧ str_len s ≤ 8192)
  ∧ ∀ v2 p2, representable v2 = true → LedgerPayload_new t v2 = Ok p2 →
      serde_to_string (LedgerPayload_canonical_serializer p2)
      = serde_to_string (LedgerPayload_canonical_serializer p) → p2 = p.
Proof.
  intros Hv H. pose proof (LedgerPayload_new_wf _ _ _ Hv H) as Hwf.
  pose proof H as (-> & Ht & _ & _ & Hsize)%LedgerPayload_new_Ok. split_and!.
  - eapply Forall_impl; [exact (payload_fields p Hwf)|]. intros q (Hk & _ & Hq%validate_payload_field_value).
    rewrite Ht in Hk. done.
  - by apply payload_canonical_object.
  - apply ensure_payload_size_Ok in Hsize as (s & Hs & Hlen). exists s. split; [|done].
    unfold LedgerPayload_canonical_serializer. by rewrite Ht.
  - intros v2 p2 Hv2 H2 Heq. pose proof (LedgerPayload_new_wf _ _ _ Hv2 H2) as Hwf2.
    pose proof H2 as (-> & Ht2 & _)%LedgerPayload_new_Ok.
    apply ensure_payload_size_Ok in Hsize as (s & Hs & _).
    destruct (payload_exact p Hwf) as [He Hn], (payload_exact p2 Hwf2) as [He2 Hn2].
    assert (serde_to_string (LedgerPayload_canonical_serializer p) = Ok s) as Hp.
    { unfold LedgerPayload_canonical_serializer. by rewrite Ht. }
    rewrite Hp in Heq. apply json_exact_S in He, He2.
    pose proof (serde_to_string_inj _ _ _ He2 He Heq Hp) as Hj. rewrite Hn Hn2 in Hj.
    destruct p as [t1 o1], p2 as [t2 o2]. cbn [LedgerPayload_as_value payload_object payload_entry_type] in *.
    unfold LedgerPayload_as_value in Hj. cbn [payload_object] in Hj. by simplify_eq.
Qed.

(** The keys the dispatch knows. *)
Definition validated_keys : list str :=
  positive_keys ++ count_keys ++ short_string_keys ++ hash_keys ++ timestamp_keys
  ++ ["algorithm"; "classification"; "trigger"; "incident_type"; "severity"; "notification_result";
      "target_year_month"]%string.

Lemma unknown_key_not_validated k v k' t' :
  validate_payload_field k v = Err (LedgerError_UnknownPayloadKey k' t') → k ∉ validated_keys.
Proof.
  unfold validate_payload_field, require_positive_json_u64, require_non_negative_json_u64, require_json_u64,
    require_string_value, validate_classification_value, validate_trigger_value,
    validate_non_blank_short_string, validate_incident_type_value, validate_string_enum_value,
    validate_year_month_value, validate_digest_hash_value, validate_source_event_at_value,
    invalid_trigger_payload_field, short_string_error, str_in, mbind, result_bind, ok_or, map_err.
  intros H. repeat (case_if; [exfalso; repeat (case_match; simplify_eq/=)|]). b2p.
  repeat select (String.eqb _ _ = false) (fun H => apply String.eqb_neq in H).
  unfold validated_keys. rewrite !not_elem_of_app. split_and!; [done..|]. set_solver.
Qed.

(** Every key an entry type allows has a validator: the dispatch on keys
    never falls through to its unknown-key error for an allowed key. *)
Theorem payload_dispatch_complete t k v :
  k ∈ LedgerEntryType_allowed_payload_keys t →
  ∀ k' t', validate_payload_field k v ≠ Err (LedgerError_UnknownPayloadKey k' t').
Proof.
  intros Hk k' t' H%unknown_key_not_validated. apply H.
  assert (Forall (.∈ validated_keys) (LedgerEntryType_allowed_payload_keys t)) as Hall.
  { apply (bool_decide_unpack _). by destruct t; vm_compute. }
  rewrite Forall_forall in Hall. by apply Hall.
Qed.
End payload_theorems.

Section payload_witnesses.
#[local] Existing Instance reference.

Definition sample_purge_payload : Value :=
  JObject [("key_version", json_uint 1); ("retention_limit", json_uint 4); ("version", json_uint 9)]%string.

Lemma payload_forbidden_keys_witness :
  ∃ k, LedgerPayload_new LedgerEntryType_SecretCreated
      (JObject [("version", JArray [JObject [(" Plaintext", JNull)]])]%string)
    = Err (LedgerError_ForbiddenPayloadKey k).
Proof.
  destruct (proj1 (payload_forbidden_keys LedgerEntryType_SecretCreated
    [("version", JArray [JObject [(" Plaintext", JNull)]])]%string) " Plaintext"%string)
    as (k & H & _); [|reflexivity|exists k; exact H].
  eapply occurs_in_field; [by left|]. eapply occurs_in_item; [by left|]. eapply occurs_here. by left.
Defined.

Lemma accepted_payload_canonical_witness :
  ∃ p, LedgerPayload_new LedgerEntryType_SecretVersionPurged sample_purge_payload = Ok p
    ∧ LedgerPayload_canonical_serializer p = sample_purge_payload.
Proof.
  destruct (is_ok_inv (LedgerPayload_new LedgerEntryType_SecretVersionPurged sample_purge_payload))
    as [p E]; [vm_compute; reflexivity|].
  exists p. split; [exact E|].
  exact (proj1 (proj2 (accepted_payload_canonical LedgerEntryType_SecretVersionPurged sample_purge_payload p eq_refl E))).
Defined.

Lemma payload_dispatch_complete_witness :
  is_ok (validate_payload_field "retention_limit" (json_uint 5)) = false
  ∧ validate_payload_field "retention_limit" (json_uint 5)
    ≠ Err (LedgerError_UnknownPayloadKey "retention_limit" LedgerEntryType_SecretCreated).
Proof.
  split; [reflexivity|]. apply (payload_dispatch_complete LedgerEntryType_SecretVersionPurged).
  apply (bool_decide_unpack _). vm_compute. reflexivity.
Defined.
End payload_witnesses.
