(* ===== verification/LedgerEntry.v ===== *)
(** * Ledger entries ([src/ledger/{canonical,entry}.rs])

    An entry is drafted from validated fields, serialized to its canonical
    bytes, hashed and signed.  The fourteen fields that the source repeats in
    [CanonicalBuildFields], the drafts, the signed entries and their [Parts] are
    the record [CanonicalBuildFields] here, shared by the other four. *)

From S2P Require Import Prelude RustStd Json Platform Errors Types AuditTypes LedgerTypes LedgerPayload.

Section entry.
Context {P : Platform}.

Record CanonicalBuildFields := mk_CanonicalBuildFields {
  cf_sequence_no : LedgerSequenceNo;
  cf_entry_type : LedgerEntryType;
  cf_source_event_at : SourceEventAt;
  cf_request_id : RequestId;
  cf_source_event_id : option AuditEventId;
  cf_target_secret_id : option SecretId;
  cf_target_secret_version_id : option LedgerTargetSecretVersionId;
  cf_actor_user_id : option OwnerUserId;
  cf_actor_device_id : option DeviceId;
  cf_result : LedgerResult;
  cf_error_code : option str;
  cf_payload : LedgerPayload;
  cf_previous_entry_hash : LedgerHash;
  cf_signature_key_version : LedgerSignatureKeyVersion;
}.

(** [#[derive(Serialize)] struct CanonicalLedgerDocument]: the fields in
    declaration order. *)
Definition CanonicalLedgerDocument (sequence_no : Z) (entry_type source_event_at request_id : str)
    (source_event_id target_secret_id target_secret_version_id actor_user_id actor_device_id : option str)
    (result : str) (error_code : option str) (payload : Value) (previous_entry_hash : str)
    (signature_key_version : Z) : Map :=
  [("schema", JString LEDGER_CANONICAL_SCHEMA_V1);
   ("sequence_no", json_uint sequence_no);
   ("entry_type", JString entry_type);
   ("source_event_at", JString source_event_at);
   ("request_id", JString request_id);
   ("source_event_id", json_opt_str source_event_id);
   ("target_secret_id", json_opt_str target_secret_id);
   ("target_secret_version_id", json_opt_str target_secret_version_id);
   ("actor_user_id", json_opt_str actor_user_id);
   ("actor_device_id", json_opt_str actor_device_id);
   ("result", JString result);
   ("error_code", json_opt_str error_code);
   ("payload", payload);
   ("canonicalization_version", json_uint LEDGER_CANONICALIZATION_VERSION_V1);
   ("previous_entry_hash", JString previous_entry_hash);
   ("hash_algorithm", JString LEDGER_HASH_ALGORITHM_SHA256);
   ("signature_algorithm", JString LEDGER_SIGNATURE_ALGORITHM_ED25519);
   ("signature_key_version", json_uint signature_key_version)]%string.

Definition canonical_document (fields : CanonicalBuildFields) : Map :=
  CanonicalLedgerDocument
    (LedgerSequenceNo_get (cf_sequence_no fields))
    (LedgerEntryType_as_str (cf_entry_type fields))
    (SourceEventAt_as_str (cf_source_event_at fields))
    (RequestId_as_canonical_string (cf_request_id fields))
    (AuditEventId_as_canonical_string <$> cf_source_event_id fields)
    (SecretId_as_canonical_string <$> cf_target_secret_id fields)
    (LedgerTargetSecretVersionId_as_canonical_string <$> cf_target_secret_version_id fields)
    (OwnerUserId_as_canonical_string <$> cf_actor_user_id fields)
    (DeviceId_as_str <$> cf_actor_device_id fields)
    (LedgerResult_as_str (cf_result fields))
    (cf_error_code fields)
    (LedgerPayload_canonical_serializer (cf_payload fields))
    (LedgerHash_to_hex (cf_previous_entry_hash fields))
    (LedgerSignatureKeyVersion_get (cf_signature_key_version fields)).

Definition build_canonical_payload (fields : CanonicalBuildFields) :
    result LedgerError LedgerCanonicalPayload :=
  bytes ← serde_to_vec (JObject (canonical_document fields)) !? LedgerError_SerializationFailed;
  Ok (mk_LedgerCanonicalPayload bytes).

(** ** Drafts *)

Definition validate_error_code (result : LedgerResult) (error_code : option str) (field : str) :
    Prelude.result LedgerError unit :=
  if bool_decide (result = LedgerResult_Success) && bool_decide (is_Some error_code)
  then Err (LedgerError_InvalidErrorCode field)
  else match error_code with
  | Some value =>
      if is_empty (trim value) || (128 <? str_len value)
      then Err (LedgerError_InvalidErrorCode field) else Ok tt
  | None => Ok tt
  end.

Definition validate_actor_device_id (actor_device_id : option DeviceId) : result LedgerError unit :=
  match actor_device_id with
  | Some device_id =>
      if 128 <? str_len (DeviceId_as_str device_id) then Err LedgerError_InvalidActorDeviceId else Ok tt
  | None => Ok tt
  end.

(** The checks [LedgerEntryDraft::new] and [SignedLedgerEntry::from_stored_parts]
    both start with. *)
Definition validate_entry_fields (fields : CanonicalBuildFields) : result LedgerError unit :=
  if negb (bool_decide (payload_entry_type (cf_payload fields) = cf_entry_type fields))
  then Err (LedgerError_UnknownPayloadKey "payload.entry_type" (cf_entry_type fields)) else
  _ ← validate_error_code (cf_result fields) (cf_error_code fields) "error_code";
  validate_actor_device_id (cf_actor_device_id fields).

Record LedgerEntryDraftParts := mk_LedgerEntryDraftParts {
  dp_ledger_entry_id : LedgerEntryId;
  dp_fields : CanonicalBuildFields;
}.
Record LedgerEntryDraft := mk_LedgerEntryDraft {
  draft_ledger_entry_id : LedgerEntryId;
  draft_fields : CanonicalBuildFields;
}.

Definition LedgerEntryDraft_new (parts : LedgerEntryDraftParts) : result LedgerError LedgerEntryDraft :=
  _ ← validate_entry_fields (dp_fields parts);
  Ok (mk_LedgerEntryDraft (dp_ledger_entry_id parts) (dp_fields parts)).

Definition LedgerEntryDraft_canonical_payload (draft : LedgerEntryDraft) :
    result LedgerError LedgerCanonicalPayload :=
  build_canonical_payload (draft_fields draft).

(** ** Signed entries *)

Record SignedLedgerEntry := mk_SignedLedgerEntry {
  se_ledger_entry_id : LedgerEntryId;
  se_fields : CanonicalBuildFields;
  se_canonical_payload : LedgerCanonicalPayload;
  se_entry_hash : LedgerHash;
  se_signature : LedgerSignature;
}.
Definition se_sequence_no (e : SignedLedgerEntry) : Z :=
  LedgerSequenceNo_get (cf_sequence_no (se_fields e)).
Definition se_previous_entry_hash (e : SignedLedgerEntry) : LedgerHash :=
  cf_previous_entry_hash (se_fields e).
Definition se_signature_key_version (e : SignedLedgerEntry) : LedgerSignatureKeyVersion :=
  cf_signature_key_version (se_fields e).

Definition LedgerEntryDraft_sign (draft : LedgerEntryDraft) (signing_key : LedgerSigningKey) :
    result LedgerError SignedLedgerEntry :=
  canonical_payload ← LedgerEntryDraft_canonical_payload draft;
  let entry_hash := LedgerHash_from_canonical_payload canonical_payload in
  signature ← LedgerSigningKey_sign_payload signing_key
    (cf_signature_key_version (draft_fields draft)) canonical_payload;
  Ok (mk_SignedLedgerEntry (draft_ledger_entry_id draft) (draft_fields draft) canonical_payload
    entry_hash signature).

Record SignedLedgerEntryParts := mk_SignedLedgerEntryParts {
  sp_ledger_entry_id : LedgerEntryId;
  sp_fields : CanonicalBuildFields;
  sp_entry_hash : LedgerHash;
  sp_signature : LedgerSignature;
}.

Definition SignedLedgerEntry_from_stored_parts (parts : SignedLedgerEntryParts) :
    result LedgerError SignedLedgerEntry :=
  _ ← validate_entry_fields (sp_fields parts);
  canonical_payload ← build_canonical_payload (sp_fields parts);
  Ok (mk_SignedLedgerEntry (sp_ledger_entry_id parts) (sp_fields parts) canonical_payload
    (sp_entry_hash parts) (sp_signature parts)).

Definition SignedLedgerEntry_recompute_entry_hash (e : SignedLedgerEntry) : LedgerHash :=
  LedgerHash_from_canonical_payload (se_canonical_payload e).

Definition SignedLedgerEntry_verify_signature (e : SignedLedgerEntry) (key : LedgerVerifyingKey) :
    result LedgerError unit :=
  LedgerVerifyingKey_verify_payload key (se_signature_key_version e) (se_canonical_payload e)
    (se_signature e).

(** ** Invariants *)

Definition fields_wf (f : CanonicalBuildFields) : Prop :=
  LedgerSequenceNo_wf (cf_sequence_no f)
  ∧ LedgerSignatureKeyVersion_wf (cf_signature_key_version f)
  ∧ LedgerPayload_wf (cf_payload f)
  ∧ payload_entry_type (cf_payload f) = cf_entry_type f.

(** What both constructors of a signed entry establish: its canonical bytes are
    those of its fields. *)
Definition SignedLedgerEntry_wf (e : SignedLedgerEntry) : Prop :=
  fields_wf (se_fields e) ∧ build_canonical_payload (se_fields e) = Ok (se_canonical_payload e).

(** ** Lemmas *)

Lemma build_canonical_payload_Ok f b :
  build_canonical_payload f = Ok b ↔
  ∃ s, serde_to_string (JObject (canonical_document f)) = Ok s ∧ b = mk_LedgerCanonicalPayload (as_bytes s).
Proof.
  unfold build_canonical_payload. split.
  - intros H. inv_ok. apply serde_to_vec_Ok in H as (s & ? & ->). by exists s.
  - intros (s & Hs & ->). unfold serde_to_vec. by rewrite Hs.
Qed.

Lemma canonical_document_keys f g : (canonical_document f).*1 = (canonical_document g).*1.
Proof. done. Qed.

Lemma canonical_document_exact f :
  fields_wf f → json_exact json_max_depth (JObject (canonical_document f)) = true.
Proof.
  intros (Hs & Hk & Hp & _). apply json_exact_object. split; [by decide_keys|].
  destruct (payload_exact _ Hp) as [Hx _].
  assert (∀ o, json_exact 126 (json_opt_str o) = true) as Ho by (by intros []).
  unfold LedgerSequenceNo_wf, LEDGER_I64_MAX_U64, LedgerSignatureKeyVersion_wf, nonzero_u32, u32_max in *.
  assert (∀ z, 0 < z ≤ 9223372036854775807 → json_exact 126 (json_uint z) = true) as Hz.
  { intros z Hz. cbn. apply andb_true_iff; split; apply Z.leb_le; unfold u64_max; lia. }
  repeat constructor; cbn [snd]; try done; try apply Ho; try (apply Hz; lia).
Qed.

Lemma json_opt_str_inj {A} (g : A → str) o1 o2 :
  (∀ a b, g a = g b → a = b) →
  normalize (json_opt_str (g <$> o1)) = normalize (json_opt_str (g <$> o2)) → o1 = o2.
Proof. intros Hg. destruct o1, o2; simpl; intros ?; simplify_eq; f_equal; auto. Qed.
End entry.

(** Identifiers are determined by their canonical text. *)
Ltac uuid_inj := intros [] [] E%uuid_hyphenated_inj; simpl in E; congruence.

Section entry_lemmas.
Context {P : Platform}.

(** Canonical bytes determine every field of an entry. *)
Lemma build_canonical_payload_inj {LU : UuidLaws P} {LS : SerdeLaws P} {LH : HexLaws P} f g b :
  fields_wf f → fields_wf g →
  build_canonical_payload f = Ok b → build_canonical_payload g = Ok b → f = g.
Proof.
  intros Hf Hg (s & Hs & ->)%build_canonical_payload_Ok (t & Ht & [= Heq%as_bytes_inj])%build_canonical_payload_Ok.
  subst t. pose proof (serde_struct_inj _ _ _ (canonical_document_exact f Hf)
    (canonical_document_exact g Hg) (canonical_document_keys f g) Hs Ht) as Hn.
  destruct Hf as (_ & _ & Hfp & Hft), Hg as (_ & _ & Hgp & Hgt).
  pose proof (proj2 (payload_exact _ Hfp)) as Hfn. pose proof (proj2 (payload_exact _ Hgp)) as Hgn.
  destruct f as [[fs] ft [fe] [fr] fse fts ftv fau fad fre fec [fpt fpo] [fph] [fk]],
    g as [[gs] gt [ge] [gr] gse gts gtv gau gad gre gec [gpt gpo] [gph] [gk]].
  unfold canonical_document, CanonicalLedgerDocument in Hn.
  cbn [List.map fst snd cf_sequence_no cf_entry_type cf_source_event_at cf_request_id cf_source_event_id
    cf_target_secret_id cf_target_secret_version_id cf_actor_user_id cf_actor_device_id cf_result
    cf_error_code cf_payload cf_previous_entry_hash cf_signature_key_version payload_entry_type] in *.
  rewrite Hfn Hgn in Hn. unfold LedgerPayload_as_value in Hn. cbn [payload_object] in Hn.
  injection Hn as Hs1 H2 H3 H4 H5 H6 H7 H8 H9 H10 H11 H12 H13 H14.
  apply LedgerEntryType_as_str_inj in H2. apply uuid_hyphenated_inj in H4.
  apply LedgerResult_as_str_inj in H10. apply hex_encode_inj in H13. simpl in *.
  apply json_opt_str_inj in H5; [|uuid_inj].
  apply json_opt_str_inj in H6; [|uuid_inj].
  apply json_opt_str_inj in H7; [|uuid_inj].
  apply json_opt_str_inj in H8; [|uuid_inj].
  apply json_opt_str_inj in H9; [|intros [] [] E; simpl in E; congruence].
  assert (fec = gec) as -> by (by destruct fec, gec; simplify_eq/=).
  by subst.
Qed.
End entry_lemmas.
