(* ===== verification/LedgerChain.v ===== *)
(** * The hash chain and its verification ([src/ledger/{chain,verification}.rs])

    [verify_ledger_chain] walks the entries from a head and stops at the first
    fault.  Its specification is the relation [Chain]: what it means for a list
    of entries to extend a head.  The theorems say that the two agree, that
    faults are pinned to the entry that has them, that a verification may be
    split anywhere, and that two accepted histories with the same end are the
    same history unless SHA-256 collides. *)

From S2P Require Import Prelude RustStd Json Platform Reference Errors Types AuditTypes LedgerTypes LedgerPayload LedgerEntry.

(** ** Heads *)

Record LedgerChainHead := mk_LedgerChainHead {
  last_sequence_no : Z;
  last_entry_hash : LedgerHash;
}.
#[global] Instance LedgerChainHead_eq_dec : EqDecision LedgerChainHead.
Proof. solve_decision. Defined.

Definition LedgerChainHead_genesis : LedgerChainHead := mk_LedgerChainHead 0 LedgerHash_genesis.

Definition LedgerChainHead_new (n : Z) (h : LedgerHash) : result LedgerError LedgerChainHead :=
  if LEDGER_I64_MAX_U64 <? n then Err (LedgerError_InvalidNonNegativeInteger "last_sequence_no")
  else Ok (mk_LedgerChainHead n h).

Definition LedgerChainHead_from_i64 (n : Z) (h : LedgerHash) : result LedgerError LedgerChainHead :=
  converted ← ok_or (u_try_from u64_max n) (LedgerError_InvalidNonNegativeInteger "last_sequence_no");
  LedgerChainHead_new converted h.

Definition LedgerChainHead_next_sequence_no (head : LedgerChainHead) : result LedgerError LedgerSequenceNo :=
  next ← ok_or (u_checked_add u64_max (last_sequence_no head) 1) LedgerError_SequenceOverflow;
  LedgerSequenceNo_new next.

Definition LedgerChainHead_wf (head : LedgerChainHead) : Prop :=
  0 ≤ last_sequence_no head ≤ LEDGER_I64_MAX_U64.

Section chain.
Context {P : Platform}.

(** ** Verification *)

Definition find_verification_key_with_seq (verification_keys : list LedgerVerifyingKey)
    (key_version : LedgerSignatureKeyVersion) (sequence_no : Z) : result LedgerError LedgerVerifyingKey :=
  ok_or (List.find (λ key, bool_decide (vk_key_version key = key_version)) verification_keys)
    (LedgerError_UnknownSignatureKey (LedgerSignatureKeyVersion_get key_version) sequence_no).

(** The body of the loop: the checks on one entry, after the entry numbered
    [previous_sequence_no] with hash [previous_hash]. *)
Definition verify_ledger_entry (keys : list LedgerVerifyingKey) (previous_sequence_no : Z)
    (previous_hash : LedgerHash) (entry : SignedLedgerEntry) : result LedgerError unit :=
  expected_sequence_no ← ok_or (u_checked_add u64_max previous_sequence_no 1) LedgerError_SequenceOverflow;
  let actual_sequence_no := se_sequence_no entry in
  if negb (actual_sequence_no =? expected_sequence_no)
  then Err (LedgerError_SequenceGap expected_sequence_no actual_sequence_no) else
  if negb (bool_decide (se_previous_entry_hash entry = previous_hash))
  then Err (LedgerError_PreviousHashMismatch actual_sequence_no) else
  if negb (bool_decide (SignedLedgerEntry_recompute_entry_hash entry = se_entry_hash entry))
  then Err (LedgerError_HashMismatch actual_sequence_no) else
  verification_key ← find_verification_key_with_seq keys (se_signature_key_version entry) actual_sequence_no;
  SignedLedgerEntry_verify_signature entry verification_key
    !? (λ _, LedgerError_SignatureInvalid actual_sequence_no).

Fixpoint verify_ledger_chain_from (keys : list LedgerVerifyingKey) (previous_sequence_no : Z)
    (previous_hash : LedgerHash) (entries : list SignedLedgerEntry) : result LedgerError LedgerChainHead :=
  match entries with
  | [] => LedgerChainHead_new previous_sequence_no previous_hash
  | entry :: entries =>
      _ ← verify_ledger_entry keys previous_sequence_no previous_hash entry;
      verify_ledger_chain_from keys (se_sequence_no entry) (se_entry_hash entry) entries
  end.

Definition verify_ledger_chain (entries : list SignedLedgerEntry) (initial_head : LedgerChainHead)
    (verification_keys : list LedgerVerifyingKey) : result LedgerError LedgerChainHead :=
  verify_ledger_chain_from verification_keys (last_sequence_no initial_head)
    (last_entry_hash initial_head) entries.

(** ** Specification *)

Section spec.
Context (keys : list LedgerVerifyingKey).

Definition signed_by_key (entry : SignedLedgerEntry) (key : LedgerVerifyingKey) : Prop :=
  vk_key_version key = se_signature_key_version entry
  ∧ ed_verify (vk_verifying_key key) (LedgerCanonicalPayload_as_bytes (se_canonical_payload entry))
      (LedgerSignature_as_bytes (se_signature entry)) = true.

(** The key that counts is the first one registered for the version. *)
Definition registered_key (v : LedgerSignatureKeyVersion) (key : LedgerVerifyingKey) : Prop :=
  ∃ l1 l2, keys = l1 ++ key :: l2 ∧ vk_key_version key = v
    ∧ Forall (λ k, vk_key_version k ≠ v) l1.

Inductive Chain : LedgerChainHead → list SignedLedgerEntry → LedgerChainHead → Prop :=
| Chain_nil head : Chain head [] head
| Chain_cons head entry entries key final :
    se_sequence_no entry = last_sequence_no head + 1 →
    se_sequence_no entry ≤ u64_max →
    se_previous_entry_hash entry = last_entry_hash head →
    LedgerHash_from_canonical_payload (se_canonical_payload entry) = se_entry_hash entry →
    registered_key (se_signature_key_version entry) key →
    signed_by_key entry key →
    Chain (mk_LedgerChainHead (se_sequence_no entry) (se_entry_hash entry)) entries final →
    Chain head (entry :: entries) final.

Lemma find_verification_key_Ok v n key :
  find_verification_key_with_seq keys v n = Ok key ↔ registered_key v key.
Proof.
  unfold find_verification_key_with_seq, registered_key. rewrite ok_or_Ok.
  induction keys as [|k ks IH]; simpl.
  { split; [done|]. intros ([|] & ? & ? & _); done. }
  case_bool_decide as Hk.
  - split.
    + intros [= <-]. exists [], ks. by repeat constructor.
    + intros ([|k' l1] & l2 & Heq & Hv & Hl1); simplify_eq/=; [done|].
      apply Forall_cons in Hl1 as [? _]. done.
  - rewrite IH. split.
    + intros (l1 & l2 & -> & Hv & Hl1). exists (k :: l1), l2. by repeat constructor.
    + intros ([|k' l1] & l2 & Heq & Hv & Hl1); simplify_eq/=.
      apply Forall_cons in Hl1 as [_ ?]. by exists l1, l2.
Qed.

Lemma verify_ledger_entry_Ok n h e :
  verify_ledger_entry keys n h e = Ok tt ↔
  se_sequence_no e = n + 1 ∧ n + 1 ≤ u64_max ∧ se_previous_entry_hash e = h
  ∧ LedgerHash_from_canonical_payload (se_canonical_payload e) = se_entry_hash e
  ∧ ∃ key, registered_key (se_signature_key_version e) key ∧ signed_by_key e key.
Proof.
  unfold verify_ledger_entry, SignedLedgerEntry_verify_signature, SignedLedgerEntry_recompute_entry_hash.
  split.
  - intros H. inv_ok. select (u_checked_add _ _ _ = _) (fun H => apply u_checked_add_Some in H as [-> ?]).
    do 3 (case_if; [done|]). b2p. inv_ok.
    select (find_verification_key_with_seq _ _ _ = _) (fun H => apply find_verification_key_Ok in H).
    select (LedgerVerifyingKey_verify_payload _ _ _ _ = _) (fun H => apply verify_payload_Ok in H).
    unfold signed_by_key. naive_solver.
  - intros (Hs & Hn & Hp & Hh & key & Hkey & Hv).
    assert (u_checked_add u64_max n 1 = Some (n + 1)) as -> by (by apply u_checked_add_Some).
    rewrite /= Hs Z.eqb_refl /= bool_decide_eq_true_2 //= bool_decide_eq_true_2 //=.
    rewrite (proj2 (find_verification_key_Ok _ _ _) Hkey) /=.
    by apply map_err_Ok, verify_payload_Ok.
Qed.

Lemma LedgerChainHead_new_Ok n h head :
  LedgerChainHead_new n h = Ok head ↔ head = mk_LedgerChainHead n h ∧ n ≤ LEDGER_I64_MAX_U64.
Proof.
  unfold LedgerChainHead_new. destruct (LEDGER_I64_MAX_U64 <? n) eqn:?; b2p; naive_solver lia.
Qed.

Lemma verify_ledger_chain_from_Ok n h entries final :
  verify_ledger_chain_from keys n h entries = Ok final ↔
  Chain (mk_LedgerChainHead n h) entries final ∧ last_sequence_no final ≤ LEDGER_I64_MAX_U64.
Proof.
  revert n h. induction entries as [|e entries IH]; intros n h; simpl.
  - rewrite LedgerChainHead_new_Ok. split; [intros [-> ?]; split; [constructor|done]|].
    intros [H ?]. by inversion H; subst.
  - rewrite result_bind_Ok. split.
    + intros ([] & (Hs & Hn & Hp & Hh & key & Hk & Hv)%verify_ledger_entry_Ok & [Hc Hl]%IH).
      split; [|done]. econstructor; eauto; simpl; lia.
    + intros [H Hl]. inversion H; simplify_eq/=. exists tt. split; [|by apply IH].
      apply verify_ledger_entry_Ok. split_and!; eauto; lia.
Qed.

(** The entries before the fault form a chain, and the fault is the first
    check that the entry at the fault fails. *)
Lemma verify_ledger_chain_from_Err n h entries e :
  verify_ledger_chain_from keys n h entries = Err e ↔
  (∃ l1 x l2 head, entries = l1 ++ x :: l2 ∧ Chain (mk_LedgerChainHead n h) l1 head
    ∧ verify_ledger_entry keys (last_sequence_no head) (last_entry_hash head) x = Err e)
  ∨ (∃ head, Chain (mk_LedgerChainHead n h) entries head
    ∧ LedgerChainHead_new (last_sequence_no head) (last_entry_hash head) = Err e).
Proof.
  revert n h. induction entries as [|y entries IH]; intros n h; simpl.
  - split; [intros H; right; eexists; split; [constructor|done]|].
    intros [([|] & ? & ? & ? & ? & _)|(head & Hc & He)]; [done|done|]. by inversion Hc; subst.
  - rewrite result_bind_Err. setoid_rewrite IH. split.
    + intros [He|([] & (Hs & Hn & Hp & Hh & key & Hk & Hv)%verify_ledger_entry_Ok & [H|H])].
      * left. exists [], y, entries. eexists. split; [done|]. split; [constructor|done].
      * destruct H as (l1 & x & l2 & head & -> & Hc & He). left.
        exists (y :: l1), x, l2, head. split; [done|]. split; [|done]. econstructor; eauto; simpl; lia.
      * destruct H as (head & Hc & He). right. exists head. split; [|done].
        econstructor; eauto; simpl; lia.
    + intros [([|z l1] & x & l2 & head & Heq & Hc & He)|(head & Hc & He)]; simplify_eq/=.
      * inversion Hc; subst. by left.
      * right. inversion Hc; simplify_eq/=. exists tt. split; [apply verify_ledger_entry_Ok; split_and!; eauto; lia|].
        left. eauto 10.
      * right. inversion Hc; simplify_eq/=. exists tt. split; [apply verify_ledger_entry_Ok; split_and!; eauto; lia|].
        right. eauto.
Qed.

Lemma Chain_app head l1 l2 final :
  Chain head (l1 ++ l2) final ↔ ∃ mid, Chain head l1 mid ∧ Chain mid l2 final.
Proof.
  revert head. induction l1 as [|e l1 IH]; intros head; simpl.
  - split; [intros; eexists; split; [constructor|done]|]. intros (mid & H & ?). by inversion H; subst.
  - split.
    + intros H. inversion H; subst. select (Chain _ (l1 ++ l2) _) (fun H => apply IH in H as (mid & ? & ?)).
      exists mid. split; [|done]. by econstructor.
    + intros (mid & H & ?). inversion H; subst. econstructor; eauto. apply IH. eauto.
Qed.

Lemma Chain_length head l final :
  Chain head l final → last_sequence_no final = last_sequence_no head + Z.of_nat (length l).
Proof. induction 1; simpl in *; lia. Qed.

Lemma Chain_final_det head l f1 f2 : Chain head l f1 → Chain head l f2 → f1 = f2.
Proof. induction 1; inversion 1; subst; auto. Qed.
End spec.

(** The canonical bytes of these two entries differ and have one SHA-256 hash. *)
Definition sha256_collision (e1 e2 : SignedLedgerEntry) : Prop :=
  se_canonical_payload e1 ≠ se_canonical_payload e2
  ∧ sha256 (LedgerCanonicalPayload_as_bytes (se_canonical_payload e1))
    = sha256 (LedgerCanonicalPayload_as_bytes (se_canonical_payload e2)).

(** Such a pair at one position of two ledgers. *)
Definition ledgers_collide (l1 l2 : list SignedLedgerEntry) : Prop :=
  ∃ i e1 e2, l1 !! i = Some e1 ∧ l2 !! i = Some e2 ∧ sha256_collision e1 e2.

Lemma same_hash_same_payload e1 e2 :
  LedgerHash_from_canonical_payload (se_canonical_payload e1)
  = LedgerHash_from_canonical_payload (se_canonical_payload e2) →
  se_canonical_payload e1 = se_canonical_payload e2 ∨ sha256_collision e1 e2.
Proof.
  unfold LedgerHash_from_canonical_payload, sha256_collision. intros [= H].
  destruct (decide (se_canonical_payload e1 = se_canonical_payload e2)); [by left|by right].
Qed.

Lemma ledgers_collide_app l1 l2 k1 k2 : ledgers_collide l1 l2 → ledgers_collide (l1 ++ k1) (l2 ++ k2).
Proof.
  intros (i & e1 & e2 & H1 & H2 & Hc). exists i, e1, e2.
  by rewrite !lookup_app_l; eauto using lookup_lt_Some.
Qed.

(** Two chains that end in the same hash have the same fields throughout. *)
Lemma Chain_same_end {LU : UuidLaws P} {LS : SerdeLaws P} {LH : HexLaws P} keys1 keys2 head1 head2 l1 l2 f1 f2 :
  Forall SignedLedgerEntry_wf l1 → Forall SignedLedgerEntry_wf l2 → length l1 = length l2 →
  Chain keys1 head1 l1 f1 → Chain keys2 head2 l2 f2 → last_entry_hash f1 = last_entry_hash f2 →
  (se_fields <$> l1 = se_fields <$> l2 ∧ last_entry_hash head1 = last_entry_hash head2)
  ∨ ledgers_collide l1 l2.
Proof.
  intros H1 H2 Hlen. revert l2 f1 f2 H1 H2 Hlen.
  induction l1 as [|e1 l1 IH] using rev_ind; intros l2 f1 f2 Hw1 Hw2 Hlen Hc1 Hc2 Hf.
  { destruct l2; [|done]. inversion Hc1; inversion Hc2; subst. by left. }
  destruct l2 as [|e2 l2 _] using rev_ind; [by rewrite length_app /= in Hlen; lia|].
  rewrite !length_app /= in Hlen.
  apply Forall_app in Hw1 as [Hw1 [[He1 Hb1] _]%Forall_cons].
  apply Forall_app in Hw2 as [Hw2 [[He2 Hb2] _]%Forall_cons].
  apply Chain_app in Hc1 as (m1 & Hc1 & Hl1), Hc2 as (m2 & Hc2 & Hl2).
  inversion Hl1 as [|????? _ _ Hp1 Hh1 _ _ Hn1]; subst. inversion Hn1; subst.
  inversion Hl2 as [|????? _ _ Hp2 Hh2 _ _ Hn2]; subst. inversion Hn2; subst. simpl in Hf.
  rewrite -Hh1 -Hh2 in Hf. apply same_hash_same_payload in Hf as [Hf|Hcol].
  2: { right. exists (length l1), e1, e2. rewrite (list_lookup_middle l1 [] e1) // (list_lookup_middle l2 [] e2) //. lia. }
  rewrite Hf in Hb1. assert (se_fields e1 = se_fields e2) as Hfields by (by eapply build_canonical_payload_inj).
  unfold se_previous_entry_hash in *. rewrite Hfields Hp2 in Hp1.
  destruct (IH l2 m1 m2) as [[Heq Hh]|]; try done; [lia| |right; by apply ledgers_collide_app].
  left. by rewrite !fmap_app /= Heq Hfields.
Qed.
End chain.

(** ** Properties *)

Section chain_theorems.
Context {P : Platform}.

Lemma last_sequence_wf keys head l final :
  LedgerChainHead_wf head → Forall SignedLedgerEntry_wf l → Chain keys head l final →
  last_sequence_no final ≤ LEDGER_I64_MAX_U64.
Proof.
  intros [_ Hh] Hl Hc. destruct l as [|e l _] using rev_ind; [by inversion Hc; subst|].
  apply Forall_app in Hl as [_ [[[Hs _] _] _]%Forall_cons].
  apply Chain_app in Hc as (mid & _ & Hc). inversion Hc as [|????? _ _ _ _ _ _ Hn]; subst.
  inversion Hn; subst. apply Hs.
Qed.

(** C8. Verification refines its specification: it returns a head exactly when
    the entries, in order, extend the initial head to it: consecutive sequence
    numbers, each entry naming the hash of the one before, each hash the
    SHA-256 of the entry's canonical bytes, and each signature valid under the
    first key registered for the entry's key version. *)
Theorem verify_ledger_chain_refines entries head keys final :
  verify_ledger_chain entries head keys = Ok final ↔
  Chain keys head entries final ∧ last_sequence_no final ≤ LEDGER_I64_MAX_U64.
Proof. destruct head. apply verify_ledger_chain_from_Ok. Qed.

(** C22. A failed verification names the first faulty entry: everything before
    it is a chain, and the error is the one that entry's own checks give; and
    every such fault is reported. *)
Theorem verify_ledger_chain_pinpoints entries head keys e :
  LedgerChainHead_wf head → Forall SignedLedgerEntry_wf entries →
  verify_ledger_chain entries head keys = Err e ↔
  ∃ l1 x l2 mid, entries = l1 ++ x :: l2 ∧ Chain keys head l1 mid
    ∧ verify_ledger_entry keys (last_sequence_no mid) (last_entry_hash mid) x = Err e.
Proof.
  intros Hh Hl. unfold verify_ledger_chain. rewrite verify_ledger_chain_from_Err.
  destruct head as [n h]. split; [|by left]. intros [H|(final & Hc & He)]; [done|].
  apply last_sequence_wf in Hc; [|done..]. unfold LedgerChainHead_new in He.
  rewrite (proj2 (Z.ltb_ge _ _) Hc) in He. done.
Qed.

(** Verification is incremental: checking a ledger in one pass is checking
    a prefix and then the rest from the head the prefix leaves. *)
Theorem verify_ledger_chain_incremental l1 l2 head keys :
  LedgerChainHead_wf head → Forall SignedLedgerEntry_wf l1 →
  verify_ledger_chain (l1 ++ l2) head keys
  = mid ← verify_ledger_chain l1 head keys; verify_ledger_chain l2 mid keys.
Proof.
  destruct head as [n h]. unfold verify_ledger_chain, LedgerChainHead_wf. simpl.
  revert n h. induction l1 as [|e l1 IH]; intros n h Hn Hl; simpl.
  - unfold LedgerChainHead_new. by rewrite (proj2 (Z.ltb_ge _ _)); [|lia].
  - apply Forall_cons in Hl as [[[Hs _] _] Hl]. unfold LedgerSequenceNo_wf in Hs.
    destruct (verify_ledger_entry keys n h e) as [[]|]; simpl; [|done].
    rewrite IH //. unfold se_sequence_no. lia.
Qed.

(** C9. The ledger is tamper-evident: two lists of entries that both verify from
    the same head to the same head agree on every field the canonical form
    covers, entry by entry, or two entries at the same position have different
    canonical bytes with one SHA-256 hash.  The keys used for the two
    verifications may differ. *)
Theorem ledger_tamper_evident {LU : UuidLaws P} {LS : SerdeLaws P} {LH : HexLaws P}
    entries1 entries2 head final keys1 keys2 :
  Forall SignedLedgerEntry_wf entries1 → Forall SignedLedgerEntry_wf entries2 →
  verify_ledger_chain entries1 head keys1 = Ok final →
  verify_ledger_chain entries2 head keys2 = Ok final →
  se_fields <$> entries1 = se_fields <$> entries2 ∨ ledgers_collide entries1 entries2.
Proof.
  destruct head. intros H1 H2 [Hc1 _]%verify_ledger_chain_from_Ok [Hc2 _]%verify_ledger_chain_from_Ok.
  pose proof (Chain_length _ _ _ _ Hc1). pose proof (Chain_length _ _ _ _ Hc2).
  assert (length entries1 = length entries2) as Hlen by lia.
  by destruct (Chain_same_end _ _ _ _ _ _ _ _ H1 H2 Hlen Hc1 Hc2 eq_refl) as [[? _]|]; [left|right].
Qed.

(** Editing a stored entry without recomputing its hash is reported as a hash
    mismatch at exactly that entry: if a verified ledger has the entry [e]
    replaced by one with other fields under the same number, link and stored
    hash, verification fails with [HashMismatch] at its sequence number (or
    the two entries' canonical bytes are a SHA-256 collision). *)
Theorem edited_entry_detected {LU : UuidLaws P} {LS : SerdeLaws P} {LH : HexLaws P}
    l1 e e' l2 head keys final :
  SignedLedgerEntry_wf e → SignedLedgerEntry_wf e' →
  verify_ledger_chain (l1 ++ e :: l2) head keys = Ok final →
  se_sequence_no e' = se_sequence_no e → se_previous_entry_hash e' = se_previous_entry_hash e →
  se_entry_hash e' = se_entry_hash e → se_fields e' ≠ se_fields e →
  verify_ledger_chain (l1 ++ e' :: l2) head keys = Err (LedgerError_HashMismatch (se_sequence_no e))
  ∨ sha256_collision e' e.
Proof.
  destruct head as [n h]. intros [He Hb] [He' Hb'] [Hc _]%verify_ledger_chain_from_Ok Hs Hp Hh Hne.
  apply Chain_app in Hc as (mid & Hc1 & Hc2). inversion Hc2 as [|????? Hseq Hmax Hprev Hhash _ _ _]; subst.
  destruct (decide (LedgerHash_from_canonical_payload (se_canonical_payload e')
    = LedgerHash_from_canonical_payload (se_canonical_payload e))) as [Heq|Hdiff].
  { apply same_hash_same_payload in Heq as [Heq|]; [|by right]. exfalso. apply Hne.
    rewrite Heq in Hb'. by eapply build_canonical_payload_inj. }
  left. apply verify_ledger_chain_from_Err. left. exists l1, e', l2, mid. split_and!; [done..|].
  unfold verify_ledger_entry, SignedLedgerEntry_recompute_entry_hash.
  assert (u_checked_add u64_max (last_sequence_no mid) 1 = Some (se_sequence_no e)) as ->.
  { apply u_checked_add_Some. lia. }
  rewrite /= Hs Z.eqb_refl /= Hp Hprev bool_decide_eq_true_2 //= Hh -Hhash.
  by rewrite bool_decide_eq_false_2.
Qed.

(** Dropping an entry from the middle of a verified ledger is reported as a
    sequence gap at the entry that was dropped. *)
Theorem removed_entry_detected l1 e e2 l2 head keys final :
  verify_ledger_chain (l1 ++ e :: e2 :: l2) head keys = Ok final →
  verify_ledger_chain (l1 ++ e2 :: l2) head keys
  = Err (LedgerError_SequenceGap (se_sequence_no e) (se_sequence_no e + 1)).
Proof.
  destruct head as [n h]. intros [Hc _]%verify_ledger_chain_from_Ok.
  apply Chain_app in Hc as (mid & Hc1 & Hc2). inversion Hc2 as [|????? Hs Hm _ _ _ _ Hc3]; subst.
  inversion Hc3 as [|????? Hs2 _ _ _ _ _ _]; subst. simpl in Hs2.
  apply verify_ledger_chain_from_Err. left. exists l1, e2, l2, mid. split_and!; [done..|].
  unfold verify_ledger_entry.
  assert (u_checked_add u64_max (last_sequence_no mid) 1 = Some (se_sequence_no e)) as ->.
  { apply u_checked_add_Some. lia. }
  rewrite /= Hs2. by rewrite (proj2 (Z.eqb_neq _ _)); [|lia].
Qed.
End chain_theorems.
