(* ===== verification/LedgerRpc.v ===== *)
(** * The ledger rows exchanged with the database
    ([src/types/supabase.rs], [src/server/supabase/{error,response,ledger_rpc,ledger_export_rpc}.rs])

    How a signed entry is written as RPC parameters, how responses are decoded
    and errors classified, and how an exported row is turned back into an entry
    and a verification key.  The HTTP exchange itself is a parameter of the
    appender. *)

From S2P Require Import Prelude RustStd Json Platform Reference Errors Types AuditTypes LedgerTypes LedgerPayload LedgerEntry LedgerChain.

(** ** Errors of the RPC layer *)

Inductive SupabaseRpcError :=
| SupabaseRpcError_Network (error : str)
| SupabaseRpcError_NonSuccessStatus (status : Z) (body : str)
| SupabaseRpcError_InvalidResponse (message : str)
| SupabaseRpcError_EmptyResult.
#[global] Instance SupabaseRpcError_eq_dec : EqDecision SupabaseRpcError.
Proof. solve_decision. Defined.

Definition SupabaseRpcError_to_string (error : SupabaseRpcError) : str :=
  match error with
  | SupabaseRpcError_Network error => "supabase network error: " +:+ error
  | SupabaseRpcError_NonSuccessStatus status body =>
      "supabase returned status " +:+ int_to_string status
      +:+ " with response body length " +:+ int_to_string (str_len body)
  | SupabaseRpcError_InvalidResponse message => "supabase invalid response: " +:+ message
  | SupabaseRpcError_EmptyResult => "supabase RPC returned no rows"
  end.
Definition SupabaseRpcError_upstream_status (e : SupabaseRpcError) : option Z :=
  match e with SupabaseRpcError_NonSuccessStatus status _ => Some status | _ => None end.

Inductive LedgerAppendRpcFailure :=
| LedgerAppendRpcFailure_EntryIdConflict
| LedgerAppendRpcFailure_EntryHashConflict
| LedgerAppendRpcFailure_SequenceMismatch
| LedgerAppendRpcFailure_PreviousHashMismatch
| LedgerAppendRpcFailure_PayloadSchemaViolation
| LedgerAppendRpcFailure_ChainStateMissing
| LedgerAppendRpcFailure_InvalidRpcInput
| LedgerAppendRpcFailure_AppendFailed.
#[global] Instance LedgerAppendRpcFailure_eq_dec : EqDecision LedgerAppendRpcFailure.
Proof. solve_decision. Defined.

Definition LedgerAppendRpcFailure_as_error_code (f : LedgerAppendRpcFailure) : str :=
  match f with
  | LedgerAppendRpcFailure_EntryIdConflict => "ledger_entry_id_conflict"
  | LedgerAppendRpcFailure_EntryHashConflict => "ledger_entry_hash_conflict"
  | LedgerAppendRpcFailure_SequenceMismatch => "ledger_sequence_mismatch"
  | LedgerAppendRpcFailure_PreviousHashMismatch => "ledger_previous_hash_mismatch"
  | LedgerAppendRpcFailure_PayloadSchemaViolation => "ledger_payload_schema_violation"
  | LedgerAppendRpcFailure_ChainStateMissing => "ledger_chain_state_mismatch"
  | LedgerAppendRpcFailure_InvalidRpcInput | LedgerAppendRpcFailure_AppendFailed => "ledger_append_failed"
  end.

Section rpc.
Context {P : Platform}.

(** A marker counts in the [message], [details] or [hint] of a JSON body, and
    anywhere in a body that is not JSON. *)
Definition response_contains_marker (body marker : str) : bool :=
  match serde_from_str body with
  | Err _ => str_contains body marker
  | Ok value =>
      existsb (λ field,
        match (o ← as_object value; v ← map_get field o; as_str v) with
        | Some text => str_contains text marker
        | None => false
        end) ["message"; "details"; "hint"]%string
  end.

Definition LEDGER_PAYLOAD_SCHEMA_MARKERS : list str :=
  ["ledger_payload_schema_violation"; "ledger_entries_payload_valid"; "ledger_payload_is_valid"]%string.

Definition classify_append_ledger_error (error : SupabaseRpcError) : LedgerAppendRpcFailure :=
  match error with
  | SupabaseRpcError_NonSuccessStatus _ body =>
      if response_contains_marker body "ledger_entry_id_conflict"
      then LedgerAppendRpcFailure_EntryIdConflict
      else if response_contains_marker body "ledger_entry_hash_conflict"
      then LedgerAppendRpcFailure_EntryHashConflict
      else if response_contains_marker body "ledger_sequence_mismatch"
      then LedgerAppendRpcFailure_SequenceMismatch
      else if response_contains_marker body "ledger_previous_hash_mismatch"
      then LedgerAppendRpcFailure_PreviousHashMismatch
      else if existsb (response_contains_marker body) LEDGER_PAYLOAD_SCHEMA_MARKERS
      then LedgerAppendRpcFailure_PayloadSchemaViolation
      else if response_contains_marker body "ledger_chain_state_missing"
      then LedgerAppendRpcFailure_ChainStateMissing
      else if response_contains_marker body "invalid_rpc_input"
      then LedgerAppendRpcFailure_InvalidRpcInput
      else LedgerAppendRpcFailure_AppendFailed
  | _ => LedgerAppendRpcFailure_AppendFailed
  end.

(** ** Request parameters *)

Record LedgerEntryRpcParams := mk_LedgerEntryRpcParams {
  p_ledger_entry_id : str;
  p_sequence_no : Z;
  p_entry_type : str;
  p_source_event_at : str;
  p_request_id : str;
  p_source_event_id : option str;
  p_target_secret_id : option str;
  p_target_secret_version_id : option str;
  p_actor_user_id : option str;
  p_actor_device_id : option str;
  p_result : str;
  p_error_code : option str;
  p_payload : Value;
  p_canonicalization_version : Z;
  p_previous_entry_hash : str;
  p_entry_hash : str;
  p_hash_algorithm : str;
  p_signature : str;
  p_signature_algorithm : str;
  p_signature_key_version : Z;
}.

Definition LedgerEntryRpcParams_from_signed_entry (entry : SignedLedgerEntry) : LedgerEntryRpcParams :=
  let f := se_fields entry in {|
  p_ledger_entry_id := LedgerEntryId_as_canonical_string (se_ledger_entry_id entry);
  p_sequence_no := LedgerSequenceNo_get (cf_sequence_no f);
  p_entry_type := LedgerEntryType_as_str (cf_entry_type f);
  p_source_event_at := SourceEventAt_as_str (cf_source_event_at f);
  p_request_id := RequestId_as_canonical_string (cf_request_id f);
  p_source_event_id := AuditEventId_as_canonical_string <$> cf_source_event_id f;
  p_target_secret_id := SecretId_as_canonical_string <$> cf_target_secret_id f;
  p_target_secret_version_id :=
    LedgerTargetSecretVersionId_as_canonical_string <$> cf_target_secret_version_id f;
  p_actor_user_id := OwnerUserId_as_canonical_string <$> cf_actor_user_id f;
  p_actor_device_id := DeviceId_as_str <$> cf_actor_device_id f;
  p_result := LedgerResult_as_str (cf_result f);
  p_error_code := cf_error_code f;
  p_payload := LedgerPayload_as_value (cf_payload f);
  p_canonicalization_version := LEDGER_CANONICALIZATION_VERSION_V1;
  p_previous_entry_hash := LedgerHash_to_bytea_hex (cf_previous_entry_hash f);
  p_entry_hash := LedgerHash_to_bytea_hex (se_entry_hash entry);
  p_hash_algorithm := LEDGER_HASH_ALGORITHM_SHA256;
  p_signature := LedgerSignature_to_bytea_hex (se_signature entry);
  p_signature_algorithm := LEDGER_SIGNATURE_ALGORITHM_ED25519;
  p_signature_key_version := LedgerSignatureKeyVersion_get (cf_signature_key_version f);
|}.

(** ** Responses of the append and chain-head calls *)

Record AppendLedgerEntryOutcome := mk_AppendLedgerEntryOutcome {
  out_ledger_entry_id : LedgerEntryId;
  out_sequence_no : LedgerSequenceNo;
  out_entry_hash : LedgerHash;
  out_chain_head : LedgerChainHead;
  out_replayed : bool;
}.

Record AppendLedgerEntryResponse := mk_AppendLedgerEntryResponse {
  resp_ledger_entry_id : str;
  resp_sequence_no : Z;
  resp_entry_hash : str;
  resp_chain_last_sequence_no : Z;
  resp_chain_last_entry_hash : str;
  resp_replayed : bool;
}.

Definition invalid_response {E} (message : str) (_ : E) : SupabaseRpcError :=
  SupabaseRpcError_InvalidResponse message.

Definition AppendLedgerEntryOutcome_try_from (response : AppendLedgerEntryResponse) :
    result SupabaseRpcError AppendLedgerEntryOutcome :=
  ledger_entry_id ← LedgerEntryId_parse (resp_ledger_entry_id response)
    !? invalid_response "ledger RPC returned invalid ledger_entry_id";
  sequence_no ← LedgerSequenceNo_from_i64 (resp_sequence_no response)
    !? invalid_response "ledger RPC returned invalid sequence_no";
  entry_hash ← LedgerHash_from_bytea_hex (resp_entry_hash response)
    !? invalid_response "ledger RPC returned invalid entry_hash";
  chain_last_entry_hash ← LedgerHash_from_bytea_hex (resp_chain_last_entry_hash response)
    !? invalid_response "ledger RPC returned invalid chain_last_entry_hash";
  chain_head ← LedgerChainHead_from_i64 (resp_chain_last_sequence_no response) chain_last_entry_hash
    !? invalid_response "ledger RPC returned invalid chain_last_sequence_no";
  Ok (mk_AppendLedgerEntryOutcome ledger_entry_id sequence_no entry_hash chain_head
    (resp_replayed response)).

Record LedgerChainStateResponse := mk_LedgerChainStateResponse {
  state_last_sequence_no : Z;
  state_last_entry_hash : str;
}.

Definition LedgerChainHead_try_from (response : LedgerChainStateResponse) :
    result SupabaseRpcError LedgerChainHead :=
  last_entry_hash ← LedgerHash_from_bytea_hex (state_last_entry_hash response)
    !? invalid_response "ledger chain state returned invalid last_entry_hash";
  LedgerChainHead_from_i64 (state_last_sequence_no response) last_entry_hash
    !? invalid_response "ledger chain state returned invalid last_sequence_no".

(** The first row of a response, converted. *)
Definition first_row {A B} (convert : A → result SupabaseRpcError B) (rows : list A) :
    result SupabaseRpcError B :=
  row ← ok_or (head rows) SupabaseRpcError_EmptyResult;
  convert row.
End rpc.

(** ** Exported rows *)

(** [LedgerVerificationMaterialResponse]: the columns as they are decoded. *)
Record LedgerVerificationMaterialResponse := mk_LedgerVerificationMaterialResponse {
  mr_ledger_entry_id : str;
  mr_sequence_no : Z;
  mr_entry_hash : option str;
  mr_previous_entry_hash : option str;
  mr_signature : option str;
  mr_signature_key_version : option Z;
  mr_entry_type : option str;
  mr_source_event_at : option str;
  mr_request_id : option str;
  mr_source_event_id : option str;
  mr_target_secret_id : option str;
  mr_target_secret_version_id : option str;
  mr_actor_user_id : option str;
  mr_actor_device_id : option str;
  mr_result : option str;
  mr_error_code : option str;
  mr_payload : option Value;
  mr_canonicalization_version : option Z;
  mr_hash_algorithm : option str;
  mr_signature_algorithm : option str;
  mr_pk_key_version : option Z;
  mr_pk_public_key : option str;
  mr_pk_algorithm : option str;
  mr_pk_status : option str;
}.

Section export.
Context {P : Platform}.

Record LedgerVerificationMaterialRow := mk_LedgerVerificationMaterialRow {
  row_ledger_entry_id : LedgerEntryId;
  row_sequence_no : LedgerSequenceNo;
  row_entry_hash : LedgerHash;
  row_previous_entry_hash : LedgerHash;
  row_signature : LedgerSignature;
  row_signature_key_version : LedgerSignatureKeyVersion;
  row_entry_type : str;
  row_source_event_at : str;
  row_request_id : str;
  row_source_event_id : option str;
  row_target_secret_id : option str;
  row_target_secret_version_id : option str;
  row_actor_user_id : option str;
  row_actor_device_id : option str;
  row_result : str;
  row_error_code : option str;
  row_payload : Value;
  row_canonicalization_version : Z;
  row_hash_algorithm : str;
  row_signature_algorithm : str;
  row_pk_key_version : option Z;
  row_pk_public_key : option str;
  row_pk_algorithm : option str;
  row_pk_status : option str;
}.

Definition export_error (message : str) : SupabaseRpcError :=
  SupabaseRpcError_InvalidResponse ("export ledger verification materials RPC returned " +:+ message).

Definition LedgerVerificationMaterialRow_try_from (response : LedgerVerificationMaterialResponse) :
    result SupabaseRpcError LedgerVerificationMaterialRow :=
  ledger_entry_id ← LedgerEntryId_parse (mr_ledger_entry_id response)
    !? (λ _, export_error "invalid ledger_entry_id");
  sequence_no ← LedgerSequenceNo_from_i64 (mr_sequence_no response)
    !? (λ _, export_error "invalid sequence_no");
  entry_hash_raw ← ok_or (mr_entry_hash response) (export_error "null entry_hash");
  entry_hash ← LedgerHash_from_bytea_hex entry_hash_raw !? (λ _, export_error "invalid entry_hash");
  previous_entry_hash_raw ← ok_or (mr_previous_entry_hash response)
    (export_error "null previous_entry_hash");
  previous_entry_hash ← LedgerHash_from_bytea_hex previous_entry_hash_raw
    !? (λ _, export_error "invalid previous_entry_hash");
  signature_raw ← ok_or (mr_signature response) (export_error "null signature");
  signature ← LedgerSignature_from_bytea_hex signature_raw !? (λ _, export_error "invalid signature");
  signature_key_version_raw ← ok_or (mr_signature_key_version response)
    (export_error "null signature_key_version");
  signature_key_version ← LedgerSignatureKeyVersion_new (i32_as_u32 signature_key_version_raw)
    !? (λ _, export_error "invalid signature_key_version");
  entry_type ← ok_or (mr_entry_type response) (export_error "null entry_type");
  source_event_at ← ok_or (mr_source_event_at response) (export_error "null source_event_at");
  request_id ← ok_or (mr_request_id response) (export_error "null request_id");
  result ← ok_or (mr_result response) (export_error "null result");
  payload ← ok_or (mr_payload response) (export_error "null payload");
  canonicalization_version ← ok_or (mr_canonicalization_version response)
    (export_error "null canonicalization_version");
  hash_algorithm ← ok_or (mr_hash_algorithm response) (export_error "null hash_algorithm");
  signature_algorithm ← ok_or (mr_signature_algorithm response) (export_error "null signature_algorithm");
  if bool_decide (is_Some (mr_pk_public_key response)) && bool_decide (mr_pk_key_version response = None)
  then Err (export_error "pk_public_key without pk_key_version") else
  Ok (mk_LedgerVerificationMaterialRow ledger_entry_id sequence_no entry_hash previous_entry_hash
    signature signature_key_version entry_type source_event_at request_id
    (mr_source_event_id response) (mr_target_secret_id response) (mr_target_secret_version_id response)
    (mr_actor_user_id response) (mr_actor_device_id response) result (mr_error_code response) payload
    canonicalization_version hash_algorithm signature_algorithm (mr_pk_key_version response)
    (mr_pk_public_key response) (mr_pk_algorithm response) (mr_pk_status response)).

Definition decode_bytea_hex (value : str) : option bytes :=
  hex_value ← strip_prefix "\x" value; hex_decode hex_value.

(** The key registered for a row; [None] when the row carries none. *)
Definition try_restore_verifying_key (row : LedgerVerificationMaterialRow) :
    result LedgerError (option LedgerVerifyingKey) :=
  match row_pk_key_version row, row_pk_public_key row with
  | None, _ | _, None => Ok None
  | Some pk_key_version, Some pk_public_key =>
      pk_algorithm ← ok_or (row_pk_algorithm row) LedgerError_InvalidVerificationKey;
      pk_status ← ok_or (row_pk_status row) LedgerError_InvalidVerificationKey;
      if negb (String.eqb pk_algorithm "ed25519") then Err LedgerError_InvalidVerificationKey else
      if negb (String.eqb pk_status "created") && negb (String.eqb pk_status "active")
         && negb (String.eqb pk_status "retired")
      then Err LedgerError_InvalidVerificationKey else
      key_version ← LedgerSignatureKeyVersion_new (i32_as_u32 pk_key_version);
      if negb (bool_decide (key_version = row_signature_key_version row))
      then Err (LedgerError_SignatureKeyVersionMismatch
        (LedgerSignatureKeyVersion_get (row_signature_key_version row))
        (LedgerSignatureKeyVersion_get key_version)) else
      public_key_bytes ← ok_or (decode_bytea_hex pk_public_key) LedgerError_InvalidVerificationKey;
      Some <$> LedgerVerifyingKey_from_public_key_bytes key_version public_key_bytes
  end.

(** [value.map(parse).transpose()]. *)
Definition parse_optional {E A} (parse : str → result E A) (e : LedgerError) (value : option str) :
    result LedgerError (option A) :=
  match value with
  | None => Ok None
  | Some raw => Some <$> (parse raw !? (λ _, e))
  end.

Definition parse_optional_audit_event_id : option str → result LedgerError (option AuditEventId) :=
  parse_optional AuditEventId_parse (LedgerError_InvalidUuid "source_event_id").
Definition parse_optional_secret_id : option str → result LedgerError (option SecretId) :=
  parse_optional SecretId_parse (LedgerError_InvalidUuid "target_secret_id").
Definition parse_optional_target_secret_version_id :
    option str → result LedgerError (option LedgerTargetSecretVersionId) :=
  parse_optional LedgerTargetSecretVersionId_parse (LedgerError_InvalidUuid "target_secret_version_id").
Definition parse_optional_owner_user_id : option str → result LedgerError (option OwnerUserId) :=
  parse_optional OwnerUserId_parse (LedgerError_InvalidUuid "actor_user_id").
Definition parse_optional_device_id : option str → result LedgerError (option DeviceId) :=
  parse_optional DeviceId_new LedgerError_InvalidActorDeviceId.

Definition try_restore_signed_ledger_entry (row : LedgerVerificationMaterialRow) :
    result LedgerError SignedLedgerEntry :=
  entry_type ← LedgerEntryType_parse (row_entry_type row)
    !? (λ _, LedgerError_UnknownEntryType (row_entry_type row));
  source_event_at ← SourceEventAt_parse (row_source_event_at row)
    !? (λ _, LedgerError_SerializationFailed "invalid source_event_at");
  request_id ← RequestId_parse (row_request_id row) !? (λ _, LedgerError_InvalidUuid "request_id");
  source_event_id ← parse_optional_audit_event_id (row_source_event_id row);
  target_secret_id ← parse_optional_secret_id (row_target_secret_id row);
  target_secret_version_id ← parse_optional_target_secret_version_id (row_target_secret_version_id row);
  actor_user_id ← parse_optional_owner_user_id (row_actor_user_id row);
  actor_device_id ← parse_optional_device_id (row_actor_device_id row);
  result ← LedgerResult_parse (row_result row);
  payload ← LedgerPayload_new entry_type (row_payload row);
  SignedLedgerEntry_from_stored_parts
    (mk_SignedLedgerEntryParts (row_ledger_entry_id row)
      (mk_CanonicalBuildFields (row_sequence_no row) entry_type source_event_at request_id
        source_event_id target_secret_id target_secret_version_id actor_user_id actor_device_id
        result (row_error_code row) payload (row_previous_entry_hash row)
        (row_signature_key_version row))
      (row_entry_hash row) (row_signature row)).

(** ** What the database returns for an entry it was sent

    Each column holds the parameter of the same name; the key columns hold what
    the registry has for the entry's key version. *)
Record stored_as (params : LedgerEntryRpcParams) (r : LedgerVerificationMaterialResponse) : Prop := {
  stored_ledger_entry_id : mr_ledger_entry_id r = p_ledger_entry_id params;
  stored_sequence_no : mr_sequence_no r = p_sequence_no params;
  stored_entry_hash : mr_entry_hash r = Some (p_entry_hash params);
  stored_previous_entry_hash : mr_previous_entry_hash r = Some (p_previous_entry_hash params);
  stored_signature : mr_signature r = Some (p_signature params);
  stored_signature_key_version : mr_signature_key_version r = Some (p_signature_key_version params);
  stored_entry_type : mr_entry_type r = Some (p_entry_type params);
  stored_source_event_at : mr_source_event_at r = Some (p_source_event_at params);
  stored_request_id : mr_request_id r = Some (p_request_id params);
  stored_source_event_id : mr_source_event_id r = p_source_event_id params;
  stored_target_secret_id : mr_target_secret_id r = p_target_secret_id params;
  stored_target_secret_version_id : mr_target_secret_version_id r = p_target_secret_version_id params;
  stored_actor_user_id : mr_actor_user_id r = p_actor_user_id params;
  stored_actor_device_id : mr_actor_device_id r = p_actor_device_id params;
  stored_result : mr_result r = Some (p_result params);
  stored_error_code : mr_error_code r = p_error_code params;
  stored_payload : mr_payload r = Some (p_payload params);
  stored_canonicalization_version : mr_canonicalization_version r = Some (p_canonicalization_version params);
  stored_hash_algorithm : mr_hash_algorithm r = Some (p_hash_algorithm params);
  stored_signature_algorithm : mr_signature_algorithm r = Some (p_signature_algorithm params);
  stored_pk : is_Some (mr_pk_public_key r) → is_Some (mr_pk_key_version r);
}.

(** The invariant of an entry built by the program, as the database keeps it:
    the key version must also fit the [integer] column it is stored in. *)
Definition entry_storable (e : SignedLedgerEntry) : Prop :=
  SignedLedgerEntry_wf e
  ∧ validate_entry_fields (se_fields e) = Ok tt
  ∧ LedgerEntryId_wf (se_ledger_entry_id e)
  ∧ LedgerHash_wf (cf_previous_entry_hash (se_fields e))
  ∧ LedgerHash_wf (se_entry_hash e)
  ∧ LedgerSignature_wf (se_signature e)
  ∧ SourceEventAt_parse (SourceEventAt_as_str (cf_source_event_at (se_fields e)))
    = Ok (cf_source_event_at (se_fields e))
  ∧ from_option SecretId_wf True (cf_target_secret_id (se_fields e))
  ∧ from_option DeviceId_wf True (cf_actor_device_id (se_fields e))
  ∧ LedgerSignatureKeyVersion_get (cf_signature_key_version (se_fields e)) ≤ i32_max.
End export.

(** ** Lemmas *)

Section rpc_lemmas.
Context {P : Platform}.

Lemma LedgerSequenceNo_from_i64_wf n :
  LedgerSequenceNo_wf n → LedgerSequenceNo_from_i64 (LedgerSequenceNo_get n) = Ok n.
Proof.
  unfold LedgerSequenceNo_wf, LedgerSequenceNo_from_i64, LEDGER_I64_MAX_U64. intros Hn.
  assert (u_try_from u64_max (LedgerSequenceNo_get n) = Some (LedgerSequenceNo_get n)) as ->.
  { apply u_try_from_Some. unfold u64_max. lia. }
  simpl. by apply LedgerSequenceNo_new_Ok; [lia|].
Qed.

Lemma LedgerSignatureKeyVersion_new_i32 v :
  LedgerSignatureKeyVersion_wf v → LedgerSignatureKeyVersion_get v ≤ i32_max →
  LedgerSignatureKeyVersion_new (i32_as_u32 (LedgerSignatureKeyVersion_get v)) = Ok v.
Proof.
  destruct v as [z]. unfold LedgerSignatureKeyVersion_wf, nonzero_u32, i32_max. simpl. intros Hz Hi.
  unfold i32_as_u32. rewrite Z.mod_small; [|unfold u32_max in *; lia].
  unfold LedgerSignatureKeyVersion_new, NonZeroU32_new. by rewrite (proj2 (Z.eqb_neq z 0)); [|lia].
Qed.

Lemma parse_optional_map {E A} (parse : str → result E A) (print : A → str) (ok : A → Prop) e o :
  (∀ a, ok a → parse (print a) = Ok a) → from_option ok True o →
  parse_optional parse e (print <$> o) = Ok o.
Proof. intros Hp. destruct o as [a|]; simpl; [|done]. intros Ha. by rewrite Hp. Qed.

(** A stored row decodes to the entry it was written from. *)
Lemma stored_row_restores {LU : UuidLaws P} {LH : HexLaws P} e r :
  entry_storable e → stored_as (LedgerEntryRpcParams_from_signed_entry e) r →
  ∃ row, LedgerVerificationMaterialRow_try_from r = Ok row
    ∧ try_restore_signed_ledger_entry row = Ok e
    ∧ row_signature_key_version row = se_signature_key_version e
    ∧ row_pk_key_version row = mr_pk_key_version r ∧ row_pk_public_key row = mr_pk_public_key r
    ∧ row_pk_algorithm row = mr_pk_algorithm r ∧ row_pk_status row = mr_pk_status r.
Proof.
  destruct e as [i f b h s]. intros (Hwf & Hval & Hi & Hph & Hh & Hs & Hat & Hsi & Hdev & Hk) Hst.
  destruct Hwf as [(Hseq & Hkv & Hp & Hpt) Hb].
  destruct f as [n t at_ rq se ts tv au ad re ec p ph k]. simpl in *.
  destruct r. destruct Hst. simpl in *. subst.
  unfold LedgerVerificationMaterialRow_try_from. simpl.
  rewrite LedgerEntryId_parse_canonical //= LedgerSequenceNo_from_i64_wf //=.
  rewrite LedgerHash_bytea_round_trip //= LedgerHash_bytea_round_trip //=.
  rewrite LedgerSignature_bytea_round_trip //= LedgerSignatureKeyVersion_new_i32 //=.
  assert (bool_decide (is_Some mr_pk_public_key0) && bool_decide (mr_pk_key_version0 = None) = false) as ->.
  { apply andb_false_iff. destruct mr_pk_key_version0; [right; by apply bool_decide_eq_false|left].
    apply bool_decide_eq_false. intros [? ?]%stored_pk0. done. }
  eexists. split; [done|]. split; [|done]. unfold try_restore_signed_ledger_entry. simpl.
  rewrite LedgerEntryType_parse_as_str /= Hat /= RequestId_parse_canonical /=.
  unfold parse_optional_audit_event_id, parse_optional_secret_id,
    parse_optional_target_secret_version_id, parse_optional_owner_user_id, parse_optional_device_id.
  rewrite (parse_optional_map AuditEventId_parse _ (λ _, True));
    [|intros; apply AuditEventId_parse_canonical|by destruct se].
  simpl. rewrite (parse_optional_map SecretId_parse _ SecretId_wf); [|apply SecretId_parse_canonical|done].
  simpl. rewrite (parse_optional_map LedgerTargetSecretVersionId_parse _ (λ _, True));
    [|intros; apply LedgerTargetSecretVersionId_parse_canonical|by destruct tv].
  simpl. rewrite (parse_optional_map OwnerUserId_parse _ (λ _, True));
    [|intros; apply OwnerUserId_parse_canonical|by destruct au].
  simpl. rewrite (parse_optional_map DeviceId_new _ DeviceId_wf); [| |done].
  2:{ intros [d] Hd. unfold DeviceId_new, DeviceId_wf in *. simpl in *. by rewrite Hd. }
  rewrite /= LedgerResult_parse_as_str /=.
  destruct Hp as [_ Hp]. rewrite Hp. cbn [mbind result_bind].
  unfold SignedLedgerEntry_from_stored_parts. cbn [sp_fields]. rewrite Hval. cbn [mbind result_bind].
  by rewrite Hb.
Qed.
End rpc_lemmas.
