(* ===== verification/LedgerAppender.v ===== *)
(** * The ledger appender ([src/server/ledger_appender.rs])

    Drafts are signed over the head of the chain and sent to the database,
    retrying when another writer moved the head first.  The database is the
    interface [LedgerService]: one call reads the chain state, one appends. *)

From S2P Require Import Prelude RustStd Json Platform Reference Errors Types AuditTypes LedgerTypes LedgerPayload LedgerEntry LedgerChain LedgerRpc.

Definition DEFAULT_MAX_CONFLICT_RETRIES : Z := 1.
Definition MAX_CONFLICT_RETRIES : Z := 3.

Record LedgerAppenderConfig := mk_LedgerAppenderConfig { max_conflict_retries : Z }.
Definition LedgerAppenderConfig_new (n : Z) : LedgerAppenderConfig :=
  mk_LedgerAppenderConfig (Z.min n MAX_CONFLICT_RETRIES).
Definition LedgerAppenderConfig_default : LedgerAppenderConfig :=
  mk_LedgerAppenderConfig DEFAULT_MAX_CONFLICT_RETRIES.
Definition LedgerAppenderConfig_wf (c : LedgerAppenderConfig) : Prop :=
  0 ≤ max_conflict_retries c ≤ MAX_CONFLICT_RETRIES.

Inductive LedgerAppendError :=
| LedgerAppendError_Conflict (failure : LedgerAppendRpcFailure) (attempts : Z)
| LedgerAppendError_InvalidEntry (code : str)
| LedgerAppendError_ExternalDependencyFailed (code : str) (upstream_status : option Z) (attempts : Z).
#[global] Instance LedgerAppendError_eq_dec : EqDecision LedgerAppendError.
Proof. solve_decision. Defined.

Definition LedgerAppendError_as_error_code (e : LedgerAppendError) : str :=
  match e with
  | LedgerAppendError_Conflict failure _ => LedgerAppendRpcFailure_as_error_code failure
  | LedgerAppendError_InvalidEntry code | LedgerAppendError_ExternalDependencyFailed code _ _ => code
  end.
Definition LedgerAppendError_attempts (e : LedgerAppendError) : option Z :=
  match e with
  | LedgerAppendError_Conflict _ attempts
  | LedgerAppendError_ExternalDependencyFailed _ _ attempts => Some attempts
  | LedgerAppendError_InvalidEntry _ => None
  end.
Definition LedgerAppendError_upstream_status (e : LedgerAppendError) : option Z :=
  match e with
  | LedgerAppendError_ExternalDependencyFailed _ upstream_status _ => upstream_status
  | LedgerAppendError_Conflict _ _ | LedgerAppendError_InvalidEntry _ => None
  end.

Definition LedgerAppendError_to_string (e : LedgerAppendError) : str :=
  match e with
  | LedgerAppendError_Conflict failure attempts =>
      "ledger append conflict after " +:+ int_to_string attempts +:+ " attempt(s): "
      +:+ LedgerAppendRpcFailure_as_error_code failure
  | LedgerAppendError_InvalidEntry code => "ledger append invalid entry: " +:+ code
  | LedgerAppendError_ExternalDependencyFailed code upstream_status attempts =>
      "ledger append external dependency failed after " +:+ int_to_string attempts +:+ " attempt(s): "
      +:+ code +:+ match upstream_status with
        | Some status => ", upstream status " +:+ int_to_string status
        | None => ""
        end
  end.

Definition classify_appender_error (failure : LedgerAppendRpcFailure) (upstream : SupabaseRpcError)
    (attempts : Z) : LedgerAppendError :=
  match failure with
  | LedgerAppendRpcFailure_EntryIdConflict | LedgerAppendRpcFailure_EntryHashConflict
  | LedgerAppendRpcFailure_SequenceMismatch | LedgerAppendRpcFailure_PreviousHashMismatch =>
      LedgerAppendError_Conflict failure attempts
  | LedgerAppendRpcFailure_PayloadSchemaViolation | LedgerAppendRpcFailure_InvalidRpcInput =>
      LedgerAppendError_InvalidEntry (LedgerAppendRpcFailure_as_error_code failure)
  | LedgerAppendRpcFailure_ChainStateMissing | LedgerAppendRpcFailure_AppendFailed =>
      LedgerAppendError_ExternalDependencyFailed (LedgerAppendRpcFailure_as_error_code failure)
        (SupabaseRpcError_upstream_status upstream) attempts
  end.

Definition is_retryable_conflict (failure : LedgerAppendRpcFailure) : bool :=
  match failure with
  | LedgerAppendRpcFailure_SequenceMismatch | LedgerAppendRpcFailure_PreviousHashMismatch => true
  | _ => false
  end.

(** ** Drafts *)

Section appender.
Context {P : Platform}.

(** [LedgerAppendDraft] and its [Parts]: an entry without its place in the chain. *)
Record LedgerAppendDraft := mk_LedgerAppendDraft {
  ad_ledger_entry_id : LedgerEntryId;
  ad_entry_type : LedgerEntryType;
  ad_source_event_at : SourceEventAt;
  ad_request_id : RequestId;
  ad_source_event_id : option AuditEventId;
  ad_target_secret_id : option SecretId;
  ad_target_secret_version_id : option LedgerTargetSecretVersionId;
  ad_actor_user_id : option OwnerUserId;
  ad_actor_device_id : option DeviceId;
  ad_result : LedgerResult;
  ad_error_code : option str;
  ad_payload : LedgerPayload;
}.
Abbreviation LedgerAppendDraftParts := LedgerAppendDraft (only parsing).

Definition LedgerAppendDraft_new (parts : LedgerAppendDraftParts) : result LedgerError LedgerAppendDraft :=
  if negb (bool_decide (payload_entry_type (ad_payload parts) = ad_entry_type parts))
  then Err (LedgerError_UnknownPayloadKey "payload.entry_type" (ad_entry_type parts))
  else Ok parts.

(** The fields of the entry a draft becomes at a place in the chain. *)
Definition entry_fields (draft : LedgerAppendDraft) (sequence_no : LedgerSequenceNo)
    (previous_entry_hash : LedgerHash) (v : LedgerSignatureKeyVersion) : CanonicalBuildFields :=
  mk_CanonicalBuildFields sequence_no (ad_entry_type draft) (ad_source_event_at draft)
    (ad_request_id draft) (ad_source_event_id draft) (ad_target_secret_id draft)
    (ad_target_secret_version_id draft) (ad_actor_user_id draft) (ad_actor_device_id draft)
    (ad_result draft) (ad_error_code draft) (ad_payload draft) previous_entry_hash v.

Definition sign_with_sequence (draft : LedgerAppendDraft) (sequence_no : LedgerSequenceNo)
    (previous_entry_hash : LedgerHash) (signing_key : LedgerSigningKey) :
    result LedgerError SignedLedgerEntry :=
  draft ← LedgerEntryDraft_new (mk_LedgerEntryDraftParts (ad_ledger_entry_id draft)
    (entry_fields draft sequence_no previous_entry_hash (sk_key_version signing_key)));
  LedgerEntryDraft_sign draft signing_key.

Definition sign_with_chain_head (draft : LedgerAppendDraft) (chain_head : LedgerChainHead)
    (signing_key : LedgerSigningKey) : result LedgerError SignedLedgerEntry :=
  sequence_no ← LedgerChainHead_next_sequence_no chain_head;
  sign_with_sequence draft sequence_no (last_entry_hash chain_head) signing_key.

(** ** The database *)

Class LedgerService := {
  svc_append_ledger_entry :
    LedgerEntryRpcParams → io World SupabaseRpcError (list AppendLedgerEntryResponse);
  svc_read_chain_state : io World SupabaseRpcError (list LedgerChainStateResponse);
}.

Context {Svc : LedgerService}.

Definition call_append_ledger_entry (entry : SignedLedgerEntry) :
    io World SupabaseRpcError AppendLedgerEntryOutcome :=
  rows ← svc_append_ledger_entry (LedgerEntryRpcParams_from_signed_entry entry);
  lift (first_row AppendLedgerEntryOutcome_try_from rows).

Definition fetch_ledger_chain_head : io World SupabaseRpcError LedgerChainHead :=
  rows ← svc_read_chain_state;
  lift (first_row LedgerChainHead_try_from rows).

(** ** The appender *)

Record LedgerAppender := mk_LedgerAppender {
  signing_key : LedgerSigningKey;
  config : LedgerAppenderConfig;
}.

Definition LedgerAppender_sign_digest_bytes (a : LedgerAppender) (b : bytes) :
    result LedgerError LedgerSignature :=
  LedgerSigningKey_sign_raw_bytes (signing_key a) (sk_key_version (signing_key a)) b.

Definition fetch_chain_head (attempts : Z) : io World LedgerAppendError LedgerChainHead :=
  fetch_ledger_chain_head !?? (λ error,
    LedgerAppendError_ExternalDependencyFailed "ledger_chain_head_fetch_failed"
      (SupabaseRpcError_upstream_status error) attempts).

(** [for retry_index in 0..=max]: [iterations] counts what is left of the range. *)
Fixpoint append_loop (a : LedgerAppender) (draft : LedgerAppendDraft) (iterations : nat)
    (retry_index : Z) : io World LedgerAppendError AppendLedgerEntryOutcome :=
  let max := max_conflict_retries (config a) in
  match iterations with
  | O => lift (Err (LedgerAppendError_ExternalDependencyFailed "ledger_append_retry_exhausted" None (max + 1)))
  | S iterations =>
      let attempts := retry_index + 1 in
      chain_head ← fetch_chain_head attempts;
      signed_entry ← lift (sign_with_chain_head draft chain_head (signing_key a)
        !? (λ _, LedgerAppendError_InvalidEntry "ledger_entry_build_failed"));
      io_match (call_append_ledger_entry signed_entry) (λ r, match r with
      | Ok outcome => mret outcome
      | Err error =>
          let failure := classify_append_ledger_error error in
          if is_retryable_conflict failure && (retry_index <? max)
          then append_loop a draft iterations (retry_index + 1)
          else lift (Err (classify_appender_error failure error attempts))
      end)
  end.

Definition append (a : LedgerAppender) (draft : LedgerAppendDraft) :
    io World LedgerAppendError AppendLedgerEntryOutcome :=
  append_loop a draft (Z.to_nat (max_conflict_retries (config a) + 1)) 0.

Fixpoint sign_entries_loop (key : LedgerSigningKey) (previous_sequence_no : Z)
    (previous_hash : LedgerHash) (drafts : list LedgerAppendDraft) :
    result LedgerAppendError (list SignedLedgerEntry) :=
  match drafts with
  | [] => Ok []
  | draft :: drafts =>
      next_sequence_no ← ok_or (u_checked_add u64_max previous_sequence_no 1)
        (LedgerAppendError_InvalidEntry "ledger_sequence_overflow");
      sequence_no ← LedgerSequenceNo_new next_sequence_no
        !? (λ _, LedgerAppendError_InvalidEntry "ledger_entry_build_failed");
      signed_entry ← sign_with_sequence draft sequence_no previous_hash key
        !? (λ _, LedgerAppendError_InvalidEntry "ledger_entry_build_failed");
      signed_entries ← sign_entries_loop key (se_sequence_no signed_entry)
        (se_entry_hash signed_entry) drafts;
      Ok (signed_entry :: signed_entries)
  end.

Definition sign_entries_from_head (a : LedgerAppender) (drafts : list LedgerAppendDraft)
    (chain_head : LedgerChainHead) : result LedgerAppendError (list SignedLedgerEntry) :=
  sign_entries_loop (signing_key a) (last_sequence_no chain_head) (last_entry_hash chain_head) drafts.

Definition sign_entries (a : LedgerAppender) (drafts : list LedgerAppendDraft) :
    io World LedgerAppendError (list SignedLedgerEntry) :=
  chain_head ← fetch_chain_head 1;
  lift (sign_entries_from_head a drafts chain_head).

(** ** Invariants *)

Definition LedgerAppendDraft_wf (d : LedgerAppendDraft) : Prop :=
  LedgerEntryId_wf (ad_ledger_entry_id d)
  ∧ LedgerPayload_wf (ad_payload d)
  ∧ payload_entry_type (ad_payload d) = ad_entry_type d
  ∧ SourceEventAt_parse (SourceEventAt_as_str (ad_source_event_at d)) = Ok (ad_source_event_at d)
  ∧ from_option SecretId_wf True (ad_target_secret_id d)
  ∧ from_option DeviceId_wf True (ad_actor_device_id d).

(** What the entry constructor checks beyond the draft's own invariant. *)
Definition draft_signable (d : LedgerAppendDraft) : Prop :=
  validate_error_code (ad_result d) (ad_error_code d) "error_code" = Ok tt
  ∧ validate_actor_device_id (ad_actor_device_id d) = Ok tt.

(** ** Lemmas *)

Lemma sign_with_sequence_Ok {L : Ed25519Laws P} d n h key e :
  sign_with_sequence d n h key = Ok e ↔
  validate_entry_fields (entry_fields d n h (sk_key_version key)) = Ok tt
  ∧ ∃ b, build_canonical_payload (entry_fields d n h (sk_key_version key)) = Ok b
    ∧ e = mk_SignedLedgerEntry (ad_ledger_entry_id d) (entry_fields d n h (sk_key_version key)) b
        (LedgerHash_from_canonical_payload b)
        (mk_LedgerSignature (ed_sign (sk_signing_key key) (LedgerCanonicalPayload_as_bytes b))).
Proof.
  unfold sign_with_sequence, LedgerEntryDraft_new, LedgerEntryDraft_sign, LedgerEntryDraft_canonical_payload.
  cbn [dp_fields dp_ledger_entry_id]. destruct (validate_entry_fields _) as [[]|]; simpl; [|naive_solver].
  destruct (build_canonical_payload _) as [b|]; simpl; [|naive_solver].
  rewrite sign_payload_Ok //=. naive_solver.
Qed.

Lemma LedgerAppendDraft_new_Ok parts d :
  LedgerAppendDraft_new parts = Ok d ↔
  d = parts ∧ payload_entry_type (ad_payload parts) = ad_entry_type parts.
Proof. unfold LedgerAppendDraft_new. case_bool_decide; simpl; naive_solver. Qed.

(** One signed entry, from one draft. *)
Lemma sign_entry_fields {LE : Ed25519Laws P} appender draft w entries w' e :
  sign_entries appender [draft] w = (Ok entries, w') → head entries = Some e →
  ∃ n h, se_fields e = entry_fields draft n h (sk_key_version (signing_key appender)).
Proof.
  unfold sign_entries, sign_entries_from_head. intros H He. inv_ok. cbn [sign_entries_loop] in *. inv_ok.
  match goal with H : sign_with_sequence _ _ _ _ = _ |- _ => apply sign_with_sequence_Ok in H as (_ & b & _ & ->) end.
  cbn in He. simplify_eq. by do 2 eexists.
Qed.

Lemma validate_entry_fields_draft d n h v :
  LedgerAppendDraft_wf d →
  validate_entry_fields (entry_fields d n h v) = Ok tt ↔ draft_signable d.
Proof.
  intros (_ & _ & Ht & _). unfold validate_entry_fields, draft_signable. simpl.
  rewrite bool_decide_eq_true_2 //=. rewrite result_bind_Ok. split; [|naive_solver].
  intros ([] & ? & ?). done.
Qed.

Lemma entry_fields_wf d n h v :
  LedgerAppendDraft_wf d → LedgerSequenceNo_wf n → LedgerSignatureKeyVersion_wf v →
  fields_wf (entry_fields d n h v).
Proof. intros (_ & Hp & Ht & _) Hn Hv. by split_and!. Qed.

Lemma sign_with_sequence_total {L : Ed25519Laws P} {LS : SerdeLaws P} d n h key :
  LedgerAppendDraft_wf d → draft_signable d → LedgerSequenceNo_wf n →
  LedgerSignatureKeyVersion_wf (sk_key_version key) →
  ∃ e, sign_with_sequence d n h key = Ok e.
Proof.
  intros Hd Hs Hn Hv. pose proof (entry_fields_wf d n h _ Hd Hn Hv) as Hf.
  destruct (serde_round_trip _ (canonical_document_exact _ Hf)) as (s & Hser & _).
  eexists. apply sign_with_sequence_Ok. split; [by apply validate_entry_fields_draft|].
  eexists. split; [apply build_canonical_payload_Ok; by exists s|done].
Qed.
End appender.

Section appender_lemmas.
Context {P : Platform}.

Definition LedgerAppender_wf (a : LedgerAppender) : Prop :=
  LedgerSignatureKeyVersion_wf (sk_key_version (signing_key a)) ∧ LedgerAppenderConfig_wf (config a).

Lemma next_sequence_Ok n m :
  0 ≤ n → LedgerSequenceNo_new (n + 1) = Ok m → LedgerSequenceNo_get m = n + 1 ∧ LedgerSequenceNo_wf m.
Proof. intros Hn. by rewrite LedgerSequenceNo_new_Ok; [|lia]. Qed.

(** One signed entry is a chain of length one under the signer's key. *)
Lemma sign_with_sequence_step {L : Ed25519Laws P} keys d n h key e :
  registered_key keys (sk_key_version key) (LedgerSigningKey_verification_key key) →
  LedgerSequenceNo_wf n → sign_with_sequence d n h key = Ok e →
  Chain keys (mk_LedgerChainHead (LedgerSequenceNo_get n - 1) h) [e]
    (mk_LedgerChainHead (LedgerSequenceNo_get n) (se_entry_hash e)).
Proof.
  intros Hkey Hn (_ & b & _ & ->)%sign_with_sequence_Ok. unfold LedgerSequenceNo_wf in Hn.
  apply Chain_cons with (key := LedgerSigningKey_verification_key key);
    unfold se_sequence_no; simpl; try done; [lia|unfold LEDGER_I64_MAX_U64, u64_max in *; lia| |constructor].
  split; [done|]. simpl. apply ed_verify_sign.
Qed.

Lemma sign_entries_loop_Chain {L : Ed25519Laws P} keys key n h drafts entries :
  registered_key keys (sk_key_version key) (LedgerSigningKey_verification_key key) →
  0 ≤ n → sign_entries_loop key n h drafts = Ok entries →
  ∃ final, Chain keys (mk_LedgerChainHead n h) entries final
    ∧ (entries ≠ [] → last_sequence_no final ≤ LEDGER_I64_MAX_U64).
Proof.
  intros Hkey. revert n h entries. induction drafts as [|d drafts IH]; intros n h entries Hn; simpl.
  { intros [= <-]. eexists. split; [constructor|done]. }
  intros H. inv_ok. select (u_checked_add _ _ _ = _) (fun H => apply u_checked_add_Some in H as [-> _]).
  select (LedgerSequenceNo_new _ = _) (fun H => apply next_sequence_Ok in H as [Hget Hwf]; [|done]).
  select (sign_with_sequence _ _ _ _ = _) (fun H => rename H into Hsign).
  pose proof (sign_with_sequence_step keys _ _ _ _ _ Hkey Hwf Hsign) as Hstep.
  apply sign_with_sequence_Ok in Hsign as (_ & b & _ & ->). unfold LedgerSequenceNo_wf in Hwf.
  rewrite Hget in Hstep. replace (n + 1 - 1) with n in Hstep by lia.
  select (sign_entries_loop _ _ _ _ = _) (fun H => rename H into Hrest; apply IH in Hrest as (final & Hc & Hl)).
  - exists final. unfold se_sequence_no in Hc. simpl in Hc. rewrite Hget in Hc. split.
    + match goal with |- Chain _ _ (?e :: ?l) _ => apply (Chain_app _ _ [e] l) end. eauto.
    + intros _. select (list SignedLedgerEntry) (fun l => destruct l); [|by apply Hl]. inversion Hc; subst. simpl. lia.
  - unfold se_sequence_no. simpl. lia.
Qed.

Lemma sign_entries_loop_entries {L : Ed25519Laws P} {LH : Sha256Laws P} key n h drafts entries :
  0 ≤ n → LedgerHash_wf h → LedgerSignatureKeyVersion_wf (sk_key_version key) →
  LedgerSignatureKeyVersion_get (sk_key_version key) ≤ i32_max →
  Forall LedgerAppendDraft_wf drafts →
  sign_entries_loop key n h drafts = Ok entries →
  Forall2 (λ d e, entry_storable e ∧ se_ledger_entry_id e = ad_ledger_entry_id d
    ∧ cf_entry_type (se_fields e) = ad_entry_type d ∧ cf_payload (se_fields e) = ad_payload d
    ∧ se_signature_key_version e = sk_key_version key) drafts entries.
Proof.
  intros Hn Hh Hv Hv32 Hd. revert n h entries Hn Hh.
  induction Hd as [|d drafts Hd _ IH]; intros n h entries Hn Hh; simpl; [by intros [= <-]|].
  intros H. inv_ok. select (u_checked_add _ _ _ = _) (fun H => apply u_checked_add_Some in H as [-> _]).
  select (LedgerSequenceNo_new _ = _) (fun H => apply next_sequence_Ok in H as [Hget Hwf]; [|done]).
  select (sign_with_sequence _ _ _ _ = _) (fun H => apply sign_with_sequence_Ok in H as (Hval & b & Hb & ->)).
  select (sign_entries_loop _ _ _ _ = _) (fun H => apply IH in H).
  - constructor; [|done]. split; [|done]. pose proof (entry_fields_wf d _ h _ Hd Hwf Hv) as Hf.
    destruct Hd as (Hi & _ & _ & Hat & Hs & Hdev). unfold entry_storable. simpl. split_and!; try done.
    + apply sha256_length.
    + unfold LedgerSignature_wf. simpl. by rewrite ed_sign_length.
  - unfold se_sequence_no. simpl. lia.
  - apply sha256_length.
Qed.

Lemma sign_entries_loop_total {L : Ed25519Laws P} {LS : SerdeLaws P} key n h drafts :
  0 ≤ n → LedgerSignatureKeyVersion_wf (sk_key_version key) →
  Forall LedgerAppendDraft_wf drafts → Forall draft_signable drafts →
  n + Z.of_nat (length drafts) ≤ LEDGER_I64_MAX_U64 →
  ∃ entries, sign_entries_loop key n h drafts = Ok entries.
Proof.
  intros Hn Hv Hd Hs. revert n h Hn. induction Hd as [|d drafts Hd _ IH]; intros n h Hn Hlen; simpl; [eauto|].
  apply Forall_cons in Hs as [Hsd Hs]. simpl in Hlen.
  assert (u_checked_add u64_max n 1 = Some (n + 1)) as ->.
  { apply u_checked_add_Some. unfold LEDGER_I64_MAX_U64, u64_max in *. lia. }
  assert (LedgerSequenceNo_wf (mk_LedgerSequenceNo (n + 1))) as Hwf.
  { unfold LedgerSequenceNo_wf. simpl. lia. }
  assert (LedgerSequenceNo_new (n + 1) = Ok (mk_LedgerSequenceNo (n + 1))) as Hnew.
  { apply LedgerSequenceNo_new_Ok; [lia|done]. }
  rewrite /= Hnew /=.
  destruct (sign_with_sequence_total d _ h key Hd Hsd Hwf Hv) as [e He]. rewrite He /=.
  assert (se_sequence_no e = n + 1) as Hse.
  { by apply sign_with_sequence_Ok in He as (_ & b & _ & ->). }
  destruct (IH Hs (se_sequence_no e) (se_entry_hash e)) as [entries Hentries]; [lia..|].
  rewrite Hentries /=. eauto.
Qed.
End appender_lemmas.

(** A head read from the database is well formed. *)
Lemma fetch_chain_head_wf {P : Platform} {Svc : LedgerService} n w head w' :
  fetch_chain_head n w = (Ok head, w') → LedgerChainHead_wf head ∧ LedgerHash_wf (last_entry_hash head).
Proof.
  unfold fetch_chain_head, fetch_ledger_chain_head, first_row, LedgerChainHead_try_from,
    LedgerChainHead_from_i64. intros H. inv_ok.
  select (LedgerChainHead_new _ _ = _) (fun H => apply LedgerChainHead_new_Ok in H as [-> ?]).
  select (u_try_from _ _ = _) (fun H => apply u_try_from_Some in H as [-> ?]).
  unfold LedgerHash_from_bytea_hex, LedgerHash_from_hex in *. inv_ok.
  select (LedgerHash_from_bytes _ = _) (fun H => apply LedgerHash_from_bytes_Ok in H as [? ?]).
  unfold LedgerChainHead_wf. simpl. split; [lia|done].
Qed.

(** ** Properties *)

Section appender_theorems.
Context {P : Platform}.

Lemma sign_entries_loop_length key n h drafts entries :
  sign_entries_loop key n h drafts = Ok entries → length entries = length drafts.
Proof.
  revert n h entries. induction drafts as [|d drafts IH]; simpl; intros n h entries H; inv_ok; [done|].
  simpl. f_equal. by eapply IH.
Qed.

Lemma sign_entries_verify {LE : Ed25519Laws P} (a : LedgerAppender) drafts head keys entries :
  LedgerChainHead_wf head →
  registered_key keys (sk_key_version (signing_key a)) (LedgerSigningKey_verification_key (signing_key a)) →
  sign_entries_from_head a drafts head = Ok entries →
  ∃ final, verify_ledger_chain entries head keys = Ok final
    ∧ last_sequence_no final = last_sequence_no head + Z.of_nat (length drafts).
Proof.
  destruct head as [n h]. intros [Hn Hmax] Hkey Hs. unfold sign_entries_from_head in Hs. simpl in *.
  destruct (sign_entries_loop_Chain keys _ _ _ _ _ Hkey Hn Hs) as (final & Hc & Hl).
  apply sign_entries_loop_length in Hs as <-.
  exists final. pose proof (Chain_length _ _ _ _ Hc) as Hlen. simpl in Hlen. split; [|done].
  apply verify_ledger_chain_from_Ok. split; [done|]. destruct entries; [simpl in *; lia|by apply Hl].
Qed.

(** A batch signed from a head is accepted by verification from that head,
    under any registry whose first key for the signer's version is the signer's,
    and moves the head by exactly the number of drafts. *)
Theorem signed_batch_verifies {LE : Ed25519Laws P} (a : LedgerAppender) drafts head keys entries :
  LedgerChainHead_wf head →
  registered_key keys (sk_key_version (signing_key a)) (LedgerSigningKey_verification_key (signing_key a)) →
  sign_entries_from_head a drafts head = Ok entries →
  ∃ final, verify_ledger_chain entries head keys = Ok final
    ∧ last_sequence_no final = last_sequence_no head + Z.of_nat (length drafts).
Proof.
  apply sign_entries_verify.
Qed.

(** C20. Signing is total: a batch of well-formed drafts is signed exactly when
    the sequence numbers it needs stay within the database's [bigint]. *)
Theorem signing_succeeds_iff_in_range {LE : Ed25519Laws P} {LS : SerdeLaws P}
    (a : LedgerAppender) drafts head :
  LedgerAppender_wf a → LedgerChainHead_wf head →
  Forall LedgerAppendDraft_wf drafts → Forall draft_signable drafts →
  is_ok (sign_entries_from_head a drafts head) = true ↔
  last_sequence_no head + Z.of_nat (length drafts) ≤ LEDGER_I64_MAX_U64.
Proof.
  destruct head as [n h]. intros [Hv _] [Hn Hmax] Hd Hs. unfold sign_entries_from_head. simpl in *. split.
  - destruct (sign_entries_loop _ _ _ _) as [entries|] eqn:E; [intros _|done].
    clear Hd Hs. revert n h Hn Hmax entries E.
    induction drafts as [|d drafts IH]; intros n h Hn Hmax entries E; simpl in *; [lia|]. inv_ok.
    select (u_checked_add _ _ _ = _) (fun H => apply u_checked_add_Some in H as [-> _]).
    select (LedgerSequenceNo_new _ = _) (fun H => apply next_sequence_Ok in H as [Hget Hwf]; [|done]).
    select (sign_with_sequence _ _ _ _ = _) (fun H => apply sign_with_sequence_Ok in H as (_ & b & _ & ->)).
    unfold LedgerSequenceNo_wf in Hwf.
    select (sign_entries_loop _ _ _ _ = _) (fun H => apply IH in H);
      unfold se_sequence_no in *; simpl in *; lia.
  - intros Hlen. by destruct (sign_entries_loop_total (signing_key a) n h drafts Hn Hv Hd Hs Hlen) as [entries ->].
Qed.
End appender_theorems.

(** ** From the signer through the database to the verifier *)

Section export.
Context {P : Platform}.

(** The key columns of a row, filled from a registry that has the signer's key. *)
Definition key_registered (key : LedgerVerifyingKey) (r : LedgerVerificationMaterialResponse) : Prop :=
  mr_pk_key_version r = Some (LedgerSignatureKeyVersion_get (vk_key_version key))
  ∧ mr_pk_public_key r = Some ("\x" +:+ hex_encode (LedgerVerifyingKey_as_bytes key))
  ∧ mr_pk_algorithm r = Some "ed25519"%string
  ∧ ∃ status, mr_pk_status r = Some status ∧ status ∈ ["created"; "active"; "retired"]%string.

Lemma restore_registered_key {LE : Ed25519Laws P} {LH : HexLaws P} row (key : LedgerVerifyingKey) status :
  LedgerSignatureKeyVersion_wf (vk_key_version key) →
  LedgerSignatureKeyVersion_get (vk_key_version key) ≤ i32_max →
  row_signature_key_version row = vk_key_version key →
  row_pk_key_version row = Some (LedgerSignatureKeyVersion_get (vk_key_version key)) →
  row_pk_public_key row = Some ("\x" +:+ hex_encode (LedgerVerifyingKey_as_bytes key)) →
  row_pk_algorithm row = Some "ed25519"%string →
  row_pk_status row = Some status → status ∈ ["created"; "active"; "retired"]%string →
  try_restore_verifying_key row = Ok (Some key).
Proof.
  intros Hv H32 Hs Hkv Hpk Halg Hst Hin. unfold try_restore_verifying_key. rewrite Hkv Hpk Halg Hst /=.
  assert (negb (String.eqb status "created") && negb (String.eqb status "active")
    && negb (String.eqb status "retired") = false) as ->.
  { by repeat apply elem_of_cons in Hin as [->|Hin]; try apply not_elem_of_nil in Hin. }
  rewrite LedgerSignatureKeyVersion_new_i32 //= Hs bool_decide_eq_true_2 //=.
  unfold decode_bytea_hex. change (String "\" (String "x" ?s)) with ("\x" +:+ s).
  rewrite (strip_prefix_app "\x") /= hex_decode_encode /=. by rewrite verifying_key_bytes_round_trip.
Qed.

(** C10. The audit path end to end: entries signed by the appender, stored by the
    database and exported with the signer's registered key are restored as the
    very entries that were signed, their keys are restored, and verification
    with the restored entries and keys succeeds. *)
Theorem exported_ledger_verifies {LU : UuidLaws P} {LH : HexLaws P} {LE : Ed25519Laws P} {L2 : Sha256Laws P}
    (a : LedgerAppender) drafts head entries responses :
  let key := LedgerSigningKey_verification_key (signing_key a) in
  LedgerAppender_wf a → LedgerSignatureKeyVersion_get (vk_key_version key) ≤ i32_max →
  LedgerChainHead_wf head → LedgerHash_wf (last_entry_hash head) →
  Forall LedgerAppendDraft_wf drafts →
  sign_entries_from_head a drafts head = Ok entries →
  Forall2 (λ e r, stored_as (LedgerEntryRpcParams_from_signed_entry e) r ∧ key_registered key r)
    entries responses →
  ∃ rows keys final,
    try_map LedgerVerificationMaterialRow_try_from responses = Ok rows
    ∧ try_map try_restore_signed_ledger_entry rows = Ok entries
    ∧ try_map try_restore_verifying_key rows = Ok (Some <$> keys)
    ∧ verify_ledger_chain entries head keys = Ok final.
Proof.
  intros key [Hv _] H32 Hhead Hh Hd Hsign Hst.
  pose proof (sign_entries_loop_entries _ _ _ _ _ (proj1 Hhead) Hh Hv H32 Hd Hsign) as Hent.
  assert (∃ rows, Forall2 (λ r row, LedgerVerificationMaterialRow_try_from r = Ok row) responses rows
    ∧ Forall2 (λ row e, try_restore_signed_ledger_entry row = Ok e) rows entries
    ∧ Forall2 (λ row k, try_restore_verifying_key row = Ok k) rows (replicate (length rows) (Some key)))
    as (rows & H1 & H2 & H3).
  { clear Hsign. apply Forall2_flip in Hent.
    revert drafts Hd Hent. induction Hst as [|e r entries responses [Hst Hk] _ IH]; intros drafts Hd Hent.
    { exists []. repeat constructor. }
    apply Forall2_cons_inv_l in Hent as (d & drafts' & (He & _ & _ & _ & Hkv) & Hent & ->).
    apply Forall_cons in Hd as [_ Hd].
    destruct (IH drafts' Hd Hent) as (rows & H1 & H2 & H3).
    destruct (stored_row_restores e r He Hst) as (row & Hrow & Hres & Hrk & Hpv & Hpk & Hpa & Hps).
    destruct Hk as (Hk1 & Hk2 & Hk3 & status & Hk4 & Hk5).
    exists (row :: rows). split; [by constructor|]. split; [by constructor|]. constructor; [|done].
    apply (restore_registered_key row key status); [exact Hv|exact H32|by rewrite Hrk Hkv|congruence..|done]. }
  exists rows, (replicate (length rows) key).
  rewrite fmap_replicate.
  apply try_map_Ok in H1, H2, H3. rewrite H1 H2 H3. destruct rows as [|row rows].
  - destruct entries; [|done]. destruct Hhead as [_ Hmax]. exists head. split_and!; try done.
    unfold verify_ledger_chain. simpl. apply LedgerChainHead_new_Ok. by destruct head.
  - simpl. destruct (sign_entries_loop_Chain (replicate (Datatypes.S (length rows)) key) _ _ _ _ _
      ltac:(exists [], (replicate (length rows) key); by repeat constructor) (proj1 Hhead) Hsign) as (final & Hc & Hl).
    exists final. split_and!; try done. destruct head. apply verify_ledger_chain_from_Ok. split; [done|].
    apply Hl. intros ->. apply try_map_Ok in H2. by inversion H2.
Qed.
End export.

(** ** The append loop *)

Section append_loop.
Context {P : Platform} {Svc : LedgerService}.

(** One round that ended in a conflict worth retrying: the head that was read
    and the failure the database answered with. *)
Definition conflicting_round (a : LedgerAppender) (d : LedgerAppendDraft) (attempts : Z) (w : World)
    (failure : LedgerAppendRpcFailure) (w' : World) : Prop :=
  ∃ head w1 e error, fetch_chain_head attempts w = (Ok head, w1)
    ∧ sign_with_chain_head d head (signing_key a) = Ok e
    ∧ call_append_ledger_entry e w1 = (Err error, w')
    ∧ classify_append_ledger_error error = failure
    ∧ is_retryable_conflict failure = true.

(** The rounds of a run that were retried, from a retry index on. *)
Inductive retried (a : LedgerAppender) (d : LedgerAppendDraft) :
    Z → World → list LedgerAppendRpcFailure → World → Prop :=
| retried_nil i w : retried a d i w [] w
| retried_cons i w failure w1 failures w2 :
    conflicting_round a d (i + 1) w failure w1 →
    retried a d (i + 1) w1 failures w2 →
    retried a d i w (failure :: failures) w2.

(** What the last round of a run with [n] retries before it may return. *)
Definition last_round (a : LedgerAppender) (d : LedgerAppendDraft) (n : Z) (w : World)
    (r : result LedgerAppendError AppendLedgerEntryOutcome) (w' : World) : Prop :=
  let attempts := n + 1 in
  match fetch_chain_head attempts w with
  | (Err e, w1) => r = Err e ∧ w' = w1
  | (Ok head, w1) =>
      match sign_with_chain_head d head (signing_key a) with
      | Err _ => r = Err (LedgerAppendError_InvalidEntry "ledger_entry_build_failed") ∧ w' = w1
      | Ok e =>
          match call_append_ledger_entry e w1 with
          | (Ok outcome, w2) => r = Ok outcome ∧ w' = w2
          | (Err error, w2) =>
              r = Err (classify_appender_error (classify_append_ledger_error error) error attempts)
              ∧ w' = w2
              ∧ (is_retryable_conflict (classify_append_ledger_error error) = true →
                 n = max_conflict_retries (config a))
          end
      end
  end.

Ltac no_retry w :=
  simplify_eq; exists [], w; split; [constructor|]; split; [simpl; lia|];
  unfold last_round; cbn [length Z.of_nat]; rewrite Z.add_0_r.

Lemma append_loop_rounds a d iterations i w r w' :
  0 ≤ i ≤ max_conflict_retries (config a) →
  Z.of_nat iterations = max_conflict_retries (config a) + 1 - i →
  append_loop a d iterations i w = (r, w') →
  ∃ failures w1, retried a d i w failures w1
    ∧ i + Z.of_nat (length failures) ≤ max_conflict_retries (config a)
    ∧ last_round a d (i + Z.of_nat (length failures)) w1 r w'.
Proof.
  revert i w. induction iterations as [|k IH]; intros i w Hi Hk; [lia|]. cbn [append_loop].
  intros H. unfold mbind, io_bind in H.
  destruct (fetch_chain_head (i + 1) w) as [[head|e] w1] eqn:Hfetch.
  2:{ no_retry w. by rewrite Hfetch. }
  unfold lift in H. destruct (sign_with_chain_head d head (signing_key a)) as [e|e] eqn:Hsign; simpl in H.
  2:{ no_retry w. by rewrite Hfetch Hsign. }
  unfold io_match in H. destruct (call_append_ledger_entry e w1) as [[out|error] w2] eqn:Hcall.
  { unfold mret, io_ret in H. no_retry w. by rewrite Hfetch Hsign Hcall. }
  destruct (is_retryable_conflict _ && _) eqn:Hretry.
  - b2p. destruct (IH (i + 1) w2) as (failures & w3 & Hr & Hlen & Hlast); [lia|lia|done|].
    exists (classify_append_ledger_error error :: failures), w3. split.
    { econstructor; [|done]. exists head, w1, e, error. done. }
    simpl. replace (i + Z.of_nat (Datatypes.S (length failures))) with (i + 1 + Z.of_nat (length failures)) by lia.
    done.
  - no_retry w. rewrite Hfetch Hsign Hcall. split_and!; [done..|].
    intros Hc. rewrite Hc in Hretry. simpl in Hretry. b2p. lia.
Qed.

(** C19. Appending terminates after a bounded number of rounds: every round but
    the last ended in a sequence or previous-hash conflict, there are at most
    [max_conflict_retries] of those (at most three), each round signs over a
    freshly read head, and the result is that of the last round; in particular
    a retryable conflict is only returned when the retries are used up. *)
Theorem append_bounded_rounds a d w r w' :
  LedgerAppender_wf a → append a d w = (r, w') →
  ∃ conflicts w1, retried a d 0 w conflicts w1
    ∧ Z.of_nat (length conflicts) ≤ max_conflict_retries (config a) ≤ MAX_CONFLICT_RETRIES
    ∧ last_round a d (Z.of_nat (length conflicts)) w1 r w'.
Proof.
  intros [_ Hc] H. unfold LedgerAppenderConfig_wf in Hc. unfold append in H.
  apply append_loop_rounds in H as (failures & w1 & Hr & Hlen & Hlast); [|lia|rewrite Z2Nat.id; lia].
  exists failures, w1. rewrite Z.add_0_l in Hlast. split_and!; [done|lia|lia|done].
Qed.

(** The exhaustion error after the loop cannot be returned, and a reported
    attempt count is between one and [max_conflict_retries + 1]. *)
Theorem append_errors a d w e w' :
  LedgerAppender_wf a → append a d w = (Err e, w') →
  LedgerAppendError_as_error_code e ≠ "ledger_append_retry_exhausted"%string
  ∧ from_option (λ n, 1 ≤ n ≤ max_conflict_retries (config a) + 1) True (LedgerAppendError_attempts e).
Proof.
  intros [_ Hc] H. unfold LedgerAppenderConfig_wf in Hc. unfold append in H.
  apply append_loop_rounds in H as (failures & w1 & _ & Hlen & Hlast); [|lia|rewrite Z2Nat.id; lia].
  rewrite Z.add_0_l in Hlast, Hlen. set (n := Z.of_nat (length failures)) in *.
  assert (0 ≤ n) by lia. unfold last_round in Hlast.
  destruct (fetch_chain_head (n + 1) w1) as [[head|e'] w2] eqn:Hf.
  2:{ destruct Hlast as [[= ->] _]. unfold fetch_chain_head, io_map_err in Hf.
      destruct (fetch_ledger_chain_head w1) as [[]]; simplify_eq/=. split; [done|lia]. }
  destruct (sign_with_chain_head _ _ _); [|by destruct Hlast as [[= ->] _]].
  destruct (call_append_ledger_entry _ _) as [[out|error] w3]; [by destruct Hlast|].
  destruct Hlast as ([= ->] & _ & _). destruct (classify_append_ledger_error error); simpl; split; done || lia.
Qed.
End append_loop.
