(* ===== verification/ApiError.v ===== *)
(** * Errors of the HTTP API ([src/server/errors.rs])

    The status and code each error answers with, and the conversions from the
    errors of the components. *)

From S2P Require Import Prelude RustStd Json Platform Errors Types AuditTypes LedgerTypes LedgerPayload LedgerEntry LedgerChain LedgerRpc.

Inductive ApiError :=
| ApiError_Unauthorized (message : str)
| ApiError_Forbidden (message : str)
| ApiError_NotFound (message : str)
| ApiError_Conflict (message : str)
| ApiError_BadRequest (message : str)
| ApiError_UnsupportedMediaType (message : str)
| ApiError_PayloadTooLarge (message : str)
| ApiError_RequestTimeout
| ApiError_RateLimited
| ApiError_DecryptFailed
| ApiError_KeyUnavailable
| ApiError_AuditRecordFailed
| ApiError_LedgerAppendFailed
| ApiError_SupabaseError (e : SupabaseRpcError)
| ApiError_DbIntegrityViolation (message : str)
| ApiError_InternalInvariantViolation (message : str)
| ApiError_InternalError (message : str).
#[global] Instance ApiError_eq_dec : EqDecision ApiError.
Proof. solve_decision. Defined.

Definition ApiError_to_string (e : ApiError) : str :=
  match e with
  | ApiError_Unauthorized message => "unauthorized: " +:+ message
  | ApiError_Forbidden message => "forbidden: " +:+ message
  | ApiError_NotFound message => "not found: " +:+ message
  | ApiError_Conflict message => "conflict: " +:+ message
  | ApiError_BadRequest message => "bad request: " +:+ message
  | ApiError_UnsupportedMediaType message => "unsupported media type: " +:+ message
  | ApiError_PayloadTooLarge message => "payload too large: " +:+ message
  | ApiError_RequestTimeout => "request timeout"
  | ApiError_RateLimited => "rate limited"
  | ApiError_DecryptFailed => "decrypt failed"
  | ApiError_KeyUnavailable => "key unavailable"
  | ApiError_AuditRecordFailed => "audit record failed"
  | ApiError_LedgerAppendFailed => "ledger append failed"
  | ApiError_SupabaseError error => SupabaseRpcError_to_string error
  | ApiError_DbIntegrityViolation message => "db integrity violation: " +:+ message
  | ApiError_InternalInvariantViolation message => "internal invariant violation: " +:+ message
  | ApiError_InternalError message => "internal error: " +:+ message
  end.

Definition ApiError_status_and_code (e : ApiError) : Z * str :=
  (match e with
  | ApiError_Unauthorized _ => (401, "unauthorized")
  | ApiError_Forbidden _ => (403, "forbidden")
  | ApiError_NotFound _ => (404, "not_found")
  | ApiError_Conflict _ => (409, "alias_conflict")
  | ApiError_BadRequest _ => (400, "bad_request")
  | ApiError_UnsupportedMediaType _ => (415, "unsupported_media_type")
  | ApiError_PayloadTooLarge _ => (413, "payload_too_large")
  | ApiError_RequestTimeout => (503, "request_timeout")
  | ApiError_RateLimited => (429, "rate_limited")
  | ApiError_DecryptFailed => (400, "decrypt_failed")
  | ApiError_KeyUnavailable => (503, "key_unavailable")
  | ApiError_AuditRecordFailed => (503, "audit_record_failed")
  | ApiError_LedgerAppendFailed => (502, "ledger_append_failed")
  | ApiError_SupabaseError _ => (502, "upstream_dependency_failed")
  | ApiError_DbIntegrityViolation _ => (500, "db_integrity_violation")
  | ApiError_InternalInvariantViolation _ => (500, "internal_invariant_violation")
  | ApiError_InternalError _ => (500, "internal_error")
  end)%string.

(** The [From] conversions. *)
Definition ApiError_from_JwtVerificationError (e : JwtVerificationError) : ApiError :=
  ApiError_Unauthorized (JwtVerificationError_to_string e).

Definition ApiError_from_SecretWriteError (e : SecretWriteError) : ApiError :=
  match e with
  | SecretWriteError_Input _ | SecretWriteError_Aad _ =>
      ApiError_BadRequest (SecretWriteError_to_string e)
  | SecretWriteError_Keyring _ => ApiError_KeyUnavailable
  | SecretWriteError_Crypto _ => ApiError_InternalError (SecretWriteError_to_string e)
  end.

Definition ApiError_from_SecretDecryptError (e : SecretDecryptError) : ApiError :=
  match e with
  | SecretDecryptError_Authorization _ => ApiError_Forbidden "forbidden"
  | SecretDecryptError_Keyring _ => ApiError_KeyUnavailable
  | SecretDecryptError_Aad _ | SecretDecryptError_Crypto _ | SecretDecryptError_Integrity _ =>
      ApiError_DecryptFailed
  end.

Definition ApiError_from_SupabaseRpcError : SupabaseRpcError → ApiError := ApiError_SupabaseError.
