(* ===== verification/WriteLedger.v ===== *)
(** * The ledger entries of a write
    ([src/server/use_cases/write_secret_version/{ledger,request}.rs])

    Every write carries a ledger entry for the new version and, on a rotation,
    one for each version that falls out of the retention window.  The entries
    are signed as one batch over the head of the chain. *)

From S2P Require Import Prelude RustStd Json Platform Reference Errors Types Aad Crypto Authorization SecretStore AuditTypes LedgerTypes LedgerPayload LedgerEntry LedgerChain LedgerRpc LedgerAppender ApiError.

(** ** [slice::sort_by_key]: stable *)

Section sort.
Context {A : Type} (key : A → Z).

Fixpoint insert_by_key (x : A) (l : list A) : list A :=
  match l with
  | [] => [x]
  | y :: l' => if key x <=? key y then x :: l else y :: insert_by_key x l'
  end.
Definition sort_by_key (l : list A) : list A := foldr insert_by_key [] l.

Lemma insert_by_key_perm x l : insert_by_key x l ≡ₚ x :: l.
Proof.
  induction l as [|y l IH]; simpl; [done|]. case_if; [done|]. rewrite IH. apply Permutation_swap.
Qed.

Lemma sort_by_key_perm l : sort_by_key l ≡ₚ l.
Proof. induction l as [|x l IH]; simpl; [done|]. by rewrite insert_by_key_perm IH. Qed.

Lemma insert_by_key_sorted x l :
  StronglySorted (λ x y, key x ≤ key y) l → StronglySorted (λ x y, key x ≤ key y) (insert_by_key x l).
Proof.
  induction 1 as [|y l Hl IH Hy]; simpl; [repeat constructor|]. case_if; b2p.
  - constructor; [by constructor|]. constructor; [done|].
    eapply Forall_impl; [done|]. simpl. intros; lia.
  - constructor; [done|]. rewrite insert_by_key_perm. constructor; [lia|done].
Qed.

Lemma sort_by_key_sorted l : StronglySorted (λ x y, key x ≤ key y) (sort_by_key l).
Proof. induction l; simpl; [constructor|by apply insert_by_key_sorted]. Qed.

(** Cutting a sorted list separates small keys from large ones. *)
Lemma sorted_take_drop n l :
  StronglySorted (λ x y, key x ≤ key y) l →
  Forall (λ x, Forall (λ y, key x ≤ key y) (drop n l)) (take n l).
Proof.
  intros Hl. revert n. induction Hl as [|x l Hl IH Hx]; intros [|n]; simpl; try constructor; [|by apply IH].
  by apply Forall_drop.
Qed.
End sort.

Definition SECRET_VERSION_RETENTION_LIMIT : nat := 4.

Section write_ledger.
Context {P : Platform}.

(** [SecretVersionRetentionSnapshot] and the module's own copy of it. *)
Record RetentionVersionSnapshot := mk_RetentionVersionSnapshot {
  ret_secret_version_id : SecretVersionId;
  ret_version : SecretVersion;
  ret_key_version : KeyVersion;
}.

(** [SourceEventAt::now_utc().map_err(...)]. *)
Definition ledger_now : io World LedgerError SourceEventAt :=
  SourceEventAt_now_utc !?? (λ _, LedgerError_RandomnessUnavailable).
Definition generate_source_event_id : io World LedgerError AuditEventId :=
  AuditEventId_generate !?? (λ _, LedgerError_InvalidUuid "source_event_id").

Definition build_write_ledger_draft (request_id : RequestId) (prepared : PreparedSecretVersion) :
    io World LedgerError LedgerAppendDraft :=
  source_event_at ← ledger_now;
  let entry_type := match prep_write_action prepared with
    | EncryptCreate => LedgerEntryType_SecretCreated
    | EncryptRotate => LedgerEntryType_SecretVersionCreated
    end in
  payload ← lift (LedgerPayload_new entry_type (JObject (map_of_list
    [("algorithm", JString ALGORITHM_XCHACHA20_POLY1305);
     ("classification", JString (Classification_as_str (prep_classification prepared)));
     ("key_version", json_uint (KeyVersion_get (prep_key_version prepared)));
     ("version", json_uint (SecretVersion_get (prep_version prepared)))]%string)));
  target_secret_version_id ← lift (LedgerTargetSecretVersionId_from_secret_version_id
    (prep_secret_version_id prepared));
  ledger_entry_id ← LedgerEntryId_generate;
  source_event_id ← generate_source_event_id;
  lift (LedgerAppendDraft_new {|
    ad_ledger_entry_id := ledger_entry_id;
    ad_entry_type := entry_type;
    ad_source_event_at := source_event_at;
    ad_request_id := request_id;
    ad_source_event_id := Some source_event_id;
    ad_target_secret_id := Some (prep_secret_id prepared);
    ad_target_secret_version_id := Some target_secret_version_id;
    ad_actor_user_id := Some (prep_owner_user_id prepared);
    ad_actor_device_id := Some (prep_created_by_device_id prepared);
    ad_result := LedgerResult_Success;
    ad_error_code := None;
    ad_payload := payload;
  |}).

Definition build_purge_ledger_draft (request_id : RequestId) (prepared : PreparedSecretVersion)
    (purged : RetentionVersionSnapshot) : io World LedgerError LedgerAppendDraft :=
  let entry_type := LedgerEntryType_SecretVersionPurged in
  payload ← lift (LedgerPayload_new entry_type (JObject (map_of_list
    [("key_version", json_uint (KeyVersion_get (ret_key_version purged)));
     ("retention_limit", json_uint (Z.of_nat SECRET_VERSION_RETENTION_LIMIT));
     ("version", json_uint (SecretVersion_get (ret_version purged)))]%string)));
  target_secret_version_id ← lift (LedgerTargetSecretVersionId_from_secret_version_id
    (ret_secret_version_id purged));
  ledger_entry_id ← LedgerEntryId_generate;
  source_event_at ← ledger_now;
  source_event_id ← generate_source_event_id;
  lift (LedgerAppendDraft_new {|
    ad_ledger_entry_id := ledger_entry_id;
    ad_entry_type := entry_type;
    ad_source_event_at := source_event_at;
    ad_request_id := request_id;
    ad_source_event_id := Some source_event_id;
    ad_target_secret_id := Some (prep_secret_id prepared);
    ad_target_secret_version_id := Some target_secret_version_id;
    ad_actor_user_id := Some (prep_owner_user_id prepared);
    ad_actor_device_id := Some (prep_created_by_device_id prepared);
    ad_result := LedgerResult_Success;
    ad_error_code := None;
    ad_payload := payload;
  |}).

Definition ret_version_no (s : RetentionVersionSnapshot) : Z := SecretVersion_get (ret_version s).

(** The versions a rotation leaves, the new one included. *)
Definition versions_after (prepared : PreparedSecretVersion)
    (retention_snapshot : list RetentionVersionSnapshot) : list RetentionVersionSnapshot :=
  retention_snapshot ++
    [mk_RetentionVersionSnapshot (prep_secret_version_id prepared) (prep_version prepared)
      (prep_key_version prepared)].

(** [sort_by_key(Reverse(version))], [skip(4)], [sort_by_key(version)]. *)
Definition purged_versions (versions : list RetentionVersionSnapshot) : list RetentionVersionSnapshot :=
  sort_by_key ret_version_no
    (drop SECRET_VERSION_RETENTION_LIMIT (sort_by_key (λ s, - ret_version_no s) versions)).

Definition build_purge_ledger_drafts (request_id : RequestId) (prepared : PreparedSecretVersion)
    (retention_snapshot : list RetentionVersionSnapshot) :
    io World LedgerError (list LedgerAppendDraft) :=
  if negb (bool_decide (prep_write_action prepared = EncryptRotate)) then mret []
  else io_map (build_purge_ledger_draft request_id prepared)
    (purged_versions (versions_after prepared retention_snapshot)).

(** ** RPC parameters of a write ([request.rs]) *)

Record WriteSecretVersionParams := mk_WriteSecretVersionParams {
  wp_request_id : str;
  wp_action : str;
  wp_secret_id : str;
  wp_secret_version_id : str;
  wp_owner_user_id : str;
  wp_classification : str;
  wp_created_by_device_id : str;
  wp_created_at : str;
  wp_version : Z;
  wp_ciphertext : str;
  wp_encrypted_data_key : str;
  wp_key_version : Z;
  wp_algorithm : str;
  wp_nonce_or_iv : str;
  wp_aad_context : Value;
  wp_ledger_entries : list LedgerEntryRpcParams;
}.

Definition encode_bytea (b : bytes) : str := "\x" +:+ hex_encode b.

Context {Svc : LedgerService}.

Definition build_rpc_params (ledger_appender : LedgerAppender) (request_id : RequestId)
    (prepared : PreparedSecretVersion) (retention_snapshot : option (list RetentionVersionSnapshot)) :
    io World ApiError WriteSecretVersionParams :=
  created_at ← lift (CreatedAt_as_rfc3339_utc (prep_created_at prepared)
    !? (λ e, ApiError_InternalError (AadError_to_string e)));
  write_draft ← build_write_ledger_draft request_id prepared
    !?? (λ e, ApiError_InternalError (LedgerError_to_string e));
  purge_drafts ← build_purge_ledger_drafts request_id prepared (default [] retention_snapshot)
    !?? (λ e, ApiError_InternalError (LedgerError_to_string e));
  ledger_entries ← sign_entries ledger_appender (write_draft :: purge_drafts)
    !?? (λ _, ApiError_LedgerAppendFailed);
  mret {|
    wp_request_id := RequestId_as_canonical_string request_id;
    wp_action := SecretWriteAction_as_str (prep_write_action prepared);
    wp_secret_id := SecretId_as_canonical_string (prep_secret_id prepared);
    wp_secret_version_id := SecretVersionId_as_canonical_string (prep_secret_version_id prepared);
    wp_owner_user_id := OwnerUserId_as_canonical_string (prep_owner_user_id prepared);
    wp_classification := Classification_as_str (prep_classification prepared);
    wp_created_by_device_id := DeviceId_as_str (prep_created_by_device_id prepared);
    wp_created_at := created_at;
    wp_version := SecretVersion_get (prep_version prepared);
    wp_ciphertext := encode_bytea (Ciphertext_as_bytes (prep_ciphertext prepared));
    wp_encrypted_data_key := encode_bytea (EncryptedDataKey_as_bytes (prep_encrypted_data_key prepared));
    wp_key_version := KeyVersion_get (prep_key_version prepared);
    wp_algorithm := prep_algorithm prepared;
    wp_nonce_or_iv := encode_bytea (Nonce_as_bytes (prep_nonce_or_iv prepared));
    wp_aad_context := prep_aad_context prepared;
    wp_ledger_entries := LedgerEntryRpcParams_from_signed_entry <$> ledger_entries;
  |}.
End write_ledger.

(** ** Lemmas *)

Section write_ledger_lemmas.
Context {P : Platform}.

Lemma io_map_Ok {W E A B} (f : A → io W E B) l w ys w' :
  io_map f l w = (Ok ys, w') → Forall2 (λ x y, ∃ w1 w2, f x w1 = (Ok y, w2)) l ys.
Proof.
  revert w ys. induction l as [|x l IH]; intros w ys; simpl; intros H; inv_ok; [constructor|].
  constructor; eauto.
Qed.

Lemma ledger_now_parse {L : TimeLaws P} w e w' :
  ledger_now w = (Ok e, w') → SourceEventAt_parse (SourceEventAt_as_str e) = Ok e.
Proof. intros H%io_map_err_Ok. by eapply SourceEventAt_now_parse. Qed.

Lemma LedgerEntryId_generate_wf {L : UuidLaws P} w i w' :
  LedgerEntryId_generate w = (Ok i, w') → LedgerEntryId_wf i.
Proof. unfold LedgerEntryId_generate. intros. inv_ok. by eapply generate_uuid_v4. Qed.

(** What a version must satisfy for its entry to be written. *)
Definition prepared_wf (p : PreparedSecretVersion) : Prop :=
  SecretId_wf (prep_secret_id p) ∧ SecretVersion_wf (prep_version p)
  ∧ KeyVersion_wf (prep_key_version p) ∧ DeviceId_wf (prep_created_by_device_id p).

Lemma u32_representable z : nonzero_u32 z → representable (json_uint z) = true.
Proof.
  unfold nonzero_u32, u32_max. intros Hz. cbn.
  apply andb_true_iff; split; apply Z.leb_le; unfold u64_max; lia.
Qed.

Lemma build_write_ledger_draft_Ok {LU : UuidLaws P} {LT : TimeLaws P} rid p w d w' :
  prepared_wf p → build_write_ledger_draft rid p w = (Ok d, w') →
  LedgerAppendDraft_wf d
  ∧ ad_entry_type d = (match prep_write_action p with
      | EncryptCreate => LedgerEntryType_SecretCreated
      | EncryptRotate => LedgerEntryType_SecretVersionCreated end)
  ∧ ad_request_id d = rid
  ∧ ad_target_secret_id d = Some (prep_secret_id p)
  ∧ ad_target_secret_version_id d
    = Some (mk_LedgerTargetSecretVersionId (SecretVersionId_0 (prep_secret_version_id p)))
  ∧ ad_actor_user_id d = Some (prep_owner_user_id p)
  ∧ ad_result d = LedgerResult_Success ∧ ad_error_code d = None
  ∧ payload_object (ad_payload d) =
      [("algorithm", JString ALGORITHM_XCHACHA20_POLY1305);
       ("classification", JString (Classification_as_str (prep_classification p)));
       ("key_version", json_uint (KeyVersion_get (prep_key_version p)));
       ("version", json_uint (SecretVersion_get (prep_version p)))]%string.
Proof.
  intros (Hsi & Hv & Hk & Hdev) H. unfold build_write_ledger_draft in H. inv_ok.
  select (LedgerTargetSecretVersionId_from_secret_version_id _ = _)
    (fun H => rewrite LedgerTarget_from_version in H; inv_ok).
  select (LedgerAppendDraft_new _ = _) (fun H => apply LedgerAppendDraft_new_Ok in H as [-> ?]).
  select (LedgerPayload_new _ _ = _) (fun H => apply LedgerPayload_new_fields in H as (? & ? & ?));
    [|done|by repeat constructor; try apply u32_representable].
  split; [|done]. split_and!; simpl; try done; [by eapply LedgerEntryId_generate_wf|by eapply ledger_now_parse].
Qed.

(** The entry of a purge names the purged version and its key. *)
Definition purge_draft_of (rid : RequestId) (p : PreparedSecretVersion) (s : RetentionVersionSnapshot)
    (d : LedgerAppendDraft) : Prop :=
  ad_entry_type d = LedgerEntryType_SecretVersionPurged
  ∧ ad_request_id d = rid
  ∧ ad_target_secret_id d = Some (prep_secret_id p)
  ∧ ad_target_secret_version_id d
    = Some (mk_LedgerTargetSecretVersionId (SecretVersionId_0 (ret_secret_version_id s)))
  ∧ payload_object (ad_payload d) =
      [("key_version", json_uint (KeyVersion_get (ret_key_version s)));
       ("retention_limit", json_uint 4);
       ("version", json_uint (SecretVersion_get (ret_version s)))]%string.

Definition snapshot_wf (s : RetentionVersionSnapshot) : Prop :=
  SecretVersion_wf (ret_version s) ∧ KeyVersion_wf (ret_key_version s).

Lemma build_purge_ledger_draft_Ok {LU : UuidLaws P} {LT : TimeLaws P} rid p s w d w' :
  prepared_wf p → snapshot_wf s → build_purge_ledger_draft rid p s w = (Ok d, w') →
  LedgerAppendDraft_wf d ∧ purge_draft_of rid p s d.
Proof.
  intros (Hsi & _ & _ & Hdev) [Hv Hk] H. unfold build_purge_ledger_draft in H. inv_ok.
  select (LedgerTargetSecretVersionId_from_secret_version_id _ = _)
    (fun H => rewrite LedgerTarget_from_version in H; inv_ok).
  select (LedgerAppendDraft_new _ = _) (fun H => apply LedgerAppendDraft_new_Ok in H as [-> ?]).
  select (LedgerPayload_new _ _ = _) (fun H => apply LedgerPayload_new_fields in H as (? & ? & ?));
    [|done|by repeat constructor; try apply u32_representable].
  split; [|done]. split_and!; simpl; try done; [by eapply LedgerEntryId_generate_wf|by eapply ledger_now_parse].
Qed.

(** Retention splits the versions into the newest four and the rest. *)
Lemma purged_versions_split vs :
  let kept := take SECRET_VERSION_RETENTION_LIMIT (sort_by_key (λ s, - ret_version_no s) vs) in
  kept ++ purged_versions vs ≡ₚ vs
  ∧ length kept = Nat.min SECRET_VERSION_RETENTION_LIMIT (length vs)
  ∧ Forall (λ k, Forall (λ s, ret_version_no s ≤ ret_version_no k) (purged_versions vs)) kept
  ∧ StronglySorted (λ s t, ret_version_no s ≤ ret_version_no t) (purged_versions vs).
Proof.
  intros kept. unfold purged_versions. split_and!.
  - unfold kept. by rewrite (sort_by_key_perm ret_version_no) take_drop sort_by_key_perm.
  - unfold kept. rewrite length_take. f_equal. by rewrite (sort_by_key_perm _ vs).
  - pose proof (sorted_take_drop _ SECRET_VERSION_RETENTION_LIMIT _
      (sort_by_key_sorted (λ s, - ret_version_no s) vs)) as H.
    eapply Forall_impl; [exact H|]. intros k Hk. rewrite (sort_by_key_perm ret_version_no).
    eapply Forall_impl; [exact Hk|]. simpl. lia.
  - apply sort_by_key_sorted.
Qed.

Lemma versions_after_wf p snapshot :
  prepared_wf p → Forall snapshot_wf snapshot → Forall snapshot_wf (versions_after p snapshot).
Proof.
  intros (_ & Hv & Hk & _) Hs. apply Forall_app. split; [done|]. constructor; [by split|constructor].
Qed.

Lemma purged_versions_wf vs : Forall snapshot_wf vs → Forall snapshot_wf (purged_versions vs).
Proof.
  intros H. destruct (purged_versions_split vs) as (Hperm & _).
  rewrite -Hperm in H. by apply Forall_app in H as [_ ?].
Qed.

Lemma build_purge_ledger_drafts_Ok {LU : UuidLaws P} {LT : TimeLaws P} rid p snapshot w drafts w' :
  prepared_wf p → Forall snapshot_wf snapshot →
  build_purge_ledger_drafts rid p snapshot w = (Ok drafts, w') →
  Forall2 (λ s d, LedgerAppendDraft_wf d ∧ purge_draft_of rid p s d)
    (match prep_write_action p with
     | EncryptRotate => purged_versions (versions_after p snapshot)
     | EncryptCreate => []
     end) drafts.
Proof.
  intros Hp Hs H. unfold build_purge_ledger_drafts in H. destruct (prep_write_action p); simpl in H.
  { inv_ok. constructor. }
  apply io_map_Ok in H. eapply Forall_Forall2_impl; [by apply purged_versions_wf, versions_after_wf|exact H|].
  intros s d Hsw (w1 & w2 & Hd). by eapply build_purge_ledger_draft_Ok.
Qed.
End write_ledger_lemmas.

(** ** Properties *)

Section write_ledger_theorems.
Context {P : Platform}.

(** C15. A rotation purges exactly the versions beyond the four newest, the new
    version counted: the drafts are one per purged version, oldest first, each
    naming its version and key; what is kept has at most four versions, none of
    them older than a purged one; and a new version above all stored ones is
    kept. *)
Theorem rotation_purges_oldest {LU : UuidLaws P} {LT : TimeLaws P} rid p snapshot w drafts w' :
  prepared_wf p → Forall snapshot_wf snapshot → prep_write_action p = EncryptRotate →
  build_purge_ledger_drafts rid p snapshot w = (Ok drafts, w') →
  let new := mk_RetentionVersionSnapshot (prep_secret_version_id p) (prep_version p) (prep_key_version p) in
  ∃ kept purged,
    kept ++ purged ≡ₚ snapshot ++ [new]
    ∧ length kept = Nat.min 4 (length snapshot + 1)
    ∧ Forall (λ k, Forall (λ s, ret_version_no s ≤ ret_version_no k) purged) kept
    ∧ StronglySorted (λ s t, ret_version_no s ≤ ret_version_no t) purged
    ∧ Forall2 (purge_draft_of rid p) purged drafts
    ∧ (Forall (λ s, ret_version_no s < SecretVersion_get (prep_version p)) snapshot → new ∈ kept).
Proof.
  intros Hp Hsnap Hact H new. apply build_purge_ledger_drafts_Ok in H; [|done..].
  rewrite Hact in H. set (vs := versions_after p snapshot) in *.
  destruct (purged_versions_split vs) as (Hperm & Hlen & Hle & Hsorted).
  set (kept := take _ _) in *. exists kept, (purged_versions vs). split_and!; try done.
  - rewrite Hlen. unfold vs, versions_after. by rewrite length_app.
  - eapply Forall2_impl; [exact H|]. by intros ?? [_ ?].
  - intros Hnew.
    assert (new ∈ kept ++ purged_versions vs) as [?|Hin]%elem_of_app; [|done|].
    { rewrite Hperm. apply elem_of_app. right. by left. }
    destruct kept as [|k kept'] eqn:Ek; [rewrite /vs /versions_after length_app Nat.add_1_r in Hlen; done|].
    assert (k ∈ snapshot ++ [new]) as [Hk|Hk]%elem_of_app.
    { change (snapshot ++ [new]) with vs. rewrite -Hperm. by left. }
    + rewrite Forall_forall in Hnew. apply Hnew in Hk. apply Forall_cons in Hle as [Hle _].
      rewrite Forall_forall in Hle. apply Hle in Hin. unfold ret_version_no, new in *. simpl in *. lia.
    + apply list_elem_of_singleton in Hk as ->. by left.
Qed.

(** The entries a write sends are a verified extension of the chain the
    database reported: one for the new version, then one per purged version, in
    the order they are chained, signed by the appender's key. *)
Theorem write_entries_extend_chain {LU : UuidLaws P} {LT : TimeLaws P} {LE : Ed25519Laws P}
    {Svc : LedgerService} a rid p snapshot w params w' :
  prepared_wf p → Forall snapshot_wf (default [] snapshot) →
  build_rpc_params a rid p snapshot w = (Ok params, w') →
  ∃ head entries final,
    wp_ledger_entries params = LedgerEntryRpcParams_from_signed_entry <$> entries
    ∧ verify_ledger_chain entries head [LedgerSigningKey_verification_key (signing_key a)] = Ok final
    ∧ length entries = S (match prep_write_action p with
        | EncryptCreate => 0
        | EncryptRotate => length (default [] snapshot) + 1 - 4
        end)
    ∧ (∃ w1 w2, fetch_chain_head 1 w1 = (Ok head, w2)).
Proof.
  intros Hp Hsnap H. unfold build_rpc_params, sign_entries in H. inv_ok.
  select (build_purge_ledger_drafts _ _ _ _ = _) (fun H => apply build_purge_ledger_drafts_Ok in H; [|done..]).
  select (fetch_chain_head _ _ = _) (fun H => rename H into Hfetch; pose proof (fetch_chain_head_wf _ _ _ _ Hfetch) as [? _]).
  select (sign_entries_from_head _ _ _ = _) (fun H => rename H into Hsign).
  pose proof (sign_entries_loop_length _ _ _ _ _ Hsign) as Hlen.
  destruct (sign_entries_verify a _ _ [LedgerSigningKey_verification_key (signing_key a)] _
    ltac:(done) ltac:(by exists [], []) Hsign) as (final & Hver & _).
  do 3 eexists. split; [done|]. split; [exact Hver|]. split; [|eauto].
  rewrite Hlen /=. f_equal. select (Forall2 _ _ _) (fun H => rewrite -(Forall2_length _ _ _ H)).
  destruct (prep_write_action p); [done|].
  destruct (purged_versions_split (versions_after p (default [] snapshot))) as (Hperm & Hkept & _).
  apply Permutation_length in Hperm. rewrite length_app Hkept in Hperm.
  assert (length (versions_after p (default [] snapshot)) = (length (default [] snapshot) + 1)%nat) as Hn.
  { unfold versions_after. by rewrite length_app. }
  rewrite Hn in Hperm. unfold SECRET_VERSION_RETENTION_LIMIT in *. lia.
Qed.
End write_ledger_theorems.
