(* ===== verification/ReadModel.v ===== *)
(** * Rows read from the database ([src/server/read_model.rs])

    The rows the database returns are parsed into values before anything is done
    with them: the current version of a secret, a sampled version of the restore
    test, the row an alias resolves to, the versions kept of a secret, and the
    answer of a write ([src/server/supabase/{secret_rpc,write_secret_rpc,
    alias_rpc}.rs], [src/types/supabase.rs]). *)

From S2P Require Import Prelude RustStd Json Platform Reference Errors Types Aad Crypto Authorization SecretStore Alias AuditTypes LedgerTypes LedgerPayload LedgerEntry LedgerChain LedgerRpc LedgerAppender ApiError WriteLedger.

(** ** Rows ([src/types/supabase.rs]) *)

Record SecretReadJoin := mk_SecretReadJoin {
  sj_current_version_id : str;
  sj_owner_user_id : str;
  sj_classification : str;
}.

Record SecretVersionReadRow := mk_SecretVersionReadRow {
  rv_id : str;
  rv_secret_id : str;
  rv_version : Z;
  rv_ciphertext : str;
  rv_encrypted_data_key : str;
  rv_key_version : Z;
  rv_algorithm : str;
  rv_classification : str;
  rv_nonce_or_iv : str;
  rv_aad_context : Value;
  rv_created_by_user_id : str;
  rv_created_at : str;
  rv_secrets : SecretReadJoin;
}.

Record SecretAliasResolveRow := mk_SecretAliasResolveRow {
  ra_id : str;
  ra_secret_id : str;
  ra_alias_ciphertext : str;
  ra_alias_nonce : str;
  ra_alias_key_version : Z;
  ra_aad_context : Value;
}.

Record RestoreTestSampleRow := mk_RestoreTestSampleRow {
  rt_id : str;
  rt_secret_id : str;
  rt_version : Z;
  rt_ciphertext : str;
  rt_encrypted_data_key : str;
  rt_key_version : Z;
  rt_nonce_or_iv : str;
  rt_aad_context : Value;
  rt_classification : str;
  rt_created_at : str;
}.

Record SecretVersionRetentionSnapshotResponse := mk_SecretVersionRetentionSnapshotResponse {
  sn_id : str;
  sn_version : Z;
  sn_key_version : Z;
}.

Record WriteSecretVersionResponse := mk_WriteSecretVersionResponse {
  wr_secret_id : str;
  wr_secret_version_id : str;
  wr_version : Z;
  wr_purged_version_ids : list str;
}.

Record ResolveSecretAliasParams := mk_ResolveSecretAliasParams {
  rp_owner_user_id : str;
  rp_alias_fingerprint : str;
}.

Section rows.
Context {P : Platform}.

Record WriteSecretVersionOutcome := mk_WriteSecretVersionOutcome {
  wo_secret_id : SecretId;
  wo_secret_version_id : SecretVersionId;
  wo_version : SecretVersion;
  wo_purged_version_ids : list str;
}.

(** [u32::try_from(value).ok().and_then(|value| new(value).ok())] of an [i32]. *)
Definition version_from_i32 {E A} (new : Z → result E A) (value : Z) : option A :=
  value ← u_try_from u32_max value;
  match new value with Ok v => Some v | Err _ => None end.

Definition SecretVersionRetentionSnapshot_try_from (response : SecretVersionRetentionSnapshotResponse) :
    result SupabaseRpcError RetentionVersionSnapshot :=
  secret_version_id ← SecretVersionId_parse (sn_id response)
    !? (λ _, SupabaseRpcError_InvalidResponse "retention snapshot returned invalid secret version id");
  version ← ok_or (version_from_i32 SecretVersion_new (sn_version response))
    (SupabaseRpcError_InvalidResponse "retention snapshot returned invalid version");
  key_version ← ok_or (version_from_i32 KeyVersion_new (sn_key_version response))
    (SupabaseRpcError_InvalidResponse "retention snapshot returned invalid key version");
  Ok (mk_RetentionVersionSnapshot secret_version_id version key_version).

Definition WriteSecretVersionOutcome_try_from (response : WriteSecretVersionResponse) :
    result SupabaseRpcError WriteSecretVersionOutcome :=
  version ← ok_or (version_from_i32 SecretVersion_new (wr_version response))
    (SupabaseRpcError_InvalidResponse "write RPC returned invalid version");
  secret_id ← SecretId_parse (wr_secret_id response)
    !? (λ _, SupabaseRpcError_InvalidResponse "write RPC returned invalid secret_id");
  secret_version_id ← SecretVersionId_parse (wr_secret_version_id response)
    !? (λ _, SupabaseRpcError_InvalidResponse "write RPC returned invalid secret_version_id");
  Ok (mk_WriteSecretVersionOutcome secret_id secret_version_id version (wr_purged_version_ids response)).

(** ** Remote calls

    The rows each call returns, or why it failed.  The reading of a version goes
    out with the caller's token, so that the row policies of the database apply. *)
Class SecretService := {
  svc_read_secret_versions : str → RawJwt → io World SupabaseRpcError (list SecretVersionReadRow);
  svc_read_retention_snapshot :
    str → io World SupabaseRpcError (list SecretVersionRetentionSnapshotResponse);
  svc_write_secret_version :
    WriteSecretVersionParams → io World SupabaseRpcError (list WriteSecretVersionResponse);
  svc_resolve_secret_alias :
    ResolveSecretAliasParams → io World SupabaseRpcError (list SecretAliasResolveRow);
}.
Context {Sec : SecretService}.

Definition fetch_current_secret_version_for_user (secret_id : SecretId) (raw_jwt : RawJwt) :
    io World SupabaseRpcError (list SecretVersionReadRow) :=
  svc_read_secret_versions (SecretId_as_canonical_string secret_id) raw_jwt.

Definition fetch_secret_version_retention_snapshot (secret_id : SecretId) :
    io World SupabaseRpcError (list RetentionVersionSnapshot) :=
  rows ← svc_read_retention_snapshot (SecretId_as_canonical_string secret_id);
  lift (try_map SecretVersionRetentionSnapshot_try_from rows).

Definition call_write_secret_version (params : WriteSecretVersionParams) :
    io World SupabaseRpcError WriteSecretVersionOutcome :=
  rows ← svc_write_secret_version params;
  lift (first_row WriteSecretVersionOutcome_try_from rows).

Definition call_resolve_secret_alias (owner_user_id : OwnerUserId) (fingerprint : AliasFingerprint) :
    io World SupabaseRpcError (option SecretAliasResolveRow) :=
  rows ← svc_resolve_secret_alias (mk_ResolveSecretAliasParams
    (OwnerUserId_as_canonical_string owner_user_id)
    (encode_bytea (AliasFingerprint_as_bytes fingerprint)));
  lift match rows with
  | [] => Ok None
  | [row] => Ok (Some row)
  | _ => Err (SupabaseRpcError_InvalidResponse
      ("resolve alias RPC returned " +:+ int_to_string (Z.of_nat (length rows)) +:+ " rows"))
  end.

(** ** The read model ([read_model.rs]) *)

Inductive FetchCurrentSecretVersionError :=
| FetchCurrentSecretVersionError_Upstream (error : SupabaseRpcError)
| FetchCurrentSecretVersionError_Api (error : ApiError).
Definition ApiError_from_FetchCurrentSecretVersionError (error : FetchCurrentSecretVersionError) : ApiError :=
  match error with
  | FetchCurrentSecretVersionError_Upstream error => ApiError_from_SupabaseRpcError error
  | FetchCurrentSecretVersionError_Api error => error
  end.

Inductive ResolveSecretRefError :=
| ResolveSecretRefError_Upstream (error : SupabaseRpcError)
| ResolveSecretRefError_Api (error : ApiError).
Definition ApiError_from_ResolveSecretRefError (error : ResolveSecretRefError) : ApiError :=
  match error with
  | ResolveSecretRefError_Upstream error => ApiError_from_SupabaseRpcError error
  | ResolveSecretRefError_Api error => error
  end.

Record PreparedDecryptRow := mk_PreparedDecryptRow {
  pd_secret_id : SecretId;
  pd_secret_version_id : SecretVersionId;
  pd_version : SecretVersion;
  pd_owner_user_id : OwnerUserId;
  pd_classification : Classification;
  pd_created_at : CreatedAt;
  pd_key_version : KeyVersion;
  pd_encrypted_data_key : EncryptedDataKey;
  pd_nonce_or_iv : Nonce;
  pd_ciphertext : Ciphertext;
  pd_aad_context : Value;
}.

Record PreparedDecryptRowParts := mk_PreparedDecryptRowParts {
  pp_secret_id : str;
  pp_secret_version_id : str;
  pp_version : Z;
  pp_owner_user_id : str;
  pp_classification : str;
  pp_created_at : str;
  pp_key_version : Z;
  pp_encrypted_data_key : str;
  pp_nonce_or_iv : str;
  pp_ciphertext : str;
  pp_aad_context : Value;
}.

Record ReadModelMessages := mk_ReadModelMessages {
  rm_secret_id_invalid : str;
  rm_version_invalid : str;
  rm_owner_user_id_invalid : str;
  rm_classification_invalid : str;
  rm_created_at_invalid : str;
  rm_key_version_invalid : str;
  rm_encrypted_data_key_invalid : str;
  rm_nonce_or_iv_invalid : str;
  rm_ciphertext_invalid : str;
}.

Definition into_current_secret_version_state (row : PreparedDecryptRow) : CurrentSecretVersionState :=
  mk_CurrentSecretVersionState (pd_secret_id row) (pd_version row) (pd_owner_user_id row)
    (pd_classification row) (pd_key_version row) (pd_encrypted_data_key row).

Definition into_decrypt_input (row : PreparedDecryptRow) (claims : VerifiedJwtClaims) :
    DecryptCurrentSecretVersionInput := {|
  dec_claims := claims;
  dec_secret_id := pd_secret_id row;
  dec_version := pd_version row;
  dec_current_version := pd_version row;
  dec_owner_user_id := pd_owner_user_id row;
  dec_classification := pd_classification row;
  dec_created_at := pd_created_at row;
  dec_key_version := pd_key_version row;
  dec_encrypted_data_key := pd_encrypted_data_key row;
  dec_nonce_or_iv := pd_nonce_or_iv row;
  dec_ciphertext := pd_ciphertext row;
  dec_aad_context := pd_aad_context row;
|}.

Definition row_decode_bytea (value : str) : result ApiError bytes :=
  hex_value ← ok_or (strip_prefix "\x" value) ApiError_DecryptFailed;
  ok_or (hex_decode hex_value) ApiError_DecryptFailed.

Definition parse_secret_version (value : Z) (invalid_message : str) : result ApiError SecretVersion :=
  ok_or (version_from_i32 SecretVersion_new value) (ApiError_DbIntegrityViolation invalid_message).
Definition parse_key_version (value : Z) (invalid_message : str) : result ApiError KeyVersion :=
  ok_or (version_from_i32 KeyVersion_new value) (ApiError_DbIntegrityViolation invalid_message).

Definition build_prepared_decrypt_row (parts : PreparedDecryptRowParts) (messages : ReadModelMessages) :
    result ApiError PreparedDecryptRow :=
  let invalid {E} (message : str) (_ : E) := ApiError_DbIntegrityViolation message in
  encrypted_data_key ← row_decode_bytea (pp_encrypted_data_key parts)
    !? invalid (rm_encrypted_data_key_invalid messages);
  nonce_or_iv ← row_decode_bytea (pp_nonce_or_iv parts) !? invalid (rm_nonce_or_iv_invalid messages);
  ciphertext ← row_decode_bytea (pp_ciphertext parts) !? invalid (rm_ciphertext_invalid messages);
  secret_id ← SecretId_parse (pp_secret_id parts) !? invalid (rm_secret_id_invalid messages);
  secret_version_id ← SecretVersionId_parse (pp_secret_version_id parts)
    !? invalid "secret version id is invalid"%string;
  version ← parse_secret_version (pp_version parts) (rm_version_invalid messages);
  owner_user_id ← OwnerUserId_parse (pp_owner_user_id parts) !? invalid (rm_owner_user_id_invalid messages);
  classification ← Classification_new (pp_classification parts)
    !? invalid (rm_classification_invalid messages);
  created_at ← CreatedAt_parse (pp_created_at parts) !? invalid (rm_created_at_invalid messages);
  key_version ← parse_key_version (pp_key_version parts) (rm_key_version_invalid messages);
  encrypted_data_key ← EncryptedDataKey_parse encrypted_data_key
    !? invalid (rm_encrypted_data_key_invalid messages);
  nonce_or_iv ← Nonce_parse nonce_or_iv !? invalid (rm_nonce_or_iv_invalid messages);
  ciphertext ← Ciphertext_new ciphertext !? invalid (rm_ciphertext_invalid messages);
  Ok (mk_PreparedDecryptRow secret_id secret_version_id version owner_user_id classification created_at
    key_version encrypted_data_key nonce_or_iv ciphertext (pp_aad_context parts)).

Definition validate_decrypt_row_invariants (row : SecretVersionReadRow) : result ApiError unit :=
  if negb (String.eqb (rv_algorithm row) ALGORITHM_XCHACHA20_POLY1305)
  then Err (ApiError_DbIntegrityViolation "secret version algorithm is invalid")
  else if negb (String.eqb (sj_current_version_id (rv_secrets row)) (rv_id row))
  then Err (ApiError_DbIntegrityViolation "current_version_id does not match the selected version row")
  else if negb (String.eqb (rv_created_by_user_id row) (sj_owner_user_id (rv_secrets row)))
  then Err (ApiError_DbIntegrityViolation "created_by_user_id does not match owner_user_id")
  else if negb (String.eqb (rv_classification row) (sj_classification (rv_secrets row)))
  then Err (ApiError_DbIntegrityViolation
    "secret version classification does not match secret classification")
  else Ok tt.

Definition decrypt_row_messages : ReadModelMessages :=
  mk_ReadModelMessages "secret_id is invalid" "version is invalid" "owner_user_id is invalid"
    "secret version classification is invalid" "created_at is invalid" "key_version is invalid"
    "encrypted_data_key is invalid" "nonce_or_iv is invalid" "ciphertext is invalid".

Definition parse_decrypt_row (row : SecretVersionReadRow) : result ApiError PreparedDecryptRow :=
  _ ← validate_decrypt_row_invariants row;
  build_prepared_decrypt_row
    (mk_PreparedDecryptRowParts (rv_secret_id row) (rv_id row) (rv_version row)
      (sj_owner_user_id (rv_secrets row)) (rv_classification row) (rv_created_at row)
      (rv_key_version row) (rv_encrypted_data_key row) (rv_nonce_or_iv row) (rv_ciphertext row)
      (rv_aad_context row))
    decrypt_row_messages.

Definition restore_test_messages : ReadModelMessages :=
  mk_ReadModelMessages "restore test secret_id is invalid" "restore test version is invalid"
    "restore test owner_user_id is invalid" "restore test classification is invalid"
    "restore test created_at is invalid" "restore test key_version is invalid"
    "restore test encrypted_data_key is invalid" "restore test nonce_or_iv is invalid"
    "restore test ciphertext is invalid".

Definition parse_restore_test_sample (row : RestoreTestSampleRow) : result ApiError PreparedDecryptRow :=
  let invalid {E} (message : str) (_ : E) := ApiError_DbIntegrityViolation message in
  secret_id ← SecretId_parse (rt_secret_id row) !? invalid "restore test secret_id is invalid"%string;
  version ← parse_secret_version (rt_version row) "restore test version is invalid";
  classification ← Classification_new (rt_classification row)
    !? invalid "restore test classification is invalid"%string;
  created_at ← CreatedAt_parse (rt_created_at row) !? invalid "restore test created_at is invalid"%string;
  stored_aad ← AadV1_from_stored_context (rt_aad_context row)
    !? invalid "restore test aad_context is invalid"%string;
  let owner_user_id := aad_owner_user_id stored_aad in
  let row_aad := AadV1_from_row_metadata secret_id version owner_user_id classification created_at in
  stored_bytes ← AadV1_canonical_bytes stored_aad !? invalid "restore test aad_context is invalid"%string;
  row_bytes ← AadV1_canonical_bytes row_aad !? invalid "restore test aad_context does not match row"%string;
  if negb (bool_decide (stored_bytes = row_bytes))
  then Err (ApiError_DbIntegrityViolation "restore test aad_context does not match row")
  else build_prepared_decrypt_row
    (mk_PreparedDecryptRowParts (SecretId_as_canonical_string secret_id) (rt_id row) (rt_version row)
      (OwnerUserId_as_canonical_string owner_user_id) (rt_classification row) (rt_created_at row)
      (rt_key_version row) (rt_encrypted_data_key row) (rt_nonce_or_iv row) (rt_ciphertext row)
      (rt_aad_context row))
    restore_test_messages.

Definition select_single_current_secret_version_row (rows : list SecretVersionReadRow) :
    result ApiError SecretVersionReadRow :=
  match filter (λ row, sj_current_version_id (rv_secrets row) = rv_id row) rows with
  | [] => Err (ApiError_NotFound "secret not found")
  | [row] => Ok row
  | current_rows => Err (ApiError_InternalInvariantViolation
      ("expected one current secret version row, got "
        +:+ int_to_string (Z.of_nat (length current_rows))))
  end.

Definition fetch_current_secret_version (secret_id : SecretId) (raw_jwt : RawJwt) :
    io World FetchCurrentSecretVersionError PreparedDecryptRow :=
  rows ← fetch_current_secret_version_for_user secret_id raw_jwt
    !?? FetchCurrentSecretVersionError_Upstream;
  lift ((row ← select_single_current_secret_version_row rows; parse_decrypt_row row)
    !? FetchCurrentSecretVersionError_Api).

(** ** Secret references ([src/types/ids.rs]) *)

Inductive SecretRef :=
| SecretRef_Id (secret_id : SecretId)
| SecretRef_Alias (alias : NormalizedAlias).

Definition SecretRef_parse (value : str) : result InputError SecretRef :=
  let trimmed := trim value in
  match SecretId_parse trimmed with
  | Ok secret_id => Ok (SecretRef_Id secret_id)
  | Err _ => (SecretRef_Alias <$> NormalizedAlias_parse trimmed) !? (λ _, InputError_InvalidSecretAlias)
  end.

Definition parse_resolved_secret_alias_row (alias_encryption_key : AliasEncryptionKey)
    (owner_user_id : OwnerUserId) (row : SecretAliasResolveRow) (requested_alias : NormalizedAlias) :
    result ApiError SecretId :=
  let invalid {E} (message : str) (_ : E) := ApiError_DbIntegrityViolation message in
  ciphertext ← row_decode_bytea (ra_alias_ciphertext row) !? invalid "secret alias ciphertext is invalid"%string;
  nonce ← row_decode_bytea (ra_alias_nonce row) !? invalid "secret alias nonce is invalid"%string;
  secret_alias_id ← SecretAliasId_parse (ra_id row) !? invalid "secret alias id is invalid"%string;
  secret_id ← SecretId_parse (ra_secret_id row) !? invalid "secret alias secret_id is invalid"%string;
  alias_key_version ← parse_key_version (ra_alias_key_version row) "secret alias key_version is invalid";
  ciphertext ← Ciphertext_new ciphertext !? invalid "secret alias ciphertext is invalid"%string;
  nonce ← Nonce_parse nonce !? invalid "secret alias nonce is invalid"%string;
  decrypted ← decrypt_alias_row alias_encryption_key secret_alias_id secret_id owner_user_id
      alias_key_version ciphertext nonce (ra_aad_context row)
    !? invalid "secret alias encrypted material is invalid"%string;
  if negb (bool_decide (da_alias decrypted = requested_alias))
  then Err (ApiError_DbIntegrityViolation "resolved secret alias plaintext mismatch")
  else Ok secret_id.

Definition resolve_secret_ref (alias_fingerprint_key : AliasFingerprintKey)
    (alias_encryption_key : AliasEncryptionKey) (secret_ref : SecretRef) (owner_user_id : OwnerUserId) :
    io World ResolveSecretRefError SecretId :=
  match secret_ref with
  | SecretRef_Id secret_id => mret secret_id
  | SecretRef_Alias alias =>
      fingerprint ← lift (compute_lookup_fingerprint alias_fingerprint_key owner_user_id alias
        !? (λ error, ResolveSecretRefError_Api (ApiError_InternalError (CryptoError_to_string error))));
      row ← call_resolve_secret_alias owner_user_id fingerprint !?? ResolveSecretRefError_Upstream;
      row ← lift (ok_or row (ResolveSecretRefError_Api (ApiError_NotFound "secret not found")));
      lift (parse_resolved_secret_alias_row alias_encryption_key owner_user_id row alias
        !? ResolveSecretRefError_Api)
  end.
End rows.

(** ** Lemmas *)

Section read_lemmas.
Context {P : Platform}.

Lemma row_decode_encode {LH : HexLaws P} b : row_decode_bytea (encode_bytea b) = Ok b.
Proof.
  unfold row_decode_bytea, encode_bytea. rewrite strip_prefix_app. cbn [ok_or mbind result_bind].
  by rewrite hex_decode_encode.
Qed.

Lemma version_from_i32_Some {E A} (new : Z → result E A) z a :
  is_u32 z → new z = Ok a → version_from_i32 new z = Some a.
Proof. intros Hz Hn. unfold version_from_i32. by rewrite (proj2 (u_try_from_Some u32_max z z) (conj eq_refl Hz)) /= Hn. Qed.

Lemma nonzero_is_u32 z : nonzero_u32 z → is_u32 z.
Proof. unfold nonzero_u32, is_u32. lia. Qed.

Lemma parse_secret_version_wf v m : SecretVersion_wf v → parse_secret_version (SecretVersion_get v) m = Ok v.
Proof.
  intros Hv. unfold parse_secret_version. pose proof (nonzero_is_u32 _ Hv) as Hu.
  rewrite (version_from_i32_Some _ _ v Hu) //. apply SecretVersion_new_Ok; [done|]. by destruct v.
Qed.
Lemma parse_key_version_wf v m : KeyVersion_wf v → parse_key_version (KeyVersion_get v) m = Ok v.
Proof.
  intros Hv. unfold parse_key_version. pose proof (nonzero_is_u32 _ Hv) as Hu.
  rewrite (version_from_i32_Some _ _ v Hu) //. destruct v as [z]. unfold KeyVersion_wf, nonzero_u32 in Hv. cbn in *.
  unfold KeyVersion_new, NonZeroU32_new. by rewrite (proj2 (Z.eqb_neq z 0)); [|lia].
Qed.

Lemma SecretVersionId_parse_canonical {LU : UuidLaws P} i :
  SecretVersionId_wf i → SecretVersionId_parse (SecretVersionId_as_canonical_string i) = Ok i.
Proof.
  destruct i as [u]. intros. unfold SecretVersionId_parse, SecretVersionId_as_canonical_string.
  by rewrite /= parse_uuid_v4_hyphenated.
Qed.
Lemma SecretVersionId_generate_wf {LU : UuidLaws P} w i w' :
  SecretVersionId_generate w = (Ok i, w') → SecretVersionId_wf i.
Proof. unfold SecretVersionId_generate. intros. inv_ok. by eapply generate_uuid_v4. Qed.

Lemma SecretId_parse_wf s i : SecretId_parse s = Ok i → SecretId_wf i.
Proof. unfold SecretId_parse. intros H. inv_ok. match goal with H : parse_uuid_v4 _ _ = _ |- _ => by apply parse_uuid_v4_Ok in H as [_ ?] end. Qed.
Lemma Classification_new_wf s c : Classification_new s = Ok c → Classification_wf c.
Proof. unfold Classification_new, Classification_wf. destruct (is_empty (trim s)) eqn:E; [done|]. by intros [= <-]. Qed.
Lemma parse_secret_version_Ok z m v :
  parse_secret_version z m = Ok v → v = mk_SecretVersion z ∧ SecretVersion_wf v.
Proof.
  unfold parse_secret_version, version_from_i32. intros H. inv_ok.
  match goal with H : (_ ≫= _) = Some _ |- _ => apply bind_Some in H as (x & [-> Hz]%u_try_from_Some & Hn) end.
  destruct (SecretVersion_new z) as [v'|] eqn:E; [|done]. injection Hn as ->.
  by apply SecretVersion_new_Ok in E as [-> ?].
Qed.

(** A version whose row can be read back. *)
Definition version_readable (p : PreparedSecretVersion) : Prop :=
  SecretId_wf (prep_secret_id p) ∧ SecretVersionId_wf (prep_secret_version_id p)
  ∧ SecretVersion_wf (prep_version p) ∧ Classification_wf (prep_classification p)
  ∧ CreatedAt_wf (prep_created_at p) ∧ KeyVersion_wf (prep_key_version p)
  ∧ EncryptedDataKey_wf (prep_encrypted_data_key p) ∧ Nonce_wf (prep_nonce_or_iv p)
  ∧ Ciphertext_as_bytes (prep_ciphertext p) ≠ [].

Lemma prepared_readable {LU : UuidLaws P} {LR : RandomLaws P} {LA : AeadLaws P} action m dk pt w p w' :
  prepare_secret_version_with_data_key action m dk pt w = (Ok p, w') →
  AadV1_wf (meta_aad m) → KeyVersion_wf (meta_key_version m) →
  EncryptedDataKey_wf (meta_encrypted_data_key m) → version_readable p.
Proof.
  intros H Hm Hk He. assert (SecretVersionId_wf (prep_secret_version_id p)) as Hid.
  { unfold prepare_secret_version_with_data_key in H. inv_ok. by eapply SecretVersionId_generate_wf. }
  apply prepare_with_data_key_Ok in H as (w0 & ep & Hep & _ & _ & Hsi & Hv & _ & Hc & Hca & Hkv & Hedk & Hct & Hn & _).
  apply encrypt_secret_Ok in Hep as (x & cipher & _ & _ & Henc & _ & Hnw).
  destruct Hm as (H1 & H2 & H3 & H4). cbn in H1, H2, H3, H4.
  unfold version_readable. rewrite Hsi Hv Hc Hca Hkv Hedk Hn Hct. split_and!; try done.
  apply cipher_encrypt_length in Henc. intros E. rewrite E in Henc. cbn in Henc. lia.
Qed.
End read_lemmas.

(** ** What the database keeps of a write

    The row the write stores, as the reading of the current version returns it.
    The timestamp comes back in the database's own format, and only as exactly as the
    column keeps it: [secret_versions.created_at] is a [timestamptz], whose resolution
    is a microsecond, while [created_at] in [aad_context] is a text the database keeps
    as it is. *)

Class TimestampColumn (P : Platform) {I : Instants P} := {
  timestamptz : DateTime → DateTime;
  timestamptz_utc d : dt_offset_is_utc (timestamptz d) = true;
  timestamptz_whole d : dt_nanos (timestamptz d) mod 1000 = 0;
  timestamptz_exact d : dt_offset_is_utc d = true → dt_nanos d mod 1000 = 0 → timestamptz d = d;
}.

Section stored.
Context {P : Platform} {I : Instants P} {TC : TimestampColumn P}.

(** The time has no part below the microsecond. *)
Definition whole_microseconds (t : CreatedAt) : Prop := dt_nanos (CreatedAt_0 t) mod 1000 = 0.
#[global] Instance whole_microseconds_dec t : Decision (whole_microseconds t).
Proof. unfold whole_microseconds. apply _. Defined.
Definition kept_created_at (t : CreatedAt) : CreatedAt := mk_CreatedAt (timestamptz (CreatedAt_0 t)).

Lemma kept_created_at_wf t : CreatedAt_wf (kept_created_at t).
Proof. apply timestamptz_utc. Qed.
Lemma kept_created_at_exact t : CreatedAt_wf t → kept_created_at t = t ↔ whole_microseconds t.
Proof.
  destruct t as [d]. unfold whole_microseconds, kept_created_at. cbn. intros Hd. split.
  - intros [= <-]. apply timestamptz_whole.
  - intros Hw. by rewrite timestamptz_exact.
Qed.

Record stored_version (params : WriteSecretVersionParams) (row : SecretVersionReadRow) : Prop := {
  sv_id_eq : rv_id row = wp_secret_version_id params;
  sv_secret_id_eq : rv_secret_id row = wp_secret_id params;
  sv_version_eq : rv_version row = wp_version params;
  sv_ciphertext_eq : rv_ciphertext row = wp_ciphertext params;
  sv_data_key_eq : rv_encrypted_data_key row = wp_encrypted_data_key params;
  sv_key_version_eq : rv_key_version row = wp_key_version params;
  sv_algorithm_eq : rv_algorithm row = wp_algorithm params;
  sv_classification_eq : rv_classification row = wp_classification params;
  sv_nonce_eq : rv_nonce_or_iv row = wp_nonce_or_iv params;
  sv_aad_eq : rv_aad_context row = wp_aad_context params;
  sv_creator_eq : rv_created_by_user_id row = wp_owner_user_id params;
  sv_created_at_eq : CreatedAt_parse (rv_created_at row) = kept_created_at <$> CreatedAt_parse (wp_created_at params);
  sv_join_eq : rv_secrets row =
    mk_SecretReadJoin (wp_secret_version_id params) (wp_owner_user_id params) (wp_classification params);
}.

(** A version made by one of the two write paths. *)
Inductive prepared_from (ring : MasterKeyRing) : OwnerUserId → Plaintext → PreparedSecretVersion → Prop :=
| from_create input w p w' :
    new_input_wf input → prepare_new_secret_version_with_keyring ring input w = Some (Ok p, w') →
    prepared_from ring (new_owner_user_id input) (new_plaintext input) p
| from_rotate input w p w' :
    existing_input_wf input → prepare_existing_secret_version_with_keyring ring input w = Some (Ok p, w') →
    prepared_from ring (cur_owner_user_id (ex_current input)) (ex_plaintext input) p.

Lemma prepared_from_readable {LU : UuidLaws P} {LT : TimeLaws P} {LR : RandomLaws P} {LA : AeadLaws P}
    ring owner pt p :
  MasterKeyRing_wf ring → KeyVersion_wf (ring_active_key_version ring) →
  prepared_from ring owner pt p → version_readable p ∧ prep_owner_user_id p = owner.
Proof.
  intros Hring Hkv Hp. destruct (MasterKeyRing_active_wf ring Hring) as (mk & Hact & Hget & Hmk).
  destruct Hp as [input w p w' [Hcl Hca] H|input w p w' (Hsi & Hv & Hcl & Hca) H].
  - unfold prepare_new_secret_version_with_keyring in H. rewrite Hact in H. inv_ok.
    unfold prepare_new_secret_version_parts in *. inv_ok.
    select (SecretId_generate _ = _) (fun H => apply SecretId_generate_wf in H).
    select (DataKey_generate _ = _) (fun H => apply DataKey_generate_wf in H).
    select (wrap_data_key _ _ _ _ = _) (fun H => apply unwrap_wrap_data_key in H as [? ?]; [|done]).
    select (prepare_secret_version_with_data_key _ _ _ _ _ = _) (fun H => rename H into Hprep).
    pose proof (prepare_with_data_key_Ok _ _ _ _ _ _ _ Hprep) as (_ & _ & _ & _ & _ & _ & _ & Ho & _).
    split; [|done]. eapply prepared_readable; [exact Hprep| |done|done].
    by apply meta_aad_wf; auto using SecretVersion_first_wf.
  - unfold prepare_existing_secret_version_with_keyring in H. rewrite Hact in H. inv_ok.
    select (SecretVersion_next _ = _) (fun H => apply SecretVersion_next_Ok in H as [Hnext ?]; [|done]).
    select (unwrap_data_key _ _ _ = _) (fun H => apply unwrap_data_key_wf in H).
    select (wrap_data_key _ _ _ _ = _) (fun H => apply unwrap_wrap_data_key in H as [? ?]; [|done]).
    select (prepare_secret_version_with_data_key _ _ _ _ _ = _) (fun H => rename H into Hprep).
    pose proof (prepare_with_data_key_Ok _ _ _ _ _ _ _ Hprep) as (_ & _ & _ & _ & _ & _ & _ & Ho & _).
    split; [|done]. eapply prepared_readable; [exact Hprep| |done|done].
    apply meta_aad_wf; try done. unfold SecretVersion_wf, nonzero_u32 in *; cbn; lia.
Qed.

Lemma new_version_created_at {LR : RandomLaws P} ring input w p w' :
  prepare_new_secret_version_with_keyring ring input w = Some (Ok p, w') → prep_created_at p = new_created_at input.
Proof.
  unfold prepare_new_secret_version_with_keyring, prepare_new_secret_version_parts. intros H.
  destruct (MasterKeyRing_active ring) as [[kv mk]|]; [|done]. inv_ok.
  select (prepare_secret_version_with_data_key _ _ _ _ _ = _) (fun H => apply prepare_with_data_key_Ok in H).
  naive_solver.
Qed.

Lemma prepared_from_decrypts {LU : UuidLaws P} {LT : TimeLaws P} {LR : RandomLaws P} {LA : AeadLaws P}
    ring owner pt p claims :
  MasterKeyRing_wf ring → prepared_from ring owner pt p → claims_subject_user_id claims = owner →
  decrypt_current_secret_version_with_keyring ring (row_of_prepared p claims) = Ok pt.
Proof.
  intros Hring [input w p' w' Hwf H|input w p' w' Hwf H] Hsub.
  - by destruct (created_version_decrypts ring input w p' w' claims Hring Hwf Hsub H).
  - by destruct (rotated_version_decrypts ring input w p' w' claims Hring Hwf Hsub H).
Qed.

(** What the parameters of a write say about the version. *)
Lemma build_rpc_params_fields {Svc : LedgerService} appender rid p snapshot w params w' :
  build_rpc_params appender rid p snapshot w = (Ok params, w') →
  wp_secret_id params = SecretId_as_canonical_string (prep_secret_id p)
  ∧ wp_secret_version_id params = SecretVersionId_as_canonical_string (prep_secret_version_id p)
  ∧ wp_owner_user_id params = OwnerUserId_as_canonical_string (prep_owner_user_id p)
  ∧ wp_classification params = Classification_as_str (prep_classification p)
  ∧ CreatedAt_as_rfc3339_utc (prep_created_at p) = Ok (wp_created_at params)
  ∧ wp_version params = SecretVersion_get (prep_version p)
  ∧ wp_ciphertext params = encode_bytea (Ciphertext_as_bytes (prep_ciphertext p))
  ∧ wp_encrypted_data_key params = encode_bytea (EncryptedDataKey_as_bytes (prep_encrypted_data_key p))
  ∧ wp_key_version params = KeyVersion_get (prep_key_version p)
  ∧ wp_algorithm params = ALGORITHM_XCHACHA20_POLY1305
  ∧ wp_nonce_or_iv params = encode_bytea (Nonce_as_bytes (prep_nonce_or_iv p))
  ∧ wp_aad_context params = prep_aad_context p.
Proof. unfold build_rpc_params. intros H. inv_ok. by split_and!. Qed.

(** The row of a version, read back with a time of creation. *)
Definition row_of_version (p : PreparedSecretVersion) (created_at : CreatedAt) : PreparedDecryptRow :=
  mk_PreparedDecryptRow (prep_secret_id p) (prep_secret_version_id p) (prep_version p)
    (prep_owner_user_id p) (prep_classification p) created_at (prep_key_version p)
    (prep_encrypted_data_key p) (prep_nonce_or_iv p) (prep_ciphertext p) (prep_aad_context p).

(** The columns of a version, as a write sends them, and the time that was kept. *)
Record version_columns (p : PreparedSecretVersion) (created_at : CreatedAt) (parts : PreparedDecryptRowParts) : Prop := {
  vc_secret_id : pp_secret_id parts = SecretId_as_canonical_string (prep_secret_id p);
  vc_version_id : pp_secret_version_id parts = SecretVersionId_as_canonical_string (prep_secret_version_id p);
  vc_version : pp_version parts = SecretVersion_get (prep_version p);
  vc_owner : pp_owner_user_id parts = OwnerUserId_as_canonical_string (prep_owner_user_id p);
  vc_classification : pp_classification parts = Classification_as_str (prep_classification p);
  vc_created_at : CreatedAt_parse (pp_created_at parts) = Ok created_at;
  vc_key_version : pp_key_version parts = KeyVersion_get (prep_key_version p);
  vc_data_key : pp_encrypted_data_key parts = encode_bytea (EncryptedDataKey_as_bytes (prep_encrypted_data_key p));
  vc_nonce : pp_nonce_or_iv parts = encode_bytea (Nonce_as_bytes (prep_nonce_or_iv p));
  vc_ciphertext : pp_ciphertext parts = encode_bytea (Ciphertext_as_bytes (prep_ciphertext p));
  vc_aad : pp_aad_context parts = prep_aad_context p;
}.

Lemma build_version_columns {LU : UuidLaws P} {LH : HexLaws P} messages p created_at parts :
  version_readable p → version_columns p created_at parts →
  build_prepared_decrypt_row parts messages = Ok (row_of_version p created_at).
Proof.
  intros (Hsi & Hsv & Hv & Hcl & Hca & Hkv & Hedk & Hn & Hct) [E1 E2 E3 E4 E5 E6 E7 E8 E9 E10 E11].
  unfold build_prepared_decrypt_row.
  rewrite E8 E9 E10 !row_decode_encode. cbn [map_err mbind result_bind].
  rewrite E1 SecretId_parse_canonical // E2 SecretVersionId_parse_canonical //. cbn [map_err mbind result_bind].
  rewrite E3 parse_secret_version_wf // E4 OwnerUserId_parse_canonical. cbn [map_err mbind result_bind].
  unfold Classification_new. rewrite E5 Hcl. cbn [map_err mbind result_bind].
  rewrite E6. cbn [map_err mbind result_bind].
  rewrite E7 parse_key_version_wf //. cbn [map_err mbind result_bind].
  unfold EncryptedDataKey_parse. destruct (prep_encrypted_data_key p) as [edk] eqn:Ee. cbn [EncryptedDataKey_as_bytes].
  rewrite (proj2 (validate_envelope_Ok edk) Hedk). cbn [map_err mbind result_bind].
  unfold Nonce_parse. rewrite (proj2 (parse_array_Ok _ _ _ _ _) (conj Hn eq_refl)). cbn [map_err mbind result_bind].
  destruct (prep_ciphertext p) as [[|b ct]] eqn:Ec; [done|]. cbn [Ciphertext_new Ciphertext_as_bytes map_err mbind result_bind].
  unfold row_of_version. rewrite E11 Ee Ec. by destruct (prep_classification p), (prep_nonce_or_iv p).
Qed.

Lemma parse_stored_version {LU : UuidLaws P} {LT : TimeLaws P} {LH : HexLaws P} {Svc : LedgerService}
    appender rid p snapshot w params w' row :
  version_readable p → build_rpc_params appender rid p snapshot w = (Ok params, w') →
  stored_version params row → parse_decrypt_row row = Ok (row_of_version p (kept_created_at (prep_created_at p))).
Proof.
  intros Hread (E1 & E2 & E3 & E4 & E5 & E6 & E7 & E8 & E9 & E10 & E11 & E12)%build_rpc_params_fields
    [I1 I2 I3 I4 I5 I6 I7 I8 I9 I10 I11 I12 I13].
  pose proof Hread as (_ & _ & _ & _ & Hca & _).
  unfold parse_decrypt_row, validate_decrypt_row_invariants.
  rewrite I7 E10 I13 I11 I8 I1 !String.eqb_refl. cbn [negb mbind result_bind sj_owner_user_id].
  apply build_version_columns; [done|]. split; cbn; try congruence.
  by rewrite I12 (CreatedAt_round_trip _ _ Hca E5).
Qed.

(** A version whose row gives another time than the one in its associated data is not
    decrypted, whoever asks: the data of the row is not the data that was encrypted. *)
Lemma shifted_version_refused {LU : UuidLaws P} {LT : TimeLaws P} {LR : RandomLaws P} {LA : AeadLaws P} {LS : SerdeLaws P}
    ring owner pt p claims created_at :
  MasterKeyRing_wf ring → KeyVersion_wf (ring_active_key_version ring) → prepared_from ring owner pt p →
  claims_subject_user_id claims = owner → CreatedAt_wf created_at → created_at ≠ prep_created_at p →
  ∃ e, decrypt_current_secret_version_with_keyring ring (into_decrypt_input (row_of_version p created_at) claims) = Err e
    ∧ (e = SecretDecryptError_Integrity DecryptIntegrityError_AadContextMismatch ∨ ∃ e', e = SecretDecryptError_Aad e').
Proof.
  intros Hring Hkv Hp Hsub Hwf Hne.
  destruct (prepared_from_readable _ _ _ _ Hring Hkv Hp) as [(Hsi & _ & Hv & Hcl & Hca & _) _].
  pose proof (prepared_from_decrypts _ _ _ _ claims Hring Hp Hsub) as Hdec.
  unfold decrypt_current_secret_version_with_keyring, validate_decrypt_input in *. inv_ok.
  match goal with H : verify_stored_aad_matches_row _ ?a = Ok ?u |- _ =>
    destruct u; rename H into Hver; assert (AadV1_wf a) as Hw by exact (conj Hsi (conj Hv (conj Hcl Hca)));
    pose proof (verify_stored_aad_sound _ _ Hw Hver) as Hst end.
  match goal with H : authorize_current_version_decrypt _ _ _ _ = Ok _ |- _ => rename H into Hau end.
  cbn [into_decrypt_input row_of_version dec_claims dec_owner_user_id dec_version dec_current_version dec_aad_context
    pd_owner_user_id pd_version pd_aad_context row_of_prepared] in *. rewrite Hau. cbn [map_err mbind result_bind].
  match goal with |- context [verify_stored_aad_matches_row ?c ?a] =>
    assert (AadV1_wf a) as Hw2 by exact (conj Hsi (conj Hv (conj Hcl Hwf)));
    destruct (verify_stored_aad_matches_row c a) as [[]|e] eqn:Hver2 end.
  { exfalso. pose proof (verify_stored_aad_sound _ _ Hw2 Hver2) as Hst2. rewrite Hst in Hst2. apply Hne.
    by injection Hst2. }
  exists e. split; [done|]. revert Hver2. unfold verify_stored_aad_matches_row. rewrite Hst. cbn [map_err mbind result_bind].
  destruct (AadV1_canonical_bytes (row_aad_from_input (row_of_prepared p claims))) as [stored|e1]; cbn [map_err mbind result_bind]; [|intros Hx; injection Hx as <-; by right; exists e1].
  destruct (AadV1_canonical_bytes _) as [kept|e1]; cbn [map_err mbind result_bind]; [|intros Hx; injection Hx as <-; by right; exists e1].
  case_bool_decide; intros Hx; [done|]. injection Hx as <-. by left.
Qed.

(** The decryption of a version, as its row is kept. *)
Lemma kept_version_decrypts {LU : UuidLaws P} {LT : TimeLaws P} {LR : RandomLaws P} {LA : AeadLaws P} {LS : SerdeLaws P}
    ring owner pt p claims :
  MasterKeyRing_wf ring → KeyVersion_wf (ring_active_key_version ring) → prepared_from ring owner pt p →
  claims_subject_user_id claims = owner →
  let decrypted := decrypt_current_secret_version_with_keyring ring
    (into_decrypt_input (row_of_version p (kept_created_at (prep_created_at p))) claims) in
  (whole_microseconds (prep_created_at p) → decrypted = Ok pt)
  ∧ (¬ whole_microseconds (prep_created_at p) →
     ∃ e, decrypted = Err e ∧ ApiError_from_SecretDecryptError e = ApiError_DecryptFailed).
Proof.
  intros Hring Hkv Hp Hsub decrypted.
  destruct (prepared_from_readable _ _ _ _ Hring Hkv Hp) as [(_ & _ & _ & _ & Hca & _) _].
  rewrite -(kept_created_at_exact _ Hca). split.
  - intros E. subst decrypted. rewrite E. by eapply prepared_from_decrypts.
  - intros Hne. destruct (shifted_version_refused ring owner pt p claims _ Hring Hkv Hp Hsub (kept_created_at_wf _) Hne)
      as (e & He & Hk). exists e. split; [exact He|]. by destruct Hk as [->|[? ->]].
Qed.
End stored.

Section read_inversions.
Context {P : Platform} {I : Instants P} {TC : TimestampColumn P}.

Lemma select_single_Ok rows row :
  select_single_current_secret_version_row rows = Ok row →
  ∃ before after, rows = before ++ row :: after
    ∧ sj_current_version_id (rv_secrets row) = rv_id row
    ∧ Forall (λ r, sj_current_version_id (rv_secrets r) ≠ rv_id r) (before ++ after).
Proof.
  unfold select_single_current_secret_version_row. intros H.
  assert (filter (λ r, sj_current_version_id (rv_secrets r) = rv_id r) rows = [row]) as Hf.
  { destruct (filter _ rows) as [|r [|r' l]]; by simplify_eq. }
  clear H. induction rows as [|r rows IH]; [done|]. rewrite filter_cons in Hf. case_decide as Hr.
  - injection Hf as -> Hf. exists [], rows. split; [done|]. split; [done|]. cbn [app].
    apply Forall_forall. intros x Hx Hc.
    assert (x ∈ filter (λ r, sj_current_version_id (rv_secrets r) = rv_id r) rows) as Hin by (by apply list_elem_of_filter).
    rewrite Hf in Hin. by apply not_elem_of_nil in Hin.
  - destruct (IH Hf) as (before & after & -> & Hc & Hall). exists (r :: before), after. cbn [app]. by auto.
Qed.

Lemma Ciphertext_new_Ok b c : Ciphertext_new b = Ok c → c = mk_Ciphertext b ∧ b ≠ [].
Proof. unfold Ciphertext_new. destruct b; naive_solver. Qed.

Lemma parse_decrypt_row_Ok {LT : TimeLaws P} row read :
  parse_decrypt_row row = Ok read →
  rv_algorithm row = ALGORITHM_XCHACHA20_POLY1305
  ∧ rv_created_by_user_id row = sj_owner_user_id (rv_secrets row)
  ∧ rv_classification row = sj_classification (rv_secrets row)
  ∧ OwnerUserId_parse (sj_owner_user_id (rv_secrets row)) = Ok (pd_owner_user_id read)
  ∧ SecretId_parse (rv_secret_id row) = Ok (pd_secret_id read)
  ∧ SecretId_wf (pd_secret_id read) ∧ SecretVersion_wf (pd_version read)
  ∧ Classification_wf (pd_classification read) ∧ CreatedAt_wf (pd_created_at read)
  ∧ EncryptedDataKey_wf (pd_encrypted_data_key read) ∧ Nonce_wf (pd_nonce_or_iv read)
  ∧ Ciphertext_as_bytes (pd_ciphertext read) ≠ [].
Proof.
  unfold parse_decrypt_row, validate_decrypt_row_invariants. intros H. inv_ok.
  destruct (String.eqb_spec (rv_algorithm row) ALGORITHM_XCHACHA20_POLY1305); cbn [negb] in *; [|done].
  destruct (String.eqb_spec (sj_current_version_id (rv_secrets row)) (rv_id row)); cbn [negb] in *; [|done].
  destruct (String.eqb_spec (rv_created_by_user_id row) (sj_owner_user_id (rv_secrets row))); cbn [negb] in *; [|done].
  destruct (String.eqb_spec (rv_classification row) (sj_classification (rv_secrets row))); cbn [negb] in *; [|done].
  unfold build_prepared_decrypt_row in *.
  cbn [pp_secret_id pp_owner_user_id pp_version pp_classification] in *. inv_ok.
  cbn [pd_secret_id pd_owner_user_id pd_version pd_classification pd_created_at pd_encrypted_data_key pd_nonce_or_iv pd_ciphertext].
  split_and!; try done.
  - by eapply SecretId_parse_wf.
  - match goal with H : parse_secret_version _ _ = _ |- _ => by apply parse_secret_version_Ok in H as [_ ?] end.
  - by eapply Classification_new_wf.
  - by eapply CreatedAt_parse_wf.
  - match goal with H : EncryptedDataKey_parse _ = _ |- _ => unfold EncryptedDataKey_parse in H; inv_ok end.
    match goal with H : validate_encrypted_data_key_envelope _ = Ok ?u |- _ => destruct u; by apply validate_envelope_Ok in H end.
  - match goal with H : Nonce_parse _ = _ |- _ => by apply parse_array_Ok in H as [? ->] end.
  - match goal with H : Ciphertext_new _ = _ |- _ => by apply Ciphertext_new_Ok in H as [-> ?] end.
Qed.

(** What an alias row that resolves is made of. *)
Lemma parse_resolved_alias_Ok {LA : AeadLaws P} key owner row alias si :
  parse_resolved_secret_alias_row key owner row alias = Ok si →
  SecretId_parse (ra_secret_id row) = Ok si
  ∧ ∃ ai kv n ct aad cipher text,
      SecretAliasId_parse (ra_id row) = Ok ai
      ∧ parse_key_version (ra_alias_key_version row) "secret alias key_version is invalid" = Ok kv
      ∧ row_decode_bytea (ra_alias_nonce row) = Ok n ∧ row_decode_bytea (ra_alias_ciphertext row) = Ok ct
      ∧ AliasAadV1_canonical_bytes (AliasAadV1_new ai si owner kv) = Ok aad
      ∧ cipher_from_alias_key key = Ok cipher
      ∧ cipher_encrypt cipher n aad text = Some ct
      ∧ ∃ s, from_utf8 text = Some s ∧ NormalizedAlias_parse s = Ok alias.
Proof.
  unfold parse_resolved_secret_alias_row. intros H. inv_ok.
  match goal with H : (if ?b then _ else _) = Ok _ |- _ => destruct b eqn:Hb; [done|]; injection H as <- end.
  apply negb_false_iff, bool_decide_eq_true in Hb.
  split; [done|].
  match goal with H : Ciphertext_new _ = _ |- _ => apply Ciphertext_new_Ok in H as [-> ?] end.
  match goal with H : Nonce_parse _ = _ |- _ => apply parse_array_Ok in H as [? ->] end.
  match goal with H : decrypt_alias_row _ _ _ _ _ _ _ _ = _ |- _ => unfold decrypt_alias_row in H; inv_ok end.
  match goal with H : (if ?b then _ else _) = Ok _ |- _ => destruct b eqn:?; [done|]; inv_ok end.
  simplify_eq/=.
  match goal with H : decrypt_alias _ _ _ _ = _ |- _ => unfold decrypt_alias in H; inv_ok end.
  match goal with H : cipher_decrypt _ _ _ _ = _ |- _ => apply cipher_encrypt_decrypt in H end.
  do 7 eexists. split_and!; try done. eexists. by split.
Qed.

Lemma build_prepared_fields parts messages read :
  build_prepared_decrypt_row parts messages = Ok read →
  SecretId_parse (pp_secret_id parts) = Ok (pd_secret_id read)
  ∧ parse_secret_version (pp_version parts) (rm_version_invalid messages) = Ok (pd_version read)
  ∧ OwnerUserId_parse (pp_owner_user_id parts) = Ok (pd_owner_user_id read)
  ∧ Classification_new (pp_classification parts) = Ok (pd_classification read)
  ∧ CreatedAt_parse (pp_created_at parts) = Ok (pd_created_at read)
  ∧ pd_aad_context read = pp_aad_context parts.
Proof. unfold build_prepared_decrypt_row. intros H. inv_ok. by split_and!. Qed.

Lemma encrypt_alias_wf {LR : RandomLaws P} {LA : AeadLaws P} key aad alias w e w' :
  encrypt_alias key aad alias w = (Ok e, w') →
  Nonce_parse (Nonce_as_bytes (ea_nonce e)) = Ok (ea_nonce e)
  ∧ Ciphertext_new (Ciphertext_as_bytes (ea_ciphertext e)) = Ok (ea_ciphertext e).
Proof.
  unfold encrypt_alias. intros H. inv_ok.
  match goal with H : Nonce_generate _ = (Ok ?n, _) |- _ => apply Nonce_generate_wf in H; destruct n end.
  match goal with H : Ciphertext_new _ = _ |- _ => pose proof H; apply Ciphertext_new_Ok in H as [-> ?] end.
  cbn. split; [by apply parse_array_Ok|done].
Qed.

(** The row that keeps a version is the version the next reading finds. *)
Lemma fetch_stored_version {LU : UuidLaws P} {LT : TimeLaws P} {LH : HexLaws P} {Svc : LedgerService} {Sec : SecretService}
    appender rid p snapshot w params w1 jwt w2 rows row w3 :
  version_readable p → build_rpc_params appender rid p snapshot w = (Ok params, w1) →
  svc_read_secret_versions (wp_secret_id params) jwt w2 = (Ok rows, w3) →
  filter (λ r, sj_current_version_id (rv_secrets r) = rv_id r) rows = [row] → stored_version params row →
  fetch_current_secret_version (prep_secret_id p) jwt w2
  = (Ok (row_of_version p (kept_created_at (prep_created_at p))), w3).
Proof.
  intros Hread Hb Hr Hf Hst.
  unfold fetch_current_secret_version, fetch_current_secret_version_for_user, mbind, io_bind, io_map_err.
  pose proof (build_rpc_params_fields _ _ _ _ _ _ _ Hb) as [<- _]. rewrite Hr.
  unfold lift. cbn [mbind result_bind map_err]. unfold select_single_current_secret_version_row.
  rewrite Hf. cbn [mbind result_bind]. by rewrite (parse_stored_version _ _ _ _ _ _ _ _ Hread Hb Hst).
Qed.
End read_inversions.

(** ** Properties *)

Section read_theorems.
Context {P : Platform} {Sec : SecretService}.

(** What is written is what is read, with the time of creation as the column keeps it.
    A version made by a creation or a rotation, sent to the database, and found there as
    the one current row of its secret, is read back as the version that was made and is a
    sound start for the next rotation.  Its owner decrypts it to the plaintext that was
    written when its time of creation has whole microseconds, and not at all otherwise. *)
Theorem stored_secret_reads_back {LU : UuidLaws P} {LT : TimeLaws P} {LR : RandomLaws P} {LA : AeadLaws P}
    {LH : HexLaws P} {LS : SerdeLaws P} {I : Instants P} {TC : TimestampColumn P} {Svc : LedgerService}
    ring owner pt p appender rid snapshot w params w1 jwt w2 rows row w3 claims :
  MasterKeyRing_wf ring → KeyVersion_wf (ring_active_key_version ring) →
  prepared_from ring owner pt p →
  build_rpc_params appender rid p snapshot w = (Ok params, w1) →
  svc_read_secret_versions (wp_secret_id params) jwt w2 = (Ok rows, w3) →
  filter (λ r, sj_current_version_id (rv_secrets r) = rv_id r) rows = [row] → stored_version params row →
  claims_subject_user_id claims = owner →
  ∃ read, fetch_current_secret_version (prep_secret_id p) jwt w2 = (Ok read, w3)
    ∧ pd_version read = prep_version p ∧ pd_secret_version_id read = prep_secret_version_id p
    ∧ (decrypt_current_secret_version_with_keyring ring (into_decrypt_input read claims) = Ok pt
       ↔ whole_microseconds (prep_created_at p))
    ∧ ∀ device created_at pt', CreatedAt_wf created_at →
        existing_input_wf
          (mk_ExistingSecretVersionInput (into_current_secret_version_state read) device created_at pt').
Proof.
  intros Hring Hkv Hp Hb Hr Hf Hst Hsub.
  destruct (prepared_from_readable ring owner pt p Hring Hkv Hp) as [Hread _].
  exists (row_of_version p (kept_created_at (prep_created_at p))). split; [by eapply fetch_stored_version|].
  destruct (kept_version_decrypts ring owner pt p claims Hring Hkv Hp Hsub) as [Hyes Hno].
  split_and!; [done|done| |].
  - split; [|done]. intros Hd. destruct (decide (whole_microseconds (prep_created_at p))) as [|Hw]; [done|].
    destruct (Hno Hw) as (e & He & _). congruence.
  - intros device created_at pt' Hc. destruct Hread as (? & _ & ? & ? & _). by split_and!.
Qed.

(** A secret is taken for the current one only when the row is beyond doubt:
    among the rows the caller may see exactly one is marked current, its owner
    created it, its algorithm and classification are those of the secret, and
    every field parsed to a well-formed value. *)
Theorem read_row_is_checked {LT : TimeLaws P} secret_id jwt w read w' :
  fetch_current_secret_version secret_id jwt w = (Ok read, w') →
  ∃ rows before row after,
    svc_read_secret_versions (SecretId_as_canonical_string secret_id) jwt w = (Ok rows, w')
    ∧ rows = before ++ row :: after
    ∧ sj_current_version_id (rv_secrets row) = rv_id row
    ∧ Forall (λ r, sj_current_version_id (rv_secrets r) ≠ rv_id r) (before ++ after)
    ∧ rv_algorithm row = ALGORITHM_XCHACHA20_POLY1305
    ∧ rv_created_by_user_id row = sj_owner_user_id (rv_secrets row)
    ∧ rv_classification row = sj_classification (rv_secrets row)
    ∧ OwnerUserId_parse (sj_owner_user_id (rv_secrets row)) = Ok (pd_owner_user_id read)
    ∧ SecretId_parse (rv_secret_id row) = Ok (pd_secret_id read)
    ∧ SecretId_wf (pd_secret_id read) ∧ SecretVersion_wf (pd_version read)
    ∧ Classification_wf (pd_classification read) ∧ CreatedAt_wf (pd_created_at read)
    ∧ EncryptedDataKey_wf (pd_encrypted_data_key read) ∧ Nonce_wf (pd_nonce_or_iv read)
    ∧ Ciphertext_as_bytes (pd_ciphertext read) ≠ [].
Proof.
  unfold fetch_current_secret_version, fetch_current_secret_version_for_user. intros H. inv_ok.
  match goal with H : select_single_current_secret_version_row ?rs = Ok ?r |- _ =>
    apply select_single_Ok in H as (before & after & -> & Hcur & Hrest); exists (before ++ r :: after), before, r, after end.
  match goal with H : parse_decrypt_row _ = _ |- _ => apply parse_decrypt_row_Ok in H end.
  tauto.
Qed.

(** An alias names a secret only through an authentic row: the database is asked
    for the fingerprint of the caller and the text, and the one row it returns
    decrypts, under data that binds the alias row, the secret and the caller, to
    the very text that was asked for. *)
Theorem resolved_alias_is_authentic {LA : AeadLaws P}
    fkey key alias owner w secret_id w' :
  resolve_secret_ref fkey key (SecretRef_Alias alias) owner w = (Ok secret_id, w') →
  ∃ f row ai kv n ct aad cipher text,
    compute_lookup_fingerprint fkey owner alias = Ok f
    ∧ svc_resolve_secret_alias (mk_ResolveSecretAliasParams (OwnerUserId_as_canonical_string owner)
        (encode_bytea (AliasFingerprint_as_bytes f))) w = (Ok [row], w')
    ∧ SecretId_parse (ra_secret_id row) = Ok secret_id ∧ SecretAliasId_parse (ra_id row) = Ok ai
    ∧ AliasAadV1_canonical_bytes (AliasAadV1_new ai secret_id owner kv) = Ok aad
    ∧ cipher_from_alias_key key = Ok cipher
    ∧ row_decode_bytea (ra_alias_nonce row) = Ok n ∧ row_decode_bytea (ra_alias_ciphertext row) = Ok ct
    ∧ cipher_encrypt cipher n aad text = Some ct
    ∧ ∃ s, from_utf8 text = Some s ∧ NormalizedAlias_parse s = Ok alias.
Proof.
  unfold resolve_secret_ref, call_resolve_secret_alias. intros H. inv_ok.
  match goal with H : parse_resolved_secret_alias_row _ _ _ _ = _ |- _ =>
    apply parse_resolved_alias_Ok in H as (Hid & ai & kv & n & ct & aad & cipher & text & Hai & _ & Hn & Hct & Haad & Hc & He & Hs) end.
  match goal with H : match ?rows with _ => _ end = Ok _ |- _ => destruct rows as [|row [|]]; inv_ok end.
  simplify_eq. eexists _, _, ai, kv, n, ct, aad, cipher, text. split_and!; eauto.
Qed.

(** An alias that was created resolves to its secret: the lookup of the same
    owner and text asks for the fingerprint that was stored, and the stored row is
    accepted. *)
Theorem created_alias_resolves {LU : UuidLaws P} {LS : SerdeLaws P} {LR : RandomLaws P} {LA : AeadLaws P}
    {LH : HexLaws P} key kv fkey fkv si oi alias created_at w p w1 w2 row w3 :
  SecretId_wf si → KeyVersion_wf kv → NormalizedAlias_wf alias →
  prepare_alias_create key kv fkey fkv si oi alias created_at w = (Ok p, w1) →
  row = mk_SecretAliasResolveRow (SecretAliasId_as_canonical_string (pc_secret_alias_id p))
    (SecretId_as_canonical_string si) (encode_bytea (Ciphertext_as_bytes (pc_ciphertext p)))
    (encode_bytea (Nonce_as_bytes (pc_nonce p))) (KeyVersion_get kv) (pc_aad_context p) →
  svc_resolve_secret_alias (mk_ResolveSecretAliasParams (OwnerUserId_as_canonical_string oi)
    (encode_bytea (AliasFingerprint_as_bytes (pc_alias_fingerprint p)))) w2 = (Ok [row], w3) →
  resolve_secret_ref fkey key (SecretRef_Alias alias) oi w2 = (Ok si, w3).
Proof.
  intros Hsi Hkv Ha Hp -> Hsvc. unfold prepare_alias_create in Hp. inv_ok. cbn in Hsvc.
  match goal with H : encrypt_alias _ _ _ _ = _ |- _ =>
    pose proof (decrypt_encrypt_alias _ _ _ _ _ _ Ha H) as Hdec; apply encrypt_alias_wf in H as [Hn Hct] end.
  match goal with H : SecretAliasId_generate _ = _ |- _ => apply SecretAliasId_generate_wf in H end.
  unfold resolve_secret_ref, compute_lookup_fingerprint, call_resolve_secret_alias, mbind, io_bind, io_map_err, lift.
  match goal with H : compute_alias_fingerprint _ _ _ = _ |- _ => rewrite H end. cbn [map_err].
  rewrite Hsvc. cbn [map_err ok_or]. unfold parse_resolved_secret_alias_row.
  cbn [ra_id ra_secret_id ra_alias_ciphertext ra_alias_nonce ra_alias_key_version ra_aad_context
    pc_secret_alias_id pc_ciphertext pc_nonce pc_aad_context].
  rewrite !row_decode_encode. cbn [mbind result_bind map_err].
  rewrite SecretAliasId_parse_canonical // SecretId_parse_canonical // parse_key_version_wf //.
  cbn [mbind result_bind map_err]. rewrite Hct Hn. cbn [mbind result_bind map_err].
  rewrite decrypt_row_of_stored; [|by split_and!|done]. rewrite Hdec. cbn [mbind result_bind map_err da_alias].
  by rewrite bool_decide_eq_true_2.
Qed.

(** A sampled row that the restore test accepts passes the row check of the
    decryption for the owner its associated data names, and nothing but its keys
    and ciphertext can still make it fail. *)
Theorem restore_sample_validates {LU : UuidLaws P} {LT : TimeLaws P} {LS : SerdeLaws P} row read :
  parse_restore_test_sample row = Ok read →
  AadV1_from_stored_context (rt_aad_context row)
    = Ok (row_aad_from_input (into_decrypt_input read (claims_for_restore_test_only (pd_owner_user_id read))))
  ∧ validate_decrypt_input (into_decrypt_input read (claims_for_restore_test_only (pd_owner_user_id read)))
    = Ok (row_aad_from_input (into_decrypt_input read (claims_for_restore_test_only (pd_owner_user_id read)))).
Proof.
  unfold parse_restore_test_sample. intros H. inv_ok.
  match goal with H : (if ?b then _ else _) = Ok _ |- _ => destruct b eqn:Hb; [done|]; rename H into Hbuild end.
  apply negb_false_iff, bool_decide_eq_true in Hb. subst.
  match goal with H : AadV1_from_stored_context _ = Ok _ |- _ => rename H into Hctx; pose proof (AadV1_from_stored_wf _ _ Hctx) as Hwf end.
  match goal with H : SecretId_parse _ = Ok _ |- _ => pose proof (SecretId_parse_wf _ _ H) as Hsi end.
  match goal with H : CreatedAt_parse _ = Ok _ |- _ => rename H into Hca; pose proof (CreatedAt_parse_wf _ _ Hca) as H2' end.
  match goal with H : Classification_new _ = Ok _ |- _ => rename H into Hcl; pose proof (Classification_new_wf _ _ Hcl) as H3 end.
  match goal with H : parse_secret_version _ _ = Ok _ |- _ => rename H into Hv; pose proof (parse_secret_version_Ok _ _ _ Hv) as [? Hvw] end.
  apply build_prepared_fields in Hbuild as (B1 & B2 & B3 & B4 & B5 & B6).
  cbn [pp_secret_id pp_version pp_owner_user_id pp_classification pp_created_at pp_aad_context] in *.
  rewrite SecretId_parse_canonical // in B1. rewrite OwnerUserId_parse_canonical in B3.
  rewrite Hcl in B4. rewrite Hca in B5. apply parse_secret_version_Ok in B2 as [B2 _].
  match goal with H : AadV1_canonical_bytes (AadV1_from_row_metadata _ _ _ _ _) = Ok _ |- _ => rename H into Hrow end.
  match type of Hrow with AadV1_canonical_bytes ?r = _ =>
    assert (row_aad_from_input (into_decrypt_input read (claims_for_restore_test_only (pd_owner_user_id read))) = r) as Haad;
    [unfold row_aad_from_input; cbn [into_decrypt_input dec_secret_id dec_version dec_owner_user_id dec_classification dec_created_at];
     by simplify_eq; f_equal|] end.
  match type of Hrow with AadV1_canonical_bytes ?r = _ =>
    assert (AadV1_wf r) as Hrw by exact (conj Hsi (conj Hvw (conj H3 H2'))) end.
  match goal with H : AadV1_canonical_bytes _ = Ok _ |- _ =>
    pose proof (AadV1_canonical_inj _ _ _ Hwf Hrw H Hrow) as Heq end.
  rewrite Heq in Hctx. rewrite Haad. split; [done|]. unfold validate_decrypt_input. rewrite Haad. cbn [into_decrypt_input dec_claims
    dec_owner_user_id dec_version dec_current_version dec_aad_context].
  rewrite (proj2 (authorize_decrypt_Ok _ _ _ _)); [|done]. cbn [map_err mbind result_bind].
  rewrite B6. unfold verify_stored_aad_matches_row. rewrite Hctx. cbn [map_err mbind result_bind].
  rewrite Hrow. cbn [map_err mbind result_bind]. by rewrite bool_decide_eq_true_2.
Qed.
End read_theorems.
