(* ===== verification/Digest.v ===== *)
(** * Monthly digests ([src/ledger/digest.rs], [src/server/supabase/{digest,verify_digest}_rpc.rs])

    A digest binds a month's range of ledger entries: its canonical form is
    hashed and signed.  This file has the period, the canonical form and the
    decoding of the rows the digest use cases read. *)

From S2P Require Import Prelude RustStd Json Platform Reference Errors Types AuditTypes LedgerTypes LedgerPayload LedgerEntry LedgerChain LedgerRpc.

Definition DIGEST_SCHEMA_VERSION_V1 : Z := 1.
Definition DIGEST_GENERATED_BY : str := "mipsorcu-sbc".

(** ** Periods *)

Record MonthlyDigestPeriod := mk_MonthlyDigestPeriod { MonthlyDigestPeriod_as_str : str }.
#[global] Instance MonthlyDigestPeriod_eq_dec : EqDecision MonthlyDigestPeriod.
Proof. solve_decision. Defined.

Definition validate_year_month_format (value : str) : result LedgerError unit :=
  let b := chars value in
  if negb (length b =? 7)%nat || negb (bool_decide (b !! 4%nat = Some "-"%char))
  then Err LedgerError_InvalidMonthlyDigestPeriod else
  if negb (forallb is_ascii_digit (take 4 b)) then Err LedgerError_InvalidMonthlyDigestPeriod else
  if negb (forallb is_ascii_digit (drop 5 b)) then Err LedgerError_InvalidMonthlyDigestPeriod else
  let month := default 0 (parse_u8 (slice_from value 5)) in
  if (month =? 0) || (12 <? month) then Err LedgerError_InvalidMonthlyDigestPeriod else Ok tt.

Definition MonthlyDigestPeriod_parse (value : str) : result LedgerError MonthlyDigestPeriod :=
  _ ← validate_year_month_format value;
  Ok (mk_MonthlyDigestPeriod value).

(** ** Canonical form, hash and signature *)

Record DigestCanonicalBytes := mk_DigestCanonicalBytes { DigestCanonicalBytes_as_bytes : bytes }.
Record DigestHash := mk_DigestHash { DigestHash_as_bytes : bytes }.
#[global] Instance DigestHash_eq_dec : EqDecision DigestHash.
Proof. solve_decision. Defined.

Section digest.
Context {P : Platform}.

Definition DigestHash_from_canonical_bytes (b : DigestCanonicalBytes) : DigestHash :=
  mk_DigestHash (sha256 (DigestCanonicalBytes_as_bytes b)).
Definition DigestHash_to_hex (h : DigestHash) : str := hex_encode (DigestHash_as_bytes h).

(** [#[derive(Serialize)] struct DigestCanonicalDocument], fields in order. *)
Definition DigestCanonicalDocument (digest_generated_at end_entry_hash : str)
    (end_sequence_no entry_count signature_key_version : Z) (start_entry_hash : str)
    (start_sequence_no : Z) (target_year_month : str) : Map :=
  [("digest_generated_at", JString digest_generated_at);
   ("digest_schema_version", json_uint DIGEST_SCHEMA_VERSION_V1);
   ("end_entry_hash", JString end_entry_hash);
   ("end_sequence_no", json_uint end_sequence_no);
   ("entry_count", json_uint entry_count);
   ("generated_by", JString DIGEST_GENERATED_BY);
   ("hash_algorithm", JString LEDGER_HASH_ALGORITHM_SHA256);
   ("signature_algorithm", JString LEDGER_SIGNATURE_ALGORITHM_ED25519);
   ("signature_key_version", json_uint signature_key_version);
   ("start_entry_hash", JString start_entry_hash);
   ("start_sequence_no", json_uint start_sequence_no);
   ("target_year_month", JString target_year_month)]%string.

Definition build_monthly_digest_canonical_form (period : MonthlyDigestPeriod)
    (start_sequence_no end_sequence_no : LedgerSequenceNo) (start_entry_hash end_entry_hash : LedgerHash)
    (entry_count : Z) (digest_generated_at : SourceEventAt)
    (signature_key_version : LedgerSignatureKeyVersion) : result LedgerError DigestCanonicalBytes :=
  let document := DigestCanonicalDocument (SourceEventAt_as_str digest_generated_at)
    (LedgerHash_to_hex end_entry_hash) (LedgerSequenceNo_get end_sequence_no) entry_count
    (LedgerSignatureKeyVersion_get signature_key_version) (LedgerHash_to_hex start_entry_hash)
    (LedgerSequenceNo_get start_sequence_no) (MonthlyDigestPeriod_as_str period) in
  bytes ← serde_to_vec (JObject document) !? LedgerError_SerializationFailed;
  Ok (mk_DigestCanonicalBytes bytes).

Record SignedMonthlyDigest := mk_SignedMonthlyDigest {
  dg_period : MonthlyDigestPeriod;
  dg_start_sequence_no : LedgerSequenceNo;
  dg_end_sequence_no : LedgerSequenceNo;
  dg_start_entry_hash : LedgerHash;
  dg_end_entry_hash : LedgerHash;
  dg_entry_count : Z;
  dg_digest_generated_at : SourceEventAt;
  dg_signature_key_version : LedgerSignatureKeyVersion;
  dg_canonical_bytes : DigestCanonicalBytes;
  dg_digest_hash : DigestHash;
  dg_sbc_signature : LedgerSignature;
}.

(** ** Rows read by the digest use cases *)

Record LedgerRangeForMonth := mk_LedgerRangeForMonth {
  range_start_sequence_no : LedgerSequenceNo;
  range_end_sequence_no : LedgerSequenceNo;
  range_start_entry_hash : LedgerHash;
  range_end_entry_hash : LedgerHash;
  range_entry_count : Z;
}.
Record LedgerRangeResponse := mk_LedgerRangeResponse {
  rr_start_sequence_no : Z;
  rr_end_sequence_no : Z;
  rr_start_entry_hash : str;
  rr_end_entry_hash : str;
  rr_entry_count : Z;
}.

Definition LedgerRangeForMonth_try_from (response : LedgerRangeResponse) :
    result SupabaseRpcError LedgerRangeForMonth :=
  start_sequence_no ← LedgerSequenceNo_from_i64 (rr_start_sequence_no response)
    !? invalid_response "ledger range RPC returned invalid start_sequence_no";
  end_sequence_no ← LedgerSequenceNo_from_i64 (rr_end_sequence_no response)
    !? invalid_response "ledger range RPC returned invalid end_sequence_no";
  start_entry_hash ← LedgerHash_from_bytea_hex (rr_start_entry_hash response)
    !? invalid_response "ledger range RPC returned invalid start_entry_hash";
  end_entry_hash ← LedgerHash_from_bytea_hex (rr_end_entry_hash response)
    !? invalid_response "ledger range RPC returned invalid end_entry_hash";
  entry_count ← ok_or (u_try_from u64_max (rr_entry_count response))
    (SupabaseRpcError_InvalidResponse "ledger range RPC returned negative entry_count");
  if entry_count =? 0
  then Err (SupabaseRpcError_InvalidResponse "ledger range RPC returned entry_count=0 but a row was present")
  else Ok (mk_LedgerRangeForMonth start_sequence_no end_sequence_no start_entry_hash end_entry_hash entry_count).

Record MonthlyDigestVerificationMaterials := mk_MonthlyDigestVerificationMaterials {
  vm_start_sequence_no : LedgerSequenceNo;
  vm_end_sequence_no : LedgerSequenceNo;
  vm_stored_entry_count : Z;
  vm_stored_digest_hash : str;
  vm_target_year_month : MonthlyDigestPeriod;
  vm_digest_generated_at : SourceEventAt;
  vm_signature : LedgerSignature;
  vm_signature_key_version : LedgerSignatureKeyVersion;
  vm_public_key : option LedgerVerifyingKey;
  vm_start_entry_hash : LedgerHash;
  vm_end_entry_hash : LedgerHash;
}.
Record DigestForVerificationResponse := mk_DigestForVerificationResponse {
  dr_start_sequence_no : Z;
  dr_end_sequence_no : Z;
  dr_stored_entry_count : Z;
  dr_stored_digest_hash : str;
  dr_target_year_month : str;
  dr_digest_generated_at : str;
  dr_signature : str;
  dr_signature_key_version : Z;
  dr_public_key : option str;
  dr_start_entry_hash : str;
  dr_end_entry_hash : str;
}.

Definition decode_public_key_bytes (hex : str) (key_version : LedgerSignatureKeyVersion) :
    result SupabaseRpcError LedgerVerifyingKey :=
  h ← ok_or (strip_prefix "\x" hex)
    (SupabaseRpcError_InvalidResponse "digest verification RPC returned public_key without \x prefix");
  raw ← ok_or (hex_decode h)
    (SupabaseRpcError_InvalidResponse "digest verification RPC returned invalid public_key hex");
  LedgerVerifyingKey_from_public_key_bytes key_version raw
    !? invalid_response "digest verification RPC returned invalid Ed25519 public_key".

Definition MonthlyDigestVerificationMaterials_try_from (r : DigestForVerificationResponse) :
    result SupabaseRpcError MonthlyDigestVerificationMaterials :=
  start_sequence_no ← LedgerSequenceNo_from_i64 (dr_start_sequence_no r)
    !? invalid_response "digest verification RPC returned invalid start_sequence_no";
  end_sequence_no ← LedgerSequenceNo_from_i64 (dr_end_sequence_no r)
    !? invalid_response "digest verification RPC returned invalid end_sequence_no";
  stored_entry_count ← ok_or (u_try_from u64_max (dr_stored_entry_count r))
    (SupabaseRpcError_InvalidResponse "digest verification RPC returned negative stored_entry_count");
  if stored_entry_count =? 0
  then Err (SupabaseRpcError_InvalidResponse "digest verification RPC returned stored_entry_count=0") else
  target_year_month ← MonthlyDigestPeriod_parse (dr_target_year_month r)
    !? invalid_response "digest verification RPC returned invalid target_year_month";
  digest_generated_at ← SourceEventAt_parse (dr_digest_generated_at r)
    !? invalid_response "digest verification RPC returned invalid digest_generated_at";
  signature ← LedgerSignature_from_bytea_hex (dr_signature r)
    !? invalid_response "digest verification RPC returned invalid signature";
  signature_key_version ← LedgerSignatureKeyVersion_new (i32_as_u32 (dr_signature_key_version r))
    !? invalid_response "digest verification RPC returned invalid signature_key_version";
  public_key ← match dr_public_key r with
    | None => Ok None
    | Some hex => Some <$> decode_public_key_bytes hex signature_key_version
    end;
  start_entry_hash ← LedgerHash_from_bytea_hex (dr_start_entry_hash r)
    !? invalid_response "digest verification RPC returned invalid start_entry_hash";
  end_entry_hash ← LedgerHash_from_bytea_hex (dr_end_entry_hash r)
    !? invalid_response "digest verification RPC returned invalid end_entry_hash";
  Ok (mk_MonthlyDigestVerificationMaterials start_sequence_no end_sequence_no stored_entry_count
    (dr_stored_digest_hash r) target_year_month digest_generated_at signature signature_key_version
    public_key start_entry_hash end_entry_hash).
End digest.

(** ** Lemmas *)

(** The two format checks agree: [r && ..] is the conjunction of the digest's
    early returns. *)
Lemma year_month_Ok value :
  validate_year_month_format value = Ok tt ↔
  length (chars value) = 7%nat ∧ chars value !! 4%nat = Some "-"%char
  ∧ forallb is_ascii_digit (take 4 (chars value)) = true
  ∧ forallb is_ascii_digit (drop 5 (chars value)) = true
  ∧ 1 ≤ default 0 (parse_u8 (slice_from value 5)) ≤ 12.
Proof.
  unfold validate_year_month_format. set (m := default 0 _).
  destruct (length (chars value) =? 7)%nat eqn:?; b2p; simpl; [|naive_solver].
  case_bool_decide; simpl; [|naive_solver].
  destruct (forallb _ (take 4 _)); simpl; [|naive_solver].
  destruct (forallb _ (drop 5 _)); simpl; [|naive_solver].
  assert (0 ≤ m).
  { unfold m. destruct (parse_u8 _) eqn:E; simpl; [|done]. apply parse_u8_in_range in E as [? _]. done. }
  destruct (m =? 0) eqn:?, (12 <? m) eqn:?; b2p; simpl; naive_solver lia.
Qed.

Section digest_lemmas.
Context {P : Platform}.

Definition digest_fields_wf (s e : LedgerSequenceNo) (count : Z) (v : LedgerSignatureKeyVersion) : Prop :=
  LedgerSequenceNo_wf s ∧ LedgerSequenceNo_wf e ∧ is_u64 count ∧ LedgerSignatureKeyVersion_wf v.

Lemma digest_document_exact at_ eh e c v sh s ym :
  digest_fields_wf (mk_LedgerSequenceNo s) (mk_LedgerSequenceNo e) c (mk_LedgerSignatureKeyVersion v) →
  json_exact json_max_depth (JObject (DigestCanonicalDocument at_ eh e c v sh s ym)) = true.
Proof.
  intros (Hs & He & Hc & Hv). apply json_exact_object. split; [by decide_keys|].
  unfold LedgerSequenceNo_wf, LedgerSignatureKeyVersion_wf, nonzero_u32, is_u64, LEDGER_I64_MAX_U64,
    u32_max, u64_max in *. cbn [LedgerSequenceNo_get LedgerSignatureKeyVersion_get] in *.
  assert (∀ z, 0 ≤ z ≤ 18446744073709551615 → json_exact 126 (json_uint z) = true) as Hz.
  { intros z Hz. cbn. apply andb_true_iff; split; apply Z.leb_le; unfold u64_max; lia. }
  repeat constructor; cbn [snd]; try done; apply Hz; lia.
Qed.

Lemma digest_canonical_Ok period s e sh eh c at_ v b :
  build_monthly_digest_canonical_form period s e sh eh c at_ v = Ok b ↔
  ∃ t, serde_to_string (JObject (DigestCanonicalDocument (SourceEventAt_as_str at_) (LedgerHash_to_hex eh)
      (LedgerSequenceNo_get e) c (LedgerSignatureKeyVersion_get v) (LedgerHash_to_hex sh)
      (LedgerSequenceNo_get s) (MonthlyDigestPeriod_as_str period))) = Ok t
    ∧ b = mk_DigestCanonicalBytes (as_bytes t).
Proof.
  unfold build_monthly_digest_canonical_form. split.
  - intros H. inv_ok. apply serde_to_vec_Ok in H as (t & ? & ->). by exists t.
  - intros (t & Ht & ->). unfold serde_to_vec. by rewrite Ht.
Qed.

(** No digest has the bytes of a ledger entry. *)
Lemma digest_not_entry_bytes {LS : SerdeLaws P} period s e sh eh c at_ v b f p :
  digest_fields_wf s e c v → fields_wf f →
  build_monthly_digest_canonical_form period s e sh eh c at_ v = Ok b →
  build_canonical_payload f = Ok p →
  DigestCanonicalBytes_as_bytes b ≠ LedgerCanonicalPayload_as_bytes p.
Proof.
  destruct s as [s], e as [e], v as [v]. intros Hd Hf (t & Ht & ->)%digest_canonical_Ok
    (u & Hu & ->)%build_canonical_payload_Ok. simpl. intros <-%as_bytes_inj.
  pose proof (serde_to_string_inj _ _ _ (digest_document_exact _ _ _ _ _ _ _ _ Hd)
    (canonical_document_exact f Hf) Ht Hu) as Hn.
  discriminate Hn.
Qed.
End digest_lemmas.

(** ** Properties *)

(** The two implementations of the year-month check accept the same texts:
    the one digests are parsed with, and the one ledger payloads are validated
    with. *)
Theorem year_month_checks_agree key value :
  is_ok (MonthlyDigestPeriod_parse value) = is_ok (validate_year_month_value key (JString value)).
Proof.
  unfold MonthlyDigestPeriod_parse, validate_year_month_value. cbn [as_str ok_or mbind result_bind].
  destruct (validate_year_month_format value) as [[]|] eqn:E; simpl.
  - apply year_month_Ok in E as (H1 & H2 & H3 & H4 & H5).
    rewrite H1 H3 H4 bool_decide_eq_true_2 //= (proj2 (Z.leb_le 1 _)); [|lia].
    by rewrite (proj2 (Z.leb_le _ 12)); [|lia].
  - case_if; simpl; [done|]. b2p. exfalso.
    assert (validate_year_month_format value = Ok tt); [|congruence].
    apply year_month_Ok. split_and!; done || lia.
Qed.

Section digest_theorems.
Context {P : Platform}.

(** The canonical form of a digest determines all it was built from: two
    digests with the same canonical bytes have the same period, range, entry
    hashes, count, generation time and key version. *)
Theorem digest_canonical_form_binding {LS : SerdeLaws P} {LH : HexLaws P}
    period1 s1 e1 sh1 eh1 c1 at1 v1 period2 s2 e2 sh2 eh2 c2 at2 v2 b :
  digest_fields_wf s1 e1 c1 v1 → digest_fields_wf s2 e2 c2 v2 →
  build_monthly_digest_canonical_form period1 s1 e1 sh1 eh1 c1 at1 v1 = Ok b →
  build_monthly_digest_canonical_form period2 s2 e2 sh2 eh2 c2 at2 v2 = Ok b →
  period1 = period2 ∧ s1 = s2 ∧ e1 = e2 ∧ sh1 = sh2 ∧ eh1 = eh2 ∧ c1 = c2 ∧ at1 = at2 ∧ v1 = v2.
Proof.
  destruct s1, e1, v1, s2, e2, v2, period1, period2, at1, at2. intros Hw1 Hw2
    (t1 & Ht1 & ->)%digest_canonical_Ok (t2 & Ht2 & [= <-%as_bytes_inj])%digest_canonical_Ok.
  unshelve epose proof (serde_struct_inj _ _ _ _ _ _ Ht1 Ht2) as Hn;
    [by apply digest_document_exact|by apply digest_document_exact|done|].
  cbn in Hn. simplify_eq/=. repeat select (LedgerHash_to_hex _ = LedgerHash_to_hex _)
    (fun H => apply LedgerHash_hex_inj in H; subst). done.
Qed.
End digest_theorems.
