(* ===== verification/DigestUseCases.v ===== *)
(** * Generating and verifying monthly digests
    ([src/server/use_cases/{generate,verify}_monthly_digest.rs])

    The two use cases as sequences of database calls and checks.  Logging is
    left out; the audit record of a failure is made by the caller. *)

From S2P Require Import Prelude RustStd Json Platform Reference Errors Types AuditTypes LedgerTypes LedgerPayload LedgerEntry LedgerChain LedgerRpc LedgerAppender Digest.

Section use_cases.
Context {P : Platform}.

(** The digest calls of the database. *)
Class DigestService := {
  svc_check_monthly_digest_exists : str → io World SupabaseRpcError (list bool);
  svc_fetch_ledger_range_for_month : str → io World SupabaseRpcError (list LedgerRangeResponse);
  svc_fetch_monthly_digest_for_verification :
    str → io World SupabaseRpcError (list DigestForVerificationResponse);
  svc_export_ledger_verification_materials :
    Z → Z → io World SupabaseRpcError (list LedgerVerificationMaterialResponse);
}.

Context {DSvc : DigestService}.

(** [rows.into_iter().next().map(T::try_from).transpose()]. *)
Definition optional_row {A B} (convert : A → result SupabaseRpcError B) (rows : list A) :
    result SupabaseRpcError (option B) :=
  match rows with
  | [] => Ok None
  | row :: _ => Some <$> convert row
  end.

Definition check_monthly_digest_exists (year_month : str) : io World SupabaseRpcError bool :=
  rows ← svc_check_monthly_digest_exists year_month;
  mret (match rows with r :: _ => r | [] => false end).
Definition fetch_ledger_range_for_month (year_month : str) :
    io World SupabaseRpcError (option LedgerRangeForMonth) :=
  rows ← svc_fetch_ledger_range_for_month year_month;
  lift (optional_row LedgerRangeForMonth_try_from rows).
Definition fetch_monthly_digest_for_verification (year_month : str) :
    io World SupabaseRpcError (option MonthlyDigestVerificationMaterials) :=
  rows ← svc_fetch_monthly_digest_for_verification year_month;
  lift (optional_row MonthlyDigestVerificationMaterials_try_from rows).
Definition export_ledger_verification_materials (start_sequence_no end_sequence_no : LedgerSequenceNo) :
    io World SupabaseRpcError (list LedgerVerificationMaterialRow) :=
  rows ← svc_export_ledger_verification_materials (LedgerSequenceNo_get start_sequence_no)
    (LedgerSequenceNo_get end_sequence_no);
  lift (try_map LedgerVerificationMaterialRow_try_from rows).

(** ** Generation *)

Record GenerateMonthlyDigestInput := mk_GenerateMonthlyDigestInput {
  gi_period : MonthlyDigestPeriod;
  gi_generated_at : SourceEventAt;
  gi_request_id : RequestId;
}.

Inductive GenerateMonthlyDigestError :=
| GenerateMonthlyDigestError_DuplicateDigest
| GenerateMonthlyDigestError_NoEntriesForPeriod
| GenerateMonthlyDigestError_FetchFailed (code : str)
| GenerateMonthlyDigestError_BuildFailed (code : str)
| GenerateMonthlyDigestError_AppendFailed (code : str).

Definition GenerateMonthlyDigestError_as_error_code (e : GenerateMonthlyDigestError) : str :=
  match e with
  | GenerateMonthlyDigestError_DuplicateDigest => "monthly_digest_duplicate"
  | GenerateMonthlyDigestError_NoEntriesForPeriod => "monthly_digest_no_entries"
  | GenerateMonthlyDigestError_FetchFailed code | GenerateMonthlyDigestError_BuildFailed code
  | GenerateMonthlyDigestError_AppendFailed code => code
  end.

Definition build_failed (e : LedgerError) : GenerateMonthlyDigestError :=
  GenerateMonthlyDigestError_BuildFailed (LedgerError_to_string e).

Definition fetch_ledger_range (input : GenerateMonthlyDigestInput) :
    io World GenerateMonthlyDigestError LedgerRangeForMonth :=
  io_match (fetch_ledger_range_for_month (MonthlyDigestPeriod_as_str (gi_period input))) (λ r,
    match r with
    | Ok (Some range) => mret range
    | Ok None => lift (Err GenerateMonthlyDigestError_NoEntriesForPeriod)
    | Err _ => lift (Err (GenerateMonthlyDigestError_FetchFailed "monthly_digest_range_fetch_failed"))
    end).

Definition digest_payload (signed_digest : SignedMonthlyDigest) : Map :=
  [("digest_hash", JString (DigestHash_to_hex (dg_digest_hash signed_digest)));
   ("end_sequence_no", json_uint (LedgerSequenceNo_get (dg_end_sequence_no signed_digest)));
   ("entry_count", json_uint (dg_entry_count signed_digest));
   ("start_sequence_no", json_uint (LedgerSequenceNo_get (dg_start_sequence_no signed_digest)));
   ("target_year_month", JString (MonthlyDigestPeriod_as_str (dg_period signed_digest)))]%string.

Context {Svc : LedgerService}.

Definition append_digest_ledger_entry (ledger_appender : LedgerAppender)
    (signed_digest : SignedMonthlyDigest) (input : GenerateMonthlyDigestInput) :
    io World GenerateMonthlyDigestError unit :=
  let entry_type := LedgerEntryType_MonthlyDigest in
  payload ← lift (LedgerPayload_new entry_type (JObject (map_of_list (digest_payload signed_digest)))
    !? build_failed);
  ledger_entry_id ← LedgerEntryId_generate !?? build_failed;
  draft ← lift (LedgerAppendDraft_new {|
    ad_ledger_entry_id := ledger_entry_id;
    ad_entry_type := entry_type;
    ad_source_event_at := gi_generated_at input;
    ad_request_id := gi_request_id input;
    ad_source_event_id := None;
    ad_target_secret_id := None;
    ad_target_secret_version_id := None;
    ad_actor_user_id := None;
    ad_actor_device_id := None;
    ad_result := LedgerResult_Success;
    ad_error_code := None;
    ad_payload := payload;
  |} !? build_failed);
  _ ← append ledger_appender draft
    !?? (λ e, GenerateMonthlyDigestError_AppendFailed (LedgerAppendError_as_error_code e));
  mret tt.

(** Steps three to five: canonical form, hash, signature. *)
Definition sign_digest (ledger_appender : LedgerAppender) (input : GenerateMonthlyDigestInput)
    (range : LedgerRangeForMonth) : result GenerateMonthlyDigestError SignedMonthlyDigest :=
  let period := gi_period input in
  let signature_key_version := sk_key_version (signing_key ledger_appender) in
  canonical_bytes ← build_monthly_digest_canonical_form period (range_start_sequence_no range)
    (range_end_sequence_no range) (range_start_entry_hash range) (range_end_entry_hash range)
    (range_entry_count range) (gi_generated_at input) signature_key_version !? build_failed;
  let digest_hash := DigestHash_from_canonical_bytes canonical_bytes in
  sbc_signature ← LedgerAppender_sign_digest_bytes ledger_appender
    (DigestCanonicalBytes_as_bytes canonical_bytes) !? build_failed;
  Ok {|
    dg_period := period;
    dg_start_sequence_no := range_start_sequence_no range;
    dg_end_sequence_no := range_end_sequence_no range;
    dg_start_entry_hash := range_start_entry_hash range;
    dg_end_entry_hash := range_end_entry_hash range;
    dg_entry_count := range_entry_count range;
    dg_digest_generated_at := gi_generated_at input;
    dg_signature_key_version := signature_key_version;
    dg_canonical_bytes := canonical_bytes;
    dg_digest_hash := digest_hash;
    dg_sbc_signature := sbc_signature;
  |}.

Definition generate_monthly_digest (ledger_appender : LedgerAppender) (input : GenerateMonthlyDigestInput) :
    io World GenerateMonthlyDigestError SignedMonthlyDigest :=
  already_exists ← check_monthly_digest_exists (MonthlyDigestPeriod_as_str (gi_period input))
    !?? (λ _, GenerateMonthlyDigestError_FetchFailed "monthly_digest_duplicate_check_failed");
  if already_exists : bool then lift (Err GenerateMonthlyDigestError_DuplicateDigest) else
  range ← fetch_ledger_range input;
  signed_digest ← lift (sign_digest ledger_appender input range);
  _ ← append_digest_ledger_entry ledger_appender signed_digest input;
  mret signed_digest.

(** ** Verification *)

Inductive VerifyMonthlyDigestError :=
| VerifyMonthlyDigestError_DigestNotFound
| VerifyMonthlyDigestError_FetchFailed (code : str)
| VerifyMonthlyDigestError_ChainContinuityError (ledger_error_code : str)
| VerifyMonthlyDigestError_EndHashMismatch
| VerifyMonthlyDigestError_UnknownSignatureKey
| VerifyMonthlyDigestError_DigestHashMismatch
| VerifyMonthlyDigestError_DigestSignatureInvalid
| VerifyMonthlyDigestError_RangeModifiedAfterDigest.
#[global] Instance VerifyMonthlyDigestError_eq_dec : EqDecision VerifyMonthlyDigestError.
Proof. solve_decision. Defined.

Definition VerifyMonthlyDigestError_as_error_code (e : VerifyMonthlyDigestError) : str :=
  match e with
  | VerifyMonthlyDigestError_DigestNotFound => "monthly_digest_not_found"
  | VerifyMonthlyDigestError_FetchFailed code => code
  | VerifyMonthlyDigestError_ChainContinuityError _ => "monthly_digest_chain_continuity_error"
  | VerifyMonthlyDigestError_EndHashMismatch => "monthly_digest_end_hash_mismatch"
  | VerifyMonthlyDigestError_UnknownSignatureKey => "monthly_digest_unknown_signature_key"
  | VerifyMonthlyDigestError_DigestHashMismatch => "monthly_digest_hash_mismatch"
  | VerifyMonthlyDigestError_DigestSignatureInvalid => "monthly_digest_signature_invalid"
  | VerifyMonthlyDigestError_RangeModifiedAfterDigest => "monthly_digest_range_modified"
  end.

Definition map_ledger_error_to_code (error : LedgerError) : str :=
  match error with
  | LedgerError_SequenceGap _ _ => "chain_sequence_gap"
  | LedgerError_PreviousHashMismatch _ => "chain_previous_hash_mismatch"
  | LedgerError_HashMismatch _ => "chain_entry_hash_mismatch"
  | LedgerError_SignatureInvalid _ => "chain_signature_invalid"
  | LedgerError_UnknownSignatureKey _ _ => "chain_unknown_signature_key"
  | _ => "chain_verification_error"
  end.

Definition verify_fetch_failed {E} (code : str) (_ : E) : VerifyMonthlyDigestError :=
  VerifyMonthlyDigestError_FetchFailed code.

Record VerifiedMonthlyDigestInfo := mk_VerifiedMonthlyDigestInfo {
  vi_start_sequence_no : LedgerSequenceNo;
  vi_end_sequence_no : LedgerSequenceNo;
  vi_entry_count : Z;
}.

(** The keys of the rows, the first for each version. *)
Fixpoint collect_verification_keys (verification_keys : list LedgerVerifyingKey)
    (rows : list LedgerVerificationMaterialRow) : result LedgerError (list LedgerVerifyingKey) :=
  match rows with
  | [] => Ok verification_keys
  | row :: rows =>
      key ← try_restore_verifying_key row;
      match key with
      | Some key =>
          if negb (existsb (λ k, bool_decide (vk_key_version k = vk_key_version key)) verification_keys)
          then collect_verification_keys (verification_keys ++ [key]) rows
          else collect_verification_keys verification_keys rows
      | None => collect_verification_keys verification_keys rows
      end
  end.

(** Steps three to nine: everything between the two reads. *)
Definition verify_digest_materials (period : MonthlyDigestPeriod)
    (materials : MonthlyDigestVerificationMaterials) (rows : list LedgerVerificationMaterialRow) :
    result VerifyMonthlyDigestError unit :=
  match rows with
  | [] => Err (VerifyMonthlyDigestError_FetchFailed "monthly_digest_chain_empty")
  | first :: _ =>
      entries ← try_map try_restore_signed_ledger_entry rows
        !? verify_fetch_failed "monthly_digest_chain_entry_restore_failed";
      verification_keys ← collect_verification_keys [] rows
        !? verify_fetch_failed "monthly_digest_chain_key_restore_failed";
      let first_previous_hash := row_previous_entry_hash first in
      initial_head ← LedgerChainHead_new (LedgerSequenceNo_get (vm_start_sequence_no materials) - 1)
        first_previous_hash !? verify_fetch_failed "monthly_digest_chain_head_build_failed";
      final_head ← verify_ledger_chain entries initial_head verification_keys
        !? (λ e, VerifyMonthlyDigestError_ChainContinuityError (map_ledger_error_to_code e));
      if negb (bool_decide (last_entry_hash final_head = vm_end_entry_hash materials))
      then Err VerifyMonthlyDigestError_EndHashMismatch else
      public_key ← ok_or (vm_public_key materials) VerifyMonthlyDigestError_UnknownSignatureKey;
      canonical_bytes ← build_monthly_digest_canonical_form period (vm_start_sequence_no materials)
        (vm_end_sequence_no materials) (vm_start_entry_hash materials) (vm_end_entry_hash materials)
        (vm_stored_entry_count materials) (vm_digest_generated_at materials)
        (vm_signature_key_version materials)
        !? verify_fetch_failed "monthly_digest_canonical_rebuild_failed";
      let computed_hash := DigestHash_to_hex (DigestHash_from_canonical_bytes canonical_bytes) in
      if negb (String.eqb computed_hash (vm_stored_digest_hash materials))
      then Err VerifyMonthlyDigestError_DigestHashMismatch else
      LedgerVerifyingKey_verify_digest_bytes public_key (DigestCanonicalBytes_as_bytes canonical_bytes)
        (vm_signature materials) !? (λ _, VerifyMonthlyDigestError_DigestSignatureInvalid)
  end.

Definition verify_monthly_digest (period : MonthlyDigestPeriod) :
    io World VerifyMonthlyDigestError VerifiedMonthlyDigestInfo :=
  materials ← io_match (fetch_monthly_digest_for_verification (MonthlyDigestPeriod_as_str period)) (λ r,
    match r with
    | Ok (Some m) => mret m
    | Ok None => lift (Err VerifyMonthlyDigestError_DigestNotFound)
    | Err e => lift (Err (verify_fetch_failed "monthly_digest_verify_materials_fetch_failed" e))
    end);
  rows ← export_ledger_verification_materials (vm_start_sequence_no materials)
    (vm_end_sequence_no materials) !?? verify_fetch_failed "monthly_digest_chain_export_failed";
  _ ← lift (verify_digest_materials period materials rows);
  io_match (fetch_ledger_range_for_month (MonthlyDigestPeriod_as_str period)) (λ r,
    match r with
    | Ok (Some current_range) =>
        if (vm_stored_entry_count materials <? range_entry_count current_range)
           || (LedgerSequenceNo_get (vm_end_sequence_no materials)
               <? LedgerSequenceNo_get (range_end_sequence_no current_range))
        then lift (Err VerifyMonthlyDigestError_RangeModifiedAfterDigest)
        else mret (mk_VerifiedMonthlyDigestInfo (vm_start_sequence_no materials)
          (vm_end_sequence_no materials) (vm_stored_entry_count materials))
    | Ok None => lift (Err (VerifyMonthlyDigestError_FetchFailed "monthly_digest_range_fetch_empty"))
    | Err e => lift (Err (verify_fetch_failed "monthly_digest_range_fetch_failed" e))
    end).
End use_cases.

(** ** Lemmas *)

Section lemmas.
Context {P : Platform}.

Lemma verify_digest_bytes_Ok k b s :
  LedgerVerifyingKey_verify_digest_bytes k b s = Ok tt ↔
  ed_verify (vk_verifying_key k) b (LedgerSignature_as_bytes s) = true.
Proof. unfold LedgerVerifyingKey_verify_digest_bytes. destruct (ed_verify _ _ _); naive_solver. Qed.

(** What accepted materials establish about a period. *)
Definition digest_established (period : MonthlyDigestPeriod)
    (m : MonthlyDigestVerificationMaterials) (rows : list LedgerVerificationMaterialRow) : Prop :=
  ∃ first entries keys final key canonical,
    head rows = Some first
    ∧ try_map try_restore_signed_ledger_entry rows = Ok entries
    ∧ collect_verification_keys [] rows = Ok keys
    ∧ Chain keys (mk_LedgerChainHead (LedgerSequenceNo_get (vm_start_sequence_no m) - 1)
        (row_previous_entry_hash first)) entries final
    ∧ last_entry_hash final = vm_end_entry_hash m
    ∧ vm_public_key m = Some key
    ∧ build_monthly_digest_canonical_form period (vm_start_sequence_no m) (vm_end_sequence_no m)
        (vm_start_entry_hash m) (vm_end_entry_hash m) (vm_stored_entry_count m)
        (vm_digest_generated_at m) (vm_signature_key_version m) = Ok canonical
    ∧ DigestHash_to_hex (DigestHash_from_canonical_bytes canonical) = vm_stored_digest_hash m
    ∧ ed_verify (vk_verifying_key key) (DigestCanonicalBytes_as_bytes canonical)
        (LedgerSignature_as_bytes (vm_signature m)) = true.

Lemma verify_digest_materials_Ok period m rows :
  verify_digest_materials period m rows = Ok tt → digest_established period m rows.
Proof.
  destruct rows as [|first rows]; [done|]. unfold verify_digest_materials. intros H. inv_ok.
  do 2 (case_if; [done|]; b2p; inv_ok).
  select (LedgerChainHead_new _ _ = _) (fun H => apply LedgerChainHead_new_Ok in H as [-> _]).
  select (verify_ledger_chain _ _ _ = _) (fun H => apply verify_ledger_chain_from_Ok in H as [? _]).
  select (LedgerVerifyingKey_verify_digest_bytes _ _ _ = _) (fun H => apply verify_digest_bytes_Ok in H).
  select (String.eqb _ _ = true) (fun H => apply String.eqb_eq in H).
  unfold digest_established. naive_solver.
Qed.
End lemmas.

(** ** Properties *)

Section theorems.
Context {P : Platform} {DSvc : DigestService}.

(** C30. Digest verification is fail-closed: it reports success only when the
    database had a digest for the period, the rows of its range restore to a
    chain that starts right before the range and ends in the digest's end hash,
    the recomputed canonical form has the stored hash and carries a valid
    signature of the registered key, and the month has not grown since. *)
Theorem verify_monthly_digest_sound period w info w' :
  verify_monthly_digest period w = (Ok info, w') →
  ∃ m rows w1 w2 w3 current,
    fetch_monthly_digest_for_verification (MonthlyDigestPeriod_as_str period) w = (Ok (Some m), w1)
    ∧ export_ledger_verification_materials (vm_start_sequence_no m) (vm_end_sequence_no m) w1 = (Ok rows, w2)
    ∧ digest_established period m rows
    ∧ fetch_ledger_range_for_month (MonthlyDigestPeriod_as_str period) w2 = (Ok (Some current), w3)
    ∧ range_entry_count current ≤ vm_stored_entry_count m
    ∧ LedgerSequenceNo_get (range_end_sequence_no current) ≤ LedgerSequenceNo_get (vm_end_sequence_no m)
    ∧ info = mk_VerifiedMonthlyDigestInfo (vm_start_sequence_no m) (vm_end_sequence_no m) (vm_stored_entry_count m).
Proof.
  unfold verify_monthly_digest. intros H. inv_ok. unfold io_match in *.
  select (verify_digest_materials _ _ _ = _) (fun H => apply verify_digest_materials_Ok in H).
  destruct (fetch_monthly_digest_for_verification _ w) as [[[m|]|] w1] eqn:Hm; unfold mret, io_ret, lift in *; simplify_eq.
  destruct (fetch_ledger_range_for_month _ _) as [[[current|]|] w3] eqn:Hr; simplify_eq.
  case_if; simplify_eq. b2p. naive_solver.
Qed.

(** The signature of the first message is also valid for the second. *)
Definition signature_reuse (key : LedgerSigningKey) (m1 m2 : bytes) : Prop :=
  m1 ≠ m2 ∧ ed_verify (ed_verifying_key (sk_signing_key key)) m2 (ed_sign (sk_signing_key key) m1) = true.

(** C31. The signature the verifier is given must be the digest's own.  The
    database keeps no digest signature: what it returns for a period is the
    signature of the [monthly_digest] ledger entry, which signs the entry's
    canonical bytes.  With that signature no digest is ever verified, whatever
    the rest of the materials, unless the signature of the entry's bytes happens
    to be valid for the digest's different bytes as well. *)
Theorem entry_signature_never_verifies_digest {LS : SerdeLaws P} {LE : Ed25519Laws P}
    period m (entry : SignedLedgerEntry) (key : LedgerSigningKey) d n h rows :
  digest_fields_wf (vm_start_sequence_no m) (vm_end_sequence_no m) (vm_stored_entry_count m)
    (vm_signature_key_version m) →
  LedgerAppendDraft_wf d → LedgerSequenceNo_wf n → LedgerSignatureKeyVersion_wf (sk_key_version key) →
  sign_with_sequence d n h key = Ok entry →
  vm_signature m = se_signature entry →
  vm_public_key m = Some (LedgerSigningKey_verification_key key) →
  is_ok (verify_digest_materials period m rows) = false
  ∨ ∃ canonical, build_monthly_digest_canonical_form period (vm_start_sequence_no m) (vm_end_sequence_no m)
        (vm_start_entry_hash m) (vm_end_entry_hash m) (vm_stored_entry_count m)
        (vm_digest_generated_at m) (vm_signature_key_version m) = Ok canonical
      ∧ signature_reuse key (LedgerCanonicalPayload_as_bytes (se_canonical_payload entry))
          (DigestCanonicalBytes_as_bytes canonical).
Proof.
  intros Hm Hd Hn Hv Hsign Hsig Hkey.
  destruct (verify_digest_materials period m rows) as [[]|] eqn:H; [right|by left].
  apply verify_digest_materials_Ok in H as (first & entries & keys & final & key' & canonical & _ & _ & _ & _ & _
    & Hkey' & Hcan & _ & Hver).
  rewrite Hkey in Hkey'. injection Hkey' as <-.
  apply sign_with_sequence_Ok in Hsign as (_ & b & Hb & ->). rewrite Hsig /= in Hver.
  exists canonical. split; [done|]. split; [|done]. simpl. intros Heq.
  eapply (digest_not_entry_bytes _ _ _ _ _ _ _ _ _ _ _ Hm (entry_fields_wf d n h _ Hd Hn Hv)); eauto.
Qed.

(** A generated digest is hashed and signed over its own canonical form:
    the hash is the SHA-256 of the canonical bytes, the signature verifies under
    the appender's key, and the canonical form is that of the range the database
    reported for the period. *)
Theorem generated_digest_is_signed {LE : Ed25519Laws P} {Svc : LedgerService} a input w digest w' :
  generate_monthly_digest a input w = (Ok digest, w') →
  dg_digest_hash digest = DigestHash_from_canonical_bytes (dg_canonical_bytes digest)
  ∧ LedgerVerifyingKey_verify_digest_bytes (LedgerSigningKey_verification_key (signing_key a))
      (DigestCanonicalBytes_as_bytes (dg_canonical_bytes digest)) (dg_sbc_signature digest) = Ok tt
  ∧ build_monthly_digest_canonical_form (gi_period input) (dg_start_sequence_no digest)
      (dg_end_sequence_no digest) (dg_start_entry_hash digest) (dg_end_entry_hash digest)
      (dg_entry_count digest) (gi_generated_at input) (sk_key_version (signing_key a))
    = Ok (dg_canonical_bytes digest)
  ∧ ∃ range w1 w2, fetch_ledger_range_for_month (MonthlyDigestPeriod_as_str (gi_period input)) w1
      = (Ok (Some range), w2)
    ∧ dg_start_sequence_no digest = range_start_sequence_no range
    ∧ dg_end_sequence_no digest = range_end_sequence_no range
    ∧ dg_entry_count digest = range_entry_count range.
Proof.
  unfold generate_monthly_digest, fetch_ledger_range, io_match, sign_digest,
    LedgerAppender_sign_digest_bytes, LedgerSigningKey_sign_raw_bytes.
  intros H. apply io_bind_Ok in H as (exists_ & w1 & _ & H). destruct exists_; [by inv_ok|]. inv_ok.
  destruct (fetch_ledger_range_for_month _ w1) as [[[range|]|] w2] eqn:Hr; unfold mret, io_ret, lift in *; simplify_eq.
  case_if; b2p; [done|].
  select (LedgerSignature_from_bytes _ = _) (fun H => apply parse_array_Ok in H as [_ ->]). simpl.
  split; [done|]. split; [apply verify_digest_bytes_Ok; simpl; apply ed_verify_sign|]. split; [done|].
  do 3 eexists. split; [exact Hr|done].
Qed.
End theorems.
