(* ===== verification/Files.v ===== *)
(** * Files and JSON lines (the parts of [std::fs], [std::io] and [serde] the local queues use)

    The file system is a parameter, as the network is: [FileSystem] has the calls
    and what the disk holds, [FileLaws] their documented behaviour.  A write that
    fails may have written any prefix.  The audit fallback queue and the archive
    queue both keep one JSON text per line; [buf_lines_written] is what they
    share: the lines read back are the texts that were written. *)

From S2P Require Import Prelude RustStd Json Platform Reference.

(** ** [BufRead::lines] *)

Definition line_feed : ascii := ascii_of_nat 10.
Definition carriage_return : ascii := ascii_of_nat 13.

(** A line as it is kept, last character first. *)
Definition read_line (rev_line : list ascii) : result str str :=
  if utf8_valid (rev rev_line) then Ok (of_chars (rev rev_line))
  else Err "stream did not contain valid UTF-8"%string.
Definition chomp (rev_line : list ascii) : list ascii :=
  match rev_line with
  | a :: l => if Ascii.eqb a carriage_return then l else rev_line
  | [] => []
  end.

(** The lines of what was read, and the failure that ended the reading. *)
Fixpoint buf_lines_loop (rev_line l : list ascii) (failure : option str) : list (result str str) :=
  match l with
  | [] =>
      match failure, rev_line with
      | Some error, _ => [Err error]
      | None, [] => []
      | None, _ => [read_line rev_line]
      end
  | a :: l =>
      if Ascii.eqb a line_feed then read_line (chomp rev_line) :: buf_lines_loop [] l failure
      else buf_lines_loop (a :: rev_line) l failure
  end.
Definition buf_lines (data : str) (failure : option str) : list (result str str) :=
  buf_lines_loop [] (chars data) failure.

(** ** The file system *)

Inductive IoError := IoError_NotFound | IoError_Other (message : str).
Definition IoError_to_string (error : IoError) : str :=
  match error with IoError_NotFound => "entity not found" | IoError_Other message => message end.

(** An entry of a directory: its path, whether it is a file, its size and its age. *)
Record DirEntry := mk_DirEntry {
  de_path : str;
  de_is_file : bool;
  de_len : Z;
  de_age_ms : Z;
}.

Class FileSystem {P : Platform} := {
  (** what the disk holds: the text of the file at a path, and whether a directory is there *)
  fs_contents : str → World → option str;
  fs_is_dir : str → World → bool;
  (** [fs::metadata]: is it a file, and its length *)
  fs_metadata : str → io World IoError (bool * Z);
  (** opening and reading: the data, and the error that ended the reading *)
  fs_read : str → io World str (str * option str);
  (** opening for appending (the file is created when it is not there), writing *)
  fs_append : str → str → io World str unit;
  fs_sync : str → io World str unit;
  (** [create_new]: fails when the file exists *)
  fs_create_new : str → io World str unit;
  fs_remove : str → io World str unit;
  (** [create_dir_all] *)
  fs_create_dir_all : str → io World str unit;
  fs_read_dir : str → io World str (list (result str DirEntry));
  (** [Path::parent], [Path::file_name] and [Path::join] *)
  path_parent : str → option str;
  path_file_name : str → option str;
  path_join : str → str → str;
  (** the mutex of a queue is poisoned by a panic in another thread *)
  lock_poisoned : World → bool;
}.

Section files.
Context {P : Platform} {F : FileSystem}.

(** [Path::exists]. *)
Definition fs_exists (path : str) (w : World) : bool :=
  bool_decide (is_Some (fs_contents path w)) || fs_is_dir path w.

Definition create_parent (path : str) : io World str unit :=
  match path_parent path with Some parent => fs_create_dir_all parent | None => mret tt end.

(** The operations that leave every file as it is. *)
Definition same_files (w w' : World) : Prop := ∀ path, fs_contents path w' = fs_contents path w.
Definition same_other_files (path : str) (w w' : World) : Prop :=
  ∀ path', path' ≠ path → fs_contents path' w' = fs_contents path' w.
Definition leaves_files {E A} (m : io World E A) : Prop := ∀ w r w', m w = (r, w') → same_files w w'.

(** [lock()] on the mutex of a queue. *)
Definition locked {E A} (poisoned : E) (m : io World E A) : io World E A := λ w,
  if lock_poisoned w then (Err poisoned, w) else m w.
End files.

Class FileLaws {P : Platform} (F : FileSystem) : Prop := {
  fs_metadata_quiet path : leaves_files (fs_metadata path);
  fs_metadata_Ok path w is_file len w' :
    fs_metadata path w = (Ok (is_file, len), w') →
    if is_file then fs_is_dir path w = false ∧ ∃ data, fs_contents path w = Some data ∧ len = str_len data
    else fs_contents path w = None;
  fs_metadata_not_found path w w' :
    fs_metadata path w = (Err IoError_NotFound, w') → fs_exists path w = false;
  fs_read_quiet path : leaves_files (fs_read path);
  fs_read_Ok path w data w' :
    fs_read path w = (Ok (data, None), w') → fs_contents path w = Some data;
  fs_read_prefix path w data failure w' :
    fs_read path w = (Ok (data, failure), w') → ∃ rest, fs_contents path w = Some (data +:+ rest);
  fs_append_prefix path s w r w' :
    fs_append path s w = (r, w') →
    same_other_files path w w'
    ∧ (fs_contents path w' = fs_contents path w
       ∨ ∃ t u, s = t +:+ u ∧ fs_contents path w' = Some (default EmptyString (fs_contents path w) +:+ t));
  fs_append_Ok path s w w' :
    fs_append path s w = (Ok tt, w') →
    fs_contents path w' = Some (default EmptyString (fs_contents path w) +:+ s);
  fs_sync_quiet path : leaves_files (fs_sync path);
  fs_create_new_Ok path w w' :
    fs_create_new path w = (Ok tt, w') →
    fs_contents path w = None ∧ fs_contents path w' = Some EmptyString ∧ same_other_files path w w';
  fs_create_new_Err path w e w' : fs_create_new path w = (Err e, w') → same_files w w';
  fs_remove_Ok path w w' :
    fs_remove path w = (Ok tt, w') → fs_contents path w' = None ∧ same_other_files path w w';
  fs_remove_Err path w e w' : fs_remove path w = (Err e, w') → same_files w w';
  fs_create_dir_quiet path : leaves_files (fs_create_dir_all path);
  fs_read_dir_quiet path : leaves_files (fs_read_dir path);
  clock_quiet w : same_files w (clock_now_utc w).2;
}.

(** A disk on which the calls the queues make on a file that exists all succeed. *)
Class FilesWork {P : Platform} (F : FileSystem) : Prop := {
  fs_read_works path w data :
    fs_contents path w = Some data → ∃ w', fs_read path w = (Ok (data, None), w');
  fs_append_works path s w : is_Some (fs_contents path w) → ∃ w', fs_append path s w = (Ok tt, w');
  fs_sync_works path w : ∃ w', fs_sync path w = (Ok tt, w');
  fs_create_dir_works path parent w :
    is_Some (fs_contents path w) → path_parent path = Some parent →
    ∃ w', fs_create_dir_all parent w = (Ok tt, w');
  lock_works w : lock_poisoned w = false;
  clock_format_works w : ∃ s, dt_format (clock_now_utc w).1 = Ok s;
}.

(** ** JSON texts and the structs read from them *)

(** The compact text is one line: [serde_json] escapes control characters, a
    Rust [String] is UTF-8, and no JSON text is blank. *)
Class SerdeTextLaws (P : Platform) : Prop := {
  serde_text_line v s :
    serde_to_string v = Ok s →
    Forall (λ a, 32 ≤ code a) (chars s) ∧ utf8_valid (chars s) = true ∧ is_empty (trim s) = false;
}.

(** The members of an object in the order of its text, as the code that
    [derive(Deserialize)] makes visits them. *)
Class SerdeMembers {P : Platform} := { serde_members : str → result str Map }.
Class SerdeMembersLaws {P : Platform} (S : SerdeMembers) : Prop := {
  serde_members_round_trip l :
    json_exact json_max_depth (JObject l) = true →
    ∃ s, serde_to_string (JObject l) = Ok s
      ∧ serde_members s = Ok (List.map (λ p, (p.1, normalize p.2)) l);
}.

(** A field of a derived struct: unknown members are ignored, a second
    occurrence is an error. *)
Definition member (key : str) (members : Map) : result str (option Value) :=
  match List.filter (λ p, String.eqb p.1 key) members with
  | [] => Ok None
  | [(_, value)] => Ok (Some value)
  | _ => Err ("duplicate field `" +:+ key +:+ "`")%string
  end.
Definition required_member (key : str) (members : Map) : result str Value :=
  value ← member key members;
  ok_or value ("missing field `" +:+ key +:+ "`")%string.
Definition string_member (key : str) (members : Map) : result str str :=
  value ← required_member key members;
  ok_or (as_str value) "invalid type, expected a string"%string.
Definition opt_string_member (key : str) (members : Map) : result str (option str) :=
  value ← member key members;
  match value with
  | None | Some JNull => Ok None
  | Some value => Some <$> ok_or (as_str value) "invalid type, expected a string"%string
  end.
Definition u32_member (key : str) (members : Map) : result str Z :=
  value ← required_member key members;
  ok_or (as_u64 value ≫= u_try_from u32_max) "invalid type, expected u32"%string.
Definition opt_u32_member (key : str) (members : Map) : result str (option Z) :=
  value ← member key members;
  match value with
  | None | Some JNull => Ok None
  | Some value =>
      Some <$> ok_or (n ← as_u64 value; u_try_from u32_max n) "invalid value, expected u32"%string
  end.

(** ** What the two queues share *)

(** The contents of a file to which these texts were written, a line each. *)
Fixpoint lines_of (texts : list str) : str :=
  match texts with
  | [] => EmptyString
  | s :: texts => s +:+ String line_feed (lines_of texts)
  end.

Definition one_line (s : str) : Prop :=
  Forall (λ a, 32 ≤ code a) (chars s) ∧ utf8_valid (chars s) = true.

Lemma lines_of_snoc texts s : lines_of (texts ++ [s]) = lines_of texts +:+ s +:+ String line_feed EmptyString.
Proof.
  apply chars_inj. rewrite !chars_app. induction texts as [|t texts IH]; simpl; [by rewrite !chars_app|].
  rewrite !chars_app. simpl. by rewrite IH !app_comm_cons app_assoc.
Qed.

Lemma buf_lines_loop_line l rev_line rest failure :
  Forall (λ a, 32 ≤ code a) l →
  buf_lines_loop rev_line (l ++ line_feed :: rest) failure
  = read_line (chomp (rev l ++ rev_line)) :: buf_lines_loop [] rest failure.
Proof.
  revert rev_line. induction l as [|a l IH]; intros rev_line Hl; [done|].
  apply Forall_cons in Hl as [Ha Hl]. simpl. rewrite (proj2 (Ascii.eqb_neq a line_feed)).
  { rewrite IH //. simpl. by rewrite -app_assoc. }
  intros ->. by vm_compute in Ha.
Qed.

Lemma read_one_line s : one_line s → read_line (chomp (rev (chars s) ++ [])) = Ok s.
Proof.
  intros [Hc Hu]. rewrite app_nil_r.
  assert (chomp (rev (chars s)) = rev (chars s)) as ->.
  { destruct (rev (chars s)) as [|a l] eqn:Hr; [done|]. simpl.
    rewrite (proj2 (Ascii.eqb_neq a carriage_return)) //. intros ->.
    assert (carriage_return ∈ chars s) as Hin by (apply list_elem_of_In, in_rev; rewrite Hr; by left).
    rewrite Forall_forall in Hc. apply Hc in Hin. by vm_compute in Hin. }
  unfold read_line. by rewrite rev_involutive Hu of_chars_chars.
Qed.

(** The lines read back are the texts that were written. *)
Lemma buf_lines_written texts : Forall one_line texts → buf_lines (lines_of texts) None = Ok <$> texts.
Proof.
  unfold buf_lines. induction 1 as [|s texts Hs _ IH]; [done|]. simpl lines_of.
  rewrite chars_app. simpl. rewrite buf_lines_loop_line; [|apply Hs].
  rewrite read_one_line // IH. done.
Qed.

Lemma buf_lines_loop_cut l rev_line failure :
  Forall (λ a, 32 ≤ code a) l → buf_lines_loop rev_line l (Some failure) = [Err failure].
Proof.
  revert rev_line. induction l as [|a l IH]; intros rev_line Hl; [done|].
  apply Forall_cons in Hl as [Ha Hl]. simpl. rewrite (proj2 (Ascii.eqb_neq a line_feed)); [by apply IH|].
  intros ->. by vm_compute in Ha.
Qed.

(** A reading that fails gives some of the lines, then the failure. *)
Lemma buf_lines_cut texts data rest failure :
  Forall one_line texts → data +:+ rest = lines_of texts →
  ∃ k, buf_lines data (Some failure) = (Ok <$> take k texts) ++ [Err failure].
Proof.
  unfold buf_lines. intros Htexts. revert data. induction Htexts as [|s texts Hs _ IH]; intros data Hd.
  { exists O. by destruct data. }
  apply (f_equal chars) in Hd. cbn [lines_of] in Hd. rewrite !chars_app in Hd. cbn [chars list_ascii_of_string] in Hd.
  fold (chars (lines_of texts)) in Hd.
  apply app_eq_app in Hd as (l & [[Hd Hl]|[Hd Hl]]).
  - destruct l as [|a l]; simplify_eq/=.
    + exists O. rewrite Hd app_nil_r. apply buf_lines_loop_cut, Hs.
    + rewrite Hd buf_lines_loop_line; [|apply Hs]. rewrite read_one_line //.
      destruct (IH (of_chars l)) as (k & Hk).
      { apply chars_inj. by rewrite chars_app chars_of_chars. }
      exists (S k). rewrite chars_of_chars in Hk. by rewrite Hk.
  - exists O. apply buf_lines_loop_cut. destruct Hs as [Hs _]. rewrite Hd in Hs. by apply Forall_app in Hs as [? _].
Qed.

Lemma member_get key members : NoDup members.*1 → member key members = Ok (map_get key members).
Proof.
  unfold member. induction members as [|[k v] l IH]; intros Hnd; [done|].
  rewrite fmap_cons in Hnd. apply NoDup_cons in Hnd as [Hk Hnd]. simpl.
  rewrite String.eqb_sym. destruct (String.eqb_spec key k) as [->|Hne]; [|by apply IH].
  assert (List.filter (λ p, String.eqb p.1 k) l = []) as ->; [|done].
  clear IH Hnd. induction l as [|[k' v'] l IH]; [done|]. rewrite fmap_cons in Hk.
  apply not_elem_of_cons in Hk as [Hne Hk]. simpl in *. rewrite (proj2 (String.eqb_neq k' k)) //.
  by apply IH.
Qed.

Section member_lemmas.
Context (members : Map) (Hnd : NoDup members.*1).

Lemma required_member_get key v : map_get key members = Some v → required_member key members = Ok v.
Proof. intros H. unfold required_member. by rewrite member_get // H. Qed.

Lemma string_member_get key s : map_get key members = Some (JString s) → string_member key members = Ok s.
Proof. intros H. unfold string_member. by rewrite (required_member_get _ _ H). Qed.

Lemma opt_string_member_get key o :
  map_get key members = Some (json_opt_str o) → opt_string_member key members = Ok o.
Proof. intros H. unfold opt_string_member. rewrite member_get // H. by destruct o. Qed.

Lemma u32_member_get key z :
  map_get key members = Some (json_uint z) → 0 ≤ z ≤ u32_max → u32_member key members = Ok z.
Proof.
  intros H Hz. unfold u32_member. rewrite (required_member_get _ _ H).
  cbn [mbind result_bind option_bind json_uint as_u64 number_as_u64].
  by rewrite (proj2 (u_try_from_Some u32_max z z) (conj eq_refl Hz)).
Qed.

Lemma opt_u32_member_get key (o : option Z) :
  map_get key members = Some match o with Some z => json_uint z | None => JNull end →
  (∀ z, o = Some z → 0 ≤ z ≤ u32_max) → opt_u32_member key members = Ok o.
Proof.
  intros H Hz. unfold opt_u32_member. rewrite member_get // H. destruct o as [z|]; [|done].
  cbn [mbind result_bind option_bind json_uint as_u64 number_as_u64].
  by rewrite (proj2 (u_try_from_Some u32_max z z) (conj eq_refl (Hz z eq_refl))).
Qed.
End member_lemmas.

Section file_lemmas.
Context {P : Platform} {F : FileSystem} {L : FileLaws F}.

Lemma same_files_trans w1 w2 w3 : same_files w1 w2 → same_files w2 w3 → same_files w1 w3.
Proof. intros H1 H2 path. by rewrite H2 H1. Qed.

Lemma same_files_other path w w' : same_files w w' → same_other_files path w w'.
Proof. intros H path' _. apply H. Qed.

Lemma same_other_files_trans path w1 w2 w3 :
  same_other_files path w1 w2 → same_other_files path w2 w3 → same_other_files path w1 w3.
Proof. intros H1 H2 path' Hne. by rewrite H2 // H1. Qed.

Lemma create_parent_quiet path : leaves_files (create_parent path).
Proof.
  unfold create_parent. destruct (path_parent path); [apply fs_create_dir_quiet|].
  intros w r w' [= _ <-]. by intros ?.
Qed.

Lemma create_parent_works {FW : FilesWork F} path w :
  is_Some (fs_contents path w) → ∃ w', create_parent path w = (Ok tt, w').
Proof.
  intros Hp. unfold create_parent. destruct (path_parent path) eqn:E; [by eapply fs_create_dir_works|]. by eexists.
Qed.

(** What there is not is no file; what there is and is no directory is one. *)
Lemma fs_exists_false path w : fs_exists path w = false → fs_contents path w = None.
Proof. unfold fs_exists. intros [H _]%orb_false_iff. by apply bool_decide_eq_false, eq_None_not_Some in H. Qed.
Lemma fs_exists_file path w :
  fs_exists path w = true → fs_is_dir path w = false → is_Some (fs_contents path w).
Proof. unfold fs_exists. intros [H|H]%orb_true_iff Hd; [by apply bool_decide_eq_true in H|congruence]. Qed.

(** Opening, writing the text and a line feed, syncing. *)
Lemma appended_line path text w1 w2 w3 w4 w5 :
  fs_append path EmptyString w1 = (Ok tt, w2) → fs_append path text w2 = (Ok tt, w3) →
  fs_append path (String line_feed EmptyString) w3 = (Ok tt, w4) → fs_sync path w4 = (Ok tt, w5) →
  fs_contents path w5
  = Some (default EmptyString (fs_contents path w1) +:+ text +:+ String line_feed EmptyString).
Proof.
  intros H1%fs_append_Ok H2%fs_append_Ok H3%fs_append_Ok H4%fs_sync_quiet. rewrite H4 H3 H2 H1. simpl.
  f_equal. apply chars_inj. rewrite !chars_app. simpl. by rewrite app_nil_r -app_assoc.
Qed.

(** A file that holds a list, each element written as one line; an absent file
    holds the empty list. *)
Definition file_holds {T} (written : str → T → Prop) (path : str) (l : list T) (w : World) : Prop :=
  (fs_contents path w = None ∧ l = [])
  ∨ ∃ texts, fs_contents path w = Some (lines_of texts) ∧ Forall2 written texts l.

Lemma file_holds_same {T} (written : str → T → Prop) path l w w' :
  same_files w w' → file_holds written path l w → file_holds written path l w'.
Proof. intros Hs Hc. unfold file_holds. by rewrite Hs. Qed.

Lemma file_holds_append {T} (written : str → T → Prop) path l w w' text x :
  file_holds written path l w → written text x →
  fs_contents path w'
    = Some (default EmptyString (fs_contents path w) +:+ text +:+ String line_feed EmptyString) →
  file_holds written path (l ++ [x]) w'.
Proof.
  intros Hc Hx Hw. right. destruct Hc as [[Hn ->]|(texts & Hc & Htq)].
  - exists [text]. rewrite Hw Hn. split; [done|]. constructor; [done|constructor].
  - exists (texts ++ [text]). rewrite Hw Hc lines_of_snoc. split; [done|].
    apply Forall2_app; [done|]. constructor; [done|constructor].
Qed.
End file_lemmas.

(** ** Records of a file

    The loop over the lines of a queue file: blank lines are skipped, every other
    line is one record. *)

Section records.
Context {P : Platform} {F : FileSystem} {SM : SerdeMembers}.
Context {E R : Type} (io_error json_error : str → E) (from_members : Map → result str R).

Fixpoint parse_lines (lines : list (result str str)) : result E (list R) :=
  match lines with
  | [] => Ok []
  | line :: lines =>
      line ← line !? io_error;
      if is_empty (trim line) then parse_lines lines else
      record ← (serde_members line ≫= from_members) !? json_error;
      records ← parse_lines lines;
      Ok (record :: records)
  end.

Definition read_records (path : str) : io World E (list R) :=
  read ← fs_read path !?? io_error;
  lift (parse_lines (buf_lines read.1 read.2)).

Context {T : Type} (written : str → T → Prop) (restores : R → T → Prop) {LF : FileLaws F} {LT : SerdeTextLaws P}.
Context (Hwritten : ∀ text x, written text x → ∃ v, serde_to_string v = Ok text).

Definition readable (l : list T) : Prop :=
  Forall (λ x, ∀ text, written text x →
    ∃ record, (serde_members text ≫= from_members) = Ok record ∧ restores record x) l.

Lemma parse_lines_written texts l :
  readable l → Forall2 written texts l →
  ∃ records, parse_lines (Ok <$> texts) = Ok records ∧ Forall2 restores records l.
Proof using Hwritten LT.
  intros Hl. induction 1 as [|text x texts l Ht _ IH]; [by exists []|].
  apply Forall_cons in Hl as [Hx Hl]. destruct (IH Hl) as (records & Hr & Hrl).
  destruct (Hx _ Ht) as (record & Hrec & Hre). destruct (Hwritten _ _ Ht) as (v & (_ & _ & Hb)%serde_text_line).
  exists (record :: records). rewrite fmap_cons. cbn [parse_lines map_err mbind result_bind].
  rewrite Hb Hrec. cbn [map_err mbind result_bind]. rewrite Hr. by split; [|constructor].
Qed.

Lemma parse_lines_cut texts l failure :
  readable l → Forall2 written texts l →
  parse_lines ((Ok <$> texts) ++ [Err failure]) = Err (io_error failure).
Proof using Hwritten LT.
  intros Hl. induction 1 as [|text x texts l Ht _ IH]; [done|].
  apply Forall_cons in Hl as [Hx Hl].
  destruct (Hx _ Ht) as (record & Hrec & _). destruct (Hwritten _ _ Ht) as (v & (_ & _ & Hb)%serde_text_line).
  rewrite fmap_cons. cbn [parse_lines app map_err mbind result_bind]. rewrite Hb Hrec.
  cbn [map_err mbind result_bind]. by rewrite IH.
Qed.

Lemma written_lines texts l : Forall2 written texts l → Forall one_line texts.
Proof using Hwritten LT.
  induction 1 as [|text x texts l Ht _ IH]; constructor; [|done].
  destruct (Hwritten _ _ Ht) as (v & (? & ? & _)%serde_text_line). by split.
Qed.

(** Reading a file gives the records it holds, or fails for a reason of the disk. *)
Lemma read_records_holds path l w r w' :
  readable l → file_holds written path l w → read_records path w = (r, w') →
  same_files w w'
  ∧ match r with
    | Ok records => Forall2 restores records l
    | Err e => ∃ e', e = io_error e'
    end.
Proof using Hwritten LT LF.
  intros Hl Hc. unfold read_records.
  destruct (fs_read path w) as [[[data failure]|e] w1] eqn:Hread;
    pose proof (fs_read_quiet _ _ _ _ Hread) as Hsame;
    unfold mbind, io_bind, io_map_err; rewrite Hread; cbn [map_err lift fst snd]; intros [= <- <-];
    (split; [done|]); [|by eexists].
  destruct Hc as [[Hn _]|(texts & Ht & Htl)].
  { apply fs_read_prefix in Hread as (rest & ?). congruence. }
  destruct failure as [failure|].
  - apply fs_read_prefix in Hread as (rest & Hread). rewrite Ht in Hread. injection Hread as Hread.
    destruct (buf_lines_cut texts data rest failure) as (k & ->); [by eapply written_lines|done|].
    rewrite (parse_lines_cut _ (take k l)); [by eexists|by apply Forall_take|by apply Forall2_take].
  - apply fs_read_Ok in Hread. rewrite Hread in Ht. injection Ht as ->.
    rewrite buf_lines_written; [|by eapply written_lines].
    destruct (parse_lines_written texts l Hl Htl) as (records & -> & Hr). exact Hr.
Qed.
End records.

(** ** A queue with delivery statuses

    Both queues record an item when it is enqueued and again when it was
    delivered; the last record of an item's identifier counts.  [DeliveryStatus]
    is declared in both files of the source, with the same variants. *)

Definition DELIVERY_STATUS_PENDING : str := "pending".
Definition DELIVERY_STATUS_SENT : str := "sent".

Inductive DeliveryStatus := DeliveryStatus_Pending | DeliveryStatus_Sent.
#[global] Instance DeliveryStatus_eq_dec : EqDecision DeliveryStatus.
Proof. solve_decision. Defined.

Definition DeliveryStatus_as_str (s : DeliveryStatus) : str :=
  match s with
  | DeliveryStatus_Pending => DELIVERY_STATUS_PENDING
  | DeliveryStatus_Sent => DELIVERY_STATUS_SENT
  end.

(** The derived deserializer: a variant is its name, or an object of the name and null. *)
Definition DeliveryStatus_from_value (v : Value) : result str DeliveryStatus :=
  let of_name name :=
    if String.eqb name DELIVERY_STATUS_PENDING then Ok DeliveryStatus_Pending
    else if String.eqb name DELIVERY_STATUS_SENT then Ok DeliveryStatus_Sent
    else Err "unknown variant"%string in
  match v with
  | JString name => of_name name
  | JObject [(name, JNull)] => of_name name
  | _ => Err "invalid type, expected a variant"%string
  end.

Section queue.
Context {T : Type} (item_id : T → str).

Definition queue : Type := list (T * DeliveryStatus).
Definition pending_in (q : queue) (x : T) : Prop :=
  ∃ q1 q2, q = q1 ++ (x, DeliveryStatus_Pending) :: q2 ∧ Forall (λ p, item_id p.1 ≠ item_id x) q2.
Definition queue_states (q : queue) : list (str * (T * DeliveryStatus)) :=
  map_of_list ((λ p, (item_id p.1, p)) <$> q).
Definition pending_of_state (s : T * DeliveryStatus) : option T :=
  if bool_decide (s.2 = DeliveryStatus_Pending) then Some s.1 else None.
Definition pending_list (q : queue) : list T := omap (λ p, pending_of_state p.2) (queue_states q).

Lemma pending_list_elem q e : e ∈ pending_list q ↔ pending_in q e.
Proof.
  unfold pending_list, pending_in, queue_states. rewrite list_elem_of_omap. split.
  - intros ([k s] & Hin & Hs). apply elem_map_get in Hin; [|apply map_sorted_NoDup, map_sorted_of_list].
    apply map_get_of_list_last in Hin as (l1 & l2 & Hq & Hk).
    unfold pending_of_state in Hs. simpl in Hs. case_bool_decide as Hp; [|done].
    destruct s as [e' st]. simplify_eq/=.
    apply fmap_app_inv in Hq as (q1 & q2' & -> & Hq2 & ->).
    destruct q2' as [|p q2]; simplify_eq/=. exists q1, q2. split; [done|].
    apply Forall_forall. intros p Hp Heq. apply Hk. rewrite -list_fmap_compose.
    apply list_elem_of_fmap. exists p. by split.
  - intros (q1 & q2 & -> & Hq2).
    exists (item_id e, (e, DeliveryStatus_Pending)). split; [|done].
    apply map_get_elem, map_get_of_list_last. rewrite fmap_app fmap_cons.
    do 2 eexists. split; [done|]. rewrite -list_fmap_compose. intros (p & Heq & Hp)%list_elem_of_fmap.
    rewrite Forall_forall in Hq2. by eapply Hq2.
Qed.

Lemma pending_list_NoDup q : NoDup (item_id <$> pending_list q).
Proof.
  unfold pending_list.
  assert (Forall (λ p, p.1 = item_id p.2.1) (queue_states q)) as Hids.
  { apply Forall_forall. intros [k s] Hin.
    apply elem_map_get in Hin; [|apply map_sorted_NoDup, map_sorted_of_list].
    apply map_get_of_list_last in Hin as (l1 & l2 & Hq & _).
    assert ((k, s) ∈ (λ p, (item_id p.1, p)) <$> q) as (p & Heq & _)%list_elem_of_fmap by (rewrite Hq; set_solver).
    by simplify_eq. }
  pose proof (map_sorted_NoDup _ (map_sorted_of_list ((λ p, (item_id p.1, p)) <$> q))) as Hnd.
  fold (queue_states q) in Hnd. induction (queue_states q) as [|[k [e s]] l IH]; [constructor|].
  rewrite fmap_cons in Hnd. apply NoDup_cons in Hnd as [Hk Hnd]. apply Forall_cons in Hids as [Hid Hids].
  simpl in *. unfold pending_of_state at 1. simpl. case_bool_decide; [|by apply IH].
  rewrite fmap_cons. apply NoDup_cons. split; [|by apply IH].
  intros (e' & Heq & (p & Hin & Hp)%list_elem_of_omap)%list_elem_of_fmap.
  apply Hk. rewrite Hid Heq. unfold pending_of_state in Hp. case_bool_decide; simplify_eq/=.
  rewrite Forall_forall in Hids. rewrite -(Hids _ Hin). by apply list_elem_of_fmap_2.
Qed.

Lemma pending_in_snoc q e s e' :
  pending_in (q ++ [(e, s)]) e' ↔
  (e' = e ∧ s = DeliveryStatus_Pending) ∨ (item_id e ≠ item_id e' ∧ pending_in q e').
Proof.
  unfold pending_in. split.
  - intros (q1 & q2 & Heq & Hq2). destruct q2 as [|p q2 _] using rev_ind.
    + apply app_inj_tail in Heq as [_ ?]. left. naive_solver.
    + rewrite app_comm_cons app_assoc in Heq. apply app_inj_tail in Heq as [-> <-].
      apply Forall_app in Hq2 as [Hq2 Hp]. apply Forall_cons in Hp as [Hp _]. right. eauto.
  - intros [[-> ->]|(Hne & q1 & q2 & -> & Hq2)].
    + exists q, []. split; [done|constructor].
    + exists q1, (q2 ++ [(e, s)]). split; [by rewrite -app_assoc|].
      apply Forall_app. split; [done|]. by apply Forall_singleton.
Qed.

(** Marking events as sent takes them, and nothing else, out of the queue. *)
Lemma pending_in_sent q events e :
  pending_in (q ++ ((λ e, (e, DeliveryStatus_Sent)) <$> events)) e ↔
  pending_in q e ∧ item_id e ∉ item_id <$> events.
Proof.
  induction events as [|e' events IH] using rev_ind.
  { rewrite !fmap_nil app_nil_r. set_solver. }
  rewrite !fmap_app app_assoc pending_in_snoc IH. cbn [fmap list_fmap]. set_solver.
Qed.
End queue.

(** ** The files of the reference platform *)

Section reference_files.
#[local] Existing Instance reference.

Definition ref_contents (path : str) (w : RefWorld) : option str := w.2 !! path.
Definition ref_metadata (path : str) (w : RefWorld) : result IoError (bool * Z) * RefWorld :=
  (match w.2 !! path with Some data => Ok (true, str_len data) | None => Err IoError_NotFound end, w).
Definition ref_read (path : str) (w : RefWorld) : result str (str * option str) * RefWorld :=
  (ok_or ((λ data, (data, None)) <$> w.2 !! path) "entity not found"%string, w).
Definition ref_append (path s : str) (w : RefWorld) : result str unit * RefWorld :=
  (Ok tt, (w.1, <[path := default EmptyString (w.2 !! path) +:+ s]> w.2)).
Definition ref_create_new (path : str) (w : RefWorld) : result str unit * RefWorld :=
  match w.2 !! path with
  | Some _ => (Err "entity already exists"%string, w)
  | None => (Ok tt, (w.1, <[path := EmptyString]> w.2))
  end.
Definition ref_remove (path : str) (w : RefWorld) : result str unit * RefWorld :=
  (Ok tt, (w.1, delete path w.2)).

#[global] Instance reference_fs : @FileSystem reference :=
  @Build_FileSystem reference ref_contents (λ _ _, false) ref_metadata ref_read ref_append (λ _ w, (Ok tt, w))
    ref_create_new ref_remove (λ _ w, (Ok tt, w)) (λ _ w, (Ok [], w)) (λ _, None)
    Some (λ dir name, dir +:+ "/" +:+ name)%string (λ _, false).

#[global] Instance reference_file_laws : FileLaws reference_fs.
Proof.
  split; unfold leaves_files, same_files, same_other_files; simpl;
    unfold ref_contents, ref_metadata, ref_read, ref_append, ref_create_new, ref_remove; intros *.
  - by intros [= _ <-].
  - intros H. destruct (w.2 !! path) as [data|]; simplify_eq. eauto.
  - intros H. unfold fs_exists. simpl. unfold ref_contents. by destruct (w.2 !! path).
  - by intros [= _ <-].
  - intros H. destruct (w.2 !! path); simpl in H; congruence.
  - intros H. destruct (w.2 !! path) as [s|]; simpl in H; [|done]. simplify_eq. exists EmptyString.
    f_equal. apply chars_inj. by rewrite chars_app app_nil_r.
  - intros [= _ <-]. split; [intros path' ?; by rewrite lookup_insert_ne|].
    right. exists s, EmptyString. rewrite lookup_insert_eq. split; [|done]. symmetry. apply chars_inj.
    by rewrite chars_app app_nil_r.
  - intros [= <-]. by rewrite lookup_insert_eq.
  - by intros ? w r w' [= _ <-].
  - intros H. destruct (w.2 !! path); simplify_eq/=. rewrite lookup_insert_eq.
    split_and!; [done..|]. intros path' ?. by rewrite lookup_insert_ne.
  - intros H. destruct (w.2 !! path); by simplify_eq.
  - intros [= <-]. rewrite lookup_delete_eq. split; [done|]. intros path' ?. by rewrite lookup_delete_ne.
  - done.
  - by intros ? w r w' [= _ <-].
  - by intros ? w r w' [= _ <-].
  - done.
Qed.

#[global] Instance reference_files_work : FilesWork reference_fs.
Proof.
  split; simpl; unfold ref_contents, ref_read, ref_append; try (intros; by eexists).
  intros path w data ->. by eexists.
Qed.

Lemma bits_of_pos_chars p : Forall (λ a, a = "0"%char ∨ a = "1"%char) (bits_of_pos p).
Proof. induction p; simpl; constructor; auto. Qed.

#[global] Instance reference_serde_text : SerdeTextLaws reference.
Proof.
  split. intros v s [= <-]. rewrite chars_of_chars.
  pose proof (bits_of_pos_chars (encode (value_to_tree v))) as Hb.
  assert (Forall (λ a, plain a = true) (bits_of_pos (encode (value_to_tree v)))) as Hp.
  { eapply Forall_impl; [exact Hb|]. by intros a [-> | ->]. }
  split_and!.
  - eapply Forall_impl; [exact Hb|]. intros a [-> | ->]; by vm_compute.
  - apply utf8_valid_ascii. eapply Forall_impl; [exact Hb|]. intros a [-> | ->]; by vm_compute.
  - rewrite trim_all_plain ?chars_of_chars //. apply is_empty_false. intros H.
    apply (f_equal chars) in H. rewrite chars_of_chars in H. by apply (bits_of_pos_nonnil _ H).
Qed.

#[global] Instance reference_members : @SerdeMembers reference := {|
  serde_members s :=
    match p ← pos_of_bits (chars s); t ← decode p; Some (tree_to_value t) with
    | Some (JObject l) => Ok (List.map (λ p, (p.1, normalize p.2)) l)
    | _ => Err "invalid type, expected a struct"%string
    end;
|}.
#[global] Instance reference_members_laws : SerdeMembersLaws reference_members.
Proof.
  split. intros l _. eexists. split; [reflexivity|]. unfold serde_members, reference_members.
  rewrite chars_of_chars pos_of_bits_of_pos. cbn [mbind option_bind]. rewrite decode_encode.
  cbn [mbind option_bind]. by rewrite tree_to_value_to_tree.
Qed.
End reference_files.
