(* ===== verification/Archive.v ===== *)
(** * The external archive ([src/archive/])

    Signed monthly digests are exported as JSON documents to an immutable object
    store.  This file has the object keys and export packages, the S3 backend with
    its retries, and the local queue for exports the store could not take.  The
    HTTP client of the store is the parameter [S3Http]. *)

From S2P Require Import Prelude RustStd Json Platform Reference Errors Types AuditTypes LedgerTypes LedgerPayload LedgerEntry LedgerChain LedgerRpc Digest Files.

(** ** Keys and errors ([backend.rs]) *)

Inductive ArchiveBackendError :=
| ArchiveBackendError_InvalidKey (reason : str)
| ArchiveBackendError_SerializationFailed (message : str)
| ArchiveBackendError_BackendFailed (code : str)
| ArchiveBackendError_IoError (error : str).

Definition ArchiveBackendError_to_string (error : ArchiveBackendError) : str :=
  match error with
  | ArchiveBackendError_InvalidKey reason => "invalid archive key: " +:+ reason
  | ArchiveBackendError_SerializationFailed message => "archive serialization failed: " +:+ message
  | ArchiveBackendError_BackendFailed code => "archive backend failed: " +:+ code
  | ArchiveBackendError_IoError error => "archive I/O error: " +:+ error
  end.

Record ArchiveObjectKey := mk_ArchiveObjectKey { ArchiveObjectKey_as_str : str }.
#[global] Instance ArchiveObjectKey_eq_dec : EqDecision ArchiveObjectKey.
Proof. solve_decision. Defined.

Definition ArchiveObjectKey_new (key : str) : result ArchiveBackendError ArchiveObjectKey :=
  if is_empty key then Err (ArchiveBackendError_InvalidKey "archive object key must not be empty")
  else if 256 <? str_len key
  then Err (ArchiveBackendError_InvalidKey "archive object key must not exceed 256 characters")
  else Ok (mk_ArchiveObjectKey key).
Definition ArchiveObjectKey_for_monthly_digest (period : MonthlyDigestPeriod) :
    result ArchiveBackendError ArchiveObjectKey :=
  ArchiveObjectKey_new ("digests/" +:+ MonthlyDigestPeriod_as_str period +:+ "/digest.json").
Definition ArchiveObjectKey_wf (key : ArchiveObjectKey) : Prop :=
  0 < str_len (ArchiveObjectKey_as_str key) ≤ 256.

Inductive ArchiveVerifyOutcome :=
| ArchiveVerifyOutcome_Valid
| ArchiveVerifyOutcome_NotFound
| ArchiveVerifyOutcome_ContentMismatch.

(** ** Export packages ([export.rs]) *)

Definition ARCHIVE_SCHEMA_VERSION : Z := 1.

Record ArchiveExportPackage := mk_ArchiveExportPackage {
  pk_digest_hash_hex : str;
  pk_sbc_signature_hex : str;
  pk_signature_key_version : Z;
  pk_digest_canonical : Value;
}.

Section export.
Context {P : Platform}.

Definition ArchiveExportPackage_from_digest (digest : SignedMonthlyDigest) :
    result ArchiveBackendError ArchiveExportPackage :=
  digest_canonical ← serde_from_str (from_bytes (DigestCanonicalBytes_as_bytes (dg_canonical_bytes digest)))
    !? (λ error, ArchiveBackendError_SerializationFailed ("failed to parse digest canonical bytes: " +:+ error));
  Ok (mk_ArchiveExportPackage (DigestHash_to_hex (dg_digest_hash digest))
    (hex_encode (LedgerSignature_as_bytes (dg_sbc_signature digest)))
    (LedgerSignatureKeyVersion_get (dg_signature_key_version digest)) digest_canonical).

(** The fields of [ArchiveDocument], in order. *)
Definition ArchiveDocument (package : ArchiveExportPackage) : Map :=
  [("archive_schema_version", json_uint ARCHIVE_SCHEMA_VERSION);
   ("digest", pk_digest_canonical package);
   ("digest_hash", JString (pk_digest_hash_hex package));
   ("sbc_signature", JString (pk_sbc_signature_hex package));
   ("signature_key_version", json_uint (pk_signature_key_version package))]%string.

Definition ArchiveExportPackage_to_json_bytes (package : ArchiveExportPackage) :
    result ArchiveBackendError bytes :=
  serde_to_vec (JObject (ArchiveDocument package))
    !? (λ error, ArchiveBackendError_SerializationFailed ("failed to serialize archive document: " +:+ error)).
End export.

(** ** The trait [ArchiveBackend] *)

Class ArchiveBackend {P : Platform} := {
  backend_put_object : ArchiveObjectKey → ArchiveExportPackage → io World ArchiveBackendError unit;
  backend_verify_object :
    ArchiveObjectKey → ArchiveExportPackage → io World ArchiveBackendError ArchiveVerifyOutcome;
}.

(** ** Errors and retries of the object store ([s3/error.rs], [s3/retry.rs]) *)

Inductive S3BackendError :=
| S3BackendError_InvalidConfig (reason : str)
| S3BackendError_RequestBuild (reason : str)
| S3BackendError_Network (reason : str)
| S3BackendError_Unauthenticated
| S3BackendError_OverwriteRejected
| S3BackendError_NotFound
| S3BackendError_ServerError (status : Z)
| S3BackendError_Unexpected (status : Z)
| S3BackendError_ResponseRead (reason : str).

Definition S3BackendError_as_error_code (error : S3BackendError) : str :=
  match error with
  | S3BackendError_InvalidConfig _ => "archive_export_invalid_config"
  | S3BackendError_RequestBuild _ => "archive_export_request_build_failed"
  | S3BackendError_Network _ => "archive_export_network_failed"
  | S3BackendError_Unauthenticated => "archive_export_unauthenticated"
  | S3BackendError_OverwriteRejected => "archive_export_overwrite_rejected"
  | S3BackendError_NotFound => "archive_export_not_found"
  | S3BackendError_ServerError _ => "archive_export_server_error"
  | S3BackendError_Unexpected _ => "archive_export_unexpected_status"
  | S3BackendError_ResponseRead _ => "archive_export_response_read_failed"
  end.
Definition S3BackendError_is_retriable (error : S3BackendError) : bool :=
  match error with S3BackendError_Network _ | S3BackendError_ServerError _ => true | _ => false end.
Definition ArchiveBackendError_from_S3BackendError (error : S3BackendError) : ArchiveBackendError :=
  ArchiveBackendError_BackendFailed (S3BackendError_as_error_code error).

(** [1u64.checked_shl(attempt)] and the product, saturating; [base] in nanoseconds. *)
Definition backoff_delay (base attempt : Z) : Z :=
  let multiplier := if attempt <? 64 then Z.shiftl 1 attempt else u64_max in
  match u_try_from u64_max base with
  | Some nanos => if nanos * multiplier <=? u64_max then nanos * multiplier else u64_max
  | None => u64_max
  end.

(** The HTTP client of the object store, and the timer. *)
Class S3Http {P : Platform} := {
  s3_put_object : str → bytes → DateTime → io World S3BackendError unit;
  s3_get_object_bytes : str → DateTime → io World S3BackendError (option bytes);
  s3_head_object : str → DateTime → io World S3BackendError bool;
  s3_list_objects_v2 : option str → DateTime → io World S3BackendError (list str * option str);
  tokio_sleep : Z → World → World;
}.

Section retry.
Context {P : Platform} {H : S3Http} {A : Type}.

(** The loop: [rounds] counts the attempts that are left, which the bound on
    [attempt] already limits. *)
Fixpoint run_with_backoff_loop (max_retries base : Z) (operation : io World S3BackendError A)
    (rounds : nat) (attempt : Z) : io World S3BackendError A := λ w,
  let '(r, w1) := operation w in
  match r with
  | Ok value => (Ok value, w1)
  | Err error =>
      if negb (S3BackendError_is_retriable error) || (max_retries <=? attempt) then (Err error, w1) else
      match rounds with
      | O => (Err error, w1)
      | S rounds =>
          run_with_backoff_loop max_retries base operation rounds (attempt + 1)
            (tokio_sleep (backoff_delay base attempt) w1)
      end
  end.
Definition run_with_backoff (max_retries base : Z) (operation : io World S3BackendError A) :
    io World S3BackendError A :=
  run_with_backoff_loop max_retries base operation (Z.to_nat max_retries) 0.
End retry.

(** ** The S3 backend ([s3/backend.rs]) *)

Record S3ArchiveBackendConfig := mk_S3ArchiveBackendConfig {
  cfg_max_retries : Z;
  cfg_retry_base_millis : Z;
}.

Section s3_backend.
Context {P : Platform} {H : S3Http} (config : S3ArchiveBackendConfig).

Definition with_retry {A} (operation : DateTime → io World S3BackendError A) : io World S3BackendError A :=
  run_with_backoff (cfg_max_retries config) (cfg_retry_base_millis config * 1000000) (λ w,
    let '(now, w1) := clock_now_utc w in operation now w1).

Definition put_object_bytes_strict (key : ArchiveObjectKey) (body : bytes) : io World S3BackendError unit :=
  with_retry (s3_put_object (ArchiveObjectKey_as_str key) body).
Definition get_object_bytes_with_retry (key : ArchiveObjectKey) : io World S3BackendError (option bytes) :=
  with_retry (s3_get_object_bytes (ArchiveObjectKey_as_str key)).

Definition verify_existing_object_bytes (key : ArchiveObjectKey) (expected : bytes) :
    io World ArchiveBackendError unit :=
  stored ← get_object_bytes_with_retry key !?? ArchiveBackendError_from_S3BackendError;
  lift (match stored with
    | Some b => if bool_decide (b = expected) then Ok tt
        else Err (ArchiveBackendError_BackendFailed "archive_export_content_mismatch")
    | None => Err (ArchiveBackendError_BackendFailed "archive_export_not_found")
    end).

Definition put_object_bytes (key : ArchiveObjectKey) (body : bytes) : io World ArchiveBackendError unit :=
  io_match (put_object_bytes_strict key body) (λ r,
    match r with
    | Ok _ => mret tt
    | Err S3BackendError_OverwriteRejected => verify_existing_object_bytes key body
    | Err error => lift (Err (ArchiveBackendError_from_S3BackendError error))
    end).

Definition put_object (key : ArchiveObjectKey) (package : ArchiveExportPackage) :
    io World ArchiveBackendError unit :=
  body ← lift (ArchiveExportPackage_to_json_bytes package);
  put_object_bytes key body.

Definition verify_object (key : ArchiveObjectKey) (package : ArchiveExportPackage) :
    io World ArchiveBackendError ArchiveVerifyOutcome :=
  expected ← lift (ArchiveExportPackage_to_json_bytes package);
  stored ← get_object_bytes_with_retry key !?? ArchiveBackendError_from_S3BackendError;
  mret (match stored with
    | None => ArchiveVerifyOutcome_NotFound
    | Some b => if bool_decide (b = expected) then ArchiveVerifyOutcome_Valid
        else ArchiveVerifyOutcome_ContentMismatch
    end).

Definition object_exists (key : ArchiveObjectKey) : io World ArchiveBackendError bool :=
  with_retry (s3_head_object (ArchiveObjectKey_as_str key)) !?? ArchiveBackendError_from_S3BackendError.

(** The pages of the listing: the source follows continuation tokens without a
    bound, here up to [fuel] pages; [None] means that more were announced. *)
Fixpoint list_objects_loop (fuel : nat) (token : option str) :
    io World ArchiveBackendError (option (list ArchiveObjectKey)) :=
  match fuel with
  | O => mret None
  | S fuel =>
      page ← with_retry (s3_list_objects_v2 token) !?? ArchiveBackendError_from_S3BackendError;
      keys ← lift (try_map ArchiveObjectKey_new page.1);
      match page.2 with
      | Some next =>
          if is_empty next then mret (Some keys) else
          rest ← list_objects_loop fuel (Some next);
          mret ((app keys) <$> rest)
      | None => mret (Some keys)
      end
  end.
Definition list_objects (fuel : nat) : io World ArchiveBackendError (option (list ArchiveObjectKey)) :=
  list_objects_loop fuel None.
End s3_backend.

(** ** The local queue of exports ([s3/queue.rs]) *)

Inductive ArchiveQueueError :=
| ArchiveQueueError_Io (error : str)
| ArchiveQueueError_Json (error : str)
| ArchiveQueueError_InvalidKey
| ArchiveQueueError_InvalidPayloadHex
| ArchiveQueueError_InvalidPayloadHash
| ArchiveQueueError_TimeUnavailable.

Definition ArchiveQueueError_to_string (error : ArchiveQueueError) : str :=
  match error with
  | ArchiveQueueError_Io error => "archive queue I/O error: " +:+ error
  | ArchiveQueueError_Json error => "archive queue JSON error: " +:+ error
  | ArchiveQueueError_InvalidKey => "archive queue key is invalid"
  | ArchiveQueueError_InvalidPayloadHex => "archive queue payload hex is invalid"
  | ArchiveQueueError_InvalidPayloadHash => "archive queue payload hash mismatch"
  | ArchiveQueueError_TimeUnavailable => "archive queue time unavailable"
  end.
Definition ArchiveBackendError_from_ArchiveQueueError (error : ArchiveQueueError) : ArchiveBackendError :=
  ArchiveBackendError_BackendFailed
    match error with
    | ArchiveQueueError_Io _ => "archive_export_queue_io_failed"
    | ArchiveQueueError_Json _ => "archive_export_queue_json_failed"
    | ArchiveQueueError_InvalidKey => "archive_export_queue_invalid_key"
    | ArchiveQueueError_InvalidPayloadHex => "archive_export_queue_invalid_payload_hex"
    | ArchiveQueueError_InvalidPayloadHash => "archive_export_queue_payload_hash_mismatch"
    | ArchiveQueueError_TimeUnavailable => "archive_export_queue_time_unavailable"
    end.

Record LocalArchiveQueue := mk_LocalArchiveQueue { aq_path : str }.

Record QueuedArchiveObject := mk_QueuedArchiveObject {
  qo_queue_id : str;
  qo_key : ArchiveObjectKey;
  qo_payload_sha256_hex : str;
  qo_payload : bytes;
}.
Record ResendArchiveSummary := mk_ResendArchiveSummary { as_attempted : Z; as_sent : Z; as_failed : Z }.
Inductive ArchivePutOrQueueOutcome :=
| ArchivePutOrQueueOutcome_PutSucceeded
| ArchivePutOrQueueOutcome_Queued.

Record QueueRecord := mk_QueueRecord {
  qr_queue_id : str;
  qr_delivery_status : DeliveryStatus;
  qr_key : str;
  qr_payload_sha256_hex : str;
  qr_payload_hex : str;
  qr_queued_at : str;
}.

Section archive_queue.
Context {P : Platform} {F : FileSystem} {SM : SerdeMembers}.

Definition QueueRecord_pending (key : ArchiveObjectKey) (payload : bytes) :
    io World ArchiveQueueError QueueRecord := λ w,
  let payload_sha256_hex := hex_encode (sha256 payload) in
  let '(now, w') := clock_now_utc w in
  (queued_at ← dt_format now !? (λ _, ArchiveQueueError_TimeUnavailable);
   Ok (mk_QueueRecord (ArchiveObjectKey_as_str key +:+ ":" +:+ payload_sha256_hex) DeliveryStatus_Pending
     (ArchiveObjectKey_as_str key) payload_sha256_hex (hex_encode payload) queued_at), w').

Definition QueueRecord_sent (queued : QueuedArchiveObject) : io World ArchiveQueueError QueueRecord := λ w,
  let '(now, w') := clock_now_utc w in
  (Ok (mk_QueueRecord (qo_queue_id queued) DeliveryStatus_Sent (ArchiveObjectKey_as_str (qo_key queued))
     (qo_payload_sha256_hex queued) (hex_encode (qo_payload queued))
     match dt_format now with Ok text => text | Err _ => "1970-01-01T00:00:00Z"%string end), w').

(** The derived serializer and deserializer. *)
Definition QueueRecord_fields (record : QueueRecord) : Map :=
  [("queue_id", JString (qr_queue_id record));
   ("delivery_status", JString (DeliveryStatus_as_str (qr_delivery_status record)));
   ("key", JString (qr_key record));
   ("payload_sha256_hex", JString (qr_payload_sha256_hex record));
   ("payload_hex", JString (qr_payload_hex record));
   ("queued_at", JString (qr_queued_at record))]%string.
Definition QueueRecord_from_members (members : Map) : result str QueueRecord :=
  queue_id ← string_member "queue_id" members;
  delivery_status ← (required_member "delivery_status" members ≫= DeliveryStatus_from_value);
  key ← string_member "key" members;
  payload_sha256_hex ← string_member "payload_sha256_hex" members;
  payload_hex ← string_member "payload_hex" members;
  queued_at ← string_member "queued_at" members;
  Ok (mk_QueueRecord queue_id delivery_status key payload_sha256_hex payload_hex queued_at).

Definition QueuedArchiveObject_try_from (record : QueueRecord) : result ArchiveQueueError QueuedArchiveObject :=
  key ← ArchiveObjectKey_new (qr_key record) !? (λ _, ArchiveQueueError_InvalidKey);
  payload ← ok_or (hex_decode (qr_payload_hex record)) ArchiveQueueError_InvalidPayloadHex;
  let actual_hash := hex_encode (sha256 payload) in
  if negb (String.eqb actual_hash (qr_payload_sha256_hex record))
  then Err ArchiveQueueError_InvalidPayloadHash
  else Ok (mk_QueuedArchiveObject (qr_queue_id record) key (qr_payload_sha256_hex record) payload).

Definition append_record (path : str) (record : QueueRecord) : io World ArchiveQueueError unit :=
  _ ← create_parent path !?? ArchiveQueueError_Io;
  _ ← fs_append path EmptyString !?? ArchiveQueueError_Io;
  text ← lift (serde_to_string (JObject (QueueRecord_fields record)) !? ArchiveQueueError_Json);
  _ ← fs_append path text !?? ArchiveQueueError_Json;
  _ ← fs_append path (String line_feed EmptyString) !?? ArchiveQueueError_Io;
  fs_sync path !?? ArchiveQueueError_Io.

Definition queue_lock_poisoned : ArchiveQueueError := ArchiveQueueError_Io "archive queue lock poisoned".

Definition append_pending_bytes (queue : LocalArchiveQueue) (key : ArchiveObjectKey) (payload : bytes) :
    io World ArchiveQueueError unit :=
  locked queue_lock_poisoned (
    record ← QueueRecord_pending key payload;
    append_record (aq_path queue) record).
Definition archive_append_pending (queue : LocalArchiveQueue) (key : ArchiveObjectKey)
    (package : ArchiveExportPackage) : io World ArchiveQueueError unit :=
  payload ← lift (ArchiveExportPackage_to_json_bytes package !? (λ _, ArchiveQueueError_InvalidPayloadHash));
  append_pending_bytes queue key payload.
Definition archive_mark_sent (queue : LocalArchiveQueue) (queued : QueuedArchiveObject) :
    io World ArchiveQueueError unit :=
  locked queue_lock_poisoned (
    record ← QueueRecord_sent queued;
    append_record (aq_path queue) record).

Definition pending_objects_unlocked (queue : LocalArchiveQueue) :
    io World ArchiveQueueError (list QueuedArchiveObject) := λ w,
  if negb (fs_exists (aq_path queue) w) then (Ok [], w) else
  (records ← read_records ArchiveQueueError_Io ArchiveQueueError_Json QueueRecord_from_members (aq_path queue);
   let states := map_of_list ((λ r, (qr_queue_id r, r)) <$> records) in
   lift (try_map QueuedArchiveObject_try_from
     (filter (λ r, qr_delivery_status r = DeliveryStatus_Pending) states.*2))) w.
Definition pending_objects (queue : LocalArchiveQueue) : io World ArchiveQueueError (list QueuedArchiveObject) :=
  locked queue_lock_poisoned (pending_objects_unlocked queue).
End archive_queue.

(** ** Sending or queueing ([s3/backend.rs]) *)

Definition retriable_archive_backend_code (code : str) : bool :=
  str_in code ["archive_export_network_failed"; "archive_export_server_error"]%string.

Section put_or_enqueue.
Context {P : Platform} {H : S3Http} {F : FileSystem} {SM : SerdeMembers} (config : S3ArchiveBackendConfig).

Definition put_object_or_enqueue (key : ArchiveObjectKey) (package : ArchiveExportPackage)
    (queue : LocalArchiveQueue) : io World ArchiveBackendError ArchivePutOrQueueOutcome :=
  io_match (put_object config key package) (λ r,
    match r with
    | Ok _ => mret ArchivePutOrQueueOutcome_PutSucceeded
    | Err (ArchiveBackendError_BackendFailed code) =>
        if retriable_archive_backend_code code then
          payload ← lift (ArchiveExportPackage_to_json_bytes package);
          _ ← append_pending_bytes queue key payload !?? ArchiveBackendError_from_ArchiveQueueError;
          mret ArchivePutOrQueueOutcome_Queued
        else lift (Err (ArchiveBackendError_BackendFailed code))
    | Err error => lift (Err error)
    end).

Fixpoint resend_queued_loop (queue : LocalArchiveQueue) (pending : list QueuedArchiveObject) (sent failed : Z) :
    io World ArchiveBackendError (Z * Z) :=
  match pending with
  | [] => mret (sent, failed)
  | queued :: pending =>
      io_match (put_object_bytes config (qo_key queued) (qo_payload queued)) (λ r,
        match r with
        | Ok _ =>
            io_match (archive_mark_sent queue queued) (λ marked,
              match marked with
              | Ok _ => resend_queued_loop queue pending (sent + 1) failed
              | Err _ => resend_queued_loop queue pending sent (failed + 1)
              end)
        | Err _ => resend_queued_loop queue pending sent (failed + 1)
        end)
  end.
Definition resend_queued_objects (queue : LocalArchiveQueue) : io World ArchiveBackendError ResendArchiveSummary :=
  pending ← pending_objects queue !?? ArchiveBackendError_from_ArchiveQueueError;
  counts ← resend_queued_loop queue pending 0 0;
  mret (mk_ResendArchiveSummary (Z.of_nat (length pending)) counts.1 counts.2).
End put_or_enqueue.

(** ** The archived document *)

Section document.
Context {P : Platform} {LS : SerdeLaws P}.

Lemma digest_document_sorted at_ eh e c v sh s ym :
  normalize (JObject (DigestCanonicalDocument at_ eh e c v sh s ym))
  = JObject (DigestCanonicalDocument at_ eh e c v sh s ym).
Proof. reflexivity. Qed.

Lemma archive_document_exact package :
  0 ≤ pk_signature_key_version package ≤ u64_max →
  json_exact (pred json_max_depth) (pk_digest_canonical package) = true →
  json_exact json_max_depth (JObject (ArchiveDocument package)) = true.
Proof.
  intros Hv Hd. change json_max_depth with (S (pred json_max_depth)). revert Hd.
  generalize (pred json_max_depth). intros d Hd. cbn [json_exact ArchiveDocument forallb snd].
  rewrite Hd. destruct d; cbn [json_exact number_exact json_uint]; apply andb_true_iff;
    (split; [by apply (bool_decide_eq_true_2 _); decide_keys|]); rewrite /= ?andb_true_r;
    apply andb_true_iff; rewrite !Z.leb_le; lia.
Qed.

Lemma json_exact_flat d d' m :
  Forall (λ p, is_scalar p.2 = true) m →
  json_exact (S d) (JObject m) = true → json_exact (S d') (JObject m) = true.
Proof.
  intros Hs. cbn [json_exact]. rewrite !andb_true_iff !forallb_forall. intros [Hn Hf]. split; [done|].
  intros p Hp. specialize (Hf p Hp). rewrite Forall_forall in Hs.
  apply list_elem_of_In, Hs in Hp. by destruct (p.2), d, d'.
Qed.

(** A digest as [generate_monthly_digest] makes it. *)
Definition digest_made (d : SignedMonthlyDigest) : Prop :=
  digest_fields_wf (dg_start_sequence_no d) (dg_end_sequence_no d) (dg_entry_count d) (dg_signature_key_version d)
  ∧ build_monthly_digest_canonical_form (dg_period d) (dg_start_sequence_no d) (dg_end_sequence_no d)
      (dg_start_entry_hash d) (dg_end_entry_hash d) (dg_entry_count d) (dg_digest_generated_at d)
      (dg_signature_key_version d) = Ok (dg_canonical_bytes d)
  ∧ dg_digest_hash d = DigestHash_from_canonical_bytes (dg_canonical_bytes d).

Lemma from_digest_Ok d :
  digest_made d →
  ∃ document, ArchiveExportPackage_from_digest d = Ok (mk_ArchiveExportPackage
      (DigestHash_to_hex (dg_digest_hash d)) (hex_encode (LedgerSignature_as_bytes (dg_sbc_signature d)))
      (LedgerSignatureKeyVersion_get (dg_signature_key_version d)) document)
    ∧ normalize document = document ∧ json_exact (pred json_max_depth) document = true
    ∧ serde_to_vec document = Ok (DigestCanonicalBytes_as_bytes (dg_canonical_bytes d)).
Proof.
  intros (Hwf & Hc & _). apply digest_canonical_Ok in Hc as (t & Ht & Hb).
  match type of Ht with serde_to_string ?doc = _ => set (document := doc) in *; exists document end.
  assert (json_exact json_max_depth document = true) as Hex.
  { apply digest_document_exact. revert Hwf. by destruct (dg_start_sequence_no d), (dg_end_sequence_no d),
      (dg_signature_key_version d). }
  destruct (serde_round_trip document Hex) as (t' & Ht' & Hp). rewrite Ht in Ht'. injection Ht' as <-.
  split_and!.
  - unfold ArchiveExportPackage_from_digest. rewrite Hb. cbn [DigestCanonicalBytes_as_bytes].
    rewrite from_bytes_as_bytes Hp. cbn [map_err mbind result_bind]. by rewrite digest_document_sorted.
  - apply digest_document_sorted.
  - eapply json_exact_flat; [by repeat constructor|exact Hex].
  - unfold serde_to_vec. rewrite Ht. by rewrite Hb.
Qed.
End document.

(** ** Retries *)

Lemma backoff_delay_spec base attempt :
  0 ≤ base → 0 ≤ attempt → backoff_delay base attempt = Z.min (base * 2 ^ attempt) u64_max.
Proof.
  intros Hb Ha. unfold backoff_delay. destruct (u_try_from u64_max base) as [n|] eqn:Hn.
  - apply u_try_from_Some in Hn as [-> Hn]. destruct (Z.ltb_spec attempt 64).
    + rewrite Z.shiftl_1_l. destruct (Z.leb_spec (base * 2 ^ attempt) u64_max); lia.
    + assert (2 ^ 64 ≤ 2 ^ attempt) as Hp by (apply Z.pow_le_mono_r; lia).
      assert (2 ^ 64 = u64_max + 1) as H64 by done.
      destruct (Z.leb_spec (base * u64_max) u64_max); destruct (decide (base = 0)) as [->|]; try nia.
  - assert (u64_max < base).
    { destruct (Z.lt_ge_cases u64_max base); [done|]. exfalso.
      assert (u_try_from u64_max base = Some base) by (apply u_try_from_Some; lia). congruence. }
    assert (0 < 2 ^ attempt) by (apply Z.pow_pos_nonneg; lia). unfold u64_max in *. nia.
Qed.

Section retry_lemmas.
Context {P : Platform} {H : S3Http} {A : Type}.
Context (max_retries base : Z) (operation : io World S3BackendError A).

(** The attempts of an operation from the [n]-th on, each but the last failed with
    a retriable error and followed by its pause; the relation counts them. *)
Inductive Attempts : Z → World → nat → result S3BackendError A → World → Prop :=
| attempt_last n w r w' :
    operation w = (r, w') →
    match r with Ok _ => True | Err e => S3BackendError_is_retriable e = false ∨ max_retries ≤ n end →
    Attempts n w 1 r w'
| attempt_again n w e w1 k r w' :
    operation w = (Err e, w1) → S3BackendError_is_retriable e = true → n < max_retries →
    Attempts (n + 1) (tokio_sleep (backoff_delay base n) w1) k r w' →
    Attempts n w (S k) r w'.

Lemma run_with_backoff_loop_attempts rounds n w r w' :
  0 ≤ n ≤ max_retries → max_retries - n = Z.of_nat rounds →
  run_with_backoff_loop max_retries base operation rounds n w = (r, w') →
  ∃ k, Attempts n w k r w' ∧ Z.of_nat k ≤ max_retries - n + 1.
Proof.
  revert n w. induction rounds as [|rounds IH]; intros n w Hn Hr; cbn [run_with_backoff_loop];
    destruct (operation w) as [[a|e] w1] eqn:Ho.
  1, 3: intros [= <- <-]; exists 1%nat; split; [by apply attempt_last|lia].
  - assert ((if negb (S3BackendError_is_retriable e) || (max_retries <=? n) then (@Err _ A e, w1)
      else (Err e, w1)) = (Err e, w1)) as -> by (by case_if).
    intros [= <- <-]. exists 1%nat. split; [apply attempt_last; [done|right; lia]|lia].
  - destruct (S3BackendError_is_retriable e) eqn:He; cbn [negb orb].
    + destruct (Z.leb_spec max_retries n); [lia|]. intros Hl.
      apply IH in Hl as (k & Hk & Hle); [|lia..]. exists (S k). split; [by eapply attempt_again|lia].
    + intros [= <- <-]. exists 1%nat. split; [apply attempt_last; [done|by left]|lia].
Qed.
End retry_lemmas.

(** ** The object store

    What the store holds, and that it is immutable: an object is created once and
    neither calls nor the passing of time change it. *)

Class S3Store {P : Platform} (H : S3Http) := {
  s3_stored : str → World → option bytes;
  s3_put_Ok key body t w w' : s3_put_object key body t w = (Ok tt, w') → s3_stored key w' = Some body;
  s3_get_Ok key t w o w' : s3_get_object_bytes key t w = (Ok o, w') → s3_stored key w' = o;
  s3_put_keeps key body t w r w' key' b :
    s3_put_object key body t w = (r, w') → s3_stored key' w = Some b → s3_stored key' w' = Some b;
  s3_get_keeps key t w r w' key' b :
    s3_get_object_bytes key t w = (r, w') → s3_stored key' w = Some b → s3_stored key' w' = Some b;
  s3_clock_keeps w key b : s3_stored key w = Some b → s3_stored key (clock_now_utc w).2 = Some b;
  s3_sleep_keeps ms w key b : s3_stored key w = Some b → s3_stored key (tokio_sleep ms w) = Some b;
}.

Section store_lemmas.
Context {P : Platform} {H : S3Http} {Store : S3Store H} (config : S3ArchiveBackendConfig).

(** A retried operation ends as its last attempt does. *)
Lemma with_retry_last {A} (operation : DateTime → io World S3BackendError A) w r w' :
  0 ≤ cfg_max_retries config → with_retry config operation w = (r, w') →
  ∃ now w1, operation now w1 = (r, w').
Proof.
  intros Hm Hrun. unfold with_retry, run_with_backoff in Hrun.
  apply run_with_backoff_loop_attempts in Hrun as (k & Hk & _); [|lia..].
  clear Hm. induction Hk as [n w r w' Ho _|? ? ? ? ? ? ? _ _ _ _ IH]; [|exact IH]. destruct (clock_now_utc w). eauto.
Qed.

Lemma put_object_bytes_Ok key body w w' :
  0 ≤ cfg_max_retries config → put_object_bytes config key body w = (Ok tt, w') →
  s3_stored (ArchiveObjectKey_as_str key) w' = Some body.
Proof.
  intros Hm. unfold put_object_bytes, io_match.
  destruct (put_object_bytes_strict config key body w) as [r w1] eqn:Hp.
  apply with_retry_last in Hp as (now & w2 & Hp); [|done].
  destruct r as [[]|[]]; try done; [intros [= <-]; by eapply s3_put_Ok|].
  unfold verify_existing_object_bytes. intros Hv. inv_run.
  select (get_object_bytes_with_retry _ _ _ = _) (fun H => apply with_retry_last in H as (t & w3 & Hg%s3_get_Ok); [|done]).
  select (option _) (fun o => destruct o as [b|]; [|done]). case_bool_decide; [by subst|done].
Qed.
End store_lemmas.

(** ** The queue of exports and its file *)

Section archive_queue_lemmas.
Context {P : Platform} {F : FileSystem} {SM : SerdeMembers}.
Context {LH : HexLaws P} {LF : FileLaws F} {LT : SerdeTextLaws P} {LM : SerdeMembersLaws SM}.

Abbreviation archive_item := (ArchiveObjectKey * list byte)%type.
Definition archive_item_id (x : archive_item) : str :=
  ArchiveObjectKey_as_str x.1 +:+ ":" +:+ hex_encode (sha256 x.2).
Definition object_of (x : archive_item) : QueuedArchiveObject :=
  mk_QueuedArchiveObject (archive_item_id x) x.1 (hex_encode (sha256 x.2)) x.2.
Definition record_of (x : archive_item) (s : DeliveryStatus) (queued_at : str) : QueueRecord :=
  mk_QueueRecord (archive_item_id x) s (ArchiveObjectKey_as_str x.1) (hex_encode (sha256 x.2))
    (hex_encode x.2) queued_at.

Definition archive_text (text : str) (p : archive_item * DeliveryStatus) : Prop :=
  ∃ queued_at, serde_to_string (JObject (QueueRecord_fields (record_of p.1 p.2 queued_at))) = Ok text.
Definition archive_queue_holds (path : str) (q : @queue archive_item) (w : World) : Prop :=
  Forall (λ p, ArchiveObjectKey_wf p.1.1) q ∧ file_holds archive_text path q w.

Lemma QueueRecord_round_trip r text :
  serde_to_string (JObject (QueueRecord_fields r)) = Ok text →
  (serde_members text ≫= QueueRecord_from_members) = Ok r.
Proof.
  intros Ht. assert (json_exact json_max_depth (JObject (QueueRecord_fields r)) = true) as Hex.
  { apply json_exact_object. split; [by decide_keys|by repeat constructor]. }
  destruct (serde_members_round_trip _ Hex) as (text' & Ht' & Hm). rewrite Ht in Ht'.
  injection Ht' as <-. rewrite Hm. by destruct r as [? [] ? ? ? ?].
Qed.

Lemma try_from_record x s t : ArchiveObjectKey_wf x.1 → QueuedArchiveObject_try_from (record_of x s t) = Ok (object_of x).
Proof.
  destruct x as [[key] payload]. unfold ArchiveObjectKey_wf. intros Hk.
  unfold QueuedArchiveObject_try_from, record_of, ArchiveObjectKey_new.
  cbn [fst snd qr_key qr_payload_hex qr_payload_sha256_hex qr_queue_id ArchiveObjectKey_as_str] in *.
  rewrite (proj2 (is_empty_false key)); [|intros ->; unfold str_len in Hk; simpl in Hk; lia].
  rewrite (proj2 (Z.ltb_ge 256 (str_len key))); [|lia]. cbn [map_err mbind result_bind].
  rewrite hex_decode_encode. cbn [ok_or mbind result_bind]. by rewrite String.eqb_refl.
Qed.

Lemma archive_text_serialized text p : archive_text text p → ∃ v, serde_to_string v = Ok text.
Proof. intros (t & Ht). eauto. Qed.

Lemma archive_readable q :
  readable QueueRecord_from_members archive_text (λ r p, ∃ t, r = record_of p.1 p.2 t) q.
Proof.
  apply Forall_forall. intros p _ text (t & Ht). exists (record_of p.1 p.2 t).
  split; [by apply QueueRecord_round_trip|by exists t].
Qed.

Lemma pending_records_objects records (q : @queue archive_item) :
  Forall (λ p, ArchiveObjectKey_wf p.1.1) q →
  Forall2 (λ r p, ∃ t, r = record_of p.1 p.2 t) records q →
  try_map QueuedArchiveObject_try_from (filter (λ r, qr_delivery_status r = DeliveryStatus_Pending)
    (map_of_list ((λ r, (qr_queue_id r, r)) <$> records)).*2)
  = Ok (object_of <$> pending_list archive_item_id q).
Proof.
  intros Hwf Hrq. unfold pending_list, queue_states.
  assert (Forall2 (λ a b, a.1 = b.1 ∧ ArchiveObjectKey_wf b.2.1.1 ∧ ∃ t, a.2 = record_of b.2.1 b.2.2 t)
    (map_of_list ((λ r, (qr_queue_id r, r)) <$> records))
    (map_of_list ((λ p, (archive_item_id p.1, p)) <$> q))) as Hst.
  { apply (map_of_list_Forall2 (λ r p, ArchiveObjectKey_wf p.1.1 ∧ ∃ t, r = record_of p.1 p.2 t)).
    induction Hrq as [|r p records q [t ->] _ IH]; [constructor|].
    apply Forall_cons in Hwf as [Hp Hwf]. rewrite !fmap_cons. constructor; [|by apply IH]. cbn. eauto. }
  revert Hst. generalize (map_of_list ((λ r, (qr_queue_id r, r)) <$> records)).
  generalize (map_of_list ((λ p : archive_item * DeliveryStatus, (archive_item_id p.1, p)) <$> q)).
  intros m2 m1 Hst. induction Hst as [|[k r] [k' [x s]] l1 l2 (_ & Hx & t & Hr) _ IH]; [reflexivity|]. cbn [fst snd] in *. subst r.
  rewrite fmap_cons filter_cons. cbn [qr_delivery_status record_of snd omap list_omap].
  unfold pending_of_state at 1. cbn [snd fst].
  destruct (decide (s = DeliveryStatus_Pending)) as [->|Hne].
  - cbn [try_map]. rewrite try_from_record // IH. done.
  - rewrite IH. by rewrite bool_decide_eq_false_2.
Qed.

Lemma pending_objects_refines queue q w r w' :
  archive_queue_holds (aq_path queue) q w → pending_objects queue w = (r, w') →
  archive_queue_holds (aq_path queue) q w'
  ∧ match r with
    | Ok objects => objects = object_of <$> pending_list archive_item_id q
    | Err e => ∃ e', e = ArchiveQueueError_Io e'
    end.
Proof.
  intros (Hwf & Hq). unfold pending_objects, locked, pending_objects_unlocked.
  destruct (lock_poisoned w); [intros [= <- <-]; split; [by split|by eexists]|].
  destruct (fs_exists (aq_path queue) w) eqn:He; cbn [negb].
  2: { intros [= <- <-]. split; [by split|]. apply fs_exists_false in He.
    destruct Hq as [[_ ->]|(texts & Ht & _)]; [done|congruence]. }
  intros Hr. unfold mbind at 1, io_bind at 1 in Hr.
  destruct (read_records _ _ _ (aq_path queue) w) as [rec w1] eqn:Hrec.
  apply (read_records_holds _ _ _ _ _ archive_text_serialized _ _ _ _ _ (archive_readable q) Hq) in Hrec as [Hs Hrec].
  pose proof (file_holds_same _ _ _ _ _ Hs Hq) as Hq1.
  destruct rec as [records|e]; [|injection Hr as <- <-; by split].
  rewrite (pending_records_objects _ _ Hwf Hrec) in Hr. injection Hr as <- <-. by split.
Qed.

Lemma append_record_archive path x s t q w w' :
  ArchiveObjectKey_wf x.1 → archive_queue_holds path q w →
  append_record path (record_of x s t) w = (Ok tt, w') → archive_queue_holds path (q ++ [(x, s)]) w'.
Proof.
  intros Hx (Hwf & Hq). unfold append_record. intros Ha. inv_run. split.
  { apply Forall_app_2; [done|]. apply Forall_cons_2; [done|]. by apply Forall_nil_2. }
  select (create_parent _ _ = _) (fun H => apply create_parent_quiet in H).
  eapply file_holds_append; [by eapply file_holds_same| |by eapply appended_line]. by exists t.
Qed.

Lemma append_pending_bytes_Ok queue key payload q w w' :
  ArchiveObjectKey_wf key → archive_queue_holds (aq_path queue) q w →
  append_pending_bytes queue key payload w = (Ok tt, w') →
  archive_queue_holds (aq_path queue) (q ++ [((key, payload), DeliveryStatus_Pending)]) w'.
Proof.
  intros Hk (Hwf & Hq). unfold append_pending_bytes, locked. destruct (lock_poisoned w); [done|].
  intros (r & w1 & Hr & Ha)%io_bind_Ok. unfold QueueRecord_pending in Hr. pose proof (clock_quiet w) as Hc.
  destruct (clock_now_utc w) as [now w2]. injection Hr as Hr <-. inv_ok.
  eapply (append_record_archive _ (key, payload)); [done| |exact Ha].
  split; [done|]. by eapply file_holds_same.
Qed.
End archive_queue_lemmas.

(** ** Properties *)

Section archive_theorems.
Context {P : Platform} {LS : SerdeLaws P}.

(** C39. The archived file can be verified without the database: a digest is exported
    as a JSON text that reads back as a document whose [digest] member, printed
    again, is the digest's canonical form; the document has the hash of that form,
    the signature and the version of its key. *)
Theorem archived_document_verifiable d :
  digest_made d →
  ∃ package b document digest,
    ArchiveExportPackage_from_digest d = Ok package
    ∧ ArchiveExportPackage_to_json_bytes package = Ok b
    ∧ serde_from_str (from_bytes b) = Ok (JObject document)
    ∧ map_get "digest" document = Some digest
    ∧ serde_to_vec digest = Ok (DigestCanonicalBytes_as_bytes (dg_canonical_bytes d))
    ∧ map_get "digest_hash" document
      = Some (JString (hex_encode (sha256 (DigestCanonicalBytes_as_bytes (dg_canonical_bytes d)))))
    ∧ map_get "sbc_signature" document
      = Some (JString (hex_encode (LedgerSignature_as_bytes (dg_sbc_signature d))))
    ∧ map_get "signature_key_version" document
      = Some (json_uint (LedgerSignatureKeyVersion_get (dg_signature_key_version d))).
Proof.
  intros Hd. destruct (from_digest_Ok d Hd) as (digest & Hpk & Hn & Hex & Hvec).
  destruct Hd as ((_ & _ & _ & Hv) & _ & Hh).
  match type of Hpk with _ = Ok ?p => set (package := p) in * end.
  assert (json_exact json_max_depth (JObject (ArchiveDocument package)) = true) as Hdoc.
  { apply archive_document_exact; [|exact Hex]. cbn. revert Hv.
    unfold LedgerSignatureKeyVersion_wf, nonzero_u32, u32_max, u64_max. lia. }
  destruct (serde_round_trip _ Hdoc) as (t & Ht & Hp). exists package, (as_bytes t).
  exists (map_of_list (List.map (λ p, (p.1, normalize p.2)) (ArchiveDocument package))), digest.
  split; [done|]. split.
  { unfold ArchiveExportPackage_to_json_bytes, serde_to_vec. by rewrite Ht. }
  split; [by rewrite from_bytes_as_bytes Hp|].
  assert (∀ k, map_get k (map_of_list (List.map (λ p, (p.1, normalize p.2)) (ArchiveDocument package)))
    = normalize <$> map_get k (ArchiveDocument package)) as Hget.
  { intros k. rewrite map_get_of_list; [by rewrite map_get_map|]. by decide_keys. }
  rewrite !Hget. cbn [map_get ArchiveDocument String.eqb Ascii.eqb Bool.eqb fmap option_fmap option_map].
  rewrite Hn. unfold DigestHash_to_hex in *. cbn [package pk_digest_hash_hex] in *.
  split_and!; [done|done| |done|done]. cbn. unfold DigestHash_to_hex. by rewrite Hh.
Qed.
End archive_theorems.

Section export_theorems.
Context {P : Platform} {H : S3Http} {F : FileSystem} {SM : SerdeMembers}.
Context {LH : HexLaws P} {LF : FileLaws F} {LT : SerdeTextLaws P} {LM : SerdeMembersLaws SM}.

(** An operation on the object store is attempted at most once more than the
    number of retries: every attempt but the last failed with a retriable error,
    the pause after the [n]-th is the base doubled [n] times (saturating at the
    range of the timer), and the result is that of the last attempt. *)
Theorem run_with_backoff_bounded {A} max_retries base (operation : io World S3BackendError A) w r w' :
  0 ≤ max_retries → 0 ≤ base → run_with_backoff max_retries base operation w = (r, w') →
  (∃ k, Attempts max_retries base operation 0 w k r w' ∧ 1 ≤ Z.of_nat k ≤ max_retries + 1)
  ∧ ∀ n, 0 ≤ n → backoff_delay base n = Z.min (base * 2 ^ n) u64_max.
Proof.
  intros Hm Hb Hrun. split; [|intros n Hn; by apply backoff_delay_spec].
  apply run_with_backoff_loop_attempts in Hrun as (k & Hk & Hle); [|lia..].
  exists k. split; [done|]. assert (1 ≤ k)%nat by (inversion Hk; lia). lia.
Qed.

Context {Store : S3Store H} (config : S3ArchiveBackendConfig).

(** An export is stored as it is or kept for later: when the call reports success,
    the store holds exactly the exported bytes under the key, also when an
    earlier attempt had stored them; when it reports that the export was queued,
    the queue has it as pending, with these bytes. *)
Theorem export_stored_or_queued key package queue q w outcome w' :
  0 ≤ cfg_max_retries config → ArchiveObjectKey_wf key →
  (∀ w1 r w2, put_object config key package w1 = (r, w2) → same_files w1 w2) →
  archive_queue_holds (aq_path queue) q w →
  put_object_or_enqueue config key package queue w = (Ok outcome, w') →
  ∃ b, ArchiveExportPackage_to_json_bytes package = Ok b
    ∧ match outcome with
      | ArchivePutOrQueueOutcome_PutSucceeded =>
          s3_stored (ArchiveObjectKey_as_str key) w' = Some b ∧ archive_queue_holds (aq_path queue) q w'
      | ArchivePutOrQueueOutcome_Queued =>
          ∃ q', archive_queue_holds (aq_path queue) q' w' ∧ pending_in archive_item_id q' (key, b)
      end.
Proof.
  intros Hm Hk Hquiet [Hwf Hq]. unfold put_object_or_enqueue, io_match.
  destruct (put_object config key package w) as [r w1] eqn:Hp.
  assert (archive_queue_holds (aq_path queue) q w1) as Hq1 by (split; [done|eapply file_holds_same; eauto]).
  destruct r as [[]|[| |code|]]; [|done..| |done].
  - intros [= <- <-]. unfold put_object in Hp. inv_run. eexists. split; [done|]. split; [|done].
    by eapply put_object_bytes_Ok.
  - destruct (retriable_archive_backend_code code); [|done]. intros Hrun. inv_run.
    eexists. split; [done|].
    select (append_pending_bytes _ _ _ _ = _) (fun H => eapply append_pending_bytes_Ok in H; [|done..]).
    eexists. split; [done|]. apply pending_in_snoc. by left.
Qed.
End export_theorems.
