(* ===== verification/AuditEvent.v ===== *)
(** * Audit events ([src/audit/event/{metadata,model,validation}.rs])

    The metadata of an audit event is a JSON object that holds no forbidden key
    at any depth; an event accepts only the keys its action and result allow,
    with all the keys they require and a valid value for each. *)

From S2P Require Import Prelude RustStd Json Platform Reference Errors Types AuditTypes LedgerTypes LedgerPayload LedgerEntry LedgerChain LedgerRpc Digest.

Definition SOURCE_EVENT_AT_KEY : str := "source_event_at".
Definition TRIGGER_KEY : str := "trigger".

Definition FORBIDDEN_AUDIT_METADATA_KEYS : list str :=
  ["alias_decryption_key"; "alias_encryption_key"; "alias_fingerprint_key"; "authorization";
   "authorization_header"; "bearer_token"; "canonical_alias_plaintext"; "ciphertext"; "data_key";
   "decrypt_result"; "decrypted"; "decrypted_data"; "ed25519_private_key"; "encrypted_data_key";
   "jwt"; "jwt_full"; "ledger_signing_key"; "master_key"; "passphrase"; "password"; "plain_text";
   "plaintext"; "raw_jwt"; "request_body"; "request_body_full"; "response_body";
   "response_body_full"; "secret_body"; "secret_key"; "secret_value"; "service_role";
   "service_role_key"; "token"]%string.

Definition INTEGRITY_CHECK_VIOLATION_SUMMARY_ALLOWLIST : list str :=
  ["current_version_invalid"; "version_invalid"; "retention_exceeded"; "ciphertext_empty";
   "encrypted_data_key_empty"; "nonce_length_invalid"; "algorithm_invalid"; "nonce_duplicate";
   "aad_keys_invalid"; "aad_row_mismatch"; "created_at_mismatch"; "audit_action_invalid";
   "audit_result_invalid"; "audit_metadata_not_object"; "audit_metadata_forbidden_key";
   "audit_source_event_at_invalid"]%string.

Definition is_forbidden_metadata_key (key : str) : bool :=
  let normalized := to_ascii_lowercase (trim key) in
  str_in normalized FORBIDDEN_AUDIT_METADATA_KEYS.

Definition reject_forbidden_metadata_keys : Value → result AuditEventError unit :=
  reject_keys is_forbidden_metadata_key AuditEventError_ForbiddenMetadataKey.

(** ** Validators of single values *)

Definition invalid_metadata_value {A} (key : str) : result AuditEventError A :=
  Err (AuditEventError_InvalidMetadataValue key).

Definition validate_u64_value (key : str) (value : Value) : result AuditEventError unit :=
  _ ← ok_or (as_u64 value) (AuditEventError_InvalidMetadataValue key); Ok tt.

Definition validate_positive_u64_value (key : str) (value : Value) : result AuditEventError unit :=
  parsed ← ok_or (as_u64 value) (AuditEventError_InvalidMetadataValue key);
  if parsed =? 0 then invalid_metadata_value key else Ok tt.

Definition validate_short_string (key : str) (value : Value) (max_len : Z) :
    result AuditEventError unit :=
  text ← ok_or (as_str value) (AuditEventError_InvalidMetadataValue key);
  if is_empty (trim text) || (max_len <? str_len text) then invalid_metadata_value key else Ok tt.

Definition validate_hex_string (key : str) (value : Value) (expected_len : Z) :
    result AuditEventError unit :=
  text ← ok_or (as_str value) (AuditEventError_InvalidMetadataValue key);
  if negb (str_len text =? expected_len)
     || negb (forallb (λ c, is_ascii_hexdigit c && negb (is_ascii_uppercase c)) (chars text))
  then invalid_metadata_value key else Ok tt.

Definition validate_exact_string (key : str) (value : Value) (expected : str) :
    result AuditEventError unit :=
  text ← ok_or (as_str value) (AuditEventError_InvalidMetadataValue key);
  if negb (String.eqb text expected) then invalid_metadata_value key else Ok tt.

(** [matches!(text, ...)] on the text of the value. *)
Definition validate_one_of (key : str) (value : Value) (allowed : list str) :
    result AuditEventError unit :=
  text ← ok_or (as_str value) (AuditEventError_InvalidMetadataValue key);
  if negb (str_in text allowed) then invalid_metadata_value key else Ok tt.

(** The arms of [incident_type_allowed]. *)
Definition incident_types : list str :=
  ["hash_chain_mismatch"; "signature_mismatch"; "monthly_digest_mismatch";
   "digest_timestamping_mismatch"; "archive_export_mismatch"; "sequence_gap";
   "unknown_signature_key"; "non_auditor_ledger_read"; "ledger_secret_leak_suspected";
   "siem_long_failure"; "audit_ui_forbidden_operation"]%string.

(** A check of the value under a key, when the object has the key. *)
Definition if_key (object : Map) (key : str) (check : Value → result AuditEventError unit) :
    result AuditEventError unit :=
  match map_get key object with Some value => check value | None => Ok tt end.

(** ** The keys an action allows and requires *)

Definition allowed_metadata_keys (action : AuditAction) (res : AuditResult) : list str :=
  match action with
  | AuditAction_EncryptCreate | AuditAction_EncryptRotate | AuditAction_VersionPurge =>
      ["version"; "secret_version_id"; SOURCE_EVENT_AT_KEY]
  | AuditAction_Decrypt =>
      match res with
      | AuditResult_Failure => ["attempted_secret_id"; SOURCE_EVENT_AT_KEY]
      | AuditResult_Success => [SOURCE_EVENT_AT_KEY]
      end
  | AuditAction_IntegrityCheck =>
      ["check_name"; "checked_secret_count"; "checked_secret_version_count";
       "checked_audit_event_count"; "duration_ms"; "violation_count"; "violation_summary";
       TRIGGER_KEY; "error_code"; SOURCE_EVENT_AT_KEY]
  | AuditAction_RestoreTest =>
      ["phase"; "sample_count"; TRIGGER_KEY; "duration_ms"; "error_code"; "failed_version"; "reason";
       SOURCE_EVENT_AT_KEY]
  | AuditAction_AuthFailure => ["error_code"; SOURCE_EVENT_AT_KEY]
  | AuditAction_KeyRotationStart => ["old_key_version"; "new_key_version"; SOURCE_EVENT_AT_KEY]
  | AuditAction_KeyRotationReencrypt =>
      ["old_key_version"; "new_key_version"; "batch_size"; "processed_count"; "remaining_count";
       SOURCE_EVENT_AT_KEY]
  | AuditAction_KeyRotationComplete =>
      ["old_key_version"; "new_key_version"; "remaining_count"; SOURCE_EVENT_AT_KEY]
  | AuditAction_SignatureKeyCreated =>
      ["created_at"; "public_key_fingerprint"; "signature_key_version"; SOURCE_EVENT_AT_KEY]
  | AuditAction_SignatureKeyActivated =>
      ["activated_at"; "public_key_fingerprint"; "signature_key_version"; SOURCE_EVENT_AT_KEY]
  | AuditAction_SignatureKeyRetired =>
      ["public_key_fingerprint"; "retired_at"; "signature_key_version"; SOURCE_EVENT_AT_KEY]
  | AuditAction_MonthlyDigestGenerate | AuditAction_MonthlyDigestVerify =>
      ["error_code"; "target_year_month"; SOURCE_EVENT_AT_KEY]
  | AuditAction_ArchiveExport =>
      ["archive_key"; "digest_hash"; "target_year_month"; "error_code"; SOURCE_EVENT_AT_KEY]
  | AuditAction_DigestTimestamping =>
      ["digest_hash"; "error_code"; "target_year_month"; "timestamp_token_hash"; SOURCE_EVENT_AT_KEY]
  | AuditAction_SiemForwardFailure =>
      ["error_code"; "event_type"; "event_count"; SOURCE_EVENT_AT_KEY]
  | AuditAction_AuditReportGenerate =>
      ["format"; "period_end"; "period_start"; "error_code"; SOURCE_EVENT_AT_KEY]
  | AuditAction_AuditUiRead =>
      ["endpoint"; "method"; "resource"; "result_count"; "period_start"; "period_end";
       "start_sequence_no"; "end_sequence_no"; "target_year_month"; "error_code"; SOURCE_EVENT_AT_KEY]
  | AuditAction_SchedulerJob =>
      ["duration_ms"; "error_code"; "job_name"; "target_year_month"; TRIGGER_KEY; SOURCE_EVENT_AT_KEY]
  | AuditAction_IncidentDetected =>
      ["incident_type"; "severity"; "detection_source"; "dedupe_key"; "notification_sink";
       "notification_result"; "error_code"; SOURCE_EVENT_AT_KEY; "source_event_id";
       "target_sequence_no"; "target_year_month"]
  | AuditAction_SecretAliasCreate | AuditAction_SecretAliasDelete =>
      ["alias_fingerprint"; "alias_fingerprint_key_version"; "alias_fingerprint_schema_version";
       "error_code"; SOURCE_EVENT_AT_KEY]
  | AuditAction_SecretAliasUpdate =>
      ["old_alias_fingerprint"; "new_alias_fingerprint"; "alias_fingerprint_key_version";
       "alias_fingerprint_schema_version"; "error_code"; SOURCE_EVENT_AT_KEY]
  | AuditAction_SecretAliasList => ["result_count"; "error_code"; SOURCE_EVENT_AT_KEY]
  end%string.

Definition required_metadata_keys (action : AuditAction) (res : AuditResult) : list str :=
  match action with
  | AuditAction_EncryptCreate | AuditAction_EncryptRotate | AuditAction_VersionPurge =>
      ["version"; "secret_version_id"]
  | AuditAction_Decrypt => []
  | AuditAction_IntegrityCheck =>
      ["check_name"; "checked_secret_count"; "checked_secret_version_count";
       "checked_audit_event_count"; "duration_ms"; "violation_count"; "violation_summary"; TRIGGER_KEY]
  | AuditAction_RestoreTest => ["phase"; "sample_count"; TRIGGER_KEY; "duration_ms"]
  | AuditAction_AuthFailure => ["error_code"]
  | AuditAction_KeyRotationStart => ["old_key_version"; "new_key_version"]
  | AuditAction_KeyRotationReencrypt =>
      ["old_key_version"; "new_key_version"; "batch_size"; "processed_count"; "remaining_count"]
  | AuditAction_KeyRotationComplete => ["old_key_version"; "new_key_version"; "remaining_count"]
  | AuditAction_SignatureKeyCreated => ["signature_key_version"; "public_key_fingerprint"; "created_at"]
  | AuditAction_SignatureKeyActivated =>
      ["signature_key_version"; "public_key_fingerprint"; "activated_at"]
  | AuditAction_SignatureKeyRetired => ["signature_key_version"; "public_key_fingerprint"; "retired_at"]
  | AuditAction_MonthlyDigestGenerate | AuditAction_MonthlyDigestVerify => []
  | AuditAction_ArchiveExport | AuditAction_DigestTimestamping => ["target_year_month"]
  | AuditAction_SiemForwardFailure => ["error_code"]
  | AuditAction_AuditReportGenerate => ["format"; "period_end"; "period_start"]
  | AuditAction_AuditUiRead => ["endpoint"; "method"; "resource"]
  | AuditAction_SchedulerJob => ["job_name"; TRIGGER_KEY; "duration_ms"]
  | AuditAction_IncidentDetected =>
      ["incident_type"; "severity"; "detection_source"; "dedupe_key"; "notification_sink";
       "notification_result"; "error_code"]
  | AuditAction_SecretAliasCreate | AuditAction_SecretAliasDelete =>
      match res with
      | AuditResult_Success =>
          ["alias_fingerprint"; "alias_fingerprint_key_version"; "alias_fingerprint_schema_version"]
      | AuditResult_Failure => []
      end
  | AuditAction_SecretAliasUpdate =>
      match res with
      | AuditResult_Success =>
          ["old_alias_fingerprint"; "new_alias_fingerprint"; "alias_fingerprint_key_version";
           "alias_fingerprint_schema_version"]
      | AuditResult_Failure => []
      end
  | AuditAction_SecretAliasList =>
      match res with AuditResult_Success => ["result_count"] | AuditResult_Failure => [] end
  end%string.

Definition require_key (object : Map) (key : str) : result AuditEventError unit :=
  if negb (map_contains_key key object) then Err (AuditEventError_MissingMetadataKey key) else Ok tt.

Definition validate_required_metadata_keys (action : AuditAction) (res : AuditResult) (object : Map)
    (require_source_event_at : bool) : result AuditEventError unit :=
  let required := required_metadata_keys action res
    ++ (if require_source_event_at then [SOURCE_EVENT_AT_KEY] else []) in
  _ ← try_for_each (require_key object) required;
  if bool_decide (action = AuditAction_IntegrityCheck) then
    summary ← ok_or (v ← map_get "violation_summary" object; as_object v)
      AuditEventError_ViolationSummaryMustBeObject;
    try_for_each (require_key summary) INTEGRITY_CHECK_VIOLATION_SUMMARY_ALLOWLIST
  else Ok tt.

Definition unknown_key_check (allowed : list str) (key : str) : result AuditEventError unit :=
  if negb (str_in key allowed) then Err (AuditEventError_UnknownMetadataKey key) else Ok tt.

(** What the [IntegrityCheck] arm checks before it lists its keys. *)
Definition check_summary_keys (action : AuditAction) (object : Map) : result AuditEventError unit :=
  if bool_decide (action = AuditAction_IntegrityCheck) then
    match map_get "violation_summary" object with
    | Some summary =>
        match as_object summary with
        | Some summary_obj =>
            try_for_each (unknown_key_check INTEGRITY_CHECK_VIOLATION_SUMMARY_ALLOWLIST) summary_obj.*1
        | None => Err AuditEventError_ViolationSummaryMustBeObject
        end
    | None => Ok tt
    end
  else Ok tt.

Section metadata.
Context {P : Platform}.

Definition validate_timestamp_value (key : str) (value : Value) : result AuditEventError unit :=
  text ← ok_or (as_str value) (AuditEventError_InvalidMetadataValue key);
  _ ← SourceEventAt_parse text !? (λ _, AuditEventError_InvalidMetadataValue key);
  Ok tt.

Definition validate_uuid_v4_value (key : str) (value : Value) : result AuditEventError unit :=
  text ← ok_or (as_str value) (AuditEventError_InvalidMetadataValue key);
  _ ← SecretVersionId_parse text !? (λ _, AuditEventError_InvalidMetadataValue key);
  Ok tt.

(** ** The values of an event's metadata

    The checks run in the order of the source; each is skipped when the object
    lacks its key. *)

Definition u64_keys : list str :=
  ["checked_secret_count"; "checked_secret_version_count"; "checked_audit_event_count";
   "duration_ms"; "violation_count"; "sample_count"; "processed_count"; "remaining_count";
   "result_count"]%string.
Definition positive_u64_keys : list str :=
  ["version"; "old_key_version"; "new_key_version"; "signature_key_version"; "batch_size";
   "target_sequence_no"; "start_sequence_no"; "end_sequence_no"; "alias_fingerprint_key_version";
   "alias_fingerprint_schema_version"]%string.

Definition validate_numbers (res : AuditResult) (object : Map) : result AuditEventError unit :=
  _ ← try_for_each (λ key, if_key object key (validate_u64_value key)) u64_keys;
  _ ← try_for_each (λ key, if_key object key (validate_positive_u64_value key)) positive_u64_keys;
  if_key object "failed_version" (λ value,
    _ ← (if negb (is_null value) then validate_positive_u64_value "failed_version" value else Ok tt);
    if bool_decide (res = AuditResult_Success) then invalid_metadata_value "failed_version" else Ok tt).

Definition validate_ids (action : AuditAction) (res : AuditResult) (object : Map) :
    result AuditEventError unit :=
  _ ← try_for_each (λ key, if_key object key (validate_uuid_v4_value key))
        ["secret_version_id"; "attempted_secret_id"]%string;
  _ ← if_key object "source_event_id" (λ value,
    text ← ok_or (as_str value) (AuditEventError_InvalidMetadataValue "source_event_id");
    _ ← AuditEventId_parse text !? (λ _, AuditEventError_InvalidMetadataValue "source_event_id");
    Ok tt);
  _ ← (if map_contains_key "source_event_id" object
          && negb (bool_decide (action = AuditAction_IncidentDetected))
       then invalid_metadata_value "source_event_id" else Ok tt);
  if map_contains_key "attempted_secret_id" object
     && negb (bool_decide (action = AuditAction_Decrypt) && bool_decide (res = AuditResult_Failure))
  then invalid_metadata_value "attempted_secret_id" else Ok tt.

Definition validate_texts (res : AuditResult) (object : Map) : result AuditEventError unit :=
  _ ← if_key object "error_code" (λ value,
    if negb (bool_decide (res = AuditResult_Failure)) then invalid_metadata_value "error_code"
    else validate_short_string "error_code" value 64);
  _ ← if_key object "job_name" (λ value, validate_short_string "job_name" value 96);
  _ ← try_for_each (λ key, if_key object key (λ value, validate_short_string key value 128))
        ["endpoint"; "resource"]%string;
  _ ← if_key object "method" (λ value, validate_exact_string "method" value "GET");
  _ ← if_key object "public_key_fingerprint" (λ value,
        validate_hex_string "public_key_fingerprint" value 64);
  _ ← try_for_each (λ key, if_key object key (λ value, validate_hex_string key value 64))
        ["alias_fingerprint"; "old_alias_fingerprint"; "new_alias_fingerprint"]%string;
  _ ← try_for_each (λ key, if_key object key (validate_timestamp_value key))
        ["created_at"; "activated_at"; "retired_at"]%string;
  try_for_each (λ key, if_key object key (λ value, validate_short_string key value 128))
    ["detection_source"; "dedupe_key"; "notification_sink"]%string.

Definition validate_classes (res : AuditResult) (object : Map) : result AuditEventError unit :=
  _ ← if_key object "incident_type" (λ value, validate_one_of "incident_type" value incident_types);
  _ ← if_key object "severity" (λ value,
        validate_one_of "severity" value ["critical"; "high"; "medium"; "low"]%string);
  _ ← if_key object "notification_result" (λ value,
        validate_one_of "notification_result" value
          ["sent"; "failed"; "suppressed"; "not_configured"]%string);
  _ ← if_key object "target_year_month" (λ value,
    text ← ok_or (as_str value) (AuditEventError_InvalidMetadataValue "target_year_month");
    _ ← MonthlyDigestPeriod_parse text !? (λ _, AuditEventError_InvalidMetadataValue "target_year_month");
    Ok tt);
  _ ← if_key object "format" (λ value, validate_one_of "format" value ["json"; "markdown"]%string);
  _ ← try_for_each (λ key, if_key object key (validate_timestamp_value key))
        ["period_start"; "period_end"]%string;
  _ ← if_key object "archive_key" (λ value,
    if bool_decide (res = AuditResult_Failure) then invalid_metadata_value "archive_key"
    else validate_short_string "archive_key" value 256);
  _ ← if_key object "check_name" (λ value,
        validate_exact_string "check_name" value "mvp_integrity_check");
  _ ← if_key object "phase" (λ value, validate_exact_string "phase" value "verify");
  if_key object "reason" (λ value, validate_exact_string "reason" value "no_current_secret_versions").

Definition validate_summary_values (action : AuditAction) (object : Map) : result AuditEventError unit :=
  if bool_decide (action = AuditAction_IntegrityCheck) then
    if_key object "violation_summary" (λ summary_value,
      summary ← ok_or (as_object summary_value) AuditEventError_ViolationSummaryMustBeObject;
      try_for_each (λ p,
        validate_u64_value (if str_in p.1 INTEGRITY_CHECK_VIOLATION_SUMMARY_ALLOWLIST
          then p.1 else "violation_summary") p.2) summary)
  else Ok tt.

Definition validate_metadata_values (action : AuditAction) (res : AuditResult) (object : Map) :
    result AuditEventError unit :=
  _ ← validate_numbers res object;
  _ ← validate_ids action res object;
  _ ← validate_texts res object;
  _ ← validate_classes res object;
  validate_summary_values action object.

(** ** Metadata *)

Record AuditMetadata := mk_AuditMetadata { AuditMetadata_as_value : Value }.
#[global] Instance AuditMetadata_eq_dec : EqDecision AuditMetadata.
Proof. solve_decision. Defined.

(** [Value::to_string], which does not fail. *)
Definition value_to_string (v : Value) : str :=
  match serde_to_string v with Ok s => s | Err _ => "" end.

Definition validate_trigger (object : Map) : result AuditEventError unit :=
  if_key object TRIGGER_KEY (λ value,
    text ← ok_or (as_str value) (AuditEventError_InvalidTrigger (value_to_string value));
    _ ← AuditTrigger_parse text; Ok tt).

Definition canonicalize_source_event_at (object : Map) : result AuditEventError Map :=
  match map_get SOURCE_EVENT_AT_KEY object with
  | None => Ok object
  | Some value =>
      text ← ok_or (as_str value) AuditEventError_InvalidSourceEventAt;
      canonical ← SourceEventAt_parse text !? (λ _, AuditEventError_InvalidSourceEventAt);
      Ok (map_insert SOURCE_EVENT_AT_KEY (JString (SourceEventAt_as_str canonical)) object)
  end.

Definition AuditMetadata_from_object (object : Map) : result AuditEventError AuditMetadata :=
  _ ← reject_forbidden_metadata_keys (JObject object);
  _ ← validate_trigger object;
  object ← canonicalize_source_event_at object;
  Ok (mk_AuditMetadata (JObject object)).

Definition AuditMetadata_new (value : Value) : result AuditEventError AuditMetadata :=
  object ← ok_or (as_object value) AuditEventError_MetadataMustBeObject;
  AuditMetadata_from_object object.

Definition AuditMetadata_empty : AuditMetadata := mk_AuditMetadata (JObject []).

(** The [with_*] methods insert one field and validate again. *)
Definition with_field (m : AuditMetadata) (key : str) (value : Value) :
    result AuditEventError AuditMetadata :=
  object ← ok_or (as_object (AuditMetadata_as_value m)) AuditEventError_MetadataMustBeObject;
  AuditMetadata_new (JObject (map_insert key value object)).

Definition AuditMetadata_with_trigger (m : AuditMetadata) (trigger : AuditTrigger) :
    result AuditEventError AuditMetadata :=
  with_field m TRIGGER_KEY (JString (AuditTrigger_as_str trigger)).
Definition AuditMetadata_with_attempted_secret_id (m : AuditMetadata) (secret_id : SecretId) :
    result AuditEventError AuditMetadata :=
  with_field m "attempted_secret_id" (JString (SecretId_as_canonical_string secret_id)).
Definition AuditMetadata_with_source_event_at (m : AuditMetadata) (source_event_at : SourceEventAt) :
    result AuditEventError AuditMetadata :=
  with_field m SOURCE_EVENT_AT_KEY (JString (SourceEventAt_as_str source_event_at)).

Definition AuditMetadata_source_event_at (m : AuditMetadata) :
    result AuditEventError (option SourceEventAt) :=
  object ← ok_or (as_object (AuditMetadata_as_value m)) AuditEventError_MetadataMustBeObject;
  match map_get SOURCE_EVENT_AT_KEY object with
  | None => Ok None
  | Some value =>
      text ← ok_or (as_str value) AuditEventError_InvalidSourceEventAt;
      Some <$> (SourceEventAt_parse text !? (λ _, AuditEventError_InvalidSourceEventAt))
  end.

Definition require_source_event_at (m : AuditMetadata) : result AuditEventError SourceEventAt :=
  o ← AuditMetadata_source_event_at m;
  ok_or o AuditEventError_MissingSourceEventAt.

Definition AuditMetadata_with_current_source_event_at (m : AuditMetadata) :
    io World AuditEventError AuditMetadata :=
  current ← lift (AuditMetadata_source_event_at m);
  match current with
  | Some _ => mret m
  | None =>
      source_event_at ← SourceEventAt_now_utc !?? (λ _, AuditEventError_SourceEventAtUnavailable);
      lift (AuditMetadata_with_source_event_at m source_event_at)
  end.

Definition validate_allowlist_for_action (m : AuditMetadata) (action : AuditAction)
    (res : AuditResult) : result AuditEventError unit :=
  object ← ok_or (as_object (AuditMetadata_as_value m)) AuditEventError_MetadataMustBeObject;
  _ ← check_summary_keys action object;
  _ ← try_for_each (unknown_key_check (allowed_metadata_keys action res)) object.*1;
  _ ← validate_required_metadata_keys action res object true;
  validate_metadata_values action res object.

(** ** Events *)

Record AuditEventParts := mk_AuditEventParts {
  ev_audit_event_id : AuditEventId;
  ev_request_id : RequestId;
  ev_actor_user_id : option OwnerUserId;
  ev_actor_device_id : option DeviceId;
  ev_action : AuditAction;
  ev_target_secret_id : option SecretId;
  ev_result : AuditResult;
  ev_key_version : option KeyVersion;
  ev_metadata_json : AuditMetadata;
}.
#[global] Instance AuditEventParts_eq_dec : EqDecision AuditEventParts.
Proof. solve_decision. Defined.

(** [AuditEvent] has the fields of its parts; only [new] makes one. *)
Record AuditEvent := mk_AuditEvent { event_parts : AuditEventParts }.
#[global] Instance AuditEvent_eq_dec : EqDecision AuditEvent.
Proof. solve_decision. Defined.

Definition validate_auth_failure_parts (parts : AuditEventParts) : result AuditEventError unit :=
  if bool_decide (is_Some (ev_actor_user_id parts))
  then Err (AuditEventError_AuthFailureFieldMustBeNull "actor_user_id")
  else if bool_decide (is_Some (ev_actor_device_id parts))
  then Err (AuditEventError_AuthFailureFieldMustBeNull "actor_device_id")
  else if bool_decide (is_Some (ev_target_secret_id parts))
  then Err (AuditEventError_AuthFailureFieldMustBeNull "target_secret_id")
  else if bool_decide (is_Some (ev_key_version parts))
  then Err (AuditEventError_AuthFailureFieldMustBeNull "key_version")
  else Ok tt.

Definition validate_event_parts (parts : AuditEventParts) : result AuditEventError unit :=
  if bool_decide (ev_result parts = AuditResult_Success)
     && AuditAction_is_write_success_only (ev_action parts)
  then Err (AuditEventError_WriteSuccessActionNotAllowed (ev_action parts))
  else if bool_decide (ev_result parts = AuditResult_Success)
     && AuditAction_is_failure_only (ev_action parts)
  then Err (AuditEventError_FailureOnlyActionSuccessNotAllowed (ev_action parts))
  else
  _ ← (if bool_decide (ev_action parts = AuditAction_AuthFailure)
       then validate_auth_failure_parts parts else Ok tt);
  _ ← require_source_event_at (ev_metadata_json parts);
  validate_allowlist_for_action (ev_metadata_json parts) (ev_action parts) (ev_result parts).

Definition AuditEvent_new (parts : AuditEventParts) : result AuditEventError AuditEvent :=
  _ ← validate_event_parts parts;
  Ok (mk_AuditEvent parts).

Definition build_with_current_source_event_at (request_id : RequestId)
    (actor_user_id : option OwnerUserId) (actor_device_id : option DeviceId) (action : AuditAction)
    (target_secret_id : option SecretId) (res : AuditResult) (key_version : option KeyVersion)
    (metadata_json : AuditMetadata) : io World AuditEventError AuditEvent :=
  metadata_json ← AuditMetadata_with_current_source_event_at metadata_json;
  audit_event_id ← AuditEventId_generate;
  lift (AuditEvent_new (mk_AuditEventParts audit_event_id request_id actor_user_id actor_device_id
    action target_secret_id res key_version metadata_json)).

Definition AuditEvent_source_event_at (e : AuditEvent) : result AuditEventError SourceEventAt :=
  require_source_event_at (ev_metadata_json (event_parts e)).
End metadata.

(** ** The checks of values, key by key

    [metadata_checks] sorts the checks of the source by key: the check each key's value
    has to pass, whatever else the object holds.  [validate_metadata_values_Ok] shows
    that the sequence of conditionals amounts to it; [AuditSchema] compares it with a
    description of the metadata stated on its own. *)

Section checks.
Context {P : Platform}.

Definition period_check (value : Value) : result AuditEventError unit :=
  text ← ok_or (as_str value) (AuditEventError_InvalidMetadataValue "target_year_month");
  _ ← MonthlyDigestPeriod_parse text !? (λ _, AuditEventError_InvalidMetadataValue "target_year_month");
  Ok tt.
Definition source_event_id_check (action : AuditAction) (value : Value) : result AuditEventError unit :=
  text ← ok_or (as_str value) (AuditEventError_InvalidMetadataValue "source_event_id");
  _ ← AuditEventId_parse text !? (λ _, AuditEventError_InvalidMetadataValue "source_event_id");
  if bool_decide (action = AuditAction_IncidentDetected) then Ok tt
  else invalid_metadata_value "source_event_id".
Definition attempted_check (action : AuditAction) (res : AuditResult) (value : Value) :
    result AuditEventError unit :=
  _ ← validate_uuid_v4_value "attempted_secret_id" value;
  if bool_decide (action = AuditAction_Decrypt) && bool_decide (res = AuditResult_Failure) then Ok tt
  else invalid_metadata_value "attempted_secret_id".
Definition failed_version_check (res : AuditResult) (value : Value) : result AuditEventError unit :=
  _ ← (if negb (is_null value) then validate_positive_u64_value "failed_version" value else Ok tt);
  if bool_decide (res = AuditResult_Success) then invalid_metadata_value "failed_version" else Ok tt.
Definition summary_check (action : AuditAction) (value : Value) : result AuditEventError unit :=
  if bool_decide (action = AuditAction_IntegrityCheck) then
    summary ← ok_or (as_object value) AuditEventError_ViolationSummaryMustBeObject;
    try_for_each (λ p, validate_u64_value "violation_summary" p.2) summary
  else Ok tt.

Definition metadata_checks (action : AuditAction) (res : AuditResult) :
    list (str * (Value → result AuditEventError unit)) :=
  ((λ key, (key, validate_u64_value key)) <$> u64_keys)
  ++ ((λ key, (key, validate_positive_u64_value key)) <$> positive_u64_keys)
  ++ ((λ key, (key, λ value, validate_short_string key value 128)) <$>
        ["endpoint"; "resource"; "detection_source"; "dedupe_key"; "notification_sink"]%string)
  ++ ((λ key, (key, λ value, validate_hex_string key value 64)) <$>
        ["public_key_fingerprint"; "alias_fingerprint"; "old_alias_fingerprint";
         "new_alias_fingerprint"]%string)
  ++ ((λ key, (key, validate_timestamp_value key)) <$>
        ["created_at"; "activated_at"; "retired_at"; "period_start"; "period_end"]%string)
  ++ [("failed_version", failed_version_check res);
      ("secret_version_id", validate_uuid_v4_value "secret_version_id");
      ("attempted_secret_id", attempted_check action res);
      ("source_event_id", source_event_id_check action);
      ("error_code", λ value,
        if bool_decide (res = AuditResult_Failure) then validate_short_string "error_code" value 64
        else invalid_metadata_value "error_code");
      ("job_name", λ value, validate_short_string "job_name" value 96);
      ("method", λ value, validate_exact_string "method" value "GET");
      ("incident_type", λ value, validate_one_of "incident_type" value incident_types);
      ("severity", λ value,
        validate_one_of "severity" value ["critical"; "high"; "medium"; "low"]);
      ("notification_result", λ value,
        validate_one_of "notification_result" value ["sent"; "failed"; "suppressed"; "not_configured"]);
      ("target_year_month", period_check);
      ("format", λ value, validate_one_of "format" value ["json"; "markdown"]);
      ("archive_key", λ value,
        if bool_decide (res = AuditResult_Failure) then invalid_metadata_value "archive_key"
        else validate_short_string "archive_key" value 256);
      ("check_name", λ value, validate_exact_string "check_name" value "mvp_integrity_check");
      ("phase", λ value, validate_exact_string "phase" value "verify");
      ("reason", λ value, validate_exact_string "reason" value "no_current_secret_versions");
      ("violation_summary", summary_check action)]%string.

(** The value of one field passes the check of its key, when the key has one. *)
Definition field_valid (action : AuditAction) (res : AuditResult) (key : str) (value : Value) : Prop :=
  match map_get key (metadata_checks action res) with
  | Some check => check value = Ok tt
  | None => True
  end.

Lemma if_key_Ok object key check :
  if_key object key check = Ok tt ↔ ∀ value, map_get key object = Some value → check value = Ok tt.
Proof. unfold if_key. destruct (map_get key object); naive_solver. Qed.

Lemma metadata_checks_NoDup action res : NoDup (metadata_checks action res).*1.
Proof. apply (bool_decide_unpack _). vm_compute. reflexivity. Qed.

Lemma field_valid_all action res object :
  (∀ k v, map_get k object = Some v → field_valid action res k v) ↔
  Forall (λ p, if_key object p.1 p.2 = Ok tt) (metadata_checks action res).
Proof.
  unfold field_valid. rewrite Forall_forall. split.
  - intros H [k c] Hp. apply if_key_Ok. intros v Hv%H.
    by rewrite (elem_map_get k c _ (metadata_checks_NoDup action res) Hp) in Hv.
  - intros H k v Hv. destruct (map_get k (metadata_checks action res)) as [c|] eqn:E; [|done].
    apply map_get_elem, H in E. rewrite if_key_Ok in E. by apply E.
Qed.

Lemma unit_bind_Ok {E} (m k : result E unit) :
  (_ ← m; k) = Ok tt ↔ m = Ok tt ∧ k = Ok tt.
Proof. rewrite result_bind_Ok. split; [intros ([] & ? & ?); done|]. intros [? ?]. by exists tt. Qed.

Lemma source_event_id_split action object :
  if_key object "source_event_id" (source_event_id_check action) = Ok tt ↔
  if_key object "source_event_id" (λ value,
    text ← ok_or (as_str value) (AuditEventError_InvalidMetadataValue "source_event_id");
    _ ← AuditEventId_parse text !? (λ _, AuditEventError_InvalidMetadataValue "source_event_id");
    Ok tt) = Ok tt
  ∧ (if map_contains_key "source_event_id" object
        && negb (bool_decide (action = AuditAction_IncidentDetected))
     then invalid_metadata_value "source_event_id" else Ok tt) = Ok tt.
Proof.
  unfold if_key, map_contains_key, source_event_id_check, invalid_metadata_value.
  destruct (map_get _ object) as [v|]; [|done]. destruct (as_str v) as [s|]; simpl; [|naive_solver].
  destruct (AuditEventId_parse s); simpl; [|naive_solver]. case_bool_decide; naive_solver.
Qed.

Lemma attempted_split action res object :
  if_key object "attempted_secret_id" (attempted_check action res) = Ok tt ↔
  if_key object "attempted_secret_id" (validate_uuid_v4_value "attempted_secret_id") = Ok tt
  ∧ (if map_contains_key "attempted_secret_id" object
        && negb (bool_decide (action = AuditAction_Decrypt) && bool_decide (res = AuditResult_Failure))
     then invalid_metadata_value "attempted_secret_id" else Ok tt) = Ok tt.
Proof.
  unfold if_key, map_contains_key, attempted_check, invalid_metadata_value.
  destruct (map_get _ object) as [v|]; [|done]. rewrite unit_bind_Ok /=.
  by destruct (bool_decide _ && _).
Qed.

Lemma error_code_check_eq res object :
  if_key object "error_code" (λ value,
    if negb (bool_decide (res = AuditResult_Failure)) then invalid_metadata_value "error_code"
    else validate_short_string "error_code" value 64)
  = if_key object "error_code" (λ value,
      if bool_decide (res = AuditResult_Failure) then validate_short_string "error_code" value 64
      else invalid_metadata_value "error_code").
Proof. by case_bool_decide. Qed.

Lemma validate_u64_value_Ok key value : validate_u64_value key value = Ok tt ↔ is_Some (as_u64 value).
Proof. unfold validate_u64_value. destruct (as_u64 value); simpl; [|by split; [|intros []]]. by split. Qed.

Lemma summary_values_eq action object :
  validate_summary_values action object = Ok tt ↔
  if_key object "violation_summary" (summary_check action) = Ok tt.
Proof.
  unfold validate_summary_values, summary_check, if_key.
  destruct (map_get _ object) as [v|]; case_bool_decide; [|done..].
  destruct (as_object v) as [s|]; [|done]. cbn [ok_or mbind result_bind].
  rewrite !try_for_each_Ok. apply Forall_iff. intros p. by rewrite !validate_u64_value_Ok.
Qed.

Lemma validate_metadata_values_Ok action res object :
  validate_metadata_values action res object = Ok tt ↔
  ∀ k v, map_get k object = Some v → field_valid action res k v.
Proof.
  rewrite field_valid_all. unfold metadata_checks.
  unfold validate_metadata_values, validate_numbers, validate_ids, validate_texts, validate_classes.
  rewrite !unit_bind_Ok summary_values_eq.
  rewrite !Forall_app !Forall_fmap !Forall_cons !Forall_nil.
  cbn [fst snd compose].
  rewrite attempted_split source_event_id_split error_code_check_eq.
  unfold failed_version_check, period_check. tauto.
Qed.
End checks.

(** ** Lemmas *)

Section event_lemmas.
Context {P : Platform}.

(** A field that, when it is there, is the text of a UTC timestamp. *)
Definition source_event_at_valid (object : Map) : Prop :=
  ∀ value, map_get SOURCE_EVENT_AT_KEY object = Some value →
    ∃ t, value = JString (SourceEventAt_as_str t) ∧ SourceEventAt_parse (SourceEventAt_as_str t) = Ok t.

Lemma as_str_Some v s : as_str v = Some s ↔ v = JString s.
Proof. destruct v; naive_solver. Qed.
Lemma as_object_Some v o : as_object v = Some o ↔ v = JObject o.
Proof. destruct v; naive_solver. Qed.

Lemma canonicalize_source_event_at_Ok object o :
  map_sorted object →
  canonicalize_source_event_at object = Ok o ↔ o = object ∧ source_event_at_valid object.
Proof.
  intros Hs. unfold canonicalize_source_event_at, source_event_at_valid. split.
  - destruct (map_get _ object) as [v|] eqn:Hv; [|naive_solver]. intros H. inv_ok.
    select (as_str _ = _) (fun H => apply as_str_Some in H as ->).
    select (SourceEventAt_parse _ = _) (fun H => pose proof H as Hp; apply SourceEventAt_parse_str in H as [Ht _]).
    subst. split; [by apply map_insert_same|]. intros ? [= <-]. eauto.
  - intros [-> Hv]. destruct (map_get _ object) as [v|] eqn:Hg; [|done].
    destruct (Hv _ eq_refl) as (t & -> & Ht). simpl. rewrite Ht /=. by rewrite map_insert_same.
Qed.

Lemma validate_trigger_Ok object :
  validate_trigger object = Ok tt ↔
  ∀ v, map_get TRIGGER_KEY object = Some v → ∃ t, v = JString (AuditTrigger_as_str t).
Proof.
  unfold validate_trigger. rewrite if_key_Ok. split; intros H v Hv.
  - specialize (H v Hv). inv_ok.
    select (as_str _ = _) (fun H => apply as_str_Some in H as ->).
    select (AuditTrigger_parse _ = _) (fun H => apply AuditTrigger_parse_Ok in H as ->). eauto.
  - destruct (H v Hv) as [t ->]. simpl. by rewrite AuditTrigger_parse_as_str.
Qed.

Lemma AuditMetadata_new_sorted object :
  map_sorted object → reject_forbidden_metadata_keys (JObject object) = Ok tt →
  validate_trigger object = Ok tt → source_event_at_valid object →
  AuditMetadata_new (JObject object) = Ok (mk_AuditMetadata (JObject object)).
Proof.
  intros Hs H1 H2 H3. unfold AuditMetadata_new, AuditMetadata_from_object.
  cbn [as_object ok_or mbind result_bind]. rewrite H1. cbn [mbind result_bind]. rewrite H2.
  cbn [mbind result_bind].
  by rewrite (proj2 (canonicalize_source_event_at_Ok object object Hs) (conj eq_refl H3)).
Qed.

Lemma AuditMetadata_new_Ok v m :
  representable v = true →
  AuditMetadata_new v = Ok m ↔
  m = mk_AuditMetadata v ∧ ∃ object, v = JObject object
    ∧ reject_forbidden_metadata_keys (JObject object) = Ok tt
    ∧ validate_trigger object = Ok tt ∧ source_event_at_valid object.
Proof.
  intros Hv. split.
  - unfold AuditMetadata_new, AuditMetadata_from_object. intros H. inv_ok. select (as_object _ = _) (fun H => apply as_object_Some in H as ->).
    apply representable_object in Hv as [Hs _].
    select (canonicalize_source_event_at _ = _) (fun H => apply canonicalize_source_event_at_Ok in H as [-> ?]; [|done]).
    eauto 10.
  - intros (-> & o & -> & H1 & H2 & H3). apply representable_object in Hv as [Hs _].
    by apply AuditMetadata_new_sorted.
Qed.

(** The metadata the constructors return, over a map as [serde_json] keeps it. *)
Definition AuditMetadata_wf (m : AuditMetadata) : Prop :=
  representable (AuditMetadata_as_value m) = true
  ∧ AuditMetadata_new (AuditMetadata_as_value m) = Ok m.

Lemma AuditMetadata_new_wf v m :
  representable v = true → AuditMetadata_new v = Ok m → AuditMetadata_wf m.
Proof. intros Hv H. pose proof H as (-> & _)%AuditMetadata_new_Ok; [|done]. by split. Qed.

Lemma AuditMetadata_source_event_at_Ok object :
  source_event_at_valid object →
  AuditMetadata_source_event_at (mk_AuditMetadata (JObject object)) =
  Ok (v ← map_get SOURCE_EVENT_AT_KEY object; mk_SourceEventAt <$> as_str v).
Proof.
  unfold AuditMetadata_source_event_at, source_event_at_valid. intros H. simpl.
  destruct (map_get _ object) as [v|]; [|done]. destruct (H v eq_refl) as (t & -> & Ht).
  simpl. rewrite Ht. by destruct t.
Qed.

Lemma require_source_event_at_Ok object t :
  require_source_event_at (mk_AuditMetadata (JObject object)) = Ok t ↔
  map_get SOURCE_EVENT_AT_KEY object = Some (JString (SourceEventAt_as_str t))
  ∧ SourceEventAt_parse (SourceEventAt_as_str t) = Ok t.
Proof.
  unfold require_source_event_at, AuditMetadata_source_event_at. simpl. split.
  - intros H. inv_ok. destruct (map_get _ object) as [v|] eqn:Hv; [|by inv_ok]. inv_ok.
    select (as_str _ = _) (fun H => apply as_str_Some in H as ->).
    select (SourceEventAt_parse _ = _) (fun H => pose proof H as Hp; apply SourceEventAt_parse_str in H as [Ht _]).
    by subst.
  - intros [-> Ht]. simpl. by rewrite Ht.
Qed.

Lemma require_key_Ok object key : require_key object key = Ok tt ↔ key ∈ object.*1.
Proof.
  unfold require_key. rewrite -map_contains_key_true. by destruct (map_contains_key key object).
Qed.
Lemma unknown_key_check_Ok allowed key : unknown_key_check allowed key = Ok tt ↔ key ∈ allowed.
Proof. unfold unknown_key_check, str_in. by case_bool_decide. Qed.

Lemma validate_auth_failure_parts_Ok parts :
  validate_auth_failure_parts parts = Ok tt ↔
  ev_actor_user_id parts = None ∧ ev_actor_device_id parts = None
  ∧ ev_target_secret_id parts = None ∧ ev_key_version parts = None.
Proof.
  destruct parts as [? ? [|] [|] ? [|] ? [|] ?]; unfold validate_auth_failure_parts; simpl;
    by [naive_solver|split].
Qed.

(** What the [IntegrityCheck] action asks of the summary: the sixteen counters,
    and nothing else. *)
Definition summary_complete (action : AuditAction) (object : Map) : Prop :=
  action = AuditAction_IntegrityCheck →
  ∃ summary, map_get "violation_summary" object = Some (JObject summary)
    ∧ (∀ k, k ∈ summary.*1 ↔ k ∈ INTEGRITY_CHECK_VIOLATION_SUMMARY_ALLOWLIST).

Lemma summary_checks_Ok action res object :
  check_summary_keys action object = Ok tt
  ∧ validate_required_metadata_keys action res object true = Ok tt ↔
  (∀ k, k ∈ required_metadata_keys action res ∨ k = SOURCE_EVENT_AT_KEY → k ∈ object.*1)
  ∧ summary_complete action object.
Proof.
  unfold check_summary_keys, validate_required_metadata_keys, summary_complete.
  rewrite result_bind_Ok.
  assert (∀ ks, try_for_each (require_key object) ks = Ok tt ↔ ∀ k, k ∈ ks → k ∈ object.*1) as Hreq.
  { intros ks. rewrite try_for_each_Ok Forall_forall. by setoid_rewrite require_key_Ok. }
  case_bool_decide as Ha; [|split].
  - split.
    + intros (Hk & [] & Hr & (summary & Hg%ok_or_Ok & Hn)%result_bind_Ok). rewrite Hreq in Hr.
      destruct (map_get "violation_summary" object) as [v|]; [|done]. cbn [mbind option_bind] in Hg.
      rewrite Hg in Hk. apply as_object_Some in Hg as ->. apply try_for_each_Ok in Hk, Hn.
      rewrite !Forall_forall in Hk Hn. split; [set_solver|]. intros _. eexists. split; [done|].
      intros k. split; [intros H%Hk; by apply unknown_key_check_Ok|intros H%Hn; by apply require_key_Ok].
    + intros (Hr & Hs). destruct (Hs Ha) as (summary & Hg & Hk). rewrite Hg.
      cbn [mbind option_bind as_object ok_or result_bind].
      split; [apply try_for_each_Ok, Forall_forall; intros k ?; by apply unknown_key_check_Ok, Hk|].
      exists tt. split; [apply Hreq; set_solver|].
      apply try_for_each_Ok, Forall_forall. intros k ?. by apply require_key_Ok, Hk.
  - intros (_ & [] & Hr & _). rewrite Hreq in Hr. split; [set_solver|done].
  - intros [Hr _]. split; [done|]. exists tt. split; [apply Hreq; set_solver|done].
Qed.

Lemma validate_allowlist_Ok object action res :
  validate_allowlist_for_action (mk_AuditMetadata (JObject object)) action res = Ok tt ↔
  (∀ k, k ∈ required_metadata_keys action res ∨ k = SOURCE_EVENT_AT_KEY → k ∈ object.*1)
  ∧ (∀ k, k ∈ object.*1 → k ∈ allowed_metadata_keys action res)
  ∧ (∀ k v, map_get k object = Some v → field_valid action res k v)
  ∧ summary_complete action object.
Proof.
  unfold validate_allowlist_for_action. cbn [as_object AuditMetadata_as_value ok_or mbind result_bind].
  rewrite (unit_bind_Ok (check_summary_keys _ _)) (unit_bind_Ok (try_for_each _ _))
    (unit_bind_Ok (validate_required_metadata_keys _ _ _ _)).
  rewrite validate_metadata_values_Ok try_for_each_Ok Forall_forall.
  pose proof (summary_checks_Ok action res object) as Hs.
  setoid_rewrite unknown_key_check_Ok. tauto.
Qed.

(** ** The events [AuditEvent::new] accepts *)

Definition result_allowed (action : AuditAction) (res : AuditResult) : Prop :=
  res = AuditResult_Success →
  AuditAction_is_write_success_only action = false ∧ AuditAction_is_failure_only action = false.

Definition anonymous (parts : AuditEventParts) : Prop :=
  ev_actor_user_id parts = None ∧ ev_actor_device_id parts = None
  ∧ ev_target_secret_id parts = None ∧ ev_key_version parts = None.

Lemma validate_event_parts_Ok parts :
  validate_event_parts parts = Ok tt ↔
  result_allowed (ev_action parts) (ev_result parts)
  ∧ (ev_action parts = AuditAction_AuthFailure → anonymous parts)
  ∧ (∃ t, require_source_event_at (ev_metadata_json parts) = Ok t)
  ∧ validate_allowlist_for_action (ev_metadata_json parts) (ev_action parts) (ev_result parts) = Ok tt.
Proof.
  assert ((if bool_decide (ev_action parts = AuditAction_AuthFailure)
    then validate_auth_failure_parts parts else Ok tt) = Ok tt
    ↔ (ev_action parts = AuditAction_AuthFailure → anonymous parts)) as Hauth.
  { case_bool_decide; [rewrite validate_auth_failure_parts_Ok|]; unfold anonymous; naive_solver. }
  assert (∀ (k : result AuditEventError unit),
    (_ ← require_source_event_at (ev_metadata_json parts); k) = Ok tt ↔
    (∃ t, require_source_event_at (ev_metadata_json parts) = Ok t) ∧ k = Ok tt) as Hreq.
  { intros k. rewrite result_bind_Ok. naive_solver. }
  unfold validate_event_parts, result_allowed. rewrite -Hauth.
  generalize (if bool_decide (ev_action parts = AuditAction_AuthFailure)
    then validate_auth_failure_parts parts else Ok tt). clear Hauth. intros r.
  destruct (AuditAction_is_write_success_only _), (AuditAction_is_failure_only _);
    case_bool_decide; cbn [andb]; rewrite ?(unit_bind_Ok r) ?Hreq; naive_solver.
Qed.

Lemma AuditEvent_new_Ok parts e :
  AuditEvent_new parts = Ok e ↔ e = mk_AuditEvent parts ∧ validate_event_parts parts = Ok tt.
Proof.
  unfold AuditEvent_new. rewrite result_bind_Ok. split; [intros ([] & ? & [= <-]); done|].
  intros [-> ?]. by exists tt.
Qed.
End event_lemmas.

(** ** Properties *)

Section event_theorems.
Context {P : Platform}.

(** Audit metadata is accepted exactly when it is an object in which no key,
    at any depth, is a forbidden one (in any case and with any white space around
    it), whose trigger is one of the three known and whose [source_event_at] is a
    UTC timestamp; what is kept is the object as it was given, and a forbidden
    key is reported by name. *)
Theorem audit_metadata_acceptance v :
  representable v = true →
  (∀ m, AuditMetadata_new v = Ok m ↔
    m = mk_AuditMetadata v
    ∧ (∀ k, key_occurs k v → is_forbidden_metadata_key k = false)
    ∧ ∃ object, v = JObject object ∧ source_event_at_valid object
      ∧ (∀ t, map_get TRIGGER_KEY object = Some t → ∃ trigger, t = JString (AuditTrigger_as_str trigger)))
  ∧ (∀ object k, v = JObject object → key_occurs k v → is_forbidden_metadata_key k = true →
      ∃ k', AuditMetadata_new v = Err (AuditEventError_ForbiddenMetadataKey k')
        ∧ key_occurs k' v ∧ is_forbidden_metadata_key k' = true).
Proof.
  intros Hv. pose proof (reject_keys_spec is_forbidden_metadata_key
    AuditEventError_ForbiddenMetadataKey v) as Hspec.
  change (reject_keys _ _) with reject_forbidden_metadata_keys in Hspec. split.
  - intros m. rewrite AuditMetadata_new_Ok //. setoid_rewrite validate_trigger_Ok.
    destruct (reject_forbidden_metadata_keys v) as [[]|e] eqn:E; cbn [keys_verdict] in Hspec.
    + split; [intros (-> & o & -> & _ & ? & ?); eauto 10|].
      intros (-> & _ & o & -> & ? & ?). eauto 10.
    + destruct Hspec as (k & _ & Hk & Hf). split; [intros (_ & o & -> & ? & _); congruence|].
      intros (_ & Hn & _). by rewrite (Hn k Hk) in Hf.
  - intros object k -> Hk Hf. unfold AuditMetadata_new, AuditMetadata_from_object.
    cbn [as_object ok_or mbind result_bind].
    destruct (reject_forbidden_metadata_keys (JObject object)) as [[]|e]; cbn [keys_verdict] in Hspec.
    + by rewrite Hspec in Hf.
    + destruct Hspec as (k' & -> & ? & ?). eauto.
Qed.
End event_theorems.
