(* ===== verification/AuditSchema.v ===== *)
(** * What an audit event may say ([src/audit/event/{metadata,validation}.rs])

    A description of the metadata of every action, written as a schema: the keys an
    event of the action and result must have, the keys it may have, and the kind of
    the value under each key.  The schema is stated apart from the tables and the
    conditionals of the code; the theorem shows that the two accept the same events. *)

From S2P Require Import Prelude RustStd Json Platform Errors Types AuditTypes Digest AuditEvent.

(** ** The schema *)

Inductive Kind :=
| Count
| Positive
| NullOrPositive
| Text (max_len : Z)
| Hex (len : Z)
| Timestamp
| UuidV4
| AnyUuid
| Month
| OneOf (values : list str)
| Counters (keys : list str)
| Anything.

Definition metadata_kinds : list (str * Kind) :=
  [("source_event_at", Timestamp);
   ("trigger", OneOf ["startup"; "background"; "cli"]);
   ("error_code", Text 64);
   ("duration_ms", Count);
   ("target_year_month", Month);
   (* secrets *)
   ("version", Positive); ("secret_version_id", UuidV4); ("attempted_secret_id", UuidV4);
   (* integrity checks and restore tests *)
   ("check_name", OneOf ["mvp_integrity_check"]);
   ("checked_secret_count", Count); ("checked_secret_version_count", Count); ("checked_audit_event_count", Count);
   ("violation_count", Count);
   ("violation_summary", Counters
     ["current_version_invalid"; "version_invalid"; "retention_exceeded"; "ciphertext_empty";
      "encrypted_data_key_empty"; "nonce_length_invalid"; "algorithm_invalid"; "nonce_duplicate";
      "aad_keys_invalid"; "aad_row_mismatch"; "created_at_mismatch"; "audit_action_invalid";
      "audit_result_invalid"; "audit_metadata_not_object"; "audit_metadata_forbidden_key";
      "audit_source_event_at_invalid"]);
   ("phase", OneOf ["verify"]); ("sample_count", Count); ("failed_version", NullOrPositive);
   ("reason", OneOf ["no_current_secret_versions"]);
   (* keys *)
   ("old_key_version", Positive); ("new_key_version", Positive);
   ("batch_size", Positive); ("processed_count", Count); ("remaining_count", Count);
   ("signature_key_version", Positive); ("public_key_fingerprint", Hex 64);
   ("created_at", Timestamp); ("activated_at", Timestamp); ("retired_at", Timestamp);
   (* digests, archives, reports *)
   ("archive_key", Text 256); ("digest_hash", Anything); ("timestamp_token_hash", Anything);
   ("event_type", Anything); ("event_count", Anything);
   ("format", OneOf ["json"; "markdown"]); ("period_start", Timestamp); ("period_end", Timestamp);
   ("endpoint", Text 128); ("method", OneOf ["GET"]); ("resource", Text 128); ("result_count", Count);
   ("start_sequence_no", Positive); ("end_sequence_no", Positive);
   ("job_name", Text 96);
   (* incidents *)
   ("incident_type", OneOf
     ["hash_chain_mismatch"; "signature_mismatch"; "monthly_digest_mismatch"; "digest_timestamping_mismatch";
      "archive_export_mismatch"; "sequence_gap"; "unknown_signature_key"; "non_auditor_ledger_read";
      "ledger_secret_leak_suspected"; "siem_long_failure"; "audit_ui_forbidden_operation"]);
   ("severity", OneOf ["critical"; "high"; "medium"; "low"]);
   ("detection_source", Text 128); ("dedupe_key", Text 128); ("notification_sink", Text 128);
   ("notification_result", OneOf ["sent"; "failed"; "suppressed"; "not_configured"]);
   ("source_event_id", AnyUuid); ("target_sequence_no", Positive);
   (* aliases *)
   ("alias_fingerprint", Hex 64); ("old_alias_fingerprint", Hex 64); ("new_alias_fingerprint", Hex 64);
   ("alias_fingerprint_key_version", Positive); ("alias_fingerprint_schema_version", Positive)]%string.

(** The keys an event must have, besides [source_event_at], and those it may have. *)
Definition metadata_schema (action : AuditAction) (res : AuditResult) : list str * list str :=
  let failure (l : list str) := match res with AuditResult_Failure => l | AuditResult_Success => [] end in
  let success (l : list str) := match res with AuditResult_Success => l | AuditResult_Failure => [] end in
  match action with
  | AuditAction_EncryptCreate | AuditAction_EncryptRotate | AuditAction_VersionPurge =>
      (["version"; "secret_version_id"], [])
  | AuditAction_Decrypt => ([], failure ["attempted_secret_id"])
  | AuditAction_IntegrityCheck =>
      (["check_name"; "checked_secret_count"; "checked_secret_version_count"; "checked_audit_event_count";
        "duration_ms"; "violation_count"; "violation_summary"; "trigger"], failure ["error_code"])
  | AuditAction_RestoreTest =>
      (["phase"; "sample_count"; "trigger"; "duration_ms"], "reason" :: failure ["error_code"; "failed_version"])
  | AuditAction_AuthFailure => (["error_code"], [])
  | AuditAction_KeyRotationStart => (["old_key_version"; "new_key_version"], [])
  | AuditAction_KeyRotationReencrypt =>
      (["old_key_version"; "new_key_version"; "batch_size"; "processed_count"; "remaining_count"], [])
  | AuditAction_KeyRotationComplete => (["old_key_version"; "new_key_version"; "remaining_count"], [])
  | AuditAction_SignatureKeyCreated => (["signature_key_version"; "public_key_fingerprint"; "created_at"], [])
  | AuditAction_SignatureKeyActivated => (["signature_key_version"; "public_key_fingerprint"; "activated_at"], [])
  | AuditAction_SignatureKeyRetired => (["signature_key_version"; "public_key_fingerprint"; "retired_at"], [])
  | AuditAction_MonthlyDigestGenerate | AuditAction_MonthlyDigestVerify =>
      ([], "target_year_month" :: failure ["error_code"])
  | AuditAction_ArchiveExport =>
      (["target_year_month"], ("digest_hash" :: success ["archive_key"] ++ failure ["error_code"])%list)
  | AuditAction_DigestTimestamping =>
      (["target_year_month"], "digest_hash" :: "timestamp_token_hash" :: failure ["error_code"])
  | AuditAction_SiemForwardFailure => (["error_code"], ["event_type"; "event_count"])
  | AuditAction_AuditReportGenerate => (["format"; "period_start"; "period_end"], failure ["error_code"])
  | AuditAction_AuditUiRead =>
      (["endpoint"; "method"; "resource"],
       (["result_count"; "period_start"; "period_end"; "start_sequence_no"; "end_sequence_no"; "target_year_month"]
        ++ failure ["error_code"])%list)
  | AuditAction_SchedulerJob => (["job_name"; "trigger"; "duration_ms"], "target_year_month" :: failure ["error_code"])
  | AuditAction_IncidentDetected =>
      (["incident_type"; "severity"; "detection_source"; "dedupe_key"; "notification_sink"; "notification_result";
        "error_code"], ["source_event_id"; "target_sequence_no"; "target_year_month"])
  | AuditAction_SecretAliasCreate | AuditAction_SecretAliasDelete =>
      let fields := ["alias_fingerprint"; "alias_fingerprint_key_version"; "alias_fingerprint_schema_version"] in
      (success fields, failure ("error_code" :: fields))
  | AuditAction_SecretAliasUpdate =>
      let fields := ["old_alias_fingerprint"; "new_alias_fingerprint"; "alias_fingerprint_key_version";
                     "alias_fingerprint_schema_version"] in
      (success fields, failure ("error_code" :: fields))
  | AuditAction_SecretAliasList => (success ["result_count"], failure ["error_code"; "result_count"])
  end%string.
Definition schema_required (action : AuditAction) (res : AuditResult) : list str :=
  "source_event_at"%string :: (metadata_schema action res).1.
Definition schema_keys (action : AuditAction) (res : AuditResult) : list str :=
  schema_required action res ++ (metadata_schema action res).2.

(** Writes that succeeded are recorded with the write itself, and some actions are
    failures by nature. *)
Definition result_possible (action : AuditAction) (res : AuditResult) : Prop :=
  res = AuditResult_Success →
  action ∉ [AuditAction_EncryptCreate; AuditAction_EncryptRotate; AuditAction_VersionPurge;
            AuditAction_AuthFailure; AuditAction_SiemForwardFailure; AuditAction_IncidentDetected].

Section schema.
Context {P : Platform}.

Definition lower_hex (c : ascii) : Prop := is_ascii_hexdigit c = true ∧ is_ascii_uppercase c = false.
Definition is_count (v : Value) : Prop := ∃ n, v = json_uint n.

Definition kind_holds (kind : Kind) (v : Value) : Prop :=
  match kind with
  | Count => is_count v
  | Positive => ∃ n, v = json_uint n ∧ n ≠ 0
  | NullOrPositive => v = JNull ∨ ∃ n, v = json_uint n ∧ n ≠ 0
  | Text max_len => ∃ s, v = JString s ∧ trim s ≠ EmptyString ∧ str_len s ≤ max_len
  | Hex len => ∃ s, v = JString s ∧ str_len s = len ∧ Forall lower_hex (chars s)
  | Timestamp => ∃ t, v = JString (SourceEventAt_as_str t) ∧ SourceEventAt_parse (SourceEventAt_as_str t) = Ok t
  | UuidV4 => ∃ s u, v = JString s ∧ uuid_parse_str s = Some u ∧ uuid_get_version u = Some VersionRandom
  | AnyUuid => ∃ s u, v = JString s ∧ uuid_parse_str s = Some u
  | Month => ∃ s period, v = JString s ∧ MonthlyDigestPeriod_parse s = Ok period
  | OneOf values => ∃ s, v = JString s ∧ s ∈ values
  | Counters keys => ∃ summary, v = JObject summary ∧ (∀ k, k ∈ summary.*1 ↔ k ∈ keys) ∧ Forall is_count summary.*2
  | Anything => True
  end.

(** An object conforms when it has the keys it must have, and every key it has is in the
    schema with a value of its kind. *)
Definition conforms (action : AuditAction) (res : AuditResult) (object : Map) : Prop :=
  (∀ k, k ∈ schema_required action res → is_Some (map_get k object))
  ∧ ∀ k v, map_get k object = Some v →
      k ∈ schema_keys action res ∧ ∃ kind, map_get k metadata_kinds = Some kind ∧ kind_holds kind v.

(** ** The checks of the code against the kinds *)

Lemma check_count key v : validate_u64_value key v = Ok tt ↔ kind_holds Count v.
Proof.
  rewrite validate_u64_value_Ok. cbn. unfold is_count.
  destruct v as [| |[n|n|t]| | |]; split; try (by intros [? [=]]); try (by intros [n' [=]]); by eexists.
Qed.
Lemma check_positive key v : validate_positive_u64_value key v = Ok tt ↔ kind_holds Positive v.
Proof.
  unfold validate_positive_u64_value, invalid_metadata_value. cbn.
  destruct v as [| |[n|n|t]| | |]; cbn; try (split; [done|]; by intros (n' & [=] & _)).
  destruct (Z.eqb_spec n 0) as [->|Hn]; split; try done; [by intros (n' & [= <-] & ?)|]. intros _. by eexists.
Qed.
Lemma check_text key max_len v : validate_short_string key v max_len = Ok tt ↔ kind_holds (Text max_len) v.
Proof.
  unfold validate_short_string, invalid_metadata_value. cbn.
  destruct v as [| | |s| |]; cbn; try (split; [done|]; by intros (s' & [=] & _)).
  destruct (is_empty (trim s)) eqn:He; cbn.
  { split; [done|]. intros (s' & [= <-] & Hne & _). by apply is_empty_false in Hne; rewrite Hne in He. }
  apply is_empty_false in He. destruct (Z.ltb_spec max_len (str_len s)); split; try done.
  - intros (s' & [= <-] & _ & ?). lia.
  - intros _. by exists s.
Qed.
Lemma check_hex key len v : validate_hex_string key v len = Ok tt ↔ kind_holds (Hex len) v.
Proof.
  unfold validate_hex_string, invalid_metadata_value. cbn.
  destruct v as [| | |s| |]; cbn; try (split; [done|]; by intros (s' & [=] & _)).
  assert (forallb (λ c, is_ascii_hexdigit c && negb (is_ascii_uppercase c)) (chars s) = true
    ↔ Forall lower_hex (chars s)) as Hf.
  { rewrite forallb_forall Forall_forall. unfold lower_hex. setoid_rewrite andb_true_iff. setoid_rewrite negb_true_iff.
    split; intros H c Hc; apply H; by apply list_elem_of_In. }
  destruct (Z.eqb_spec (str_len s) len) as [Hl|Hl]; cbn.
  - destruct (forallb _ (chars s)) eqn:E; cbn; split; try done.
    + intros _. exists s. split_and!; try done. by apply Hf.
    + intros (s' & [= <-] & _ & H). apply Hf in H. congruence.
  - split; [done|]. intros (s' & [= <-] & ? & _). congruence.
Qed.
Lemma check_one_of key values v : validate_one_of key v values = Ok tt ↔ kind_holds (OneOf values) v.
Proof.
  unfold validate_one_of, invalid_metadata_value, str_in. cbn.
  destruct v as [| | |s| |]; cbn; try (split; [done|]; by intros (s' & [=] & _)).
  case_bool_decide; cbn; split; try done; [by eexists|by intros (s' & [= <-] & ?)].
Qed.
Lemma check_exact key expected v : validate_exact_string key v expected = Ok tt ↔ kind_holds (OneOf [expected]) v.
Proof.
  unfold validate_exact_string, invalid_metadata_value. cbn.
  destruct v as [| | |s| |]; cbn; try (split; [done|]; by intros (s' & [=] & _)).
  destruct (String.eqb_spec s expected) as [->|Hn]; cbn; split; try done.
  - intros _. eexists. split; [done|]. by left.
  - intros (s' & [= <-] & H). by apply list_elem_of_singleton in H.
Qed.
Lemma check_timestamp key v : validate_timestamp_value key v = Ok tt ↔ kind_holds Timestamp v.
Proof.
  unfold validate_timestamp_value. cbn.
  destruct v as [| | |s| |]; cbn; try (split; [done|]; by intros (t & [=] & _)).
  destruct (SourceEventAt_parse s) as [t|e] eqn:E; cbn; split; try done.
  - intros _. exists t. by destruct (SourceEventAt_parse_str _ _ E) as [-> _].
  - intros (t & [= ->] & ?). congruence.
Qed.
Lemma check_uuid key v : validate_uuid_v4_value key v = Ok tt ↔ kind_holds UuidV4 v.
Proof.
  unfold validate_uuid_v4_value, SecretVersionId_parse. cbn.
  destruct v as [| | |s| |]; cbn; try (split; [done|]; by intros (s' & u & [=] & _)).
  destruct (parse_uuid_v4 _ s) as [u|e] eqn:E; cbn; split; try done.
  - intros _. apply parse_uuid_v4_Ok in E as [? ?]. by exists s, u.
  - intros (s' & u & [= <-] & H1 & H2). by rewrite (proj2 (parse_uuid_v4_Ok _ _ _) (conj H1 H2)) in E.
Qed.
Lemma check_period v : period_check v = Ok tt ↔ kind_holds Month v.
Proof.
  unfold period_check. cbn. destruct v as [| | |s| |]; cbn; try (split; [done|]; by intros (s' & u & [=] & _)).
  destruct (MonthlyDigestPeriod_parse s) as [p|e] eqn:E; cbn; split; try done.
  - intros _. by exists s, p.
  - intros (s' & p & [= <-] & ?). congruence.
Qed.

(** The keys whose check also looks at the action or the result. *)
Definition applicable (action : AuditAction) (res : AuditResult) (key : str) : bool :=
  if str_in key ["error_code"; "failed_version"] then bool_decide (res = AuditResult_Failure)
  else if String.eqb key "archive_key" then bool_decide (res = AuditResult_Success)
  else if String.eqb key "attempted_secret_id"
  then bool_decide (action = AuditAction_Decrypt) && bool_decide (res = AuditResult_Failure)
  else if String.eqb key "source_event_id" then bool_decide (action = AuditAction_IncidentDetected)
  else true.

(** Keys that are checked elsewhere. *)
Definition checked_elsewhere : list str := ["source_event_at"; "trigger"; "violation_summary"]%string.

Lemma check_failed_version res v :
  failed_version_check res v = Ok tt ↔ res = AuditResult_Failure ∧ kind_holds NullOrPositive v.
Proof.
  unfold failed_version_check. rewrite unit_bind_Ok.
  assert ((if negb (is_null v) then validate_positive_u64_value "failed_version" v else Ok tt) = Ok tt
    ↔ kind_holds NullOrPositive v) as ->.
  { destruct (is_null v) eqn:Hn; cbn [negb].
    - destruct v; try done. split; [by left|done].
    - rewrite check_positive. cbn. split; [by right|]. intros [->|?]; done. }
  unfold invalid_metadata_value. destruct res; cbn; naive_solver.
Qed.
Lemma check_source_event_id action v :
  source_event_id_check action v = Ok tt ↔ action = AuditAction_IncidentDetected ∧ kind_holds AnyUuid v.
Proof.
  unfold source_event_id_check, AuditEventId_parse, invalid_metadata_value. cbn.
  destruct v as [| | |s| |]; cbn; try (split; [done|]; by intros (_ & s' & u & [=] & _)).
  destruct (uuid_parse_str s) as [u|] eqn:E; cbn.
  - case_bool_decide; split; try done; [intros _; split; [done|]; by exists s, u|by intros [? _]].
  - split; [done|]. intros (_ & s' & u & [= <-] & ?). congruence.
Qed.

Lemma check_error_code res v :
  (if bool_decide (res = AuditResult_Failure) then validate_short_string "error_code" v 64
   else invalid_metadata_value "error_code") = Ok tt ↔ res = AuditResult_Failure ∧ kind_holds (Text 64) v.
Proof. rewrite -(check_text "error_code"). unfold invalid_metadata_value. destruct res; cbn [bool_decide]; naive_solver. Qed.
Lemma check_archive_key res v :
  (if bool_decide (res = AuditResult_Failure) then invalid_metadata_value "archive_key"
   else validate_short_string "archive_key" v 256) = Ok tt ↔ res = AuditResult_Success ∧ kind_holds (Text 256) v.
Proof. rewrite -(check_text "archive_key"). unfold invalid_metadata_value. destruct res; naive_solver. Qed.
Lemma check_attempted action res v :
  attempted_check action res v = Ok tt ↔
  (action = AuditAction_Decrypt ∧ res = AuditResult_Failure) ∧ kind_holds UuidV4 v.
Proof.
  unfold attempted_check, invalid_metadata_value. rewrite unit_bind_Ok check_uuid.
  repeat case_bool_decide; cbn [andb]; naive_solver.
Qed.
End schema.

(** A value passes the check of its key exactly when the key is one for the action and
    the result, and the value is of the key's kind. *)
Ltac plain_kind :=
  first [apply check_count|apply check_positive|apply check_text|apply check_hex|apply check_one_of|apply check_exact
        |apply check_timestamp|apply check_uuid|apply check_period|by split].
Ltac kind_case :=
  unfold field_valid;
  lazymatch goal with |- context [map_get ?k ?m] =>
    let r := eval hnf in (map_get k m) in change (map_get k m) with r end;
  cbv beta iota;
  lazymatch goal with |- _ ↔ applicable ?a ?r ?k = true ∧ ?Q =>
    first
    [ change (applicable a r k) with true; trans Q; [plain_kind|tauto]
    | change (applicable a r k) with (bool_decide (r = AuditResult_Failure)); rewrite bool_decide_eq_true;
      first [apply check_error_code|apply check_failed_version]
    | change (applicable a r k) with (bool_decide (r = AuditResult_Success)); rewrite bool_decide_eq_true;
      apply check_archive_key
    | change (applicable a r k) with (bool_decide (a = AuditAction_IncidentDetected)); rewrite bool_decide_eq_true;
      apply check_source_event_id
    | change (applicable a r k) with (bool_decide (a = AuditAction_Decrypt) && bool_decide (r = AuditResult_Failure));
      rewrite andb_true_iff !bool_decide_eq_true; apply check_attempted ]
  end.

Section acceptance.
Context {P : Platform}.

Lemma field_kind k kind action res v :
  (k, kind) ∈ metadata_kinds → k ∉ checked_elsewhere →
  field_valid action res k v ↔ applicable action res k = true ∧ kind_holds kind v.
Proof.
  intros Hin Hne. unfold metadata_kinds in Hin.
  repeat (apply elem_of_cons in Hin as [[= -> ->]|Hin];
    [first [exfalso; apply Hne; by apply (bool_decide_unpack _)|kind_case]|]).
  by apply not_elem_of_nil in Hin.
Qed.

(** ** The tables of the code against the schema *)

Definition same_keys (l1 l2 : list str) : bool := forallb (λ k, str_in k l2) l1 && forallb (λ k, str_in k l1) l2.
Lemma same_keys_elem l1 l2 k : same_keys l1 l2 = true → k ∈ l1 ↔ k ∈ l2.
Proof.
  unfold same_keys, str_in. rewrite andb_true_iff !forallb_forall. setoid_rewrite <- list_elem_of_In.
  setoid_rewrite bool_decide_eq_true. naive_solver.
Qed.

Lemma result_allowed_possible action res : result_allowed action res ↔ result_possible action res.
Proof.
  unfold result_allowed, result_possible.
  destruct res; [|naive_solver]. destruct action; cbn; (split; intros H _; specialize (H eq_refl)); set_solver.
Qed.
Lemma required_tables action res :
  same_keys (SOURCE_EVENT_AT_KEY :: required_metadata_keys action res) (schema_required action res) = true.
Proof. by destruct action, res. Qed.
Lemma allowed_tables action res :
  result_possible action res →
  same_keys (filter (λ k, applicable action res k = true) (allowed_metadata_keys action res)) (schema_keys action res) = true.
Proof.
  intros Hr. destruct action, res; try reflexivity; exfalso; apply (Hr eq_refl); by apply (bool_decide_unpack _).
Qed.
Lemma allowed_have_kinds action res k :
  k ∈ allowed_metadata_keys action res → ∃ kind, map_get k metadata_kinds = Some kind.
Proof.
  intros Hk. assert (forallb (λ k, map_contains_key k metadata_kinds) (allowed_metadata_keys action res) = true) as H
    by (by destruct action, res).
  rewrite forallb_forall in H. apply list_elem_of_In, H in Hk. unfold map_contains_key in Hk.
  destruct (map_get k metadata_kinds); [by eexists|done].
Qed.
Lemma summary_key action res : "violation_summary"%string ∈ schema_keys action res → action = AuditAction_IntegrityCheck.
Proof. intros H. apply (bool_decide_pack _) in H. by destruct action, res. Qed.

(** The kinds of the keys that are checked elsewhere. *)
Lemma summary_kind action res v :
  action = AuditAction_IntegrityCheck →
  (∀ object, map_get "violation_summary" object = Some v →
     field_valid action res "violation_summary" v ∧ summary_complete action object
     ↔ ∃ kind, map_get "violation_summary"%string metadata_kinds = Some kind ∧ kind_holds kind v).
Proof.
  intros -> object Hv. unfold field_valid, summary_complete. rewrite Hv.
  change (map_get "violation_summary" (metadata_checks AuditAction_IntegrityCheck res))
    with (Some (summary_check AuditAction_IntegrityCheck)). cbn [summary_check].
  unfold summary_check. rewrite bool_decide_eq_true_2 //.
  assert (∀ summary : Map, try_for_each (λ p, validate_u64_value "violation_summary" p.2) summary = Ok tt
    ↔ Forall is_count summary.*2) as Hc.
  { intros summary. rewrite try_for_each_Ok Forall_fmap. apply Forall_iff. intros p. apply check_count. }
  split.
  - intros [H1 H2]. destruct (H2 eq_refl) as (summary & [= ->] & Hk). eexists. split; [reflexivity|].
    exists summary. split_and!; [done|exact Hk|]. by apply Hc.
  - intros (kind & [= <-] & summary & -> & Hk & Hn). cbn [as_object ok_or mbind result_bind].
    split; [by apply Hc|]. intros _. by exists summary.
Qed.

Lemma conforms_iff action res object :
  result_possible action res → validate_trigger object = Ok tt →
  ((∃ t, map_get SOURCE_EVENT_AT_KEY object = Some (JString (SourceEventAt_as_str t))
      ∧ SourceEventAt_parse (SourceEventAt_as_str t) = Ok t)
   ∧ (∀ k, k ∈ required_metadata_keys action res ∨ k = SOURCE_EVENT_AT_KEY → k ∈ object.*1)
   ∧ (∀ k, k ∈ object.*1 → k ∈ allowed_metadata_keys action res)
   ∧ (∀ k v, map_get k object = Some v → field_valid action res k v)
   ∧ summary_complete action object)
  ↔ conforms action res object.
Proof.
  intros Hr Htr.
  assert (∀ k, k ∈ object.*1 ↔ is_Some (map_get k object)) as Hkeys.
  { intros k. rewrite -map_contains_key_true. unfold map_contains_key. destruct (map_get k object); by split. }
  assert (∀ k, k = SOURCE_EVENT_AT_KEY ∨ k ∈ required_metadata_keys action res ↔ k ∈ schema_required action res) as Hreq.
  { intros k. by rewrite -(same_keys_elem _ _ k (required_tables action res)) (elem_of_cons (required_metadata_keys _ _)). }
  pose proof (λ k, same_keys_elem _ _ k (allowed_tables action res Hr)) as Hall. setoid_rewrite list_elem_of_filter in Hall.
  rewrite validate_trigger_Ok in Htr.
  assert (∀ v, map_get TRIGGER_KEY object = Some v → kind_holds (OneOf ["startup"; "background"; "cli"]%string) v) as Htrigger.
  { intros v Hv. destruct (Htr v Hv) as [t ->]. eexists. split; [done|]. destruct t; by apply (bool_decide_unpack _). }
  split.
  - intros ((t & Ht & Hp) & H1 & H2 & H3 & H4). split.
    { intros k Hk. apply Hkeys, H1. rewrite -Hreq in Hk. naive_solver. }
    intros k v Hv. assert (k ∈ allowed_metadata_keys action res) as Hk by (apply H2, Hkeys; by eexists).
    destruct (allowed_have_kinds _ _ _ Hk) as [kind Hkind]. specialize (H3 k v Hv).
    rewrite -Hall. destruct (decide (k ∈ checked_elsewhere)) as [Hc|Hc].
    + unfold checked_elsewhere in Hc. repeat (apply elem_of_cons in Hc as [->|Hc]); [..|by apply not_elem_of_nil in Hc].
      * split; [done|]. eexists. split; [reflexivity|]. exists t. split; [|done]. unfold SOURCE_EVENT_AT_KEY in Ht. congruence.
      * split; [done|]. eexists. split; [reflexivity|]. by apply Htrigger.
      * split; [done|]. apply (summary_kind action res v) with (object := object); [|done|by split].
        eapply summary_key, Hall. by split.
    + destruct (proj1 (field_kind k kind action res v (map_get_elem _ _ _ Hkind) Hc) H3) as [Ha Hh].
      split; [by split|]. by exists kind.
  - intros [H1 H2].
    assert (∀ k v, map_get k object = Some v → k ∈ allowed_metadata_keys action res ∧ applicable action res k = true) as Hin.
    { intros k v Hv. destruct (H2 k v Hv) as [Hk _]. apply Hall in Hk. naive_solver. }
    split_and!.
    + destruct (H1 SOURCE_EVENT_AT_KEY) as [v Hv]; [apply Hreq; by left|].
      destruct (H2 _ _ Hv) as (_ & kind & [= <-] & t & -> & Ht). by exists t.
    + intros k Hk. apply Hkeys, H1, Hreq. naive_solver.
    + intros k [v Hv]%Hkeys. by apply Hin in Hv as [? _].
    + intros k v Hv. destruct (H2 k v Hv) as (Hk & kind & Hkind & Hh). destruct (Hin k v Hv) as [_ Ha].
      destruct (decide (k ∈ checked_elsewhere)) as [Hc|Hc];
        [|by apply (field_kind k kind); [apply map_get_elem| |split]].
      unfold checked_elsewhere in Hc. repeat (apply elem_of_cons in Hc as [->|Hc]); [done|done| |by apply not_elem_of_nil in Hc].
      apply (summary_kind action res v) with (object := object); [by eapply summary_key|done|eauto].
    + intros Ha. destruct (H1 "violation_summary"%string) as [v Hv].
      { rewrite Ha. destruct res; by apply (bool_decide_unpack _). }
      destruct (H2 _ _ Hv) as [Hk Hkind]. by apply (summary_kind action res v) with (object := object).
Qed.

(** ** Properties *)

(** C33. An audit event over checked metadata is accepted exactly when its result is one the
    action can have, an authentication failure names nobody, and its metadata conforms
    to the schema of the action and the result: it has every key it must have, and
    every key it has is one of the schema with a value of that key's kind.  The schema
    says of [digest_timestamping] what the code does and not what its comment says: a
    failure may carry [timestamp_token_hash] too, and its value is not checked. *)
Theorem audit_event_acceptance parts e :
  AuditMetadata_wf (ev_metadata_json parts) →
  AuditEvent_new parts = Ok e ↔
  e = mk_AuditEvent parts
  ∧ result_possible (ev_action parts) (ev_result parts)
  ∧ (ev_action parts = AuditAction_AuthFailure → anonymous parts)
  ∧ ∃ object, AuditMetadata_as_value (ev_metadata_json parts) = JObject object
      ∧ conforms (ev_action parts) (ev_result parts) object.
Proof.
  intros [Hrep (_ & object & Hm & _ & Htr & _)%AuditMetadata_new_Ok]; [|done].
  assert (ev_metadata_json parts = mk_AuditMetadata (JObject object)) as Hj by (destruct (ev_metadata_json parts); by f_equal).
  rewrite AuditEvent_new_Ok validate_event_parts_Ok Hj validate_allowlist_Ok result_allowed_possible.
  setoid_rewrite require_source_event_at_Ok. cbn [AuditMetadata_as_value].
  split.
  - intros (-> & Hr & Ha & Ht & Hrest). split; [done|]. split; [done|]. split; [done|]. exists object. split; [done|].
    apply conforms_iff; [done..|exact (conj Ht Hrest)].
  - intros (-> & Hr & Ha & object' & [= <-] & Hc). apply conforms_iff in Hc as [Ht Hrest]; [|done..].
    exact (conj eq_refl (conj Hr (conj Ha (conj Ht Hrest)))).
Qed.
End acceptance.
