(* ===== verification/AuditBuilders.v ===== *)
(** * Builders of audit metadata ([src/audit/event/metadata/builders.rs])

    One typed builder per action: the fields it was given become the keys of the
    object, and [build] validates it as any other metadata.  A map is filled by
    inserting the fields in the order of the source; an optional field is
    inserted when it is there.  [fields_accepted] reduces the acceptance of a
    built object to a check of each of its fields. *)

From S2P Require Import Prelude RustStd Json Platform Reference Errors Types AuditTypes LedgerTypes LedgerPayload LedgerEntry LedgerChain LedgerRpc Alias Digest Files Archive AuditEvent.

(** [if let Some(value) = ... { object.insert(key, value) }]. *)
Definition opt_field (key : str) (value : option Value) : Map :=
  match value with Some value => [(key, value)] | None => [] end.

Section builders.
Context {P : Platform}.

Definition json_time (t : SourceEventAt) : Value := JString (SourceEventAt_as_str t).

(** [AuditMetadata::new(Value::Object(object))] on the object of these fields. *)
Definition build_object (fields : Map) : result AuditEventError AuditMetadata :=
  AuditMetadata_new (JObject (map_of_list fields)).

(** ** Writes: [encrypt_create], [encrypt_rotate], [version_purge] *)

Record EncryptCreateMetadata := mk_EncryptCreateMetadata {
  ecm_version : SecretVersion;
  ecm_secret_version_id : SecretVersionId;
  ecm_source_event_at : option SourceEventAt;
}.
Definition EncryptCreateMetadata_new (version : SecretVersion) (secret_version_id : SecretVersionId) : EncryptCreateMetadata :=
  mk_EncryptCreateMetadata version secret_version_id None.
Definition EncryptCreateMetadata_with_source_event_at (b : EncryptCreateMetadata) (source_event_at : SourceEventAt) : EncryptCreateMetadata :=
  mk_EncryptCreateMetadata (ecm_version b) (ecm_secret_version_id b) (Some source_event_at).
Definition EncryptCreateMetadata_build (b : EncryptCreateMetadata) : result AuditEventError AuditMetadata :=
  build_object (
    [("version", json_uint (SecretVersion_get (ecm_version b)));
     ("secret_version_id", JString (SecretVersionId_as_canonical_string (ecm_secret_version_id b)))]%string
    ++ opt_field SOURCE_EVENT_AT_KEY (json_time <$> ecm_source_event_at b)).

Record EncryptRotateMetadata := mk_EncryptRotateMetadata {
  erm_version : SecretVersion;
  erm_secret_version_id : SecretVersionId;
  erm_source_event_at : option SourceEventAt;
}.
Definition EncryptRotateMetadata_new (version : SecretVersion) (secret_version_id : SecretVersionId) : EncryptRotateMetadata :=
  mk_EncryptRotateMetadata version secret_version_id None.
Definition EncryptRotateMetadata_with_source_event_at (b : EncryptRotateMetadata) (source_event_at : SourceEventAt) : EncryptRotateMetadata :=
  mk_EncryptRotateMetadata (erm_version b) (erm_secret_version_id b) (Some source_event_at).
Definition EncryptRotateMetadata_build (b : EncryptRotateMetadata) : result AuditEventError AuditMetadata :=
  build_object (
    [("version", json_uint (SecretVersion_get (erm_version b)));
     ("secret_version_id", JString (SecretVersionId_as_canonical_string (erm_secret_version_id b)))]%string
    ++ opt_field SOURCE_EVENT_AT_KEY (json_time <$> erm_source_event_at b)).

Record VersionPurgeMetadata := mk_VersionPurgeMetadata {
  vpm_version : SecretVersion;
  vpm_secret_version_id : SecretVersionId;
  vpm_source_event_at : option SourceEventAt;
}.
Definition VersionPurgeMetadata_new (version : SecretVersion) (secret_version_id : SecretVersionId) : VersionPurgeMetadata :=
  mk_VersionPurgeMetadata version secret_version_id None.
Definition VersionPurgeMetadata_with_source_event_at (b : VersionPurgeMetadata) (source_event_at : SourceEventAt) : VersionPurgeMetadata :=
  mk_VersionPurgeMetadata (vpm_version b) (vpm_secret_version_id b) (Some source_event_at).
Definition VersionPurgeMetadata_build (b : VersionPurgeMetadata) : result AuditEventError AuditMetadata :=
  build_object (
    [("version", json_uint (SecretVersion_get (vpm_version b)));
     ("secret_version_id", JString (SecretVersionId_as_canonical_string (vpm_secret_version_id b)))]%string
    ++ opt_field SOURCE_EVENT_AT_KEY (json_time <$> vpm_source_event_at b)).

(** ** Reads: [decrypt], [auth_failure] *)

Record DecryptMetadata := mk_DecryptMetadata {
  dm_attempted_secret_id : option SecretId;
  dm_source_event_at : option SourceEventAt;
}.
Definition DecryptMetadata_success : DecryptMetadata := mk_DecryptMetadata None None.
Definition DecryptMetadata_failure : DecryptMetadata := mk_DecryptMetadata None None.
Definition DecryptMetadata_with_attempted_secret_id (b : DecryptMetadata) (secret_id : SecretId) :
    DecryptMetadata := mk_DecryptMetadata (Some secret_id) (dm_source_event_at b).
Definition DecryptMetadata_with_source_event_at (b : DecryptMetadata) (source_event_at : SourceEventAt) :
    DecryptMetadata := mk_DecryptMetadata (dm_attempted_secret_id b) (Some source_event_at).
Definition DecryptMetadata_build (b : DecryptMetadata) : result AuditEventError AuditMetadata :=
  build_object (
    opt_field "attempted_secret_id"
      ((JString ∘ SecretId_as_canonical_string) <$> dm_attempted_secret_id b)
    ++ opt_field SOURCE_EVENT_AT_KEY (json_time <$> dm_source_event_at b)).

Record AuthFailureMetadata := mk_AuthFailureMetadata {
  afm_error_code : str;
  afm_source_event_at : option SourceEventAt;
}.
Definition AuthFailureMetadata_new (error_code : str) : AuthFailureMetadata :=
  mk_AuthFailureMetadata error_code None.
Definition AuthFailureMetadata_with_source_event_at (b : AuthFailureMetadata)
    (source_event_at : SourceEventAt) : AuthFailureMetadata :=
  mk_AuthFailureMetadata (afm_error_code b) (Some source_event_at).
Definition AuthFailureMetadata_build (b : AuthFailureMetadata) : result AuditEventError AuditMetadata :=
  build_object (("error_code"%string, JString (afm_error_code b))
    :: opt_field SOURCE_EVENT_AT_KEY (json_time <$> afm_source_event_at b)).

(** ** Key rotation *)

Record KeyRotationStartMetadata := mk_KeyRotationStartMetadata {
  krs_old_key_version : KeyVersion;
  krs_new_key_version : KeyVersion;
  krs_source_event_at : option SourceEventAt;
}.
Definition KeyRotationStartMetadata_new (old_key_version new_key_version : KeyVersion) :
    KeyRotationStartMetadata := mk_KeyRotationStartMetadata old_key_version new_key_version None.
Definition KeyRotationStartMetadata_with_source_event_at (b : KeyRotationStartMetadata)
    (source_event_at : SourceEventAt) : KeyRotationStartMetadata :=
  mk_KeyRotationStartMetadata (krs_old_key_version b) (krs_new_key_version b) (Some source_event_at).
Definition KeyRotationStartMetadata_build (b : KeyRotationStartMetadata) :
    result AuditEventError AuditMetadata :=
  build_object (
    [("old_key_version", json_uint (KeyVersion_get (krs_old_key_version b)));
     ("new_key_version", json_uint (KeyVersion_get (krs_new_key_version b)))]%string
    ++ opt_field SOURCE_EVENT_AT_KEY (json_time <$> krs_source_event_at b)).

Record KeyRotationReencryptMetadata := mk_KeyRotationReencryptMetadata {
  krr_old_key_version : KeyVersion;
  krr_new_key_version : KeyVersion;
  krr_batch_size : Z;
  krr_processed_count : Z;
  krr_remaining_count : Z;
  krr_source_event_at : option SourceEventAt;
}.
Definition KeyRotationReencryptMetadata_new (old_key_version new_key_version : KeyVersion)
    (batch_size processed_count remaining_count : Z) : KeyRotationReencryptMetadata :=
  mk_KeyRotationReencryptMetadata old_key_version new_key_version batch_size processed_count
    remaining_count None.
Definition KeyRotationReencryptMetadata_with_source_event_at (b : KeyRotationReencryptMetadata) (source_event_at : SourceEventAt) : KeyRotationReencryptMetadata :=
  mk_KeyRotationReencryptMetadata (krr_old_key_version b) (krr_new_key_version b) (krr_batch_size b) (krr_processed_count b) (krr_remaining_count b) (Some source_event_at).
Definition KeyRotationReencryptMetadata_build (b : KeyRotationReencryptMetadata) :
    result AuditEventError AuditMetadata :=
  build_object (
    [("old_key_version", json_uint (KeyVersion_get (krr_old_key_version b)));
     ("new_key_version", json_uint (KeyVersion_get (krr_new_key_version b)));
     ("batch_size", json_uint (krr_batch_size b));
     ("processed_count", json_uint (krr_processed_count b));
     ("remaining_count", json_uint (krr_remaining_count b))]%string
    ++ opt_field SOURCE_EVENT_AT_KEY (json_time <$> krr_source_event_at b)).

Record KeyRotationCompleteMetadata := mk_KeyRotationCompleteMetadata {
  krc_old_key_version : KeyVersion;
  krc_new_key_version : KeyVersion;
  krc_remaining_count : Z;
  krc_source_event_at : option SourceEventAt;
}.
Definition KeyRotationCompleteMetadata_new (old_key_version new_key_version : KeyVersion)
    (remaining_count : Z) : KeyRotationCompleteMetadata :=
  mk_KeyRotationCompleteMetadata old_key_version new_key_version remaining_count None.
Definition KeyRotationCompleteMetadata_with_source_event_at (b : KeyRotationCompleteMetadata) (source_event_at : SourceEventAt) : KeyRotationCompleteMetadata :=
  mk_KeyRotationCompleteMetadata (krc_old_key_version b) (krc_new_key_version b) (krc_remaining_count b) (Some source_event_at).
Definition KeyRotationCompleteMetadata_build (b : KeyRotationCompleteMetadata) :
    result AuditEventError AuditMetadata :=
  build_object (
    [("old_key_version", json_uint (KeyVersion_get (krc_old_key_version b)));
     ("new_key_version", json_uint (KeyVersion_get (krc_new_key_version b)));
     ("remaining_count", json_uint (krc_remaining_count b))]%string
    ++ opt_field SOURCE_EVENT_AT_KEY (json_time <$> krc_source_event_at b)).

(** ** Signature keys *)

Record SignatureKeyCreatedMetadata := mk_SignatureKeyCreatedMetadata {
  skc_signature_key_version : LedgerSignatureKeyVersion;
  skc_public_key_fingerprint : str;
  skc_created_at : SourceEventAt;
  skc_source_event_at : SourceEventAt;
}.
Definition SignatureKeyCreatedMetadata_new (signature_key_version : LedgerSignatureKeyVersion)
    (public_key_fingerprint : str) (source_event_at : SourceEventAt) : SignatureKeyCreatedMetadata :=
  mk_SignatureKeyCreatedMetadata signature_key_version public_key_fingerprint source_event_at source_event_at.
Definition SignatureKeyCreatedMetadata_build (b : SignatureKeyCreatedMetadata) : result AuditEventError AuditMetadata :=
  build_object
    [("signature_key_version", json_uint (LedgerSignatureKeyVersion_get (skc_signature_key_version b)));
     ("public_key_fingerprint", JString (skc_public_key_fingerprint b));
     ("created_at", json_time (skc_created_at b));
     (SOURCE_EVENT_AT_KEY, json_time (skc_source_event_at b))]%string.

Record SignatureKeyActivatedMetadata := mk_SignatureKeyActivatedMetadata {
  ska_signature_key_version : LedgerSignatureKeyVersion;
  ska_public_key_fingerprint : str;
  ska_activated_at : SourceEventAt;
  ska_source_event_at : SourceEventAt;
}.
Definition SignatureKeyActivatedMetadata_new (signature_key_version : LedgerSignatureKeyVersion)
    (public_key_fingerprint : str) (source_event_at : SourceEventAt) : SignatureKeyActivatedMetadata :=
  mk_SignatureKeyActivatedMetadata signature_key_version public_key_fingerprint source_event_at source_event_at.
Definition SignatureKeyActivatedMetadata_build (b : SignatureKeyActivatedMetadata) : result AuditEventError AuditMetadata :=
  build_object
    [("signature_key_version", json_uint (LedgerSignatureKeyVersion_get (ska_signature_key_version b)));
     ("public_key_fingerprint", JString (ska_public_key_fingerprint b));
     ("activated_at", json_time (ska_activated_at b));
     (SOURCE_EVENT_AT_KEY, json_time (ska_source_event_at b))]%string.

Record SignatureKeyRetiredMetadata := mk_SignatureKeyRetiredMetadata {
  skr_signature_key_version : LedgerSignatureKeyVersion;
  skr_public_key_fingerprint : str;
  skr_retired_at : SourceEventAt;
  skr_source_event_at : SourceEventAt;
}.
Definition SignatureKeyRetiredMetadata_new (signature_key_version : LedgerSignatureKeyVersion)
    (public_key_fingerprint : str) (source_event_at : SourceEventAt) : SignatureKeyRetiredMetadata :=
  mk_SignatureKeyRetiredMetadata signature_key_version public_key_fingerprint source_event_at source_event_at.
Definition SignatureKeyRetiredMetadata_build (b : SignatureKeyRetiredMetadata) : result AuditEventError AuditMetadata :=
  build_object
    [("signature_key_version", json_uint (LedgerSignatureKeyVersion_get (skr_signature_key_version b)));
     ("public_key_fingerprint", JString (skr_public_key_fingerprint b));
     ("retired_at", json_time (skr_retired_at b));
     (SOURCE_EVENT_AT_KEY, json_time (skr_source_event_at b))]%string.

(** ** Checks and jobs: [integrity_check], [restore_test], [scheduler_job] *)

Record IntegrityCheckViolationSummary := mk_IntegrityCheckViolationSummary {
  vs_current_version_invalid : Z;
  vs_version_invalid : Z;
  vs_retention_exceeded : Z;
  vs_ciphertext_empty : Z;
  vs_encrypted_data_key_empty : Z;
  vs_nonce_length_invalid : Z;
  vs_algorithm_invalid : Z;
  vs_nonce_duplicate : Z;
  vs_aad_keys_invalid : Z;
  vs_aad_row_mismatch : Z;
  vs_created_at_mismatch : Z;
  vs_audit_action_invalid : Z;
  vs_audit_result_invalid : Z;
  vs_audit_metadata_not_object : Z;
  vs_audit_metadata_forbidden_key : Z;
  vs_audit_source_event_at_invalid : Z;
}.
Definition IntegrityCheckViolationSummary_zero : IntegrityCheckViolationSummary :=
  mk_IntegrityCheckViolationSummary 0 0 0 0 0 0 0 0 0 0 0 0 0 0 0 0.
(** [serde_json::to_value] of the struct: a map, so its keys come sorted. *)
Definition IntegrityCheckViolationSummary_fields (s : IntegrityCheckViolationSummary) : Map :=
  [("current_version_invalid", json_uint (vs_current_version_invalid s));
   ("version_invalid", json_uint (vs_version_invalid s));
   ("retention_exceeded", json_uint (vs_retention_exceeded s));
   ("ciphertext_empty", json_uint (vs_ciphertext_empty s));
   ("encrypted_data_key_empty", json_uint (vs_encrypted_data_key_empty s));
   ("nonce_length_invalid", json_uint (vs_nonce_length_invalid s));
   ("algorithm_invalid", json_uint (vs_algorithm_invalid s));
   ("nonce_duplicate", json_uint (vs_nonce_duplicate s));
   ("aad_keys_invalid", json_uint (vs_aad_keys_invalid s));
   ("aad_row_mismatch", json_uint (vs_aad_row_mismatch s));
   ("created_at_mismatch", json_uint (vs_created_at_mismatch s));
   ("audit_action_invalid", json_uint (vs_audit_action_invalid s));
   ("audit_result_invalid", json_uint (vs_audit_result_invalid s));
   ("audit_metadata_not_object", json_uint (vs_audit_metadata_not_object s));
   ("audit_metadata_forbidden_key", json_uint (vs_audit_metadata_forbidden_key s));
   ("audit_source_event_at_invalid", json_uint (vs_audit_source_event_at_invalid s))]%string.
Definition IntegrityCheckViolationSummary_to_value (s : IntegrityCheckViolationSummary) : Value :=
  JObject (map_of_list (IntegrityCheckViolationSummary_fields s)).

Record IntegrityCheckMetadata := mk_IntegrityCheckMetadata {
  icm_check_name : str;
  icm_checked_secret_count : Z;
  icm_checked_secret_version_count : Z;
  icm_checked_audit_event_count : Z;
  icm_duration_ms : Z;
  icm_violation_count : Z;
  icm_violation_summary : IntegrityCheckViolationSummary;
  icm_trigger : AuditTrigger;
  icm_error_code : option str;
  icm_source_event_at : option SourceEventAt;
}.
Definition IntegrityCheckMetadata_new (checked_secret_count : Z) (checked_secret_version_count : Z) (checked_audit_event_count : Z) (violation_count : Z) (violation_summary : IntegrityCheckViolationSummary) (trigger : AuditTrigger) : IntegrityCheckMetadata :=
  mk_IntegrityCheckMetadata "mvp_integrity_check" checked_secret_count checked_secret_version_count checked_audit_event_count 0 violation_count violation_summary trigger None None.
Definition IntegrityCheckMetadata_with_duration_ms (b : IntegrityCheckMetadata) (duration_ms : Z) : IntegrityCheckMetadata :=
  mk_IntegrityCheckMetadata (icm_check_name b) (icm_checked_secret_count b) (icm_checked_secret_version_count b) (icm_checked_audit_event_count b) duration_ms (icm_violation_count b) (icm_violation_summary b) (icm_trigger b) (icm_error_code b) (icm_source_event_at b).
Definition IntegrityCheckMetadata_with_error_code (b : IntegrityCheckMetadata) (error_code : str) : IntegrityCheckMetadata :=
  mk_IntegrityCheckMetadata (icm_check_name b) (icm_checked_secret_count b) (icm_checked_secret_version_count b) (icm_checked_audit_event_count b) (icm_duration_ms b) (icm_violation_count b) (icm_violation_summary b) (icm_trigger b) (Some error_code) (icm_source_event_at b).
Definition IntegrityCheckMetadata_with_error_code_opt (b : IntegrityCheckMetadata) (error_code : option str) : IntegrityCheckMetadata :=
  mk_IntegrityCheckMetadata (icm_check_name b) (icm_checked_secret_count b) (icm_checked_secret_version_count b) (icm_checked_audit_event_count b) (icm_duration_ms b) (icm_violation_count b) (icm_violation_summary b) (icm_trigger b) error_code (icm_source_event_at b).
Definition IntegrityCheckMetadata_with_source_event_at (b : IntegrityCheckMetadata) (source_event_at : SourceEventAt) : IntegrityCheckMetadata :=
  mk_IntegrityCheckMetadata (icm_check_name b) (icm_checked_secret_count b) (icm_checked_secret_version_count b) (icm_checked_audit_event_count b) (icm_duration_ms b) (icm_violation_count b) (icm_violation_summary b) (icm_trigger b) (icm_error_code b) (Some source_event_at).
Definition IntegrityCheckMetadata_build (b : IntegrityCheckMetadata) : result AuditEventError AuditMetadata :=
  build_object (
    [("check_name", JString (icm_check_name b));
     ("checked_secret_count", json_uint (icm_checked_secret_count b));
     ("checked_secret_version_count", json_uint (icm_checked_secret_version_count b));
     ("checked_audit_event_count", json_uint (icm_checked_audit_event_count b));
     ("duration_ms", json_uint (icm_duration_ms b));
     ("violation_count", json_uint (icm_violation_count b));
     ("violation_summary", IntegrityCheckViolationSummary_to_value (icm_violation_summary b));
     (TRIGGER_KEY, JString (AuditTrigger_as_str (icm_trigger b)))]%string
    ++ opt_field "error_code"%string (JString <$> icm_error_code b)
    ++ opt_field SOURCE_EVENT_AT_KEY (json_time <$> icm_source_event_at b)).

Record RestoreTestMetadata := mk_RestoreTestMetadata {
  rtm_phase : str;
  rtm_sample_count : Z;
  rtm_trigger : AuditTrigger;
  rtm_duration_ms : Z;
  rtm_error_code : option str;
  rtm_failed_version : option SecretVersion;
  rtm_reason : option str;
  rtm_source_event_at : option SourceEventAt;
}.
Definition RestoreTestMetadata_new (sample_count : Z) (trigger : AuditTrigger) : RestoreTestMetadata :=
  mk_RestoreTestMetadata "verify" sample_count trigger 0 None None None None.
Definition RestoreTestMetadata_with_duration_ms (b : RestoreTestMetadata) (duration_ms : Z) : RestoreTestMetadata :=
  mk_RestoreTestMetadata (rtm_phase b) (rtm_sample_count b) (rtm_trigger b) duration_ms (rtm_error_code b) (rtm_failed_version b) (rtm_reason b) (rtm_source_event_at b).
Definition RestoreTestMetadata_with_duration_ms_opt (b : RestoreTestMetadata) (duration_ms : option Z) : RestoreTestMetadata :=
  mk_RestoreTestMetadata (rtm_phase b) (rtm_sample_count b) (rtm_trigger b) (default (rtm_duration_ms b) duration_ms) (rtm_error_code b) (rtm_failed_version b) (rtm_reason b) (rtm_source_event_at b).
Definition RestoreTestMetadata_with_error_code (b : RestoreTestMetadata) (error_code : str) : RestoreTestMetadata :=
  mk_RestoreTestMetadata (rtm_phase b) (rtm_sample_count b) (rtm_trigger b) (rtm_duration_ms b) (Some error_code) (rtm_failed_version b) (rtm_reason b) (rtm_source_event_at b).
Definition RestoreTestMetadata_with_error_code_opt (b : RestoreTestMetadata) (error_code : option str) : RestoreTestMetadata :=
  mk_RestoreTestMetadata (rtm_phase b) (rtm_sample_count b) (rtm_trigger b) (rtm_duration_ms b) error_code (rtm_failed_version b) (rtm_reason b) (rtm_source_event_at b).
Definition RestoreTestMetadata_with_failed_version (b : RestoreTestMetadata) (failed_version : SecretVersion) : RestoreTestMetadata :=
  mk_RestoreTestMetadata (rtm_phase b) (rtm_sample_count b) (rtm_trigger b) (rtm_duration_ms b) (rtm_error_code b) (Some failed_version) (rtm_reason b) (rtm_source_event_at b).
Definition RestoreTestMetadata_with_failed_version_opt_u32 (b : RestoreTestMetadata) (failed_version : option Z) : RestoreTestMetadata :=
  mk_RestoreTestMetadata (rtm_phase b) (rtm_sample_count b) (rtm_trigger b) (rtm_duration_ms b) (rtm_error_code b) (v ← failed_version; match SecretVersion_new v with Ok v => Some v | Err _ => None end) (rtm_reason b) (rtm_source_event_at b).
Definition RestoreTestMetadata_with_reason (b : RestoreTestMetadata) (reason : str) : RestoreTestMetadata :=
  mk_RestoreTestMetadata (rtm_phase b) (rtm_sample_count b) (rtm_trigger b) (rtm_duration_ms b) (rtm_error_code b) (rtm_failed_version b) (Some reason) (rtm_source_event_at b).
Definition RestoreTestMetadata_with_reason_opt (b : RestoreTestMetadata) (reason : option str) : RestoreTestMetadata :=
  mk_RestoreTestMetadata (rtm_phase b) (rtm_sample_count b) (rtm_trigger b) (rtm_duration_ms b) (rtm_error_code b) (rtm_failed_version b) reason (rtm_source_event_at b).
Definition RestoreTestMetadata_with_source_event_at (b : RestoreTestMetadata) (source_event_at : SourceEventAt) : RestoreTestMetadata :=
  mk_RestoreTestMetadata (rtm_phase b) (rtm_sample_count b) (rtm_trigger b) (rtm_duration_ms b) (rtm_error_code b) (rtm_failed_version b) (rtm_reason b) (Some source_event_at).
Definition RestoreTestMetadata_build (b : RestoreTestMetadata) : result AuditEventError AuditMetadata :=
  build_object (
    [("phase", JString (rtm_phase b));
     ("sample_count", json_uint (rtm_sample_count b));
     (TRIGGER_KEY, JString (AuditTrigger_as_str (rtm_trigger b)));
     ("duration_ms", json_uint (rtm_duration_ms b))]%string
    ++ opt_field "error_code"%string (JString <$> rtm_error_code b)
    ++ opt_field "failed_version"%string ((λ x, json_uint (SecretVersion_get (x))) <$> rtm_failed_version b)
    ++ opt_field "reason"%string (JString <$> rtm_reason b)
    ++ opt_field SOURCE_EVENT_AT_KEY (json_time <$> rtm_source_event_at b)).

Record SchedulerJobMetadata := mk_SchedulerJobMetadata {
  sjm_job_name : str;
  sjm_trigger : AuditTrigger;
  sjm_duration_ms : Z;
  sjm_error_code : option str;
  sjm_target_year_month : option str;
  sjm_source_event_at : SourceEventAt;
}.
Definition SchedulerJobMetadata_new (job_name : str) (trigger : AuditTrigger) (source_event_at : SourceEventAt) : SchedulerJobMetadata :=
  mk_SchedulerJobMetadata job_name trigger 0 None None source_event_at.
Definition SchedulerJobMetadata_with_duration_ms (b : SchedulerJobMetadata) (duration_ms : Z) : SchedulerJobMetadata :=
  mk_SchedulerJobMetadata (sjm_job_name b) (sjm_trigger b) duration_ms (sjm_error_code b) (sjm_target_year_month b) (sjm_source_event_at b).
Definition SchedulerJobMetadata_with_error_code (b : SchedulerJobMetadata) (error_code : str) : SchedulerJobMetadata :=
  mk_SchedulerJobMetadata (sjm_job_name b) (sjm_trigger b) (sjm_duration_ms b) (Some error_code) (sjm_target_year_month b) (sjm_source_event_at b).
Definition SchedulerJobMetadata_with_target_year_month (b : SchedulerJobMetadata) (target_year_month : str) : SchedulerJobMetadata :=
  mk_SchedulerJobMetadata (sjm_job_name b) (sjm_trigger b) (sjm_duration_ms b) (sjm_error_code b) (Some target_year_month) (sjm_source_event_at b).
Definition SchedulerJobMetadata_build (b : SchedulerJobMetadata) : result AuditEventError AuditMetadata :=
  build_object (
    [("job_name", JString (sjm_job_name b));
     (TRIGGER_KEY, JString (AuditTrigger_as_str (sjm_trigger b)));
     ("duration_ms", json_uint (sjm_duration_ms b))]%string
    ++ opt_field "error_code"%string (JString <$> sjm_error_code b)
    ++ opt_field "target_year_month"%string (JString <$> sjm_target_year_month b)
    ++ [(SOURCE_EVENT_AT_KEY, json_time (sjm_source_event_at b))]%string).

(** ** Digests: generation, verification, archive, time stamps *)

Record MonthlyDigestGenerateMetadata := mk_MonthlyDigestGenerateMetadata {
  mdg_target_year_month : str;
  mdg_error_code : str;
  mdg_source_event_at : SourceEventAt;
}.
Definition MonthlyDigestGenerateMetadata_new (period : MonthlyDigestPeriod) (error_code : str) (source_event_at : SourceEventAt) : MonthlyDigestGenerateMetadata :=
  mk_MonthlyDigestGenerateMetadata (MonthlyDigestPeriod_as_str period) error_code source_event_at.
Definition MonthlyDigestGenerateMetadata_build (b : MonthlyDigestGenerateMetadata) : result AuditEventError AuditMetadata :=
  build_object (
    [("error_code", JString (mdg_error_code b));
     ("target_year_month", JString (mdg_target_year_month b));
     (SOURCE_EVENT_AT_KEY, json_time (mdg_source_event_at b))]%string).

Record MonthlyDigestVerifyMetadata := mk_MonthlyDigestVerifyMetadata {
  mdv_target_year_month : str;
  mdv_error_code : str;
  mdv_source_event_at : SourceEventAt;
}.
Definition MonthlyDigestVerifyMetadata_new (period : MonthlyDigestPeriod) (error_code : str) (source_event_at : SourceEventAt) : MonthlyDigestVerifyMetadata :=
  mk_MonthlyDigestVerifyMetadata (MonthlyDigestPeriod_as_str period) error_code source_event_at.
Definition MonthlyDigestVerifyMetadata_build (b : MonthlyDigestVerifyMetadata) : result AuditEventError AuditMetadata :=
  build_object (
    [("error_code", JString (mdv_error_code b));
     ("target_year_month", JString (mdv_target_year_month b));
     (SOURCE_EVENT_AT_KEY, json_time (mdv_source_event_at b))]%string).

Record ArchiveExportMetadata := mk_ArchiveExportMetadata {
  aem_target_year_month : str;
  aem_archive_key : option str;
  aem_digest_hash : option str;
  aem_error_code : option str;
  aem_source_event_at : SourceEventAt;
}.
Definition ArchiveExportMetadata_new (period : MonthlyDigestPeriod) (source_event_at : SourceEventAt) : ArchiveExportMetadata :=
  mk_ArchiveExportMetadata (MonthlyDigestPeriod_as_str period) None None None source_event_at.
Definition ArchiveExportMetadata_with_archive_key (b : ArchiveExportMetadata) (key : ArchiveObjectKey) : ArchiveExportMetadata :=
  mk_ArchiveExportMetadata (aem_target_year_month b) (Some (ArchiveObjectKey_as_str key)) (aem_digest_hash b) (aem_error_code b) (aem_source_event_at b).
Definition ArchiveExportMetadata_with_digest_hash (b : ArchiveExportMetadata) (hex : str) : ArchiveExportMetadata :=
  mk_ArchiveExportMetadata (aem_target_year_month b) (aem_archive_key b) (Some hex) (aem_error_code b) (aem_source_event_at b).
Definition ArchiveExportMetadata_with_error_code (b : ArchiveExportMetadata) (code : str) : ArchiveExportMetadata :=
  mk_ArchiveExportMetadata (aem_target_year_month b) (aem_archive_key b) (aem_digest_hash b) (Some code) (aem_source_event_at b).
Definition ArchiveExportMetadata_build (b : ArchiveExportMetadata) : result AuditEventError AuditMetadata :=
  build_object (
    [("target_year_month", JString (aem_target_year_month b));
     (SOURCE_EVENT_AT_KEY, json_time (aem_source_event_at b))]%string
    ++ opt_field "archive_key"%string (JString <$> aem_archive_key b)
    ++ opt_field "digest_hash"%string (JString <$> aem_digest_hash b)
    ++ opt_field "error_code"%string (JString <$> aem_error_code b)).

Record DigestTimestampingMetadata := mk_DigestTimestampingMetadata {
  dtm_target_year_month : str;
  dtm_digest_hash : option str;
  dtm_timestamp_token_hash : option str;
  dtm_error_code : option str;
  dtm_source_event_at : SourceEventAt;
}.
Definition DigestTimestampingMetadata_new (period : MonthlyDigestPeriod) (source_event_at : SourceEventAt) : DigestTimestampingMetadata :=
  mk_DigestTimestampingMetadata (MonthlyDigestPeriod_as_str period) None None None source_event_at.
Definition DigestTimestampingMetadata_with_digest_hash (b : DigestTimestampingMetadata) (hex : str) : DigestTimestampingMetadata :=
  mk_DigestTimestampingMetadata (dtm_target_year_month b) (Some hex) (dtm_timestamp_token_hash b) (dtm_error_code b) (dtm_source_event_at b).
Definition DigestTimestampingMetadata_with_timestamp_token_hash (b : DigestTimestampingMetadata) (hex : str) : DigestTimestampingMetadata :=
  mk_DigestTimestampingMetadata (dtm_target_year_month b) (dtm_digest_hash b) (Some hex) (dtm_error_code b) (dtm_source_event_at b).
Definition DigestTimestampingMetadata_with_error_code (b : DigestTimestampingMetadata) (code : str) : DigestTimestampingMetadata :=
  mk_DigestTimestampingMetadata (dtm_target_year_month b) (dtm_digest_hash b) (dtm_timestamp_token_hash b) (Some code) (dtm_source_event_at b).
Definition DigestTimestampingMetadata_build (b : DigestTimestampingMetadata) : result AuditEventError AuditMetadata :=
  build_object (
    [("target_year_month", JString (dtm_target_year_month b));
     (SOURCE_EVENT_AT_KEY, json_time (dtm_source_event_at b))]%string
    ++ opt_field "digest_hash"%string (JString <$> dtm_digest_hash b)
    ++ opt_field "timestamp_token_hash"%string (JString <$> dtm_timestamp_token_hash b)
    ++ opt_field "error_code"%string (JString <$> dtm_error_code b)).

Record AuditReportGenerateMetadata := mk_AuditReportGenerateMetadata {
  arg_format : str;
  arg_period_end : SourceEventAt;
  arg_period_start : SourceEventAt;
  arg_error_code : option str;
  arg_source_event_at : SourceEventAt;
}.
Definition AuditReportGenerateMetadata_new (format : str) (period_start : SourceEventAt) (period_end : SourceEventAt) (source_event_at : SourceEventAt) : AuditReportGenerateMetadata :=
  mk_AuditReportGenerateMetadata format period_end period_start None source_event_at.
Definition AuditReportGenerateMetadata_with_error_code (b : AuditReportGenerateMetadata) (error_code : str) : AuditReportGenerateMetadata :=
  mk_AuditReportGenerateMetadata (arg_format b) (arg_period_end b) (arg_period_start b) (Some error_code) (arg_source_event_at b).
Definition AuditReportGenerateMetadata_build (b : AuditReportGenerateMetadata) : result AuditEventError AuditMetadata :=
  build_object (
    [("format", JString (arg_format b));
     ("period_end", json_time (arg_period_end b));
     ("period_start", json_time (arg_period_start b))]%string
    ++ opt_field "error_code"%string (JString <$> arg_error_code b)
    ++ [(SOURCE_EVENT_AT_KEY, json_time (arg_source_event_at b))]%string).

(** ** Aliases *)

Record SecretAliasCreateMetadata := mk_SecretAliasCreateMetadata {
  sac_alias_fingerprint : option AliasFingerprint;
  sac_alias_fingerprint_key_version : option KeyVersion;
  sac_alias_fingerprint_schema_version : option AliasFingerprintSchemaVersion;
  sac_error_code : option str;
  sac_source_event_at : SourceEventAt;
}.
Definition SecretAliasCreateMetadata_success (alias_fingerprint : AliasFingerprint) (alias_fingerprint_key_version : KeyVersion) (alias_fingerprint_schema_version : AliasFingerprintSchemaVersion) (source_event_at : SourceEventAt) : SecretAliasCreateMetadata :=
  mk_SecretAliasCreateMetadata (Some alias_fingerprint) (Some alias_fingerprint_key_version) (Some alias_fingerprint_schema_version) None source_event_at.
Definition SecretAliasCreateMetadata_failure (source_event_at : SourceEventAt) : SecretAliasCreateMetadata :=
  mk_SecretAliasCreateMetadata None None None None source_event_at.
Definition SecretAliasCreateMetadata_with_error_code (b : SecretAliasCreateMetadata) (error_code : str) : SecretAliasCreateMetadata :=
  mk_SecretAliasCreateMetadata (sac_alias_fingerprint b) (sac_alias_fingerprint_key_version b) (sac_alias_fingerprint_schema_version b) (Some error_code) (sac_source_event_at b).
Definition SecretAliasCreateMetadata_build (b : SecretAliasCreateMetadata) : result AuditEventError AuditMetadata :=
  build_object (
    opt_field "alias_fingerprint"%string ((λ x, JString (AliasFingerprint_to_hex_string (x))) <$> sac_alias_fingerprint b)
    ++ opt_field "alias_fingerprint_key_version"%string ((λ x, json_uint (KeyVersion_get (x))) <$> sac_alias_fingerprint_key_version b)
    ++ opt_field "alias_fingerprint_schema_version"%string ((λ x, json_uint (AliasFingerprintSchemaVersion_get (x))) <$> sac_alias_fingerprint_schema_version b)
    ++ opt_field "error_code"%string (JString <$> sac_error_code b)
    ++ [(SOURCE_EVENT_AT_KEY, json_time (sac_source_event_at b))]%string).

Record SecretAliasUpdateMetadata := mk_SecretAliasUpdateMetadata {
  sau_old_alias_fingerprint : option AliasFingerprint;
  sau_new_alias_fingerprint : option AliasFingerprint;
  sau_alias_fingerprint_key_version : option KeyVersion;
  sau_alias_fingerprint_schema_version : option AliasFingerprintSchemaVersion;
  sau_error_code : option str;
  sau_source_event_at : SourceEventAt;
}.
Definition SecretAliasUpdateMetadata_success (old_alias_fingerprint : AliasFingerprint) (new_alias_fingerprint : AliasFingerprint) (alias_fingerprint_key_version : KeyVersion) (alias_fingerprint_schema_version : AliasFingerprintSchemaVersion) (source_event_at : SourceEventAt) : SecretAliasUpdateMetadata :=
  mk_SecretAliasUpdateMetadata (Some old_alias_fingerprint) (Some new_alias_fingerprint) (Some alias_fingerprint_key_version) (Some alias_fingerprint_schema_version) None source_event_at.
Definition SecretAliasUpdateMetadata_failure (source_event_at : SourceEventAt) : SecretAliasUpdateMetadata :=
  mk_SecretAliasUpdateMetadata None None None None None source_event_at.
Definition SecretAliasUpdateMetadata_with_error_code (b : SecretAliasUpdateMetadata) (error_code : str) : SecretAliasUpdateMetadata :=
  mk_SecretAliasUpdateMetadata (sau_old_alias_fingerprint b) (sau_new_alias_fingerprint b) (sau_alias_fingerprint_key_version b) (sau_alias_fingerprint_schema_version b) (Some error_code) (sau_source_event_at b).
Definition SecretAliasUpdateMetadata_build (b : SecretAliasUpdateMetadata) : result AuditEventError AuditMetadata :=
  build_object (
    opt_field "old_alias_fingerprint"%string ((λ x, JString (AliasFingerprint_to_hex_string (x))) <$> sau_old_alias_fingerprint b)
    ++ opt_field "new_alias_fingerprint"%string ((λ x, JString (AliasFingerprint_to_hex_string (x))) <$> sau_new_alias_fingerprint b)
    ++ opt_field "alias_fingerprint_key_version"%string ((λ x, json_uint (KeyVersion_get (x))) <$> sau_alias_fingerprint_key_version b)
    ++ opt_field "alias_fingerprint_schema_version"%string ((λ x, json_uint (AliasFingerprintSchemaVersion_get (x))) <$> sau_alias_fingerprint_schema_version b)
    ++ opt_field "error_code"%string (JString <$> sau_error_code b)
    ++ [(SOURCE_EVENT_AT_KEY, json_time (sau_source_event_at b))]%string).

Record SecretAliasDeleteMetadata := mk_SecretAliasDeleteMetadata {
  sad_alias_fingerprint : option AliasFingerprint;
  sad_alias_fingerprint_key_version : option KeyVersion;
  sad_alias_fingerprint_schema_version : option AliasFingerprintSchemaVersion;
  sad_error_code : option str;
  sad_source_event_at : SourceEventAt;
}.
Definition SecretAliasDeleteMetadata_success (alias_fingerprint : AliasFingerprint) (alias_fingerprint_key_version : KeyVersion) (alias_fingerprint_schema_version : AliasFingerprintSchemaVersion) (source_event_at : SourceEventAt) : SecretAliasDeleteMetadata :=
  mk_SecretAliasDeleteMetadata (Some alias_fingerprint) (Some alias_fingerprint_key_version) (Some alias_fingerprint_schema_version) None source_event_at.
Definition SecretAliasDeleteMetadata_failure (source_event_at : SourceEventAt) : SecretAliasDeleteMetadata :=
  mk_SecretAliasDeleteMetadata None None None None source_event_at.
Definition SecretAliasDeleteMetadata_with_error_code (b : SecretAliasDeleteMetadata) (error_code : str) : SecretAliasDeleteMetadata :=
  mk_SecretAliasDeleteMetadata (sad_alias_fingerprint b) (sad_alias_fingerprint_key_version b) (sad_alias_fingerprint_schema_version b) (Some error_code) (sad_source_event_at b).
Definition SecretAliasDeleteMetadata_build (b : SecretAliasDeleteMetadata) : result AuditEventError AuditMetadata :=
  build_object (
    opt_field "alias_fingerprint"%string ((λ x, JString (AliasFingerprint_to_hex_string (x))) <$> sad_alias_fingerprint b)
    ++ opt_field "alias_fingerprint_key_version"%string ((λ x, json_uint (KeyVersion_get (x))) <$> sad_alias_fingerprint_key_version b)
    ++ opt_field "alias_fingerprint_schema_version"%string ((λ x, json_uint (AliasFingerprintSchemaVersion_get (x))) <$> sad_alias_fingerprint_schema_version b)
    ++ opt_field "error_code"%string (JString <$> sad_error_code b)
    ++ [(SOURCE_EVENT_AT_KEY, json_time (sad_source_event_at b))]%string).

Record SecretAliasListMetadata := mk_SecretAliasListMetadata {
  sal_result_count : option Z;
  sal_error_code : option str;
  sal_source_event_at : SourceEventAt;
}.
Definition SecretAliasListMetadata_success (result_count : Z) (source_event_at : SourceEventAt) : SecretAliasListMetadata :=
  mk_SecretAliasListMetadata (Some result_count) None source_event_at.
Definition SecretAliasListMetadata_failure (source_event_at : SourceEventAt) : SecretAliasListMetadata :=
  mk_SecretAliasListMetadata None None source_event_at.
Definition SecretAliasListMetadata_with_error_code (b : SecretAliasListMetadata) (error_code : str) : SecretAliasListMetadata :=
  mk_SecretAliasListMetadata (sal_result_count b) (Some error_code) (sal_source_event_at b).
Definition SecretAliasListMetadata_build (b : SecretAliasListMetadata) : result AuditEventError AuditMetadata :=
  build_object (
    opt_field "result_count"%string (json_uint <$> sal_result_count b)
    ++ opt_field "error_code"%string (JString <$> sal_error_code b)
    ++ [(SOURCE_EVENT_AT_KEY, json_time (sal_source_event_at b))]%string).

(** ** Reads of the audit UI, SIEM failures and incidents *)

Record AuditUiReadMetadata := mk_AuditUiReadMetadata {
  aur_endpoint : str;
  aur_resource : str;
  aur_result_count : option Z;
  aur_period_start : option SourceEventAt;
  aur_period_end : option SourceEventAt;
  aur_start_sequence_no : option Z;
  aur_end_sequence_no : option Z;
  aur_target_year_month : option MonthlyDigestPeriod;
  aur_error_code : option str;
  aur_source_event_at : SourceEventAt;
}.
Definition AuditUiReadMetadata_new (endpoint : str) (resource : str) (source_event_at : SourceEventAt) : AuditUiReadMetadata :=
  mk_AuditUiReadMetadata endpoint resource None None None None None None None source_event_at.
Definition AuditUiReadMetadata_with_result_count (b : AuditUiReadMetadata) (result_count : Z) : AuditUiReadMetadata :=
  mk_AuditUiReadMetadata (aur_endpoint b) (aur_resource b) (Some result_count) (aur_period_start b) (aur_period_end b) (aur_start_sequence_no b) (aur_end_sequence_no b) (aur_target_year_month b) (aur_error_code b) (aur_source_event_at b).
Definition AuditUiReadMetadata_with_period (b : AuditUiReadMetadata) (period_start : SourceEventAt) (period_end : SourceEventAt) : AuditUiReadMetadata :=
  mk_AuditUiReadMetadata (aur_endpoint b) (aur_resource b) (aur_result_count b) (Some period_start) (Some period_end) (aur_start_sequence_no b) (aur_end_sequence_no b) (aur_target_year_month b) (aur_error_code b) (aur_source_event_at b).
Definition AuditUiReadMetadata_with_sequence_range (b : AuditUiReadMetadata) (start_sequence_no : Z) (end_sequence_no : Z) : AuditUiReadMetadata :=
  mk_AuditUiReadMetadata (aur_endpoint b) (aur_resource b) (aur_result_count b) (aur_period_start b) (aur_period_end b) (Some start_sequence_no) (Some end_sequence_no) (aur_target_year_month b) (aur_error_code b) (aur_source_event_at b).
Definition AuditUiReadMetadata_with_target_year_month (b : AuditUiReadMetadata) (target_year_month : MonthlyDigestPeriod) : AuditUiReadMetadata :=
  mk_AuditUiReadMetadata (aur_endpoint b) (aur_resource b) (aur_result_count b) (aur_period_start b) (aur_period_end b) (aur_start_sequence_no b) (aur_end_sequence_no b) (Some target_year_month) (aur_error_code b) (aur_source_event_at b).
Definition AuditUiReadMetadata_with_error_code (b : AuditUiReadMetadata) (error_code : str) : AuditUiReadMetadata :=
  mk_AuditUiReadMetadata (aur_endpoint b) (aur_resource b) (aur_result_count b) (aur_period_start b) (aur_period_end b) (aur_start_sequence_no b) (aur_end_sequence_no b) (aur_target_year_month b) (Some error_code) (aur_source_event_at b).
Definition AuditUiReadMetadata_build (b : AuditUiReadMetadata) : result AuditEventError AuditMetadata :=
  build_object (
    [("endpoint", JString (aur_endpoint b));
     ("method", JString "GET");
     ("resource", JString (aur_resource b))]%string
    ++ opt_field "result_count"%string (json_uint <$> aur_result_count b)
    ++ opt_field "period_start"%string (json_time <$> aur_period_start b)
    ++ opt_field "period_end"%string (json_time <$> aur_period_end b)
    ++ opt_field "start_sequence_no"%string (json_uint <$> aur_start_sequence_no b)
    ++ opt_field "end_sequence_no"%string (json_uint <$> aur_end_sequence_no b)
    ++ opt_field "target_year_month"%string ((λ x, JString (MonthlyDigestPeriod_as_str (x))) <$> aur_target_year_month b)
    ++ opt_field "error_code"%string (JString <$> aur_error_code b)
    ++ [(SOURCE_EVENT_AT_KEY, json_time (aur_source_event_at b))]%string).

Record SiemForwardFailureMetadata := mk_SiemForwardFailureMetadata {
  sff_error_code : str;
  sff_event_type : option str;
  sff_event_count : option Z;
  sff_source_event_at : option SourceEventAt;
}.
Definition SiemForwardFailureMetadata_new (error_code : str) : SiemForwardFailureMetadata :=
  mk_SiemForwardFailureMetadata error_code None None None.
Definition SiemForwardFailureMetadata_with_event_type (b : SiemForwardFailureMetadata) (event_type : str) : SiemForwardFailureMetadata :=
  mk_SiemForwardFailureMetadata (sff_error_code b) (Some event_type) (sff_event_count b) (sff_source_event_at b).
Definition SiemForwardFailureMetadata_with_event_count (b : SiemForwardFailureMetadata) (event_count : Z) : SiemForwardFailureMetadata :=
  mk_SiemForwardFailureMetadata (sff_error_code b) (sff_event_type b) (Some event_count) (sff_source_event_at b).
Definition SiemForwardFailureMetadata_with_source_event_at (b : SiemForwardFailureMetadata) (source_event_at : SourceEventAt) : SiemForwardFailureMetadata :=
  mk_SiemForwardFailureMetadata (sff_error_code b) (sff_event_type b) (sff_event_count b) (Some source_event_at).
Definition SiemForwardFailureMetadata_build (b : SiemForwardFailureMetadata) : result AuditEventError AuditMetadata :=
  build_object (
    [("error_code", JString (sff_error_code b))]%string
    ++ opt_field "event_type"%string (JString <$> sff_event_type b)
    ++ opt_field "event_count"%string (json_uint <$> sff_event_count b)
    ++ opt_field SOURCE_EVENT_AT_KEY (json_time <$> sff_source_event_at b)).

Record IncidentDetectedMetadata := mk_IncidentDetectedMetadata {
  idm_incident_type : str;
  idm_severity : str;
  idm_detection_source : str;
  idm_dedupe_key : str;
  idm_notification_sink : str;
  idm_notification_result : str;
  idm_error_code : str;
  idm_source_event_at : SourceEventAt;
  idm_source_event_id : option str;
  idm_target_sequence_no : option Z;
  idm_target_year_month : option MonthlyDigestPeriod;
}.
Definition IncidentDetectedMetadata_new (incident_type : str) (severity : str) (detection_source : str) (dedupe_key : str) (notification_sink : str) (notification_result : str) (error_code : str) (source_event_at : SourceEventAt) : IncidentDetectedMetadata :=
  mk_IncidentDetectedMetadata incident_type severity detection_source dedupe_key notification_sink notification_result error_code source_event_at None None None.
Definition IncidentDetectedMetadata_with_source_event_id (b : IncidentDetectedMetadata) (source_event_id : str) : IncidentDetectedMetadata :=
  mk_IncidentDetectedMetadata (idm_incident_type b) (idm_severity b) (idm_detection_source b) (idm_dedupe_key b) (idm_notification_sink b) (idm_notification_result b) (idm_error_code b) (idm_source_event_at b) (Some source_event_id) (idm_target_sequence_no b) (idm_target_year_month b).
Definition IncidentDetectedMetadata_with_target_sequence_no (b : IncidentDetectedMetadata) (target_sequence_no : Z) : IncidentDetectedMetadata :=
  mk_IncidentDetectedMetadata (idm_incident_type b) (idm_severity b) (idm_detection_source b) (idm_dedupe_key b) (idm_notification_sink b) (idm_notification_result b) (idm_error_code b) (idm_source_event_at b) (idm_source_event_id b) (Some target_sequence_no) (idm_target_year_month b).
Definition IncidentDetectedMetadata_with_target_year_month (b : IncidentDetectedMetadata) (target_year_month : MonthlyDigestPeriod) : IncidentDetectedMetadata :=
  mk_IncidentDetectedMetadata (idm_incident_type b) (idm_severity b) (idm_detection_source b) (idm_dedupe_key b) (idm_notification_sink b) (idm_notification_result b) (idm_error_code b) (idm_source_event_at b) (idm_source_event_id b) (idm_target_sequence_no b) (Some target_year_month).
Definition IncidentDetectedMetadata_build (b : IncidentDetectedMetadata) : result AuditEventError AuditMetadata :=
  build_object (
    [("incident_type", JString (idm_incident_type b));
     ("severity", JString (idm_severity b));
     ("detection_source", JString (idm_detection_source b));
     ("dedupe_key", JString (idm_dedupe_key b));
     ("notification_sink", JString (idm_notification_sink b));
     ("notification_result", JString (idm_notification_result b));
     ("error_code", JString (idm_error_code b));
     (SOURCE_EVENT_AT_KEY, json_time (idm_source_event_at b))]%string
    ++ opt_field "source_event_id"%string (JString <$> idm_source_event_id b)
    ++ opt_field "target_sequence_no"%string (json_uint <$> idm_target_sequence_no b)
    ++ opt_field "target_year_month"%string ((λ x, JString (MonthlyDigestPeriod_as_str (x))) <$> idm_target_year_month b)).
End builders.

(** ** Acceptance of built objects *)

Section accepted.
Context {P : Platform}.

Lemma allowed_not_forbidden action res k :
  k ∈ allowed_metadata_keys action res → is_forbidden_metadata_key k = false.
Proof.
  intros Hk. assert (Forall (λ k, is_forbidden_metadata_key k = false)
    (allowed_metadata_keys action res)) as Hall.
  { apply (bool_decide_unpack _). by destruct action, res; vm_compute. }
  rewrite Forall_forall in Hall. by apply Hall.
Qed.

Lemma flat_key_occurs (l : Map) k :
  Forall (λ p, is_scalar p.2 = true) l → key_occurs k (JObject l) → k ∈ l.*1.
Proof.
  rewrite Forall_forall. intros Hl Hk. inversion Hk as [? v Hin|? k' v Hin Hv|]; subst.
  - by apply (list_elem_of_fmap_2 fst) in Hin.
  - apply Hl in Hin. simpl in Hin. by destruct v; inversion Hv.
Qed.

(** The fields of a built object that pass their checks, apart from the time of
    the event. *)
Definition fields_valid (action : AuditAction) (res : AuditResult) (l : Map) : Prop :=
  action ≠ AuditAction_IntegrityCheck ∧ NoDup l.*1
  ∧ Forall (λ p, is_scalar p.2 = true ∧ representable p.2 = true
      ∧ p.1 ∈ allowed_metadata_keys action res ∧ p.1 ≠ TRIGGER_KEY ∧ field_valid action res p.1 p.2) l.

Lemma number_field_valid action res k z :
  (k ∈ u64_keys ∧ 0 ≤ z) ∨ (k ∈ positive_u64_keys ∧ 0 < z) → z ≤ u64_max →
  k ∈ allowed_metadata_keys action res → k ≠ TRIGGER_KEY →
  is_scalar (json_uint z) = true ∧ representable (json_uint z) = true
  ∧ k ∈ allowed_metadata_keys action res ∧ k ≠ TRIGGER_KEY ∧ field_valid action res k (json_uint z).
Proof.
  intros Hk Hz Ha Ht. split_and!; [done| |done|done|].
  - cbn [representable json_uint]. apply andb_true_iff. rewrite !Z.leb_le. naive_solver lia.
  - assert ((∃ c, c = validate_u64_value k ∧ map_get k (metadata_checks action res) = Some c)
      ∨ (0 < z ∧ ∃ c, c = validate_positive_u64_value k ∧ map_get k (metadata_checks action res) = Some c))
      as [(c & -> & E)|(Hp & c & -> & E)]; unfold field_valid.
    { destruct Hk as [[Hk _]|[Hk ?]]; [left|right; split; [done|]]; eexists; (split; [done|]);
        apply elem_map_get; [apply metadata_checks_NoDup| |apply metadata_checks_NoDup|];
        unfold metadata_checks; rewrite !elem_of_app; [left|right; left];
        by apply (list_elem_of_fmap_2 (λ key, (key, _ key))). }
    + by rewrite E.
    + rewrite E. unfold validate_positive_u64_value. simpl. by rewrite (proj2 (Z.eqb_neq z 0)); [|lia].
Qed.

(** What is built is the object of the fields. *)
Lemma build_object_Ok l m : build_object l = Ok m → m = mk_AuditMetadata (JObject (map_of_list l)).
Proof.
  unfold build_object, AuditMetadata_new, AuditMetadata_from_object. intros H. inv_ok.
  select (as_object _ = _) (fun H => injection H as <-).
  match goal with H : canonicalize_source_event_at _ = _ |- _ =>
    by apply canonicalize_source_event_at_Ok in H as [-> _]; [|apply map_sorted_of_list] end.
Qed.

Lemma fields_metadata action res l :
  fields_valid action res l → source_event_at_valid l →
  build_object l = Ok (mk_AuditMetadata (JObject (map_of_list l))).
Proof.
  intros (_ & Hnd & Hl) Ht. rewrite Forall_forall in Hl. unfold build_object.
  assert (representable (JObject (map_of_list l)) = true) as Hrep.
  { apply representable_of_list; [done|]. apply Forall_forall. intros p Hp%Hl. naive_solver. }
  apply AuditMetadata_new_Ok; [done|]. split; [done|]. eexists. split; [done|]. split_and!.
  - pose proof (reject_keys_spec is_forbidden_metadata_key AuditEventError_ForbiddenMetadataKey
      (JObject (map_of_list l))) as Hspec.
    change (reject_keys _ _) with reject_forbidden_metadata_keys in Hspec.
    destruct (reject_forbidden_metadata_keys _) as [[]|]; [done|]. cbn [keys_verdict] in Hspec.
    destruct Hspec as (k & _ & Hk & Hf). apply flat_key_occurs in Hk.
    + apply list_elem_of_fmap_1 in Hk as (p & -> & Hp). rewrite elem_map_of_list // in Hp.
      apply Hl in Hp as (_ & _ & Hp & _). by rewrite (allowed_not_forbidden _ _ _ Hp) in Hf.
    + apply Forall_forall. intros p Hp. rewrite elem_map_of_list // in Hp. by apply Hl in Hp as (? & _).
  - apply validate_trigger_Ok. intros v Hv. rewrite map_get_of_list // in Hv.
    apply map_get_elem, Hl in Hv. naive_solver.
  - intros v Hv. rewrite map_get_of_list // in Hv. by apply Ht.
Qed.

Lemma fields_accepted action res l t :
  fields_valid action res l → map_get SOURCE_EVENT_AT_KEY l = Some (json_time t) →
  SourceEventAt_parse (SourceEventAt_as_str t) = Ok t →
  (∀ k, k ∈ required_metadata_keys action res → k ∈ l.*1) →
  require_source_event_at (mk_AuditMetadata (JObject (map_of_list l))) = Ok t
  ∧ validate_allowlist_for_action (mk_AuditMetadata (JObject (map_of_list l))) action res = Ok tt.
Proof.
  intros (Ha & Hnd & Hl) Ht Hp Hreq. rewrite Forall_forall in Hl. split.
  { apply require_source_event_at_Ok. by rewrite map_get_of_list. }
  assert (∀ k, k ∈ (map_of_list l).*1 ↔ k ∈ l.*1) as Hkeys.
  { intros k. rewrite !list_elem_of_fmap. by setoid_rewrite elem_map_of_list. }
  apply validate_allowlist_Ok. setoid_rewrite Hkeys. split_and!; [| | |by intros ?].
  - intros k [?| ->]; [by apply Hreq|]. apply map_get_elem in Ht. by apply (list_elem_of_fmap_2 fst) in Ht.
  - intros k (p & -> & Hin)%list_elem_of_fmap_1. by apply Hl in Hin as (_ & _ & ? & _).
  - intros k v Hv. rewrite map_get_of_list // in Hv. by apply map_get_elem, Hl in Hv as (_ & _ & _ & _ & ?).
Qed.
End accepted.

(** [number_fields] checks a list of literal keys with integer values. *)
Ltac literal_key := apply (bool_decide_unpack _); vm_compute; reflexivity.
Ltac number_fields :=
  lazymatch goal with
  | |- fields_valid _ _ _ =>
      split; [done|split; [literal_key|]];
      repeat (apply Forall_cons; split;
        [apply number_field_valid;
          [first [left; split; [literal_key|lia]|right; split; [literal_key|lia]]
          |lia|literal_key|literal_key]|]);
      apply Forall_nil; exact I
  | |- _ ∉ _ => literal_key
  end.

(** ** Every builder builds

    The keys a builder writes are fixed by its code: the mandatory ones [M] and
    all it can write [K].  [typed] follows the shape of a builder's list. *)

Section typed.
Context {P : Platform}.

Definition field_typed (k : str) (v : Value) : Prop :=
  (is_scalar v = true ∨ ∃ s, v = IntegrityCheckViolationSummary_to_value s)
  ∧ (k = TRIGGER_KEY → ∃ t, v = JString (AuditTrigger_as_str t)).

Definition typed (l : Map) (K M : list str) : Prop :=
  l.*1 `sublist_of` K ∧ M ⊆ l.*1 ∧ Forall (λ p, field_typed p.1 p.2) l.

Lemma typed_nil : typed [] [] [].
Proof. split_and!; [constructor|done|constructor]. Qed.
Lemma typed_cons k v l K M : field_typed k v → typed l K M → typed ((k, v) :: l) (k :: K) (k :: M).
Proof.
  intros Hv (H1 & H2 & H3). split_and!; [by constructor|set_solver|by constructor].
Qed.
Lemma typed_opt k o l K M :
  (∀ v, o = Some v → field_typed k v) → typed l K M → typed (opt_field k o ++ l) (k :: K) M.
Proof.
  intros Hv (H1 & H2 & H3). destruct o as [v|]; split_and!; cbn [opt_field app fmap list_fmap fst];
    [by constructor|set_solver|by constructor; [apply Hv|]|by apply sublist_cons|done|done].
Qed.
Lemma typed_opt_last k o : (∀ v, o = Some v → field_typed k v) → typed (opt_field k o) [k] [].
Proof. intros Hv. rewrite -(app_nil_r (opt_field k o)). apply typed_opt; [done|apply typed_nil]. Qed.

Lemma map_get_opt_ne j k o (l : Map) : j ≠ k → map_get j (opt_field k o ++ l) = map_get j l.
Proof. intros Hne. destruct o; [|done]. cbn. by rewrite (proj2 (String.eqb_neq j k) Hne). Qed.
Lemma map_get_opt_eq k o : map_get k (opt_field k o) = o.
Proof. destruct o; [|done]. cbn. by rewrite String.eqb_refl. Qed.
Lemma map_get_cons_ne j k v (l : Map) : j ≠ k → map_get j ((k, v) :: l) = map_get j l.
Proof. intros Hne. cbn. by rewrite (proj2 (String.eqb_neq j k) Hne). Qed.

Lemma summary_key_occurs k s :
  key_occurs k (IntegrityCheckViolationSummary_to_value s) → is_forbidden_metadata_key k = false.
Proof.
  intros Hk. assert (NoDup (IntegrityCheckViolationSummary_fields s).*1) as Hnd
    by (apply (bool_decide_unpack _); vm_compute; reflexivity).
  apply flat_key_occurs in Hk.
  - apply list_elem_of_fmap_1 in Hk as (p & -> & Hp). rewrite elem_map_of_list // in Hp.
    apply (list_elem_of_fmap_2 fst) in Hp. revert Hp. generalize p.1. apply Forall_forall.
    apply (bool_decide_unpack _). by vm_compute.
  - apply Forall_forall. intros p Hp. rewrite elem_map_of_list // in Hp.
    revert p Hp. apply Forall_forall. by repeat constructor.
Qed.

Lemma typed_key_occurs action (l : Map) k :
  NoDup l.*1 →
  Forall (λ p, p.1 ∈ allowed_metadata_keys action AuditResult_Failure ∧ field_typed p.1 p.2) l →
  key_occurs k (JObject (map_of_list l)) → is_forbidden_metadata_key k = false.
Proof.
  rewrite Forall_forall. intros Hnd Hl Hk. inversion Hk as [? v Hin|? k' v Hin Hv|]; subst;
    rewrite elem_map_of_list // in Hin; apply Hl in Hin as (Ha & [Hs|[s Hs]] & _); cbn [fst snd] in *.
  1,2: by eapply allowed_not_forbidden.
  - by destruct v; inversion Hv.
  - subst. by eapply summary_key_occurs.
Qed.

Definition time_parsed (t : SourceEventAt) : Prop := SourceEventAt_parse (SourceEventAt_as_str t) = Ok t.

(** What a builder of [action] that was given the time [t] must return. *)
Definition built (action : AuditAction) (t : option SourceEventAt) (r : result AuditEventError AuditMetadata) : Prop :=
  ∃ object, r = Ok (mk_AuditMetadata (JObject object))
  ∧ (∀ k, k ∈ object.*1 → k ∈ allowed_metadata_keys action AuditResult_Failure)
  ∧ (∀ k, k ∈ required_metadata_keys action AuditResult_Failure → k ∈ object.*1)
  ∧ AuditMetadata_source_event_at (mk_AuditMetadata (JObject object)) = Ok t.

Lemma typed_built action l K M t :
  typed l K M → NoDup K → Forall (.∈ allowed_metadata_keys action AuditResult_Failure) K →
  Forall (.∈ M) (required_metadata_keys action AuditResult_Failure) →
  map_get SOURCE_EVENT_AT_KEY l = json_time <$> t → (∀ t', t = Some t' → time_parsed t') →
  built action t (build_object l).
Proof.
  intros (Hsub & HM & Hl) HK Hallow Hreq Ht Hp. rewrite !Forall_forall in Hallow Hreq Hl.
  assert (NoDup l.*1) as Hnd by by eapply sublist_NoDup.
  assert (∀ k, k ∈ (map_of_list l).*1 ↔ k ∈ l.*1) as Hkeys.
  { intros k. rewrite !list_elem_of_fmap. by setoid_rewrite elem_map_of_list. }
  assert (∀ k, k ∈ l.*1 → k ∈ allowed_metadata_keys action AuditResult_Failure) as Hla.
  { intros k Hk. apply Hallow. by eapply elem_of_sublist. }
  assert (source_event_at_valid (map_of_list l)) as Hv.
  { intros v. rewrite map_get_of_list // Ht. destruct t as [t|]; [|done]. intros [= <-].
    exists t. split; [done|]. by apply Hp. }
  exists (map_of_list l). split_and!; [|by intros k ?%Hkeys%Hla|by intros k ?%Hreq%HM%Hkeys|].
  - apply AuditMetadata_new_sorted; [apply map_sorted_of_list| | |done].
    + pose proof (reject_keys_spec is_forbidden_metadata_key AuditEventError_ForbiddenMetadataKey
        (JObject (map_of_list l))) as Hspec.
      change (reject_keys _ _) with reject_forbidden_metadata_keys in Hspec.
      destruct (reject_forbidden_metadata_keys _) as [[]|]; [done|]. cbn [keys_verdict] in Hspec.
      destruct Hspec as (k & _ & Hk & Hf). rewrite (typed_key_occurs action l k) // in Hf.
      apply Forall_forall. intros p Hin. split; [|by apply Hl].
      apply Hla. by apply (list_elem_of_fmap_2 fst).
    + apply validate_trigger_Ok. intros v Hv'. rewrite map_get_of_list // in Hv'.
      apply map_get_elem in Hv'. by apply (Hl (TRIGGER_KEY, v)).
  - rewrite AuditMetadata_source_event_at_Ok // map_get_of_list // Ht. by destruct t as [[]|].
Qed.

(** The builders, one per action. *)
Inductive Builder :=
| B_EncryptCreate (b : EncryptCreateMetadata)
| B_EncryptRotate (b : EncryptRotateMetadata)
| B_VersionPurge (b : VersionPurgeMetadata)
| B_Decrypt (b : DecryptMetadata)
| B_AuthFailure (b : AuthFailureMetadata)
| B_KeyRotationStart (b : KeyRotationStartMetadata)
| B_KeyRotationReencrypt (b : KeyRotationReencryptMetadata)
| B_KeyRotationComplete (b : KeyRotationCompleteMetadata)
| B_SignatureKeyCreated (b : SignatureKeyCreatedMetadata)
| B_SignatureKeyActivated (b : SignatureKeyActivatedMetadata)
| B_SignatureKeyRetired (b : SignatureKeyRetiredMetadata)
| B_IntegrityCheck (b : IntegrityCheckMetadata)
| B_RestoreTest (b : RestoreTestMetadata)
| B_SchedulerJob (b : SchedulerJobMetadata)
| B_MonthlyDigestGenerate (b : MonthlyDigestGenerateMetadata)
| B_MonthlyDigestVerify (b : MonthlyDigestVerifyMetadata)
| B_ArchiveExport (b : ArchiveExportMetadata)
| B_DigestTimestamping (b : DigestTimestampingMetadata)
| B_AuditReportGenerate (b : AuditReportGenerateMetadata)
| B_SecretAliasCreate (b : SecretAliasCreateMetadata)
| B_SecretAliasUpdate (b : SecretAliasUpdateMetadata)
| B_SecretAliasDelete (b : SecretAliasDeleteMetadata)
| B_SecretAliasList (b : SecretAliasListMetadata)
| B_AuditUiRead (b : AuditUiReadMetadata)
| B_SiemForwardFailure (b : SiemForwardFailureMetadata)
| B_IncidentDetected (b : IncidentDetectedMetadata).

Definition builder_action (b : Builder) : AuditAction :=
  match b with
  | B_EncryptCreate _ => AuditAction_EncryptCreate
  | B_EncryptRotate _ => AuditAction_EncryptRotate
  | B_VersionPurge _ => AuditAction_VersionPurge
  | B_Decrypt _ => AuditAction_Decrypt
  | B_AuthFailure _ => AuditAction_AuthFailure
  | B_KeyRotationStart _ => AuditAction_KeyRotationStart
  | B_KeyRotationReencrypt _ => AuditAction_KeyRotationReencrypt
  | B_KeyRotationComplete _ => AuditAction_KeyRotationComplete
  | B_SignatureKeyCreated _ => AuditAction_SignatureKeyCreated
  | B_SignatureKeyActivated _ => AuditAction_SignatureKeyActivated
  | B_SignatureKeyRetired _ => AuditAction_SignatureKeyRetired
  | B_IntegrityCheck _ => AuditAction_IntegrityCheck
  | B_RestoreTest _ => AuditAction_RestoreTest
  | B_SchedulerJob _ => AuditAction_SchedulerJob
  | B_MonthlyDigestGenerate _ => AuditAction_MonthlyDigestGenerate
  | B_MonthlyDigestVerify _ => AuditAction_MonthlyDigestVerify
  | B_ArchiveExport _ => AuditAction_ArchiveExport
  | B_DigestTimestamping _ => AuditAction_DigestTimestamping
  | B_AuditReportGenerate _ => AuditAction_AuditReportGenerate
  | B_SecretAliasCreate _ => AuditAction_SecretAliasCreate
  | B_SecretAliasUpdate _ => AuditAction_SecretAliasUpdate
  | B_SecretAliasDelete _ => AuditAction_SecretAliasDelete
  | B_SecretAliasList _ => AuditAction_SecretAliasList
  | B_AuditUiRead _ => AuditAction_AuditUiRead
  | B_SiemForwardFailure _ => AuditAction_SiemForwardFailure
  | B_IncidentDetected _ => AuditAction_IncidentDetected
  end.
Definition builder_build (b : Builder) : result AuditEventError AuditMetadata :=
  match b with
  | B_EncryptCreate b => EncryptCreateMetadata_build b
  | B_EncryptRotate b => EncryptRotateMetadata_build b
  | B_VersionPurge b => VersionPurgeMetadata_build b
  | B_Decrypt b => DecryptMetadata_build b
  | B_AuthFailure b => AuthFailureMetadata_build b
  | B_KeyRotationStart b => KeyRotationStartMetadata_build b
  | B_KeyRotationReencrypt b => KeyRotationReencryptMetadata_build b
  | B_KeyRotationComplete b => KeyRotationCompleteMetadata_build b
  | B_SignatureKeyCreated b => SignatureKeyCreatedMetadata_build b
  | B_SignatureKeyActivated b => SignatureKeyActivatedMetadata_build b
  | B_SignatureKeyRetired b => SignatureKeyRetiredMetadata_build b
  | B_IntegrityCheck b => IntegrityCheckMetadata_build b
  | B_RestoreTest b => RestoreTestMetadata_build b
  | B_SchedulerJob b => SchedulerJobMetadata_build b
  | B_MonthlyDigestGenerate b => MonthlyDigestGenerateMetadata_build b
  | B_MonthlyDigestVerify b => MonthlyDigestVerifyMetadata_build b
  | B_ArchiveExport b => ArchiveExportMetadata_build b
  | B_DigestTimestamping b => DigestTimestampingMetadata_build b
  | B_AuditReportGenerate b => AuditReportGenerateMetadata_build b
  | B_SecretAliasCreate b => SecretAliasCreateMetadata_build b
  | B_SecretAliasUpdate b => SecretAliasUpdateMetadata_build b
  | B_SecretAliasDelete b => SecretAliasDeleteMetadata_build b
  | B_SecretAliasList b => SecretAliasListMetadata_build b
  | B_AuditUiRead b => AuditUiReadMetadata_build b
  | B_SiemForwardFailure b => SiemForwardFailureMetadata_build b
  | B_IncidentDetected b => IncidentDetectedMetadata_build b
  end.
Definition builder_time (b : Builder) : option SourceEventAt :=
  match b with
  | B_EncryptCreate b => ecm_source_event_at b
  | B_EncryptRotate b => erm_source_event_at b
  | B_VersionPurge b => vpm_source_event_at b
  | B_Decrypt b => dm_source_event_at b
  | B_AuthFailure b => afm_source_event_at b
  | B_KeyRotationStart b => krs_source_event_at b
  | B_KeyRotationReencrypt b => krr_source_event_at b
  | B_KeyRotationComplete b => krc_source_event_at b
  | B_SignatureKeyCreated b => Some (skc_source_event_at b)
  | B_SignatureKeyActivated b => Some (ska_source_event_at b)
  | B_SignatureKeyRetired b => Some (skr_source_event_at b)
  | B_IntegrityCheck b => icm_source_event_at b
  | B_RestoreTest b => rtm_source_event_at b
  | B_SchedulerJob b => Some (sjm_source_event_at b)
  | B_MonthlyDigestGenerate b => Some (mdg_source_event_at b)
  | B_MonthlyDigestVerify b => Some (mdv_source_event_at b)
  | B_ArchiveExport b => Some (aem_source_event_at b)
  | B_DigestTimestamping b => Some (dtm_source_event_at b)
  | B_AuditReportGenerate b => Some (arg_source_event_at b)
  | B_SecretAliasCreate b => Some (sac_source_event_at b)
  | B_SecretAliasUpdate b => Some (sau_source_event_at b)
  | B_SecretAliasDelete b => Some (sad_source_event_at b)
  | B_SecretAliasList b => Some (sal_source_event_at b)
  | B_AuditUiRead b => Some (aur_source_event_at b)
  | B_SiemForwardFailure b => sff_source_event_at b
  | B_IncidentDetected b => Some (idm_source_event_at b)
  end.
End typed.

(** [field_is] checks one field, [builder_typed] a whole list of them. *)
Ltac field_is :=
  split; [first [by left|by right; eexists]
         |first [intros Hkey; exfalso; revert Hkey; literal_key
                |by intros _; eexists]].
Ltac opt_is :=
  intros v Hv; first
    [destruct (fmap_Some_1 _ _ _ Hv) as (? & _ & ->)|idtac]; field_is.
Ltac builder_typed :=
  lazymatch goal with
  | |- typed [] _ _ => apply typed_nil
  | |- typed (_ :: _) _ _ => apply typed_cons; [field_is|builder_typed]
  | |- typed (opt_field _ _ ++ _) _ _ => apply typed_opt; [opt_is|builder_typed]
  | |- typed (opt_field _ _) _ _ => apply typed_opt_last; opt_is
  end.
Ltac time_of :=
  repeat first [rewrite map_get_opt_ne; [|literal_key]
               |rewrite map_get_cons_ne; [|literal_key]
               |rewrite map_get_opt_eq]; reflexivity.

Section builders_build.
Context {P : Platform}.

(** C40. No builder can write metadata its action does not know.  Whatever its fields
    hold, a builder whose time of the event was read as a time returns metadata:
    no key outside the action's list, every key the action requires of a failure,
    and that very time. *)
Theorem builders_well_typed b :
  (∀ t, builder_time b = Some t → time_parsed t) →
  built (builder_action b) (builder_time b) (builder_build b).
Proof.
  intros Ht. destruct b; cbn [builder_action builder_time builder_build] in *;
    (eapply typed_built;
      [cbn [app]; builder_typed|literal_key|literal_key|literal_key|cbn [app]; time_of|exact Ht]).
Qed.

(** The allowlist of [digest_timestamping] says that [timestamp_token_hash] is for
    successes only and checked with the values; no check of it exists, so a
    failure may carry it, with any value. *)
Lemma timestamp_token_hash_unchecked res v :
  "timestamp_token_hash"%string ∈ allowed_metadata_keys AuditAction_DigestTimestamping res
  ∧ field_valid AuditAction_DigestTimestamping res "timestamp_token_hash" v.
Proof. split; [destruct res; literal_key|]. unfold field_valid. destruct res; by vm_compute. Qed.
End builders_build.
