(* ===== verification/Incident.v ===== *)
(** * Incidents ([src/incident/])

    What the checks of the ledger, the digests, the archive and the audit UI find
    suspicious becomes an incident: classified, deduplicated by the database,
    announced through a notification sink, and recorded as an audit event together
    with a signed ledger entry ([src/server/supabase/incident_rpc.rs]). *)

From S2P Require Import Prelude RustStd Json Platform Reference Errors Types AuditTypes LedgerTypes LedgerPayload LedgerEntry LedgerChain LedgerRpc LedgerAppender Digest AuditEvent AuditBuilders.

(** ** Types ([types.rs], [sink.rs]) *)

Inductive IncidentType :=
| IncidentType_HashChainMismatch
| IncidentType_SignatureMismatch
| IncidentType_MonthlyDigestMismatch
| IncidentType_DigestTimestampingMismatch
| IncidentType_ArchiveExportMismatch
| IncidentType_SequenceGap
| IncidentType_UnknownSignatureKey
| IncidentType_NonAuditorLedgerRead
| IncidentType_LedgerSecretLeakSuspected
| IncidentType_SiemLongFailure
| IncidentType_AuditUiForbiddenOperation.

Definition IncidentType_as_str (t : IncidentType) : str :=
  match t with
  | IncidentType_HashChainMismatch => "hash_chain_mismatch"
  | IncidentType_SignatureMismatch => "signature_mismatch"
  | IncidentType_MonthlyDigestMismatch => "monthly_digest_mismatch"
  | IncidentType_DigestTimestampingMismatch => "digest_timestamping_mismatch"
  | IncidentType_ArchiveExportMismatch => "archive_export_mismatch"
  | IncidentType_SequenceGap => "sequence_gap"
  | IncidentType_UnknownSignatureKey => "unknown_signature_key"
  | IncidentType_NonAuditorLedgerRead => "non_auditor_ledger_read"
  | IncidentType_LedgerSecretLeakSuspected => "ledger_secret_leak_suspected"
  | IncidentType_SiemLongFailure => "siem_long_failure"
  | IncidentType_AuditUiForbiddenOperation => "audit_ui_forbidden_operation"
  end.

Inductive IncidentSeverity :=
| IncidentSeverity_Critical
| IncidentSeverity_High
| IncidentSeverity_Medium
| IncidentSeverity_Low.
Definition IncidentSeverity_as_str (s : IncidentSeverity) : str :=
  match s with
  | IncidentSeverity_Critical => "critical"
  | IncidentSeverity_High => "high"
  | IncidentSeverity_Medium => "medium"
  | IncidentSeverity_Low => "low"
  end.

Inductive NotificationResult :=
| NotificationResult_Sent
| NotificationResult_Failed
| NotificationResult_Suppressed
| NotificationResult_NotConfigured.
Definition NotificationResult_as_str (r : NotificationResult) : str :=
  match r with
  | NotificationResult_Sent => "sent"
  | NotificationResult_Failed => "failed"
  | NotificationResult_Suppressed => "suppressed"
  | NotificationResult_NotConfigured => "not_configured"
  end.

Inductive NotificationSinkError :=
| NotificationSinkError_BackendFailed (code : str).

Section incidents.
Context {P : Platform}.

Record IncidentRecordInput := mk_IncidentRecordInput {
  in_incident_type : IncidentType;
  in_severity : IncidentSeverity;
  in_detection_source : str;
  in_dedupe_key : str;
  in_error_code : str;
  in_incident_source_event_id : option AuditEventId;
  in_target_sequence_no : option Z;
  in_target_year_month : option MonthlyDigestPeriod;
  in_dedupe_window_seconds : Z;
}.

Definition IncidentRecordInput_new (incident_type : IncidentType) (severity : IncidentSeverity)
    (detection_source dedupe_key error_code : str) : IncidentRecordInput :=
  mk_IncidentRecordInput incident_type severity detection_source dedupe_key error_code None None None 3600.
Definition with_source_event_id (i : IncidentRecordInput) (source_event_id : AuditEventId) : IncidentRecordInput :=
  mk_IncidentRecordInput (in_incident_type i) (in_severity i) (in_detection_source i) (in_dedupe_key i)
    (in_error_code i) (Some source_event_id) (in_target_sequence_no i) (in_target_year_month i)
    (in_dedupe_window_seconds i).
Definition with_target_sequence_no (i : IncidentRecordInput) (sequence_no : Z) : IncidentRecordInput :=
  mk_IncidentRecordInput (in_incident_type i) (in_severity i) (in_detection_source i) (in_dedupe_key i)
    (in_error_code i) (in_incident_source_event_id i) (Some sequence_no) (in_target_year_month i)
    (in_dedupe_window_seconds i).
Definition with_target_year_month (i : IncidentRecordInput) (period : MonthlyDigestPeriod) : IncidentRecordInput :=
  mk_IncidentRecordInput (in_incident_type i) (in_severity i) (in_detection_source i) (in_dedupe_key i)
    (in_error_code i) (in_incident_source_event_id i) (in_target_sequence_no i) (Some period)
    (in_dedupe_window_seconds i).

Record IncidentNotificationPayload := mk_IncidentNotificationPayload {
  np_incident_type : IncidentType;
  np_severity : IncidentSeverity;
  np_detection_source : str;
  np_dedupe_key : str;
  np_error_code : str;
  np_source_event_id : option str;
  np_target_sequence_no : option Z;
  np_target_year_month : option str;
}.
Definition IncidentNotificationPayload_from_input (input : IncidentRecordInput) : IncidentNotificationPayload :=
  mk_IncidentNotificationPayload (in_incident_type input) (in_severity input) (in_detection_source input)
    (in_dedupe_key input) (in_error_code input)
    (AuditEventId_as_canonical_string <$> in_incident_source_event_id input)
    (in_target_sequence_no input) (MonthlyDigestPeriod_as_str <$> in_target_year_month input).

(** The sink, and the sink of the tests and of the server: it keeps what it gets. *)
Class NotificationSink := {
  sink_name : str;
  sink_notify : IncidentNotificationPayload → io World NotificationSinkError unit;
}.
Definition DummyNotificationSink_notify (payloads : list IncidentNotificationPayload)
    (payload : IncidentNotificationPayload) :
    result NotificationSinkError unit * list IncidentNotificationPayload :=
  (Ok tt, payloads ++ [payload]).
Definition DummyNotificationSink_sink_name : str := "dummy".
Definition FailingNotificationSink_notify (code : str) (payload : IncidentNotificationPayload) :
    result NotificationSinkError unit :=
  Err (NotificationSinkError_BackendFailed code).

(** ** Remote calls ([incident_rpc.rs]) *)

Record IncidentRecentlySeenParams := mk_IncidentRecentlySeenParams {
  rs_incident_type : str;
  rs_dedupe_key : str;
  rs_source_event_at : str;
  rs_dedupe_window_seconds : Z;
}.
Definition IncidentRecentlySeenParams_from_input (input : IncidentRecordInput) (source_event_at : SourceEventAt) :
    IncidentRecentlySeenParams :=
  mk_IncidentRecentlySeenParams (IncidentType_as_str (in_incident_type input)) (in_dedupe_key input)
    (SourceEventAt_as_str source_event_at) (in_dedupe_window_seconds input).

Record RecordIncidentParams := mk_RecordIncidentParams {
  ri_audit_event_id : str;
  ri_request_id : str;
  ri_incident_type : str;
  ri_severity : str;
  ri_detection_source : str;
  ri_dedupe_key : str;
  ri_notification_sink : str;
  ri_notification_result : str;
  ri_error_code : str;
  ri_source_event_at : str;
  ri_ledger_entry : LedgerEntryRpcParams;
  ri_incident_source_event_id : option str;
  ri_target_sequence_no : option Z;
  ri_target_year_month : option str;
  ri_dedupe_window_seconds : Z;
}.
(** The time is taken from the serialized entry, where it is the field of that name. *)
Definition RecordIncidentParams_from_input (input : IncidentRecordInput) (event : AuditEvent)
    (ledger_entry : SignedLedgerEntry) (notification_result : NotificationResult) : RecordIncidentParams :=
  let ledger_params := LedgerEntryRpcParams_from_signed_entry ledger_entry in
  let metadata := AuditMetadata_as_value (ev_metadata_json (event_parts event)) in
  mk_RecordIncidentParams (AuditEventId_as_canonical_string (ev_audit_event_id (event_parts event)))
    (RequestId_as_canonical_string (ev_request_id (event_parts event)))
    (IncidentType_as_str (in_incident_type input)) (IncidentSeverity_as_str (in_severity input))
    (in_detection_source input) (in_dedupe_key input)
    (default "dummy"%string (object ← as_object metadata; v ← map_get "notification_sink" object; as_str v))
    (NotificationResult_as_str notification_result) (in_error_code input)
    (p_source_event_at ledger_params) ledger_params
    (AuditEventId_as_canonical_string <$> in_incident_source_event_id input)
    (in_target_sequence_no input) (MonthlyDigestPeriod_as_str <$> in_target_year_month input)
    (in_dedupe_window_seconds input).

Record RecordIncidentResponse := mk_RecordIncidentResponse {
  rir_audit_event_id : str;
  rir_ledger_entry_id : option str;
  rir_suppressed : bool;
}.
Record IncidentRecordOutcome := mk_IncidentRecordOutcome {
  io_audit_event_id : AuditEventId;
  io_suppressed : bool;
}.
Definition IncidentRecordOutcome_try_from (response : RecordIncidentResponse) :
    result SupabaseRpcError IncidentRecordOutcome :=
  audit_event_id ← AuditEventId_parse (rir_audit_event_id response)
    !? (λ _, SupabaseRpcError_InvalidResponse "incident RPC returned invalid audit_event_id");
  if negb (rir_suppressed response) && bool_decide (rir_ledger_entry_id response = None)
  then Err (SupabaseRpcError_InvalidResponse
    "incident RPC returned null ledger_entry_id for unsuppressed incident")
  else Ok (mk_IncidentRecordOutcome audit_event_id (rir_suppressed response)).

Class IncidentService := {
  svc_incident_recently_seen : IncidentRecentlySeenParams → io World SupabaseRpcError bool;
  svc_record_incident : RecordIncidentParams → io World SupabaseRpcError (list RecordIncidentResponse);
}.
Context {IS : IncidentService}.

Definition incident_recently_seen (input : IncidentRecordInput) (source_event_at : SourceEventAt) :
    io World SupabaseRpcError bool :=
  svc_incident_recently_seen (IncidentRecentlySeenParams_from_input input source_event_at).

Definition record_incident (input : IncidentRecordInput) (event : AuditEvent)
    (ledger_entry : SignedLedgerEntry) (notification_result : NotificationResult) :
    io World SupabaseRpcError IncidentRecordOutcome :=
  rows ← svc_record_incident (RecordIncidentParams_from_input input event ledger_entry notification_result);
  lift (first_row IncidentRecordOutcome_try_from rows).

Definition is_retryable_incident_record_error (error : SupabaseRpcError) : bool :=
  match error with
  | SupabaseRpcError_NonSuccessStatus _ body =>
      response_contains_marker body "ledger_sequence_mismatch"
      || response_contains_marker body "ledger_previous_hash_mismatch"
  | _ => false
  end.

(** ** The recorder ([recorder.rs]) *)

Definition MAX_RECORD_RETRIES : Z := 2.

Inductive IncidentRecordError :=
| IncidentRecordError_IdGenerationFailed
| IncidentRecordError_SourceEventAtUnavailable
| IncidentRecordError_InvalidMetadata (error : AuditEventError)
| IncidentRecordError_InvalidLedgerPayload (error : LedgerError)
| IncidentRecordError_InvalidLedgerDraft (error : LedgerError)
| IncidentRecordError_LedgerSignFailed (error : LedgerAppendError)
| IncidentRecordError_Supabase (error : SupabaseRpcError).

Record IncidentRecordResult := mk_IncidentRecordResult {
  ir_audit_event_id : option AuditEventId;
  ir_notification_result : NotificationResult;
  ir_suppressed : bool;
}.

Context {NS : NotificationSink} {Svc : LedgerService}.

Definition deliver_notification (input : IncidentRecordInput) : World → NotificationResult * World := λ w,
  match sink_notify (IncidentNotificationPayload_from_input input) w with
  | (Ok _, w') => (NotificationResult_Sent, w')
  | (Err _, w') => (NotificationResult_Failed, w')
  end.

(** [object.insert(..)] in the order of the source. *)
Definition incident_fields (input : IncidentRecordInput) (notification_result : NotificationResult)
    (notification_sink : str) : Map :=
  [("incident_type", JString (IncidentType_as_str (in_incident_type input)));
   ("severity", JString (IncidentSeverity_as_str (in_severity input)));
   ("detection_source", JString (in_detection_source input));
   ("dedupe_key", JString (in_dedupe_key input));
   ("notification_sink", JString notification_sink);
   ("notification_result", JString (NotificationResult_as_str notification_result))]%string.
Definition incident_target_fields (input : IncidentRecordInput) : Map :=
  opt_field "target_sequence_no"%string (json_uint <$> in_target_sequence_no input)
  ++ opt_field "target_year_month"%string
       ((λ period, JString (MonthlyDigestPeriod_as_str period)) <$> in_target_year_month input).

Definition build_incident_metadata (input : IncidentRecordInput) (notification_result : NotificationResult)
    (notification_sink : str) (source_event_at : SourceEventAt) : result IncidentRecordError AuditMetadata :=
  let object := map_of_list (incident_fields input notification_result notification_sink
    ++ [("error_code", JString (in_error_code input));
        ("source_event_at", JString (SourceEventAt_as_str source_event_at))]%string
    ++ opt_field "source_event_id"%string
         ((λ i, JString (AuditEventId_as_canonical_string i)) <$> in_incident_source_event_id input)
    ++ incident_target_fields input) in
  (metadata ← AuditMetadata_from_object object;
   _ ← validate_allowlist_for_action metadata AuditAction_IncidentDetected AuditResult_Failure;
   Ok metadata) !? IncidentRecordError_InvalidMetadata.

Definition build_incident_ledger_payload (input : IncidentRecordInput)
    (notification_result : NotificationResult) (notification_sink : str) :
    result IncidentRecordError LedgerPayload :=
  LedgerPayload_new LedgerEntryType_IncidentDetected (JObject (map_of_list
    (incident_fields input notification_result notification_sink ++ incident_target_fields input)))
    !? IncidentRecordError_InvalidLedgerPayload.

(** [for retry_index in 0..=MAX_RECORD_RETRIES]: a conflict over the head of the
    chain is tried again with a fresh signature. *)
Fixpoint record_attempts (appender : LedgerAppender) (input : IncidentRecordInput) (event : AuditEvent)
    (draft : LedgerAppendDraft) (notification_result : NotificationResult) (retries : list Z) :
    io World IncidentRecordError IncidentRecordResult :=
  match retries with
  | [] => lift (Err (IncidentRecordError_Supabase
      (SupabaseRpcError_InvalidResponse "incident retry exhausted")))
  | retry_index :: retries =>
      signed_entries ← sign_entries appender [draft] !?? IncidentRecordError_LedgerSignFailed;
      signed_entry ← lift (ok_or (head signed_entries) (IncidentRecordError_LedgerSignFailed
        (LedgerAppendError_InvalidEntry "incident_ledger_sign_empty")));
      io_match (record_incident input event signed_entry notification_result) (λ recorded,
        match recorded with
        | Ok outcome => mret (mk_IncidentRecordResult (Some (io_audit_event_id outcome))
            notification_result (io_suppressed outcome))
        | Err error =>
            if is_retryable_incident_record_error error && (retry_index <? MAX_RECORD_RETRIES)
            then record_attempts appender input event draft notification_result retries
            else lift (Err (IncidentRecordError_Supabase error))
        end)
  end.

Definition record_after_notification (appender : LedgerAppender) (input : IncidentRecordInput)
    (source_event_at : SourceEventAt) (notification_result : NotificationResult) :
    io World IncidentRecordError IncidentRecordResult :=
  request_id ← RequestId_generate !?? (λ _, IncidentRecordError_IdGenerationFailed);
  audit_event_id ← AuditEventId_generate !?? (λ _, IncidentRecordError_IdGenerationFailed);
  metadata ← lift (build_incident_metadata input notification_result sink_name source_event_at);
  event ← lift (AuditEvent_new (mk_AuditEventParts audit_event_id request_id None None
    AuditAction_IncidentDetected None AuditResult_Failure None metadata)
    !? IncidentRecordError_InvalidMetadata);
  payload ← lift (build_incident_ledger_payload input notification_result sink_name);
  ledger_entry_id ← LedgerEntryId_generate !?? (λ _, IncidentRecordError_IdGenerationFailed);
  draft ← lift (LedgerAppendDraft_new (mk_LedgerAppendDraft ledger_entry_id LedgerEntryType_IncidentDetected
    source_event_at request_id (Some audit_event_id) None None None None LedgerResult_Failure
    (Some (in_error_code input)) payload) !? IncidentRecordError_InvalidLedgerDraft);
  record_attempts appender input event draft notification_result [0; 1; 2].

Definition incident_record (appender : LedgerAppender) (input : IncidentRecordInput) :
    io World IncidentRecordError IncidentRecordResult :=
  source_event_at ← SourceEventAt_now_utc !?? (λ _, IncidentRecordError_SourceEventAtUnavailable);
  seen ← incident_recently_seen input source_event_at !?? IncidentRecordError_Supabase;
  if (seen : bool) then mret (mk_IncidentRecordResult None NotificationResult_Suppressed true)
  else (λ w,
    let '(notification_result, w') := deliver_notification input w in
    record_after_notification appender input source_event_at notification_result w').

(** ** Classification *)

Definition scheduler_incident_type (error_code : str) : option IncidentType :=
  if str_in error_code ["ledger_entry_hash_mismatch"; "ledger_previous_hash_mismatch";
       "ledger_chain_head_mismatch"]%string then Some IncidentType_HashChainMismatch
  else if String.eqb error_code "ledger_sequence_gap" then Some IncidentType_SequenceGap
  else if String.eqb error_code "ledger_signature_invalid" then Some IncidentType_SignatureMismatch
  else if String.eqb error_code "ledger_signature_key_missing" then Some IncidentType_UnknownSignatureKey
  else if String.eqb error_code "ledger_payload_forbidden_key" then Some IncidentType_LedgerSecretLeakSuspected
  else None.

Definition monthly_digest_incident_type (error_code : str) : option IncidentType :=
  if str_in error_code ["monthly_digest_unknown_signature_key"; "chain_unknown_signature_key"]%string
  then Some IncidentType_UnknownSignatureKey
  else if str_in error_code ["monthly_digest_end_hash_mismatch"; "monthly_digest_hash_mismatch";
       "monthly_digest_signature_invalid"; "monthly_digest_range_modified";
       "monthly_digest_chain_continuity_error"; "chain_previous_hash_mismatch"; "chain_entry_hash_mismatch";
       "chain_signature_invalid"; "chain_sequence_gap"]%string then Some IncidentType_MonthlyDigestMismatch
  else None.

Definition digest_timestamping_incident_type (error_code : str) : option IncidentType :=
  if str_in error_code ["digest_timestamping_mismatch"; "digest_timestamping_token_mismatch";
       "digest_timestamping_token_hash_mismatch"; "digest_timestamping_verification_failed";
       "digest_timestamping_invalid_response"; "digest_timestamped_append_failed"]%string
  then Some IncidentType_DigestTimestampingMismatch
  else if starts_with error_code "digest_timestamping_" then Some IncidentType_DigestTimestampingMismatch
  else None.

Definition archive_incident_type (error_code : str) : option IncidentType :=
  if str_in error_code ["archive_export_mismatch"; "archive_export_content_mismatch";
       "archive_export_not_found"; "archive_export_verify_failed"; "archive_export_failed";
       "archive_exported_append_failed"]%string then Some IncidentType_ArchiveExportMismatch
  else if starts_with error_code "archive_export_" then Some IncidentType_ArchiveExportMismatch
  else None.

Definition severity_for_incident (incident_type : IncidentType) : IncidentSeverity :=
  match incident_type with
  | IncidentType_HashChainMismatch | IncidentType_LedgerSecretLeakSuspected
  | IncidentType_UnknownSignatureKey => IncidentSeverity_Critical
  | IncidentType_SignatureMismatch | IncidentType_MonthlyDigestMismatch
  | IncidentType_DigestTimestampingMismatch | IncidentType_ArchiveExportMismatch
  | IncidentType_SequenceGap => IncidentSeverity_High
  | IncidentType_NonAuditorLedgerRead | IncidentType_SiemLongFailure
  | IncidentType_AuditUiForbiddenOperation => IncidentSeverity_Medium
  end.

Definition dedupe_key (incident_type : IncidentType) (detection_source : str)
    (target_year_month : option MonthlyDigestPeriod) : str :=
  match target_year_month with
  | Some period => IncidentType_as_str incident_type +:+ ":" +:+ detection_source +:+ ":"
      +:+ MonthlyDigestPeriod_as_str period
  | None => IncidentType_as_str incident_type +:+ ":" +:+ detection_source
  end.

Definition digest_timestamping_incident_input (detection_source error_code : str)
    (period : MonthlyDigestPeriod) : option IncidentRecordInput :=
  incident_type ← digest_timestamping_incident_type error_code;
  Some (with_target_year_month (IncidentRecordInput_new incident_type (severity_for_incident incident_type)
    detection_source (dedupe_key incident_type detection_source (Some period)) error_code) period).

Definition archive_incident_input (detection_source error_code : str) (period : MonthlyDigestPeriod) :
    option IncidentRecordInput :=
  incident_type ← archive_incident_type error_code;
  Some (with_target_year_month (IncidentRecordInput_new incident_type (severity_for_incident incident_type)
    detection_source (dedupe_key incident_type detection_source (Some period)) error_code) period).

Definition non_auditor_ledger_read_input (detection_source : str) : IncidentRecordInput :=
  let incident_type := IncidentType_NonAuditorLedgerRead in
  IncidentRecordInput_new incident_type (severity_for_incident incident_type) detection_source
    (dedupe_key incident_type detection_source None) "non_auditor_ledger_read".

(** A [char]: its first byte and the continuation bytes after it. *)
Fixpoint unicode_chars (l : list ascii) : list (list ascii) :=
  match l with
  | [] => []
  | a :: l =>
      match unicode_chars l with
      | ((b :: _) as c) :: cs => if utf8_cont b then (a :: c) :: cs else [a] :: c :: cs
      | cs => [a] :: cs
      end
  end.
(** [ch.is_ascii_alphanumeric() || matches!(ch, '_' | '-')]: of one byte. *)
Definition is_dedupe_char (a : ascii) : bool :=
  between 48 57 a || between 65 90 a || between 97 122 a || Ascii.eqb a "_" || Ascii.eqb a "-".
Definition sanitize_step (sanitized : list ascii) (ch : list ascii) : list ascii :=
  let replaced := if bool_decide (last sanitized = Some "_"%char) then sanitized
    else sanitized ++ ["_"%char] in
  match ch with
  | [a] => if is_dedupe_char a then sanitized ++ [a] else replaced
  | _ => replaced
  end.
Fixpoint strip_underscores (l : list ascii) : list ascii :=
  match l with
  | a :: l' => if Ascii.eqb a "_" then strip_underscores l' else l
  | [] => []
  end.
Definition sanitize_dedupe_component (value : str) : str :=
  let sanitized := fold_left sanitize_step (take 48 (unicode_chars (chars value))) [] in
  let sanitized := reverse (strip_underscores (reverse (strip_underscores sanitized))) in
  if bool_decide (sanitized = []) then "unknown" else of_chars sanitized.

Definition audit_ui_forbidden_operation_input (detection_source operation : str) : IncidentRecordInput :=
  let incident_type := IncidentType_AuditUiForbiddenOperation in
  IncidentRecordInput_new incident_type (severity_for_incident incident_type) detection_source
    (IncidentType_as_str incident_type +:+ ":" +:+ detection_source +:+ ":"
      +:+ sanitize_dedupe_component operation) "audit_ui_forbidden_operation".

Definition ledger_secret_leak_suspected_input (detection_source : str) (sequence_no : option Z) :
    IncidentRecordInput :=
  let incident_type := IncidentType_LedgerSecretLeakSuspected in
  let input := IncidentRecordInput_new incident_type (severity_for_incident incident_type) detection_source
    (match sequence_no with
     | Some sequence_no => IncidentType_as_str incident_type +:+ ":" +:+ detection_source +:+ ":"
         +:+ int_to_string sequence_no
     | None => dedupe_key incident_type detection_source None
     end) "ledger_payload_forbidden_key" in
  match sequence_no with
  | Some sequence_no => with_target_sequence_no input sequence_no
  | None => input
  end.

Definition is_forbidden_ledger_payload_key (key : str) : bool :=
  let normalized := to_ascii_lowercase (trim key) in
  existsb (String.eqb normalized) FORBIDDEN_LEDGER_PAYLOAD_KEYS.

Fixpoint ledger_payload_contains_forbidden_key (value : Value) : bool :=
  match value with
  | JObject object =>
      (fix any object := match object with
        | [] => false
        | (key, nested) :: object =>
            (is_forbidden_ledger_payload_key key || ledger_payload_contains_forbidden_key nested) || any object
        end) object
  | JArray values =>
      (fix any values := match values with
        | [] => false
        | nested :: values => ledger_payload_contains_forbidden_key nested || any values
        end) values
  | JNull | JBool _ | JNumber _ | JString _ => false
  end.

Definition record_non_auditor_ledger_read (appender : LedgerAppender) (detection_source : str) :
    io World IncidentRecordError IncidentRecordResult :=
  incident_record appender (non_auditor_ledger_read_input detection_source).
Definition record_audit_ui_forbidden_operation (appender : LedgerAppender) (detection_source operation : str) :
    io World IncidentRecordError IncidentRecordResult :=
  incident_record appender (audit_ui_forbidden_operation_input detection_source operation).
Definition record_ledger_secret_leak_suspected (appender : LedgerAppender) (detection_source : str)
    (sequence_no : option Z) : io World IncidentRecordError IncidentRecordResult :=
  incident_record appender (ledger_secret_leak_suspected_input detection_source sequence_no).
End incidents.

(** ** Lemmas *)

Section incident_lemmas.
Context {P : Platform}.

Lemma is_forbidden_key_eq key : is_forbidden_ledger_payload_key key = is_forbidden_payload_key key.
Proof.
  unfold is_forbidden_ledger_payload_key, is_forbidden_payload_key, str_in. apply eq_true_iff_eq.
  rewrite existsb_exists bool_decide_eq_true. setoid_rewrite String.eqb_eq. setoid_rewrite <- list_elem_of_In.
  split; [by intros (x & Hx & <-)|eauto].
Qed.

Lemma search_rejects v :
  ledger_payload_contains_forbidden_key v = negb (bool_decide (reject_forbidden_payload_keys v = Ok tt)).
Proof.
  induction v as [| | | |l IH|m IH] using Value_ind'; try done.
  - cbn. induction IH as [|v l Hv _ IHl]; [done|]. rewrite Hv IHl. unfold reject_forbidden_payload_keys in *.
    by destruct (reject_keys _ _ v) as [[]|].
  - cbn -[is_forbidden_ledger_payload_key is_forbidden_payload_key]. induction IH as [|[k v] l Hv _ IHl]; [done|]. cbn [snd] in Hv. rewrite Hv IHl is_forbidden_key_eq.
    unfold reject_forbidden_payload_keys in *. destruct (is_forbidden_payload_key k); [done|].
    by destruct (reject_keys _ _ v) as [[]|].
Qed.

(** The sanitized text, while it is made. *)
Lemma sanitize_step_dedupe acc ch :
  Forall (λ a, is_dedupe_char a = true) acc → Forall (λ a, is_dedupe_char a = true) (sanitize_step acc ch).
Proof.
  intros Ha. assert (Forall (λ a, is_dedupe_char a = true) (acc ++ ["_"%char])) as Hu by (apply Forall_app; by repeat constructor).
  unfold sanitize_step. destruct ch as [|a [|b ch]]; [by case_bool_decide| |by case_bool_decide].
  destruct (is_dedupe_char a) eqn:E; [|by case_bool_decide]. apply Forall_app. by repeat constructor.
Qed.
Lemma sanitize_step_length acc ch : (length (sanitize_step acc ch) ≤ S (length acc))%nat.
Proof.
  unfold sanitize_step. destruct ch as [|a [|b ch]]; repeat case_match; rewrite ?length_app /=; lia.
Qed.
Lemma sanitize_fold l acc :
  Forall (λ a, is_dedupe_char a = true) acc →
  Forall (λ a, is_dedupe_char a = true) (fold_left sanitize_step l acc)
  ∧ (length (fold_left sanitize_step l acc) ≤ length acc + length l)%nat.
Proof.
  revert acc. induction l as [|ch l IH]; intros acc Ha; cbn [fold_left length]; [split; [done|lia]|].
  destruct (IH (sanitize_step acc ch)) as [H1 H2]; [by apply sanitize_step_dedupe|].
  split; [done|]. pose proof (sanitize_step_length acc ch). lia.
Qed.
Lemma strip_underscores_suffix l : strip_underscores l `suffix_of` l.
Proof. induction l as [|a l IH]; cbn; [done|]. destruct (Ascii.eqb a "_"); [by apply suffix_cons_r|done]. Qed.

Lemma Forall_suffix {A} (Q : A → Prop) k l : k `suffix_of` l → Forall Q l → Forall Q k.
Proof. intros [x ->] [_ ?]%Forall_app. done. Qed.

Lemma strip_both_sub (Q : ascii → Prop) l :
  Forall Q l →
  Forall Q (reverse (strip_underscores (reverse (strip_underscores l))))
  ∧ (length (reverse (strip_underscores (reverse (strip_underscores l)))) ≤ length l)%nat.
Proof.
  intros H. pose proof (strip_underscores_suffix l) as S1.
  pose proof (strip_underscores_suffix (reverse (strip_underscores l))) as S2. split.
  - apply Forall_reverse. eapply Forall_suffix; [exact S2|]. apply Forall_reverse. by eapply Forall_suffix.
  - apply suffix_length in S1, S2. rewrite length_reverse in S2. rewrite length_reverse. lia.
Qed.

Lemma sanitized_shape value :
  Forall (λ a, is_dedupe_char a = true) (chars (sanitize_dedupe_component value))
  ∧ 0 < str_len (sanitize_dedupe_component value) ≤ 48.
Proof.
  unfold sanitize_dedupe_component. case_bool_decide as Hn.
  { split; [apply (bool_decide_unpack _); by vm_compute|done]. }
  destruct (sanitize_fold (take 48 (unicode_chars (chars value))) []) as [H1 H2]; [constructor|].
  apply strip_both_sub in H1 as [H3 H4]. unfold str_len. rewrite -length_chars !chars_of_chars. split; [done|].
  rewrite length_take in H2. cbn [length] in H2.
  match goal with |- context [length ?l] => destruct l eqn:E; [done|]; rewrite -E end. rewrite E in H4 |- *. cbn [length] in *. lia.
Qed.
End incident_lemmas.

(** ** What makes an incident acceptable *)

Section acceptance.
Context {P : Platform}.

Definition short_text (n : Z) (s : str) : Prop := is_empty (trim s) = false ∧ str_len s ≤ n.

(** The limits that the audit log and the ledger set. *)
Record incident_valid (i : IncidentRecordInput) (sink : str) : Prop := {
  iv_source : short_text 128 (in_detection_source i);
  iv_dedupe_key : short_text 128 (in_dedupe_key i);
  iv_sink : short_text 128 sink;
  iv_error_code : short_text 64 (in_error_code i);
  iv_sequence_no : ∀ n, in_target_sequence_no i = Some n → 0 < n ≤ LEDGER_I64_MAX_U64;
  iv_period : ∀ p, in_target_year_month i = Some p → MonthlyDigestPeriod_parse (MonthlyDigestPeriod_as_str p) = Ok p;
}.

Lemma short_text_valid key n s : short_text n s → validate_short_string key (JString s) n = Ok tt.
Proof.
  intros [H1 H2]. unfold validate_short_string. cbn [as_str ok_or mbind result_bind]. rewrite H1. cbn [orb].
  by rewrite (proj2 (Z.ltb_ge _ _) H2).
Qed.

(** One field of an incident: a literal key with its check. *)
Definition incident_field (k : str) (v : Value) : Prop :=
  is_scalar v = true ∧ representable v = true
  ∧ k ∈ allowed_metadata_keys AuditAction_IncidentDetected AuditResult_Failure ∧ k ≠ TRIGGER_KEY
  ∧ field_valid AuditAction_IncidentDetected AuditResult_Failure k v.

Lemma incident_text k v check :
  bool_decide (k ∈ allowed_metadata_keys AuditAction_IncidentDetected AuditResult_Failure) = true →
  bool_decide (k ≠ TRIGGER_KEY) = true →
  map_get k (metadata_checks AuditAction_IncidentDetected AuditResult_Failure) = check →
  (∀ c, check = Some c → c (JString v) = Ok tt) → incident_field k (JString v).
Proof.
  intros H1%bool_decide_eq_true H2%bool_decide_eq_true H3 H4. split_and!; [done|done|done|done|].
  unfold field_valid. rewrite H3. destruct check; [by apply H4|done].
Qed.
End acceptance.

Ltac incident_text_field :=
  eapply incident_text; [vm_compute; reflexivity|vm_compute; reflexivity|reflexivity|intros c [= <-]].

Section raised.
Context {P : Platform}.

Lemma incident_fields_valid i nr sink :
  incident_valid i sink →
  Forall (λ p, incident_field p.1 p.2) (incident_fields i nr sink)
  ∧ incident_field "error_code" (JString (in_error_code i)).
Proof.
  intros [V1 V2 V3 V4 V5 V6]. split.
  - unfold incident_fields. repeat (apply Forall_cons; split; [cbn [fst snd]; incident_text_field|]).
    + by destruct (in_incident_type i).
    + by destruct (in_severity i).
    + by apply short_text_valid.
    + by apply short_text_valid.
    + by apply short_text_valid.
    + by destruct nr.
    + constructor.
  - incident_text_field. by apply short_text_valid.
Qed.

Lemma Forall_opt_field (Q : str * Value → Prop) k o : (∀ v, o = Some v → Q (k, v)) → Forall Q (opt_field k o).
Proof. intros H. destruct o; cbn; [constructor; [by apply H|constructor]|constructor]. Qed.

Lemma incident_target_valid i sink :
  incident_valid i sink → Forall (λ p, incident_field p.1 p.2) (incident_target_fields i).
Proof.
  intros [V1 V2 V3 V4 V5 V6]. apply Forall_app. split; apply Forall_opt_field; intros v (x & Hx & ->)%fmap_Some_1; cbn [fst snd].
  - apply V5 in Hx. apply number_field_valid; [right; split; [literal_key|lia]| |literal_key|literal_key].
    unfold LEDGER_I64_MAX_U64, u64_max in *. lia.
  - apply V6 in Hx. incident_text_field. unfold period_check. cbn [as_str ok_or mbind result_bind]. by rewrite Hx.
Qed.

Lemma incident_metadata_builds {LU : UuidLaws P} i nr sink t :
  incident_valid i sink → SourceEventAt_parse (SourceEventAt_as_str t) = Ok t →
  is_ok (build_incident_metadata i nr sink t) = true.
Proof.
  intros Hi Ht. destruct (incident_fields_valid i nr sink Hi) as [F1 F2]. pose proof (incident_target_valid i sink Hi) as F3.
  unfold build_incident_metadata.
  match goal with |- context [map_of_list ?x] => set (l := x) end.
  assert (fields_valid AuditAction_IncidentDetected AuditResult_Failure l) as Hl.
  { split; [done|split].
    - unfold l, incident_target_fields. destruct (in_incident_source_event_id i), (in_target_sequence_no i), (in_target_year_month i); literal_key.
    - apply Forall_app; split; [exact F1|]. apply Forall_app; split.
      { apply Forall_cons; split; [exact F2|]. apply Forall_cons; split; [|constructor]. cbn [fst snd]. by incident_text_field. }
      apply Forall_app; split; [apply Forall_opt_field|exact F3].
      intros v (e & He & ->)%fmap_Some_1. cbn [fst snd]. incident_text_field. unfold source_event_id_check.
      cbn [as_str ok_or mbind result_bind]. by rewrite AuditEventId_parse_canonical. }
  assert (map_get SOURCE_EVENT_AT_KEY l = Some (json_time t)) as Htime by reflexivity.
  pose proof (fields_metadata _ _ l Hl) as Hb. unfold build_object, AuditMetadata_new in Hb. cbn [as_object ok_or mbind result_bind] in Hb.
  rewrite Hb; [|intros v Hv; rewrite Htime in Hv; injection Hv as <-; by exists t].
  destruct (fields_accepted _ _ l t Hl Htime Ht) as [_ Hacc]; [|by rewrite /= Hacc].
  intros k Hk. unfold l. rewrite !fmap_app !elem_of_app. cbn in Hk |- *. set_solver +Hk.
Qed.

(** The ledger refuses such an incident for nothing but the size of its payload. *)
Lemma incident_payload_fields i nr sink :
  incident_valid i sink →
  let object := map_of_list (incident_fields i nr sink ++ incident_target_fields i) in
  reject_forbidden_payload_keys (JObject object) = Ok tt
  ∧ validate_payload_object LedgerEntryType_IncidentDetected object = Ok tt.
Proof.
  intros [V1 V2 V3 V4 V5 V6] object.
  assert (NoDup (incident_fields i nr sink ++ incident_target_fields i).*1) as Hnd.
  { unfold incident_target_fields. destruct (in_target_sequence_no i), (in_target_year_month i); literal_key. }
  assert (∀ k s, short_text 128 s → validate_non_blank_short_string k (JString s) = Ok tt) as Hs.
  { intros k s [H1 H2]. unfold validate_non_blank_short_string. cbn [as_str ok_or mbind result_bind].
    by rewrite H1 (proj2 (Z.ltb_ge _ _) H2). }
  assert (Forall (λ p, p.1 ∈ LedgerEntryType_allowed_payload_keys LedgerEntryType_IncidentDetected ∧ is_scalar p.2 = true
    ∧ validate_payload_field p.1 p.2 = Ok tt) (incident_fields i nr sink ++ incident_target_fields i)) as Hf.
  { apply Forall_app. split.
    - unfold incident_fields. repeat (apply Forall_cons; split; [cbn [fst snd]; split; [literal_key|split; [done|]]|]); [..|constructor].
      + by destruct (in_incident_type i).
      + by destruct (in_severity i).
      + exact (Hs _ _ V1).
      + exact (Hs _ _ V2).
      + exact (Hs _ _ V3).
      + by destruct nr.
    - apply Forall_app. split; apply Forall_opt_field; intros v (x & Hx & ->)%fmap_Some_1; cbn [fst snd];
        (split; [literal_key|split; [done|]]).
      + apply V5 in Hx. change (validate_payload_field "target_sequence_no" (json_uint x))
          with (parsed ← require_positive_json_u64 "target_sequence_no" (json_uint x); Ok tt : result LedgerError unit).
        unfold require_positive_json_u64, require_json_u64. cbn. unfold LEDGER_I64_MAX_U64 in *.
        rewrite (proj2 (Z.ltb_ge _ x)); [|lia]. cbn [mbind result_bind]. by rewrite (proj2 (Z.eqb_neq x 0)); [|lia].
      + apply V6 in Hx. change (validate_year_month_value "target_year_month" (JString (MonthlyDigestPeriod_as_str x)) = Ok tt).
        pose proof (year_month_checks_agree "target_year_month" (MonthlyDigestPeriod_as_str x)) as Hy. rewrite Hx in Hy.
        by destruct (validate_year_month_value _ _) as [[]|]. }
  assert (∀ p, p ∈ object → p.1 ∈ LedgerEntryType_allowed_payload_keys LedgerEntryType_IncidentDetected ∧ is_scalar p.2 = true
    ∧ validate_payload_field p.1 p.2 = Ok tt) as Ho.
  { intros p Hp. unfold object in Hp. rewrite elem_map_of_list // in Hp. by apply (proj1 (Forall_forall _ _) Hf). }
  split.
  - pose proof (reject_keys_spec is_forbidden_payload_key LedgerError_ForbiddenPayloadKey (JObject object)) as Hspec.
    change (reject_keys _ _) with reject_forbidden_payload_keys in Hspec.
    destruct (reject_forbidden_payload_keys (JObject object)) as [[]|]; [done|]. cbn [keys_verdict] in Hspec.
    destruct Hspec as (k & _ & Hk & Hbad). apply flat_key_occurs in Hk; [|by apply Forall_forall; intros p (_ & ? & _)%Ho].
    apply list_elem_of_fmap_1 in Hk as (p & -> & (Hp & _)%Ho). by rewrite (allowed_key_not_forbidden _ _ Hp) in Hbad.
  - apply validate_payload_object_Ok. split; [by apply Forall_forall|].
    unfold object, incident_target_fields. by destruct (in_target_sequence_no i), (in_target_year_month i).
Qed.
End raised.

(** ** What the checks raise *)

Section raised_incidents.
Context {P : Platform}.

(** The name of a detection source or the code of an error: a short identifier. *)
Definition identifier (n : Z) (s : str) : Prop :=
  0 < str_len s ≤ n ∧ Forall (λ a, is_dedupe_char a = true) (chars s).

Inductive raised (source : str) : IncidentRecordInput → Prop :=
| raised_ledger_read : raised source (non_auditor_ledger_read_input source)
| raised_ui_operation operation : raised source (audit_ui_forbidden_operation_input source operation)
| raised_leak : raised source (ledger_secret_leak_suspected_input source None)
| raised_archive code period input :
    archive_incident_input source code period = Some input → identifier 64 code →
    MonthlyDigestPeriod_parse (MonthlyDigestPeriod_as_str period) = Ok period → raised source input
| raised_timestamping code period input :
    digest_timestamping_incident_input source code period = Some input → identifier 64 code →
    MonthlyDigestPeriod_parse (MonthlyDigestPeriod_as_str period) = Ok period → raised source input.

Lemma str_len_app s t : str_len (s +:+ t) = str_len s + str_len t.
Proof. unfold str_len. rewrite -!length_chars chars_app length_app. lia. Qed.
Lemma str_len_nonneg s : 0 ≤ str_len s.
Proof. unfold str_len. lia. Qed.
Lemma dedupe_char_plain a : is_dedupe_char a = true → plain a = true.
Proof. destruct a as [[] [] [] [] [] [] [] []]; by vm_compute. Qed.

Lemma plain_short n s : 0 < str_len s ≤ n → Forall (λ a, plain a = true) (chars s) → short_text n s.
Proof.
  intros Hl Hp. split; [|lia]. rewrite trim_all_plain //. apply is_empty_false. intros ->. unfold str_len in Hl. cbn in Hl. lia.
Qed.
Lemma identifier_short n s : identifier n s → short_text n s.
Proof.
  intros [Hl Hf]. apply plain_short; [done|]. eapply Forall_impl; [exact Hf|]. intros a. apply dedupe_char_plain.
Qed.
Lemma period_text p :
  MonthlyDigestPeriod_parse (MonthlyDigestPeriod_as_str p) = Ok p →
  str_len (MonthlyDigestPeriod_as_str p) = 7 ∧ Forall (λ a, plain a = true) (chars (MonthlyDigestPeriod_as_str p)).
Proof.
  unfold MonthlyDigestPeriod_parse. intros H. inv_ok.
  match goal with H : validate_year_month_format _ = Ok ?u |- _ => destruct u; apply year_month_Ok in H as (Hl & H4 & Ht & Hd & _) end.
  split; [unfold str_len; rewrite -length_chars Hl; done|].
  assert (∀ a, is_ascii_digit a = true → plain a = true) as Hdig.
  { intros a. destruct a as [[] [] [] [] [] [] [] []]; by vm_compute. }
  rewrite -(take_drop 4 (chars _)) Forall_app. split.
  - apply Forall_forall. intros a Ha%list_elem_of_In. apply Hdig. by apply (proj1 (forallb_forall _ _) Ht).
  - rewrite (drop_S _ _ _ H4). constructor; [done|].
    apply Forall_forall. intros a Ha%list_elem_of_In. apply Hdig. by apply (proj1 (forallb_forall _ _) Hd).
Qed.

(** A deduplication key made of a literal, the source and a suffix. *)
Lemma key_short prefix source suffix :
  str_len prefix ≤ 30 → Forall (λ a, plain a = true) (chars prefix) → identifier 48 source →
  0 ≤ str_len suffix ≤ 48 → Forall (λ a, plain a = true) (chars suffix) →
  short_text 128 (prefix +:+ ":" +:+ source +:+ ":" +:+ suffix) ∧ short_text 128 (prefix +:+ ":" +:+ source).
Proof.
  intros H1 H2 [[H3 H3'] H4] H5 H6.
  assert (Forall (λ a, plain a = true) (chars source)) as H4' by (eapply Forall_impl; [exact H4|]; intros a; apply dedupe_char_plain).
  split; apply plain_short; rewrite ?str_len_app ?chars_app ?Forall_app; try (by split_and!; try done; repeat constructor).
  - change (str_len ":") with 1. pose proof (str_len_nonneg prefix). lia.
  - change (str_len ":") with 1. pose proof (str_len_nonneg prefix). lia.
Qed.

Lemma raised_valid source input sink :
  identifier 48 source → short_text 128 sink → raised source input → incident_valid input sink.
Proof.
  intros Hs Hk Hr. assert (short_text 128 source) as Hs'.
  { apply identifier_short in Hs as [? ?]. split; [done|lia]. }
  destruct Hr as [|operation| |code period input Hi Hc Hp|code period input Hi Hc Hp].
  - split; try done. apply (key_short "non_auditor_ledger_read" source EmptyString); [done|literal_key|done|done|literal_key].
  - destruct (sanitized_shape operation) as [Hf Hl]. split; try done.
    apply (key_short "audit_ui_forbidden_operation" source (sanitize_dedupe_component operation));
      [done|literal_key|done|lia|]. eapply Forall_impl; [exact Hf|]. intros a. apply dedupe_char_plain.
  - split; try done. apply (key_short "ledger_secret_leak_suspected" source EmptyString); [done|literal_key|done|done|literal_key].
  - destruct (period_text _ Hp) as [Hl Hf]. apply identifier_short in Hc.
    unfold archive_incident_input in Hi. apply bind_Some in Hi as (t & _ & [= <-]).
    split; try done; [|by intros p [= <-]].
    apply (key_short (IncidentType_as_str t) source (MonthlyDigestPeriod_as_str period));
      [by destruct t|destruct t; literal_key|done|lia|done].
  - destruct (period_text _ Hp) as [Hl Hf]. apply identifier_short in Hc.
    unfold digest_timestamping_incident_input in Hi. apply bind_Some in Hi as (t & _ & [= <-]).
    split; try done; [|by intros p [= <-]].
    apply (key_short (IncidentType_as_str t) source (MonthlyDigestPeriod_as_str period));
      [by destruct t|destruct t; literal_key|done|lia|done].
Qed.
End raised_incidents.

(** ** Properties *)

Section incident_theorems.
Context {P : Platform} {IS : IncidentService} {NS : NotificationSink} {Svc : LedgerService}.

(** The search for a leaked secret finds exactly what the ledger would have
    refused: a payload has a forbidden key, at any depth, if and only if its
    validation fails on such a key. *)
Theorem leak_search_agrees v :
  (ledger_payload_contains_forbidden_key v = true ↔ ∃ k, key_occurs k v ∧ is_forbidden_payload_key k = true)
  ∧ (ledger_payload_contains_forbidden_key v = false ↔ reject_forbidden_payload_keys v = Ok tt).
Proof.
  rewrite search_rejects.
  pose proof (reject_keys_spec is_forbidden_payload_key LedgerError_ForbiddenPayloadKey v) as Hspec.
  change (reject_keys _ _) with reject_forbidden_payload_keys in Hspec.
  destruct (reject_forbidden_payload_keys v) as [[]|e]; cbn [keys_verdict] in Hspec.
  - rewrite bool_decide_eq_true_2 //. split; [|done]. split; [done|]. intros (k & Hk & Hf).
    by rewrite (Hspec k Hk) in Hf.
  - rewrite bool_decide_eq_false_2 //. split; [|done]. split; [|done]. intros _. destruct Hspec as (k & _ & ?). eauto.
Qed.

(** No incident that the checks raise is lost to validation: its metadata is
    accepted by the audit log and its payload by the ledger, but for a limit on the
    size of the whole payload, however long the operation it reports. *)
Theorem raised_incidents_are_accepted {LU : UuidLaws P} source input nr sink t :
  identifier 48 source → short_text 128 sink → SourceEventAt_parse (SourceEventAt_as_str t) = Ok t →
  raised source input →
  is_ok (build_incident_metadata input nr sink t) = true
  ∧ match build_incident_ledger_payload input nr sink with
    | Ok _ => True
    | Err e => (∃ text, e = IncidentRecordError_InvalidLedgerPayload (LedgerError_SerializationFailed text))
        ∨ e = IncidentRecordError_InvalidLedgerPayload (LedgerError_PayloadTooLarge LEDGER_PAYLOAD_MAX_CANONICAL_BYTES)
    end.
Proof.
  intros Hs Hk Ht Hr. pose proof (raised_valid _ _ _ Hs Hk Hr) as Hv. split; [by apply incident_metadata_builds|].
  destruct (incident_payload_fields input nr sink Hv) as [H1 H2].
  unfold build_incident_ledger_payload, LedgerPayload_new. cbn [as_object ok_or mbind result_bind].
  rewrite H1. cbn [mbind result_bind]. rewrite H2. cbn [mbind result_bind]. unfold ensure_payload_size.
  destruct (serde_to_vec _) as [b|text]; cbn [map_err mbind result_bind]; [|by eauto]. case_if; cbn [map_err]; [by right|done].
Qed.

(** The answer of the database, when it is accepted. *)
Lemma record_incident_Ok input event entry nr w outcome w' :
  record_incident input event entry nr w = (Ok outcome, w') →
  ∃ row rows, svc_record_incident (RecordIncidentParams_from_input input event entry nr) w = (Ok (row :: rows), w')
    ∧ AuditEventId_parse (rir_audit_event_id row) = Ok (io_audit_event_id outcome)
    ∧ if io_suppressed outcome then rir_suppressed row = true
      else rir_suppressed row = false ∧ is_Some (rir_ledger_entry_id row).
Proof.
  unfold record_incident, first_row, IncidentRecordOutcome_try_from. intros H. inv_run.
  match goal with H : head ?l = Some _ |- _ => destruct l as [|row rows]; [done|]; injection H as -> end.
  case_if; [done|]. simplify_eq. eexists _, rows. split_and!; [done..|]. cbn.
  destruct (rir_suppressed _), (rir_ledger_entry_id _); done || by eauto.
Qed.

Lemma record_attempts_Ok {LE : Ed25519Laws P} appender input event draft nr retries w r w' :
  record_attempts appender input event draft nr retries w = (Ok r, w') →
  ∃ entry n h outcome w1, record_incident input event entry nr w1 = (Ok outcome, w')
    ∧ se_fields entry = entry_fields draft n h (sk_key_version (signing_key appender))
    ∧ r = mk_IncidentRecordResult (Some (io_audit_event_id outcome)) nr (io_suppressed outcome).
Proof.
  revert w. induction retries as [|i retries IH]; intros w; cbn [record_attempts]; [done|]. intros H.
  apply io_bind_Ok in H as (entries & w1 & He & H). apply io_map_err_Ok in He.
  apply io_bind_Ok in H as (entry & w2 & [Hh%ok_or_Ok ->]%lift_Ok & H).
  destruct (sign_entry_fields _ _ _ _ _ _ He Hh) as (n & h & Hf). unfold io_match in H.
  destruct (record_incident input event entry nr w1) as [[outcome|e] w3] eqn:Hr.
  - injection H as <- <-. by exists entry, n, h, outcome, w1.
  - destruct (_ && _); [by apply IH in H|done].
Qed.

(** C29. What becomes of an incident that is reported.  Either the database had seen it
    within its window, and then nothing is sent or written.  Or it is notified, and the
    database, perhaps after conflicts that were tried again, answers a call for this
    incident that has an event and the signed entry of the ledger that names it.  It
    answers in one of two ways: with the identifier of the entry it took, and then the
    result is not suppressed; or that it suppressed the call, having seen the incident
    in the meantime, and then the result is suppressed too, although the notification
    went out. *)
Theorem incident_is_recorded_or_known {LE : Ed25519Laws P} appender input w r w' :
  incident_record appender input w = (Ok r, w') →
  ∃ t w1, SourceEventAt_now_utc w = (Ok t, w1) ∧
    ((incident_recently_seen input t w1 = (Ok true, w')
      ∧ r = mk_IncidentRecordResult None NotificationResult_Suppressed true)
     ∨ ∃ w2 nr w3 event entry row rows w4 id,
         incident_recently_seen input t w1 = (Ok false, w2) ∧ deliver_notification input w2 = (nr, w3)
         ∧ svc_record_incident (RecordIncidentParams_from_input input event entry nr) w4 = (Ok (row :: rows), w')
         ∧ AuditEventId_parse (rir_audit_event_id row) = Ok id
         ∧ ev_action (event_parts event) = AuditAction_IncidentDetected
         ∧ cf_entry_type (se_fields entry) = LedgerEntryType_IncidentDetected
         ∧ cf_source_event_id (se_fields entry) = Some (ev_audit_event_id (event_parts event))
         ∧ cf_source_event_at (se_fields entry) = t
         ∧ cf_error_code (se_fields entry) = Some (in_error_code input)
         ∧ ((rir_suppressed row = false ∧ is_Some (rir_ledger_entry_id row)
             ∧ r = mk_IncidentRecordResult (Some id) nr false)
            ∨ (rir_suppressed row = true ∧ r = mk_IncidentRecordResult (Some id) nr true))).
Proof.
  unfold incident_record. intros H. apply io_bind_Ok in H as (t & w1 & Ht%io_map_err_Ok & H).
  exists t, w1. split; [done|]. apply io_bind_Ok in H as (seen & w2 & Hs%io_map_err_Ok & H).
  destruct seen; [by injection H as <- <-; left|]. right.
  destruct (deliver_notification input w2) as [nr w3] eqn:Hn. unfold record_after_notification in H. inv_run.
  match goal with H : record_attempts _ _ _ _ _ _ _ = _ |- _ =>
    apply record_attempts_Ok in H as (entry & n & h & outcome & w9 & Hrec & Hf & ->) end.
  match goal with H : LedgerAppendDraft_new _ = _ |- _ => apply LedgerAppendDraft_new_Ok in H as [-> _] end.
  match goal with H : AuditEvent_new _ = _ |- _ => apply AuditEvent_new_Ok in H as [-> _] end.
  apply record_incident_Ok in Hrec as (row & rows & Hcall & Hid & Hrow).
  eexists _, nr, w3, _, entry, row, rows, w9, (io_audit_event_id outcome). rewrite Hf. split_and!; try done.
  destruct (io_suppressed outcome); [by right|by left; destruct Hrow].
Qed.

(** Components of deduplication keys are short identifiers, whatever was reported. *)
Theorem dedupe_component_bounded operation : identifier 48 (sanitize_dedupe_component operation).
Proof. destruct (sanitized_shape operation) as [Hf Hl]. by split. Qed.
End incident_theorems.
