(* ===== verification/KeyRotation.v ===== *)
(** * Master key rotation ([src/server/key_rotation/], and its calls in
    [src/server/supabase/key_rotation_rpc.rs])

    Rotating a master key unwraps the data key of every stored version with the
    old master key and wraps it with the new one; ciphertexts are not touched.
    The commands of the command line read their flags, ask the database for a
    batch of rows, rewrap them, and send them back together with an audit event
    and a signed ledger entry.  What they print is left out. *)

From S2P Require Import Prelude RustStd Json Platform Reference Errors Types Aad Crypto Authorization SecretStore AuditTypes LedgerTypes LedgerPayload LedgerEntry LedgerChain LedgerRpc LedgerAppender Digest AuditEvent AuditBuilders.

Inductive KeyRotationCliError :=
| KeyRotationCliError_Usage (message : str)
| KeyRotationCliError_Config (message : str)
| KeyRotationCliError_Audit (message : str)
| KeyRotationCliError_Crypto (message : str)
| KeyRotationCliError_Supabase (error : SupabaseRpcError).

Definition newline : str := String (ascii_of_nat 10) EmptyString.
Definition usage : str :=
  "usage:" +:+ newline +:+ "  mipsorcu" +:+ newline
  +:+ "  mipsorcu key-rotation status --key-version <n>" +:+ newline
  +:+ "  mipsorcu key-rotation start --old-key-version <old> --new-key-version <new>" +:+ newline
  +:+ "  mipsorcu key-rotation rewrap --old-key-version <old> --new-key-version <new> --batch-limit <n>"
  +:+ newline
  +:+ "  mipsorcu key-rotation complete --old-key-version <old> --new-key-version <new>".

(** ** Flags ([flags.rs]) *)

(** The [while] loop of [parse_required_flag] from the current index on. *)
Fixpoint parse_flag_loop (args : list str) (flag : str) (found : option str) :
    result KeyRotationCliError str :=
  match args with
  | [] => ok_or found (KeyRotationCliError_Usage ("missing required flag " +:+ flag))
  | current :: rest =>
      if negb (starts_with current "--") then Err (KeyRotationCliError_Usage usage) else
      match rest with
      | [] => Err (KeyRotationCliError_Usage (current +:+ " requires a value"))
      | value :: rest =>
          if starts_with value "--"
          then Err (KeyRotationCliError_Usage (current +:+ " requires a value"))
          else if String.eqb current flag then
            match found with
            | Some _ => Err (KeyRotationCliError_Usage (flag +:+ " must be provided once"))
            | None => parse_flag_loop rest flag (Some value)
            end
          else parse_flag_loop rest flag found
      end
  end.
Definition parse_required_flag (args : list str) (flag : str) : result KeyRotationCliError str :=
  parse_flag_loop args flag None.

Definition parse_key_version_flag (args : list str) (flag : str) :
    result KeyRotationCliError KeyVersion :=
  let error := KeyRotationCliError_Usage (flag +:+ " must be a positive integer") in
  value ← parse_required_flag args flag;
  parsed ← ok_or (parse_u32 value) error;
  KeyVersion_new parsed !? (λ _, error).

Definition parse_positive_u32_flag (args : list str) (flag : str) : result KeyRotationCliError Z :=
  let error := KeyRotationCliError_Usage (flag +:+ " must be a positive integer") in
  value ← parse_required_flag args flag;
  parsed ← ok_or (parse_u32 value) error;
  if parsed =? 0 then Err error else Ok parsed.

(** ** Rows exchanged with the database ([types/supabase.rs]) *)

Record KeyRotationBatchRow := mk_KeyRotationBatchRow {
  br_id : str;
  br_secret_id : str;
  br_version : Z;
  br_encrypted_data_key : str;
  br_key_version : Z;
}.
Record KeyRotationApplyRow := mk_KeyRotationApplyRow {
  ar_id : str;
  ar_encrypted_data_key : str;
}.
(** The responses are converted field by field into types with the same fields. *)
Record KeyRotationStatus := mk_KeyRotationStatus {
  st_key_version : Z;
  st_remaining_count : Z;
}.
Record KeyRotationApplyOutcome := mk_KeyRotationApplyOutcome {
  ao_processed_count : Z;
  ao_remaining_count : Z;
}.
Record KeyRotationCompleteOutcome := mk_KeyRotationCompleteOutcome { co_remaining_count : Z }.

Section rotation.
Context {P : Platform}.

(** ** Bytea text ([bytea.rs]) and rows ([rotation_row.rs]) *)

Definition decode_bytea (value : str) : result KeyRotationCliError bytes :=
  hex_value ← ok_or (strip_prefix "\x" value)
    (KeyRotationCliError_Config "rotation row bytea is not hex encoded");
  ok_or (hex_decode hex_value) (KeyRotationCliError_Config "rotation row bytea is invalid").
Definition encode_bytea (b : bytes) : str := "\x" +:+ hex_encode b.

Record ParsedRotationBatchRow := mk_ParsedRotationBatchRow {
  pr_id : str;
  pr_secret_id : SecretId;
  pr_encrypted_data_key : EncryptedDataKey;
}.

Definition ok {E A} (r : result E A) : option A := match r with Ok a => Some a | Err _ => None end.

Definition parse_rotation_batch_row (row : KeyRotationBatchRow) (expected_key_version : KeyVersion) :
    result KeyRotationCliError ParsedRotationBatchRow :=
  key_version ← ok_or (value ← u_try_from u32_max (br_key_version row); ok (KeyVersion_new value))
    (KeyRotationCliError_Config "rotation row key_version is invalid");
  if negb (bool_decide (key_version = expected_key_version))
  then Err (KeyRotationCliError_Config
    "rotation row key_version does not match requested old key version")
  else
  _ ← ok_or (value ← u_try_from u32_max (br_version row); ok (SecretVersion_new value))
    (KeyRotationCliError_Config "rotation row version is invalid");
  secret_id ← SecretId_parse (br_secret_id row)
    !? (λ _, KeyRotationCliError_Config "rotation row secret_id is invalid");
  encrypted_data_key_bytes ← decode_bytea (br_encrypted_data_key row);
  encrypted_data_key ← EncryptedDataKey_parse encrypted_data_key_bytes
    !? (λ _, KeyRotationCliError_Config "rotation row encrypted_data_key is invalid");
  Ok (mk_ParsedRotationBatchRow (br_id row) secret_id encrypted_data_key).

(** ** Audit events ([audit_event.rs]) *)

Definition audit_failure (error : AuditEventError) : KeyRotationCliError :=
  KeyRotationCliError_Audit (AuditEventError_to_string error).

(** The body the three functions share: build, add the time, make the event. *)
Definition build_key_rotation_event (request_id : RequestId) (action : AuditAction)
    (new_key_version : KeyVersion) (built : result AuditEventError AuditMetadata) :
    io World KeyRotationCliError AuditEvent :=
  metadata ← (m ← lift built; AuditMetadata_with_current_source_event_at m) !?? audit_failure;
  audit_event_id ← AuditEventId_generate !?? audit_failure;
  lift (AuditEvent_new (mk_AuditEventParts audit_event_id request_id None None action None
    AuditResult_Success (Some new_key_version) metadata) !? audit_failure).

Definition build_key_rotation_start_event (request_id : RequestId)
    (old_key_version new_key_version : KeyVersion) : io World KeyRotationCliError AuditEvent :=
  build_key_rotation_event request_id AuditAction_KeyRotationStart new_key_version
    (KeyRotationStartMetadata_build (KeyRotationStartMetadata_new old_key_version new_key_version)).
Definition build_key_rotation_reencrypt_event (request_id : RequestId)
    (old_key_version new_key_version : KeyVersion) (batch_size processed_count remaining_count : Z) :
    io World KeyRotationCliError AuditEvent :=
  build_key_rotation_event request_id AuditAction_KeyRotationReencrypt new_key_version
    (KeyRotationReencryptMetadata_build (KeyRotationReencryptMetadata_new old_key_version
      new_key_version batch_size processed_count remaining_count)).
Definition build_key_rotation_complete_event (request_id : RequestId)
    (old_key_version new_key_version : KeyVersion) (remaining_count : Z) :
    io World KeyRotationCliError AuditEvent :=
  build_key_rotation_event request_id AuditAction_KeyRotationComplete new_key_version
    (KeyRotationCompleteMetadata_build (KeyRotationCompleteMetadata_new old_key_version
      new_key_version remaining_count)).

(** ** Ledger entries ([ledger.rs]) *)

Definition ledger_failure (error : LedgerError) : KeyRotationCliError :=
  KeyRotationCliError_Audit (LedgerError_to_string error).

Definition build_key_rotation_ledger_draft (event : AuditEvent) (entry_type : LedgerEntryType)
    (payload_value : Value) : io World KeyRotationCliError LedgerAppendDraft :=
  payload ← lift (LedgerPayload_new entry_type payload_value !? ledger_failure);
  source_event_at ← lift (AuditEvent_source_event_at event !? audit_failure);
  ledger_entry_id ← LedgerEntryId_generate !?? ledger_failure;
  lift (LedgerAppendDraft_new (mk_LedgerAppendDraft ledger_entry_id entry_type source_event_at
    (ev_request_id (event_parts event)) (Some (ev_audit_event_id (event_parts event)))
    None None None None LedgerResult_Success None payload) !? ledger_failure).

Context {Svc : LedgerService}.

Definition sign_single_ledger_entry (appender : LedgerAppender) (draft : LedgerAppendDraft) :
    io World KeyRotationCliError SignedLedgerEntry :=
  signed_entries ← sign_entries appender [draft]
    !?? (λ error, KeyRotationCliError_Audit (LedgerAppendError_to_string error));
  lift (ok_or (head signed_entries)
    (KeyRotationCliError_Audit "ledger entry signing returned no entry")).

(** ** The database ([key_rotation_rpc.rs], [ledger_rpc.rs]) *)

Record ApplyKeyRotationBatchParams := mk_ApplyKeyRotationBatchParams {
  ap_request_id : str;
  ap_old_key_version : Z;
  ap_new_key_version : Z;
  ap_rows : list KeyRotationApplyRow;
  ap_audit_event_id : str;
  ap_source_event_at : str;
  ap_ledger_entry : LedgerEntryRpcParams;
}.
Record CompleteKeyRotationParams := mk_CompleteKeyRotationParams {
  cp_request_id : str;
  cp_old_key_version : Z;
  cp_new_key_version : Z;
  cp_audit_event_id : str;
  cp_source_event_at : str;
  cp_ledger_entry : LedgerEntryRpcParams;
}.

(** The fields of the event and those of the entry, of which the entry's request,
    actor, target secret and result are not sent. *)
Record AppendAuditEventWithLedgerParams := mk_AppendAuditEventWithLedgerParams {
  wl_audit_event_id : str;
  wl_request_id : str;
  wl_actor_user_id : option str;
  wl_actor_device_id : option str;
  wl_action : str;
  wl_target_secret_id : option str;
  wl_result : str;
  wl_key_version : option Z;
  wl_metadata_json : Value;
  wl_ledger_entry_id : str;
  wl_sequence_no : Z;
  wl_entry_type : str;
  wl_source_event_at : str;
  wl_source_event_id : option str;
  wl_target_secret_version_id : option str;
  wl_error_code : option str;
  wl_payload : Value;
  wl_canonicalization_version : Z;
  wl_previous_entry_hash : str;
  wl_entry_hash : str;
  wl_hash_algorithm : str;
  wl_signature : str;
  wl_signature_algorithm : str;
  wl_signature_key_version : Z;
}.

Definition from_event_and_entry (event : AuditEvent) (entry : SignedLedgerEntry) :
    AppendAuditEventWithLedgerParams :=
  let ledger_entry := LedgerEntryRpcParams_from_signed_entry entry in
  let e := event_parts event in {|
  wl_audit_event_id := AuditEventId_as_canonical_string (ev_audit_event_id e);
  wl_request_id := RequestId_as_canonical_string (ev_request_id e);
  wl_actor_user_id := OwnerUserId_as_canonical_string <$> ev_actor_user_id e;
  wl_actor_device_id := DeviceId_as_str <$> ev_actor_device_id e;
  wl_action := AuditAction_as_str (ev_action e);
  wl_target_secret_id := SecretId_as_canonical_string <$> ev_target_secret_id e;
  wl_result := AuditResult_as_str (ev_result e);
  wl_key_version := KeyVersion_get <$> ev_key_version e;
  wl_metadata_json := AuditMetadata_as_value (ev_metadata_json e);
  wl_ledger_entry_id := p_ledger_entry_id ledger_entry;
  wl_sequence_no := p_sequence_no ledger_entry;
  wl_entry_type := p_entry_type ledger_entry;
  wl_source_event_at := p_source_event_at ledger_entry;
  wl_source_event_id := p_source_event_id ledger_entry;
  wl_target_secret_version_id := p_target_secret_version_id ledger_entry;
  wl_error_code := p_error_code ledger_entry;
  wl_payload := p_payload ledger_entry;
  wl_canonicalization_version := p_canonicalization_version ledger_entry;
  wl_previous_entry_hash := p_previous_entry_hash ledger_entry;
  wl_entry_hash := p_entry_hash ledger_entry;
  wl_hash_algorithm := p_hash_algorithm ledger_entry;
  wl_signature := p_signature ledger_entry;
  wl_signature_algorithm := p_signature_algorithm ledger_entry;
  wl_signature_key_version := p_signature_key_version ledger_entry;
|}.

(** The remote calls: the rows each returns, or why it failed. *)
Class KeyRotationService := {
  svc_key_rotation_status : Z → io World SupabaseRpcError (list KeyRotationStatus);
  svc_list_key_rotation_batch : Z → Z → io World SupabaseRpcError (list KeyRotationBatchRow);
  svc_apply_key_rotation_batch :
    ApplyKeyRotationBatchParams → io World SupabaseRpcError (list KeyRotationApplyOutcome);
  svc_complete_key_rotation :
    CompleteKeyRotationParams → io World SupabaseRpcError (list KeyRotationCompleteOutcome);
  svc_append_audit_event_with_ledger :
    AppendAuditEventWithLedgerParams → io World SupabaseRpcError (list AppendLedgerEntryResponse);
}.
Context {Rot : KeyRotationService}.

Definition call_key_rotation_status (key_version : KeyVersion) :
    io World SupabaseRpcError KeyRotationStatus :=
  rows ← svc_key_rotation_status (KeyVersion_get key_version);
  lift (ok_or (head rows) SupabaseRpcError_EmptyResult).

Definition call_list_key_rotation_batch (old_key_version : KeyVersion) (batch_limit : Z) :
    io World SupabaseRpcError (list KeyRotationBatchRow) :=
  svc_list_key_rotation_batch (KeyVersion_get old_key_version) batch_limit.

Definition rotation_event_time (event : AuditEvent) : result SupabaseRpcError SourceEventAt :=
  AuditEvent_source_event_at event !? (λ error, SupabaseRpcError_InvalidResponse
    ("key rotation audit event source_event_at is invalid: " +:+ AuditEventError_to_string error)).

Definition call_apply_key_rotation_batch (event : AuditEvent) (ledger_entry : SignedLedgerEntry)
    (old_key_version new_key_version : KeyVersion) (rows : list KeyRotationApplyRow) :
    io World SupabaseRpcError KeyRotationApplyOutcome :=
  source_event_at ← lift (rotation_event_time event);
  rows ← svc_apply_key_rotation_batch {|
    ap_request_id := RequestId_as_canonical_string (ev_request_id (event_parts event));
    ap_old_key_version := KeyVersion_get old_key_version;
    ap_new_key_version := KeyVersion_get new_key_version;
    ap_rows := rows;
    ap_audit_event_id := AuditEventId_as_canonical_string (ev_audit_event_id (event_parts event));
    ap_source_event_at := SourceEventAt_as_str source_event_at;
    ap_ledger_entry := LedgerEntryRpcParams_from_signed_entry ledger_entry |};
  lift (ok_or (head rows) SupabaseRpcError_EmptyResult).

Definition call_complete_key_rotation (event : AuditEvent) (ledger_entry : SignedLedgerEntry)
    (old_key_version new_key_version : KeyVersion) :
    io World SupabaseRpcError KeyRotationCompleteOutcome :=
  source_event_at ← lift (rotation_event_time event);
  rows ← svc_complete_key_rotation {|
    cp_request_id := RequestId_as_canonical_string (ev_request_id (event_parts event));
    cp_old_key_version := KeyVersion_get old_key_version;
    cp_new_key_version := KeyVersion_get new_key_version;
    cp_audit_event_id := AuditEventId_as_canonical_string (ev_audit_event_id (event_parts event));
    cp_source_event_at := SourceEventAt_as_str source_event_at;
    cp_ledger_entry := LedgerEntryRpcParams_from_signed_entry ledger_entry |};
  lift (ok_or (head rows) SupabaseRpcError_EmptyResult).

Definition call_append_audit_event_with_ledger (event : AuditEvent) (entry : SignedLedgerEntry) :
    io World SupabaseRpcError AppendLedgerEntryOutcome :=
  rows ← svc_append_audit_event_with_ledger (from_event_and_entry event entry);
  lift (first_row AppendLedgerEntryOutcome_try_from rows).

(** ** The commands ([command.rs]) *)

Definition keyring_failure (error : KeyringError) : KeyRotationCliError :=
  KeyRotationCliError_Config (KeyringError_to_string error).
Definition ensure_keyring_contains (ring : MasterKeyRing) (key_version : KeyVersion) :
    result KeyRotationCliError unit :=
  _ ← MasterKeyRing_get ring key_version !? keyring_failure; Ok tt.

Definition old_key_flag : str := "--old-key-version".
Definition new_key_flag : str := "--new-key-version".

Definition rotation_status (args : list str) : io World KeyRotationCliError unit :=
  key_version ← lift (parse_key_version_flag args "--key-version");
  _ ← call_key_rotation_status key_version !?? KeyRotationCliError_Supabase;
  mret tt.

Definition start_with_ledger (ring : MasterKeyRing) (appender : LedgerAppender) (args : list str) :
    io World KeyRotationCliError unit :=
  old_key_version ← lift (parse_key_version_flag args old_key_flag);
  new_key_version ← lift (parse_key_version_flag args new_key_flag);
  _ ← lift (ensure_keyring_contains ring old_key_version);
  _ ← lift (ensure_keyring_contains ring new_key_version);
  request_id ← RequestId_generate !?? audit_failure;
  event ← build_key_rotation_start_event request_id old_key_version new_key_version;
  ledger_draft ← build_key_rotation_ledger_draft event LedgerEntryType_KeyRotationStarted
    (JObject (map_of_list
      [("old_key_version", json_uint (KeyVersion_get old_key_version));
       ("new_key_version", json_uint (KeyVersion_get new_key_version))]%string));
  signed_entry ← sign_single_ledger_entry appender ledger_draft;
  _ ← call_append_audit_event_with_ledger event signed_entry !?? KeyRotationCliError_Supabase;
  mret tt.

(** The body of the loop over the rows of a batch. *)
Definition rewrap_row (old_master_key new_master_key : MasterKey)
    (old_key_version new_key_version : KeyVersion) (row : KeyRotationBatchRow) :
    io World KeyRotationCliError KeyRotationApplyRow :=
  parsed ← lift (parse_rotation_batch_row row old_key_version);
  let old_context := KeyWrapContext_new (pr_secret_id parsed) old_key_version in
  data_key ← lift (unwrap_data_key old_master_key old_context (pr_encrypted_data_key parsed)
    !? (λ error, KeyRotationCliError_Crypto (CryptoError_to_string error)));
  let new_context := KeyWrapContext_new (pr_secret_id parsed) new_key_version in
  rewrapped ← wrap_data_key new_master_key new_context data_key
    !?? (λ error, KeyRotationCliError_Crypto (CryptoError_to_string error));
  mret (mk_KeyRotationApplyRow (pr_id parsed) (encode_bytea (EncryptedDataKey_as_bytes rewrapped))).

(** The counts of a batch: its size and what is left once it is applied. *)
Definition batch_counts (rows : list KeyRotationApplyRow) (status_before_apply : KeyRotationStatus) :
    result KeyRotationCliError (Z * Z) :=
  batch_size ← ok_or (u_try_from u64_max (Z.of_nat (length rows)))
    (KeyRotationCliError_Config "rotation batch size is invalid");
  old_remaining ← ok_or (u_try_from u64_max (st_remaining_count status_before_apply))
    (KeyRotationCliError_Config "rotation remaining_count is invalid");
  if batch_size <=? old_remaining then Ok (batch_size, old_remaining - batch_size)
  else Err (KeyRotationCliError_Config "rotation remaining_count is inconsistent").

Definition rewrap (ring : MasterKeyRing) (appender : LedgerAppender) (args : list str) :
    io World KeyRotationCliError unit :=
  old_key_version ← lift (parse_key_version_flag args old_key_flag);
  new_key_version ← lift (parse_key_version_flag args new_key_flag);
  batch_limit ← lift (parse_positive_u32_flag args "--batch-limit");
  old_master_key ← lift (MasterKeyRing_get ring old_key_version !? keyring_failure);
  new_master_key ← lift (MasterKeyRing_get ring new_key_version !? keyring_failure);
  batch_rows ← call_list_key_rotation_batch old_key_version batch_limit !?? KeyRotationCliError_Supabase;
  match batch_rows with
  | [] => mret tt
  | _ =>
      apply_rows ← io_map (rewrap_row old_master_key new_master_key old_key_version new_key_version)
        batch_rows;
      status_before_apply ← call_key_rotation_status old_key_version !?? KeyRotationCliError_Supabase;
      '(batch_size, remaining_count) ← lift (batch_counts apply_rows status_before_apply);
      request_id ← RequestId_generate !?? audit_failure;
      event ← build_key_rotation_reencrypt_event request_id old_key_version new_key_version
        batch_size batch_size remaining_count;
      ledger_draft ← build_key_rotation_ledger_draft event LedgerEntryType_KeyRotationReencrypted
        (JObject (map_of_list
          [("old_key_version", json_uint (KeyVersion_get old_key_version));
           ("new_key_version", json_uint (KeyVersion_get new_key_version));
           ("batch_size", json_uint batch_size);
           ("processed_count", json_uint batch_size);
           ("remaining_count", json_uint remaining_count)]%string));
      signed_entry ← sign_single_ledger_entry appender ledger_draft;
      _ ← call_apply_key_rotation_batch event signed_entry old_key_version new_key_version apply_rows
        !?? KeyRotationCliError_Supabase;
      mret tt
  end.

Definition complete (appender : LedgerAppender) (args : list str) : io World KeyRotationCliError unit :=
  old_key_version ← lift (parse_key_version_flag args old_key_flag);
  new_key_version ← lift (parse_key_version_flag args new_key_flag);
  request_id ← RequestId_generate !?? audit_failure;
  event ← build_key_rotation_complete_event request_id old_key_version new_key_version 0;
  ledger_draft ← build_key_rotation_ledger_draft event LedgerEntryType_KeyRotationCompleted
    (JObject (map_of_list
      [("old_key_version", json_uint (KeyVersion_get old_key_version));
       ("new_key_version", json_uint (KeyVersion_get new_key_version));
       ("remaining_count", json_uint 0)]%string));
  signed_entry ← sign_single_ledger_entry appender ledger_draft;
  _ ← call_complete_key_rotation event signed_entry old_key_version new_key_version
    !?? KeyRotationCliError_Supabase;
  mret tt.

(** The dispatch of [run_cli] once the client and the appender are set up. *)
Definition run_command (ring : MasterKeyRing) (appender : LedgerAppender) (command : str)
    (command_args : list str) : io World KeyRotationCliError unit :=
  if String.eqb command "status" then rotation_status command_args
  else if String.eqb command "start" then start_with_ledger ring appender command_args
  else if String.eqb command "rewrap" then rewrap ring appender command_args
  else if String.eqb command "complete" then complete appender command_args
  else lift (Err (KeyRotationCliError_Usage usage)).
End rotation.

(** ** Lemmas *)

Section flag_lemmas.

(** A command line of flags: the names and values that alternate on it. *)
Definition flags_text (l : list (str * str)) : list str := concat ((λ p, [p.1; p.2]) <$> l).
Definition flag_wf (p : str * str) : Prop :=
  starts_with p.1 "--" = true ∧ starts_with p.2 "--" = false.

(** The flag once among the pairs, or not again once it was found. *)
Definition flag_found (found : option str) (flag v : str) (l : list (str * str)) : Prop :=
  match found with
  | Some value => v = value ∧ flag ∉ l.*1
  | None => ∃ l1 l2, l = l1 ++ (flag, v) :: l2 ∧ flag ∉ l1.*1 ∧ flag ∉ l2.*1
  end.

Lemma flag_found_cons found flag v a b l :
  flag_found found flag v ((a, b) :: l) ↔
  if String.eqb a flag then found = None ∧ flag_found (Some b) flag v l else flag_found found flag v l.
Proof.
  unfold flag_found. destruct (String.eqb_spec a flag) as [->|Hne]; destruct found as [f|].
  - rewrite fmap_cons not_elem_of_cons. naive_solver.
  - split.
    + intros ([|[] l1] & l2 & ? & Hl1 & Hl2); simplify_eq/=; [done|]. set_solver.
    + intros (_ & -> & Hl). exists [], l. set_solver.
  - rewrite fmap_cons not_elem_of_cons. naive_solver.
  - split.
    + intros ([|[] l1] & l2 & ? & Hl1 & Hl2); simplify_eq/=. exists l1, l2. set_solver.
    + intros (l1 & l2 & -> & Hl1 & Hl2). exists ((a, b) :: l1), l2. set_solver.
Qed.

Lemma parse_flag_loop_Ok args flag found v :
  parse_flag_loop args flag found = Ok v ↔
  ∃ l, args = flags_text l ∧ Forall flag_wf l ∧ flag_found found flag v l.
Proof.
  revert found. induction args as [|a|a b args IH] using pair_list_ind; intros found;
    cbn [parse_flag_loop].
  - rewrite ok_or_Ok. split.
    + intros ->. exists []. split_and!; [done..|]. set_solver.
    + intros ([|[]] & ? & _ & H); [|done]. destruct found; [by destruct H as [-> _]|].
      by destruct H as ([|] & ? & ? & _).
  - split; [destruct (negb _); naive_solver|]. by intros ([|[n x] l] & ? & _).
  - trans (flag_wf (a, b) ∧ if String.eqb a flag
      then found = None ∧ parse_flag_loop args flag (Some b) = Ok v
      else parse_flag_loop args flag found = Ok v).
    { unfold flag_wf. simpl. destruct (starts_with a "--"), (starts_with b "--"); simpl;
        try naive_solver. destruct (String.eqb a flag), found; naive_solver. }
    split.
    + intros [Hwf H]. cut (∃ l, args = flags_text l ∧ Forall flag_wf l
        ∧ flag_found found flag v ((a, b) :: l)).
      { intros (l & -> & ? & ?). exists ((a, b) :: l). split_and!; [done|by constructor|done]. }
      setoid_rewrite flag_found_cons. destruct (String.eqb a flag); rewrite !IH in H; naive_solver.
    + intros ([|[n x] l] & Hargs & Hl & Hf); [done|]. unfold flags_text in Hargs.
      rewrite fmap_cons in Hargs. simplify_eq/=. apply Forall_cons in Hl as [Hwf Hl].
      apply flag_found_cons in Hf. split; [done|].
      destruct (String.eqb n flag); rewrite !IH; unfold flags_text; naive_solver.
Qed.
End flag_lemmas.

Section rotation_lemmas.
Context {P : Platform}.

Lemma decode_encode_bytea {L : HexLaws P} b : decode_bytea (encode_bytea b) = Ok b.
Proof. unfold decode_bytea, encode_bytea. rewrite strip_prefix_app /=. by rewrite hex_decode_encode. Qed.

Lemma EncryptedDataKey_parse_wf k :
  EncryptedDataKey_wf k → EncryptedDataKey_parse (EncryptedDataKey_as_bytes k) = Ok k.
Proof.
  destruct k as [b]. intros H%validate_envelope_Ok. unfold EncryptedDataKey_parse. by rewrite /= H.
Qed.

Lemma KeyVersion_new_Ok z v : KeyVersion_new z = Ok v ↔ v = mk_KeyVersion z ∧ z ≠ 0.
Proof. unfold KeyVersion_new, NonZeroU32_new. destruct (z =? 0) eqn:?; b2p; simpl; naive_solver. Qed.

(** What a parsed row holds of the row. *)
Lemma parse_row_fields row v parsed :
  parse_rotation_batch_row row v = Ok parsed →
  pr_id parsed = br_id row ∧ SecretId_parse (br_secret_id row) = Ok (pr_secret_id parsed)
  ∧ ∃ b, decode_bytea (br_encrypted_data_key row) = Ok b ∧ b = EncryptedDataKey_as_bytes (pr_encrypted_data_key parsed).
Proof.
  unfold parse_rotation_batch_row, EncryptedDataKey_parse. intros H. inv_ok. case_if; [done|]. inv_ok. eauto.
Qed.

(** The data key a stored row holds under a master key. *)
Definition row_data_key (mk : MasterKey) (v : KeyVersion) (row : KeyRotationBatchRow) (dk : DataKey) : Prop :=
  ∃ parsed, parse_rotation_batch_row row v = Ok parsed
    ∧ unwrap_data_key mk (KeyWrapContext_new (pr_secret_id parsed) v) (pr_encrypted_data_key parsed) = Ok dk.

(** The row as the database has it once an update is applied to it. *)
Definition apply_update (row : KeyRotationBatchRow) (v : KeyVersion) (update : KeyRotationApplyRow) :
    KeyRotationBatchRow :=
  mk_KeyRotationBatchRow (br_id row) (br_secret_id row) (br_version row) (ar_encrypted_data_key update)
    (KeyVersion_get v).

Lemma parse_applied {L : HexLaws P} row old new parsed update k :
  KeyVersion_wf new → parse_rotation_batch_row row old = Ok parsed → EncryptedDataKey_wf k →
  ar_encrypted_data_key update = encode_bytea (EncryptedDataKey_as_bytes k) →
  parse_rotation_batch_row (apply_update row new update) new
  = Ok (mk_ParsedRotationBatchRow (br_id row) (pr_secret_id parsed) k).
Proof.
  destruct new as [n]. unfold KeyVersion_wf, nonzero_u32, parse_rotation_batch_row. simpl.
  intros Hn H Hk Hu. inv_ok. case_if; [done|]. inv_ok.
  rewrite (proj2 (u_try_from_Some u32_max n n)); [simpl|lia].
  rewrite (proj2 (KeyVersion_new_Ok n (mk_KeyVersion n))); [simpl|split; [done|lia]].
  rewrite bool_decide_eq_true_2 //=.
  select (_ ≫= _ = Some _) (fun H => rewrite H). simpl.
  select (SecretId_parse _ = _) (fun H => rewrite H). simpl.
  rewrite Hu decode_encode_bytea /= EncryptedDataKey_parse_wf //.
Qed.

Lemma rewrap_row_Ok {LR : RandomLaws P} {LA : AeadLaws P} {LH : HexLaws P} omk nmk old new row w update w' :
  KeyVersion_wf new → rewrap_row omk nmk old new row w = (Ok update, w') →
  ar_id update = br_id row
  ∧ ∃ dk, row_data_key omk old row dk ∧ row_data_key nmk new (apply_update row new update) dk.
Proof.
  unfold rewrap_row. intros Hn H. inv_ok. simpl in *.
  select (parse_rotation_batch_row _ _ = _) (fun H => rename H into Hp).
  select (unwrap_data_key _ _ _ = _) (fun H => rename H into Hu).
  pose proof (unwrap_data_key_wf _ _ _ _ Hu) as Hdk.
  select (wrap_data_key _ _ _ _ = _) (fun H => apply unwrap_wrap_data_key in H as [Hw Hk]; [|done]).
  split; [by apply parse_row_fields in Hp as [<- _]|].
  eexists. split; [by eexists|]. eexists. split; [by eapply parse_applied|]. done.
Qed.

Lemma io_map_Forall2 {W E A B} (f : A → io W E B) (R : A → B → Prop) l w k w' :
  (∀ x w y w', f x w = (Ok y, w') → R x y) → io_map f l w = (Ok k, w') → Forall2 R l k.
Proof.
  intros Hf. revert w k. induction l as [|x l IH]; intros w k; simpl; intros H; inv_ok; [constructor|].
  constructor; eauto.
Qed.

Context {Svc : LedgerService} {Rot : KeyRotationService}.

Lemma batch_counts_Ok rows st n m :
  batch_counts rows st = Ok (n, m) ↔
  n = Z.of_nat (length rows) ∧ m = st_remaining_count st - n ∧ n ≤ st_remaining_count st ≤ u64_max.
Proof.
  unfold batch_counts. split.
  - intros H. inv_ok.
    repeat select (u_try_from _ _ = _) (fun H => apply u_try_from_Some in H as [-> ?]).
    case_if; inv_ok. b2p. naive_solver lia.
  - intros (-> & -> & ?).
    rewrite !(proj2 (u_try_from_Some _ _ _) (conj eq_refl _)); try lia. simpl.
    rewrite (proj2 (Z.leb_le _ _)) //. lia.
Qed.
End rotation_lemmas.

Section event_build_lemmas.
Context {P : Platform} {LT : TimeLaws P}.

Lemma source_event_at_allowed action res : SOURCE_EVENT_AT_KEY ∈ allowed_metadata_keys action res.
Proof. apply (bool_decide_unpack _). by destruct action, res; vm_compute. Qed.

(** The event made of fields that are valid for its action, at a time the clock
    could give. *)
Lemma build_event_Ok request_id action v l w t w1 id w2 :
  fields_valid action AuditResult_Success l → SOURCE_EVENT_AT_KEY ∉ l.*1 →
  (∀ k, k ∈ required_metadata_keys action AuditResult_Success → k ∈ l.*1) →
  result_allowed action AuditResult_Success → action ≠ AuditAction_AuthFailure →
  SourceEventAt_now_utc w = (Ok t, w1) → AuditEventId_generate w1 = (Ok id, w2) →
  ∃ m, build_key_rotation_event request_id action v (build_object l) w
    = (Ok (mk_AuditEvent (mk_AuditEventParts id request_id None None action None AuditResult_Success
        (Some v) m)), w2)
    ∧ require_source_event_at m = Ok t.
Proof.
  intros Hl Hs Hreq Hres Hact Hnow Hid. pose proof (SourceEventAt_now_parse _ _ _ Hnow) as Ht.
  assert (source_event_at_valid l) as Hv.
  { intros v' Hv'. by rewrite (proj2 (map_get_None _ _) Hs) in Hv'. }
  pose proof Hl as (Hi & Hnd & Hf). set (l' := l ++ [(SOURCE_EVENT_AT_KEY, json_time t)]).
  assert (NoDup l'.*1) as Hnd'.
  { unfold l'. rewrite fmap_app. apply NoDup_app. split_and!; [done| |apply NoDup_singleton]. set_solver. }
  assert (fields_valid action AuditResult_Success l') as Hl'.
  { split_and!; [done..|]. apply Forall_app. split; [done|]. apply Forall_singleton.
    split_and!; [done|done|apply source_event_at_allowed|done|]. by destruct action. }
  assert (map_get SOURCE_EVENT_AT_KEY l' = Some (json_time t)) as Hget.
  { apply elem_map_get; [done|]. unfold l'. set_solver. }
  destruct (fields_accepted action AuditResult_Success l' t Hl' Hget Ht) as [Hr Ha].
  { intros k Hk%Hreq. unfold l'. rewrite fmap_app. set_solver. }
  eexists. split; [|exact Hr]. unfold build_key_rotation_event, io_map_err, lift, mbind, io_bind.
  rewrite (fields_metadata _ _ l Hl Hv). cbn [map_err].
  unfold AuditMetadata_with_current_source_event_at, lift, mbind, io_bind, io_map_err.
  rewrite AuditMetadata_source_event_at_Ok.
  2: { intros v' Hv'. rewrite map_get_of_list // in Hv'. by apply Hv. }
  rewrite map_get_of_list // (proj2 (map_get_None _ _) Hs). cbn [option_bind mbind].
  rewrite Hnow. cbn [map_err]. unfold AuditMetadata_with_source_event_at, with_field.
  cbn [AuditMetadata_as_value as_object ok_or mbind result_bind].
  assert (map_insert SOURCE_EVENT_AT_KEY (JString (SourceEventAt_as_str t)) (map_of_list l)
    = map_of_list l') as ->.
  { unfold map_of_list, l'. by rewrite fold_left_app. }
  assert (AuditMetadata_new (JObject (map_of_list l')) = Ok (mk_AuditMetadata (JObject (map_of_list l')))) as ->.
  { apply (fields_metadata action AuditResult_Success); [done|]. intros v' Hv'. simplify_eq.
    by exists t. }
  cbn [map_err]. rewrite Hid. cbn [map_err].
  match goal with |- context [AuditEvent_new ?p] =>
    assert (AuditEvent_new p = Ok (mk_AuditEvent p)) as ->; [|done] end.
  apply AuditEvent_new_Ok. split; [done|]. apply validate_event_parts_Ok.
  cbn [ev_action ev_result ev_metadata_json]. split_and!; [done|done|by exists t|done].
Qed.
End event_build_lemmas.

Lemma parse_key_version_flag_Ok args flag v :
  parse_key_version_flag args flag = Ok v ↔
  KeyVersion_wf v ∧ ∃ text, parse_required_flag args flag = Ok text
    ∧ parse_u32 text = Some (KeyVersion_get v).
Proof.
  unfold parse_key_version_flag, KeyVersion_wf, nonzero_u32. split.
  - intros H. inv_ok. select (KeyVersion_new _ = _) (fun H => apply KeyVersion_new_Ok in H as [-> ?]).
    select (parse_u32 _ = _) (fun H => pose proof (parse_uint_range _ _ _ H)). simpl. split; [lia|eauto].
  - intros (Hv & text & -> & Ht). cbn [mbind result_bind]. rewrite Ht. cbn [ok_or mbind result_bind].
    apply map_err_Ok, KeyVersion_new_Ok. destruct v. simpl in *. split; [done|lia].
Qed.

Section draft_lemmas.
Context {P : Platform}.

Lemma rotation_draft_Ok event t v w draft w' :
  build_key_rotation_ledger_draft event t v w = (Ok draft, w') →
  ad_entry_type draft = t ∧ ad_request_id draft = ev_request_id (event_parts event)
  ∧ ad_source_event_id draft = Some (ev_audit_event_id (event_parts event))
  ∧ AuditEvent_source_event_at event = Ok (ad_source_event_at draft)
  ∧ LedgerPayload_new t v = Ok (ad_payload draft).
Proof.
  unfold build_key_rotation_ledger_draft, LedgerAppendDraft_new. intros H. inv_ok. case_if; [done|]. by inv_ok.
Qed.

Context {Svc : LedgerService}.

Lemma sign_single_Ok {LE : Ed25519Laws P} appender draft w e w' :
  sign_single_ledger_entry appender draft w = (Ok e, w') →
  ∃ n h, se_fields e = entry_fields draft n h (sk_key_version (signing_key appender)).
Proof.
  unfold sign_single_ledger_entry, sign_entries, sign_entries_from_head. intros H. inv_ok.
  cbn [sign_entries_loop] in *. inv_ok.
  select (sign_with_sequence _ _ _ _ = _) (fun H => apply sign_with_sequence_Ok in H as (_ & b & _ & ->)).
  simplify_eq/=. by do 2 eexists.
Qed.
End draft_lemmas.

(** ** Properties *)

Section rotation_theorems.
Context {P : Platform}.

(** The row of a secret version with another wrapping of its data key. *)
Definition rewrapped_input (input : DecryptCurrentSecretVersionInput) (v : KeyVersion)
    (k : EncryptedDataKey) : DecryptCurrentSecretVersionInput := {|
  dec_claims := dec_claims input;
  dec_secret_id := dec_secret_id input;
  dec_version := dec_version input;
  dec_current_version := dec_current_version input;
  dec_owner_user_id := dec_owner_user_id input;
  dec_classification := dec_classification input;
  dec_created_at := dec_created_at input;
  dec_key_version := v;
  dec_encrypted_data_key := k;
  dec_nonce_or_iv := dec_nonce_or_iv input;
  dec_ciphertext := dec_ciphertext input;
  dec_aad_context := dec_aad_context input;
|}.

(** C32. Rotating the master key changes nothing for readers: once the update made
    of a stored row is applied, reading the secret gives exactly what it gave
    before, whoever asks and whatever the outcome, now under the new master key
    of the ring. *)
Theorem rewrapped_version_decrypts_alike {LR : RandomLaws P} {LA : AeadLaws P} {LH : HexLaws P}
    ring old new omk nmk row w update w' parsed input :
  MasterKeyRing_get ring old = Ok omk → MasterKeyRing_get ring new = Ok nmk → KeyVersion_wf new →
  rewrap_row omk nmk old new row w = (Ok update, w') →
  parse_rotation_batch_row row old = Ok parsed →
  dec_secret_id input = pr_secret_id parsed → dec_key_version input = old →
  dec_encrypted_data_key input = pr_encrypted_data_key parsed →
  ∃ parsed', parse_rotation_batch_row (apply_update row new update) new = Ok parsed'
    ∧ pr_id parsed' = pr_id parsed ∧ pr_secret_id parsed' = pr_secret_id parsed
    ∧ decrypt_current_secret_version_with_keyring ring
        (rewrapped_input input new (pr_encrypted_data_key parsed'))
      = decrypt_current_secret_version_with_keyring ring input.
Proof.
  intros Hom Hnm Hn H Hp Hid Hv Hk. unfold rewrap_row in H. rewrite Hp in H. inv_ok. simpl in *.
  select (unwrap_data_key _ _ _ = _) (fun H => rename H into Hu).
  select (wrap_data_key _ _ _ _ = _) (fun H => rename H into Hw).
  apply unwrap_wrap_data_key in Hw as [Hw Hwf]; [|by eapply unwrap_data_key_wf].
  eexists. split; [by eapply parse_applied|]. simpl. split_and!; [|done|].
  { by apply parse_row_fields in Hp as [<- _]. }
  unfold decrypt_current_secret_version_with_keyring, validate_decrypt_input,
    decrypt_current_secret_version_with_selected_master_key, row_aad_from_input. simpl.
  rewrite Hom Hnm Hid Hk. cbn [map_err mbind result_bind]. by rewrite Hw Hu.
Qed.

Context {Svc : LedgerService} {Rot : KeyRotationService}.

(** A successful [rewrap] either found no row under the old key, or sent the
    database one update per row of the batch, in order and under the row's
    identifier: each holds, under the new master key, the data key the row held
    under the old one.  The same call carries the audit event and the signed
    ledger entry of the batch, which name each other and agree on the request and
    the time. *)
Theorem rewrap_sends_rewrapped_batch {LR : RandomLaws P} {LA : AeadLaws P} {LH : HexLaws P}
    {LE : Ed25519Laws P} ring appender args w w' :
  rewrap ring appender args w = (Ok tt, w') →
  ∃ old new limit omk nmk rows w1,
    parse_key_version_flag args old_key_flag = Ok old ∧ parse_key_version_flag args new_key_flag = Ok new
    ∧ MasterKeyRing_get ring old = Ok omk ∧ MasterKeyRing_get ring new = Ok nmk
    ∧ svc_list_key_rotation_batch (KeyVersion_get old) limit w = (Ok rows, w1)
    ∧ (rows = [] ∧ w' = w1
       ∨ ∃ params w2 out,
         svc_apply_key_rotation_batch params w2 = (Ok out, w') ∧ out ≠ []
         ∧ ap_old_key_version params = KeyVersion_get old
         ∧ ap_new_key_version params = KeyVersion_get new
         ∧ Forall2 (λ row update, ar_id update = br_id row
             ∧ ∃ dk, row_data_key omk old row dk
                 ∧ row_data_key nmk new (apply_update row new update) dk) rows (ap_rows params)
         ∧ p_entry_type (ap_ledger_entry params) = "key_rotation_reencrypted"%string
         ∧ p_request_id (ap_ledger_entry params) = ap_request_id params
         ∧ p_source_event_id (ap_ledger_entry params) = Some (ap_audit_event_id params)
         ∧ p_source_event_at (ap_ledger_entry params) = ap_source_event_at params).
Proof.
  unfold rewrap. intros H. inv_run.
  select (parse_key_version_flag _ new_key_flag = _) (fun H => pose proof H as [Hwf _]%parse_key_version_flag_Ok).
  do 7 eexists. do 4 (split; [done|]). split; [done|].
  select (list KeyRotationBatchRow) (fun l => destruct l as [|row rows]); [left; by inv_ok|right]. inv_run.
  select (build_key_rotation_ledger_draft _ _ _ _ = _) (fun H => apply rotation_draft_Ok in H as (Hty & Hreq & Hid & Hat & _)).
  select (sign_single_ledger_entry _ _ _ = _) (fun H => apply sign_single_Ok in H as (n & h & Hf)).
  select (call_apply_key_rotation_batch _ _ _ _ _ _ = _) (fun H => unfold call_apply_key_rotation_batch, rotation_event_time in H).
  inv_run. simplify_eq. do 3 eexists. split; [done|]. cbn [ap_old_key_version ap_new_key_version ap_rows
    ap_ledger_entry ap_request_id ap_audit_event_id ap_source_event_at].
  split; [by intros ->|]. do 2 (split; [done|]).
  split.
  { eapply io_map_Forall2; [|done]. intros ? ? ? ?. by apply rewrap_row_Ok. }
  unfold LedgerEntryRpcParams_from_signed_entry. rewrite Hf.
  cbn [p_entry_type p_request_id p_source_event_id p_source_event_at entry_fields cf_entry_type cf_request_id
    cf_source_event_id cf_source_event_at]. rewrite Hty Hreq Hid.
  split_and!; [done..|]. f_equal. congruence.
Qed.

Lemma same_versions_refused t l v p :
  map_get "old_key_version" l = Some v → map_get "new_key_version" l = Some v →
  LedgerPayload_new t (JObject l) ≠ Ok p.
Proof.
  intros Ho Hn (Heq & _ & _ & (_ & _ & H)%validate_payload_object_Ok & _)%LedgerPayload_new_Ok.
  injection Heq as ->. revert H. unfold validate_old_new_key_versions. rewrite Ho Hn.
  unfold require_positive_json_u64, require_json_u64. intros H. inv_ok. repeat (case_if; try done). b2p. inv_ok.
Qed.

(** A rotation needs two different versions: when both flags name the same
    version, [start] and [complete] fail whatever the database answers, and
    [rewrap] succeeds only when there was nothing to rewrap, leaving the world as
    the listing of the batch left it. *)
Theorem rotation_needs_two_versions ring appender args v w w' :
  parse_key_version_flag args old_key_flag = Ok v → parse_key_version_flag args new_key_flag = Ok v →
  start_with_ledger ring appender args w ≠ (Ok tt, w')
  ∧ complete appender args w ≠ (Ok tt, w')
  ∧ (rewrap ring appender args w = (Ok tt, w') →
     ∃ limit, svc_list_key_rotation_batch (KeyVersion_get v) limit w = (Ok [], w')).
Proof.
  intros Ho Hn. split_and!.
  - unfold start_with_ledger. intros H. rewrite Ho Hn in H. inv_run.
    select (build_key_rotation_ledger_draft _ _ _ _ = _) (fun H => apply rotation_draft_Ok in H as (_ & _ & _ & _ & Hp)).
    by eapply same_versions_refused in Hp.
  - unfold complete. intros H. rewrite Ho Hn in H. inv_run.
    select (build_key_rotation_ledger_draft _ _ _ _ = _) (fun H => apply rotation_draft_Ok in H as (_ & _ & _ & _ & Hp)).
    by eapply same_versions_refused in Hp.
  - unfold rewrap. intros H. rewrite Ho Hn in H. inv_run.
    select (list KeyRotationBatchRow) (fun l => destruct l as [|row rows]); [inv_ok; by eexists|]. inv_run.
    select (build_key_rotation_ledger_draft _ _ _ _ = _) (fun H => apply rotation_draft_Ok in H as (_ & _ & _ & _ & Hp)).
    by eapply same_versions_refused in Hp.
Qed.
End rotation_theorems.

(** The version of a key is read from a command line of flags exactly when the
    line alternates names that start with two dashes and values that do not, the
    flag is among them exactly once, and its value is a positive 32-bit number. *)
Theorem key_version_flag_spec args flag v :
  parse_key_version_flag args flag = Ok v ↔
  KeyVersion_wf v ∧ ∃ l1 l2 text,
    args = flags_text (l1 ++ (flag, text) :: l2) ∧ Forall flag_wf (l1 ++ (flag, text) :: l2)
    ∧ flag ∉ l1.*1 ∧ flag ∉ l2.*1 ∧ parse_u32 text = Some (KeyVersion_get v).
Proof.
  rewrite parse_key_version_flag_Ok. unfold parse_required_flag.
  setoid_rewrite parse_flag_loop_Ok. unfold flag_found. naive_solver.
Qed.

Section event_theorems.
Context {P : Platform} {LT : TimeLaws P}.

(** The three audit events of a rotation are never refused by the validation
    of events: whenever the clock and the random source work, each builder and
    the constructor accept the versions and counts, and the event carries the
    time of the clock, a success and the new key version. *)
Theorem rotation_events_accepted rid old new n r w t w1 id w2 :
  KeyVersion_wf old → KeyVersion_wf new → 0 < n ≤ u64_max → 0 ≤ r ≤ u64_max →
  SourceEventAt_now_utc w = (Ok t, w1) → AuditEventId_generate w1 = (Ok id, w2) →
  ∃ m1 m2 m3,
    let event action m := mk_AuditEvent (mk_AuditEventParts id rid None None action None
      AuditResult_Success (Some new) m) in
    build_key_rotation_start_event rid old new w = (Ok (event AuditAction_KeyRotationStart m1), w2)
    ∧ build_key_rotation_reencrypt_event rid old new n n r w
      = (Ok (event AuditAction_KeyRotationReencrypt m2), w2)
    ∧ build_key_rotation_complete_event rid old new r w
      = (Ok (event AuditAction_KeyRotationComplete m3), w2)
    ∧ Forall (λ m, require_source_event_at m = Ok t) [m1; m2; m3].
Proof.
  intros Hold Hnew Hn Hr Hnow Hid.
  assert (∀ k, KeyVersion_wf k → 0 < KeyVersion_get k ≤ u64_max) as Hv.
  { unfold KeyVersion_wf, nonzero_u32, u32_max, u64_max. lia. }
  apply Hv in Hold, Hnew.
  edestruct (build_event_Ok rid AuditAction_KeyRotationStart new) as (m1 & E1 & T1); [..|exact Hnow|exact Hid|].
  6: edestruct (build_event_Ok rid AuditAction_KeyRotationReencrypt new) as (m2 & E2 & T2); [..|exact Hnow|exact Hid|].
  11: edestruct (build_event_Ok rid AuditAction_KeyRotationComplete new) as (m3 & E3 & T3); [..|exact Hnow|exact Hid|].
  16: { exists m1, m2, m3. split_and!; [exact E1|exact E2|exact E3|by repeat constructor]. }
  all: cbn [app opt_field fmap option_fmap option_map krs_old_key_version krs_new_key_version
    krs_source_event_at KeyRotationStartMetadata_new krr_old_key_version krr_new_key_version
    krr_batch_size krr_processed_count krr_remaining_count krr_source_event_at
    KeyRotationReencryptMetadata_new krc_old_key_version krc_new_key_version krc_remaining_count
    krc_source_event_at KeyRotationCompleteMetadata_new].
  all: first [number_fields|done].
Qed.
End event_theorems.
