(* ===== verification/AuditFallback.v ===== *)
(** * The audit recorder and its local queue ([src/audit/recorder.rs], [src/audit/fallback/])

    An audit event goes to the database; when the database cannot be reached it is
    appended to a local file, one JSON record per line, and resent later.  The
    last record of an event says whether it is still pending.  A full file whose
    events were all sent is sealed into a compressed archive.

    [queue_holds] relates the file to the abstract queue, a list of events with
    their delivery status.  A blocking task is taken to run to its end. *)

From S2P Require Import Prelude RustStd Json Platform Reference Errors Types AuditTypes LedgerTypes LedgerPayload LedgerEntry LedgerChain LedgerRpc Digest AuditEvent Files.

(** ** Errors *)

Inductive LocalAuditStoreError :=
| LocalAuditStoreError_Io (error : str)
| LocalAuditStoreError_Json (error : str)
| LocalAuditStoreError_TimestampFormat (error : str)
| LocalAuditStoreError_ArchivePathUnavailable (path : str)
| LocalAuditStoreError_GzipWriteFailed (path source : str)
| LocalAuditStoreError_HashReadFailed (path source : str)
| LocalAuditStoreError_CurrentFileRemoveFailed (path source : str)
| LocalAuditStoreError_ArchiveDeleteFailed (path source : str)
| LocalAuditStoreError_LockPoisoned
| LocalAuditStoreError_InvalidLine (line_number : Z) (reason : str)
| LocalAuditStoreError_Event (error : AuditEventError).

Inductive AuditAppendError :=
| AuditAppendError_ExternalDependencyFailed (code : str)
| AuditAppendError_IdempotencyConflict.

Inductive AuditRecordError :=
| AuditRecordError_EventConstructionFailed (error : AuditEventError)
| AuditRecordError_LedgerAppendFailed
| AuditRecordError_PrimaryAndFallbackFailed (append_error : AuditAppendError)
    (store_error : LocalAuditStoreError)
| AuditRecordError_IdempotencyConflict
| AuditRecordError_ResendReadFailed (error : LocalAuditStoreError)
| AuditRecordError_ResendMarkSentFailed (error : LocalAuditStoreError).

(** ** Records ([event.rs]) *)

Section records.
Context {P : Platform}.

Definition current_occurred_at : io World LocalAuditStoreError str := λ w,
  let '(now, w') := clock_now_utc w in
  (dt_format now !? LocalAuditStoreError_TimestampFormat, w').

(** The object [json!] builds. *)
Definition fallback_fields (event : AuditEvent) (occurred_at : str) (delivery_status : DeliveryStatus) : Map :=
  let parts := event_parts event in
  [("audit_event_id", JString (AuditEventId_as_canonical_string (ev_audit_event_id parts)));
   ("request_id", JString (RequestId_as_canonical_string (ev_request_id parts)));
   ("actor_user_id", json_opt_str (OwnerUserId_as_canonical_string <$> ev_actor_user_id parts));
   ("actor_device_id", json_opt_str (DeviceId_as_str <$> ev_actor_device_id parts));
   ("action", JString (AuditAction_as_str (ev_action parts)));
   ("target_secret_id", json_opt_str (SecretId_as_canonical_string <$> ev_target_secret_id parts));
   ("result", JString (AuditResult_as_str (ev_result parts)));
   ("key_version", match ev_key_version parts with Some v => json_uint (KeyVersion_get v) | None => JNull end);
   ("metadata_json", AuditMetadata_as_value (ev_metadata_json parts));
   ("occurred_at", JString occurred_at);
   ("delivery_status", JString (DeliveryStatus_as_str delivery_status))]%string.

Definition fallback_json (event : AuditEvent) (delivery_status : DeliveryStatus) :
    io World LocalAuditStoreError Value :=
  occurred_at ← current_occurred_at;
  mret (JObject (map_of_list (fallback_fields event occurred_at delivery_status))).

Record LocalAuditFallbackRecord := mk_LocalAuditFallbackRecord {
  fr_audit_event_id : str;
  fr_request_id : str;
  fr_actor_user_id : option str;
  fr_actor_device_id : option str;
  fr_action : str;
  fr_target_secret_id : option str;
  fr_result : str;
  fr_key_version : option Z;
  fr_metadata_json : Value;
  fr_occurred_at : option str;
  fr_delivery_status : DeliveryStatus;
}.

(** [serde_json::from_str::<LocalAuditFallbackRecord>]. *)
Definition LocalAuditFallbackRecord_from_members (members : Map) : result str LocalAuditFallbackRecord :=
  audit_event_id ← string_member "audit_event_id" members;
  request_id ← string_member "request_id" members;
  actor_user_id ← opt_string_member "actor_user_id" members;
  actor_device_id ← opt_string_member "actor_device_id" members;
  action ← string_member "action" members;
  target_secret_id ← opt_string_member "target_secret_id" members;
  res ← string_member "result" members;
  key_version ← opt_u32_member "key_version" members;
  metadata_json ← required_member "metadata_json" members;
  occurred_at ← opt_string_member "occurred_at" members;
  delivery_status ← (required_member "delivery_status" members ≫= DeliveryStatus_from_value);
  Ok (mk_LocalAuditFallbackRecord audit_event_id request_id actor_user_id actor_device_id action
    target_secret_id res key_version metadata_json occurred_at delivery_status).

Definition non_empty_occurred_at (record : LocalAuditFallbackRecord) : option str :=
  value ← fr_occurred_at record;
  if is_empty (trim value) then None else Some value.

(** [Option::map(f).transpose()]. *)
Definition transpose {E A B} (f : A → result E B) (o : option A) : result E (option B) :=
  match o with Some a => Some <$> f a | None => Ok None end.

Definition to_event (record : LocalAuditFallbackRecord) (line_number : Z) :
    result LocalAuditStoreError AuditEvent :=
  let invalid {E} reason := λ _ : E, LocalAuditStoreError_InvalidLine line_number reason in
  actor_user_id ← transpose OwnerUserId_parse (fr_actor_user_id record) !? invalid "actor_user_id is invalid"%string;
  actor_device_id ← transpose DeviceId_new (fr_actor_device_id record) !? invalid "actor_device_id is invalid"%string;
  target_secret_id ← transpose SecretId_parse (fr_target_secret_id record) !? invalid "target_secret_id is invalid"%string;
  key_version ← transpose KeyVersion_new (fr_key_version record) !? invalid "key_version is invalid"%string;
  metadata_json ← AuditMetadata_new (fr_metadata_json record) !? (λ error,
    match error with
    | AuditEventError_InvalidSourceEventAt =>
        LocalAuditStoreError_InvalidLine line_number "metadata_json.source_event_at is invalid"
    | error => LocalAuditStoreError_Event error
    end);
  audit_event_id ← AuditEventId_parse (fr_audit_event_id record) !? LocalAuditStoreError_Event;
  request_id ← RequestId_parse (fr_request_id record) !? LocalAuditStoreError_Event;
  action ← AuditAction_parse (fr_action record) !? LocalAuditStoreError_Event;
  res ← AuditResult_parse (fr_result record) !? LocalAuditStoreError_Event;
  AuditEvent_new (mk_AuditEventParts audit_event_id request_id actor_user_id actor_device_id action
    target_secret_id res key_version metadata_json) !? (λ error,
    match error with
    | AuditEventError_MissingSourceEventAt =>
        LocalAuditStoreError_InvalidLine line_number "metadata_json.source_event_at is missing"
    | AuditEventError_InvalidSourceEventAt =>
        LocalAuditStoreError_InvalidLine line_number "metadata_json.source_event_at is invalid"
    | error => LocalAuditStoreError_Event error
    end).
End records.

(** ** The store ([file_store.rs]) *)

Definition DEFAULT_ROLLOVER_SIZE_BYTES : Z := 64 * 1024 * 1024.
Definition ARCHIVE_FILE_PREFIX : str := "audit-fallback-".
Definition ARCHIVE_FILE_SUFFIX : str := ".jsonl.sealed.gz".

Record LocalAuditFallbackStore := mk_LocalAuditFallbackStore {
  st_path : str;
  st_archive_dir : str;
  st_rotate_size_bytes : Z;
}.

Record FallbackFileSnapshot := mk_FallbackFileSnapshot {
  sn_size_bytes : Z;
  sn_line_count : Z;
  sn_final_status_by_event_id : list (str * DeliveryStatus);
  sn_first_occurred_at : option str;
  sn_last_occurred_at : option str;
}.

Record RolloverArchive := mk_RolloverArchive {
  ra_archive_path : str;
  ra_sha256_hex : str;
  ra_line_count : Z;
  ra_first_occurred_at : option str;
  ra_last_occurred_at : option str;
  ra_size_bytes : Z;
}.
Inductive RolloverOutcome := RolloverOutcome_Skipped | RolloverOutcome_Sealed (archive : RolloverArchive).

Record SweptArchive := mk_SweptArchive {
  sw_archive_path : str;
  sw_sha256_hex : option str;
  sw_line_count : option Z;
  sw_size_bytes : Z;
}.

(** flate2, and the digits of the [time] crate in an archive's name; decoding
    gives the data and the error that ended it. *)
Class ArchiveCodec {P : Platform} := {
  gzip_encode : str → str;
  gzip_decode : str → str * option str;
  archive_timestamp_text : DateTime → str;
}.

Definition is_rollover_eligible (snapshot : FallbackFileSnapshot) (rotate_size_bytes : Z) : bool :=
  (rotate_size_bytes <=? sn_size_bytes snapshot)
  && (0 <? sn_line_count snapshot)
  && negb (bool_decide (sn_final_status_by_event_id snapshot = []))
  && forallb (λ p, bool_decide (p.2 = DeliveryStatus_Sent)) (sn_final_status_by_event_id snapshot).

Section store.
Context {P : Platform} {F : FileSystem} {SM : SerdeMembers}.

Record ParsedFallbackRecord := mk_ParsedFallbackRecord {
  pf_event : AuditEvent;
  pf_event_id : str;
  pf_delivery_status : DeliveryStatus;
  pf_occurred_at : option str;
}.

Definition default_archive_dir_for (path : str) : str :=
  let parent := match path_parent path with
    | Some parent => if is_empty parent then "."%string else parent
    | None => "."%string
    end in
  path_join parent "archive".

Definition LocalAuditFallbackStore_with_rollover_config (path archive_dir : str) (rotate_size_bytes : Z) :
    LocalAuditFallbackStore := mk_LocalAuditFallbackStore path archive_dir rotate_size_bytes.
Definition LocalAuditFallbackStore_new (path : str) : LocalAuditFallbackStore :=
  LocalAuditFallbackStore_with_rollover_config path (default_archive_dir_for path)
    DEFAULT_ROLLOVER_SIZE_BYTES.

(** [open_append_private]; opening creates the file, writing nothing. *)
Definition open_append_private (path : str) : io World str unit :=
  _ ← create_parent path;
  fs_append path EmptyString.
Definition create_private_file (path : str) : io World str unit :=
  _ ← create_parent path;
  fs_create_new path.

Definition append_line (store : LocalAuditFallbackStore) (value : Value) :
    io World LocalAuditStoreError unit :=
  locked LocalAuditStoreError_LockPoisoned (
    _ ← open_append_private (st_path store) !?? LocalAuditStoreError_Io;
    text ← lift (serde_to_string value !? LocalAuditStoreError_Json);
    _ ← fs_append (st_path store) text !?? LocalAuditStoreError_Json;
    _ ← fs_append (st_path store) (String line_feed EmptyString) !?? LocalAuditStoreError_Io;
    fs_sync (st_path store) !?? LocalAuditStoreError_Io).

Definition append_pending (store : LocalAuditFallbackStore) (event : AuditEvent) :
    io World LocalAuditStoreError unit :=
  value ← fallback_json event DeliveryStatus_Pending;
  append_line store value.
Definition mark_sent (store : LocalAuditFallbackStore) (event : AuditEvent) :
    io World LocalAuditStoreError unit :=
  value ← fallback_json event DeliveryStatus_Sent;
  append_line store value.

(** The loop of [parse_existing_fallback_records_unlocked]: the records of the
    lines from the one with this index on.  The handlers of its two callers do
    not fail. *)
Fixpoint parse_fallback_lines (index : Z) (lines : list (result str str)) :
    result LocalAuditStoreError (list ParsedFallbackRecord) :=
  match lines with
  | [] => Ok []
  | line :: lines =>
      let line_number := index + 1 in
      line ← line !? LocalAuditStoreError_Io;
      if is_empty (trim line) then parse_fallback_lines (index + 1) lines else
      record ← (serde_members line ≫= LocalAuditFallbackRecord_from_members) !? LocalAuditStoreError_Json;
      event ← to_event record line_number;
      let event_id := AuditEventId_as_canonical_string (ev_audit_event_id (event_parts event)) in
      records ← parse_fallback_lines (index + 1) lines;
      Ok (mk_ParsedFallbackRecord event event_id (fr_delivery_status record)
        (non_empty_occurred_at record) :: records)
  end.

Definition parse_existing_fallback_records_unlocked (store : LocalAuditFallbackStore) :
    io World LocalAuditStoreError (list ParsedFallbackRecord) :=
  read ← fs_read (st_path store) !?? LocalAuditStoreError_Io;
  lift (parse_fallback_lines 0 (buf_lines read.1 read.2)).

(** [states.insert(record.event_id, ..)] for each record, in order. *)
Definition event_states (records : list ParsedFallbackRecord) : list (str * (AuditEvent * DeliveryStatus)) :=
  map_of_list ((λ r, (pf_event_id r, (pf_event r, pf_delivery_status r))) <$> records).

Definition pending_events_unlocked (store : LocalAuditFallbackStore) :
    io World LocalAuditStoreError (list AuditEvent) := λ w,
  if negb (fs_exists (st_path store) w) then (Ok [], w) else
  (records ← parse_existing_fallback_records_unlocked store;
   mret (omap (λ p, pending_of_state p.2) (event_states records))) w.

Definition pending_events (store : LocalAuditFallbackStore) :
    io World LocalAuditStoreError (list AuditEvent) :=
  locked LocalAuditStoreError_LockPoisoned (pending_events_unlocked store).

(** The first and the last time of the records that have one. *)
Definition first_time (records : list ParsedFallbackRecord) : option str := head (omap pf_occurred_at records).
Definition last_time (records : list ParsedFallbackRecord) : option str := last (omap pf_occurred_at records).

Definition current_file_snapshot_unlocked (store : LocalAuditFallbackStore) :
    io World LocalAuditStoreError (option FallbackFileSnapshot) :=
  io_match (fs_metadata (st_path store)) (λ metadata,
    match metadata with
    | Ok (is_file, len) =>
        if negb is_file then mret None else
        records ← parse_existing_fallback_records_unlocked store;
        mret (Some (mk_FallbackFileSnapshot len (Z.of_nat (length records))
          (map_of_list ((λ r, (pf_event_id r, pf_delivery_status r)) <$> records))
          (first_time records) (last_time records)))
    | Err IoError_NotFound => mret None
    | Err error => lift (Err (LocalAuditStoreError_Io (IoError_to_string error)))
    end).

Definition should_rollover_unlocked (store : LocalAuditFallbackStore) :
    io World LocalAuditStoreError bool :=
  snapshot ← current_file_snapshot_unlocked store;
  mret (match snapshot with
    | None => false
    | Some snapshot => is_rollover_eligible snapshot (st_rotate_size_bytes store)
    end).
Definition should_rollover (store : LocalAuditFallbackStore) : io World LocalAuditStoreError bool :=
  locked LocalAuditStoreError_LockPoisoned (should_rollover_unlocked store).
End store.

(** ** Sealing and sweeping archives *)

Section archives.
Context {P : Platform} {F : FileSystem} {SM : SerdeMembers} {G : ArchiveCodec}.

Definition is_archive_file (path : str) : bool :=
  match path_file_name path with
  | Some name => starts_with name ARCHIVE_FILE_PREFIX && ends_with name ARCHIVE_FILE_SUFFIX
  | None => false
  end.

Definition archive_timestamp : io World LocalAuditStoreError str := λ w,
  let '(now, w') := clock_now_utc w in (Ok (archive_timestamp_text now), w').

Definition unused_path (archive_path : str) : io World LocalAuditStoreError str := λ w,
  (if fs_exists archive_path w then Err (LocalAuditStoreError_ArchivePathUnavailable archive_path)
   else Ok archive_path, w).
Definition next_archive_path (store : LocalAuditFallbackStore) : io World LocalAuditStoreError str :=
  timestamp ← archive_timestamp;
  unused_path (path_join (st_archive_dir store)
    (ARCHIVE_FILE_PREFIX +:+ timestamp +:+ ARCHIVE_FILE_SUFFIX)).

(** [io::copy] into the encoder and [finish]: a failed read leaves an unfinished
    archive, of which nothing is kept here. *)
Definition write_gzip_archive (store : LocalAuditFallbackStore) (archive_path : str) :
    io World LocalAuditStoreError unit :=
  let failed source := LocalAuditStoreError_GzipWriteFailed archive_path source in
  input ← fs_read (st_path store) !?? failed;
  _ ← create_private_file archive_path !?? failed;
  _ ← lift (match input.2 with Some error => Err (failed error) | None => Ok tt end);
  _ ← fs_append archive_path (gzip_encode input.1) !?? failed;
  fs_sync archive_path !?? failed.

Definition sha256_file (path : str) : io World str str :=
  read ← fs_read path;
  lift (match read.2 with
    | Some error => Err error
    | None => Ok (hex_encode (sha256 (as_bytes read.1)))
    end).

Definition gzip_line_count (path : str) : io World str Z :=
  read ← fs_read path;
  let '(data, failure) := match read.2 with
    | Some error => (EmptyString, Some error)
    | None => gzip_decode read.1
    end in
  lines ← lift (try_map id (buf_lines data failure));
  mret (Z.of_nat (length lines)).

Definition rollover (store : LocalAuditFallbackStore) : io World LocalAuditStoreError RolloverOutcome :=
  locked LocalAuditStoreError_LockPoisoned (
    snapshot ← current_file_snapshot_unlocked store;
    match snapshot with
    | None => mret RolloverOutcome_Skipped
    | Some snapshot =>
        if negb (is_rollover_eligible snapshot (st_rotate_size_bytes store))
        then mret RolloverOutcome_Skipped else
        _ ← fs_create_dir_all (st_archive_dir store) !?? LocalAuditStoreError_Io;
        archive_path ← next_archive_path store;
        _ ← write_gzip_archive store archive_path;
        sha256_hex ← sha256_file archive_path !?? LocalAuditStoreError_HashReadFailed archive_path;
        _ ← fs_remove (st_path store) !?? LocalAuditStoreError_CurrentFileRemoveFailed (st_path store);
        _ ← create_private_file (st_path store) !?? LocalAuditStoreError_Io;
        _ ← fs_sync (st_path store) !?? LocalAuditStoreError_Io;
        mret (RolloverOutcome_Sealed (mk_RolloverArchive archive_path sha256_hex (sn_line_count snapshot)
          (sn_first_occurred_at snapshot) (sn_last_occurred_at snapshot) (sn_size_bytes snapshot)))
    end).

(** [Result::ok]. *)
Definition io_ok {E A} (m : io World E A) : io World LocalAuditStoreError (option A) := λ w,
  let '(r, w') := m w in (Ok (match r with Ok a => Some a | Err _ => None end), w').

(** The archives of a directory older than [max_age], deleted one by one. *)
Fixpoint sweep_entries (max_age_ms : Z) (entries : list (result str DirEntry)) :
    io World LocalAuditStoreError (list SweptArchive) :=
  match entries with
  | [] => mret []
  | entry :: entries =>
      entry ← lift (entry !? LocalAuditStoreError_Io);
      if negb (de_is_file entry) || negb (is_archive_file (de_path entry)) then sweep_entries max_age_ms entries else
      if Z.max 0 (de_age_ms entry) <? max_age_ms then sweep_entries max_age_ms entries else
      sha256_hex ← io_ok (sha256_file (de_path entry));
      line_count ← io_ok (gzip_line_count (de_path entry));
      _ ← fs_remove (de_path entry) !?? LocalAuditStoreError_ArchiveDeleteFailed (de_path entry);
      deleted ← sweep_entries max_age_ms entries;
      mret (mk_SweptArchive (de_path entry) sha256_hex line_count (de_len entry) :: deleted)
  end.

Definition sweep_archive (store : LocalAuditFallbackStore) (max_age_ms : Z) :
    io World LocalAuditStoreError (list SweptArchive) :=
  locked LocalAuditStoreError_LockPoisoned (λ w,
    if negb (fs_exists (st_archive_dir store) w) then (Ok [], w) else
    (entries ← fs_read_dir (st_archive_dir store) !?? LocalAuditStoreError_Io;
     sweep_entries max_age_ms entries) w).
End archives.

(** ** The recorder ([recorder.rs]) and the resending of pending events ([resend.rs]) *)

(** The trait [AuditEventAppender], which the database client implements. *)
Class AuditEventAppender {P : Platform} := {
  append_audit_event : AuditEvent → io World AuditAppendError unit;
}.

Inductive AuditRecordOutcome :=
| AuditRecordOutcome_PrimarySucceeded
| AuditRecordOutcome_FallbackSucceeded.

Record ResendAuditSummary := mk_ResendAuditSummary { rs_attempted : Z; rs_sent : Z; rs_failed : Z }.

Section recorder.
Context {P : Platform} {F : FileSystem} {SM : SerdeMembers} {A : AuditEventAppender}.

Definition record (store : LocalAuditFallbackStore) (event : AuditEvent) :
    io World AuditRecordError AuditRecordOutcome :=
  io_match (append_audit_event event) (λ appended,
    match appended with
    | Ok _ => mret AuditRecordOutcome_PrimarySucceeded
    | Err (AuditAppendError_ExternalDependencyFailed code) =>
        let append_error := AuditAppendError_ExternalDependencyFailed code in
        _ ← append_pending store event !?? AuditRecordError_PrimaryAndFallbackFailed append_error;
        mret AuditRecordOutcome_FallbackSucceeded
    | Err AuditAppendError_IdempotencyConflict => lift (Err AuditRecordError_IdempotencyConflict)
    end).

(** The loop over the pending events, counting those sent and those that failed. *)
Fixpoint resend_loop (store : LocalAuditFallbackStore) (events : list AuditEvent) (sent failed : Z) :
    io World AuditRecordError (Z * Z) :=
  match events with
  | [] => mret (sent, failed)
  | event :: events =>
      io_match (append_audit_event event) (λ appended,
        match appended with
        | Ok _ =>
            _ ← mark_sent store event !?? AuditRecordError_ResendMarkSentFailed;
            resend_loop store events (sent + 1) failed
        | Err (AuditAppendError_ExternalDependencyFailed _) => resend_loop store events sent (failed + 1)
        | Err AuditAppendError_IdempotencyConflict => lift (Err AuditRecordError_IdempotencyConflict)
        end)
  end.

Definition resend_pending (store : LocalAuditFallbackStore) : io World AuditRecordError ResendAuditSummary :=
  pending ← pending_events store !?? AuditRecordError_ResendReadFailed;
  counts ← resend_loop store pending 0 0;
  mret (mk_ResendAuditSummary (Z.of_nat (length pending)) counts.1 counts.2).
End recorder.

(** ** Events of the queue *)

Section events.
Context {P : Platform}.

Definition event_id (e : AuditEvent) : str :=
  AuditEventId_as_canonical_string (ev_audit_event_id (event_parts e)).

(** Events as the constructors make them, with metadata whose text determines it
    and leaves room for the enclosing record. *)
Definition event_storable (e : AuditEvent) : Prop :=
  AuditEvent_new (event_parts e) = Ok e
  ∧ AuditMetadata_wf (ev_metadata_json (event_parts e))
  ∧ json_exact (pred json_max_depth) (AuditMetadata_as_value (ev_metadata_json (event_parts e))) = true
  ∧ (∀ d, ev_actor_device_id (event_parts e) = Some d → DeviceId_wf d)
  ∧ (∀ i, ev_target_secret_id (event_parts e) = Some i → SecretId_wf i)
  ∧ (∀ v, ev_key_version (event_parts e) = Some v → KeyVersion_wf v).

End events.

(** ** The file and the queue *)

Section refinement.
Context {P : Platform} {F : FileSystem} {SM : SerdeMembers}.
Context {LU : UuidLaws P} {LF : FileLaws F} {LT : SerdeTextLaws P} {LS : SerdeMembersLaws SM}.

(** The text of a record, written at some time. *)
Definition record_text (text : str) (p : AuditEvent * DeliveryStatus) : Prop :=
  ∃ occurred_at, serde_to_string (JObject (map_of_list (fallback_fields p.1 occurred_at p.2))) = Ok text.

(** The file at this path holds the queue; an absent file holds the empty one. *)
Definition queue_holds (path : str) (q : @queue AuditEvent) (w : World) : Prop :=
  Forall event_storable q.*1 ∧ file_holds record_text path q w.

Lemma fallback_fields_NoDup e t s : NoDup (fallback_fields e t s).*1.
Proof. apply (bool_decide_unpack _). by vm_compute. Qed.

Lemma json_exact_opt_str d o : json_exact d (json_opt_str o) = true.
Proof. by destruct o, d. Qed.

Lemma key_version_exact d (o : option KeyVersion) :
  (∀ v, o = Some v → KeyVersion_wf v) →
  json_exact d match o with Some v => json_uint (KeyVersion_get v) | None => JNull end = true.
Proof.
  intros H. destruct o as [v|]; [|by destruct d].
  specialize (H v eq_refl). unfold KeyVersion_wf, nonzero_u32, u32_max in H.
  assert ((0 <=? KeyVersion_get v) && (KeyVersion_get v <=? u64_max) = true) as E.
  { apply andb_true_iff. rewrite !Z.leb_le. unfold u64_max. lia. }
  by destruct d.
Qed.

Lemma fallback_fields_exact e t s :
  event_storable e → json_exact json_max_depth (JObject (map_of_list (fallback_fields e t s))) = true.
Proof.
  intros (_ & _ & Hm & _ & _ & Hv). change json_max_depth with (S (pred json_max_depth)).
  revert Hm. generalize (pred json_max_depth). intros d Hm. cbn [json_exact]. apply andb_true_iff. split.
  { apply bool_decide_eq_true_2, map_sorted_NoDup, map_sorted_of_list. }
  apply forallb_forall. intros p Hp%list_elem_of_In. rewrite elem_map_of_list in Hp; [|apply fallback_fields_NoDup].
  revert p Hp. apply (proj1 (Forall_forall _ _)).
  assert (∀ x, json_exact d (JString x) = true) as Hs by (intros; by destruct d).
  unfold fallback_fields. repeat (apply Forall_cons; split); cbn [snd];
    [apply Hs|apply Hs|apply json_exact_opt_str|apply json_exact_opt_str|apply Hs
    |apply json_exact_opt_str|apply Hs|by apply key_version_exact|exact Hm|apply Hs|apply Hs|].
  apply Forall_nil. exact I.
Qed.

Lemma members_of_record e t s :
  event_storable e →
  ∃ text members, serde_to_string (JObject (map_of_list (fallback_fields e t s))) = Ok text
    ∧ serde_members text = Ok members ∧ NoDup members.*1
    ∧ ∀ k, map_get k members = normalize <$> map_get k (fallback_fields e t s).
Proof.
  intros He. destruct (serde_members_round_trip _ (fallback_fields_exact e t s He)) as (text & Ht & Hm).
  exists text. eexists. split; [done|]. split; [exact Hm|]. split.
  - assert (∀ l : Map, (List.map (λ p, (p.1, normalize p.2)) l).*1 = l.*1) as ->.
    { induction l as [|p l IH]; [done|]. cbn [List.map]. by rewrite !fmap_cons IH. }
    apply map_sorted_NoDup, map_sorted_of_list.
  - intros k. rewrite (map_get_map normalize) map_get_of_list //. apply fallback_fields_NoDup.
Qed.

Lemma normalize_opt_str o : normalize (json_opt_str o) = json_opt_str o.
Proof. by destruct o. Qed.

(** What the deserializer reads in the members of a written record. *)
Lemma record_from_members e t s members :
  event_storable e → NoDup members.*1 →
  (∀ k, map_get k members = normalize <$> map_get k (fallback_fields e t s)) →
  let parts := event_parts e in
  LocalAuditFallbackRecord_from_members members = Ok (mk_LocalAuditFallbackRecord
    (AuditEventId_as_canonical_string (ev_audit_event_id parts))
    (RequestId_as_canonical_string (ev_request_id parts))
    (OwnerUserId_as_canonical_string <$> ev_actor_user_id parts)
    (DeviceId_as_str <$> ev_actor_device_id parts) (AuditAction_as_str (ev_action parts))
    (SecretId_as_canonical_string <$> ev_target_secret_id parts) (AuditResult_as_str (ev_result parts))
    (KeyVersion_get <$> ev_key_version parts)
    (AuditMetadata_as_value (ev_metadata_json parts)) (Some t) s).
Proof.
  intros (_ & [Hrep _] & _ & _ & _ & Hv) Hnd Hk. cbv zeta. unfold LocalAuditFallbackRecord_from_members.
  assert (∀ k v, map_get k (fallback_fields e t s) = Some v → normalize v = v → map_get k members = Some v) as Hf.
  { intros k v Hg Hn. by rewrite Hk Hg -{2}Hn. }
  rewrite (string_member_get _ Hnd "audit_event_id" _ (Hf "audit_event_id"%string _ eq_refl eq_refl)).
  rewrite (string_member_get _ Hnd "request_id" _ (Hf "request_id"%string _ eq_refl eq_refl)).
  rewrite (opt_string_member_get _ Hnd "actor_user_id" _ (Hf "actor_user_id"%string _ eq_refl (normalize_opt_str _))).
  rewrite (opt_string_member_get _ Hnd "actor_device_id" _ (Hf "actor_device_id"%string _ eq_refl (normalize_opt_str _))).
  rewrite (string_member_get _ Hnd "action" _ (Hf "action"%string _ eq_refl eq_refl)).
  rewrite (opt_string_member_get _ Hnd "target_secret_id" _ (Hf "target_secret_id"%string _ eq_refl (normalize_opt_str _))).
  rewrite (string_member_get _ Hnd "result" _ (Hf "result"%string _ eq_refl eq_refl)).
  rewrite (opt_u32_member_get _ Hnd "key_version" (KeyVersion_get <$> ev_key_version (event_parts e))).
  2: { apply Hf; [cbn; by destruct (ev_key_version _)|by destruct (ev_key_version _)]. }
  2: { destruct (ev_key_version (event_parts e)) as [v|]; [|done]. intros z [= <-].
    specialize (Hv v eq_refl). unfold KeyVersion_wf, nonzero_u32 in Hv. lia. }
  rewrite (required_member_get _ Hnd "metadata_json" _ (Hf "metadata_json"%string _ eq_refl (normalize_representable _ Hrep))).
  rewrite (opt_string_member_get _ Hnd "occurred_at" (Some t) (Hf "occurred_at"%string _ eq_refl eq_refl)).
  rewrite (required_member_get _ Hnd "delivery_status" _ (Hf "delivery_status"%string _ eq_refl eq_refl)).
  by destruct s.
Qed.

Lemma record_to_event e s t n :
  event_storable e →
  let parts := event_parts e in
  to_event (mk_LocalAuditFallbackRecord
    (AuditEventId_as_canonical_string (ev_audit_event_id parts))
    (RequestId_as_canonical_string (ev_request_id parts))
    (OwnerUserId_as_canonical_string <$> ev_actor_user_id parts)
    (DeviceId_as_str <$> ev_actor_device_id parts) (AuditAction_as_str (ev_action parts))
    (SecretId_as_canonical_string <$> ev_target_secret_id parts) (AuditResult_as_str (ev_result parts))
    (KeyVersion_get <$> ev_key_version parts)
    (AuditMetadata_as_value (ev_metadata_json parts)) (Some t) s) n = Ok e.
Proof.
  intros (Hnew & [_ Hm] & _ & Hd & Hi & Hv). cbv zeta. unfold to_event.
  cbn [fr_actor_user_id fr_actor_device_id fr_target_secret_id fr_key_version fr_metadata_json
    fr_audit_event_id fr_request_id fr_action fr_result].
  rewrite Hm AuditEventId_parse_canonical RequestId_parse_canonical AuditAction_parse_as_str
    AuditResult_parse_as_str.
  assert (∀ o, transpose OwnerUserId_parse (OwnerUserId_as_canonical_string <$> o) = Ok o) as ->.
  { intros [u|]; [|done]. simpl. by rewrite OwnerUserId_parse_canonical. }
  assert (transpose DeviceId_new (DeviceId_as_str <$> ev_actor_device_id (event_parts e))
    = Ok (ev_actor_device_id (event_parts e))) as ->.
  { destruct (ev_actor_device_id _) as [[d]|]; [|done]. simpl. unfold DeviceId_new.
    by rewrite (Hd _ eq_refl). }
  assert (transpose SecretId_parse (SecretId_as_canonical_string <$> ev_target_secret_id (event_parts e))
    = Ok (ev_target_secret_id (event_parts e))) as ->.
  { destruct (ev_target_secret_id _) as [i|]; [|done]. simpl. by rewrite SecretId_parse_canonical; [|apply Hi]. }
  assert (transpose KeyVersion_new (KeyVersion_get <$> ev_key_version (event_parts e))
    = Ok (ev_key_version (event_parts e))) as ->.
  { destruct (ev_key_version _) as [[v]|]; [|done]. simpl. unfold KeyVersion_new, NonZeroU32_new.
    specialize (Hv _ eq_refl). unfold KeyVersion_wf, nonzero_u32 in Hv. simpl in Hv.
    by rewrite (proj2 (Z.eqb_neq v 0)); [|lia]. }
  cbn [mbind result_bind map_err].
  assert (∀ p, mk_AuditEventParts (ev_audit_event_id p) (ev_request_id p) (ev_actor_user_id p)
    (ev_actor_device_id p) (ev_action p) (ev_target_secret_id p) (ev_result p) (ev_key_version p)
    (ev_metadata_json p) = p) as -> by (by intros []). by rewrite Hnew.
Qed.

Definition parsed_as (r : ParsedFallbackRecord) (p : AuditEvent * DeliveryStatus) : Prop :=
  pf_event r = p.1 ∧ pf_event_id r = event_id p.1 ∧ pf_delivery_status r = p.2.

Lemma record_text_members text p :
  event_storable p.1 → record_text text p →
  ∃ record, (serde_members text ≫= LocalAuditFallbackRecord_from_members) = Ok record
    ∧ fr_delivery_status record = p.2 ∧ ∀ n, to_event record n = Ok p.1.
Proof.
  intros He (t & Ht). destruct (members_of_record p.1 t p.2 He) as (text' & members & Ht' & Hm & Hnd & Hk).
  rewrite Ht in Ht'. injection Ht' as <-. rewrite Hm. cbn [mbind result_bind].
  rewrite (record_from_members _ _ _ _ He Hnd Hk). eexists. split; [reflexivity|]. split; [done|].
  intros n. by apply record_to_event.
Qed.

Lemma parse_queue_lines texts q n :
  Forall event_storable q.*1 → Forall2 record_text texts q →
  ∃ records, parse_fallback_lines n (Ok <$> texts) = Ok records ∧ Forall2 parsed_as records q.
Proof.
  intros Hq Htexts. revert n Hq. induction Htexts as [|text p texts q Ht _ IH]; intros n Hq.
  { exists []. by split. }
  rewrite fmap_cons in Hq. apply Forall_cons in Hq as [He Hq].
  destruct (IH (n + 1) Hq) as (records & Hr & Hrq).
  destruct (record_text_members _ _ He Ht) as (record & Hrec & Hs & Hev).
  destruct Ht as (t & Ht). apply serde_text_line in Ht as (_ & _ & Hb).
  rewrite fmap_cons. cbn [parse_fallback_lines map_err mbind result_bind]. rewrite Hb Hrec.
  cbn [map_err mbind result_bind]. rewrite Hev. cbn [mbind result_bind]. rewrite Hr.
  cbn [mbind result_bind]. eexists. split; [reflexivity|]. constructor; [|done]. by split_and!.
Qed.

Lemma parse_queue_lines_cut texts q n failure :
  Forall event_storable q.*1 → Forall2 record_text texts q →
  parse_fallback_lines n ((Ok <$> texts) ++ [Err failure]) = Err (LocalAuditStoreError_Io failure).
Proof.
  intros Hq Htexts. revert n Hq. induction Htexts as [|text p texts q Ht _ IH]; intros n Hq; [done|].
  rewrite fmap_cons in Hq. apply Forall_cons in Hq as [He Hq].
  destruct (record_text_members _ _ He Ht) as (record & Hrec & _ & Hev).
  destruct Ht as (t & Ht). apply serde_text_line in Ht as (_ & _ & Hb).
  rewrite fmap_cons. cbn [parse_fallback_lines app map_err mbind result_bind]. rewrite Hb Hrec.
  cbn [map_err mbind result_bind]. rewrite Hev. cbn [mbind result_bind]. by rewrite IH.
Qed.

Lemma event_states_queue records q : Forall2 parsed_as records q → event_states records = queue_states event_id q.
Proof.
  intros H. unfold event_states, queue_states. f_equal.
  induction H as [|r [e s] records q (H1 & H2 & H3) _ IH]; [done|]. rewrite !fmap_cons IH.
  simpl in *. by rewrite H1 H2 H3.
Qed.

Lemma record_texts_lines texts q : Forall2 record_text texts q → Forall one_line texts.
Proof.
  induction 1 as [|text p texts q (t & Ht) _ IH]; constructor; [|done].
  apply serde_text_line in Ht as (? & ? & _). by split.
Qed.

(** Reading the file gives the queue, or fails for a reason of the disk. *)
Lemma parse_existing_queue store q w r w' :
  queue_holds (st_path store) q w → parse_existing_fallback_records_unlocked store w = (r, w') →
  same_files w w'
  ∧ match r with
    | Ok records => Forall2 parsed_as records q
    | Err e => ∃ e', e = LocalAuditStoreError_Io e'
    end.
Proof.
  intros (Hq & Hc). unfold parse_existing_fallback_records_unlocked.
  destruct (fs_read (st_path store) w) as [[[data failure]|e] w1] eqn:Hread;
    pose proof (fs_read_quiet _ _ _ _ Hread) as Hsame;
    unfold mbind, io_bind, io_map_err; rewrite Hread; cbn [map_err lift fst snd]; intros [= <- <-];
    (split; [done|]); [|by eexists].
  destruct Hc as [[Hn _]|(texts & Ht & Htq)].
  { apply fs_read_prefix in Hread as (rest & ?). congruence. }
  destruct failure as [failure|].
  - apply fs_read_prefix in Hread as (rest & Hread). rewrite Ht in Hread. injection Hread as Hread.
    destruct (buf_lines_cut texts data rest failure) as (k & ->); [by eapply record_texts_lines|done|].
    rewrite (parse_queue_lines_cut _ (take k q)); [by eexists| |by apply Forall2_take].
    rewrite fmap_take. by apply Forall_take.
  - apply fs_read_Ok in Hread. rewrite Hread in Ht. injection Ht as ->.
    rewrite buf_lines_written; [|by eapply record_texts_lines].
    destruct (parse_queue_lines texts q 0 Hq Htq) as (records & -> & Hr). exact Hr.
Qed.

Lemma queue_holds_same path q w w' : same_files w w' → queue_holds path q w → queue_holds path q w'.
Proof. intros Hs (Hq & Hc). split; [done|]. by eapply file_holds_same. Qed.

Lemma pending_storable path q w : queue_holds path q w → Forall event_storable (pending_list event_id q).
Proof.
  intros [Hst _]. apply Forall_forall. intros e (q1 & q2 & -> & _)%pending_list_elem.
  rewrite fmap_app fmap_cons in Hst. by apply Forall_app in Hst as [_ [? _]%Forall_cons].
Qed.

(** [pending_events] reads exactly the pending events of the queue. *)
Lemma pending_events_refines store q w r w' :
  queue_holds (st_path store) q w → pending_events store w = (r, w') →
  queue_holds (st_path store) q w'
  ∧ match r with
    | Ok events => events = pending_list event_id q
    | Err e => e = LocalAuditStoreError_LockPoisoned ∨ ∃ e', e = LocalAuditStoreError_Io e'
    end.
Proof.
  intros Hq. unfold pending_events, locked, pending_events_unlocked.
  destruct (lock_poisoned w); [intros [= <- <-]; by auto|].
  destruct (fs_exists (st_path store) w) eqn:He; cbn [negb].
  - unfold mbind, io_bind. destruct (parse_existing_fallback_records_unlocked store w) as [rec w1] eqn:Hrec.
    destruct (parse_existing_queue _ _ _ _ _ Hq Hrec) as [Hs Hr].
    destruct rec as [records|e]; intros [= <- <-]; (split; [by eapply queue_holds_same|]); [|by right].
    by rewrite (event_states_queue _ _ Hr).
  - intros [= <- <-]. split; [done|]. apply fs_exists_false in He.
    destruct Hq as (_ & [[_ ->]|(texts & Ht & _)]); [done|congruence].
Qed.

(** Appending a record extends the queue. *)
Lemma append_line_Ok store value w w' :
  append_line store value w = (Ok tt, w') →
  ∃ text, serde_to_string value = Ok text
    ∧ fs_contents (st_path store) w'
      = Some (default EmptyString (fs_contents (st_path store) w) +:+ text +:+ String line_feed EmptyString).
Proof.
  unfold append_line, locked, open_append_private. destruct (lock_poisoned w); [done|]. intros H. inv_run.
  select (create_parent _ _ = _) (fun H => apply create_parent_quiet in H; rewrite -(H (st_path store))).
  eexists. split; [done|]. by eapply appended_line.
Qed.

Lemma fallback_json_Ok e s w v w' :
  fallback_json e s w = (Ok v, w') →
  same_files w w' ∧ ∃ t, v = JObject (map_of_list (fallback_fields e t s)).
Proof.
  intros (t & w1 & Ht & [= <- <-])%io_bind_Ok. split; [|by eexists].
  revert Ht. unfold current_occurred_at. pose proof (clock_quiet w) as Hq.
  destruct (clock_now_utc w). by intros [= _ <-].
Qed.

Lemma append_record_Ok store e s q w w' :
  event_storable e → queue_holds (st_path store) q w →
  (value ← fallback_json e s; append_line store value) w = (Ok tt, w') →
  queue_holds (st_path store) (q ++ [(e, s)]) w'.
Proof.
  intros He Hq (v & w1 & (Hs & t & ->)%fallback_json_Ok & (text & Ht & Hw)%append_line_Ok)%io_bind_Ok.
  destruct (queue_holds_same _ _ _ _ Hs Hq) as (Hst & Hc). split.
  - rewrite fmap_app. apply Forall_app_2; [done|]. apply Forall_cons_2; [done|]. by apply Forall_nil_2.
  - eapply file_holds_append; [done| |exact Hw]. by exists t.
Qed.
End refinement.

(** ** The recorder and the queue *)

Section recorder_lemmas.
Context {P : Platform} {F : FileSystem} {SM : SerdeMembers} {A : AuditEventAppender}.
Context {LU : UuidLaws P} {LF : FileLaws F} {LT : SerdeTextLaws P} {LS : SerdeMembersLaws SM}.
(** The database is not on this disk. *)
Context (Hremote : ∀ e : AuditEvent, leaves_files (append_audit_event e)).

(** The answer of the database to one attempt. *)
Definition attempt (e : AuditEvent) (accepted : bool) : Prop :=
  ∃ w r w', append_audit_event e w = (r, w')
    ∧ if accepted then r = Ok tt else ∃ code, r = Err (AuditAppendError_ExternalDependencyFailed code).

Definition accepted_events (events : list AuditEvent) (answers : list bool) : list AuditEvent :=
  omap (λ p : AuditEvent * bool, if p.2 then Some p.1 else None) (zip events answers).

Lemma resend_loop_Ok store (q : @queue AuditEvent) events sent failed w s f w' :
  queue_holds (st_path store) q w → Forall event_storable events →
  resend_loop store events sent failed w = (Ok (s, f), w') →
  ∃ answers, Forall2 attempt events answers
    ∧ s = sent + Z.of_nat (length (accepted_events events answers))
    ∧ s + f = sent + failed + Z.of_nat (length events)
    ∧ queue_holds (st_path store)
        (q ++ ((λ e, (e, DeliveryStatus_Sent)) <$> accepted_events events answers)) w'.
Proof.
  intros Hq Hev. revert q sent failed w Hq. induction Hev as [|e events He _ IH]; intros q sent failed w Hq.
  { cbn [resend_loop]. intros [= <- <- <-]. exists []. rewrite fmap_nil app_nil_r. split_and!; [constructor|cbn; lia..|done]. }
  cbn [resend_loop]. unfold io_match. destruct (append_audit_event e w) as [r w1] eqn:Happ.
  pose proof (queue_holds_same _ _ _ _ (Hremote _ _ _ _ Happ) Hq) as Hq1. destruct r as [[]|[code|]].
  - intros (u & w2 & Hm%io_map_err_Ok & Hloop)%io_bind_Ok. destruct u.
    apply append_record_Ok with (q := q) in Hm; [|done..].
    destruct (IH _ _ _ _ Hm Hloop) as (answers & Hans & Hs & Hf & Hq2).
    exists (true :: answers). split_and!.
    + constructor; [|done]. by exists w, (Ok tt), w1.
    + unfold accepted_events in *. cbn [zip_with omap list_omap length snd fst] in *. lia.
    + cbn [length]. lia.
    + by rewrite -app_assoc in Hq2.
  - intros Hloop. destruct (IH _ _ _ _ Hq1 Hloop) as (answers & Hans & Hs & Hf & Hq2).
    exists (false :: answers). split_and!.
    + constructor; [|done]. exists w, (Err (AuditAppendError_ExternalDependencyFailed code)), w1. eauto.
    + done.
    + cbn [length]. lia.
    + done.
  - done.
Qed.

End recorder_lemmas.

(** ** Sealing and the queue *)

Section rollover_lemmas.
Context {P : Platform} {F : FileSystem} {SM : SerdeMembers} {G : ArchiveCodec}.
Context {LU : UuidLaws P} {LF : FileLaws F} {LT : SerdeTextLaws P} {LS : SerdeMembersLaws SM}.

Lemma all_sent_none_pending records q :
  Forall2 parsed_as records q →
  forallb (λ p, bool_decide (p.2 = DeliveryStatus_Sent))
    (map_of_list ((λ r, (pf_event_id r, pf_delivery_status r)) <$> records)) = true →
  pending_list event_id q = [].
Proof.
  intros Hr Hall. destruct (pending_list event_id q) as [|e l] eqn:He; [done|exfalso].
  assert (e ∈ pending_list event_id q) as (q1 & q2 & -> & Hq2)%pending_list_elem by (rewrite He; by left).
  apply Forall2_app_inv_r in Hr as (r1 & r2' & Hr1 & Hr2' & ->).
  apply Forall2_cons_inv_r in Hr2' as (r & r2 & (_ & Hid & Hst) & Hr2 & ->).
  rewrite forallb_forall in Hall. specialize (Hall (event_id e, DeliveryStatus_Pending)).
  cbn in Hall. assert (bool_decide (DeliveryStatus_Pending = DeliveryStatus_Sent) = true) as Hb; [|done].
  apply Hall, list_elem_of_In, map_get_elem, map_get_of_list_last. rewrite fmap_app fmap_cons Hid Hst.
  do 2 eexists. split; [done|]. rewrite -list_fmap_compose. clear -Hr2 Hq2.
  induction Hr2 as [|r p r2 q2 (_ & Hid & _) _ IH]; [by apply not_elem_of_nil|].
  apply Forall_cons in Hq2 as [Hne Hq2]. rewrite fmap_cons. apply not_elem_of_cons. split; [|by apply IH].
  cbn. rewrite Hid. congruence.
Qed.

Lemma snapshot_queue store q w r w' :
  queue_holds (st_path store) q w → current_file_snapshot_unlocked store w = (r, w') →
  same_files w w'
  ∧ ∀ sn, r = Ok (Some sn) → ∃ data, fs_contents (st_path store) w = Some data
      ∧ (is_rollover_eligible sn (st_rotate_size_bytes store) = true →
         st_rotate_size_bytes store ≤ str_len data ∧ pending_list event_id q = [])
      ∧ sn_line_count sn = Z.of_nat (length q).
Proof.
  intros Hq. unfold current_file_snapshot_unlocked, io_match.
  destruct (fs_metadata (st_path store) w) as [m w1] eqn:Hm.
  pose proof (fs_metadata_quiet _ _ _ _ Hm) as Hs1.
  destruct m as [[is_file len]|[|e]]; [|by intros [= <- <-]..].
  apply fs_metadata_Ok in Hm. destruct is_file; [|by intros [= <- <-]].
  destruct Hm as (_ & data & Hd & ->). cbn [negb].
  unfold mbind, io_bind. destruct (parse_existing_fallback_records_unlocked store w1) as [rec w2] eqn:Hrec.
  pose proof (queue_holds_same _ _ _ _ Hs1 Hq) as Hq1.
  destruct (parse_existing_queue _ _ _ _ _ Hq1 Hrec) as [Hs2 Hr].
  pose proof (same_files_trans _ _ _ Hs1 Hs2) as Hs.
  destruct rec as [records|e]; intros [= <- <-]; (split; [done|]); [|done].
  intros sn [= <-]. exists data. split; [done|]. cbn [sn_line_count]. split; [|by erewrite Forall2_length].
  unfold is_rollover_eligible. cbn [sn_size_bytes sn_line_count sn_final_status_by_event_id].
  intros Hel. b2p. split; [done|]. by eapply all_sent_none_pending.
Qed.

(** Every file that held something keeps it, except the queue itself. *)
Lemma write_gzip_archive_Ok store archive_path w w' :
  fs_contents archive_path w = None → write_gzip_archive store archive_path w = (Ok tt, w') →
  ∃ data, fs_contents (st_path store) w = Some data
    ∧ fs_contents archive_path w' = Some (gzip_encode data) ∧ same_other_files archive_path w w'.
Proof.
  unfold write_gzip_archive, create_private_file. intros Hn H. inv_run.
  cbn [fst snd] in *. select (option str) (fun o => destruct o; [done|]).
  select (fs_read _ _ = _) (fun H => pose proof (fs_read_quiet _ _ _ _ H) as Hs1; apply fs_read_Ok in H as Hd).
  select (create_parent _ _ = _) (fun H => pose proof (create_parent_quiet _ _ _ _ H) as Hs2).
  select (fs_create_new _ _ = _) (fun H => apply fs_create_new_Ok in H as (_ & Hc & Ho)).
  select (fs_append _ _ _ = _) (fun H => pose proof (fs_append_prefix _ _ _ _ _ H) as [Ha _]; apply fs_append_Ok in H as Hw).
  select (fs_sync _ _ = _) (fun H => pose proof (fs_sync_quiet _ _ _ _ H) as Hs3).
  eexists. split; [exact Hd|]. split.
  - rewrite Hs3 Hw Hc. done.
  - intros path Hne. by rewrite Hs3 Ha // Ho // Hs2 Hs1.
Qed.

Lemma next_archive_path_Ok store w path w' :
  next_archive_path store w = (Ok path, w') → same_files w w' ∧ fs_contents path w' = None.
Proof.
  intros (t & w1 & Ht & Hu)%io_bind_Ok. revert Ht Hu. unfold archive_timestamp, unused_path.
  pose proof (clock_quiet w) as Hc. destruct (clock_now_utc w) as [now w2]. intros [= _ <-].
  destruct (fs_exists _ w2) eqn:He; intros [= <- <-]. split; [done|]. by apply fs_exists_false.
Qed.

Lemma sha256_file_Ok path w h w' :
  sha256_file path w = (Ok h, w') →
  same_files w w' ∧ ∃ data, fs_contents path w = Some data ∧ h = hex_encode (sha256 (as_bytes data)).
Proof.
  intros ([data failure] & w1 & Hr & Hh)%io_bind_Ok. cbn [fst snd] in Hh.
  pose proof (fs_read_quiet _ _ _ _ Hr) as Hs. destruct failure; [done|].
  apply fs_read_Ok in Hr. revert Hh. intros [= <- <-]. eauto.
Qed.

Lemma recreate_Ok path w1 w2 w3 :
  fs_remove path w1 = (Ok tt, w2) → create_private_file path w2 = (Ok tt, w3) →
  fs_contents path w3 = Some EmptyString ∧ same_other_files path w1 w3.
Proof.
  intros [_ Ho]%fs_remove_Ok ([] & w & Hp%create_parent_quiet & (_ & Hc & Hn)%fs_create_new_Ok)%io_bind_Ok.
  split; [done|]. intros p Hne. by rewrite Hn // Hp Ho.
Qed.
End rollover_lemmas.

(** ** Properties *)

Section fallback_theorems.
Context {P : Platform} {F : FileSystem} {SM : SerdeMembers} {A : AuditEventAppender} {G : ArchiveCodec}.
Context {LU : UuidLaws P} {LF : FileLaws F} {LT : SerdeTextLaws P} {LS : SerdeMembersLaws SM}.

(** C34. The local queue file refines the list of its records: reading it returns
    exactly the events whose last record is pending, each once, or fails for a
    reason of the disk or the lock; a successful append adds one record at the
    end of the list. *)
Theorem fallback_file_refines_queue store q e s w r w' :
  queue_holds (st_path store) q w → event_storable e →
  (pending_events store w = (r, w') →
     queue_holds (st_path store) q w'
     ∧ match r with
       | Ok events => (∀ e', e' ∈ events ↔ pending_in event_id q e') ∧ NoDup (event_id <$> events)
       | Err error => error = LocalAuditStoreError_LockPoisoned ∨ ∃ error', error = LocalAuditStoreError_Io error'
       end)
  ∧ (match s with
     | DeliveryStatus_Pending => append_pending store e w
     | DeliveryStatus_Sent => mark_sent store e w
     end = (Ok tt, w') → queue_holds (st_path store) (q ++ [(e, s)]) w').
Proof.
  intros Hq He. split.
  - intros Hp. destruct (pending_events_refines _ _ _ _ _ Hq Hp) as [Hq' Hr]. split; [done|].
    destruct r as [events|error]; [|done]. subst events.
    split; [apply pending_list_elem|apply pending_list_NoDup].
  - destruct s; by apply append_record_Ok.
Qed.

(** C35. An audit event is never dropped silently: recording it succeeds only when the
    database accepted it or it is pending in the local queue, and the queue is
    touched only in the second case. *)
Theorem recorded_event_not_lost store q e w outcome w' :
  (∀ e' : AuditEvent, leaves_files (append_audit_event e')) →
  queue_holds (st_path store) q w → event_storable e →
  record store e w = (Ok outcome, w') →
  match outcome with
  | AuditRecordOutcome_PrimarySucceeded =>
      append_audit_event e w = (Ok tt, w') ∧ queue_holds (st_path store) q w'
  | AuditRecordOutcome_FallbackSucceeded =>
      (∃ code w1, append_audit_event e w = (Err (AuditAppendError_ExternalDependencyFailed code), w1))
      ∧ queue_holds (st_path store) (q ++ [(e, DeliveryStatus_Pending)]) w'
      ∧ pending_in event_id (q ++ [(e, DeliveryStatus_Pending)]) e
  end.
Proof.
  intros Hremote Hq He. unfold record, io_match.
  destruct (append_audit_event e w) as [appended w1] eqn:Happ.
  pose proof (queue_holds_same _ _ _ _ (Hremote _ _ _ _ Happ) Hq) as Hq1.
  destruct appended as [[]|[code|]]; [by intros [= <- <-]| |done].
  intros ([] & w2 & Hp%io_map_err_Ok & [= <- <-])%io_bind_Ok. split; [eauto|].
  apply append_record_Ok with (q := q) in Hp; [|done..]. split; [done|].
  apply pending_in_snoc. by left.
Qed.

(** Resending works through the queue: every pending event is attempted once, the
    counts add up, exactly the events the database accepted stop being pending,
    and no other event changes. *)
Theorem resend_pending_exact store q w summary w' :
  (∀ e : AuditEvent, leaves_files (append_audit_event e)) →
  queue_holds (st_path store) q w →
  resend_pending store w = (Ok summary, w') →
  ∃ answers q',
    Forall2 attempt (pending_list event_id q) answers
    ∧ queue_holds (st_path store) q' w'
    ∧ (∀ e, pending_in event_id q' e ↔
         pending_in event_id q e ∧ event_id e ∉ event_id <$> accepted_events (pending_list event_id q) answers)
    ∧ rs_attempted summary = Z.of_nat (length (pending_list event_id q))
    ∧ rs_sent summary = Z.of_nat (length (accepted_events (pending_list event_id q) answers))
    ∧ rs_sent summary + rs_failed summary = rs_attempted summary.
Proof.
  intros Hremote Hq (events & w1 & Hp%io_map_err_Ok & ([s f] & w2 & Hloop & [= <- <-])%io_bind_Ok)%io_bind_Ok.
  apply pending_events_refines with (q := q) in Hp as [Hq1 ->]; [|done].
  apply resend_loop_Ok with (q := q) in Hloop as (answers & Hans & Hs & Hf & Hq2);
    [|done..|by eapply pending_storable].
  exists answers. eexists. split; [done|]. split; [exact Hq2|]. split; [intros e; apply pending_in_sent|].
  simpl. split_and!; [done|lia..].
Qed.

(** C36. Sealing never hides a pending event: while one is pending the files stay as
    they are; a sealed archive is the compressed text of the whole queue with the
    digest that is reported, and the queue starts afresh. *)
Theorem rollover_keeps_pending store q w r w' :
  queue_holds (st_path store) q w → rollover store w = (r, w') →
  (pending_list event_id q ≠ [] → same_files w w' ∧ ∀ archive, r ≠ Ok (RolloverOutcome_Sealed archive))
  ∧ (∀ archive, r = Ok (RolloverOutcome_Sealed archive) →
      ∃ data, fs_contents (st_path store) w = Some data
        ∧ st_rotate_size_bytes store ≤ str_len data
        ∧ ra_line_count archive = Z.of_nat (length q)
        ∧ fs_contents (ra_archive_path archive) w' = Some (gzip_encode data)
        ∧ ra_sha256_hex archive = hex_encode (sha256 (as_bytes (gzip_encode data)))
        ∧ queue_holds (st_path store) [] w').
Proof.
  intros Hq. unfold rollover, locked. destruct (lock_poisoned w); [by intros [= <- <-]|].
  unfold mbind at 1, io_bind at 1.
  destruct (current_file_snapshot_unlocked store w) as [sn w1] eqn:Hsn.
  destruct (snapshot_queue _ _ _ _ _ Hq Hsn) as [Hs Hel].
  destruct sn as [[sn|]|e]; [|by intros [= <- <-]..].
  destruct (Hel sn eq_refl) as (data & Hd & Hel' & Hlen).
  destruct (is_rollover_eligible sn (st_rotate_size_bytes store)); cbn [negb]; [|by intros [= <- <-]].
  destruct (Hel' eq_refl) as [Hsize Hnone]. intros Hrun. split; [done|]. intros archive ->.
  exists data. split; [done|]. split; [done|]. inv_run. simplify_eq.
  cbn [ra_line_count ra_archive_path ra_sha256_hex]. split; [done|].
  select (fs_create_dir_all _ _ = _) (fun H => apply fs_create_dir_quiet in H; rename H into Hs2).
  select (next_archive_path _ _ = _) (fun H => apply next_archive_path_Ok in H as [Hs3 Hnew]).
  select (write_gzip_archive _ _ _ = _) (fun H => apply write_gzip_archive_Ok in H as (data' & Hd' & Hz & _); [|exact Hnew]).
  select (sha256_file _ _ = _) (fun H => apply sha256_file_Ok in H as (Hs4 & z & Hz' & ->)).
  select (fs_remove _ _ = _) (fun H => eapply recreate_Ok in H as [Hempty Hother]; [|done]).
  select (fs_sync _ _ = _) (fun H => apply fs_sync_quiet in H; rename H into Hs5).
  assert (data' = data) as -> by (rewrite Hs3 Hs2 Hs Hd in Hd'; congruence).
  split_and!; [|congruence|].
  - rewrite Hs5 Hother; [by rewrite Hs4|]. intros Heq. rewrite Heq in Hnew. congruence.
  - split; [constructor|]. right. exists []. rewrite Hs5. by split.
Qed.
End fallback_theorems.

(** ** Progress: a disk and a database that work *)

Section fallback_progress.
Context {P : Platform} {F : FileSystem} {SM : SerdeMembers} {A : AuditEventAppender}.
Context {LU : UuidLaws P} {LF : FileLaws F} {LT : SerdeTextLaws P} {LS : SerdeMembersLaws SM} {FW : FilesWork F}.

Lemma pending_events_works store q w :
  queue_holds (st_path store) q w → fs_is_dir (st_path store) w = false →
  ∃ w', pending_events store w = (Ok (pending_list event_id q), w')
    ∧ (pending_list event_id q ≠ [] → is_Some (fs_contents (st_path store) w')).
Proof.
  intros Hq Hdir. destruct (pending_events store w) as [r w'] eqn:Hp.
  destruct (pending_events_refines _ _ _ _ _ Hq Hp) as [Hq' Hr].
  destruct r as [events|e]; [exists w'; subst; split; [done|]|exfalso].
  { intros Hne. destruct Hq' as (_ & [[_ ->]|(texts & Ht & _)]); [done|by eexists]. }
  revert Hp. unfold pending_events, locked, pending_events_unlocked. rewrite lock_works.
  destruct (fs_exists (st_path store) w) eqn:He; [|done]. cbn [negb].
  destruct (fs_exists_file _ _ He Hdir) as [data Hd].
  destruct (fs_read_works _ _ _ Hd) as [w1 Hread]. apply fs_read_Ok in Hread as Hd'.
  destruct Hq as (Hst & [[Hn _]|(texts & Ht & Htq)]); [congruence|].
  assert (data = lines_of texts) as -> by congruence.
  unfold parse_existing_fallback_records_unlocked, mbind, io_bind, io_map_err. rewrite Hread.
  cbn [map_err lift fst snd]. rewrite buf_lines_written; [|by eapply record_texts_lines].
  destruct (parse_queue_lines texts q 0 Hst Htq) as (records & -> & _). done.
Qed.

Lemma append_line_works store value text w :
  is_Some (fs_contents (st_path store) w) → serde_to_string value = Ok text →
  ∃ w', append_line store value w = (Ok tt, w').
Proof.
  intros Hf Htext. unfold append_line, locked, open_append_private, mbind, io_bind, io_map_err, lift. rewrite lock_works.
  destruct (create_parent_works (st_path store) w Hf) as [w1 H1]. rewrite H1.
  rewrite -(create_parent_quiet _ _ _ _ H1) in Hf.
  destruct (fs_append_works (st_path store) EmptyString w1 Hf) as [w2 H2]. rewrite H2.
  apply fs_append_Ok in H2. cbn [map_err]. rewrite Htext. cbn [map_err].
  destruct (fs_append_works (st_path store) text w2) as [w3 H3]; [by eexists|]. rewrite H3.
  apply fs_append_Ok in H3. cbn [map_err].
  destruct (fs_append_works (st_path store) (String line_feed EmptyString) w3) as [w4 ->]; [by eexists|]. cbn [map_err].
  destruct (fs_sync_works (st_path store) w4) as [w5 ->]. by exists w5.
Qed.
Lemma mark_sent_works store e w :
  event_storable e → is_Some (fs_contents (st_path store) w) →
  ∃ w', mark_sent store e w = (Ok tt, w') ∧ is_Some (fs_contents (st_path store) w').
Proof.
  intros He Hf. unfold mark_sent, mbind, io_bind, fallback_json, mbind, io_bind, current_occurred_at.
  destruct (clock_format_works w) as [t Ht]. pose proof (clock_quiet w) as Hc.
  destruct (clock_now_utc w) as [now w1]. cbn [fst snd] in *. rewrite Ht. cbn [map_err mret io_ret].
  destruct (members_of_record e t DeliveryStatus_Sent He) as (text & _ & Htext & _).
  rewrite -(Hc (st_path store)) in Hf. destruct (append_line_works store _ text w1 Hf Htext) as [w2 H2].
  exists w2. split; [exact H2|]. apply append_line_Ok in H2 as (? & _ & ->). by eexists.
Qed.

(** The events were handed to the database one after the other, and each was marked as
    sent after the database had taken it. *)
Inductive delivered (store : LocalAuditFallbackStore) : list AuditEvent → World → World → Prop :=
| delivered_all w : delivered store [] w w
| delivered_next e events w w1 w2 w' :
    append_audit_event e w = (Ok tt, w1) → mark_sent store e w1 = (Ok tt, w2) →
    delivered store events w2 w' → delivered store (e :: events) w w'.

Section delivery.
Context (Hremote : ∀ e : AuditEvent, leaves_files (append_audit_event e)).
Context (Hup : ∀ (e : AuditEvent) w, ∃ w', append_audit_event e w = (Ok tt, w')).

Lemma resend_loop_delivers store events sent w :
  Forall event_storable events → (events ≠ [] → is_Some (fs_contents (st_path store) w)) →
  ∃ w', delivered store events w w'
    ∧ resend_loop store events sent 0 w = (Ok (sent + Z.of_nat (length events), 0), w').
Proof using All.
  intros Hev. revert sent w. induction Hev as [|e events He _ IH]; intros sent w Hf.
  { exists w. split; [constructor|]. cbn. unfold mret, io_ret. by rewrite Z.add_0_r. }
  specialize (Hf ltac:(done)). destruct (Hup e w) as [w1 Happ]. rewrite -(Hremote _ _ _ _ Happ) in Hf.
  destruct (mark_sent_works store e w1 He Hf) as (w2 & Hm & Hf2).
  destruct (IH (sent + 1) w2 ltac:(done)) as (w3 & Hd & Hl). exists w3. split; [by eapply delivered_next|].
  cbn [resend_loop length]. unfold io_match. rewrite Happ. unfold mbind at 1, io_bind at 1.
  unfold io_map_err. rewrite Hm. cbn [map_err]. rewrite Hl. do 3 f_equal. lia.
Qed.

Lemma delivered_queue store events q w w' :
  delivered store events w w' → Forall event_storable events → queue_holds (st_path store) q w →
  queue_holds (st_path store) (q ++ ((λ e, (e, DeliveryStatus_Sent)) <$> events)) w'.
Proof using Hremote LF LS LT LU.
  intros Hd. revert q. induction Hd as [w|e events w w1 w2 w' Happ Hm _ IH]; intros q Hev Hq.
  { by rewrite fmap_nil app_nil_r. }
  apply Forall_cons in Hev as [He Hev]. apply append_record_Ok with (q := q) in Hm; [|done|].
  - specialize (IH _ Hev Hm). by rewrite -app_assoc in IH.
  - eapply queue_holds_same; [by eapply Hremote|exact Hq].
Qed.

End delivery.

(** C37. Every queued event is eventually delivered.  The disk works, the path of the
    queue is no directory, and the database takes every event it is handed, which
    changes no file of the server.  Then one round of resending hands the pending
    events to the database, each of them once, marks each as sent after it was taken,
    reports their number as attempted and sent and no failure, and leaves nothing
    pending. *)
Theorem resend_drains_queue store q w :
  (∀ e : AuditEvent, leaves_files (append_audit_event e)) →
  (∀ (e : AuditEvent) w1, ∃ w2, append_audit_event e w1 = (Ok tt, w2)) →
  queue_holds (st_path store) q w → fs_is_dir (st_path store) w = false →
  ∃ events w1 w' q',
    (∀ e, e ∈ events ↔ pending_in event_id q e) ∧ NoDup (event_id <$> events)
    ∧ pending_events store w = (Ok events, w1) ∧ delivered store events w1 w'
    ∧ resend_pending store w
      = (Ok (mk_ResendAuditSummary (Z.of_nat (length events)) (Z.of_nat (length events)) 0), w')
    ∧ queue_holds (st_path store) q' w' ∧ ∀ e, ¬ pending_in event_id q' e.
Proof.
  intros Hremote Hup Hq Hdir. destruct (pending_events_works store q w Hq Hdir) as (w1 & Hp & Hf).
  pose proof (pending_events_refines _ _ _ _ _ Hq Hp) as [Hq1 _]. pose proof (pending_storable _ _ _ Hq) as Hst.
  destruct (resend_loop_delivers Hremote Hup store (pending_list event_id q) 0 w1 Hst Hf) as (w2 & Hd & Hl).
  eexists (pending_list event_id q), w1, w2, _. split; [intros e; apply pending_list_elem|].
  split; [apply pending_list_NoDup|]. split; [done|]. split; [done|]. split.
  { unfold resend_pending, mbind, io_bind, io_map_err. rewrite Hp. cbn [map_err]. by rewrite Hl. }
  split; [by eapply delivered_queue|]. intros e [He Hn]%pending_in_sent. apply Hn.
  by apply list_elem_of_fmap_2, pending_list_elem.
Qed.
End fallback_progress.
