(* ===== verification/App.v ===== *)
(** * The state the handlers share ([src/server/state.rs], [src/server/handlers/health.rs])

    Besides the world, the process keeps two small shared records: what the
    readiness probes found, and since when the SIEM does not answer.  A
    handler runs over both, as [proc]. *)

From S2P Require Import Prelude RustStd Json Platform Reference Files.

(** [time::Duration::try_from]: a [std::time::Duration] in nanoseconds, refused
    when its seconds exceed [i64]. *)
Definition time_duration_try_from (nanos : Z) : option Z :=
  if nanos / 1000000000 <=? i64_max then Some nanos else None.

(** ** The shared records *)

Section state.
Context {P : Platform}.

Record ReadinessStateInner := mk_ReadinessStateInner {
  ri_supabase_reachable : bool;
  ri_supabase_last_checked_at : option DateTime;
  ri_failure_audit_both_failed_last_at : option DateTime;
}.

Record SiemForwarderStatusInner := mk_SiemForwarderStatusInner {
  si_failure_since : option DateTime;
  si_last_failure_code : option Z;
}.

Record Shared := mk_Shared {
  sh_readiness : ReadinessStateInner;
  sh_siem_status : SiemForwarderStatusInner;
}.

Definition ReadinessState_new : ReadinessStateInner := mk_ReadinessStateInner false None None.
Definition SiemForwarderStatus_new : SiemForwarderStatusInner := mk_SiemForwarderStatusInner None None.

(** A step that cannot fail. *)
Definition act (A : Type) : Type := Shared * World → A * (Shared * World).

Definition in_world {E A} (m : io World E A) : io (Shared * World) E A := λ s,
  let '(r, w) := m s.2 in (r, (s.1, w)).
Definition infallible {E A} (m : act A) : io (Shared * World) E A := λ s, let '(a, s') := m s in (Ok a, s').
(** The outcome of a fallible step, as a value. *)
Definition attempted {E A} (m : io (Shared * World) E A) : act (result E A) := m.

Definition now_utc : act DateTime := λ s, let '(t, w) := clock_now_utc s.2 in (t, (s.1, w)).

#[global] Instance act_ret : MRet act := λ A a s, (a, s).
#[global] Instance act_bind : MBind act := λ A B f m s, let '(a, s') := m s in f a s'.

(** ** Readiness *)

Definition with_readiness (write : ReadinessStateInner → ReadinessStateInner) : act unit := λ s,
  (tt, (mk_Shared (write (sh_readiness s.1)) (sh_siem_status s.1), s.2)).

Definition record_supabase_probe_result_at (reachable : bool) (checked_at : DateTime) : act unit :=
  with_readiness (λ state,
    mk_ReadinessStateInner reachable (Some checked_at) (ri_failure_audit_both_failed_last_at state)).
Definition record_supabase_probe_result (reachable : bool) : act unit :=
  t ← now_utc; record_supabase_probe_result_at reachable t.

Definition mark_failure_audit_both_failed_at (occurred_at : DateTime) : act unit :=
  with_readiness (λ state,
    mk_ReadinessStateInner (ri_supabase_reachable state) (ri_supabase_last_checked_at state)
      (Some occurred_at)).
Definition mark_failure_audit_both_failed : act unit :=
  t ← now_utc; mark_failure_audit_both_failed_at t.

Definition is_timestamp_within_age {I : Instants P} (timestamp : option DateTime) (now : DateTime)
    (max_age : Z) : bool :=
  match timestamp, time_duration_try_from max_age with
  | Some timestamp, Some max_age => dt_nanos now - dt_nanos timestamp <=? max_age
  | _, _ => false
  end.
Definition supabase_is_fresh {I : Instants P} (snapshot : ReadinessStateInner) (now : DateTime) (max_age : Z) : bool :=
  is_timestamp_within_age (ri_supabase_last_checked_at snapshot) now max_age.
Definition failure_audit_both_failed_recent {I : Instants P} (snapshot : ReadinessStateInner)
    (now : DateTime) (ttl : Z) : bool :=
  is_timestamp_within_age (ri_failure_audit_both_failed_last_at snapshot) now ttl.

(** ** Health *)

Definition READINESS_STALE_MULTIPLIER : Z := 2.
Definition BYTES_PER_MEBIBYTE : Z := 1024 * 1024.

(** [Duration::MAX], and the largest number of nanoseconds [checked_mul] keeps. *)
Definition duration_max : Z := u64_max * 1000000000 + 999999999.
Definition readiness_stale_threshold (poll_interval : Z) : Z :=
  if poll_interval * READINESS_STALE_MULTIPLIER <=? duration_max
  then poll_interval * READINESS_STALE_MULTIPLIER else duration_max.

Definition filesystem_probe_path {F : FileSystem} (path : str) : str :=
  match path_parent path with Some parent => parent | None => path end.

Record HealthComponents := mk_HealthComponents {
  hc_supabase_reachable : bool;
  hc_master_key_loaded : bool;
  hc_disk_free_mb : option Z;
}.

(** [available_space] is [fs4::available_space] of a path. *)
Definition available_disk_space_mb {F : FileSystem} (available_space : str → World → option Z)
    (path : str) (w : World) : option Z :=
  (λ bytes, bytes / BYTES_PER_MEBIBYTE) <$> available_space (filesystem_probe_path path) w.

Definition collect_health_components {F : FileSystem} {I : Instants P}
    (available_space : str → World → option Z) (health_readiness_poll_interval : Z)
    (audit_fallback_path : str) : act HealthComponents := λ s,
  let '(now, s) := now_utc s in
  let snapshot := sh_readiness s.1 in
  let supabase_max_age := readiness_stale_threshold health_readiness_poll_interval in
  let supabase_reachable :=
    ri_supabase_reachable snapshot && supabase_is_fresh snapshot now supabase_max_age in
  (mk_HealthComponents supabase_reachable true
     (available_disk_space_mb available_space audit_fallback_path s.2), s).

Record HealthResponse := mk_HealthResponse {
  hr_status : str;
  hr_supabase : str;
  hr_master_key : str;
  hr_disk_free_mb : option Z;
}.

(** [health_check] and [ready_check] differ in the two words of the status. *)
Definition health_response (up down : str) (components : HealthComponents) : Z * HealthResponse :=
  let is_up := hc_supabase_reachable components && hc_master_key_loaded components in
  (if is_up then 200 else 503,
   mk_HealthResponse (if is_up then up else down)
     (if hc_supabase_reachable components then "ok" else "ng")
     (if hc_master_key_loaded components then "loaded" else "not_loaded")
     (hc_disk_free_mb components)).

Definition health_check {F : FileSystem} {I : Instants P} (available_space : str → World → option Z)
    (health_readiness_poll_interval : Z) (audit_fallback_path : str) : act (Z * HealthResponse) :=
  components ← collect_health_components available_space health_readiness_poll_interval audit_fallback_path;
  mret (health_response "up" "down" components).
Definition ready_check {F : FileSystem} {I : Instants P} (available_space : str → World → option Z)
    (health_readiness_poll_interval : Z) (audit_fallback_path : str) : act (Z * HealthResponse) :=
  components ← collect_health_components available_space health_readiness_poll_interval audit_fallback_path;
  mret (health_response "ready" "not_ready" components).
End state.

(** A handler: a fallible step over the shared records and the world. *)
Notation proc := (io (Shared * World)).

Section proc_lemmas.
Context {P : Platform}.

Lemma in_world_Ok {E A} (m : io World E A) s a s' :
  in_world m s = (Ok a, s') ↔ m s.2 = (Ok a, s'.2) ∧ s'.1 = s.1.
Proof.
  unfold in_world. destruct (m s.2) as [r w]. destruct s' as [sh' w']. cbn.
  split; [by intros [= -> <- <-]|by intros [[= -> ->] ->]].
Qed.
Lemma infallible_Ok {E A} (m : act A) s a s' : @infallible P E A m s = (Ok a, s') ↔ m s = (a, s').
Proof. unfold infallible. destruct (m s) as [b s1]. naive_solver. Qed.
Lemma io_match_run {W E1 E2 A B} (m : io W E1 A) (f : result E1 A → io W E2 B) w r w' :
  io_match m f w = (r, w') ↔ ∃ r1 w1, m w = (r1, w1) ∧ f r1 w1 = (r, w').
Proof. unfold io_match. destruct (m w) as [r1 w1]. naive_solver. Qed.

Lemma mark_failure_run (sh : Shared) (w : World) :
  mark_failure_audit_both_failed (sh, w)
  = (tt, (mk_Shared (mk_ReadinessStateInner (ri_supabase_reachable (sh_readiness sh))
        (ri_supabase_last_checked_at (sh_readiness sh)) (Some (clock_now_utc w).1)) (sh_siem_status sh),
      (clock_now_utc w).2)).
Proof. unfold mark_failure_audit_both_failed, mbind, act_bind, now_utc. cbn [fst snd]. by destruct (clock_now_utc w). Qed.

(** A step that marks the readiness record and then fails. *)
Lemma mark_then_fail {E B} (e : E) (s : Shared * World) :
  (_ ← infallible mark_failure_audit_both_failed; (lift (Err e) : io (Shared * World) E B)) s
  = (Err e, (mark_failure_audit_both_failed s).2).
Proof. unfold mbind, io_bind, infallible. by destruct (mark_failure_audit_both_failed s). Qed.
End proc_lemmas.

(** The steps of a handler that succeeded. *)
Ltac inv_proc :=
  repeat first
    [ inv_ok_step
    | match goal with
      | H : in_world _ _ = (Ok _, _) |- _ => apply in_world_Ok in H
      | H : infallible _ _ = (Ok _, _) |- _ => apply infallible_Ok in H
      end ];
  subst.

(** ** Properties *)

Section health_theorems.
Context {P : Platform} {F : FileSystem} {I : Instants P}.

Lemma time_duration_Some nanos :
  0 ≤ nanos → (time_duration_try_from nanos = Some nanos ↔ nanos / 1000000000 ≤ i64_max).
Proof. intros _. unfold time_duration_try_from. destruct (Z.leb_spec (nanos / 1000000000) i64_max); split; intros; [done|done|done|lia]. Qed.

(** The server reports itself ready exactly while the last probe of the database
    was a success and is at most two polling intervals old; the mark left when
    an audit event could be recorded nowhere has no part in it. *)
Theorem ready_iff_recent_probe available_space interval path s response s' :
  0 ≤ interval → interval * 2 / 1000000000 ≤ i64_max →
  ready_check available_space interval path s = (response, s') →
  let snapshot := sh_readiness s.1 in
  let now := (clock_now_utc s.2).1 in
  (response.1 = 200 ∨ response.1 = 503)
  ∧ (response.1 = 200 ↔
      ri_supabase_reachable snapshot = true
      ∧ ∃ t, ri_supabase_last_checked_at snapshot = Some t ∧ dt_nanos now - dt_nanos t ≤ 2 * interval)
  ∧ (hr_status response.2 = "ready"%string ↔ response.1 = 200)
  ∧ s'.1 = s.1.
Proof.
  intros Hi Hmax. destruct s as [sh w]. unfold ready_check, mbind, act_bind, collect_health_components, now_utc.
  cbn [fst snd]. destruct (clock_now_utc w) as [now w1]. cbn [fst snd].
  unfold health_response. cbn [hc_supabase_reachable hc_master_key_loaded]. rewrite andb_true_r.
  intros [= <- <-]. cbn [fst snd hr_status].
  assert (readiness_stale_threshold interval = interval * 2) as ->.
  { unfold readiness_stale_threshold, READINESS_STALE_MULTIPLIER.
    rewrite (proj2 (Z.leb_le _ _)); [done|]. unfold duration_max, u64_max, i64_max in *.
    pose proof (Z.mul_div_le (interval * 2) 1000000000 ltac:(lia)).
    pose proof (Z.mod_pos_bound (interval * 2) 1000000000 ltac:(lia)).
    pose proof (Z.div_mod (interval * 2) 1000000000 ltac:(lia)). lia. }
  unfold supabase_is_fresh, is_timestamp_within_age.
  rewrite (proj2 (time_duration_Some (interval * 2) ltac:(lia)) Hmax).
  destruct (ri_supabase_reachable (sh_readiness sh)) eqn:Hr; cbn [andb].
  - destruct (ri_supabase_last_checked_at (sh_readiness sh)) as [t|]; [|naive_solver].
    destruct (Z.leb_spec (dt_nanos now - dt_nanos t) (interval * 2)); split_and!; try naive_solver.
    + split; [intros _|done]. split; [done|]. exists t. split; [done|]. lia.
    + split; [done|]. intros (_ & t' & [= <-] & ?). lia.
  - naive_solver.
Qed.
End health_theorems.
