(* ===== verification/ExportUseCase.v ===== *)
(** * Exporting a digest to the archive ([src/server/use_cases/export_digest_to_archive.rs])

    A signed digest is put into the external archive, read back, and recorded in the
    ledger and in the audit log; a failure is audited and may become an incident.
    The failure audit of the digest generation ([generate_monthly_digest.rs]) is
    here too: both are recorded and never change the outcome. *)

From S2P Require Import Prelude RustStd Json Platform Reference Errors Types AuditTypes LedgerTypes LedgerPayload LedgerEntry LedgerChain LedgerRpc LedgerAppender Digest DigestUseCases Files Archive AuditEvent AuditBuilders Incident KeyRotation AuditFallback App.

Inductive ExportDigestToArchiveError :=
| ExportDigestToArchiveError_BackendFailed (code : str)
| ExportDigestToArchiveError_LedgerAppendFailed (code : str).
Definition ExportDigestToArchiveError_as_error_code (e : ExportDigestToArchiveError) : str :=
  match e with
  | ExportDigestToArchiveError_BackendFailed code | ExportDigestToArchiveError_LedgerAppendFailed code => code
  end.

(** A backend's own code is kept when it has the prefix. *)
Definition backend_error_code (error : ArchiveBackendError) : str :=
  match error with
  | ArchiveBackendError_InvalidKey _ => "archive_export_invalid_key"
  | ArchiveBackendError_SerializationFailed _ => "archive_export_serialization_failed"
  | ArchiveBackendError_BackendFailed code =>
      if starts_with code "archive_export_" then code else "archive_export_backend_failed"
  | ArchiveBackendError_IoError _ => "archive_export_io_error"
  end.

(** A step whose outcome is only logged. *)
Definition logged {W E E' A} (m : io W E A) : io W E' unit := io_match m (λ _, mret tt).

(** ** The archive in a directory ([src/archive/dummy.rs]) *)

(** [fs::write] and [fs::read]: a whole file. *)
Class WholeFiles {P : Platform} := {
  fs_write : str → str → io World str unit;
  fs_read_file : str → io World IoError str;
}.
Class WholeFileLaws {P : Platform} (F : FileSystem) (WF : WholeFiles) : Prop := {
  fs_write_Ok path data w w' :
    fs_write path data w = (Ok tt, w') → fs_contents path w' = Some data ∧ same_other_files path w w';
  fs_read_file_quiet path : leaves_files (fs_read_file path);
  fs_read_file_Ok path w data w' : fs_read_file path w = (Ok data, w') → fs_contents path w = Some data;
  fs_read_file_not_found path w w' :
    fs_read_file path w = (Err IoError_NotFound, w') → fs_contents path w = None;
}.

(** The components of a path are between slashes; [..] is the one refused. *)
Fixpoint path_segments (rev_segment l : list ascii) : list (list ascii) :=
  match l with
  | [] => [rev rev_segment]
  | a :: l =>
      if Ascii.eqb a "/" then rev rev_segment :: path_segments [] l else path_segments (a :: rev_segment) l
  end.
Definition has_parent_component (key : str) : bool :=
  existsb (λ segment, bool_decide (segment = chars "..")) (path_segments [] (chars key)).

Section local_archive.
Context {P : Platform} {F : FileSystem} {WF : WholeFiles}.

Definition resolve_path (base_dir : str) (key : ArchiveObjectKey) : result ArchiveBackendError str :=
  if has_parent_component (ArchiveObjectKey_as_str key)
  then Err (ArchiveBackendError_InvalidKey "archive key must not contain '..' components")
  else Ok (path_join base_dir (ArchiveObjectKey_as_str key)).

Definition local_put_object (base_dir : str) (key : ArchiveObjectKey) (package : ArchiveExportPackage) :
    io World ArchiveBackendError unit :=
  bytes ← lift (ArchiveExportPackage_to_json_bytes package);
  path ← lift (resolve_path base_dir key);
  _ ← create_parent path !?? ArchiveBackendError_IoError;
  fs_write path (from_bytes bytes) !?? ArchiveBackendError_IoError.

Definition local_verify_object (base_dir : str) (key : ArchiveObjectKey) (package : ArchiveExportPackage) :
    io World ArchiveBackendError ArchiveVerifyOutcome :=
  expected ← lift (ArchiveExportPackage_to_json_bytes package);
  path ← lift (resolve_path base_dir key);
  io_match (fs_read_file path) (λ stored,
    match stored with
    | Err IoError_NotFound => mret ArchiveVerifyOutcome_NotFound
    | Err error => lift (Err (ArchiveBackendError_IoError (IoError_to_string error)))
    | Ok stored =>
        mret (if String.eqb stored (from_bytes expected) then ArchiveVerifyOutcome_Valid
              else ArchiveVerifyOutcome_ContentMismatch)
    end).

Definition LocalFileArchiveBackend (base_dir : str) : ArchiveBackend := {|
  backend_put_object := local_put_object base_dir;
  backend_verify_object := local_verify_object base_dir;
|}.
End local_archive.

(** ** The use case *)

Section export_use_case.
Context {P : Platform} {F : FileSystem} {SM : SerdeMembers} {A : AuditEventAppender}.
Context {IS : IncidentService} {NS : NotificationSink} {Svc : LedgerService} {B : ArchiveBackend}.

(** Any of the four steps may fail, and then the rest is skipped. *)
Definition record_built_audit (store : LocalAuditFallbackStore) (request_id : RequestId) (action : AuditAction)
    (res : AuditResult) (built : result AuditEventError AuditMetadata) : io World unit AuditRecordOutcome :=
  audit_event_id ← AuditEventId_generate !?? (λ _, tt);
  metadata ← lift (built !? (λ _, tt));
  event ← lift (AuditEvent_new (mk_AuditEventParts audit_event_id request_id None None action None res None
    metadata) !? (λ _, tt));
  record store event !?? (λ _, tt).

Definition record_archive_export_audit {E} (store : LocalAuditFallbackStore) (request_id : RequestId)
    (res : AuditResult) (builder : ArchiveExportMetadata) : io World E unit :=
  logged (record_built_audit store request_id AuditAction_ArchiveExport res (ArchiveExportMetadata_build builder)).

Definition record_archive_export_success_audit {E} (store : LocalAuditFallbackStore) (request_id : RequestId)
    (period : MonthlyDigestPeriod) (key : ArchiveObjectKey) (digest_hash_hex : str)
    (exported_at : SourceEventAt) : io World E unit :=
  record_archive_export_audit store request_id AuditResult_Success
    (ArchiveExportMetadata_with_digest_hash
      (ArchiveExportMetadata_with_archive_key (ArchiveExportMetadata_new period exported_at) key) digest_hash_hex).

Definition record_archive_export_failure_audit {E} (store : LocalAuditFallbackStore) (request_id : RequestId)
    (period : MonthlyDigestPeriod) (error_code : str) (exported_at : SourceEventAt) : io World E unit :=
  record_archive_export_audit store request_id AuditResult_Failure
    (ArchiveExportMetadata_with_error_code (ArchiveExportMetadata_new period exported_at) error_code).

Definition record_monthly_digest_failure_audit {E} (store : LocalAuditFallbackStore) (request_id : RequestId)
    (period : MonthlyDigestPeriod) (error : GenerateMonthlyDigestError) (generated_at : SourceEventAt) :
    io World E unit :=
  logged (record_built_audit store request_id AuditAction_MonthlyDigestGenerate AuditResult_Failure
    (MonthlyDigestGenerateMetadata_build (MonthlyDigestGenerateMetadata_new period
      (GenerateMonthlyDigestError_as_error_code error) generated_at))).

Definition append_archive_exported_ledger_entry (appender : LedgerAppender) (digest : SignedMonthlyDigest)
    (key : ArchiveObjectKey) (request_id : RequestId) (exported_at : SourceEventAt) : io World str unit :=
  let entry_type := LedgerEntryType_ArchiveExported in
  payload ← lift (LedgerPayload_new entry_type (JObject (map_of_list
    [("archive_key", JString (ArchiveObjectKey_as_str key));
     ("digest_hash", JString (DigestHash_to_hex (dg_digest_hash digest)));
     ("target_year_month", JString (MonthlyDigestPeriod_as_str (dg_period digest)))]%string))
    !? (λ _, "archive_exported_payload_build_failed"%string));
  ledger_entry_id ← LedgerEntryId_generate !?? (λ _, "archive_exported_id_generate_failed"%string);
  draft ← lift (LedgerAppendDraft_new (mk_LedgerAppendDraft ledger_entry_id entry_type exported_at request_id
    None None None None None LedgerResult_Success None payload)
    !? (λ _, "archive_exported_draft_build_failed"%string));
  _ ← append appender draft !?? (λ _, "archive_exported_append_failed"%string);
  mret tt.

Definition export_digest_to_archive (store : LocalAuditFallbackStore) (appender : LedgerAppender)
    (digest : SignedMonthlyDigest) (request_id : RequestId) (exported_at : SourceEventAt) :
    io World ExportDigestToArchiveError ArchiveObjectKey :=
  let period := dg_period digest in
  let failed error := ExportDigestToArchiveError_BackendFailed (ArchiveBackendError_to_string error) in
  package ← lift (ArchiveExportPackage_from_digest digest !? failed);
  key ← lift (ArchiveObjectKey_for_monthly_digest period !? failed);
  let digest_hash_hex := DigestHash_to_hex (dg_digest_hash digest) in
  let fail {C} (error_code : str) : io World ExportDigestToArchiveError C :=
    _ ← record_archive_export_failure_audit store request_id period error_code exported_at;
    lift (Err (ExportDigestToArchiveError_BackendFailed error_code)) in
  _ ← io_match (backend_put_object key package) (λ put,
    match put with
    | Ok _ => mret tt
    | Err error => fail (backend_error_code error)
    end);
  _ ← io_match (backend_verify_object key package) (λ verified,
    match verified with
    | Ok ArchiveVerifyOutcome_Valid => mret tt
    | Ok ArchiveVerifyOutcome_NotFound => fail "archive_export_not_found"%string
    | Ok ArchiveVerifyOutcome_ContentMismatch => fail "archive_export_content_mismatch"%string
    | Err error => fail (backend_error_code error)
    end);
  io_match (append_archive_exported_ledger_entry appender digest key request_id exported_at) (λ ledger_result,
    _ ← record_archive_export_success_audit store request_id period key digest_hash_hex exported_at;
    match ledger_result with
    | Ok _ => mret key
    | Err code => lift (Err (ExportDigestToArchiveError_LedgerAppendFailed code))
    end).

Definition export_digest_to_archive_with_incident (store : LocalAuditFallbackStore) (appender : LedgerAppender)
    (digest : SignedMonthlyDigest) (request_id : RequestId) (exported_at : SourceEventAt) :
    io World ExportDigestToArchiveError ArchiveObjectKey :=
  io_match (export_digest_to_archive store appender digest request_id exported_at) (λ exported,
    match exported with
    | Ok key => mret key
    | Err error =>
        _ ← match archive_incident_input "archive_export_verify"
                  (ExportDigestToArchiveError_as_error_code error) (dg_period digest) with
            | Some input => logged (incident_record appender input)
            | None => mret tt
            end;
        lift (Err error)
    end).
End export_use_case.

(** ** Lemmas *)

Section export_lemmas.
Context {P : Platform} {F : FileSystem} {SM : SerdeMembers} {A : AuditEventAppender}.
Context {IS : IncidentService} {NS : NotificationSink} {Svc : LedgerService} {B : ArchiveBackend}.
Implicit Types (store : LocalAuditFallbackStore) (appender : LedgerAppender) (digest : SignedMonthlyDigest).

(** A step that is only logged cannot fail. *)
Lemma logged_run {E1 E2 C} (m : io World E1 C) w : (logged m : io World E2 unit) w = (Ok tt, (m w).2).
Proof. unfold logged, io_match. by destruct (m w). Qed.

Lemma backend_error_code_prefix error : starts_with (backend_error_code error) "archive_export_" = true.
Proof. destruct error as [| |code|]; try done. unfold backend_error_code. by case_if. Qed.

Lemma archive_key_Ok p :
  MonthlyDigestPeriod_parse (MonthlyDigestPeriod_as_str p) = Ok p →
  ArchiveObjectKey_for_monthly_digest p
  = Ok (mk_ArchiveObjectKey ("digests/" +:+ MonthlyDigestPeriod_as_str p +:+ "/digest.json")).
Proof.
  intros [Hl _]%period_text. unfold ArchiveObjectKey_for_monthly_digest, ArchiveObjectKey_new.
  rewrite (proj2 (Z.ltb_ge _ _)); [done|]. rewrite !str_len_app Hl. done.
Qed.

(** The entry the ledger takes for an export. *)
Lemma append_archive_exported_Ok appender digest key rid t w w' :
  append_archive_exported_ledger_entry appender digest key rid t w = (Ok tt, w') →
  ∃ draft w1 outcome, append appender draft w1 = (Ok outcome, w')
    ∧ ad_entry_type draft = LedgerEntryType_ArchiveExported ∧ ad_result draft = LedgerResult_Success
    ∧ ad_source_event_at draft = t ∧ ad_request_id draft = rid
    ∧ payload_object (ad_payload draft) = [("archive_key", JString (ArchiveObjectKey_as_str key));
        ("digest_hash", JString (DigestHash_to_hex (dg_digest_hash digest)));
        ("target_year_month", JString (MonthlyDigestPeriod_as_str (dg_period digest)))]%string.
Proof.
  unfold append_archive_exported_ledger_entry. intros H. inv_run.
  match goal with H : LedgerAppendDraft_new _ = _ |- _ => apply LedgerAppendDraft_new_Ok in H as [-> _] end.
  match goal with H : LedgerPayload_new _ _ = _ |- _ => apply LedgerPayload_new_Ok in H as ([= Hp] & _) end.
  simplify_eq. eexists _, _, _. split; [eassumption|]. by split_and!.
Qed.

(** The entry's draft cannot be refused, so the steps fail for the payload, the
    identifier or the ledger. *)
Lemma append_archive_exported_Err appender digest key rid t w code w' :
  append_archive_exported_ledger_entry appender digest key rid t w = (Err code, w') →
  code ∈ ["archive_exported_payload_build_failed"; "archive_exported_id_generate_failed";
          "archive_exported_append_failed"]%string.
Proof.
  unfold append_archive_exported_ledger_entry, mbind, io_bind, lift, io_map_err.
  destruct (LedgerPayload_new _ _) as [p|] eqn:Hp; cbn [map_err]; [|intros [= <- _]; set_solver].
  apply LedgerPayload_new_Ok in Hp as (_ & Ht & _).
  destruct (LedgerEntryId_generate w) as [[id|] w1]; cbn [map_err]; [|intros [= <- _]; set_solver].
  unfold LedgerAppendDraft_new. cbn [ad_payload ad_entry_type]. rewrite Ht bool_decide_eq_true_2 //. cbn [map_err negb].
  destruct (append appender _ w1) as [[o|] w2]; cbn [map_err]; [done|intros [= <- _]; set_solver].
Qed.

Lemma audited_failure {C} store rid p code t w error w' :
  (_ ← record_archive_export_failure_audit store rid p code t;
   (lift (Err (ExportDigestToArchiveError_BackendFailed code)) : io World _ C)) w = (Err error, w') →
  error = ExportDigestToArchiveError_BackendFailed code.
Proof.
  unfold record_archive_export_failure_audit, record_archive_export_audit, mbind, io_bind. rewrite logged_run. by intros [= <- _].
Qed.

(** A failed export: the code of the archive always names a mismatch. *)
Lemma export_Err {LS : SerdeLaws P} store appender digest rid t w error w' :
  digest_made digest → MonthlyDigestPeriod_parse (MonthlyDigestPeriod_as_str (dg_period digest)) = Ok (dg_period digest) →
  export_digest_to_archive store appender digest rid t w = (Err error, w') →
  archive_incident_type (ExportDigestToArchiveError_as_error_code error) = Some IncidentType_ArchiveExportMismatch
  ∨ ∃ code, error = ExportDigestToArchiveError_LedgerAppendFailed code
      ∧ code ∈ ["archive_exported_payload_build_failed"; "archive_exported_id_generate_failed"]%string.
Proof.
  intros Hd Hp. unfold export_digest_to_archive.
  destruct (from_digest_Ok digest Hd) as (document & -> & _). rewrite (archive_key_Ok _ Hp).
  assert (∀ code, starts_with code "archive_export_" = true →
    archive_incident_type code = Some IncidentType_ArchiveExportMismatch) as Hpre.
  { intros code Hc. unfold archive_incident_type. case_if; [done|]. by rewrite Hc. }
  intros [[=]|(? & ? & [= <- <-] & [[=]|(? & ? & [= <- <-] & H)]%io_bind_Err)]%io_bind_Err.
  apply io_bind_Err in H as [(r & w1 & _ & H)%io_match_run|([] & w1 & _ & H)].
  { destruct r as [|pe]; [done|]. apply audited_failure in H as ->. left. apply Hpre, backend_error_code_prefix. }
  apply io_bind_Err in H as [(r & w2 & _ & H)%io_match_run|([] & w2 & _ & H)].
  { destruct r as [[]|pe]; [done|..]; apply audited_failure in H as ->; left; apply Hpre; [done..|].
    apply backend_error_code_prefix. }
  apply io_match_run in H as (r & w3 & Hled & H).
  unfold record_archive_export_success_audit, record_archive_export_audit, mbind, io_bind in H. rewrite logged_run in H.
  destruct r as [[]|code]; [done|]. injection H as <- _. apply append_archive_exported_Err in Hled.
  rewrite !elem_of_cons elem_of_nil in Hled. destruct Hled as [->|[->|[->|[]]]]; [right; eexists; split; [done|set_solver]..|by left].
Qed.
End export_lemmas.

(** ** Properties *)

Section export_theorems.
Context {P : Platform} {F : FileSystem} {SM : SerdeMembers} {A : AuditEventAppender}.
Context {IS : IncidentService} {NS : NotificationSink} {Svc : LedgerService} {B : ArchiveBackend}.
Implicit Types (store : LocalAuditFallbackStore) (appender : LedgerAppender) (digest : SignedMonthlyDigest).

(** An export answers a key only when the archive took the package of this digest
    under it, gave the same content back, and the ledger took an entry that binds the
    key, the digest's hash and its month. *)
Theorem export_is_verified_and_recorded store appender digest rid t w key w' :
  export_digest_to_archive store appender digest rid t w = (Ok key, w') →
  ∃ package w1 w2 draft w3 outcome w4,
    ArchiveExportPackage_from_digest digest = Ok package
    ∧ ArchiveObjectKey_for_monthly_digest (dg_period digest) = Ok key
    ∧ backend_put_object key package w = (Ok tt, w1)
    ∧ backend_verify_object key package w1 = (Ok ArchiveVerifyOutcome_Valid, w2)
    ∧ append appender draft w3 = (Ok outcome, w4)
    ∧ ad_entry_type draft = LedgerEntryType_ArchiveExported ∧ ad_result draft = LedgerResult_Success
    ∧ payload_object (ad_payload draft) = [("archive_key", JString (ArchiveObjectKey_as_str key));
        ("digest_hash", JString (DigestHash_to_hex (dg_digest_hash digest)));
        ("target_year_month", JString (MonthlyDigestPeriod_as_str (dg_period digest)))]%string.
Proof.
  unfold export_digest_to_archive. intros H.
  apply io_bind_Ok in H as (package & w0 & [Hp%map_err_Ok ->]%lift_Ok & H).
  apply io_bind_Ok in H as (key0 & w1 & [Hk%map_err_Ok ->]%lift_Ok & H).
  apply io_bind_Ok in H as ([] & w2 & (r & w1 & Hput & H1)%io_match_run & H).
  destruct r as [[]|]; [injection H1 as <-|by apply io_bind_Ok in H1 as (? & ? & _ & [? _]%lift_Ok)].
  apply io_bind_Ok in H as ([] & w3 & (r & w2 & Hver & H1)%io_match_run & H).
  destruct r as [[]|]; [injection H1 as <-|by apply io_bind_Ok in H1 as (? & ? & _ & [? _]%lift_Ok)..].
  apply io_match_run in H as (r & w3 & Hled & H). apply io_bind_Ok in H as ([] & w4 & _ & H).
  destruct r as [[]|]; [injection H as <- <-|by apply lift_Ok in H as [? _]].
  apply append_archive_exported_Ok in Hled as (draft & w5 & outcome & Happ & Ht & Hr & _ & _ & Hpay).
  eexists _, _, _, _, _, _, _. split_and!; try done.
Qed.

(** An archive in a directory keeps what it takes: after a successful put the file of
    the key, and no other, holds the package's document, and checking the same package
    right away finds it there, unless the disk cannot be read. *)
Theorem local_archive_keeps_document {WF : WholeFiles} {LF : FileLaws F} {LW : WholeFileLaws F WF}
    base_dir key package w w1 r w2 :
  local_put_object base_dir key package w = (Ok tt, w1) → local_verify_object base_dir key package w1 = (r, w2) →
  ∃ path bytes, resolve_path base_dir key = Ok path ∧ ArchiveExportPackage_to_json_bytes package = Ok bytes
    ∧ fs_contents path w1 = Some (from_bytes bytes) ∧ same_other_files path w w1
    ∧ (r = Ok ArchiveVerifyOutcome_Valid ∨ ∃ message, r = Err (ArchiveBackendError_IoError message)).
Proof.
  unfold local_put_object, local_verify_object. intros H Hv.
  apply io_bind_Ok in H as (bytes & ? & [Hb ->]%lift_Ok & H). apply io_bind_Ok in H as (path & ? & [Hp ->]%lift_Ok & H).
  apply io_bind_Ok in H as ([] & w0 & Hd%io_map_err_Ok & Hw%io_map_err_Ok). exists path, bytes. rewrite Hb Hp.
  destruct (fs_write_Ok _ _ _ _ Hw) as [Hc Ho]. split_and!; [done..| |].
  - assert (same_files w w0) as Hs.
    { unfold create_parent in Hd. destruct (path_parent path); [by eapply fs_create_dir_quiet|by injection Hd as <-]. }
    intros p Hne. by rewrite (Ho p Hne).
  - rewrite Hb Hp in Hv. unfold mbind, io_bind, lift in Hv. apply io_match_run in Hv as (s & w3 & Hr & H).
    destruct s as [data|[|message]].
    + apply fs_read_file_Ok in Hr. rewrite Hc in Hr. injection Hr as <-. rewrite String.eqb_refl in H.
      injection H as <- _. by left.
    + apply fs_read_file_not_found in Hr. congruence.
    + injection H as <- _. right. by eexists.
Qed.

(** Every failure of the archive becomes an incident: when the digest was made here,
    an export that fails for the archive, or whose entry the ledger refused, has run
    the recorder on an archive mismatch for its month. Only a failure to build the
    entry, before the ledger is asked, raises none. *)
Theorem export_failure_is_an_incident {LS : SerdeLaws P} store appender digest rid t w error w' :
  digest_made digest → MonthlyDigestPeriod_parse (MonthlyDigestPeriod_as_str (dg_period digest)) = Ok (dg_period digest) →
  export_digest_to_archive_with_incident store appender digest rid t w = (Err error, w') →
  (∃ input w1 recorded, incident_record appender input w1 = (recorded, w')
    ∧ in_incident_type input = IncidentType_ArchiveExportMismatch
    ∧ in_error_code input = ExportDigestToArchiveError_as_error_code error
    ∧ in_target_year_month input = Some (dg_period digest))
  ∨ ∃ code, error = ExportDigestToArchiveError_LedgerAppendFailed code
      ∧ code ∈ ["archive_exported_payload_build_failed"; "archive_exported_id_generate_failed"]%string.
Proof.
  intros Hd Hp (r & w1 & Hx & H)%io_match_run. destruct r as [|e]; [done|].
  destruct (export_Err _ _ _ _ _ _ _ _ Hd Hp Hx) as [Hi|Hi].
  - left. unfold archive_incident_input in H. rewrite Hi in H. cbn [mbind option_bind] in H.
    unfold mbind, io_bind in H. rewrite logged_run in H. injection H as <- <-.
    eexists _, w1, _. split; [apply surjective_pairing|done].
  - right. destruct (archive_incident_input _ _ _); unfold mbind, io_bind in H; [rewrite logged_run in H|];
      by injection H as <- _.
Qed.
End export_theorems.
