(* ===== verification/Siem.v ===== *)
(** * Forwarding to the SIEM ([src/siem/], [src/server/siem_forwarding.rs])

    Audit events and ledger entries are copied to an external SIEM.  A copy the
    SIEM does not take is kept in a local buffer file and sent again later; the
    forwarder remembers since when the SIEM fails.  Forwarding never fails the
    operation that caused it: it returns an outcome, not a result. *)

From S2P Require Import Prelude RustStd Json Platform Reference Errors Types AuditTypes LedgerTypes LedgerPayload LedgerEntry LedgerChain LedgerRpc Files Alias Digest Archive AuditEvent AuditBuilders AuditFallback App.

(** ** The sink ([sink.rs]) *)

Inductive SiemSinkError :=
| SiemSinkError_BackendFailed (code : str)
| SiemSinkError_InvalidResponse (reason : str).

Definition SiemSinkError_to_string (error : SiemSinkError) : str :=
  match error with
  | SiemSinkError_BackendFailed code => "siem backend failed: " +:+ code
  | SiemSinkError_InvalidResponse reason => "siem invalid response: " +:+ reason
  end.

(** ** Events ([event.rs]) *)

Definition SIEM_EVENT_SCHEMA_VERSION : Z := 1.

Record SiemEvent := mk_SiemEvent {
  sv_schema_version : Z;
  sv_event_id : str;
  sv_event_type : str;
  sv_result : str;
  sv_request_id : str;
  sv_actor_user_id : option str;
  sv_actor_device_id : option str;
  sv_target_secret_id : option str;
  sv_key_version : option Z;
  sv_source_event_at : str;
  sv_metadata : Value;
}.

Definition SIEM_EVENT_TOP_LEVEL_KEYS : list str :=
  ["actor_device_id"; "actor_user_id"; "event_id"; "event_type"; "key_version"; "metadata";
   "request_id"; "result"; "schema_version"; "source_event_at"; "target_secret_id"]%string.

Section events.
Context {P : Platform}.

Class SiemSink := { siem_send_event : SiemEvent → io World SiemSinkError unit }.

Definition SiemEvent_from_audit_event (event : AuditEvent) : SiemEvent :=
  let parts := event_parts event in
  let source_event_at :=
    match AuditEvent_source_event_at event with
    | Ok value => SourceEventAt_as_str value
    | Err _ => EmptyString
    end in
  mk_SiemEvent SIEM_EVENT_SCHEMA_VERSION
    (AuditEventId_as_canonical_string (ev_audit_event_id parts))
    (AuditAction_as_str (ev_action parts))
    (AuditResult_as_str (ev_result parts))
    (RequestId_as_canonical_string (ev_request_id parts))
    (OwnerUserId_as_canonical_string <$> ev_actor_user_id parts)
    (DeviceId_as_str <$> ev_actor_device_id parts)
    (SecretId_as_canonical_string <$> ev_target_secret_id parts)
    (KeyVersion_get <$> ev_key_version parts)
    source_event_at
    (AuditMetadata_as_value (ev_metadata_json parts)).

Definition ledger_siem_metadata (entry : SignedLedgerEntry) : Map :=
  let f := se_fields entry in
  [("event_family", JString "ledger");
   ("entry_hash", JString (LedgerHash_to_hex (se_entry_hash entry)));
   ("ledger_entry_id", JString (LedgerEntryId_as_canonical_string (se_ledger_entry_id entry)));
   ("payload", LedgerPayload_as_value (cf_payload f));
   ("previous_entry_hash", JString (LedgerHash_to_hex (cf_previous_entry_hash f)));
   ("sequence_no", json_uint (LedgerSequenceNo_get (cf_sequence_no f)));
   ("signature_algorithm", JString "ed25519");
   ("signature_key_version", json_uint (LedgerSignatureKeyVersion_get (cf_signature_key_version f)));
   ("source_event_id", json_opt_str (AuditEventId_as_canonical_string <$> cf_source_event_id f));
   ("target_secret_version_id",
     json_opt_str (LedgerTargetSecretVersionId_as_canonical_string <$> cf_target_secret_version_id f))]%string.

Definition SiemEvent_from_signed_ledger_entry (entry : SignedLedgerEntry) : SiemEvent :=
  let f := se_fields entry in
  mk_SiemEvent SIEM_EVENT_SCHEMA_VERSION
    (LedgerEntryId_as_canonical_string (se_ledger_entry_id entry))
    (LedgerEntryType_as_str (cf_entry_type f))
    (LedgerResult_as_str (cf_result f))
    (RequestId_as_canonical_string (cf_request_id f))
    (OwnerUserId_as_canonical_string <$> cf_actor_user_id f)
    (DeviceId_as_str <$> cf_actor_device_id f)
    (SecretId_as_canonical_string <$> cf_target_secret_id f)
    (Some (LedgerSignatureKeyVersion_get (cf_signature_key_version f)))
    (SourceEventAt_as_str (cf_source_event_at f))
    (JObject (map_of_list (ledger_siem_metadata entry))).

Definition json_opt_uint (o : option Z) : Value :=
  match o with Some z => json_uint z | None => JNull end.

(** The derived serializer, [serde_json::to_value]. *)
Definition SiemEvent_fields (e : SiemEvent) : Map :=
  [("schema_version", json_uint (sv_schema_version e));
   ("event_id", JString (sv_event_id e));
   ("event_type", JString (sv_event_type e));
   ("result", JString (sv_result e));
   ("request_id", JString (sv_request_id e));
   ("actor_user_id", json_opt_str (sv_actor_user_id e));
   ("actor_device_id", json_opt_str (sv_actor_device_id e));
   ("target_secret_id", json_opt_str (sv_target_secret_id e));
   ("key_version", json_opt_uint (sv_key_version e));
   ("source_event_at", JString (sv_source_event_at e));
   ("metadata", sv_metadata e)]%string.
Definition SiemEvent_to_value (e : SiemEvent) : Value := JObject (map_of_list (SiemEvent_fields e)).

(** The derived deserializer with [deny_unknown_fields], [serde_json::from_value]:
    an object with these fields and no other, or the sequence of their values. *)
Definition siem_field_names : list str :=
  ["schema_version"; "event_id"; "event_type"; "result"; "request_id"; "actor_user_id";
   "actor_device_id"; "target_secret_id"; "key_version"; "source_event_at"; "metadata"]%string.
Definition SiemEvent_from_members (members : Map) : result str SiemEvent :=
  _ ← try_for_each (λ key, if str_in key siem_field_names then Ok tt
                           else Err ("unknown field `" +:+ key +:+ "`")%string) members.*1;
  schema_version ← u32_member "schema_version" members;
  event_id ← string_member "event_id" members;
  event_type ← string_member "event_type" members;
  res ← string_member "result" members;
  request_id ← string_member "request_id" members;
  actor_user_id ← opt_string_member "actor_user_id" members;
  actor_device_id ← opt_string_member "actor_device_id" members;
  target_secret_id ← opt_string_member "target_secret_id" members;
  key_version ← opt_u32_member "key_version" members;
  source_event_at ← string_member "source_event_at" members;
  metadata ← required_member "metadata" members;
  Ok (mk_SiemEvent schema_version event_id event_type res request_id actor_user_id actor_device_id
    target_secret_id key_version source_event_at metadata).
Definition SiemEvent_from_value (v : Value) : result str SiemEvent :=
  match v with
  | JObject members => SiemEvent_from_members members
  | JArray values =>
      if bool_decide (length values = length siem_field_names)
      then SiemEvent_from_members (zip siem_field_names values)
      else Err "invalid length"%string
  | _ => Err "invalid type, expected struct SiemEvent"%string
  end.
End events.

(** ** The buffer ([buffer.rs]) *)

Inductive LocalSiemBufferError :=
| LocalSiemBufferError_Io (error : str)
| LocalSiemBufferError_Serialization (error : str)
| LocalSiemBufferError_LockPoisoned.

Definition LocalSiemBufferError_to_string (error : LocalSiemBufferError) : str :=
  match error with
  | LocalSiemBufferError_Io error => "siem buffer I/O error: " +:+ error
  | LocalSiemBufferError_Serialization error => "siem buffer serialization error: " +:+ error
  | LocalSiemBufferError_LockPoisoned => "siem buffer lock poisoned"
  end.

Record LocalSiemFallbackBuffer := mk_LocalSiemFallbackBuffer { sb_path : str }.

Record LocalSiemFallbackRecord := mk_LocalSiemFallbackRecord {
  sr_event_id : str;
  sr_status : DeliveryStatus;
  sr_event : Value;
}.

Section buffer.
Context {P : Platform} {F : FileSystem} {SM : SerdeMembers}.

Definition LocalSiemFallbackRecord_fields (r : LocalSiemFallbackRecord) : Map :=
  [("event_id", JString (sr_event_id r));
   ("status", JString (DeliveryStatus_as_str (sr_status r)));
   ("event", sr_event r)]%string.
Definition LocalSiemFallbackRecord_from_members (members : Map) : result str LocalSiemFallbackRecord :=
  event_id ← string_member "event_id" members;
  status ← (required_member "status" members ≫= DeliveryStatus_from_value);
  event ← required_member "event" members;
  Ok (mk_LocalSiemFallbackRecord event_id status event).

(** [open_append_private] of this module creates the parent when its path is not
    empty. *)
Definition siem_open_append_private (path : str) : io World str unit :=
  _ ← match path_parent path with
      | Some parent => if is_empty parent then mret tt else fs_create_dir_all parent
      | None => mret tt
      end;
  fs_append path EmptyString.

Definition siem_append_record (buffer : LocalSiemFallbackBuffer) (record : LocalSiemFallbackRecord) :
    io World LocalSiemBufferError unit :=
  locked LocalSiemBufferError_LockPoisoned (
    _ ← siem_open_append_private (sb_path buffer) !?? LocalSiemBufferError_Io;
    text ← lift (serde_to_string (JObject (LocalSiemFallbackRecord_fields record))
                   !? LocalSiemBufferError_Serialization);
    _ ← fs_append (sb_path buffer) text !?? LocalSiemBufferError_Serialization;
    _ ← fs_append (sb_path buffer) (String line_feed EmptyString) !?? LocalSiemBufferError_Io;
    fs_sync (sb_path buffer) !?? LocalSiemBufferError_Io).

Definition siem_append_pending (buffer : LocalSiemFallbackBuffer) (event : SiemEvent) :
    io World LocalSiemBufferError unit :=
  let value := SiemEvent_to_value event in
  siem_append_record buffer (mk_LocalSiemFallbackRecord (sv_event_id event) DeliveryStatus_Pending value).
Definition siem_mark_sent (buffer : LocalSiemFallbackBuffer) (event : SiemEvent) :
    io World LocalSiemBufferError unit :=
  let value := SiemEvent_to_value event in
  siem_append_record buffer (mk_LocalSiemFallbackRecord (sv_event_id event) DeliveryStatus_Sent value).

(** The last state of each identifier, in the order of the identifiers. *)
Definition siem_states (records : list LocalSiemFallbackRecord) : list (str * LocalSiemFallbackRecord) :=
  map_of_list ((λ r, (sr_event_id r, r)) <$> records).

Definition siem_pending_events (buffer : LocalSiemFallbackBuffer) :
    io World LocalSiemBufferError (list SiemEvent) :=
  locked LocalSiemBufferError_LockPoisoned (λ w,
    if negb (fs_exists (sb_path buffer) w) then (Ok [], w) else
    (records ← read_records LocalSiemBufferError_Io LocalSiemBufferError_Serialization
                 LocalSiemFallbackRecord_from_members (sb_path buffer);
     lift (try_map (λ r, SiemEvent_from_value (sr_event r) !? LocalSiemBufferError_Serialization)
       (filter (λ r, sr_status r = DeliveryStatus_Pending) (siem_states records).*2))) w).
End buffer.

(** ** The forwarder ([forwarder.rs]) *)

Inductive SiemForwardOutcome :=
| SiemForwardOutcome_SentDirect
| SiemForwardOutcome_Buffered (sink_error_code : str)
| SiemForwardOutcome_BufferingFailed (sink_error_code : str).

Record SiemResendSummary := mk_SiemResendSummary {
  srs_attempted : Z;
  srs_sent : Z;
  srs_failed : Z;
}.

Definition sink_error_code (error : SiemSinkError) : str :=
  match error with
  | SiemSinkError_BackendFailed code =>
      if starts_with code "siem_" then code else "siem_backend_failed"
  | SiemSinkError_InvalidResponse _ => "siem_invalid_response"
  end%string.

Section forwarder.
Context {P : Platform} {F : FileSystem} {SM : SerdeMembers} {K : SiemSink}.

Definition is_long_failure {I : Instants P} (status : SiemForwarderStatusInner) (now : DateTime)
    (threshold : Z) : bool :=
  match si_failure_since status, time_duration_try_from threshold with
  | Some failure_since, Some threshold => threshold <=? dt_nanos now - dt_nanos failure_since
  | _, _ => false
  end.

Definition with_siem_status (write : SiemForwarderStatusInner → SiemForwarderStatusInner) : act unit := λ s,
  (tt, (mk_Shared (sh_readiness s.1) (write (sh_siem_status s.1)), s.2)).
Definition record_failure (now : DateTime) : act unit :=
  with_siem_status (λ state,
    match si_failure_since state with
    | None => mk_SiemForwarderStatusInner (Some now) (si_last_failure_code state)
    | Some _ => state
    end).
Definition clear_failure : act unit := with_siem_status (λ _, mk_SiemForwarderStatusInner None None).

Definition handle_send_failure (buffer : LocalSiemFallbackBuffer) (event : SiemEvent)
    (error : SiemSinkError) : act SiemForwardOutcome :=
  let code := sink_error_code error in
  now ← now_utc;
  _ ← record_failure now;
  appended ← attempted (in_world (siem_append_pending buffer event));
  mret match appended with
       | Ok _ => SiemForwardOutcome_Buffered code
       | Err _ => SiemForwardOutcome_BufferingFailed code
       end.

Definition forward (buffer : LocalSiemFallbackBuffer) (event : SiemEvent) : act SiemForwardOutcome :=
  sent ← attempted (in_world (siem_send_event event));
  match sent with
  | Ok _ => _ ← clear_failure; mret SiemForwardOutcome_SentDirect
  | Err error => handle_send_failure buffer event error
  end.

(** The loop over the pending events: the numbers sent and failed. *)
Fixpoint siem_resend_loop (buffer : LocalSiemFallbackBuffer) (pending : list SiemEvent) (sent failed : Z) :
    act (Z * Z) :=
  match pending with
  | [] => mret (sent, failed)
  | event :: pending =>
      r ← attempted (in_world (siem_send_event event));
      match r with
      | Ok _ =>
          marked ← attempted (in_world (siem_mark_sent buffer event));
          match marked with
          | Ok _ => siem_resend_loop buffer pending (sent + 1) failed
          | Err _ => siem_resend_loop buffer pending sent (failed + 1)
          end
      | Err _ => siem_resend_loop buffer pending sent (failed + 1)
      end
  end.

Definition siem_resend_pending (buffer : LocalSiemFallbackBuffer) : act SiemResendSummary :=
  pending ← attempted (in_world (siem_pending_events buffer));
  match pending with
  | Err _ => mret (mk_SiemResendSummary 0 0 0)
  | Ok pending =>
      counts ← siem_resend_loop buffer pending 0 0;
      let attempted := Z.of_nat (length pending) in
      _ ← (if (counts.2 =? 0) && (0 <? attempted) then clear_failure else mret tt);
      mret (mk_SiemResendSummary attempted counts.1 counts.2)
  end.
End forwarder.

Section failure_event.
Context {P : Platform}.

Definition build_siem_forward_failure_audit_event (request_id : RequestId) (event_type error_code : str)
    (event_count : option Z) : io World AuditEventError AuditEvent :=
  let builder := SiemForwardFailureMetadata_with_event_type (SiemForwardFailureMetadata_new error_code) event_type in
  let builder := match event_count with
    | Some count => SiemForwardFailureMetadata_with_event_count builder count
    | None => builder
    end in
  metadata ← lift (SiemForwardFailureMetadata_build builder);
  metadata ← AuditMetadata_with_current_source_event_at metadata;
  audit_event_id ← AuditEventId_generate;
  lift (AuditEvent_new (mk_AuditEventParts audit_event_id request_id None None
    AuditAction_SiemForwardFailure None AuditResult_Failure None metadata)).
End failure_event.

(** ** The service of the server ([src/server/siem_forwarding.rs]) *)

Section service.
Context {P : Platform} {F : FileSystem} {SM : SerdeMembers} {K : SiemSink} {A : AuditEventAppender}.
Context (store : LocalAuditFallbackStore) (buffer : LocalSiemFallbackBuffer).

Definition record_forward_failure (request_id : RequestId) (source_event_type sink_error_code : str) :
    act unit :=
  event ← attempted (in_world (build_siem_forward_failure_audit_event request_id source_event_type
                                 sink_error_code (Some 1)));
  match event with
  | Err _ => mark_failure_audit_both_failed
  | Ok event =>
      recorded ← attempted (in_world (record store event));
      match recorded with
      | Ok _ => mret tt
      | Err (AuditRecordError_PrimaryAndFallbackFailed _ _) => mark_failure_audit_both_failed
      | Err _ => mret tt
      end
  end.

Definition forward_siem_event (event : SiemEvent) (request_id : RequestId) (source_event_type : str) :
    act SiemForwardOutcome :=
  outcome ← forward buffer event;
  _ ← match outcome with
      | SiemForwardOutcome_SentDirect => mret tt
      | SiemForwardOutcome_Buffered sink_error_code | SiemForwardOutcome_BufferingFailed sink_error_code =>
          record_forward_failure request_id source_event_type sink_error_code
      end;
  mret outcome.
Definition forward_audit_event (event : AuditEvent) : act SiemForwardOutcome :=
  forward_siem_event (SiemEvent_from_audit_event event) (ev_request_id (event_parts event))
    (AuditAction_as_str (ev_action (event_parts event))).
Definition forward_ledger_entry (entry : SignedLedgerEntry) : act SiemForwardOutcome :=
  forward_siem_event (SiemEvent_from_signed_ledger_entry entry) (cf_request_id (se_fields entry))
    (LedgerEntryType_as_str (cf_entry_type (se_fields entry))).
End service.

(** ** The buffer holds a queue of events *)

(** Events whose text determines them and leaves room for the enclosing record. *)
Definition siem_storable (e : SiemEvent) : Prop :=
  0 ≤ sv_schema_version e ≤ u32_max ∧ (∀ z, sv_key_version e = Some z → 0 ≤ z ≤ u32_max)
  ∧ representable (sv_metadata e) = true
  ∧ json_exact (pred (pred json_max_depth)) (sv_metadata e) = true.

Section buffer_lemmas.
Context {P : Platform} {F : FileSystem} {SM : SerdeMembers}.
Context {LF : FileLaws F} {LT : SerdeTextLaws P} {LS : SerdeMembersLaws SM}.

Definition siem_record (p : SiemEvent * DeliveryStatus) : LocalSiemFallbackRecord :=
  mk_LocalSiemFallbackRecord (sv_event_id p.1) p.2 (SiemEvent_to_value p.1).
Definition siem_text (text : str) (p : SiemEvent * DeliveryStatus) : Prop :=
  serde_to_string (JObject (LocalSiemFallbackRecord_fields (siem_record p))) = Ok text.
Definition siem_queue_holds (path : str) (q : @queue SiemEvent) (w : World) : Prop :=
  Forall siem_storable q.*1 ∧ file_holds siem_text path q w.

Lemma siem_fields_NoDup e : NoDup (SiemEvent_fields e).*1.
Proof. apply (bool_decide_unpack _). by vm_compute. Qed.

Lemma siem_value_representable e : siem_storable e → representable (SiemEvent_to_value e) = true.
Proof.
  intros (Hv & Hk & Hm & _). apply representable_of_list; [apply siem_fields_NoDup|].
  assert (∀ z, 0 ≤ z ≤ u32_max → representable (json_uint z) = true) as Hz.
  { intros z Hz. cbn [representable json_uint]. apply andb_true_iff. rewrite !Z.leb_le.
    unfold u32_max, u64_max in *. lia. }
  unfold SiemEvent_fields. repeat (apply Forall_cons_2); [..|by apply Forall_nil_2]; cbn [snd];
    [by apply Hz|done|done|done|done|by destruct (sv_actor_user_id e)|by destruct (sv_actor_device_id e)
    |by destruct (sv_target_secret_id e)|destruct (sv_key_version e); [by apply Hz, Hk|done]|done|done].
Qed.

Lemma siem_value_exact e :
  siem_storable e → json_exact (pred json_max_depth) (SiemEvent_to_value e) = true.
Proof.
  intros (Hv & Hk & _ & Hm). change (pred json_max_depth) with (S (pred (pred json_max_depth))).
  revert Hm. generalize (pred (pred json_max_depth)). intros d Hm. apply json_exact_object_S. split.
  { apply map_sorted_NoDup, map_sorted_of_list. }
  apply Forall_forall. intros p Hp. rewrite elem_map_of_list in Hp; [|apply siem_fields_NoDup].
  revert p Hp. apply (proj1 (Forall_forall _ _)).
  assert (∀ z, 0 ≤ z ≤ u32_max → json_exact d (json_uint z) = true) as Hz.
  { intros z Hz. assert ((0 <=? z) && (z <=? u64_max) = true) as E.
    { apply andb_true_iff. rewrite !Z.leb_le. unfold u32_max, u64_max in *. lia. }
    by destruct d. }
  assert (∀ s, json_exact d (JString s) = true) as Hs by (intros; by destruct d).
  unfold SiemEvent_fields. repeat (apply Forall_cons_2); [..|by apply Forall_nil_2]; cbn [snd];
    [by apply Hz|apply Hs..|apply json_exact_opt_str|apply json_exact_opt_str|apply json_exact_opt_str
    |destruct (sv_key_version e); [by apply Hz, Hk|by destruct d]|apply Hs|done].
Qed.

Lemma siem_event_round_trip e : siem_storable e → SiemEvent_from_value (SiemEvent_to_value e) = Ok e.
Proof.
  intros (Hv & Hk & _). unfold SiemEvent_from_value, SiemEvent_to_value, SiemEvent_from_members.
  pose proof (map_sorted_NoDup _ (map_sorted_of_list (SiemEvent_fields e))) as Hnd.
  assert (∀ k, map_get k (map_of_list (SiemEvent_fields e)) = map_get k (SiemEvent_fields e)) as Hg.
  { intros k. apply map_get_of_list, siem_fields_NoDup. }
  assert (Forall (.∈ siem_field_names) (map_of_list (SiemEvent_fields e)).*1) as Hkeys.
  { apply Forall_forall. intros k (p & -> & Hp)%list_elem_of_fmap. rewrite elem_map_of_list in Hp; [|apply siem_fields_NoDup].
    apply (list_elem_of_fmap_2 fst) in Hp. revert Hp. generalize p.1. apply Forall_forall.
    apply (bool_decide_unpack _). by vm_compute. }
  revert Hnd Hg Hkeys. generalize (map_of_list (SiemEvent_fields e)). intros m Hnd Hg Hkeys.
  rewrite (proj2 (try_for_each_Ok _ _)).
  2: { eapply Forall_impl; [exact Hkeys|]. intros k Hin. unfold str_in. by rewrite bool_decide_eq_true_2. }
  cbn [mbind result_bind].
  rewrite (u32_member_get m Hnd "schema_version" _ (Hg "schema_version"%string) Hv).
  rewrite (string_member_get m Hnd "event_id" _ (Hg "event_id"%string)).
  rewrite (string_member_get m Hnd "event_type" _ (Hg "event_type"%string)).
  rewrite (string_member_get m Hnd "result" _ (Hg "result"%string)).
  rewrite (string_member_get m Hnd "request_id" _ (Hg "request_id"%string)).
  rewrite (opt_string_member_get m Hnd "actor_user_id" _ (Hg "actor_user_id"%string)).
  rewrite (opt_string_member_get m Hnd "actor_device_id" _ (Hg "actor_device_id"%string)).
  rewrite (opt_string_member_get m Hnd "target_secret_id" _ (Hg "target_secret_id"%string)).
  rewrite (opt_u32_member_get m Hnd "key_version" _ (Hg "key_version"%string) Hk).
  rewrite (string_member_get m Hnd "source_event_at" _ (Hg "source_event_at"%string)).
  rewrite (required_member_get m Hnd "metadata" _ (Hg "metadata"%string)).
  by destruct e.
Qed.

Lemma siem_readable q :
  Forall siem_storable q.*1 →
  readable LocalSiemFallbackRecord_from_members siem_text (λ r p, r = siem_record p) q.
Proof.
  intros Hq. apply Forall_forall. intros p Hp text Ht. exists (siem_record p). split; [|done].
  rewrite Forall_forall in Hq. assert (siem_storable p.1) as He by (by apply Hq, list_elem_of_fmap_2).
  assert (json_exact json_max_depth (JObject (LocalSiemFallbackRecord_fields (siem_record p))) = true) as Hex.
  { change json_max_depth with (S (pred json_max_depth)). apply json_exact_object_S.
    pose proof (siem_value_exact _ He) as Hx. split; [by decide_keys|].
    revert Hx. generalize (pred json_max_depth). intros d Hx.
    apply Forall_cons_2; [by destruct d|]. apply Forall_cons_2; [by destruct d|]. by apply Forall_cons_2. }
  destruct (serde_members_round_trip _ Hex) as (text' & Ht' & Hm). unfold siem_text in Ht. rewrite Ht in Ht'.
  injection Ht' as <-. rewrite Hm. destruct p as [e s]. cbn [LocalSiemFallbackRecord_fields siem_record
    sr_event_id sr_status sr_event List.map fst snd]. rewrite (normalize_representable _ (siem_value_representable _ He)).
  by destruct s.
Qed.

Lemma siem_pending_states records (q : @queue SiemEvent) :
  Forall siem_storable q.*1 → Forall2 (λ r p, r = siem_record p) records q →
  try_map (λ r, SiemEvent_from_value (sr_event r) !? LocalSiemBufferError_Serialization)
    (filter (λ r, sr_status r = DeliveryStatus_Pending) (siem_states records).*2)
  = Ok (pending_list sv_event_id q).
Proof.
  intros Hwf Hrq. unfold pending_list, queue_states, siem_states.
  assert (Forall2 (λ a b, a.1 = b.1 ∧ siem_storable b.2.1 ∧ a.2 = siem_record b.2)
    (map_of_list ((λ r, (sr_event_id r, r)) <$> records))
    (map_of_list ((λ p, (sv_event_id p.1, p)) <$> q))) as Hst.
  { apply (map_of_list_Forall2 (λ r p, siem_storable p.1 ∧ r = siem_record p)).
    induction Hrq as [|r p records q -> _ IH]; [constructor|].
    rewrite fmap_cons in Hwf. apply Forall_cons in Hwf as [Hp Hwf]. rewrite !fmap_cons.
    constructor; [|by apply IH]. by cbn. }
  revert Hst. generalize (map_of_list ((λ r, (sr_event_id r, r)) <$> records)).
  generalize (map_of_list ((λ p : SiemEvent * DeliveryStatus, (sv_event_id p.1, p)) <$> q)).
  intros m2 m1 Hst. induction Hst as [|[k r] [k' [x s]] l1 l2 (_ & Hx & Hr) _ IH]; [reflexivity|].
  cbn [fst snd] in *. subst r. rewrite fmap_cons filter_cons.
  cbn [sr_status siem_record snd fst omap list_omap]. unfold pending_of_state at 1. cbn [snd fst].
  destruct (decide (s = DeliveryStatus_Pending)) as [->|Hne].
  - cbn [try_map sr_event siem_record fst]. by rewrite siem_event_round_trip // IH.
  - rewrite IH. by rewrite bool_decide_eq_false_2.
Qed.

Lemma siem_text_serialized text p : siem_text text p → ∃ v, serde_to_string v = Ok text.
Proof. intros Ht. by eexists. Qed.

Lemma siem_queue_holds_same path q w w' :
  same_files w w' → siem_queue_holds path q w → siem_queue_holds path q w'.
Proof. intros Hs (Hq & Hc). split; [done|]. by eapply file_holds_same. Qed.

Lemma siem_pending_refines buffer q w r w' :
  siem_queue_holds (sb_path buffer) q w → siem_pending_events buffer w = (r, w') →
  siem_queue_holds (sb_path buffer) q w'
  ∧ match r with
    | Ok events => events = pending_list sv_event_id q
    | Err e => e = LocalSiemBufferError_LockPoisoned ∨ ∃ e', e = LocalSiemBufferError_Io e'
    end.
Proof.
  intros Hq. unfold siem_pending_events, locked.
  destruct (lock_poisoned w); [intros [= <- <-]; by auto|].
  destruct (fs_exists (sb_path buffer) w) eqn:He; cbn [negb].
  - intros Hr. unfold mbind, io_bind in Hr.
    destruct (read_records _ _ _ (sb_path buffer) w) as [rec w1] eqn:Hrec. pose proof Hq as [Hst Hc].
    apply (read_records_holds _ _ _ _ _ siem_text_serialized _ _ _ _ _ (siem_readable q Hst) Hc) in Hrec as [Hs Hrec].
    pose proof (siem_queue_holds_same _ _ _ _ Hs Hq) as Hq1.
    destruct rec as [records|e]; [|injection Hr as <- <-; by auto].
    rewrite (siem_pending_states _ _ Hst Hrec) in Hr. by injection Hr as <- <-.
  - intros [= <- <-]. split; [done|]. apply fs_exists_false in He.
    destruct Hq as (_ & [[_ ->]|(texts & Ht & _)]); [done|congruence].
Qed.

Lemma siem_append_Ok buffer p q w w' :
  siem_storable p.1 → siem_queue_holds (sb_path buffer) q w →
  siem_append_record buffer (siem_record p) w = (Ok tt, w') →
  siem_queue_holds (sb_path buffer) (q ++ [p]) w'.
Proof.
  intros Hp (Hst & Hc). unfold siem_append_record, locked, siem_open_append_private.
  destruct (lock_poisoned w); [done|]. intros Ha. inv_run.
  split.
  { rewrite fmap_app. apply Forall_app_2; [done|]. apply Forall_cons_2; [done|]. by apply Forall_nil_2. }
  eapply file_holds_append; [|by unfold siem_text|by eapply appended_line].
  eapply file_holds_same; [|exact Hc].
  match goal with H : context [path_parent] |- _ => revert H end.
  unfold mret, io_ret. destruct (path_parent _) as [parent|]; [|by intros [= <-]].
  destruct (is_empty parent); [by intros [= <-]|]. intros H. by eapply fs_create_dir_quiet.
Qed.
End buffer_lemmas.

(** ** Outages

    What a call of the forwarder shows of the SIEM. *)

Section outages.
Context {P : Platform} {F : FileSystem} {SM : SerdeMembers} {K : SiemSink}.
Context (buffer : LocalSiemFallbackBuffer).

(** A forward with the time of its failure, or a resend with one answer for each event
    that was pending: whether it was delivered and marked as sent. *)
Inductive Observation := Obs_Forward (failed_at : option DateTime) | Obs_Resend (answers : list bool).

Fixpoint siem_answers (pending : list SiemEvent) (w : World) : list bool * World :=
  match pending with
  | [] => ([], w)
  | event :: pending =>
      let '(answer, w1) :=
        match siem_send_event event w with
        | (Ok _, w1) => let '(marked, w2) := siem_mark_sent buffer event w1 in (is_ok marked, w2)
        | (Err _, w1) => (false, w1)
        end in
      let '(answers, w2) := siem_answers pending w1 in (answer :: answers, w2)
  end.
Definition resend_answers (w : World) : list bool :=
  match siem_pending_events buffer w with (Ok pending, w1) => (siem_answers pending w1).1 | (Err _, _) => [] end.
Definition forward_failed_at (event : SiemEvent) (w : World) : option DateTime :=
  match siem_send_event event w with (Ok _, _) => None | (Err _, w1) => Some (clock_now_utc w1).1 end.

(** A run of the process: forwards, resends, and steps of other parts that leave
    the forwarder's status alone. *)
Inductive siem_run : list Observation → Shared * World → Shared * World → Prop :=
| run_done s : siem_run [] s s
| run_forward event s outcome s1 obs s' :
    forward buffer event s = (outcome, s1) → siem_run obs s1 s' →
    siem_run (Obs_Forward (forward_failed_at event s.2) :: obs) s s'
| run_resend s summary s1 obs s' :
    siem_resend_pending buffer s = (summary, s1) → siem_run obs s1 s' →
    siem_run (Obs_Resend (resend_answers s.2) :: obs) s s'
| run_other s s1 obs s' :
    sh_siem_status s1.1 = sh_siem_status s.1 → siem_run obs s1 s' → siem_run obs s s'.

(** The SIEM works: an event was delivered directly, or events were pending and all of
    them were delivered. *)
Definition succeeded (o : Observation) : Prop :=
  match o with
  | Obs_Forward failed_at => failed_at = None
  | Obs_Resend answers => answers ≠ [] ∧ Forall (eq true) answers
  end.
#[global] Instance succeeded_dec o : Decision (succeeded o).
Proof. destruct o; apply _. Defined.
Definition is_resend (o : Observation) : Prop := ∃ answers, o = Obs_Resend answers.

Definition observe (since : option DateTime) (o : Observation) : option DateTime :=
  if decide (succeeded o) then None else
  match o with Obs_Forward (Some t) => Some (default t since) | _ => since end.

(** The first forward that failed after the last success failed at [t]; between that
    success and [t] there are only resends that did not succeed. *)
Definition outage_began (obs : list Observation) (t : DateTime) : Prop :=
  ∃ before quiet during, obs = before ++ quiet ++ Obs_Forward (Some t) :: during
    ∧ (before = [] ∨ ∃ o, last before = Some o ∧ succeeded o)
    ∧ Forall (λ o, is_resend o ∧ ¬ succeeded o) quiet ∧ Forall (λ o, ¬ succeeded o) during.

Lemma observe_success since o : succeeded o → observe since o = None.
Proof. intros Hs. unfold observe. by case_decide. Qed.
Lemma observe_failure since o :
  ¬ succeeded o → observe since o = match o with Obs_Forward (Some t) => Some (default t since) | _ => since end.
Proof. intros Hs. unfold observe. by case_decide. Qed.

Lemma forward_status event s outcome s' :
  forward buffer event s = (outcome, s') →
  sh_readiness s'.1 = sh_readiness s.1
  ∧ si_failure_since (sh_siem_status s'.1) =
    match outcome with
    | SiemForwardOutcome_SentDirect => None
    | _ => Some (default (clock_now_utc (siem_send_event event s.2).2).1 (si_failure_since (sh_siem_status s.1)))
    end.
Proof.
  destruct s as [sh w]. unfold forward, attempted, mbind, act_bind, in_world. cbn [fst snd].
  destruct (siem_send_event event w) as [[u|error] w1]; cbn [fst snd].
  - intros [= <- <-]. done.
  - unfold handle_send_failure, attempted, mbind, act_bind, in_world, now_utc, record_failure, with_siem_status.
    cbn [fst snd]. destruct (clock_now_utc w1) as [t w2]. cbn [fst snd sh_siem_status].
    destruct (siem_append_pending buffer event w2) as [[u|e] w3]; intros [= <- <-];
      cbn [fst snd sh_readiness sh_siem_status]; (split; [done|]);
      destruct (sh_siem_status sh) as [[since|] code]; done.
Qed.

Lemma forward_since event s outcome s' :
  forward buffer event s = (outcome, s') →
  si_failure_since (sh_siem_status s'.1)
  = observe (si_failure_since (sh_siem_status s.1)) (Obs_Forward (forward_failed_at event s.2)).
Proof.
  intros Hf. pose proof (forward_status _ _ _ _ Hf) as [_ ->].
  unfold forward, attempted, mbind, act_bind, in_world in Hf. unfold forward_failed_at.
  destruct (siem_send_event event s.2) as [[[]|error] w1]; [by injection Hf as <- <-; rewrite observe_success|].
  rewrite observe_failure; [|done]. cbn [snd].
  unfold handle_send_failure, attempted, mbind, act_bind in Hf. destruct (now_utc (s.1, w1)) as [now s1].
  destruct (record_failure now s1) as [u s2]. destruct (in_world _ s2) as [[[]|e] s3]; by injection Hf as <- <-.
Qed.

(** The counts of a resend are those of its answers. *)
Lemma siem_resend_loop_answers pending sent failed sh w :
  siem_resend_loop buffer pending sent failed (sh, w)
  = ((sent + Z.of_nat (length (filter (eq true) (siem_answers pending w).1)),
      failed + Z.of_nat (length (filter (eq false) (siem_answers pending w).1))),
     (sh, (siem_answers pending w).2)).
Proof.
  revert sent failed w. induction pending as [|event pending IH]; intros sent failed w.
  { cbn. unfold mret, act_ret. by rewrite !Z.add_0_r. }
  cbn [siem_resend_loop siem_answers]. unfold attempted, mbind at 1, act_bind at 1, in_world at 1. cbn [fst snd].
  destruct (siem_send_event event w) as [[u|e] w1].
  1: unfold mbind at 1, act_bind at 1, in_world; cbn [fst snd]; destruct (siem_mark_sent buffer event w1) as [[u'|e] w2].
  all: rewrite IH; destruct (siem_answers pending _) as [answers w3]; cbn [is_ok fst snd].
  all: rewrite !filter_cons; repeat case_decide; try done; cbn [length].
  all: apply f_equal2; [apply f_equal2; lia|done].
Qed.
Lemma siem_answers_length pending w : length (siem_answers pending w).1 = length pending.
Proof.
  revert w. induction pending as [|event pending IH]; intros w; [done|]. cbn [siem_answers].
  destruct (match siem_send_event event w with (Ok _, _) => _ | (Err _, _) => _ end) as [answer w1].
  specialize (IH w1). destruct (siem_answers pending w1). cbn in *. by rewrite IH.
Qed.
Lemma no_failed_answer answers : length (filter (eq false) answers) = 0%nat ↔ Forall (eq true) answers.
Proof.
  induction answers as [|[] answers IH]; [by split| |].
  - rewrite filter_cons_False // Forall_cons IH. naive_solver.
  - rewrite filter_cons_True // Forall_cons. cbn. naive_solver.
Qed.

Lemma resend_since s summary s' :
  siem_resend_pending buffer s = (summary, s') →
  si_failure_since (sh_siem_status s'.1)
  = observe (si_failure_since (sh_siem_status s.1)) (Obs_Resend (resend_answers s.2)).
Proof.
  destruct s as [sh w]. unfold siem_resend_pending, attempted, mbind at 1, act_bind at 1, in_world,
    resend_answers. cbn [fst snd].
  destruct (siem_pending_events buffer w) as [[pending|e] w1]; last first.
  { intros [= <- <-]. rewrite observe_failure; [done|]. by intros [? _]. }
  unfold mbind at 1, act_bind at 1. rewrite siem_resend_loop_answers. cbn [fst snd].
  set (answers := (siem_answers pending w1).1).
  assert ((0 + Z.of_nat (length (filter (eq false) answers)) =? 0) && (0 <? Z.of_nat (length pending)) = true
    ↔ succeeded (Obs_Resend answers)) as Hc.
  { rewrite andb_true_iff Z.eqb_eq Z.ltb_lt -(siem_answers_length pending w1). fold answers.
    cbn [succeeded]. rewrite -no_failed_answer. destruct answers; cbn [length]; split; intros [? ?]; split; try done; lia. }
  destruct (decide (succeeded (Obs_Resend answers))) as [Hs|Hs].
  - rewrite (proj2 Hc Hs) observe_success //. unfold mbind, act_bind. by intros [= <- <-].
  - rewrite observe_failure //. destruct (_ && _); [by exfalso; apply Hs, Hc|]. unfold mbind, act_bind. by intros [= <- <-].
Qed.

Lemma siem_run_since obs s s' :
  siem_run obs s s' →
  si_failure_since (sh_siem_status s'.1) = fold_left observe obs (si_failure_since (sh_siem_status s.1)).
Proof.
  induction 1 as [s|event s outcome s1 obs s' Hf _ IH|s summary s1 obs s' Hr _ IH|s s1 obs s' Hs _ IH].
  - done.
  - by rewrite IH (forward_since _ _ _ _ Hf).
  - by rewrite IH (resend_since _ _ _ Hr).
  - by rewrite IH Hs.
Qed.

Lemma observe_quiet since o : is_resend o → ¬ succeeded o → observe since o = since.
Proof. intros [answers ->] Hs. by rewrite observe_failure. Qed.

Lemma observe_None obs :
  fold_left observe obs None = None ↔
  ∃ before quiet, obs = before ++ quiet ∧ (before = [] ∨ ∃ o, last before = Some o ∧ succeeded o)
    ∧ Forall (λ o, is_resend o ∧ ¬ succeeded o) quiet.
Proof.
  induction obs as [|o obs IH] using rev_ind.
  { split; [|done]. intros _. exists [], []. by auto. }
  rewrite fold_left_app. cbn [fold_left]. split.
  - destruct (decide (succeeded o)) as [Hs|Hs].
    + intros _. exists (obs ++ [o]), []. rewrite app_nil_r last_snoc. by eauto 6.
    + destruct o as [[t|]|answers]; [by rewrite observe_failure|done|].
      rewrite observe_quiet //; [|by eexists].
      intros (before & quiet & -> & Hb & Hq)%IH. exists before, (quiet ++ [Obs_Resend answers]).
      rewrite -app_assoc. split_and!; [done|done|]. apply Forall_app. split; [done|].
      repeat constructor; [by eexists|done].
  - intros (before & quiet & Heq & Hb & Hq). destruct quiet as [|o' quiet _] using rev_ind.
    + rewrite app_nil_r in Heq. subst before. rewrite last_snoc in Hb.
      destruct Hb as [Hb|(? & [= <-] & Hs)]; [by destruct obs|]. by apply observe_success.
    + rewrite app_assoc in Heq. apply app_inj_tail in Heq as [-> ->].
      apply Forall_app in Hq as [Hq Ho]. apply Forall_cons in Ho as [[Hr Hs] _].
      rewrite observe_quiet //. apply IH. eauto.
Qed.

Lemma observe_Some obs t : fold_left observe obs None = Some t ↔ outage_began obs t.
Proof.
  revert t. induction obs as [|o obs IH] using rev_ind; intros t.
  { split; [done|]. intros (before & quiet & during & Heq & _). by destruct before, quiet. }
  rewrite fold_left_app. cbn [fold_left]. split.
  - intros H. assert (¬ succeeded o) as Hs by (intros Hs; by rewrite observe_success in H).
    assert (∀ t0, fold_left observe obs None = Some t0 → outage_began (obs ++ [o]) t0) as Hkeep.
    { intros t0 (b & qu & d & -> & Hb & Hq & Hd)%IH. exists b, qu, (d ++ [o]). rewrite -!app_assoc.
      split_and!; [done|done|done|]. apply Forall_app. by auto. }
    rewrite observe_failure // in H. destruct o as [[t'|]|answers]; [|done|by apply Hkeep].
    destruct (fold_left observe obs None) as [t0|] eqn:Hf; injection H as <-; [by apply Hkeep|].
    apply observe_None in Hf as (b & qu & -> & Hb & Hq). exists b, qu, []. rewrite -app_assoc. by split_and!.
  - intros (b & qu & d & Heq & Hb & Hq & Hd). destruct d as [|o' d _] using rev_ind.
    + rewrite app_assoc in Heq. apply app_inj_tail in Heq as [-> ->].
      assert (fold_left observe (b ++ qu) None = None) as -> by (apply observe_None; eauto).
      by rewrite observe_failure.
    + rewrite app_comm_cons !app_assoc in Heq. apply app_inj_tail in Heq as [-> ->].
      apply Forall_app in Hd as [Hd Ho]. apply Forall_cons in Ho as [Ho _].
      assert (fold_left observe ((b ++ qu) ++ Obs_Forward (Some t) :: d) None = Some t) as ->.
      { apply IH. exists b, qu, d. rewrite -app_assoc. by split_and!. }
      rewrite observe_failure //. by destruct o' as [[]|].
Qed.
End outages.

(** ** What leaves for the SIEM *)

Section siem_keys.
Context {P : Platform}.

Lemma metadata_keys_allowed m k :
  AuditMetadata_wf m → key_occurs k (AuditMetadata_as_value m) → is_forbidden_metadata_key k = false.
Proof.
  intros [Hr (_ & object & Hm & Hrej & _)%AuditMetadata_new_Ok] Hk; [|done]. rewrite Hm in Hk.
  pose proof (reject_keys_spec is_forbidden_metadata_key AuditEventError_ForbiddenMetadataKey (JObject object)) as Hspec.
  change (reject_keys _ _) with reject_forbidden_metadata_keys in Hspec. rewrite Hrej in Hspec. by apply Hspec.
Qed.

Lemma payload_keys_allowed p k :
  LedgerPayload_wf p → key_occurs k (LedgerPayload_as_value p) → is_forbidden_payload_key k = false.
Proof.
  intros [_ Hnew] Hk. unfold LedgerPayload_new, LedgerPayload_as_value in *. inv_ok.
  pose proof (reject_keys_spec is_forbidden_payload_key LedgerError_ForbiddenPayloadKey (JObject (payload_object p))) as Hspec.
  change (reject_keys _ _) with reject_forbidden_payload_keys in Hspec.
  select (as_object _ = _) (fun H => injection H as <-).
  select (reject_forbidden_payload_keys _ = _) (fun H => rewrite H in Hspec). by apply Hspec.
Qed.

(** The keys of an object built from a list, one level at a time. *)
Lemma object_key_occurs (bad : str → bool) (l : Map) k :
  NoDup l.*1 → Forall (λ p, bad p.1 = false ∧ ∀ k', key_occurs k' p.2 → bad k' = false) l →
  key_occurs k (JObject (map_of_list l)) → bad k = false.
Proof.
  rewrite Forall_forall. intros Hnd Hl Hk. inversion Hk as [? v Hin|? k' v Hin Hv|]; subst;
    rewrite elem_map_of_list // in Hin; apply Hl in Hin as [H1 H2]; [done|by apply H2].
Qed.

Lemma scalar_key_occurs k v : is_scalar v = true → ¬ key_occurs k v.
Proof. destruct v; intros ? H; inversion H; done. Qed.
End siem_keys.

(** A literal key with a scalar value. *)
Ltac plain_field :=
  split; [vm_compute; reflexivity|];
  intros ? Hocc; exfalso; revert Hocc; apply scalar_key_occurs; cbn [snd];
  first [reflexivity|match goal with |- is_scalar (_ ?o) = true => by destruct o end].

(** ** Properties *)

Section siem_theorems.
Context {P : Platform} {F : FileSystem} {SM : SerdeMembers} {K : SiemSink}.

(** C38. The forwarder knows the outage it is in.  After any run of the process that starts
    with no failure noted, [failure_since] is the time of the first forward that failed
    after the last success; a success is a direct delivery, or a resend in which events
    were pending and every one was delivered and marked.  A long failure is reported
    exactly when the time since then has reached the threshold, also when it is equal to
    it.  A resend that fails, wholly or in part, neither starts nor ends an outage: a
    process that only resends never notes one, whatever the answers. *)
Theorem siem_outage_tracked {I : Instants P} buffer obs s s' now threshold :
  siem_run buffer obs s s' → si_failure_since (sh_siem_status s.1) = None →
  (∀ t, si_failure_since (sh_siem_status s'.1) = Some t ↔ outage_began obs t)
  ∧ (is_long_failure (sh_siem_status s'.1) now threshold = true ↔
      ∃ t limit, outage_began obs t ∧ time_duration_try_from threshold = Some limit
        ∧ limit ≤ dt_nanos now - dt_nanos t)
  ∧ (Forall is_resend obs → si_failure_since (sh_siem_status s'.1) = None).
Proof.
  intros Hrun%siem_run_since Hnone. rewrite Hnone in Hrun.
  assert (∀ t, si_failure_since (sh_siem_status s'.1) = Some t ↔ outage_began obs t) as Ht.
  { intros t. rewrite Hrun. apply observe_Some. }
  split_and!; [done|..].
  - setoid_rewrite <- Ht. unfold is_long_failure.
    destruct (si_failure_since (sh_siem_status s'.1)) as [t|]; [|naive_solver].
    destruct (time_duration_try_from threshold) as [limit|]; [|naive_solver].
    rewrite Z.leb_le. naive_solver.
  - intros Hall. destruct (si_failure_since (sh_siem_status s'.1)) as [t|]; [|done].
    destruct (proj1 (Ht t) eq_refl) as (b & qu & d & -> & _).
    rewrite !Forall_app Forall_cons in Hall. by destruct Hall as (_ & _ & [answers [=]] & _).
Qed.

(** A forwarded event is delivered, or it waits in the buffer, or the caller is
    told that it is lost; in the last two cases the outage is noted with a code
    of the forwarder's own vocabulary, and nothing else of the shared state
    changes. *)
Theorem siem_event_kept {LF : FileLaws F} {LT : SerdeTextLaws P} {LS : SerdeMembersLaws SM} buffer q event s outcome s' :
  (∀ e, leaves_files (siem_send_event e)) → siem_storable event →
  siem_queue_holds (sb_path buffer) q s.2 → forward buffer event s = (outcome, s') →
  sh_readiness s'.1 = sh_readiness s.1
  ∧ match outcome with
    | SiemForwardOutcome_SentDirect =>
        (∃ w1, siem_send_event event s.2 = (Ok tt, w1))
        ∧ siem_queue_holds (sb_path buffer) q s'.2 ∧ si_failure_since (sh_siem_status s'.1) = None
    | SiemForwardOutcome_Buffered code =>
        siem_queue_holds (sb_path buffer) (q ++ [(event, DeliveryStatus_Pending)]) s'.2
        ∧ pending_in sv_event_id (q ++ [(event, DeliveryStatus_Pending)]) event
        ∧ is_Some (si_failure_since (sh_siem_status s'.1)) ∧ starts_with code "siem_" = true
    | SiemForwardOutcome_BufferingFailed code =>
        is_Some (si_failure_since (sh_siem_status s'.1)) ∧ starts_with code "siem_" = true
    end.
Proof.
  intros Hremote Hev Hq Hf. destruct (forward_status _ _ _ _ _ Hf) as [Hr Hs]. split; [done|].
  assert (∀ error, starts_with (sink_error_code error) "siem_" = true) as Hcode.
  { intros [code|reason]; [|done]. unfold sink_error_code. by destruct (starts_with code "siem_") eqn:E. }
  destruct s as [sh w]. unfold forward, attempted, mbind, act_bind, in_world in Hf. cbn [fst snd] in *.
  destruct (siem_send_event event w) as [[[]|error] w1] eqn:Hsend; cbn [fst snd] in *.
  - injection Hf as <- <-. split; [by eexists|]. split; [|done].
    eapply siem_queue_holds_same; [|exact Hq]. by eapply Hremote.
  - unfold handle_send_failure, attempted, mbind, act_bind, in_world, now_utc, record_failure, with_siem_status in Hf.
    cbn [fst snd] in Hf. pose proof (clock_quiet w1) as Hc. destruct (clock_now_utc w1) as [t w2]. cbn [fst snd] in *.
    destruct (siem_append_pending buffer event w2) as [[[]|e] w3] eqn:Happ; injection Hf as <- <-.
    + assert (siem_queue_holds (sb_path buffer) q w2) as Hq2.
      { eapply siem_queue_holds_same; [exact Hc|]. eapply siem_queue_holds_same; [|exact Hq]. by eapply Hremote. }
      apply (siem_append_Ok _ (event, DeliveryStatus_Pending) q) in Happ; [|done..].
      split_and!; [done|apply pending_in_snoc; by left|by rewrite Hs|done].
    + split; [by rewrite Hs|done].
Qed.

(** No key that may name a secret leaves for the SIEM: neither the copy of an
    accepted audit event nor that of a ledger entry has a forbidden key at any
    depth, and their own keys are the eleven of the schema. *)
Theorem siem_events_carry_no_secret_keys event entry :
  AuditMetadata_wf (ev_metadata_json (event_parts event)) → LedgerPayload_wf (cf_payload (se_fields entry)) →
  (∀ k, key_occurs k (SiemEvent_to_value (SiemEvent_from_audit_event event)) → is_forbidden_metadata_key k = false)
  ∧ (∀ k, key_occurs k (SiemEvent_to_value (SiemEvent_from_signed_ledger_entry entry)) →
       is_forbidden_payload_key k = false)
  ∧ (∀ e k v, map_get k (map_of_list (SiemEvent_fields e)) = Some v → k ∈ SIEM_EVENT_TOP_LEVEL_KEYS).
Proof.
  intros Hm Hp. split_and!.
  - intros k. apply object_key_occurs; [apply siem_fields_NoDup|]. unfold SiemEvent_fields.
    repeat (apply Forall_cons_2); [plain_field..| |by apply Forall_nil_2].
    split; [by vm_compute|]. intros k'. by apply metadata_keys_allowed.
  - intros k. apply object_key_occurs; [apply siem_fields_NoDup|]. unfold SiemEvent_fields.
    repeat (apply Forall_cons_2); [plain_field..| |by apply Forall_nil_2].
    split; [by vm_compute|]. intros k'. apply object_key_occurs; [apply (bool_decide_unpack _); by vm_compute|].
    unfold ledger_siem_metadata.
    repeat (apply Forall_cons_2); [plain_field..| |plain_field|plain_field|plain_field|plain_field|plain_field|plain_field|by apply Forall_nil_2].
    split; [by vm_compute|]. intros k''. by apply payload_keys_allowed.
  - intros e k v. rewrite map_get_of_list; [|apply siem_fields_NoDup]. intros Hin%map_get_elem.
    apply (list_elem_of_fmap_2 fst) in Hin. revert Hin. cbn [fst]. generalize k. apply Forall_forall.
    apply (bool_decide_unpack _). by vm_compute.
Qed.
End siem_theorems.
