(* ===== verification/AuditReporter.v ===== *)
(** * Reporting to the audit log ([src/server/audit_reporter/])

    Use cases report what they did: a failure goes to the audit recorder with its
    fallback, a success that has to be in the ledger goes to the database together
    with a signed entry.  Log lines are left out. *)

From S2P Require Import Prelude RustStd Json Platform Reference Errors Types Aad Crypto Authorization SecretStore Alias AuditTypes LedgerTypes LedgerPayload LedgerEntry LedgerChain LedgerRpc LedgerAppender ApiError WriteLedger Files AuditEvent AuditBuilders KeyRotation AuditFallback App Siem.

(** ** The state of the server ([src/server/state.rs])

    The fields the use cases read; the clients of the database and of the SIEM
    are the interfaces of their components. *)
Section app_state.
Context {P : Platform}.
Record AppState := mk_AppState {
  st_master_key_ring : MasterKeyRing;
  st_alias_encryption_key : AliasEncryptionKey;
  st_alias_encryption_key_version : KeyVersion;
  st_alias_fingerprint_key : AliasFingerprintKey;
  st_alias_fingerprint_key_version : KeyVersion;
  st_ledger_appender : LedgerAppender;
  st_audit_fallback_store : LocalAuditFallbackStore;
  st_siem_buffer : LocalSiemFallbackBuffer;
}.
End app_state.

Section reporter.
Context {P : Platform} {F : FileSystem} {SM : SerdeMembers}.
Context {K : SiemSink} {A : AuditEventAppender} {Svc : LedgerService} {Rot : KeyRotationService}.

Definition state_forward_audit_event (state : AppState) (event : AuditEvent) : act SiemForwardOutcome :=
  forward_audit_event (st_audit_fallback_store state) (st_siem_buffer state) event.
Definition state_forward_ledger_entry (state : AppState) (entry : SignedLedgerEntry) : act SiemForwardOutcome :=
  forward_ledger_entry (st_audit_fallback_store state) (st_siem_buffer state) entry.

(** ** Failures ([failure.rs], [failure_context.rs]) *)

Definition write_failure_audit_metadata_for_prepared_secret (prepared : PreparedSecretVersion) :
    AuditMetadata :=
  let built := match prep_write_action prepared with
    | EncryptCreate => EncryptCreateMetadata_build
        (EncryptCreateMetadata_new (prep_version prepared) (prep_secret_version_id prepared))
    | EncryptRotate => EncryptRotateMetadata_build
        (EncryptRotateMetadata_new (prep_version prepared) (prep_secret_version_id prepared))
    end in
  match built with Ok metadata => metadata | Err _ => AuditMetadata_empty end.

(** The outcome of the recorder, with the copy for the SIEM. *)
Definition record_and_forward (state : AppState) (event : AuditEvent) :
    proc AuditRecordError AuditRecordOutcome :=
  outcome ← in_world (record (st_audit_fallback_store state) event);
  _ ← infallible (state_forward_audit_event state event);
  mret outcome.

Definition record_failure_audit_with_metadata (state : AppState) (request_id : RequestId)
    (actor_user_id : option OwnerUserId) (target_secret_id : option SecretId) (action : AuditAction)
    (metadata_json : AuditMetadata) : proc AuditRecordError AuditRecordOutcome :=
  io_match (in_world (build_with_current_source_event_at request_id actor_user_id None action
    target_secret_id AuditResult_Failure None metadata_json)) (λ built,
    match built with
    | Err error =>
        _ ← infallible mark_failure_audit_both_failed;
        lift (Err (AuditRecordError_EventConstructionFailed error))
    | Ok event =>
        io_match (record_and_forward state event) (λ recorded,
          match recorded with
          | Err (AuditRecordError_PrimaryAndFallbackFailed _ _ as error) =>
              _ ← infallible mark_failure_audit_both_failed;
              lift (Err error)
          | _ => lift recorded
          end)
    end).

Record FailureAuditContext := mk_FailureAuditContext {
  fc_request_id : RequestId;
  fc_actor_user_id : option OwnerUserId;
  fc_target_secret_id : option SecretId;
  fc_action : AuditAction;
}.

Definition failure_record_with_metadata (state : AppState) (failure : FailureAuditContext)
    (metadata_json : AuditMetadata) : proc AuditRecordError AuditRecordOutcome :=
  record_failure_audit_with_metadata state (fc_request_id failure) (fc_actor_user_id failure)
    (fc_target_secret_id failure) (fc_action failure) metadata_json.
(** [record] and, the log line apart, [log_and_record]. *)
Definition failure_record (state : AppState) (failure : FailureAuditContext) :
    proc AuditRecordError AuditRecordOutcome :=
  record_failure_audit_with_metadata state (fc_request_id failure) (fc_actor_user_id failure)
    (fc_target_secret_id failure) (fc_action failure) AuditMetadata_empty.

(** [if let Err(audit_err) = failure.record().await { log }]. *)
Definition report {E} (recording : proc AuditRecordError AuditRecordOutcome) : proc E unit :=
  io_match recording (λ _, mret tt).

(** ** A successful decryption ([decrypt_success.rs]) *)

Definition build_success_decrypt_audit_event (request_id : RequestId) (actor_user_id : OwnerUserId)
    (target_secret_id : SecretId) (key_version : KeyVersion) : io World AuditEventError AuditEvent :=
  build_with_current_source_event_at request_id (Some actor_user_id) None AuditAction_Decrypt
    (Some target_secret_id) AuditResult_Success (Some key_version) AuditMetadata_empty.

Definition event_source_event_at (event : AuditEvent) : result LedgerError SourceEventAt :=
  AuditEvent_source_event_at event !? (λ _, LedgerError_InvalidUuid "source_event_at").

Definition build_success_decrypt_ledger_draft (event : AuditEvent)
    (target_secret_version_id : SecretVersionId) (version : SecretVersion) (key_version : KeyVersion) :
    io World LedgerError LedgerAppendDraft :=
  let entry_type := LedgerEntryType_SecretDecrypted in
  let e := event_parts event in
  payload ← lift (LedgerPayload_new entry_type (JObject (map_of_list
    [("algorithm", JString ALGORITHM_XCHACHA20_POLY1305);
     ("key_version", json_uint (KeyVersion_get key_version));
     ("version", json_uint (SecretVersion_get version))]%string)));
  target_secret_version_id ← lift (LedgerTargetSecretVersionId_from_secret_version_id
    target_secret_version_id);
  ledger_entry_id ← LedgerEntryId_generate;
  source_event_at ← lift (event_source_event_at event);
  lift (LedgerAppendDraft_new (mk_LedgerAppendDraft ledger_entry_id entry_type source_event_at
    (ev_request_id e) (Some (ev_audit_event_id e)) (ev_target_secret_id e)
    (Some target_secret_version_id) (ev_actor_user_id e) (ev_actor_device_id e)
    LedgerResult_Success None payload)).

(** ** Events that are in the ledger too ([ledger.rs]) *)

Definition append_with_ledger {E} (state : AppState) (event : AuditEvent) (ledger_draft : LedgerAppendDraft)
    (failed : E) : proc E AuditRecordOutcome :=
  signed_entries ← in_world (sign_entries (st_ledger_appender state) [ledger_draft]) !?? (λ _, failed);
  signed_entry ← lift (ok_or (head signed_entries) failed);
  _ ← in_world (call_append_audit_event_with_ledger event signed_entry) !?? (λ _, failed);
  _ ← infallible (state_forward_audit_event state event);
  _ ← infallible (state_forward_ledger_entry state signed_entry);
  mret AuditRecordOutcome_PrimarySucceeded.

Definition record_success_audit (state : AppState) (request_id : RequestId) (actor_user_id : OwnerUserId)
    (target_secret_id : SecretId) (target_secret_version_id : SecretVersionId) (version : SecretVersion)
    (key_version : KeyVersion) : proc ApiError AuditRecordOutcome :=
  event ← in_world (build_success_decrypt_audit_event request_id actor_user_id target_secret_id key_version)
    !?? (λ _, ApiError_AuditRecordFailed);
  ledger_draft ← in_world (build_success_decrypt_ledger_draft event target_secret_version_id version key_version)
    !?? (λ _, ApiError_AuditRecordFailed);
  append_with_ledger state event ledger_draft ApiError_LedgerAppendFailed.

Definition record_audit_with_ledger (state : AppState) (event : AuditEvent)
    (ledger_draft : LedgerAppendDraft) : proc AuditRecordError AuditRecordOutcome :=
  append_with_ledger state event ledger_draft AuditRecordError_LedgerAppendFailed.

Definition ledger_result_from_audit (res : AuditResult) : result LedgerError LedgerResult :=
  LedgerResult_parse (AuditResult_as_str res).

(** [value.get(key)]: of an object only. *)
Definition value_get (value : Value) (key : str) : option Value :=
  object ← as_object value; map_get key object.
Definition metadata_u64 (value : Value) (key : str) : Z := default 0 (v ← value_get value key; as_u64 v).
Definition metadata_str (value : Value) (key : str) : option str := v ← value_get value key; as_str v.

Definition ledger_error_code_from_metadata (event : AuditEvent) (default_code : str) : option str :=
  if bool_decide (ev_result (event_parts event) = AuditResult_Success) then None
  else Some (default default_code
    (metadata_str (AuditMetadata_as_value (ev_metadata_json (event_parts event))) "error_code")).

Definition restore_test_trigger (metadata : Value) : result LedgerError str :=
  ok_or (metadata_str metadata "trigger")
    (LedgerError_InvalidPayloadField "trigger" "one of background, cli, startup").

Definition build_restore_test_ledger_draft (event : AuditEvent) : io World LedgerError LedgerAppendDraft :=
  let entry_type := LedgerEntryType_RestoreTestCompleted in
  let e := event_parts event in
  let metadata := AuditMetadata_as_value (ev_metadata_json e) in
  let sample_count := metadata_u64 metadata "sample_count" in
  let duration_ms := metadata_u64 metadata "duration_ms" in
  trigger ← lift (restore_test_trigger metadata);
  let '(success_count, failure_count) := match ev_result e with
    | AuditResult_Success => (sample_count, 0)
    | AuditResult_Failure => (0, Z.max (metadata_u64 metadata "failure_count") 1)
    end in
  payload ← lift (LedgerPayload_new entry_type (JObject (map_of_list
    [("duration_ms", json_uint duration_ms); ("failure_count", json_uint failure_count);
     ("sample_count", json_uint sample_count); ("success_count", json_uint success_count);
     ("trigger", JString trigger)]%string)));
  ledger_entry_id ← LedgerEntryId_generate;
  source_event_at ← lift (event_source_event_at event);
  result_ ← lift (ledger_result_from_audit (ev_result e));
  lift (LedgerAppendDraft_new (mk_LedgerAppendDraft ledger_entry_id entry_type source_event_at
    (ev_request_id e) (Some (ev_audit_event_id e)) (ev_target_secret_id e) None (ev_actor_user_id e)
    (ev_actor_device_id e) result_ (ledger_error_code_from_metadata event "restore_test_failed") payload)).

Definition build_integrity_check_ledger_draft (event : AuditEvent) : io World LedgerError LedgerAppendDraft :=
  let entry_type := LedgerEntryType_IntegrityCheckCompleted in
  let e := event_parts event in
  let metadata := AuditMetadata_as_value (ev_metadata_json e) in
  payload ← lift (LedgerPayload_new entry_type (JObject (map_of_list
    ((λ key, (key, json_uint (metadata_u64 metadata key))) <$>
      ["checked_audit_event_count"; "checked_secret_count"; "checked_secret_version_count";
       "duration_ms"; "violation_count"]%string))));
  ledger_entry_id ← LedgerEntryId_generate;
  source_event_at ← lift (event_source_event_at event);
  result_ ← lift (ledger_result_from_audit (ev_result e));
  lift (LedgerAppendDraft_new (mk_LedgerAppendDraft ledger_entry_id entry_type source_event_at
    (ev_request_id e) (Some (ev_audit_event_id e)) None None None None
    result_ (ledger_error_code_from_metadata event "integrity_check_failed") payload)).

(** ** The two periodic checks ([restore_test.rs], [integrity_check.rs]) *)

Record RestoreTestAudit := mk_RestoreTestAudit {
  rta_result : AuditResult;
  rta_target_secret_id : option SecretId;
  rta_key_version : option KeyVersion;
  rta_metadata : AuditMetadata;
}.

(** A success goes to the ledger, a failure to the recorder only. *)
Definition record_restore_test_audit (state : AppState) (request_id : RequestId) (audit : RestoreTestAudit) :
    proc AuditRecordError AuditRecordOutcome :=
  event ← in_world (build_with_current_source_event_at request_id None None AuditAction_RestoreTest
      (rta_target_secret_id audit) (rta_result audit) (rta_key_version audit) (rta_metadata audit))
    !?? AuditRecordError_EventConstructionFailed;
  if bool_decide (ev_result (event_parts event) = AuditResult_Success) then
    ledger_draft ← in_world (build_restore_test_ledger_draft event)
      !?? (λ _, AuditRecordError_LedgerAppendFailed);
    record_audit_with_ledger state event ledger_draft
  else record_and_forward state event.

Record IntegrityCheckAudit := mk_IntegrityCheckAudit {
  ia_result : AuditResult;
  ia_metadata : AuditMetadata;
  ia_error_code : option str;
}.

(** Everything but a failed call goes to the ledger. *)
Definition record_integrity_check_audit (state : AppState) (request_id : RequestId)
    (audit : IntegrityCheckAudit) : proc AuditRecordError AuditRecordOutcome :=
  event ← in_world (build_with_current_source_event_at request_id None None AuditAction_IntegrityCheck
      None (ia_result audit) None (ia_metadata audit))
    !?? AuditRecordError_EventConstructionFailed;
  if negb (bool_decide (ia_error_code audit = Some "rpc_failed"%string)) then
    ledger_draft ← in_world (build_integrity_check_ledger_draft event)
      !?? (λ _, AuditRecordError_LedgerAppendFailed);
    record_audit_with_ledger state event ledger_draft
  else record_and_forward state event.
End reporter.

(** ** Lemmas *)

Section reporter_lemmas.
Context {P : Platform} {F : FileSystem} {SM : SerdeMembers}.
Context {K : SiemSink} {A : AuditEventAppender} {Svc : LedgerService} {Rot : KeyRotationService}.

(** An event that was built carries what it was built from. *)
Lemma built_event_parts rid actor device action target res kv m w e w' :
  build_with_current_source_event_at rid actor device action target res kv m w = (Ok e, w') →
  ∃ id m', event_parts e = mk_AuditEventParts id rid actor device action target res kv m'.
Proof.
  unfold build_with_current_source_event_at. intros H. inv_run.
  match goal with H : AuditEvent_new _ = _ |- _ => apply AuditEvent_new_Ok in H as [-> _] end.
  by do 2 eexists.
Qed.

(** What was appended when the database was asked to record event and entry. *)
Lemma append_with_ledger_Ok {E} {LE : Ed25519Laws P} state event draft (failed : E) s outcome s' :
  append_with_ledger state event draft failed s = (Ok outcome, s') →
  outcome = AuditRecordOutcome_PrimarySucceeded
  ∧ ∃ entry n h appended w1 w2,
      se_fields entry = entry_fields draft n h (sk_key_version (signing_key (st_ledger_appender state)))
      ∧ call_append_audit_event_with_ledger event entry w1 = (Ok appended, w2).
Proof.
  unfold append_with_ledger. intros H. inv_proc. split; [done|].
  match goal with H : sign_entries _ _ _ = _, He : head _ = Some ?e |- _ =>
    destruct (sign_entry_fields _ _ _ _ _ _ H He) as (n & h & Hf); exists e, n, h end.
  by do 3 eexists.
Qed.

Lemma decrypt_draft_Ok {LU : UuidLaws P} event svid v kv w d w' :
  build_success_decrypt_ledger_draft event svid v kv w = (Ok d, w') →
  ad_entry_type d = LedgerEntryType_SecretDecrypted
  ∧ ad_source_event_id d = Some (ev_audit_event_id (event_parts event))
  ∧ ad_target_secret_id d = ev_target_secret_id (event_parts event)
  ∧ ad_actor_user_id d = ev_actor_user_id (event_parts event)
  ∧ ad_target_secret_version_id d = Some (mk_LedgerTargetSecretVersionId (SecretVersionId_0 svid))
  ∧ ad_result d = LedgerResult_Success.
Proof.
  unfold build_success_decrypt_ledger_draft. intros H. inv_run.
  match goal with H : LedgerAppendDraft_new _ = _ |- _ => apply LedgerAppendDraft_new_Ok in H as [-> _] end.
  match goal with H : LedgerTargetSecretVersionId_from_secret_version_id _ = _ |- _ =>
    rewrite LedgerTarget_from_version in H; injection H as <- end.
  by split_and!.
Qed.

(** The metadata of a failure that carries nothing of its own. *)
Definition time_only (t : SourceEventAt) : AuditMetadata :=
  mk_AuditMetadata (JObject [(SOURCE_EVENT_AT_KEY, JString (SourceEventAt_as_str t))]).

Lemma with_current_empty {LT : TimeLaws P} w :
  AuditMetadata_with_current_source_event_at AuditMetadata_empty w =
  match SourceEventAt_now_utc w with
  | (Ok t, w') => (Ok (time_only t), w')
  | (Err _, w') => (Err AuditEventError_SourceEventAtUnavailable, w')
  end.
Proof.
  unfold AuditMetadata_with_current_source_event_at, mbind, io_bind, lift, io_map_err. cbn [AuditMetadata_source_event_at
    AuditMetadata_empty AuditMetadata_as_value as_object ok_or mbind result_bind map_get].
  destruct (SourceEventAt_now_utc w) as [[t|e] w'] eqn:Hn; [|done]. cbn [map_err].
  apply SourceEventAt_now_parse in Hn.
  unfold AuditMetadata_with_source_event_at, with_field. cbn [AuditMetadata_empty AuditMetadata_as_value as_object ok_or mbind result_bind map_insert].
  f_equal. apply AuditMetadata_new_Ok; [done|]. split; [done|]. eexists. split; [done|]. split; [done|]. split; [done|].
  intros v [= <-]. by exists t.
Qed.

Definition failure_actions : list AuditAction :=
  [AuditAction_Decrypt; AuditAction_SecretAliasCreate; AuditAction_SecretAliasUpdate;
   AuditAction_SecretAliasDelete; AuditAction_SecretAliasList].

Lemma time_only_source_event_at t :
  SourceEventAt_parse (SourceEventAt_as_str t) = Ok t → require_source_event_at (time_only t) = Ok t.
Proof.
  intros Ht. unfold require_source_event_at, AuditMetadata_source_event_at.
  cbn [time_only AuditMetadata_as_value as_object ok_or mbind result_bind].
  assert (map_get SOURCE_EVENT_AT_KEY [(SOURCE_EVENT_AT_KEY, JString (SourceEventAt_as_str t))]
    = Some (JString (SourceEventAt_as_str t))) as -> by done.
  cbn [as_str ok_or mbind result_bind]. by rewrite Ht.
Qed.

(** The time is all that these actions need to say of a failure, ... *)
Lemma time_only_event id rid actor target action t :
  SourceEventAt_parse (SourceEventAt_as_str t) = Ok t → action ∈ failure_actions →
  let parts := mk_AuditEventParts id rid actor None action target AuditResult_Failure None (time_only t) in
  AuditEvent_new parts = Ok (mk_AuditEvent parts).
Proof.
  intros Ht Ha parts. apply AuditEvent_new_Ok. split; [done|]. unfold parts, validate_event_parts.
  cbn [ev_result ev_action ev_metadata_json]. rewrite time_only_source_event_at //.
  unfold failure_actions in Ha.
  repeat (apply elem_of_cons in Ha as [->|Ha]; [reflexivity|]). by apply not_elem_of_nil in Ha.
Qed.

(** ... and a failed write has to name the version it was for. *)
Lemma time_only_write_event id rid actor target action t :
  SourceEventAt_parse (SourceEventAt_as_str t) = Ok t →
  action ∈ [AuditAction_EncryptCreate; AuditAction_EncryptRotate] →
  AuditEvent_new (mk_AuditEventParts id rid actor None action target AuditResult_Failure None (time_only t))
  = Err (AuditEventError_MissingMetadataKey "version").
Proof.
  intros Ht Ha. unfold AuditEvent_new, validate_event_parts.
  cbn [ev_result ev_action ev_metadata_json]. rewrite time_only_source_event_at //.
  repeat (apply elem_of_cons in Ha as [->|Ha]; [reflexivity|]). by apply not_elem_of_nil in Ha.
Qed.

Lemma build_failure_event {LT : TimeLaws P} rid actor target action w :
  build_with_current_source_event_at rid actor None action target AuditResult_Failure None AuditMetadata_empty w =
  match SourceEventAt_now_utc w with
  | (Err _, w1) => (Err AuditEventError_SourceEventAtUnavailable, w1)
  | (Ok t, w1) =>
      match AuditEventId_generate w1 with
      | (Err e, w2) => (Err e, w2)
      | (Ok id, w2) =>
          (AuditEvent_new (mk_AuditEventParts id rid actor None action target AuditResult_Failure None (time_only t)), w2)
      end
  end.
Proof.
  unfold build_with_current_source_event_at, mbind, io_bind. rewrite with_current_empty.
  destruct (SourceEventAt_now_utc w) as [[t|e] w1]; [|done]. unfold lift.
  by destruct (AuditEventId_generate w1) as [[id|e] w2].
Qed.
End reporter_lemmas.

(** ** Properties *)

Section reporter_theorems.
Context {P : Platform} {F : FileSystem} {SM : SerdeMembers}.
Context {K : SiemSink} {A : AuditEventAppender} {Svc : LedgerService} {Rot : KeyRotationService}.

(** The only effects of building an event in vain: the clock is read and, if it
    answers, an identifier is drawn; [e] is why there is no event. *)
Definition event_drawn (w : World) (e : AuditEventError) (w' : World) : Prop :=
  (e = AuditEventError_SourceEventAtUnavailable ∧ ∃ e', SourceEventAt_now_utc w = (Err e', w'))
  ∨ ∃ t w1, SourceEventAt_now_utc w = (Ok t, w1)
    ∧ (AuditEventId_generate w1 = (Err e, w')
       ∨ ∃ id, AuditEventId_generate w1 = (Ok id, w') ∧ e = AuditEventError_MissingMetadataKey "version").

(** A failed creation or rotation that is reported without the version it was for
    never reaches the audit log: the event cannot be built, so neither the
    database nor the fallback file is asked, and all that is left is the mark in
    the readiness record. *)
Theorem write_failure_without_version_unaudited {LT : TimeLaws P} state failure s r s' :
  fc_action failure ∈ [AuditAction_EncryptCreate; AuditAction_EncryptRotate] →
  failure_record state failure s = (r, s') →
  ∃ e w, r = Err (AuditRecordError_EventConstructionFailed e) ∧ event_drawn s.2 e w
    ∧ s'.2 = (clock_now_utc w).2
    ∧ ri_failure_audit_both_failed_last_at (sh_readiness s'.1) = Some (clock_now_utc w).1
    ∧ sh_siem_status s'.1 = sh_siem_status s.1.
Proof.
  intros Ha. unfold failure_record, record_failure_audit_with_metadata.
  intros (built & s1 & Hb & Hm)%io_match_run. unfold in_world in Hb. rewrite build_failure_event in Hb.
  assert (∃ e w, built = Err e ∧ s1 = (s.1, w) ∧ event_drawn s.2 e w) as (e & w & -> & -> & Hd).
  { unfold event_drawn. destruct (SourceEventAt_now_utc s.2) as [[t|e] w1] eqn:Ht; [|cbn [fst snd] in Hb; simplify_eq; eauto 10].
    pose proof Ht as Hp%SourceEventAt_now_parse.
    destruct (AuditEventId_generate w1) as [[id|e] w2] eqn:Hid; [|cbn [fst snd] in Hb; simplify_eq; eauto 10].
    rewrite time_only_write_event // in Hb. simplify_eq. eauto 15. }
  exists e, w. rewrite mark_then_fail mark_failure_run in Hm. by injection Hm as <- <-.
Qed.

(** The other failures are reported or marked: the event is built whenever the
    clock and the random source answer, and it is recorded by the database or in
    the fallback file, or refused by the database as a conflicting duplicate, or
    the readiness record is marked. *)
Theorem failure_recorded_or_marked {LT : TimeLaws P} state failure s r s' t w1 id w2 :
  fc_action failure ∈ failure_actions →
  SourceEventAt_now_utc s.2 = (Ok t, w1) → AuditEventId_generate w1 = (Ok id, w2) →
  failure_record state failure s = (r, s') →
  ∃ event w3,
    event_parts event = mk_AuditEventParts id (fc_request_id failure) (fc_actor_user_id failure) None
      (fc_action failure) (fc_target_secret_id failure) AuditResult_Failure None (time_only t)
    ∧ record (st_audit_fallback_store state) event w2 = (r, w3)
    ∧ (∀ e1 e2, r = Err (AuditRecordError_PrimaryAndFallbackFailed e1 e2) →
        ri_failure_audit_both_failed_last_at (sh_readiness s'.1) = Some (clock_now_utc w3).1).
Proof.
  intros Ha Ht Hid. pose proof Ht as Hp%SourceEventAt_now_parse. unfold failure_record, record_failure_audit_with_metadata.
  intros (built & s1 & Hb & Hm)%io_match_run. unfold in_world in Hb. rewrite build_failure_event Ht Hid time_only_event // in Hb.
  injection Hb as <- <-. eexists (mk_AuditEvent _). apply io_match_run in Hm as (recorded & s2 & Hr & Hm).
  unfold record_and_forward, mbind at 1, io_bind at 1, in_world in Hr. cbn [fst snd] in Hr.
  destruct (record _ _ w2) as [[outcome|e] w3] eqn:Hrec; exists w3; (split; [reflexivity|]).
  - unfold mbind, io_bind, infallible in Hr. destruct (state_forward_audit_event state _ (s.1, w3)) as [o s3].
    injection Hr as <- <-. injection Hm as <- <-. by split.
  - injection Hr as <- <-. destruct e as [| |a b| | |];
      try (injection Hm as <- <-; split; [exact Hrec|by intros ?? [= ]]).
    rewrite mark_then_fail mark_failure_run in Hm. injection Hm as <- <-. split; [exact Hrec|by intros].
Qed.
End reporter_theorems.
