(* ===== verification/UseCases.v ===== *)
(** * Creating, rotating and decrypting secrets
    ([src/server/use_cases/{decrypt_secret,write_secret_version/*}.rs])

    The handlers behind the API: they resolve and read rows, check who asks,
    run the cryptography, write to the database and report to the audit log.  A
    failure is reported before it is returned, and the outcome of that report
    does not change the answer. *)

From S2P Require Import Prelude RustStd Json Platform Reference Errors Types Aad Crypto Authorization SecretStore Alias AuditTypes LedgerTypes LedgerPayload LedgerEntry LedgerChain LedgerRpc LedgerAppender ApiError WriteLedger ReadModel Files AuditEvent AuditBuilders KeyRotation AuditFallback App Siem AuditReporter.

Section use_cases.
Context {P : Platform} {F : FileSystem} {SM : SerdeMembers}.
Context {K : SiemSink} {A : AuditEventAppender}.
Context {Svc : LedgerService} {Rot : KeyRotationService} {Sec : SecretService}.

(** [spawn_blocking(..).await]: a panic is a join error, whose text is
    [join_error]. *)
Definition blocking {E B} (join_error : str) (from : E → ApiError) (m : pio World E B) :
    proc ApiError B := λ s,
  match m s.2 with
  | Some (r, w) => (r !? from, (s.1, w))
  | None => (Err (ApiError_InternalError join_error), s)
  end.

(** [match m { Ok(value) => value, Err(error) => { record; return Err(error.into()) } }]. *)
Definition or_report {E B} (state : AppState) (failure : FailureAuditContext) (into : E → ApiError)
    (m : proc E B) : proc ApiError B :=
  io_match m (λ outcome,
    match outcome with
    | Ok value => mret value
    | Err error =>
        _ ← report (failure_record state failure);
        lift (Err (into error))
    end).

Definition resolve_or_report (state : AppState) (request_id : RequestId) (actor_user_id : OwnerUserId)
    (action : AuditAction) (secret_ref : SecretRef) : proc ApiError SecretId :=
  or_report state (mk_FailureAuditContext request_id (Some actor_user_id) None action)
    ApiError_from_ResolveSecretRefError
    (in_world (resolve_secret_ref (st_alias_fingerprint_key state) (st_alias_encryption_key state)
      secret_ref actor_user_id)).

(** ** Decrypting ([decrypt_secret.rs]) *)

Record DecryptSecretOutput := mk_DecryptSecretOutput {
  do_secret_id : SecretId;
  do_version : SecretVersion;
  do_plaintext : Plaintext;
}.

Definition decrypt_prepared_input (state : AppState) (input : DecryptCurrentSecretVersionInput) :
    proc ApiError Plaintext :=
  lift (decrypt_current_secret_version_with_keyring (st_master_key_ring state) input
    !? ApiError_from_SecretDecryptError).

Definition decrypt_secret (state : AppState) (request_id : RequestId) (requested_secret_ref : SecretRef)
    (raw_jwt : RawJwt) (claims : VerifiedJwtClaims) : proc ApiError DecryptSecretOutput :=
  let actor_user_id := claims_subject_user_id claims in
  requested_secret_id ←
    resolve_or_report state request_id actor_user_id AuditAction_Decrypt requested_secret_ref;
  let failure := mk_FailureAuditContext request_id (Some actor_user_id) (Some requested_secret_id)
    AuditAction_Decrypt in
  row ← or_report state failure ApiError_from_FetchCurrentSecretVersionError
    (in_world (fetch_current_secret_version requested_secret_id raw_jwt));
  plaintext ← or_report state failure id
    (decrypt_prepared_input state (into_decrypt_input row claims));
  _ ← record_success_audit state request_id actor_user_id (pd_secret_id row) (pd_secret_version_id row)
    (pd_version row) (pd_key_version row);
  mret (mk_DecryptSecretOutput (pd_secret_id row) (pd_version row) plaintext).

(** ** Writing ([write_secret_version/]) *)

Record CreateSecretCommand := mk_CreateSecretCommand {
  cc_classification : Classification;
  cc_device_id : DeviceId;
  cc_plaintext : Plaintext;
  cc_created_at : CreatedAt;
}.
Record RotateSecretCommand := mk_RotateSecretCommand {
  rc_requested_secret_ref : SecretRef;
  rc_device_id : DeviceId;
  rc_plaintext : Plaintext;
  rc_created_at : CreatedAt;
}.

Record WriteSecretVersionOutput := mk_WriteSecretVersionOutput {
  wu_secret_id : SecretId;
  wu_version : SecretVersion;
  wu_secret_version_id : SecretVersionId;
}.

Definition prepare_new_secret_version_for_request (join_error : str) (state : AppState)
    (owner_user_id : OwnerUserId) (command : CreateSecretCommand) : proc ApiError PreparedSecretVersion :=
  let key_version := ring_active_key_version (st_master_key_ring state) in
  blocking join_error ApiError_from_SecretWriteError
    (prepare_new_secret_version_with_keyring (st_master_key_ring state)
      (mk_NewSecretVersionInput owner_user_id (cc_classification command) (cc_device_id command)
        (cc_created_at command) key_version (cc_plaintext command))).

Definition prepare_existing_secret_version_for_request (join_error : str) (state : AppState)
    (current : PreparedDecryptRow) (command : RotateSecretCommand) : proc ApiError PreparedSecretVersion :=
  blocking join_error ApiError_from_SecretWriteError
    (prepare_existing_secret_version_with_keyring (st_master_key_ring state)
      (mk_ExistingSecretVersionInput (into_current_secret_version_state current) (rc_device_id command)
        (rc_created_at command) (rc_plaintext command))).

Definition submit_prepared_secret_version (state : AppState) (request_id : RequestId)
    (failure : FailureAuditContext) (prepared : PreparedSecretVersion)
    (retention_snapshot : option (list RetentionVersionSnapshot)) : proc ApiError WriteSecretVersionOutput :=
  rpc_params ← or_report state failure id
    (in_world (build_rpc_params (st_ledger_appender state) request_id prepared retention_snapshot));
  io_match (in_world (call_write_secret_version rpc_params)) (λ written,
    match written with
    | Ok response =>
        mret (mk_WriteSecretVersionOutput (wo_secret_id response) (wo_version response)
          (wo_secret_version_id response))
    | Err rpc_error =>
        _ ← report (failure_record_with_metadata state failure
          (write_failure_audit_metadata_for_prepared_secret prepared));
        lift (Err (ApiError_from_SupabaseRpcError rpc_error))
    end).

Definition create_secret (join_error : str) (state : AppState) (request_id : RequestId)
    (claims : VerifiedJwtClaims) (command : CreateSecretCommand) : proc ApiError WriteSecretVersionOutput :=
  let owner_user_id := claims_subject_user_id claims in
  let failure := mk_FailureAuditContext request_id (Some owner_user_id) None AuditAction_EncryptCreate in
  _ ← or_report state failure (λ _, ApiError_Forbidden "forbidden")
    (lift (authorize_new_secret_create claims));
  prepared ← or_report state failure id
    (prepare_new_secret_version_for_request join_error state owner_user_id command);
  submit_prepared_secret_version state request_id failure prepared None.

Definition rotate_secret (join_error : str) (state : AppState) (request_id : RequestId) (raw_jwt : RawJwt)
    (claims : VerifiedJwtClaims) (command : RotateSecretCommand) : proc ApiError WriteSecretVersionOutput :=
  let actor_user_id := claims_subject_user_id claims in
  requested_secret_id ← resolve_or_report state request_id actor_user_id AuditAction_EncryptRotate
    (rc_requested_secret_ref command);
  let failure := mk_FailureAuditContext request_id (Some actor_user_id) (Some requested_secret_id)
    AuditAction_EncryptRotate in
  current ← or_report state failure ApiError_from_FetchCurrentSecretVersionError
    (in_world (fetch_current_secret_version requested_secret_id raw_jwt));
  _ ← or_report state failure (λ _, ApiError_Forbidden "forbidden")
    (lift (authorize_existing_secret_version_write claims (pd_owner_user_id current)));
  retention_snapshot ← or_report state failure ApiError_from_SupabaseRpcError
    (in_world (fetch_secret_version_retention_snapshot requested_secret_id));
  prepared ← or_report state failure id
    (prepare_existing_secret_version_for_request join_error state current command);
  submit_prepared_secret_version state request_id failure prepared (Some retention_snapshot).
End use_cases.

(** ** Lemmas *)

Section use_case_lemmas.
Context {P : Platform} {F : FileSystem} {SM : SerdeMembers}.
Context {K : SiemSink} {A : AuditEventAppender}.
Context {Svc : LedgerService} {Rot : KeyRotationService} {Sec : SecretService}.

Lemma or_report_Ok {E B} state failure (into : E → ApiError) (m : proc E B) s b s' :
  or_report state failure into m s = (Ok b, s') ↔ m s = (Ok b, s').
Proof.
  unfold or_report. rewrite io_match_run. split; [|by intros ->; eauto].
  intros ([b'|e] & s1 & Hm & H); [by injection H as -> ->|].
  unfold mbind, io_bind in H. destruct (report _ s1) as [[[]|e'] s2]; discriminate H.
Qed.

(** A step that failed was reported in its context before its error was returned. *)
Lemma or_report_Err {E B} state failure (into : E → ApiError) (m : proc E B) s e s' :
  or_report state failure into m s = (Err e, s') ↔
  ∃ e0 s1 reported, m s = (Err e0, s1) ∧ e = into e0 ∧ failure_record state failure s1 = (reported, s').
Proof.
  unfold or_report. rewrite io_match_run. split.
  - intros ([b'|e0] & s1 & Hm & H); [done|]. unfold mbind, io_bind, report, io_match in H.
    destruct (failure_record state failure s1) as [reported s2] eqn:Hr. injection H as <- <-. naive_solver.
  - intros (e0 & s1 & reported & Hm & -> & Hr). eexists _, _. split; [exact Hm|].
    unfold mbind, io_bind, report, io_match. by rewrite Hr.
Qed.

Lemma blocking_Ok {E B} join_error (from : E → ApiError) (m : pio World E B) s b s' :
  blocking join_error from m s = (Ok b, s') ↔ m s.2 = Some (Ok b, s'.2) ∧ s'.1 = s.1.
Proof.
  unfold blocking. destruct s' as [sh' w']. cbn. destruct (m s.2) as [[[b'|e] w]|]; cbn; naive_solver.
Qed.
End use_case_lemmas.

(** The steps of a handler that succeeded, reported failures included. *)
Ltac inv_handler :=
  repeat first
    [ progress inv_proc
    | match goal with
      | H : or_report _ _ _ _ _ = (Ok _, _) |- _ => apply or_report_Ok in H
      | H : blocking _ _ _ _ = (Ok _, _) |- _ => apply blocking_Ok in H
      end ].

Section use_case_runs.
Context {P : Platform} {F : FileSystem} {SM : SerdeMembers}.
Context {K : SiemSink} {A : AuditEventAppender}.
Context {Svc : LedgerService} {Rot : KeyRotationService} {Sec : SecretService}.

(** What is read can be rotated. *)
Lemma fetched_row_wf {LT : TimeLaws P} secret_id jwt w read w' :
  fetch_current_secret_version secret_id jwt w = (Ok read, w') →
  SecretId_wf (pd_secret_id read) ∧ SecretVersion_wf (pd_version read) ∧ Classification_wf (pd_classification read).
Proof.
  unfold fetch_current_secret_version. intros H. inv_ok.
  match goal with H : parse_decrypt_row _ = _ |- _ => apply parse_decrypt_row_Ok in H end. tauto.
Qed.

Lemma rotated_action {LR : RandomLaws P} ring input w p w' :
  prepare_existing_secret_version_with_keyring ring input w = Some (Ok p, w') → prep_write_action p = EncryptRotate.
Proof.
  unfold prepare_existing_secret_version_with_keyring. intros H. inv_ok.
  match goal with H : prepare_secret_version_with_data_key _ _ _ _ _ = _ |- _ =>
    by apply prepare_with_data_key_Ok in H as (_ & _ & _ & _ & ? & _) end.
Qed.

Lemma submit_Ok state rid failure p snapshot s out s' :
  submit_prepared_secret_version state rid failure p snapshot s = (Ok out, s') →
  ∃ params w response, build_rpc_params (st_ledger_appender state) rid p snapshot s.2 = (Ok params, w)
    ∧ call_write_secret_version params w = (Ok response, s'.2)
    ∧ out = mk_WriteSecretVersionOutput (wo_secret_id response) (wo_version response) (wo_secret_version_id response).
Proof.
  unfold submit_prepared_secret_version. intros H. inv_handler.
  match goal with H : io_match _ _ _ = _ |- _ => apply io_match_run in H as ([response|e] & s9 & Hw & Hk) end.
  - apply in_world_Ok in Hw as [Hw _]. injection Hk as <- ->. by do 3 eexists.
  - unfold mbind, io_bind in Hk. by destruct (report _ s9) as [[[]|] ?].
Qed.
End use_case_runs.

(** ** Properties *)

Section use_case_theorems.
Context {P : Platform} {F : FileSystem} {SM : SerdeMembers}.
Context {K : SiemSink} {A : AuditEventAppender}.
Context {Svc : LedgerService} {Rot : KeyRotationService} {Sec : SecretService}.

(** C4. A plaintext leaves the server only after the database has taken the audit
    event and the signed ledger entry of this very decryption: the row that was
    read is the caller's own, the plaintext is its decryption, and event and entry
    name the caller, the secret, the version and each other. *)
Theorem plaintext_only_after_record {LU : UuidLaws P} {LE : Ed25519Laws P} state rid secret_ref jwt claims s out s' :
  decrypt_secret state rid secret_ref jwt claims s = (Ok out, s') →
  ∃ secret_id row w1 w2 event entry w3 appended w4,
    fetch_current_secret_version secret_id jwt w1 = (Ok row, w2)
    ∧ decrypt_current_secret_version_with_keyring (st_master_key_ring state) (into_decrypt_input row claims)
      = Ok (do_plaintext out)
    ∧ do_secret_id out = pd_secret_id row ∧ do_version out = pd_version row
    ∧ pd_owner_user_id row = claims_subject_user_id claims
    ∧ call_append_audit_event_with_ledger event entry w3 = (Ok appended, w4)
    ∧ ev_action (event_parts event) = AuditAction_Decrypt ∧ ev_result (event_parts event) = AuditResult_Success
    ∧ ev_request_id (event_parts event) = rid
    ∧ ev_actor_user_id (event_parts event) = Some (claims_subject_user_id claims)
    ∧ ev_target_secret_id (event_parts event) = Some (pd_secret_id row)
    ∧ ev_key_version (event_parts event) = Some (pd_key_version row)
    ∧ cf_entry_type (se_fields entry) = LedgerEntryType_SecretDecrypted
    ∧ cf_result (se_fields entry) = LedgerResult_Success
    ∧ cf_source_event_id (se_fields entry) = Some (ev_audit_event_id (event_parts event))
    ∧ cf_actor_user_id (se_fields entry) = Some (claims_subject_user_id claims)
    ∧ cf_target_secret_id (se_fields entry) = Some (pd_secret_id row)
    ∧ cf_target_secret_version_id (se_fields entry)
      = Some (mk_LedgerTargetSecretVersionId (SecretVersionId_0 (pd_secret_version_id row))).
Proof.
  unfold decrypt_secret, resolve_or_report, decrypt_prepared_input, record_success_audit, build_success_decrypt_audit_event.
  intros H. inv_handler.
  match goal with H : append_with_ledger _ _ _ _ _ = _ |- _ =>
    apply append_with_ledger_Ok in H as (_ & entry & n & h & appended & wa & wb & Hf & Happ) end.
  match goal with H : build_success_decrypt_ledger_draft ?e _ _ _ _ = _ |- _ =>
    apply decrypt_draft_Ok in H as (D1 & D2 & D3 & D4 & D5 & D6); rename e into event end.
  match goal with H : build_with_current_source_event_at _ _ _ _ _ _ _ _ _ = _ |- _ =>
    apply built_event_parts in H as (id & m & Hparts) end.
  match goal with H : fetch_current_secret_version ?i _ _ = (Ok ?r, _), D : decrypt_current_secret_version_with_keyring _ _ = _ |- _ =>
    exists i, r; rename H into Hfetch; rename D into Hdec end.
  eexists _, _, event, entry, wa, appended, wb. rewrite Hparts in D2, D3, D4 |- *. rewrite Hf. cbn in *.
  rewrite D1 D2 D3 D4 D5 D6. split_and!; try done.
  unfold decrypt_current_secret_version_with_keyring, validate_decrypt_input in Hdec. inv_ok.
  match goal with H : authorize_current_version_decrypt _ _ _ _ = _ |- _ => apply authorize_decrypt_Ok in H as [Ho _] end.
  by rewrite Ho.
Qed.

(** A decryption that fails is reported in the caller's name before the error is
    returned, unless what failed is the recording of its success. *)
Theorem decrypt_failure_reported state rid secret_ref jwt claims s e s' :
  decrypt_secret state rid secret_ref jwt claims s = (Err e, s') →
  (∃ target s1 reported,
     failure_record state (mk_FailureAuditContext rid (Some (claims_subject_user_id claims)) target
       AuditAction_Decrypt) s1 = (reported, s'))
  ∨ (∃ row s1, record_success_audit state rid (claims_subject_user_id claims) (pd_secret_id row)
       (pd_secret_version_id row) (pd_version row) (pd_key_version row) s1 = (Err e, s')).
Proof.
  unfold decrypt_secret. intros H.
  apply io_bind_Err in H as [H|(secret_id & s1 & _ & H)].
  { apply or_report_Err in H as (e0 & s1 & r & _ & _ & H). eauto. }
  apply io_bind_Err in H as [H|(row & s2 & _ & H)].
  { apply or_report_Err in H as (e0 & s3 & r & _ & _ & H). eauto. }
  apply io_bind_Err in H as [H|(pt & s3 & _ & H)].
  { apply or_report_Err in H as (e0 & s4 & r & _ & _ & H). eauto. }
  apply io_bind_Err in H as [H|(o & s4 & _ & H)]; [eauto|discriminate H].
Qed.

(** C24. A rotation writes the next version of the caller's own secret: what is sent to
    the database was prepared from the current row, one version up, under the
    active key and with the caller's plaintext, and the answer is the database's. *)
Theorem rotate_writes_next_version {LU : UuidLaws P} {LT : TimeLaws P} {LR : RandomLaws P} {LA : AeadLaws P}
    join_error state rid jwt claims command s out s' :
  MasterKeyRing_wf (st_master_key_ring state) → CreatedAt_wf (rc_created_at command) →
  rotate_secret join_error state rid jwt claims command s = (Ok out, s') →
  ∃ secret_id current w1 w2 snapshot p params w3 w4 response,
    fetch_current_secret_version secret_id jwt w1 = (Ok current, w2)
    ∧ pd_owner_user_id current = claims_subject_user_id claims
    ∧ prepared_from (st_master_key_ring state) (claims_subject_user_id claims) (rc_plaintext command) p
    ∧ prep_write_action p = EncryptRotate
    ∧ SecretVersion_get (prep_version p) = SecretVersion_get (pd_version current) + 1
    ∧ prep_secret_id p = pd_secret_id current
    ∧ prep_key_version p = ring_active_key_version (st_master_key_ring state)
    ∧ build_rpc_params (st_ledger_appender state) rid p (Some snapshot) w3 = (Ok params, w4)
    ∧ call_write_secret_version params w4 = (Ok response, s'.2)
    ∧ wu_secret_id out = wo_secret_id response ∧ wu_version out = wo_version response.
Proof.
  intros Hring Hca. unfold rotate_secret, resolve_or_report, prepare_existing_secret_version_for_request. intros H.
  inv_handler.
  match goal with H : fetch_current_secret_version ?i _ _ = (Ok ?r, _) |- _ =>
    exists i, r; rename r into current; pose proof (fetched_row_wf _ _ _ _ _ H) as (H1' & H2' & H3'); rename H into Hfetch end.
  match goal with H : authorize_existing_secret_version_write _ _ = _ |- _ =>
    unfold authorize_existing_secret_version_write in H; case_bool_decide as Ho; cbn [negb] in H; [|discriminate H] end.
  match goal with H : prepare_existing_secret_version_with_keyring _ ?i _ = Some (Ok ?x, _) |- _ =>
    rename x into p; rename H into Hprep; assert (existing_input_wf i) as Hwf by (by split_and!);
    destruct (rotated_version_decrypts _ i _ _ _ claims Hring Hwf Ho Hprep) as (_ & Hv & Hkv & Hsi & _) end.
  match goal with H : submit_prepared_secret_version _ _ _ _ _ _ = _ |- _ =>
    apply submit_Ok in H as (params & wb & response & Hb & Hw & ->) end.
  eexists _, _, _, p, params, _, wb, response. split_and!; try done.
  - rewrite Ho. exact (from_rotate _ _ _ _ _ Hwf Hprep).
  - by eapply rotated_action.
Qed.
End use_case_theorems.
