(* ===== verification/AliasUseCases.v ===== *)
(** * Managing aliases ([src/server/use_cases/secret_alias.rs])

    An alias is created, renamed, removed, listed and resolved on behalf of its
    owner.  The database sees its ciphertext and its fingerprint; whatever it
    returns is decrypted under the associated data of the row before it is shown.
    The remote calls are those of [src/server/supabase/alias_rpc.rs]. *)

From S2P Require Import Prelude RustStd Json Platform Reference Errors Types Aad Crypto Authorization SecretStore Alias AuditTypes LedgerTypes LedgerPayload LedgerEntry LedgerChain LedgerRpc LedgerAppender ApiError WriteLedger ReadModel Files AuditEvent AuditBuilders KeyRotation AuditFallback App Siem AuditReporter UseCases.

(** ** Remote calls ([alias_rpc.rs]) *)

Record CreateSecretAliasParams := mk_CreateSecretAliasParams {
  ca_request_id : str;
  ca_secret_alias_id : str;
  ca_secret_id : str;
  ca_owner_user_id : str;
  ca_alias_ciphertext : str;
  ca_alias_nonce : str;
  ca_alias_key_version : Z;
  ca_alias_fingerprint : str;
  ca_alias_fingerprint_key_version : Z;
  ca_alias_fingerprint_schema_version : Z;
  ca_aad_context : Value;
  ca_created_at : str;
  ca_source_event_at : str;
}.

Record UpdateSecretAliasParams := mk_UpdateSecretAliasParams {
  ua_request_id : str;
  ua_secret_alias_id : str;
  ua_owner_user_id : str;
  ua_alias_ciphertext : str;
  ua_alias_nonce : str;
  ua_alias_key_version : Z;
  ua_new_alias_fingerprint : str;
  ua_alias_fingerprint_key_version : Z;
  ua_alias_fingerprint_schema_version : Z;
  ua_aad_context : Value;
  ua_source_event_at : str;
}.

Record DeleteSecretAliasParams := mk_DeleteSecretAliasParams {
  dl_request_id : str;
  dl_secret_alias_id : str;
  dl_owner_user_id : str;
  dl_source_event_at : str;
}.

Record ListSecretAliasesParams := mk_ListSecretAliasesParams {
  ls_request_id : str;
  ls_owner_user_id : str;
  ls_limit : Z;
  ls_offset : Z;
}.

Record GetSecretAliasForUpdateParams := mk_GetSecretAliasForUpdateParams {
  gu_owner_user_id : str;
  gu_secret_alias_id : str;
}.

(** The answers have one column each: [secret_alias_id], [old_alias_fingerprint],
    [alias_fingerprint] and [secret_id]. *)
Record CreateSecretAliasResponse := mk_CreateSecretAliasResponse { car_secret_alias_id : str }.
Record UpdateSecretAliasResponse := mk_UpdateSecretAliasResponse { uar_old_alias_fingerprint : str }.
Record DeleteSecretAliasResponse := mk_DeleteSecretAliasResponse { dar_alias_fingerprint : str }.
Record GetSecretAliasForUpdateResponse := mk_GetSecretAliasForUpdateResponse { gur_secret_id : str }.

Record SecretAliasListRow := mk_SecretAliasListRow {
  al_id : str;
  al_secret_id : str;
  al_alias_ciphertext : str;
  al_alias_nonce : str;
  al_alias_key_version : Z;
  al_alias_fingerprint : str;
  al_alias_fingerprint_key_version : Z;
  al_alias_fingerprint_schema_version : Z;
  al_aad_context : Value;
  al_created_at : str;
  al_updated_at : str;
}.

Inductive SecretAliasRpcError :=
| SecretAliasRpcError_AliasConflict
| SecretAliasRpcError_InvalidInput
| SecretAliasRpcError_OwnerMismatch
| SecretAliasRpcError_AliasNotFound
| SecretAliasRpcError_SecretNotFound
| SecretAliasRpcError_Failed.

Section alias_calls.
Context {P : Platform}.

(** The rows each call returns, or why it failed. *)
Class AliasService := {
  svc_create_secret_alias :
    CreateSecretAliasParams → io World SupabaseRpcError (list CreateSecretAliasResponse);
  svc_update_secret_alias :
    UpdateSecretAliasParams → io World SupabaseRpcError (list UpdateSecretAliasResponse);
  svc_delete_secret_alias :
    DeleteSecretAliasParams → io World SupabaseRpcError (list DeleteSecretAliasResponse);
  svc_list_secret_aliases : ListSecretAliasesParams → io World SupabaseRpcError (list SecretAliasListRow);
  svc_get_secret_alias_for_update :
    GetSecretAliasForUpdateParams → io World SupabaseRpcError (list GetSecretAliasForUpdateResponse);
}.
Context {As : AliasService}.

Definition rpc_decode_bytea (value : str) : result SupabaseRpcError bytes :=
  hex_value ← ok_or (strip_prefix "\x" value)
    (SupabaseRpcError_InvalidResponse "bytea value is not hex encoded");
  ok_or (hex_decode hex_value) (SupabaseRpcError_InvalidResponse "bytea value is invalid").

Definition parse_alias_fingerprint_bytea (value : str) : result SupabaseRpcError AliasFingerprint :=
  bytes ← rpc_decode_bytea value;
  AliasFingerprint_parse bytes
    !? (λ _, SupabaseRpcError_InvalidResponse "RPC returned invalid alias fingerprint").

Definition call_create_secret_alias (params : CreateSecretAliasParams) :
    io World SupabaseRpcError SecretAliasId :=
  rows ← svc_create_secret_alias params;
  lift (first_row (λ row, SecretAliasId_parse (car_secret_alias_id row)
    !? (λ _, SupabaseRpcError_InvalidResponse "create alias RPC returned invalid secret_alias_id")) rows).

Definition call_update_secret_alias (params : UpdateSecretAliasParams) :
    io World SupabaseRpcError AliasFingerprint :=
  rows ← svc_update_secret_alias params;
  lift (first_row (λ row, parse_alias_fingerprint_bytea (uar_old_alias_fingerprint row)) rows).

Definition call_delete_secret_alias (params : DeleteSecretAliasParams) :
    io World SupabaseRpcError AliasFingerprint :=
  rows ← svc_delete_secret_alias params;
  lift (first_row (λ row, parse_alias_fingerprint_bytea (dar_alias_fingerprint row)) rows).

Definition call_list_secret_aliases (params : ListSecretAliasesParams) :
    io World SupabaseRpcError (list SecretAliasListRow) :=
  svc_list_secret_aliases params.

Definition call_get_secret_alias_for_update (owner_user_id : OwnerUserId) (secret_alias_id : SecretAliasId) :
    io World SupabaseRpcError SecretId :=
  rows ← svc_get_secret_alias_for_update (mk_GetSecretAliasForUpdateParams
    (OwnerUserId_as_canonical_string owner_user_id) (SecretAliasId_as_canonical_string secret_alias_id));
  lift (first_row (λ row, SecretId_parse (gur_secret_id row)
    !? (λ _, SupabaseRpcError_InvalidResponse "get alias update context RPC returned invalid secret_id")) rows).

Definition classify_secret_alias_rpc_error (error : SupabaseRpcError) : SecretAliasRpcError :=
  match error with
  | SupabaseRpcError_NonSuccessStatus _ body =>
      if response_contains_marker body "alias_conflict" then SecretAliasRpcError_AliasConflict
      else if response_contains_marker body "invalid_rpc_input" then SecretAliasRpcError_InvalidInput
      else if response_contains_marker body "owner_mismatch" then SecretAliasRpcError_OwnerMismatch
      else if response_contains_marker body "alias_not_found" then SecretAliasRpcError_AliasNotFound
      else if response_contains_marker body "secret_not_found" then SecretAliasRpcError_SecretNotFound
      else SecretAliasRpcError_Failed
  | _ => SecretAliasRpcError_Failed
  end.

(** ** Parameters and rows ([secret_alias.rs]) *)

Record CreateSecretAliasCommand := mk_CreateSecretAliasCommand {
  cs_secret_id : SecretId;
  cs_alias : NormalizedAlias;
}.
Record CreateSecretAliasOutput := mk_CreateSecretAliasOutput {
  co_secret_alias_id : SecretAliasId;
  co_secret_id : SecretId;
}.
Record UpdateSecretAliasOutput := mk_UpdateSecretAliasOutput { uo_secret_alias_id : SecretAliasId }.
Record SecretAliasListItem := mk_SecretAliasListItem {
  li_secret_alias_id : SecretAliasId;
  li_secret_id : SecretId;
  li_alias : NormalizedAlias;
  li_created_at : str;
  li_updated_at : str;
}.
Record ListSecretAliasesOutput := mk_ListSecretAliasesOutput { lo_aliases : list SecretAliasListItem }.
Record ResolveSecretAliasOutput := mk_ResolveSecretAliasOutput {
  ro_secret_alias_id : SecretAliasId;
  ro_secret_id : SecretId;
}.

Definition api_error_from_alias_rpc (error : SupabaseRpcError) : ApiError :=
  match classify_secret_alias_rpc_error error with
  | SecretAliasRpcError_AliasConflict => ApiError_Conflict "secret alias already exists"
  | SecretAliasRpcError_InvalidInput => ApiError_BadRequest "invalid secret alias"
  | SecretAliasRpcError_OwnerMismatch => ApiError_Forbidden "forbidden"
  | SecretAliasRpcError_AliasNotFound | SecretAliasRpcError_SecretNotFound => ApiError_NotFound "not found"
  | SecretAliasRpcError_Failed => ApiError_from_SupabaseRpcError error
  end.

Definition source_event_at : io World ApiError SourceEventAt :=
  SourceEventAt_now_utc !?? (λ error, ApiError_InternalError (AadError_to_string error)).

Definition build_create_params (request_id : RequestId) (prepared : PreparedAliasCreate) :
    io World ApiError CreateSecretAliasParams :=
  created_at ← lift (CreatedAt_as_rfc3339_utc (pc_created_at prepared)
    !? (λ error, ApiError_InternalError (AadError_to_string error)));
  event_at ← source_event_at;
  mret (mk_CreateSecretAliasParams (RequestId_as_canonical_string request_id)
    (SecretAliasId_as_canonical_string (pc_secret_alias_id prepared))
    (SecretId_as_canonical_string (pc_secret_id prepared))
    (OwnerUserId_as_canonical_string (pc_owner_user_id prepared))
    (WriteLedger.encode_bytea (Ciphertext_as_bytes (pc_ciphertext prepared)))
    (WriteLedger.encode_bytea (Nonce_as_bytes (pc_nonce prepared)))
    (KeyVersion_get (pc_alias_key_version prepared))
    (WriteLedger.encode_bytea (AliasFingerprint_as_bytes (pc_alias_fingerprint prepared)))
    (KeyVersion_get (pc_fingerprint_key_version prepared))
    (AliasFingerprintSchemaVersion_get (pc_fingerprint_schema_version prepared))
    (pc_aad_context prepared) created_at (SourceEventAt_as_str event_at)).

Definition build_update_params (request_id : RequestId) (prepared : PreparedAliasUpdate) :
    io World ApiError UpdateSecretAliasParams :=
  event_at ← source_event_at;
  mret (mk_UpdateSecretAliasParams (RequestId_as_canonical_string request_id)
    (SecretAliasId_as_canonical_string (pu_secret_alias_id prepared))
    (OwnerUserId_as_canonical_string (pu_owner_user_id prepared))
    (WriteLedger.encode_bytea (Ciphertext_as_bytes (pu_ciphertext prepared)))
    (WriteLedger.encode_bytea (Nonce_as_bytes (pu_nonce prepared)))
    (KeyVersion_get (pu_alias_key_version prepared))
    (WriteLedger.encode_bytea (AliasFingerprint_as_bytes (pu_new_alias_fingerprint prepared)))
    (KeyVersion_get (pu_fingerprint_key_version prepared))
    (AliasFingerprintSchemaVersion_get (pu_fingerprint_schema_version prepared))
    (pu_aad_context prepared) (SourceEventAt_as_str event_at)).

Definition alias_decode_bytea (value : str) : result unit bytes :=
  hex_value ← ok_or (strip_prefix "\x" value) tt;
  ok_or (hex_decode hex_value) tt.

Definition parse_alias_fingerprint (value : str) : result ApiError AliasFingerprint :=
  bytes ← alias_decode_bytea value !? (λ _, ApiError_DbIntegrityViolation "secret alias fingerprint is invalid");
  AliasFingerprint_parse bytes !? (λ _, ApiError_DbIntegrityViolation "secret alias fingerprint is invalid").

Definition parse_alias_material (state : AppState) (owner_user_id : OwnerUserId)
    (secret_alias_id secret_id alias_ciphertext alias_nonce : str) (alias_key_version : Z)
    (aad_context : Value) : result ApiError DecryptedAlias :=
  let invalid {E} (message : str) (_ : E) := ApiError_DbIntegrityViolation message in
  ciphertext ← alias_decode_bytea alias_ciphertext !? invalid "secret alias ciphertext is invalid"%string;
  nonce ← alias_decode_bytea alias_nonce !? invalid "secret alias nonce is invalid"%string;
  secret_alias_id ← SecretAliasId_parse secret_alias_id !? invalid "secret alias id is invalid"%string;
  secret_id ← SecretId_parse secret_id !? invalid "secret alias secret_id is invalid"%string;
  alias_key_version ← parse_key_version alias_key_version "secret alias key_version is invalid";
  ciphertext ← Ciphertext_new ciphertext !? invalid "secret alias ciphertext is invalid"%string;
  nonce ← Nonce_parse nonce !? invalid "secret alias nonce is invalid"%string;
  decrypt_alias_row (st_alias_encryption_key state) secret_alias_id secret_id owner_user_id
      alias_key_version ciphertext nonce aad_context
    !? invalid "secret alias encrypted material is invalid"%string.

Definition parse_list_alias_row (state : AppState) (owner_user_id : OwnerUserId) (row : SecretAliasListRow) :
    result ApiError SecretAliasListItem :=
  _ ← parse_alias_fingerprint (al_alias_fingerprint row);
  decrypted ← parse_alias_material state owner_user_id (al_id row) (al_secret_id row)
    (al_alias_ciphertext row) (al_alias_nonce row) (al_alias_key_version row) (al_aad_context row);
  Ok (mk_SecretAliasListItem (da_secret_alias_id decrypted) (da_secret_id decrypted) (da_alias decrypted)
    (al_created_at row) (al_updated_at row)).

Definition parse_resolve_alias_row (state : AppState) (owner_user_id : OwnerUserId)
    (row : SecretAliasResolveRow) : result ApiError DecryptedAlias :=
  parse_alias_material state owner_user_id (ra_id row) (ra_secret_id row)
    (ra_alias_ciphertext row) (ra_alias_nonce row) (ra_alias_key_version row) (ra_aad_context row).
End alias_calls.

Section alias_use_cases.
Context {P : Platform} {F : FileSystem} {SM : SerdeMembers}.
Context {K : SiemSink} {A : AuditEventAppender}.
Context {Svc : LedgerService} {Rot : KeyRotationService} {Sec : SecretService} {As : AliasService}.

Definition CreatedAt_now_utc : act CreatedAt := t ← now_utc; mret (mk_CreatedAt t).

(** ** Use cases

    Failures are reported as in the other use cases. *)

Definition create_secret_alias (state : AppState) (request_id : RequestId) (raw_jwt : RawJwt)
    (claims : VerifiedJwtClaims) (command : CreateSecretAliasCommand) : proc ApiError CreateSecretAliasOutput :=
  let actor_user_id := claims_subject_user_id claims in
  let secret_id := cs_secret_id command in
  let failure := mk_FailureAuditContext request_id (Some actor_user_id) (Some secret_id)
    AuditAction_SecretAliasCreate in
  current ← or_report state failure ApiError_from_FetchCurrentSecretVersionError
    (in_world (fetch_current_secret_version secret_id raw_jwt));
  _ ← or_report state failure id
    (lift (if negb (bool_decide (pd_owner_user_id current = actor_user_id))
           then Err (ApiError_Forbidden "forbidden") else Ok tt));
  prepared ← or_report state failure (λ error, ApiError_InternalError (CryptoError_to_string error))
    (created_at ← infallible CreatedAt_now_utc;
     in_world (prepare_alias_create (st_alias_encryption_key state) (st_alias_encryption_key_version state)
       (st_alias_fingerprint_key state) (st_alias_fingerprint_key_version state) secret_id actor_user_id
       (cs_alias command) created_at));
  params ← or_report state failure id (in_world (build_create_params request_id prepared));
  secret_alias_id ← or_report state failure api_error_from_alias_rpc
    (in_world (call_create_secret_alias params));
  mret (mk_CreateSecretAliasOutput secret_alias_id secret_id).

Definition update_alias (state : AppState) (request_id : RequestId) (claims : VerifiedJwtClaims)
    (secret_alias_id : SecretAliasId) (new_alias : NormalizedAlias) : proc ApiError UpdateSecretAliasOutput :=
  let actor_user_id := claims_subject_user_id claims in
  let failure_without_target := mk_FailureAuditContext request_id (Some actor_user_id) None
    AuditAction_SecretAliasUpdate in
  secret_id ← or_report state failure_without_target api_error_from_alias_rpc
    (in_world (call_get_secret_alias_for_update actor_user_id secret_alias_id));
  let failure := mk_FailureAuditContext request_id (Some actor_user_id) (Some secret_id)
    AuditAction_SecretAliasUpdate in
  prepared ← or_report state failure (λ error, ApiError_InternalError (CryptoError_to_string error))
    (in_world (prepare_alias_update (st_alias_encryption_key state) (st_alias_encryption_key_version state)
       (st_alias_fingerprint_key state) (st_alias_fingerprint_key_version state) secret_alias_id secret_id
       actor_user_id new_alias));
  params ← or_report state failure id (in_world (build_update_params request_id prepared));
  _ ← or_report state failure api_error_from_alias_rpc (in_world (call_update_secret_alias params));
  mret (mk_UpdateSecretAliasOutput (pu_secret_alias_id prepared)).

Definition delete_alias (state : AppState) (request_id : RequestId) (claims : VerifiedJwtClaims)
    (secret_alias_id : SecretAliasId) : proc ApiError unit :=
  let actor_user_id := claims_subject_user_id claims in
  let failure := mk_FailureAuditContext request_id (Some actor_user_id) None AuditAction_SecretAliasDelete in
  event_at ← in_world source_event_at;
  _ ← or_report state failure api_error_from_alias_rpc
    (in_world (call_delete_secret_alias (mk_DeleteSecretAliasParams (RequestId_as_canonical_string request_id)
      (SecretAliasId_as_canonical_string secret_alias_id) (OwnerUserId_as_canonical_string actor_user_id)
      (SourceEventAt_as_str event_at))));
  mret tt.

Definition record_alias_list_success_audit (state : AppState) (request_id : RequestId)
    (actor_user_id : OwnerUserId) (result_count : Z) : proc ApiError AuditRecordOutcome :=
  result_count ← lift (ok_or (u_try_from u64_max result_count)
    (ApiError_InternalError "out of range integral type conversion attempted"));
  event_at ← in_world source_event_at;
  metadata ← lift (SecretAliasListMetadata_build (SecretAliasListMetadata_success result_count event_at)
    !? (λ error, ApiError_InternalError (AuditEventError_to_string error)));
  event ← in_world (build_with_current_source_event_at request_id (Some actor_user_id) None
      AuditAction_SecretAliasList None AuditResult_Success None metadata)
    !?? (λ error, ApiError_InternalError (AuditEventError_to_string error));
  io_match (in_world (record (st_audit_fallback_store state) event)) (λ recorded,
    match recorded with
    | Ok outcome =>
        _ ← infallible (state_forward_audit_event state event);
        mret outcome
    | Err (AuditRecordError_PrimaryAndFallbackFailed _ _)
    | Err (AuditRecordError_EventConstructionFailed _)
    | Err AuditRecordError_IdempotencyConflict =>
        _ ← infallible mark_failure_audit_both_failed;
        lift (Err ApiError_AuditRecordFailed)
    | Err (AuditRecordError_ResendReadFailed _)
    | Err (AuditRecordError_ResendMarkSentFailed _)
    | Err AuditRecordError_LedgerAppendFailed => lift (Err ApiError_AuditRecordFailed)
    end).

Definition list_aliases (state : AppState) (request_id : RequestId) (claims : VerifiedJwtClaims)
    (limit offset : Z) : proc ApiError ListSecretAliasesOutput :=
  let actor_user_id := claims_subject_user_id claims in
  let failure := mk_FailureAuditContext request_id (Some actor_user_id) None AuditAction_SecretAliasList in
  rows ← or_report state failure api_error_from_alias_rpc
    (in_world (call_list_secret_aliases (mk_ListSecretAliasesParams (RequestId_as_canonical_string request_id)
      (OwnerUserId_as_canonical_string actor_user_id) limit offset)));
  aliases ← lift (try_map (parse_list_alias_row state actor_user_id) rows);
  _ ← record_alias_list_success_audit state request_id actor_user_id (Z.of_nat (length aliases));
  mret (mk_ListSecretAliasesOutput aliases).

Definition resolve_alias (state : AppState) (claims : VerifiedJwtClaims) (alias : NormalizedAlias) :
    proc ApiError ResolveSecretAliasOutput :=
  let actor_user_id := claims_subject_user_id claims in
  fingerprint ← lift (compute_lookup_fingerprint (st_alias_fingerprint_key state) actor_user_id alias
    !? (λ error, ApiError_InternalError (CryptoError_to_string error)));
  row ← in_world (call_resolve_secret_alias actor_user_id fingerprint) !?? api_error_from_alias_rpc;
  row ← lift (ok_or row (ApiError_NotFound "secret not found"));
  decrypted ← lift (parse_resolve_alias_row state actor_user_id row);
  lift (if negb (bool_decide (da_alias decrypted = alias))
        then Err (ApiError_DbIntegrityViolation "resolved secret alias plaintext mismatch")
        else Ok (mk_ResolveSecretAliasOutput (da_secret_alias_id decrypted) (da_secret_id decrypted))).
End alias_use_cases.

(** ** Lemmas *)

Section alias_case_lemmas.
Context {P : Platform}.

Lemma alias_decode_encode {LH : HexLaws P} b : alias_decode_bytea (WriteLedger.encode_bytea b) = Ok b.
Proof.
  unfold alias_decode_bytea, WriteLedger.encode_bytea. rewrite strip_prefix_app. cbn [ok_or mbind result_bind].
  by rewrite hex_decode_encode.
Qed.
Lemma alias_decode_row v : alias_decode_bytea v = (row_decode_bytea v !? λ _, tt).
Proof.
  unfold alias_decode_bytea, row_decode_bytea. destruct (strip_prefix "\x" v) as [h|]; [|done].
  cbn [ok_or mbind result_bind]. by destruct (hex_decode h).
Qed.

(** The columns of an alias, as encryption makes them, read back. *)
Lemma alias_material_reads_back {LU : UuidLaws P} {LS : SerdeLaws P} {LR : RandomLaws P} {LA : AeadLaws P}
    {LH : HexLaws P} state owner ai si kv alias w e w' ctx :
  SecretId_wf si → SecretAliasId_wf ai → KeyVersion_wf kv → NormalizedAlias_wf alias →
  encrypt_alias (st_alias_encryption_key state) (AliasAadV1_new ai si owner kv) alias w = (Ok e, w') →
  AliasAadV1_to_stored_context (AliasAadV1_new ai si owner kv) = Ok ctx →
  parse_alias_material state owner (SecretAliasId_as_canonical_string ai) (SecretId_as_canonical_string si)
    (WriteLedger.encode_bytea (Ciphertext_as_bytes (ea_ciphertext e)))
    (WriteLedger.encode_bytea (Nonce_as_bytes (ea_nonce e))) (KeyVersion_get kv) ctx
  = Ok (mk_DecryptedAlias ai si alias).
Proof.
  intros Hsi Hai Hkv Ha He Hctx. pose proof (decrypt_encrypt_alias _ _ _ _ _ _ Ha He) as Hdec.
  apply encrypt_alias_wf in He as [Hn Hct]. unfold parse_alias_material.
  rewrite !alias_decode_encode. cbn [mbind result_bind map_err].
  rewrite SecretAliasId_parse_canonical // SecretId_parse_canonical // parse_key_version_wf //.
  cbn [mbind result_bind map_err]. rewrite Hct Hn. cbn [mbind result_bind map_err].
  rewrite decrypt_row_of_stored; [|by split_and!|done]. by rewrite Hdec.
Qed.

(** The two parsers of an alias row agree. *)
Lemma parse_alias_rows_agree state owner row alias :
  parse_resolved_secret_alias_row (st_alias_encryption_key state) owner row alias
  = d ← parse_resolve_alias_row state owner row;
    if negb (bool_decide (da_alias d = alias))
    then Err (ApiError_DbIntegrityViolation "resolved secret alias plaintext mismatch")
    else Ok (da_secret_id d).
Proof.
  unfold parse_resolve_alias_row, parse_alias_material, parse_resolved_secret_alias_row. rewrite !alias_decode_row.
  destruct (row_decode_bytea (ra_alias_ciphertext row)) as [ct|]; [|done]. cbn [mbind result_bind map_err].
  destruct (row_decode_bytea (ra_alias_nonce row)) as [n|]; [|done]. cbn [mbind result_bind map_err].
  destruct (SecretAliasId_parse (ra_id row)) as [ai|]; [|done]. cbn [mbind result_bind map_err].
  destruct (SecretId_parse (ra_secret_id row)) as [si|]; [|done]. cbn [mbind result_bind map_err].
  destruct (parse_key_version _ _) as [kv|]; [|done]. cbn [mbind result_bind map_err].
  destruct (Ciphertext_new ct) as [c|]; [|done]. cbn [mbind result_bind map_err].
  destruct (Nonce_parse n) as [nn|]; [|done]. cbn [mbind result_bind map_err].
  destruct (decrypt_alias_row _ _ _ _ _ _ _ _) as [d|] eqn:Hd; [|done]. cbn [mbind result_bind map_err].
  assert (da_secret_id d = si) as <-; [|done].
  unfold decrypt_alias_row in Hd. inv_ok. case_match; inv_ok. by simplify_eq.
Qed.

(** The row the database keeps of a created alias. *)
Definition stored_alias (params : CreateSecretAliasParams) (row : SecretAliasListRow) : Prop :=
  al_id row = ca_secret_alias_id params ∧ al_secret_id row = ca_secret_id params
  ∧ al_alias_ciphertext row = ca_alias_ciphertext params ∧ al_alias_nonce row = ca_alias_nonce params
  ∧ al_alias_key_version row = ca_alias_key_version params
  ∧ al_alias_fingerprint row = ca_alias_fingerprint params ∧ al_aad_context row = ca_aad_context params.

(** The row of a renamed alias: its secret is the one it had. *)
Definition renamed_alias (secret_id : SecretId) (params : UpdateSecretAliasParams) (row : SecretAliasListRow) : Prop :=
  al_id row = ua_secret_alias_id params ∧ al_secret_id row = SecretId_as_canonical_string secret_id
  ∧ al_alias_ciphertext row = ua_alias_ciphertext params ∧ al_alias_nonce row = ua_alias_nonce params
  ∧ al_alias_key_version row = ua_alias_key_version params
  ∧ al_alias_fingerprint row = ua_new_alias_fingerprint params ∧ al_aad_context row = ua_aad_context params.

Lemma computed_fingerprint_reads_back {LH : HexLaws P} {LM : HmacLaws P} key owner alias f :
  compute_alias_fingerprint key owner alias = Ok f →
  parse_alias_fingerprint (WriteLedger.encode_bytea (AliasFingerprint_as_bytes f)) = Ok f.
Proof.
  unfold compute_alias_fingerprint. intros (t & Ht%ok_or_Ok%hmac_length & ->)%result_fmap_Ok.
  unfold parse_alias_fingerprint. rewrite alias_decode_encode. cbn [mbind result_bind map_err AliasFingerprint_as_bytes].
  unfold AliasFingerprint_parse. by rewrite (proj2 (parse_array_Ok _ _ _ _ _) (conj Ht eq_refl)).
Qed.

(** The event of a list: its metadata already has the time, so it is kept as is. *)
Lemma list_event_metadata n t m rid actor w event w' :
  0 ≤ n ≤ u64_max →
  SecretAliasListMetadata_build (SecretAliasListMetadata_success n t) = Ok m →
  build_with_current_source_event_at rid actor None AuditAction_SecretAliasList None AuditResult_Success None m w
    = (Ok event, w') →
  ev_metadata_json (event_parts event)
  = mk_AuditMetadata (JObject [("result_count", json_uint n); (SOURCE_EVENT_AT_KEY, JString (SourceEventAt_as_str t))]%string).
Proof.
  intros Hn Hm He. unfold SecretAliasListMetadata_build, build_object in Hm.
  match type of Hm with AuditMetadata_new (JObject ?x) = _ => change x with
    [("result_count", json_uint n); (SOURCE_EVENT_AT_KEY, JString (SourceEventAt_as_str t))]%string in Hm end.
  apply AuditMetadata_new_Ok in Hm as (-> & _).
  2:{ cbn [representable forallb json_uint snd]. rewrite (proj2 (Z.leb_le 0 n)) ?(proj2 (Z.leb_le n _)); [done|lia..]. }
  unfold build_with_current_source_event_at in He. inv_run.
  match goal with H : AuditEvent_new _ = _ |- _ => apply AuditEvent_new_Ok in H as [-> _] end. cbn [event_parts ev_metadata_json].
  match goal with H : AuditMetadata_with_current_source_event_at _ _ = _ |- _ =>
    unfold AuditMetadata_with_current_source_event_at in H; inv_run end.
  match goal with H : AuditMetadata_source_event_at _ = Ok ?o, G : match ?o with _ => _ end _ = _ |- _ =>
    destruct o; [by injection G|]; unfold AuditMetadata_source_event_at in H;
    cbn [AuditMetadata_as_value as_object ok_or mbind result_bind] in H end.
  match goal with H : match map_get ?k ?o with _ => _ end = _ |- _ =>
    change (map_get k o) with (Some (JString (SourceEventAt_as_str t))) in H; cbn [as_str ok_or mbind result_bind] in H end.
  by destruct (SourceEventAt_parse _).
Qed.
End alias_case_lemmas.

(** ** Properties *)

Section alias_case_theorems.
Context {P : Platform} {F : FileSystem} {SM : SerdeMembers}.
Context {K : SiemSink} {A : AuditEventAppender}.
Context {Svc : LedgerService} {Rot : KeyRotationService} {Sec : SecretService} {As : AliasService}.

(** C25. An alias that is created belongs to the owner of its secret and is listed as it
    was given: the current version of the secret is the caller's own, what is sent
    to the database names the caller and the secret, and the row that keeps it is
    shown to the caller with the alias and the secret of the request. *)
Theorem created_alias_is_listed {LU : UuidLaws P} {LS : SerdeLaws P} {LR : RandomLaws P} {LA : AeadLaws P}
    {LH : HexLaws P} {LM : HmacLaws P} state rid jwt claims command s out s' :
  SecretId_wf (cs_secret_id command) → KeyVersion_wf (st_alias_encryption_key_version state) →
  NormalizedAlias_wf (cs_alias command) →
  create_secret_alias state rid jwt claims command s = (Ok out, s') →
  co_secret_id out = cs_secret_id command
  ∧ ∃ current params w1 w2 w3,
    fetch_current_secret_version (cs_secret_id command) jwt s.2 = (Ok current, w1)
    ∧ pd_owner_user_id current = claims_subject_user_id claims
    ∧ call_create_secret_alias params w2 = (Ok (co_secret_alias_id out), w3) ∧ s'.2 = w3
    ∧ ca_owner_user_id params = OwnerUserId_as_canonical_string (claims_subject_user_id claims)
    ∧ ca_secret_id params = SecretId_as_canonical_string (cs_secret_id command)
    ∧ ∃ ai, ca_secret_alias_id params = SecretAliasId_as_canonical_string ai
      ∧ ∀ row, stored_alias params row →
        parse_list_alias_row state (claims_subject_user_id claims) row
        = Ok (mk_SecretAliasListItem ai (cs_secret_id command) (cs_alias command)
            (al_created_at row) (al_updated_at row)).
Proof.
  intros Hsi Hkv Ha. unfold create_secret_alias, build_create_params, prepare_alias_create. intros H. inv_handler.
  match goal with H : (if ?b then _ else _) = Ok _ |- _ => destruct b eqn:Hb; [done|] end.
  apply negb_false_iff, bool_decide_eq_true in Hb.
  split; [done|]. do 5 eexists. split_and!; try done. eexists. split; [done|].
  intros row (E1 & E2 & E3 & E4 & E5 & E6 & E7). unfold parse_list_alias_row. rewrite E1 E2 E3 E4 E5 E6 E7. cbn.
  match goal with H : compute_alias_fingerprint _ _ _ = _ |- _ => rewrite (computed_fingerprint_reads_back _ _ _ _ H) end.
  cbn [mbind result_bind].
  match goal with H : SecretAliasId_generate _ = _ |- _ => apply SecretAliasId_generate_wf in H end.
  by erewrite alias_material_reads_back.
Qed.

(** Renaming keeps the secret: the alias is renamed for the secret the database
    says it has, and the row that keeps the new name is shown to the caller with
    it. *)
Theorem renamed_alias_is_listed {LU : UuidLaws P} {LS : SerdeLaws P} {LR : RandomLaws P} {LA : AeadLaws P}
    {LH : HexLaws P} {LM : HmacLaws P} state rid claims ai alias s out s' :
  SecretAliasId_wf ai → KeyVersion_wf (st_alias_encryption_key_version state) → NormalizedAlias_wf alias →
  update_alias state rid claims ai alias s = (Ok out, s') →
  uo_secret_alias_id out = ai
  ∧ ∃ secret_id params w1 w2 old,
    call_get_secret_alias_for_update (claims_subject_user_id claims) ai s.2 = (Ok secret_id, w1)
    ∧ call_update_secret_alias params w2 = (Ok old, s'.2)
    ∧ ua_owner_user_id params = OwnerUserId_as_canonical_string (claims_subject_user_id claims)
    ∧ ∀ row, renamed_alias secret_id params row →
        parse_list_alias_row state (claims_subject_user_id claims) row
        = Ok (mk_SecretAliasListItem ai secret_id alias (al_created_at row) (al_updated_at row)).
Proof.
  intros Hai Hkv Ha. unfold update_alias, build_update_params, prepare_alias_update. intros H. inv_handler.
  split; [done|].
  match goal with H : call_get_secret_alias_for_update _ _ _ = (Ok ?i, _) |- _ => exists i; assert (SecretId_wf i) as Hsi by
    (unfold call_get_secret_alias_for_update, first_row in H; inv_ok; by eapply SecretId_parse_wf) end.
  do 4 eexists. split_and!; try done.
  intros row (E1 & E2 & E3 & E4 & E5 & E6 & E7). unfold parse_list_alias_row. rewrite E1 E2 E3 E4 E5 E6 E7. cbn.
  match goal with H : compute_alias_fingerprint _ _ _ = _ |- _ => rewrite (computed_fingerprint_reads_back _ _ _ _ H) end.
  cbn [mbind result_bind]. by erewrite alias_material_reads_back.
Qed.

(** A list is shown only after it is on record: every alias of it comes from the
    row the database returned at its place, and an event of the caller that counts
    them was taken by the audit log or its fallback. *)
Theorem alias_list_is_recorded state rid claims limit offset s out s' :
  list_aliases state rid claims limit offset s = (Ok out, s') →
  ∃ rows w1 event outcome w2 w3 t,
    call_list_secret_aliases (mk_ListSecretAliasesParams (RequestId_as_canonical_string rid)
      (OwnerUserId_as_canonical_string (claims_subject_user_id claims)) limit offset) s.2 = (Ok rows, w1)
    ∧ Forall2 (λ row item, parse_list_alias_row state (claims_subject_user_id claims) row = Ok item)
        rows (lo_aliases out)
    ∧ record (st_audit_fallback_store state) event w2 = (Ok outcome, w3)
    ∧ ev_action (event_parts event) = AuditAction_SecretAliasList
    ∧ ev_result (event_parts event) = AuditResult_Success
    ∧ ev_request_id (event_parts event) = rid
    ∧ ev_actor_user_id (event_parts event) = Some (claims_subject_user_id claims)
    ∧ ev_metadata_json (event_parts event)
      = mk_AuditMetadata (JObject [("result_count", json_uint (Z.of_nat (length (lo_aliases out))));
          (SOURCE_EVENT_AT_KEY, JString t)]%string).
Proof.
  unfold list_aliases, record_alias_list_success_audit. intros H. inv_handler.
  match goal with H : io_match _ _ _ = _ |- _ => apply io_match_run in H as ([outcome|e] & s9 & Hw & Hk) end.
  - apply in_world_Ok in Hw as [Hw _].
    match goal with H : u_try_from _ _ = Some _ |- _ => apply u_try_from_Some in H as [-> Hn] end.
    match goal with H : build_with_current_source_event_at _ _ _ _ _ _ _ _ _ = _, B : SecretAliasListMetadata_build _ = _ |- _ =>
      pose proof (list_event_metadata _ _ _ _ _ _ _ _ Hn B H) as Hm; apply built_event_parts in H as (id & m & Hparts) end.
    do 7 eexists. split_and!; [done|by apply try_map_Ok|done|by rewrite Hparts ..|exact Hm].
  - destruct e; inv_proc; done.
Qed.

(** The two ways an alias is resolved, by the alias API and inside the other
    handlers, find the same secret: one succeeds exactly when the other does. *)
Theorem alias_resolutions_agree state claims alias s si s' :
  (∃ out, resolve_alias state claims alias s = (Ok out, s') ∧ ro_secret_id out = si)
  ↔ resolve_secret_ref (st_alias_fingerprint_key state) (st_alias_encryption_key state) (SecretRef_Alias alias)
      (claims_subject_user_id claims) s.2 = (Ok si, s'.2) ∧ s'.1 = s.1.
Proof.
  unfold resolve_alias, resolve_secret_ref.
  destruct (compute_lookup_fingerprint _ _ _) as [f|e]; [|naive_solver].
  destruct s as [sh w], s' as [sh' w']. unfold mbind, io_bind, io_map_err, lift, in_world. cbn [fst snd map_err].
  destruct (call_resolve_secret_alias _ f w) as [[[row|]|e] w1]; cbn [map_err ok_or fst snd]; [|naive_solver..].
  rewrite parse_alias_rows_agree.
  destruct (parse_resolve_alias_row _ _ row) as [d|e]; cbn [mbind result_bind map_err]; [|naive_solver].
  destruct (negb _); cbn [map_err]; naive_solver.
Qed.
End alias_case_theorems.
