(* ===== verification/Handlers.v ===== *)
(** * HTTP handlers ([src/server/handlers/{parsing,create,rotate,decrypt,alias}.rs])

    A handler parses the path, the query and the body of a request, runs the use
    case and answers with a status and a body; an error carries the request it
    belongs to.  The extractors that precede a handler (token, request identifier,
    JSON body) are the framework's: their results are its arguments. *)

From S2P Require Import Prelude RustStd Json Platform Reference Errors Types Aad Crypto Authorization SecretStore Alias AuditTypes LedgerTypes LedgerPayload LedgerEntry LedgerChain LedgerRpc LedgerAppender ApiError WriteLedger ReadModel Files AuditEvent AuditBuilders KeyRotation AuditFallback App Siem AuditReporter UseCases AliasUseCases.

(** ** Requests and answers ([src/server/dto.rs]) *)

Record CreateSecretRequest := mk_CreateSecretRequest {
  cq_classification : str;
  cq_device_id : str;
  cq_plaintext_hex : str;
}.
Record CreateSecretResponse := mk_CreateSecretResponse {
  cp_secret_id : str;
  cp_version : Z;
  cp_secret_version_id : str;
}.
Record RotateSecretRequest := mk_RotateSecretRequest {
  rq_device_id : str;
  rq_plaintext_hex : str;
}.
Record RotateSecretResponse := mk_RotateSecretResponse {
  rr_secret_id : str;
  rr_version : Z;
  rr_secret_version_id : str;
}.
Record DecryptSecretResponse := mk_DecryptSecretResponse {
  ds_secret_id : str;
  ds_version : Z;
  ds_plaintext_hex : str;
  ds_encoding : str;
}.
Record AliasRequest := mk_AliasRequest { aq_alias : str }.
Record CreateAliasAnswer := mk_CreateAliasAnswer { cn_secret_alias_id : str; cn_secret_id : str }.
Record UpdateAliasAnswer := mk_UpdateAliasAnswer { un_secret_alias_id : str }.
Record ResolveAliasAnswer := mk_ResolveAliasAnswer { rn_secret_alias_id : str; rn_secret_id : str }.
Record ListSecretAliasesQuery := mk_ListSecretAliasesQuery { lq_limit : option Z; lq_offset : option Z }.
Record SecretAliasSummary := mk_SecretAliasSummary {
  sy_secret_alias_id : str;
  sy_secret_id : str;
  sy_alias : str;
  sy_created_at : str;
  sy_updated_at : str;
}.
Record ListSecretAliasesResponse := mk_ListSecretAliasesResponse {
  lr_aliases : list SecretAliasSummary;
  lr_limit : Z;
  lr_offset : Z;
  lr_total_returned : Z;
}.
Record ApiErrorResponse := mk_ApiErrorResponse { ae_code : str; ae_request_id : str }.

Definition default_list_limit : Z := 100.
(** [#[serde(default = ..)]] of a query without the parameter. *)
Definition query_limit (query : ListSecretAliasesQuery) : Z := default default_list_limit (lq_limit query).
Definition query_offset (query : ListSecretAliasesQuery) : Z := default 0 (lq_offset query).

(** The error an alias that is refused answers with ([src/alias/error.rs]). *)
Definition AliasInputError_to_string (e : AliasInputError) : str :=
  match e with
  | AliasInputError_Empty => "alias must not be empty or whitespace only"
  | AliasInputError_TooLong actual max =>
      "alias must be at most " +:+ int_to_string max +:+ " characters: actual " +:+ int_to_string actual
  | AliasInputError_DisallowedCharacter position =>
      "alias contains disallowed character at position " +:+ int_to_string position
  end.

Section handlers.
Context {P : Platform}.

Definition DecryptSecretResponse_new (secret_id : str) (version : Z) (plaintext : bytes) : DecryptSecretResponse :=
  mk_DecryptSecretResponse secret_id version (hex_encode plaintext) "hex".

Record RequestAwareApiError := mk_RequestAwareApiError {
  re_error : ApiError;
  re_request_id : RequestId;
}.
Definition with_request_id (request_id : RequestId) (error : ApiError) : RequestAwareApiError :=
  mk_RequestAwareApiError error request_id.
Definition into_response (error : RequestAwareApiError) : Z * ApiErrorResponse :=
  let '(status, code) := ApiError_status_and_code (re_error error) in
  (status, mk_ApiErrorResponse code (RequestId_as_canonical_string (re_request_id error))).

(** ** Parsing ([parsing.rs]) *)

Definition parse_secret_ref (value : str) : result ApiError SecretRef :=
  SecretRef_parse value !? (λ error, ApiError_BadRequest (InputError_to_string error)).
Definition parse_secret_id (value : str) : result ApiError SecretId :=
  SecretId_parse (trim value) !? (λ error, ApiError_BadRequest (AadError_to_string error)).
Definition parse_secret_alias_id (value : str) : result ApiError SecretAliasId :=
  SecretAliasId_parse (trim value) !? (λ error, ApiError_BadRequest (AadError_to_string error)).
Definition parse_classification (value : str) : result ApiError Classification :=
  Classification_new value !? (λ error, ApiError_BadRequest (AadError_to_string error)).
Definition parse_device_id (value : str) : result ApiError DeviceId :=
  DeviceId_new value !? (λ error, ApiError_BadRequest (InputError_to_string error)).
Definition parse_secret_alias (value : str) : result ApiError NormalizedAlias :=
  NormalizedAlias_parse value !? (λ error, ApiError_BadRequest (AliasInputError_to_string error)).

(** [matches!(byte, b'0'..=b'9' | b'a'..=b'f')]. *)
Definition is_lower_hex (a : ascii) : bool := between 48 57 a || between 97 102 a.

(** [hex_error] is the text of the decoder's error. *)
Definition parse_hex_plaintext (hex_error : str) (value : str) : result ApiError Plaintext :=
  if negb (str_len value mod 2 =? 0) || negb (forallb is_lower_hex (chars value))
  then Err (ApiError_BadRequest "invalid plaintext_hex encoding: must be lowercase hex with even length")
  else mk_Plaintext <$> ok_or (hex_decode value)
    (ApiError_BadRequest ("invalid plaintext_hex encoding: " +:+ hex_error)).

Definition current_created_at : io World ApiError CreatedAt := λ w,
  let '(now, w') := clock_now_utc w in
  ((rfc3339 ← dt_format now !? ApiError_InternalError;
    CreatedAt_parse rfc3339 !? (λ error, ApiError_InternalError (AadError_to_string error))), w').

Record ParsedCreateSecretRequest := mk_ParsedCreateSecretRequest {
  pq_classification : Classification;
  pq_device_id : DeviceId;
  pq_plaintext : Plaintext;
  pq_created_at : CreatedAt;
}.
Record ParsedRotateSecretRequest := mk_ParsedRotateSecretRequest {
  pr_device_id : DeviceId;
  pr_plaintext : Plaintext;
  pr_created_at : CreatedAt;
}.
Record ParsedCreateSecretAliasRequest := mk_ParsedCreateSecretAliasRequest { pa_alias : NormalizedAlias }.

Definition parse_create_secret_request (hex_error : str) (body : CreateSecretRequest) :
    io World ApiError ParsedCreateSecretRequest :=
  classification ← lift (parse_classification (cq_classification body));
  device_id ← lift (parse_device_id (cq_device_id body));
  plaintext ← lift (parse_hex_plaintext hex_error (cq_plaintext_hex body));
  created_at ← current_created_at;
  mret (mk_ParsedCreateSecretRequest classification device_id plaintext created_at).

Definition parse_rotate_secret_request (hex_error : str) (body : RotateSecretRequest) :
    io World ApiError ParsedRotateSecretRequest :=
  device_id ← lift (parse_device_id (rq_device_id body));
  plaintext ← lift (parse_hex_plaintext hex_error (rq_plaintext_hex body));
  created_at ← current_created_at;
  mret (mk_ParsedRotateSecretRequest device_id plaintext created_at).

Definition parse_create_secret_alias_request (body : AliasRequest) :
    result ApiError ParsedCreateSecretAliasRequest :=
  mk_ParsedCreateSecretAliasRequest <$> parse_secret_alias (aq_alias body).

Definition validate_list_query (query : ListSecretAliasesQuery) : result ApiError unit :=
  if (query_limit query =? 0) || (query_limit query >? 1000)
  then Err (ApiError_BadRequest "limit must be between 1 and 1000") else Ok tt.

(** [CACHE_CONTROL: no-store]. *)
Definition no_store_headers : list (str * str) := [("cache-control", "no-store")]%string.

Definition create_secret_command (request : ParsedCreateSecretRequest) : CreateSecretCommand :=
  mk_CreateSecretCommand (pq_classification request) (pq_device_id request) (pq_plaintext request)
    (pq_created_at request).
Definition rotate_secret_command (requested_secret_ref : SecretRef) (request : ParsedRotateSecretRequest) :
    RotateSecretCommand :=
  mk_RotateSecretCommand requested_secret_ref (pr_device_id request) (pr_plaintext request)
    (pr_created_at request).
Definition create_secret_alias_command (secret_id : SecretId) (request : ParsedCreateSecretAliasRequest) :
    CreateSecretAliasCommand :=
  mk_CreateSecretAliasCommand secret_id (pa_alias request).
Definition alias_summary (item : SecretAliasListItem) : SecretAliasSummary :=
  mk_SecretAliasSummary (SecretAliasId_as_canonical_string (li_secret_alias_id item))
    (SecretId_as_canonical_string (li_secret_id item)) (NormalizedAlias_as_str (li_alias item))
    (li_created_at item) (li_updated_at item).

Context {F : FileSystem} {SM : SerdeMembers} {K : SiemSink} {A : AuditEventAppender}.
Context {Svc : LedgerService} {Rot : KeyRotationService} {Sec : SecretService} {As : AliasService}.

(** ** Handlers

    [join_error] and [hex_error] are the texts of errors of the runtime and of the
    decoder. *)
Definition handle_create_secret (join_error hex_error : str) (state : AppState) (request_id : RequestId)
    (claims : VerifiedJwtClaims) (body : CreateSecretRequest) :
    proc RequestAwareApiError (Z * CreateSecretResponse) :=
  request ← in_world (parse_create_secret_request hex_error body) !?? with_request_id request_id;
  let command := create_secret_command request in
  output ← create_secret join_error state request_id claims command !?? with_request_id request_id;
  mret (201, mk_CreateSecretResponse (SecretId_as_canonical_string (wu_secret_id output))
    (SecretVersion_get (wu_version output))
    (SecretVersionId_as_canonical_string (wu_secret_version_id output))).

Definition handle_rotate_secret (join_error hex_error : str) (state : AppState) (request_id : RequestId)
    (secret_ref : str) (raw_jwt : RawJwt) (claims : VerifiedJwtClaims) (body : RotateSecretRequest) :
    proc RequestAwareApiError (Z * RotateSecretResponse) :=
  requested_secret_ref ← lift (parse_secret_ref secret_ref) !?? with_request_id request_id;
  request ← in_world (parse_rotate_secret_request hex_error body) !?? with_request_id request_id;
  let command := rotate_secret_command requested_secret_ref request in
  output ← rotate_secret join_error state request_id raw_jwt claims command !?? with_request_id request_id;
  mret (201, mk_RotateSecretResponse (SecretId_as_canonical_string (wu_secret_id output))
    (SecretVersion_get (wu_version output))
    (SecretVersionId_as_canonical_string (wu_secret_version_id output))).

Definition handle_decrypt_secret (state : AppState) (request_id : RequestId) (secret_ref : str)
    (raw_jwt : RawJwt) (claims : VerifiedJwtClaims) :
    proc RequestAwareApiError (list (str * str) * DecryptSecretResponse) :=
  requested_secret_ref ← lift (parse_secret_ref secret_ref) !?? with_request_id request_id;
  output ← decrypt_secret state request_id requested_secret_ref raw_jwt claims !?? with_request_id request_id;
  mret (no_store_headers, DecryptSecretResponse_new (SecretId_as_canonical_string (do_secret_id output))
    (SecretVersion_get (do_version output)) (Plaintext_as_bytes (do_plaintext output))).

Definition handle_create_secret_alias (state : AppState) (request_id : RequestId) (secret_id_path : str)
    (raw_jwt : RawJwt) (claims : VerifiedJwtClaims) (body : AliasRequest) :
    proc RequestAwareApiError (Z * CreateAliasAnswer) :=
  secret_id ← lift (parse_secret_id secret_id_path) !?? with_request_id request_id;
  request ← lift (parse_create_secret_alias_request body) !?? with_request_id request_id;
  let command := create_secret_alias_command secret_id request in
  output ← create_secret_alias state request_id raw_jwt claims command !?? with_request_id request_id;
  mret (201, mk_CreateAliasAnswer (SecretAliasId_as_canonical_string (co_secret_alias_id output))
    (SecretId_as_canonical_string (co_secret_id output))).

Definition handle_update_secret_alias (state : AppState) (request_id : RequestId) (alias_id_path : str)
    (claims : VerifiedJwtClaims) (body : AliasRequest) : proc RequestAwareApiError UpdateAliasAnswer :=
  secret_alias_id ← lift (parse_secret_alias_id alias_id_path) !?? with_request_id request_id;
  alias ← lift (parse_secret_alias (aq_alias body)) !?? with_request_id request_id;
  output ← update_alias state request_id claims secret_alias_id alias !?? with_request_id request_id;
  mret (mk_UpdateAliasAnswer (SecretAliasId_as_canonical_string (uo_secret_alias_id output))).

Definition handle_delete_secret_alias (state : AppState) (request_id : RequestId) (alias_id_path : str)
    (claims : VerifiedJwtClaims) : proc RequestAwareApiError Z :=
  secret_alias_id ← lift (parse_secret_alias_id alias_id_path) !?? with_request_id request_id;
  _ ← delete_alias state request_id claims secret_alias_id !?? with_request_id request_id;
  mret 204.

Definition handle_list_secret_aliases (state : AppState) (request_id : RequestId)
    (query : ListSecretAliasesQuery) (claims : VerifiedJwtClaims) :
    proc RequestAwareApiError (list (str * str) * ListSecretAliasesResponse) :=
  _ ← lift (validate_list_query query) !?? with_request_id request_id;
  output ← list_aliases state request_id claims (query_limit query) (query_offset query)
    !?? with_request_id request_id;
  total_returned ← lift (ok_or (u_try_from u32_max (Z.of_nat (length (lo_aliases output))))
    (with_request_id request_id
      (ApiError_InternalError "out of range integral type conversion attempted")));
  mret (no_store_headers, mk_ListSecretAliasesResponse (alias_summary <$> lo_aliases output)
    (query_limit query) (query_offset query) total_returned).

Definition handle_resolve_secret_alias (state : AppState) (request_id : RequestId)
    (claims : VerifiedJwtClaims) (body : AliasRequest) :
    proc RequestAwareApiError (list (str * str) * ResolveAliasAnswer) :=
  alias ← lift (parse_secret_alias (aq_alias body)) !?? with_request_id request_id;
  output ← resolve_alias state claims alias !?? with_request_id request_id;
  mret (no_store_headers, mk_ResolveAliasAnswer
    (SecretAliasId_as_canonical_string (ro_secret_alias_id output))
    (SecretId_as_canonical_string (ro_secret_id output))).
End handlers.

(** ** Lemmas *)

Section handler_lemmas.
Context {P : Platform}.

Lemma is_lower_hex_spec a :
  is_lower_hex a = true ↔ is_ascii_hexdigit a = true ∧ is_ascii_uppercase a = false.
Proof. destruct a as [[] [] [] [] [] [] [] []]; vm_compute; naive_solver. Qed.

(** A body's plaintext is accepted exactly when it is the hexadecimal text of the
    bytes it is taken for. *)
Lemma parse_hex_plaintext_Ok {LH : HexLaws P} hex_error v p :
  parse_hex_plaintext hex_error v = Ok p ↔ v = hex_encode (Plaintext_as_bytes p).
Proof.
  unfold parse_hex_plaintext. split.
  - destruct (negb (_ =? 0)) eqn:E1; [done|]. destruct (negb (forallb _ _)) eqn:E2; [done|]. cbn [orb].
    apply negb_false_iff in E1, E2. apply Z.eqb_eq in E1. rewrite forallb_forall in E2.
    destruct (hex_decode_lower v) as (b & Hb & <-).
    { by rewrite Zeven_mod E1. }
    { apply Forall_forall. intros c Hc. apply is_lower_hex_spec, E2. by apply list_elem_of_In. }
    rewrite Hb. by intros [= <-].
  - intros ->. rewrite hex_encode_length.
    rewrite (proj2 (Z.eqb_eq _ 0)); [|by rewrite Z.mul_comm Z.mod_mul].
    rewrite (proj2 (forallb_forall _ _)).
    + cbn [negb orb]. rewrite hex_decode_encode. by destruct p.
    + intros c Hc%list_elem_of_In. apply is_lower_hex_spec.
      by apply (proj1 (Forall_forall _ _) (hex_encode_lower (Plaintext_as_bytes p))).

Qed.

Lemma current_created_at_now {LT : TimeLaws P} w t w' :
  current_created_at w = (Ok t, w') → clock_now_utc w = (CreatedAt_0 t, w').
Proof.
  unfold current_created_at. pose proof (clock_now_is_utc w) as Hu. destruct (clock_now_utc w) as [now w1]. cbn in Hu.
  intros [= H <-]. inv_ok. f_equal.
  match goal with F : dt_format now = Ok _, C : CreatedAt_parse _ = Ok _ |- _ =>
    rewrite (CreatedAt_round_trip (mk_CreatedAt now)) in C; [by injection C as <-|done|];
    unfold CreatedAt_as_rfc3339_utc; apply format_utc_Ok; cbn; by rewrite dt_to_utc_id end.
Qed.
Lemma current_created_at_wf {LT : TimeLaws P} w t w' : current_created_at w = (Ok t, w') → CreatedAt_wf t.
Proof.
  unfold current_created_at. destruct (clock_now_utc w) as [now w1]. intros [= H _]. inv_ok. by eapply CreatedAt_parse_wf.
Qed.
End handler_lemmas.

(** ** Properties *)

Section handler_theorems.
Context {P : Platform} {F : FileSystem} {SM : SerdeMembers} {K : SiemSink} {A : AuditEventAppender}.
Context {Svc : LedgerService} {Rot : KeyRotationService} {Sec : SecretService} {As : AliasService}.

Lemma record_success_errors state rid actor target vid v kv s e s' :
  record_success_audit state rid actor target vid v kv s = (Err e, s') →
  e = ApiError_AuditRecordFailed ∨ e = ApiError_LedgerAppendFailed.
Proof.
  unfold record_success_audit, append_with_ledger. intros H.
  repeat match goal with
  | H : mbind _ _ _ = (Err _, _) |- _ => apply io_bind_Err in H as [?|(? & ? & _ & ?)]
  | H : io_map_err _ ?m _ = (Err _, _) |- _ => unfold io_map_err in H; destruct (m _) as [[] ?]; simplify_eq/=; auto
  | H : lift _ _ = (Err _, _) |- _ => unfold lift in H; injection H as H _
  | H : ok_or ?o _ = Err _ |- _ => destruct o; simplify_eq/=; auto
  | H : infallible ?m ?s = (Err _, _) |- _ => unfold infallible in H; destruct (m s); done
  end; done.
Qed.

(** A decryption whose row is read is answered with the error of the decryption, or as
    soon as it is recorded. *)
Lemma handle_decrypt_run state rid path secret_id jwt claims s row w :
  SecretRef_parse path = Ok (SecretRef_Id secret_id) →
  fetch_current_secret_version secret_id jwt s.2 = (Ok row, w) →
  let decrypted := decrypt_current_secret_version_with_keyring (st_master_key_ring state) (into_decrypt_input row claims) in
  ∃ r s', handle_decrypt_secret state rid path jwt claims s = (r, s')
    ∧ match decrypted with
      | Ok pt => r = Ok (no_store_headers, DecryptSecretResponse_new (SecretId_as_canonical_string (pd_secret_id row))
            (SecretVersion_get (pd_version row)) (Plaintext_as_bytes pt))
          ∨ r = Err (mk_RequestAwareApiError ApiError_AuditRecordFailed rid)
          ∨ r = Err (mk_RequestAwareApiError ApiError_LedgerAppendFailed rid)
      | Err e => r = Err (mk_RequestAwareApiError (ApiError_from_SecretDecryptError e) rid)
      end.
Proof.
  intros Hpath Hfetch decrypted. unfold handle_decrypt_secret, parse_secret_ref. rewrite Hpath.
  unfold decrypt_secret, resolve_or_report, resolve_secret_ref, decrypt_prepared_input, or_report, in_world, io_match,
    io_map_err, lift, mbind, io_bind, mret, io_ret. cbn [map_err fst snd].
  rewrite Hfetch. cbn [map_err fst snd]. fold decrypted. destruct decrypted as [pt|e]; cbn [map_err fst snd].
  - match goal with |- context [record_success_audit ?a ?b ?c ?d ?e ?f ?g ?h] =>
      destruct (record_success_audit a b c d e f g h) as [[o|e'] s'] eqn:Hr end; eexists _, s'; (split; [reflexivity|]).
    + by left.
    + right. by destruct (record_success_errors _ _ _ _ _ _ _ _ _ _ Hr) as [->| ->]; [left|right].
  - match goal with |- context [report ?m ?st] => destruct (report m st) as [[[]|e'] s'] eqn:Hr end;
      eexists _, s'; (split; [reflexivity|]); [done|].
    revert Hr. unfold report, io_match. by destruct (failure_record _ _ _).
Qed.

(** C1. What is posted is what is answered, as far as the database keeps it.  Once a secret was
    created over HTTP, its time of creation is the one the server's clock gave, and the
    database keeps it in whole microseconds.  A later request of the same user for the
    secret finds the row as the one current one.  When the clock gave whole microseconds
    it is answered with version 1 and the posted hexadecimal text, or with the error of
    the audit log or of the ledger that had to record the decryption first.  When the
    clock gave a finer time, the row does not match the associated data any more and the
    request is always refused with [decrypt_failed]. *)
Theorem created_secret_is_answered {LU : UuidLaws P} {LT : TimeLaws P} {LR : RandomLaws P} {LA : AeadLaws P}
    {LH : HexLaws P} {LS : SerdeLaws P} {I : Instants P} {TC : TimestampColumn P}
    join_error hex_error state rid claims body s status answer s' :
  MasterKeyRing_wf (st_master_key_ring state) →
  KeyVersion_wf (ring_active_key_version (st_master_key_ring state)) →
  handle_create_secret join_error hex_error state rid claims body s = (Ok (status, answer), s') →
  ∃ params w response secret_id created_at w0 w1,
    call_write_secret_version params w = (Ok response, s'.2)
    ∧ cp_secret_id answer = SecretId_as_canonical_string (wo_secret_id response)
    ∧ wp_secret_id params = SecretId_as_canonical_string secret_id
    ∧ CreatedAt_parse (wp_created_at params) = Ok created_at ∧ clock_now_utc w0 = (CreatedAt_0 created_at, w1)
    ∧ ∀ rid2 path jwt claims2 s2 rows row w3,
        claims_subject_user_id claims2 = claims_subject_user_id claims →
        SecretRef_parse path = Ok (SecretRef_Id secret_id) →
        svc_read_secret_versions (wp_secret_id params) jwt s2.2 = (Ok rows, w3) →
        filter (λ r, sj_current_version_id (rv_secrets r) = rv_id r) rows = [row] → stored_version params row →
        ∃ r s3, handle_decrypt_secret state rid2 path jwt claims2 s2 = (r, s3)
          ∧ (whole_microseconds created_at →
             r = Ok (no_store_headers, mk_DecryptSecretResponse (wp_secret_id params) 1 (cq_plaintext_hex body) "hex")
             ∨ r = Err (mk_RequestAwareApiError ApiError_AuditRecordFailed rid2)
             ∨ r = Err (mk_RequestAwareApiError ApiError_LedgerAppendFailed rid2))
          ∧ (¬ whole_microseconds created_at → r = Err (mk_RequestAwareApiError ApiError_DecryptFailed rid2)).
Proof.
  intros Hring Hkv. unfold handle_create_secret, parse_create_secret_request, create_secret,
    prepare_new_secret_version_for_request. intros H. inv_handler.
  match goal with H : prepare_new_secret_version_with_keyring _ ?i _ = Some (Ok ?x, _), C : current_created_at ?wc = (_, ?wd),
    L : parse_classification _ = _ |- _ =>
    rename x into p; pose proof (current_created_at_now _ _ _ C) as Hclock; assert (new_input_wf i) as Hwf by
      (split; [unfold parse_classification in L; inv_ok; by eapply Classification_new_wf|by eapply current_created_at_wf]);
    pose proof (from_create (st_master_key_ring state) _ _ _ _ Hwf H) as Hp; pose proof (new_version_created_at _ _ _ _ _ H) as Hca;
    destruct (created_version_decrypts _ i _ _ _ claims Hring Hwf eq_refl H) as (_ & Hv & _ & _) end.
  match goal with H : submit_prepared_secret_version _ _ _ _ _ _ = _ |- _ =>
    apply submit_Ok in H as (params & wb & response & Hb & Hw & ->) end.
  destruct (prepared_from_readable _ _ _ _ Hring Hkv Hp) as [Hread _].
  pose proof (build_rpc_params_fields _ _ _ _ _ _ _ Hb) as (Hid & _ & _ & _ & Htext & _).
  eexists params, wb, response, (prep_secret_id p), (prep_created_at p), _, _.
  split_and!; [done|done|done|by eapply CreatedAt_round_trip; [apply Hread|]|rewrite Hca; exact Hclock|].
  intros rid2 path jwt claims2 s2 rows row w5 Hsub Hpath Hrows Hf Hst.
  pose proof (fetch_stored_version _ _ _ _ _ _ _ _ _ _ _ _ Hread Hb Hrows Hf Hst) as Hfetch.
  destruct (kept_version_decrypts _ _ _ _ claims2 Hring Hkv Hp Hsub) as [Hyes Hno].
  match goal with H : parse_hex_plaintext _ _ = _ |- _ => apply parse_hex_plaintext_Ok in H as -> end.
  destruct (handle_decrypt_run state rid2 path _ jwt claims2 s2 _ _ Hpath Hfetch) as (r & s9 & H9 & Hr).
  exists r, s9. split; [done|]. cbn [pd_secret_id pd_version row_of_version] in Hr. split.
  - intros Hm. rewrite (Hyes Hm) Hv -Hid in Hr. exact Hr.
  - intros Hm. destruct (Hno Hm) as (e & He & Hk). by rewrite He Hk in Hr.
Qed.
End handler_theorems.
