(* ===== verification/Maintenance.v ===== *)
(** * Periodic checks ([src/server/{restore_test,integrity_check}.rs])

    The restore test decrypts a sample of the current versions; the integrity check
    asks the database to look for violations.  Both leave their outcome in the audit
    log, and in the ledger. *)

From S2P Require Import Prelude RustStd Json Platform Reference Errors Types Aad Crypto Authorization SecretStore Alias AuditTypes LedgerTypes LedgerPayload LedgerEntry LedgerChain LedgerRpc LedgerAppender ApiError WriteLedger ReadModel Files AuditEvent AuditBuilders KeyRotation AuditFallback App Siem AuditReporter.

(** [std::time::Instant]: nanoseconds of a clock that does not go back. *)
Class MonotonicClock (P : Platform) := { instant_now : World → Z * World }.

Record IntegrityCheckSummary := mk_IntegrityCheckSummary {
  is_checked_secret_count : Z;
  is_checked_secret_version_count : Z;
  is_checked_audit_event_count : Z;
  is_violation_count : Z;
  is_violation_summary : IntegrityCheckViolationSummary;
}.
Definition IntegrityCheckSummary_zero : IntegrityCheckSummary :=
  mk_IntegrityCheckSummary 0 0 0 0 IntegrityCheckViolationSummary_zero.

Inductive RestoreTestOutcome :=
| RestoreTestOutcome_Success
| RestoreTestOutcome_Failure (error_code : str).

Inductive IntegrityCheckError :=
| IntegrityCheckError_Usage (message : str)
| IntegrityCheckError_Config (message : str)
| IntegrityCheckError_RequestId (error : AuditEventError)
| IntegrityCheckError_Metadata (error : AuditEventError)
| IntegrityCheckError_RpcFailed
| IntegrityCheckError_ViolationDetected (violation_count : Z)
| IntegrityCheckError_AuditRecordFailed (error : AuditRecordError).

Section maintenance.
Context {P : Platform} {F : FileSystem} {SM : SerdeMembers}.
Context {K : SiemSink} {A : AuditEventAppender}.
Context {Svc : LedgerService} {Rot : KeyRotationService} {MC : MonotonicClock P}.

(** The two remote calls; the sample is at most as many rows as it asks for. *)
Class CheckService := {
  svc_sample_restore_test : Z → io World SupabaseRpcError (list RestoreTestSampleRow);
  svc_integrity_check : io World SupabaseRpcError (list IntegrityCheckSummary);
}.
Context {Ck : CheckService}.

Definition call_sample_restore_test (limit : Z) : io World SupabaseRpcError (list RestoreTestSampleRow) :=
  svc_sample_restore_test limit.
Definition call_integrity_check : io World SupabaseRpcError IntegrityCheckSummary :=
  rows ← svc_integrity_check;
  lift (first_row Ok rows).

Definition Instant_now : act Z := λ s, let '(t, w) := instant_now s.2 in (t, (s.1, w)).
(** [u64::try_from(started_at.elapsed().as_millis()).unwrap_or(u64::MAX)]. *)
Definition elapsed_ms (started_at : Z) : act Z :=
  now ← Instant_now;
  mret (default u64_max (u_try_from u64_max (Z.max 0 (now - started_at) / 1000000))).

(** ** The restore test *)

Record RestoreTestFailureContext := mk_RestoreTestFailureContext {
  rf_target_secret_id : option SecretId;
  rf_key_version : option KeyVersion;
  rf_failed_version : option Z;
}.

Definition restore_test_failure_context_from_raw (row : RestoreTestSampleRow) : RestoreTestFailureContext :=
  mk_RestoreTestFailureContext
    (match SecretId_parse (rt_secret_id row) with Ok i => Some i | Err _ => None end)
    (version_from_i32 KeyVersion_new (rt_key_version row))
    (SecretVersion_get <$> version_from_i32 SecretVersion_new (rt_version row)).

Definition RestoreTestFailureContext_from_prepared (prepared : PreparedDecryptRow) : RestoreTestFailureContext :=
  mk_RestoreTestFailureContext (Some (pd_secret_id prepared)) (Some (pd_key_version prepared))
    (Some (SecretVersion_get (pd_version prepared))).

Definition restore_test_metadata_value (sample_count : Z) (error_code : option str) (failed_version : option Z)
    (reason : option str) (trigger : AuditTrigger) (duration_ms : option Z) : AuditMetadata :=
  let b := RestoreTestMetadata_new sample_count trigger in
  let b := RestoreTestMetadata_with_error_code_opt b error_code in
  let b := RestoreTestMetadata_with_failed_version_opt_u32 b failed_version in
  let b := RestoreTestMetadata_with_reason_opt b reason in
  let b := RestoreTestMetadata_with_duration_ms_opt b duration_ms in
  match RestoreTestMetadata_build b with Ok m => m | Err _ => AuditMetadata_empty end.
Definition restore_test_metadata_with_duration (sample_count : Z) (error_code : option str)
    (failed_version : option Z) (reason : option str) (trigger : AuditTrigger) (duration_ms : Z) : AuditMetadata :=
  restore_test_metadata_value sample_count error_code failed_version reason trigger (Some duration_ms).

Definition build_restore_test_decrypt_input_from_prepared (prepared : PreparedDecryptRow) :
    DecryptCurrentSecretVersionInput :=
  into_decrypt_input prepared (claims_for_restore_test_only (pd_owner_user_id prepared)).

(** [if let Err(..) = record(..).await { return Failure } .. return outcome]. *)
Definition restore_test_record (state : AppState) (request_id : RequestId) (started_at : Z)
    (res : AuditResult) (context : RestoreTestFailureContext) (sample_count : Z)
    (error_code reason : option str) (trigger : AuditTrigger) (outcome : RestoreTestOutcome) :
    act RestoreTestOutcome :=
  duration_ms ← elapsed_ms started_at;
  recorded ← attempted (record_restore_test_audit state request_id (mk_RestoreTestAudit res
    (rf_target_secret_id context) (rf_key_version context)
    (restore_test_metadata_with_duration sample_count error_code (rf_failed_version context) reason
      trigger duration_ms)));
  match recorded with
  | Err _ => mret (RestoreTestOutcome_Failure "restore_test_audit_record_failed")
  | Ok _ => mret outcome
  end.
Definition no_context : RestoreTestFailureContext := mk_RestoreTestFailureContext None None None.

(** The [for] loop: the first sample that fails ends it. *)
Fixpoint restore_test_samples (state : AppState) (request_id : RequestId) (started_at sample_count : Z)
    (trigger : AuditTrigger) (sample_rows : list RestoreTestSampleRow) : act RestoreTestOutcome :=
  let failed context code :=
    restore_test_record state request_id started_at AuditResult_Failure context sample_count (Some code) None
      trigger (RestoreTestOutcome_Failure code) in
  match sample_rows with
  | [] => restore_test_record state request_id started_at AuditResult_Success no_context sample_count None None
      trigger RestoreTestOutcome_Success
  | sample_row :: sample_rows =>
      match parse_restore_test_sample sample_row with
      | Err _ => failed (restore_test_failure_context_from_raw sample_row) "row_validation_failed"%string
      | Ok prepared =>
          match decrypt_current_secret_version_with_keyring (st_master_key_ring state)
                  (build_restore_test_decrypt_input_from_prepared prepared) with
          | Err _ => failed (RestoreTestFailureContext_from_prepared prepared) "decrypt_failed"%string
          | Ok _ => restore_test_samples state request_id started_at sample_count trigger sample_rows
          end
      end
  end.

Definition run_restore_test_once (state : AppState) (sample_limit : Z) (trigger : AuditTrigger) :
    act RestoreTestOutcome :=
  started_at ← Instant_now;
  request_id ← attempted (in_world RequestId_generate);
  match request_id with
  | Err _ => mret (RestoreTestOutcome_Failure "request_id_generation_failed")
  | Ok request_id =>
      sample_rows ← attempted (in_world (call_sample_restore_test sample_limit));
      match sample_rows with
      | Ok [] => restore_test_record state request_id started_at AuditResult_Success no_context 0 None
          (Some "no_current_secret_versions"%string) trigger RestoreTestOutcome_Success
      | Ok sample_rows => restore_test_samples state request_id started_at (Z.of_nat (length sample_rows))
          trigger sample_rows
      | Err _ => restore_test_record state request_id started_at AuditResult_Failure no_context 0
          (Some "sample_fetch_failed"%string) None trigger (RestoreTestOutcome_Failure "sample_fetch_failed")
      end
  end.

(** ** The integrity check *)

Record IntegrityCheckOutcome := mk_IntegrityCheckOutcome {
  ic_request_id : RequestId;
  ic_summary : IntegrityCheckSummary;
  ic_audit_result : AuditResult;
  ic_audit_record_outcome : AuditRecordOutcome;
}.

Definition build_integrity_check_metadata_with_duration (summary : IntegrityCheckSummary)
    (trigger : AuditTrigger) (error_code : option str) (duration_ms : Z) : result AuditEventError AuditMetadata :=
  let b := IntegrityCheckMetadata_new (is_checked_secret_count summary)
    (is_checked_secret_version_count summary) (is_checked_audit_event_count summary)
    (is_violation_count summary) (is_violation_summary summary) trigger in
  let b := IntegrityCheckMetadata_with_duration_ms b duration_ms in
  IntegrityCheckMetadata_build (IntegrityCheckMetadata_with_error_code_opt b error_code).
Definition build_integrity_check_metadata (summary : IntegrityCheckSummary) (trigger : AuditTrigger)
    (error_code : option str) : result AuditEventError AuditMetadata :=
  build_integrity_check_metadata_with_duration summary trigger error_code 0.

Definition integrity_check_record (state : AppState) (request_id : RequestId) (res : AuditResult)
    (summary : IntegrityCheckSummary) (trigger : AuditTrigger) (error_code : option str) (duration_ms : Z) :
    proc IntegrityCheckError AuditRecordOutcome :=
  metadata ← lift (build_integrity_check_metadata_with_duration summary trigger error_code duration_ms
    !? IntegrityCheckError_Metadata);
  record_integrity_check_audit state request_id (mk_IntegrityCheckAudit res metadata error_code)
    !?? IntegrityCheckError_AuditRecordFailed.

Definition run_integrity_check_once (state : AppState) (trigger : AuditTrigger) :
    proc IntegrityCheckError IntegrityCheckOutcome :=
  request_id ← in_world RequestId_generate !?? IntegrityCheckError_RequestId;
  started_at ← infallible Instant_now;
  io_match (in_world call_integrity_check) (λ called,
    duration_ms ← infallible (elapsed_ms started_at);
    match called with
    | Err _ =>
        _ ← integrity_check_record state request_id AuditResult_Failure IntegrityCheckSummary_zero trigger
          (Some "rpc_failed"%string) duration_ms;
        lift (Err IntegrityCheckError_RpcFailed)
    | Ok summary =>
        if is_violation_count summary =? 0 then
          outcome ← integrity_check_record state request_id AuditResult_Success summary trigger None duration_ms;
          mret (mk_IntegrityCheckOutcome request_id summary AuditResult_Success outcome)
        else
          _ ← integrity_check_record state request_id AuditResult_Failure summary trigger
            (Some "integrity_violation_detected"%string) duration_ms;
          lift (Err (IntegrityCheckError_ViolationDetected (is_violation_count summary)))
    end).

Definition integrity_check_usage : str := "usage:" +:+ String (ascii_of_nat 10) EmptyString +:+ "  mipsorcu integrity-check once".

(** [integrity-check once]: the state is built from the configuration. *)
Definition integrity_check_run_cli (build_cli_state : proc IntegrityCheckError AppState) (args : list str) :
    proc IntegrityCheckError unit :=
  match args with
  | [command] =>
      if String.eqb command "once" then
        state ← build_cli_state;
        _ ← run_integrity_check_once state AuditTrigger_Cli;
        mret tt
      else lift (Err (IntegrityCheckError_Usage integrity_check_usage))
  | _ => lift (Err (IntegrityCheckError_Usage integrity_check_usage))
  end.
End maintenance.

(** ** Lemmas *)

Section maintenance_lemmas.
Context {P : Platform} {F : FileSystem} {SM : SerdeMembers}.
Context {K : SiemSink} {A : AuditEventAppender}.
Context {Svc : LedgerService} {Rot : KeyRotationService} {MC : MonotonicClock P} {Ck : CheckService}.

(** A version the restore test can restore. *)
Definition restorable (ring : MasterKeyRing) (row : RestoreTestSampleRow) : Prop :=
  ∃ prepared pt, parse_restore_test_sample row = Ok prepared
    ∧ decrypt_current_secret_version_with_keyring ring (build_restore_test_decrypt_input_from_prepared prepared)
      = Ok pt.

(** The database took an event and the ledger entry that belongs to it. *)
Definition recorded_in_ledger (rid : RequestId) (action : AuditAction) (res : AuditResult)
    (entry_type : LedgerEntryType) : Prop :=
  ∃ event entry w1 appended w2,
    call_append_audit_event_with_ledger event entry w1 = (Ok appended, w2)
    ∧ ev_action (event_parts event) = action ∧ ev_result (event_parts event) = res
    ∧ ev_request_id (event_parts event) = rid
    ∧ cf_entry_type (se_fields entry) = entry_type
    ∧ AuditResult_as_str res = LedgerResult_as_str (cf_result (se_fields entry))
    ∧ cf_source_event_id (se_fields entry) = Some (ev_audit_event_id (event_parts event)).

Lemma audit_result_text r l :
  LedgerResult_parse (AuditResult_as_str r) = Ok l → AuditResult_as_str r = LedgerResult_as_str l.
Proof. destruct r; by intros [= <-]. Qed.

Lemma restore_draft_Ok event w d w' :
  build_restore_test_ledger_draft event w = (Ok d, w') →
  ad_entry_type d = LedgerEntryType_RestoreTestCompleted
  ∧ ad_source_event_id d = Some (ev_audit_event_id (event_parts event))
  ∧ AuditResult_as_str (ev_result (event_parts event)) = LedgerResult_as_str (ad_result d).
Proof.
  unfold build_restore_test_ledger_draft. intros H. inv_run.
  match goal with H : (let '(_, _) := ?x in _) _ = _ |- _ => destruct x as [successes failures] end. inv_run.
  match goal with H : LedgerAppendDraft_new _ = _ |- _ => apply LedgerAppendDraft_new_Ok in H as [-> _] end.
  split_and!; [done|done|]. by apply audit_result_text.
Qed.
Lemma integrity_draft_Ok event w d w' :
  build_integrity_check_ledger_draft event w = (Ok d, w') →
  ad_entry_type d = LedgerEntryType_IntegrityCheckCompleted
  ∧ ad_source_event_id d = Some (ev_audit_event_id (event_parts event))
  ∧ AuditResult_as_str (ev_result (event_parts event)) = LedgerResult_as_str (ad_result d).
Proof.
  unfold build_integrity_check_ledger_draft. intros H. inv_run.
  match goal with H : LedgerAppendDraft_new _ = _ |- _ => apply LedgerAppendDraft_new_Ok in H as [-> _] end.
  split_and!; [done|done|]. by apply audit_result_text.
Qed.

Lemma appended_is_recorded {E} {LE : Ed25519Laws P} state event draft (failed : E) s outcome s' :
  append_with_ledger state event draft failed s = (Ok outcome, s') →
  ad_source_event_id draft = Some (ev_audit_event_id (event_parts event)) →
  AuditResult_as_str (ev_result (event_parts event)) = LedgerResult_as_str (ad_result draft) →
  recorded_in_ledger (ev_request_id (event_parts event)) (ev_action (event_parts event))
    (ev_result (event_parts event)) (ad_entry_type draft).
Proof.
  intros (_ & entry & n & h & appended & wa & wb & Hf & Happ)%append_with_ledger_Ok Hid Hres.
  exists event, entry, wa, appended, wb. rewrite Hf. by split_and!.
Qed.

Lemma restore_success_recorded {LE : Ed25519Laws P} state rid target kv m s outcome s' :
  record_restore_test_audit state rid (mk_RestoreTestAudit AuditResult_Success target kv m) s = (Ok outcome, s') →
  recorded_in_ledger rid AuditAction_RestoreTest AuditResult_Success LedgerEntryType_RestoreTestCompleted.
Proof.
  unfold record_restore_test_audit, record_audit_with_ledger. intros H. inv_proc.
  match goal with H : build_with_current_source_event_at _ _ _ _ _ _ _ _ _ = (Ok ?e, _) |- _ =>
    apply built_event_parts in H as (id & m' & Hparts) end.
  case_bool_decide as Hs; [|by rewrite Hparts in Hs]. inv_proc.
  match goal with H : build_restore_test_ledger_draft _ _ = _ |- _ => apply restore_draft_Ok in H as (Ht & Hid & Hr) end.
  match goal with H : append_with_ledger _ _ _ _ _ = _ |- _ => apply appended_is_recorded in H; [|done..]; by rewrite Hparts Ht in H end.
Qed.

Lemma integrity_recorded {LE : Ed25519Laws P} state rid res m code s outcome s' :
  code ≠ Some "rpc_failed"%string →
  record_integrity_check_audit state rid (mk_IntegrityCheckAudit res m code) s = (Ok outcome, s') →
  recorded_in_ledger rid AuditAction_IntegrityCheck res LedgerEntryType_IntegrityCheckCompleted.
Proof.
  intros Hc. unfold record_integrity_check_audit, record_audit_with_ledger. intros H. inv_proc.
  match goal with H : build_with_current_source_event_at _ _ _ _ _ _ _ _ _ = (Ok ?e, _) |- _ =>
    apply built_event_parts in H as (id & m' & Hparts) end.
  cbn [ia_error_code] in *. rewrite bool_decide_eq_false_2 // in H0. cbn [negb] in H0. inv_proc.
  match goal with H : build_integrity_check_ledger_draft _ _ = _ |- _ => apply integrity_draft_Ok in H as (Ht & Hid & Hr) end.
  match goal with H : append_with_ledger _ _ _ _ _ = _ |- _ => apply appended_is_recorded in H; [|done..]; by rewrite Hparts Ht in H end.
Qed.

Lemma integrity_check_recorded {LE : Ed25519Laws P} state rid res summary trigger code d s outcome s' :
  code ≠ Some "rpc_failed"%string →
  integrity_check_record state rid res summary trigger code d s = (Ok outcome, s') →
  recorded_in_ledger rid AuditAction_IntegrityCheck res LedgerEntryType_IntegrityCheckCompleted.
Proof. intros Hc. unfold integrity_check_record. intros H. inv_proc. by eapply integrity_recorded. Qed.
Lemma integrity_check_record_Err state rid res summary trigger code d s e s' :
  integrity_check_record state rid res summary trigger code d s = (Err e, s') →
  match e with IntegrityCheckError_ViolationDetected _ => False | _ => True end.
Proof.
  unfold integrity_check_record, mbind, io_bind, lift, io_map_err.
  destruct (build_integrity_check_metadata_with_duration _ _ _ _); cbn [map_err]; [|by intros [= <- _]].
  destruct (record_integrity_check_audit _ _ _ s) as [[o|e'] s1]; cbn [map_err]; by intros [= <- _].
Qed.

Lemma restore_test_record_Success {LE : Ed25519Laws P} state rid started res context n code reason trigger outcome s s' :
  restore_test_record state rid started res context n code reason trigger outcome s = (RestoreTestOutcome_Success, s') →
  outcome = RestoreTestOutcome_Success
  ∧ (res = AuditResult_Success →
     recorded_in_ledger rid AuditAction_RestoreTest AuditResult_Success LedgerEntryType_RestoreTestCompleted).
Proof.
  unfold restore_test_record, mbind, act_bind, attempted. destruct (elapsed_ms started s) as [d s1].
  destruct (record_restore_test_audit _ _ _ s1) as [[o|e] s2] eqn:Hr; [|done]. intros [= -> _].
  split; [done|]. intros ->. by eapply restore_success_recorded.
Qed.

Lemma restore_test_samples_Success {LE : Ed25519Laws P} state rid started n trigger rows s s' :
  restore_test_samples state rid started n trigger rows s = (RestoreTestOutcome_Success, s') →
  Forall (restorable (st_master_key_ring state)) rows
  ∧ recorded_in_ledger rid AuditAction_RestoreTest AuditResult_Success LedgerEntryType_RestoreTestCompleted.
Proof.
  revert s. induction rows as [|row rows IH]; intros s; cbn [restore_test_samples].
  { intros [_ H]%restore_test_record_Success. split; [constructor|by apply H]. }
  destruct (parse_restore_test_sample row) as [prepared|e] eqn:Hp; [|by intros [[=] _]%restore_test_record_Success].
  destruct (decrypt_current_secret_version_with_keyring _ _) as [pt|e] eqn:Hd; [|by intros [[=] _]%restore_test_record_Success].
  intros [Hf Hr]%IH. split; [|done]. constructor; [|done]. by exists prepared, pt.
Qed.

(** The samples that can be restored leave only the record to fail. *)
Lemma restorable_samples_pass state rid started n trigger rows s :
  Forall (restorable (st_master_key_ring state)) rows →
  (restore_test_samples state rid started n trigger rows s).1
  ∈ [RestoreTestOutcome_Success; RestoreTestOutcome_Failure "restore_test_audit_record_failed"].
Proof.
  intros Hf. revert s. induction Hf as [|row rows (prepared & pt & Hp & Hd) _ IH]; intros s; cbn [restore_test_samples].
  - unfold restore_test_record, mbind, act_bind, attempted. destruct (elapsed_ms started s) as [d s1].
    destruct (record_restore_test_audit _ _ _ s1) as [[o|e] s2]; cbn; set_solver.
  - rewrite Hp Hd. apply IH.
Qed.

(** The sample of a stored version, with the time of creation as the column keeps it. *)
Definition stored_sample {I : Instants P} {TC : TimestampColumn P} (params : WriteSecretVersionParams)
    (row : RestoreTestSampleRow) : Prop :=
  rt_id row = wp_secret_version_id params ∧ rt_secret_id row = wp_secret_id params
  ∧ rt_version row = wp_version params ∧ rt_ciphertext row = wp_ciphertext params
  ∧ rt_encrypted_data_key row = wp_encrypted_data_key params ∧ rt_key_version row = wp_key_version params
  ∧ rt_nonce_or_iv row = wp_nonce_or_iv params ∧ rt_aad_context row = wp_aad_context params
  ∧ rt_classification row = wp_classification params
  ∧ CreatedAt_parse (rt_created_at row) = kept_created_at <$> CreatedAt_parse (wp_created_at params).

(** A row of the sample that one of the two write paths made at the given time. *)
Definition written_sample {I : Instants P} {TC : TimestampColumn P} (ring : MasterKeyRing) (created_at : CreatedAt)
    (row : RestoreTestSampleRow) : Prop :=
  ∃ owner pt p appender rid snapshot w params w',
    prepared_from ring owner pt p ∧ prep_created_at p = created_at
    ∧ build_rpc_params appender rid p snapshot w = (Ok params, w') ∧ stored_sample params row.

(** The check of a sampled row is the check of its time. *)
Lemma written_sample_parses {LU : UuidLaws P} {LT : TimeLaws P} {LR : RandomLaws P} {LA : AeadLaws P}
    {LH : HexLaws P} {LS : SerdeLaws P} {I : Instants P} {TC : TimestampColumn P} ring p owner pt appender rid snapshot w params w' row :
  MasterKeyRing_wf ring → KeyVersion_wf (ring_active_key_version ring) → prepared_from ring owner pt p →
  build_rpc_params appender rid p snapshot w = (Ok params, w') → stored_sample params row →
  (whole_microseconds (prep_created_at p) → parse_restore_test_sample row = Ok (row_of_version p (prep_created_at p)))
  ∧ (¬ whole_microseconds (prep_created_at p) → ∃ e, parse_restore_test_sample row = Err e).
Proof.
  intros Hring Hkv Hp Hb (I1 & I2 & I3 & I4 & I5 & I6 & I7 & I8 & I9 & I10).
  destruct (prepared_from_readable _ _ _ _ Hring Hkv Hp) as [Hread Ho].
  pose proof (prepared_from_decrypts _ _ _ _ (claims_for_restore_test_only owner) Hring Hp eq_refl) as Hdec.
  apply build_rpc_params_fields in Hb as (E1 & E2 & E3 & E4 & E5 & E6 & E7 & E8 & E9 & E10 & E11 & E12).
  pose proof Hread as (Hsi & _ & Hv & Hcl & Hca & _). rewrite -(kept_created_at_exact _ Hca).
  unfold decrypt_current_secret_version_with_keyring, validate_decrypt_input in Hdec. inv_ok.
  match goal with H : verify_stored_aad_matches_row _ ?a = Ok ?u |- _ =>
    destruct u; rename H into Hver; assert (AadV1_wf a) as Hwf by exact (conj Hsi (conj Hv (conj Hcl Hca)));
    pose proof (verify_stored_aad_sound _ _ Hwf Hver) as Hst end.
  unfold verify_stored_aad_matches_row in Hver. rewrite Hst in Hver. cbn [map_err mbind result_bind] in Hver. inv_ok.
  match goal with H : AadV1_canonical_bytes (row_aad_from_input _) = Ok _ |- _ => rename H into Hbytes end.
  unfold parse_restore_test_sample. rewrite I2 E1 SecretId_parse_canonical // I3 E6 parse_secret_version_wf //.
  cbn [map_err mbind result_bind].
  unfold Classification_new. rewrite I9 E4 Hcl. cbn [map_err mbind result_bind].
  rewrite I10 (CreatedAt_round_trip _ _ Hca E5). cbn [fmap result_fmap map_err mbind result_bind].
  cbn [row_of_prepared dec_aad_context] in Hst. rewrite I8 E12 Hst. cbn [map_err mbind result_bind]. rewrite Hbytes.
  cbn [map_err mbind result_bind].
  match goal with |- context [AadV1_from_row_metadata ?a ?b ?c ?d ?e] => set (row_aad := AadV1_from_row_metadata a b c d e) end.
  assert (kept_created_at (prep_created_at p) = prep_created_at p ↔
    row_aad = row_aad_from_input (row_of_prepared p (claims_for_restore_test_only (prep_owner_user_id p)))) as Haad.
  { subst row_aad. unfold row_aad_from_input, AadV1_from_row_metadata. cbn.
    destruct (prep_classification p). cbn. split; [by intros ->|]. by intros [= ?]. }
  split.
  - intros E. rewrite (proj1 Haad E) Hbytes. cbn [map_err mbind result_bind]. rewrite bool_decide_eq_true_2 //. cbn [negb].
    apply build_version_columns; [done|]. split; cbn; try congruence.
    by rewrite I10 (CreatedAt_round_trip _ _ Hca E5) /= E.
  - intros Hne. destruct (AadV1_canonical_bytes row_aad) as [b|e] eqn:Hrow; cbn [map_err mbind result_bind]; [|by eexists].
    match goal with H : (if bool_decide _ then _ else _) = Ok _ |- _ => clear H end.
    case_bool_decide as Hb; [|by eexists]. exfalso. apply Hne, Haad. subst b.
    eapply AadV1_canonical_inj; [| |exact Hrow|exact Hbytes]; [|exact Hwf].
    subst row_aad. split_and!; try done. apply kept_created_at_wf.
Qed.

(** A sampled row can be restored exactly when its time has whole microseconds; otherwise
    its check fails. *)
Lemma written_sample_restorable {LU : UuidLaws P} {LT : TimeLaws P} {LR : RandomLaws P} {LA : AeadLaws P}
    {LH : HexLaws P} {LS : SerdeLaws P} {I : Instants P} {TC : TimestampColumn P} ring created_at row :
  MasterKeyRing_wf ring → KeyVersion_wf (ring_active_key_version ring) → written_sample ring created_at row →
  (whole_microseconds created_at → restorable ring row)
  ∧ (¬ whole_microseconds created_at → ∃ e, parse_restore_test_sample row = Err e).
Proof.
  intros Hring Hkv (owner & pt & p & appender & rid & snapshot & w & params & w' & Hp & <- & Hb & Hst).
  destruct (written_sample_parses _ _ _ _ _ _ _ _ _ _ _ Hring Hkv Hp Hb Hst) as [Hyes Hno]. split; [|done].
  intros Hw. exists (row_of_version p (prep_created_at p)), pt. split; [by apply Hyes|].
  destruct (prepared_from_readable _ _ _ _ Hring Hkv Hp) as [_ Ho].
  pose proof (prepared_from_decrypts _ _ _ _ (claims_for_restore_test_only owner) Hring Hp eq_refl) as Hdec.
  by rewrite -Ho in Hdec.
Qed.

(** Samples among which one has a finer time: the first of them ends the test. *)
Lemma finer_sample_fails {LU : UuidLaws P} {LT : TimeLaws P} {LR : RandomLaws P} {LA : AeadLaws P}
    {LH : HexLaws P} {LS : SerdeLaws P} {I : Instants P} {TC : TimestampColumn P} state rid started n trigger times rows s :
  MasterKeyRing_wf (st_master_key_ring state) → KeyVersion_wf (ring_active_key_version (st_master_key_ring state)) →
  Forall2 (written_sample (st_master_key_ring state)) times rows → ¬ Forall whole_microseconds times →
  (restore_test_samples state rid started n trigger rows s).1
  ∈ [RestoreTestOutcome_Failure "row_validation_failed"; RestoreTestOutcome_Failure "restore_test_audit_record_failed"].
Proof.
  intros Hring Hkv Hrows. revert s. induction Hrows as [|t row times rows Hw Hrows IH]; intros s Hn; [by destruct Hn|].
  destruct (written_sample_restorable _ _ _ Hring Hkv Hw) as [Hyes Hno]. cbn [restore_test_samples].
  destruct (decide (whole_microseconds t)) as [Ht|Ht].
  - destruct (Hyes Ht) as (prepared & pt & Hparse & Hdec). rewrite Hparse Hdec. apply IH. intros H. apply Hn. by constructor.
  - destruct (Hno Ht) as [e Hparse]. rewrite Hparse. unfold restore_test_record, mbind, act_bind, attempted.
    destruct (elapsed_ms started s) as [d s1]. destruct (record_restore_test_audit _ _ _ s1) as [[o|e'] s2]; cbn; set_solver.
Qed.
End maintenance_lemmas.

(** ** Properties *)

Section maintenance_theorems.
Context {P : Platform} {F : FileSystem} {SM : SerdeMembers}.
Context {K : SiemSink} {A : AuditEventAppender}.
Context {Svc : LedgerService} {Rot : KeyRotationService} {MC : MonotonicClock P} {Ck : CheckService}.

(** C26. A restore test passes only when everything it sampled can be restored and its
    success is on record: every row of the sample parses and decrypts under the
    server's keys, and the database took the event and the ledger entry of the
    test. *)
Theorem restore_test_success_is_earned {LE : Ed25519Laws P} state limit trigger s s' :
  run_restore_test_once state limit trigger s = (RestoreTestOutcome_Success, s') →
  ∃ rid rows w1 w2,
    call_sample_restore_test limit w1 = (Ok rows, w2)
    ∧ Forall (restorable (st_master_key_ring state)) rows
    ∧ recorded_in_ledger rid AuditAction_RestoreTest AuditResult_Success LedgerEntryType_RestoreTestCompleted.
Proof.
  unfold run_restore_test_once, mbind, act_bind, attempted. destruct (Instant_now s) as [started s1].
  destruct (in_world RequestId_generate s1) as [[rid|e] s2]; [|done].
  destruct (in_world (call_sample_restore_test limit) s2) as [[rows|e] s3] eqn:Hc;
    [|by intros [[=] _]%restore_test_record_Success].
  apply in_world_Ok in Hc as [Hc _]. intros H. exists rid, rows, s2.2, s3.2. split; [done|].
  destruct rows as [|row rows].
  - apply restore_test_record_Success in H as [_ H]. split; [constructor|by apply H].
  - by apply restore_test_samples_Success in H.
Qed.

(** C27. What the server writes can be restored, as far as the database keeps its time of
    creation.  Take a sample of versions that the two write paths made under the server's
    keys, each with the time it was made at, as the database keeps them.  When every time
    has whole microseconds, the restore test does not fail on them: only the drawing of
    an identifier and the record of the success can still go wrong.  When one of the times
    is finer, the test never succeeds: its row does not match the associated data, and the
    test ends with [row_validation_failed] unless the drawing or the record failed. *)
Theorem written_versions_pass_restore_test {LU : UuidLaws P} {LT : TimeLaws P} {LR : RandomLaws P}
    {LA : AeadLaws P} {LH : HexLaws P} {LS : SerdeLaws P} {I : Instants P} {TC : TimestampColumn P}
    state limit trigger s times rows
    (sampled : ∀ w, (call_sample_restore_test limit w).1 = Ok rows) :
  MasterKeyRing_wf (st_master_key_ring state) →
  KeyVersion_wf (ring_active_key_version (st_master_key_ring state)) →
  Forall2 (written_sample (st_master_key_ring state)) times rows →
  let outcome := (run_restore_test_once state limit trigger s).1 in
  (Forall whole_microseconds times →
   outcome ∈ [RestoreTestOutcome_Success; RestoreTestOutcome_Failure "request_id_generation_failed";
              RestoreTestOutcome_Failure "restore_test_audit_record_failed"])
  ∧ (¬ Forall whole_microseconds times →
     outcome ∈ [RestoreTestOutcome_Failure "row_validation_failed"; RestoreTestOutcome_Failure "request_id_generation_failed";
                RestoreTestOutcome_Failure "restore_test_audit_record_failed"]).
Proof.
  intros Hring Hkv Hrows outcome. subst outcome.
  assert (Forall whole_microseconds times → Forall (restorable (st_master_key_ring state)) rows) as Hall.
  { clear sampled. intros Hw. induction Hrows as [|t row times rows Hrow _ IH]; [constructor|]. apply Forall_cons in Hw as [Ht Hw].
    constructor; [|by apply IH]. by apply (written_sample_restorable _ _ _ Hring Hkv Hrow). }
  unfold run_restore_test_once, mbind, act_bind, attempted. destruct (Instant_now s) as [started s1].
  destruct (in_world RequestId_generate s1) as [[rid|e] s2]; [|cbn; split; intros _; set_solver].
  unfold in_world at 1 2. specialize (sampled s2.2). destruct (call_sample_restore_test limit s2.2) as [r w3]. cbn in sampled. subst r.
  destruct rows as [|row rows].
  - apply Forall2_nil_inv_r in Hrows as ->. split; [intros _|intros Hn; by destruct (Hn (Forall_nil_2 _))].
    unfold restore_test_record, mbind, act_bind, attempted. destruct (elapsed_ms started _) as [d s4].
    destruct (record_restore_test_audit _ _ _ s4) as [[o|e] s5]; cbn; set_solver.
  - split; intros Hw.
    + pose proof (restorable_samples_pass state rid started (Z.of_nat (length (row :: rows))) trigger _ (s2.1, w3) (Hall Hw)).
      set_solver.
    + pose proof (finer_sample_fails state rid started (Z.of_nat (length (row :: rows))) trigger _ _ (s2.1, w3) Hring Hkv Hrows Hw).
      set_solver.
Qed.

(** The verdict of an integrity check is on record before it is given: a clean one
    found no violation, a violation is reported with its number, which is not zero,
    and in both cases the ledger has an entry that says so. *)
Theorem integrity_verdict_is_recorded {LE : Ed25519Laws P} state trigger s r s' :
  run_integrity_check_once state trigger s = (r, s') →
  match r with
  | Ok outcome =>
      is_violation_count (ic_summary outcome) = 0
      ∧ recorded_in_ledger (ic_request_id outcome) AuditAction_IntegrityCheck AuditResult_Success
          LedgerEntryType_IntegrityCheckCompleted
  | Err (IntegrityCheckError_ViolationDetected n) =>
      n ≠ 0 ∧ ∃ rid, recorded_in_ledger rid AuditAction_IntegrityCheck AuditResult_Failure
          LedgerEntryType_IntegrityCheckCompleted
  | Err _ => True
  end.
Proof.
  unfold run_integrity_check_once, mbind, io_bind, io_match, io_map_err, infallible, lift.
  destruct (in_world RequestId_generate s) as [[rid|e] s1]; cbn [map_err]; [|by intros [= <- _]].
  destruct (Instant_now s1) as [started s2]. destruct (in_world call_integrity_check s2) as [called s3].
  destruct (elapsed_ms started s3) as [d s4]. destruct called as [summary|e].
  - destruct (Z.eqb_spec (is_violation_count summary) 0) as [Hz|Hz].
    + destruct (integrity_check_record _ _ _ _ _ _ _ s4) as [[o|e] s5] eqn:Hr.
      * intros [= <- _]. split; [done|]. eapply integrity_check_recorded; [|exact Hr]; done.
      * intros [= <- _]. apply integrity_check_record_Err in Hr. by destruct e.
    + destruct (integrity_check_record _ _ _ _ _ _ _ s4) as [[o|e] s5] eqn:Hr.
      * intros [= <- _]. split; [done|]. exists rid. eapply integrity_check_recorded; [|exact Hr]; done.
      * intros [= <- _]. apply integrity_check_record_Err in Hr. by destruct e.
  - destruct (integrity_check_record _ _ _ _ _ _ _ s4) as [[o|e'] s5] eqn:Hr; intros [= <- _]; [done|].
    apply integrity_check_record_Err in Hr. by destruct e'.
Qed.
End maintenance_theorems.
