(* ===== verification/Scheduler.v ===== *)
(** * The scheduler ([src/server/scheduler.rs])

    Once a month the whole ledger is verified, the digest of the month before is made
    and exported to the archive; once a quarter the restore test and two reminders
    run.  A job that succeeded is not run again for its period; a job that failed is
    tried again at the next tick of the day.  The scheduler is the only task that
    reaches its state, so its state is threaded through the jobs. *)

From S2P Require Import Prelude RustStd Json Platform Reference Errors Types AuditTypes LedgerTypes LedgerPayload LedgerEntry LedgerChain LedgerRpc LedgerAppender ReadModel Digest DigestUseCases Files Archive AuditEvent AuditBuilders Incident KeyRotation AuditFallback App ExportUseCase Siem AuditReporter Maintenance.

(** ** Dates *)

Inductive Month :=
| January | February | March | April | May | June
| July | August | September | October | November | December.
(** [u8::from]. *)
Definition Month_number (m : Month) : Z :=
  match m with
  | January => 1 | February => 2 | March => 3 | April => 4 | May => 5 | June => 6
  | July => 7 | August => 8 | September => 9 | October => 10 | November => 11 | December => 12
  end.

(** The calendar of [time::OffsetDateTime]. *)
Class Calendar (P : Platform) := {
  dt_year : DateTime → Z;
  dt_month : DateTime → Month;
  dt_day : DateTime → Z;
  dt_hour : DateTime → Z;
}.

(** [{value:0width$}]: zeros between the sign and the digits. *)
Fixpoint zeros (n : nat) : str := match n with O => EmptyString | S n => String "0" (zeros n) end.
Definition pad_int (width : Z) (value : Z) : str :=
  let sign := if value <? 0 then "-"%string else EmptyString in
  let digits := int_to_string (Z.abs value) in
  sign +:+ zeros (Z.to_nat (width - str_len sign - str_len digits)) +:+ digits.

Section dates.
Context {P : Platform} {C : Calendar P}.

Definition monthly_due (now : DateTime) (monthly_day monthly_hour_utc : Z) : bool :=
  (dt_day now =? monthly_day) && (monthly_hour_utc <=? dt_hour now).

Definition quarterly_due (now : DateTime) (monthly_day quarterly_hour_utc : Z) : bool :=
  match dt_month now with January | April | July | October => true | _ => false end
  && (dt_day now =? monthly_day) && (quarterly_hour_utc <=? dt_hour now).

Definition previous_month_period (now : DateTime) : result LedgerError MonthlyDigestPeriod :=
  let year := dt_year now in
  let month := Month_number (dt_month now) - 1 in
  let '(year, month) := if month =? 0 then (year - 1, 12) else (year, month) in
  MonthlyDigestPeriod_parse (pad_int 4 year +:+ "-" +:+ pad_int 2 month).

Definition quarter_period_key (now : DateTime) : str :=
  let quarter := match dt_month now with
    | January | February | March => 1
    | April | May | June => 2
    | July | August | September => 3
    | October | November | December => 4
    end in
  pad_int 4 (dt_year now) +:+ "-Q" +:+ int_to_string quarter.
End dates.

(** ** Jobs and their state *)

(** Durations in nanoseconds. *)
Record SchedulerConfig := mk_SchedulerConfig {
  sc_startup_delay : Z;
  sc_poll_interval : Z;
  sc_monthly_day : Z;
  sc_monthly_hour_utc : Z;
  sc_quarterly_hour_utc : Z;
  sc_restore_test_sample_limit : Z;
  sc_local_archive_dir : str;
}.

Inductive ScheduledJobName :=
| LedgerHashChainFullVerify
| LedgerSignatureFullVerify
| MonthlyDigestGenerate
| ArchiveExport
| RestoreTest
| SignatureKeyReviewReminder
| AuditorPermissionReviewReminder.
#[global] Instance ScheduledJobName_eq_dec : EqDecision ScheduledJobName.
Proof. solve_decision. Defined.
Definition ScheduledJobName_as_str (name : ScheduledJobName) : str :=
  match name with
  | LedgerHashChainFullVerify => "ledger_hash_chain_full_verify"
  | LedgerSignatureFullVerify => "ledger_signature_full_verify"
  | MonthlyDigestGenerate => "monthly_digest_generate"
  | ArchiveExport => "archive_export"
  | RestoreTest => "restore_test"
  | SignatureKeyReviewReminder => "signature_key_review_reminder"
  | AuditorPermissionReviewReminder => "auditor_permission_review_reminder"
  end.

Record JobRunKey := mk_JobRunKey { jk_job_name : ScheduledJobName; jk_period_key : str }.
#[global] Instance JobRunKey_eq_dec : EqDecision JobRunKey.
Proof. solve_decision. Defined.

(** The flags of the seven locks, by the job they belong to. *)
Record SchedulerRuntimeState := mk_SchedulerRuntimeState {
  rs_completed : list JobRunKey;
  rs_running : ScheduledJobName → bool;
}.
Definition SchedulerRuntimeState_new : SchedulerRuntimeState := mk_SchedulerRuntimeState [] (λ _, false).
Definition set_running (job_name : ScheduledJobName) (flag : bool) (st : SchedulerRuntimeState) :
    SchedulerRuntimeState :=
  mk_SchedulerRuntimeState (rs_completed st)
    (λ name, if bool_decide (name = job_name) then flag else rs_running st name).
(** [compare_exchange(false, true)]: the lock is taken when it was free. *)
Definition try_enter (job_name : ScheduledJobName) (st : SchedulerRuntimeState) : option SchedulerRuntimeState :=
  if rs_running st job_name then None else Some (set_running job_name true st).
(** The guard is dropped. *)
Definition release (job_name : ScheduledJobName) (st : SchedulerRuntimeState) : SchedulerRuntimeState :=
  set_running job_name false st.
(** [HashSet::insert]. *)
Definition complete (key : JobRunKey) (st : SchedulerRuntimeState) : SchedulerRuntimeState :=
  if bool_decide (key ∈ rs_completed st) then st
  else mk_SchedulerRuntimeState (key :: rs_completed st) (rs_running st).

Section once.
Context {P : Platform}.

(** A step of the scheduler: it cannot fail. *)
Definition sched (T : Type) : Type :=
  SchedulerRuntimeState * (Shared * World) → T * (SchedulerRuntimeState * (Shared * World)).
#[global] Instance sched_ret : MRet sched := λ T a s, (a, s).
#[global] Instance sched_bind : MBind sched := λ T U f m s, let '(a, s') := m s in f a s'.

Definition run_once_per_period {T} (key : JobRunKey) (run : proc str T) : sched (result str (option T)) :=
  λ s,
  let '(st, s0) := s in
  if bool_decide (key ∈ rs_completed st) then (Ok None, s)
  else match try_enter (jk_job_name key) st with
  | None => (Err "scheduler_job_already_running"%string, s)
  | Some entered =>
      let '(res, s1) := run s0 in
      let left := release (jk_job_name key) entered in
      match res with
      | Ok output => (Ok (Some output), (complete key left, s1))
      | Err error_code => (Err error_code, (left, s1))
      end
  end.
(** A step outside the scheduler's state. *)
Definition outside {E T} (m : proc E T) : sched (result E T) := λ s,
  let '(r, s') := m s.2 in (r, (s.1, s')).
End once.

(** ** Verification of the ledger's rows *)

Record LedgerVerificationSummary := mk_LedgerVerificationSummary {
  sv_valid : bool;
  sv_checked_count : Z;
  sv_error_code : option str;
}.

Definition entry_count (len : nat) : Z := default u64_max (u_try_from u64_max (Z.of_nat len)).

Section rows.
Context {P : Platform}.

Definition anomaly (checked_count : Z) (error_code : str) : result str LedgerVerificationSummary :=
  Ok (mk_LedgerVerificationSummary false checked_count (Some error_code)).

(** The first loop: [Some] is the summary it returns. *)
Fixpoint restore_rows (checked : nat) (rows : list LedgerVerificationMaterialRow) :
    result str (LedgerVerificationSummary + list SignedLedgerEntry) :=
  match rows with
  | [] => Ok (inr [])
  | row :: rows =>
      if ledger_payload_contains_forbidden_key (row_payload row)
      then inl <$> anomaly (entry_count checked) "ledger_payload_forbidden_key"
      else
        entry ← try_restore_signed_ledger_entry row !? (λ _, "ledger_entry_restore_failed"%string);
        rest ← restore_rows (S checked) rows;
        Ok match rest with inl summary => inl summary | inr entries => inr (entry :: entries) end
  end.

(** The second loop and the check of the head after it; [count] entries in all. *)
Fixpoint check_hash_chain (count : Z) (chain_head : LedgerChainHead) (previous_sequence_no : Z)
    (previous_hash : LedgerHash) (entries : list SignedLedgerEntry) : result str LedgerVerificationSummary :=
  match entries with
  | [] =>
      if negb (previous_sequence_no =? last_sequence_no chain_head)
         || negb (bool_decide (previous_hash = last_entry_hash chain_head))
      then anomaly count "ledger_chain_head_mismatch"
      else Ok (mk_LedgerVerificationSummary true count None)
  | entry :: entries =>
      expected_sequence_no ← ok_or (u_checked_add u64_max previous_sequence_no 1) "ledger_sequence_overflow"%string;
      let actual_sequence_no := se_sequence_no entry in
      if negb (actual_sequence_no =? expected_sequence_no) then anomaly count "ledger_sequence_gap" else
      if negb (bool_decide (se_previous_entry_hash entry = previous_hash))
      then anomaly count "ledger_previous_hash_mismatch" else
      if negb (bool_decide (SignedLedgerEntry_recompute_entry_hash entry = se_entry_hash entry))
      then anomaly count "ledger_entry_hash_mismatch" else
      check_hash_chain count chain_head actual_sequence_no (se_entry_hash entry) entries
  end.

Definition verify_hash_chain_rows (chain_head : LedgerChainHead) (rows : list LedgerVerificationMaterialRow) :
    result str LedgerVerificationSummary :=
  restored ← restore_rows 0 rows;
  match restored with
  | inl summary => Ok summary
  | inr entries =>
      check_hash_chain (entry_count (length entries)) chain_head (last_sequence_no LedgerChainHead_genesis)
        (last_entry_hash LedgerChainHead_genesis) entries
  end.

(** [total] rows in all. *)
Fixpoint check_signature_rows (total checked_count : Z) (rows : list LedgerVerificationMaterialRow) :
    result str LedgerVerificationSummary :=
  match rows with
  | [] => Ok (mk_LedgerVerificationSummary true checked_count None)
  | row :: rows =>
      if ledger_payload_contains_forbidden_key (row_payload row)
      then anomaly checked_count "ledger_payload_forbidden_key"
      else
        entry ← try_restore_signed_ledger_entry row !? (λ _, "ledger_entry_restore_failed"%string);
        key ← try_restore_verifying_key row !? (λ _, "ledger_key_restore_failed"%string);
        match key with
        | None => anomaly total "ledger_signature_key_missing"
        | Some key =>
            match SignedLedgerEntry_verify_signature entry key with
            | Err _ => anomaly total "ledger_signature_invalid"
            | Ok _ => check_signature_rows total (checked_count + 1) rows
            end
        end
  end.
Definition verify_signature_rows (rows : list LedgerVerificationMaterialRow) :
    result str LedgerVerificationSummary :=
  check_signature_rows (entry_count (length rows)) 0 rows.

Context {Svc : LedgerService} {DS : DigestService}.

Definition fetch_full_ledger_material_rows :
    io World str (LedgerChainHead * list LedgerVerificationMaterialRow) :=
  chain_head ← fetch_ledger_chain_head !?? (λ _, "ledger_chain_head_fetch_failed"%string);
  if last_sequence_no chain_head =? 0 then mret (chain_head, []) else
  end_ ← lift (LedgerSequenceNo_new (last_sequence_no chain_head) !? (λ _, "ledger_sequence_invalid"%string));
  start ← lift (LedgerSequenceNo_new 1 !? (λ _, "ledger_sequence_invalid"%string));
  rows ← export_ledger_verification_materials start end_ !?? (λ _, "ledger_export_failed"%string);
  mret (chain_head, rows).

Definition verify_full_ledger_hash_chain : io World str LedgerVerificationSummary :=
  '(chain_head, rows) ← fetch_full_ledger_material_rows;
  lift (verify_hash_chain_rows chain_head rows).

Definition verify_full_ledger_signatures : io World str LedgerVerificationSummary :=
  '(_, rows) ← fetch_full_ledger_material_rows;
  lift (verify_signature_rows rows).

Definition signed_digest_from_materials (materials : MonthlyDigestVerificationMaterials) :
    result str SignedMonthlyDigest :=
  canonical_bytes ← build_monthly_digest_canonical_form (vm_target_year_month materials)
      (vm_start_sequence_no materials) (vm_end_sequence_no materials) (vm_start_entry_hash materials)
      (vm_end_entry_hash materials) (vm_stored_entry_count materials) (vm_digest_generated_at materials)
      (vm_signature_key_version materials)
    !? (λ _, "monthly_digest_canonical_build_failed"%string);
  Ok (mk_SignedMonthlyDigest (vm_target_year_month materials) (vm_start_sequence_no materials)
    (vm_end_sequence_no materials) (vm_start_entry_hash materials) (vm_end_entry_hash materials)
    (vm_stored_entry_count materials) (vm_digest_generated_at materials) (vm_signature_key_version materials)
    canonical_bytes (DigestHash_from_canonical_bytes canonical_bytes) (vm_signature materials)).

Definition fetch_signed_digest (period : MonthlyDigestPeriod) : io World str SignedMonthlyDigest :=
  materials ← fetch_monthly_digest_for_verification (MonthlyDigestPeriod_as_str period)
    !?? (λ _, "monthly_digest_fetch_failed"%string);
  materials ← lift (ok_or materials "monthly_digest_not_found"%string);
  lift (signed_digest_from_materials materials).
End rows.

(** ** The jobs *)

Section jobs.
Context {P : Platform} {C : Calendar P} {F : FileSystem} {WF : WholeFiles} {SM : SerdeMembers}.
Context {K : SiemSink} {A : AuditEventAppender} {IS : IncidentService} {NS : NotificationSink}.
Context {Svc : LedgerService} {DS : DigestService} {Rot : KeyRotationService} {MC : MonotonicClock P} {Ck : CheckService}.

Definition append_scheduler_ledger_entry (state : AppState) (job_name : ScheduledJobName) (res : AuditResult)
    (error_code : option str) (period : option MonthlyDigestPeriod) (duration_ms : Z) (request_id : RequestId)
    (source_event_at : SourceEventAt) (source_event_id : option AuditEventId) : io World str unit :=
  let entry_type := LedgerEntryType_SchedulerJobCompleted in
  payload ← lift (LedgerPayload_new entry_type (JObject (map_of_list (
    [("duration_ms", json_uint duration_ms);
     ("job_name", JString (ScheduledJobName_as_str job_name));
     ("trigger", JString (AuditTrigger_as_str AuditTrigger_Background))]%string
    ++ opt_field "target_year_month" (JString ∘ MonthlyDigestPeriod_as_str <$> period))))
    !? (λ _, "scheduler_ledger_payload_failed"%string));
  let ledger_result := match res with
    | AuditResult_Success => LedgerResult_Success
    | AuditResult_Failure => LedgerResult_Failure
    end in
  ledger_entry_id ← LedgerEntryId_generate !?? (λ _, "scheduler_ledger_id_failed"%string);
  draft ← lift (LedgerAppendDraft_new (mk_LedgerAppendDraft ledger_entry_id entry_type source_event_at request_id
    source_event_id None None None None ledger_result error_code payload)
    !? (λ _, "scheduler_ledger_draft_failed"%string));
  _ ← append (st_ledger_appender state) draft !?? (λ _, "scheduler_ledger_append_failed"%string);
  mret tt.

Definition record_scheduler_job_result (state : AppState) (job_name : ScheduledJobName) (res : AuditResult)
    (error_code : option str) (period : option MonthlyDigestPeriod) (duration_ms : Z) : io World str unit :=
  request_id ← RequestId_generate !?? (λ _, "scheduler_request_id_failed"%string);
  source_event_at ← SourceEventAt_now_utc !?? (λ _, "scheduler_source_event_at_failed"%string);
  let b := SchedulerJobMetadata_new (ScheduledJobName_as_str job_name) AuditTrigger_Background source_event_at in
  let b := SchedulerJobMetadata_with_duration_ms b duration_ms in
  let b := match error_code with Some code => SchedulerJobMetadata_with_error_code b code | None => b end in
  let b := match period with
    | Some period => SchedulerJobMetadata_with_target_year_month b (MonthlyDigestPeriod_as_str period)
    | None => b
    end in
  metadata ← lift (SchedulerJobMetadata_build b !? (λ _, "scheduler_audit_metadata_failed"%string));
  audit_event_id ← AuditEventId_generate !?? (λ _, "scheduler_audit_event_id_failed"%string);
  event ← lift (AuditEvent_new (mk_AuditEventParts audit_event_id request_id None None AuditAction_SchedulerJob
    None res None metadata) !? (λ _, "scheduler_audit_event_failed"%string));
  _ ← record (st_audit_fallback_store state) event !?? (λ _, "scheduler_audit_record_failed"%string);
  append_scheduler_ledger_entry state job_name res error_code period duration_ms request_id source_event_at
    (Some (ev_audit_event_id (event_parts event))).

Definition record_precondition_failure_job (state : AppState) (job_name : ScheduledJobName)
    (period : option MonthlyDigestPeriod) (error_code : str) : proc str unit :=
  _ ← in_world (record_scheduler_job_result state job_name AuditResult_Failure (Some error_code) period 0);
  lift (Err error_code).

Definition record_scheduler_incident {E} (state : AppState) (job_name : ScheduledJobName)
    (incident_type : IncidentType) (error_code : str) (period : option MonthlyDigestPeriod) : io World E unit :=
  let detection_source := ScheduledJobName_as_str job_name in
  let input := IncidentRecordInput_new incident_type (severity_for_incident incident_type) detection_source
    (dedupe_key incident_type detection_source period) error_code in
  let input := match period with Some period => with_target_year_month input period | None => input end in
  logged (incident_record (st_ledger_appender state) input).

Definition record_mapped_scheduler_incident {E} (state : AppState) (job_name : ScheduledJobName)
    (error_code : option str) (period : option MonthlyDigestPeriod) : io World E unit :=
  match error_code with
  | None => mret tt
  | Some error_code =>
      match scheduler_incident_type error_code with
      | None => mret tt
      | Some incident_type => record_scheduler_incident state job_name incident_type error_code period
      end
  end.

(** What the two verification jobs share; [fallback] is the code of a summary
    that has none. *)
Definition verify_verdict (fallback : str) (outcome : result str LedgerVerificationSummary) :
    AuditResult * option str :=
  match outcome with
  | Ok summary =>
      if sv_valid summary then (AuditResult_Success, None)
      else (AuditResult_Failure, match sv_error_code summary with Some code => Some code | None => Some fallback end)
  | Err error_code => (AuditResult_Failure, Some error_code)
  end.
Definition run_verify_job (state : AppState) (verification : io World str LedgerVerificationSummary)
    (fallback : str) (job_name : ScheduledJobName) (period : option MonthlyDigestPeriod) : proc str unit :=
  started_at ← infallible Instant_now;
  outcome ← infallible (attempted (in_world verification));
  let '(res, error_code) := verify_verdict fallback outcome in
  duration_ms ← infallible (elapsed_ms started_at);
  _ ← in_world (record_scheduler_job_result state job_name res error_code period duration_ms);
  match res with
  | AuditResult_Success => mret tt
  | AuditResult_Failure =>
      _ ← in_world (record_mapped_scheduler_incident state job_name error_code period);
      lift (Err (default fallback error_code))
  end.
Definition run_full_ledger_hash_chain_verify_job (state : AppState) :
    ScheduledJobName → option MonthlyDigestPeriod → proc str unit :=
  run_verify_job state verify_full_ledger_hash_chain "ledger_verification_failed".
Definition run_full_ledger_signature_verify_job (state : AppState) :
    ScheduledJobName → option MonthlyDigestPeriod → proc str unit :=
  run_verify_job state verify_full_ledger_signatures "ledger_signature_verification_failed".

(** The end of a job: its result is recorded. *)
Definition job_recorded (state : AppState) (job_name : ScheduledJobName) (res : AuditResult)
    (error_code : option str) (period : MonthlyDigestPeriod) (started_at : Z) : proc str unit :=
  duration_ms ← infallible (elapsed_ms started_at);
  in_world (record_scheduler_job_result state job_name res error_code (Some period) duration_ms).
Definition job_failed {T} (state : AppState) (job_name : ScheduledJobName) (error_code : str)
    (period : MonthlyDigestPeriod) (started_at : Z) : proc str T :=
  _ ← job_recorded state job_name AuditResult_Failure (Some error_code) period started_at;
  lift (Err error_code).

Definition run_monthly_digest_generate_job (state : AppState) (period : MonthlyDigestPeriod) :
    proc str SignedMonthlyDigest :=
  let failed {T} (code : str) : Z → proc str T :=
    job_failed state MonthlyDigestGenerate code period in
  started_at ← infallible Instant_now;
  request_id ← in_world (RequestId_generate !?? (λ _, "scheduler_request_id_failed"%string));
  source_event_at ← in_world (SourceEventAt_now_utc !?? (λ _, "scheduler_source_event_at_failed"%string));
  generated ← infallible (attempted (in_world (generate_monthly_digest (st_ledger_appender state)
    (mk_GenerateMonthlyDigestInput period source_event_at request_id))));
  signed_digest ← match generated with
    | Ok digest => mret digest
    | Err error =>
        if String.eqb (GenerateMonthlyDigestError_as_error_code error) "monthly_digest_duplicate" then
          fetched ← infallible (attempted (in_world (fetch_signed_digest period)));
          match fetched with
          | Ok digest => mret digest
          | Err _ => failed "monthly_digest_existing_fetch_failed"%string started_at
          end
        else
          _ ← in_world (record_monthly_digest_failure_audit (st_audit_fallback_store state) request_id period
            error source_event_at);
          failed "monthly_digest_generate_failed"%string started_at
    end;
  _ ← job_recorded state MonthlyDigestGenerate AuditResult_Success None period started_at;
  mret signed_digest.

Definition run_archive_export_job (state : AppState) (config : SchedulerConfig)
    (signed_digest : SignedMonthlyDigest) : proc str unit :=
  started_at ← infallible Instant_now;
  let period := dg_period signed_digest in
  archive_request_id ← in_world (RequestId_generate !?? (λ _, "scheduler_request_id_failed"%string));
  archived_at ← in_world (SourceEventAt_now_utc !?? (λ _, "scheduler_source_event_at_failed"%string));
  exported ← infallible (attempted (in_world (export_digest_to_archive_with_incident
    (B := LocalFileArchiveBackend (sc_local_archive_dir config)) (st_audit_fallback_store state) (st_ledger_appender state)
    signed_digest archive_request_id archived_at)));
  match exported with
  | Err _ => job_failed state ArchiveExport "archive_export_failed"%string period started_at
  | Ok _ => job_recorded state ArchiveExport AuditResult_Success None period started_at
  end.

Definition run_quarterly_job (state : AppState) (config : SchedulerConfig) (job_name : ScheduledJobName) :
    proc str unit :=
  let recorded res error_code := in_world (record_scheduler_job_result state job_name res error_code None 0) in
  match job_name with
  | RestoreTest =>
      outcome ← infallible (run_restore_test_once state (sc_restore_test_sample_limit config) AuditTrigger_Background);
      match outcome with
      | RestoreTestOutcome_Success => recorded AuditResult_Success None
      | RestoreTestOutcome_Failure error_code =>
          _ ← recorded AuditResult_Failure (Some error_code);
          lift (Err error_code)
      end
  | SignatureKeyReviewReminder | AuditorPermissionReviewReminder => recorded AuditResult_Success None
  | _ => mret tt
  end.

(** ** A tick *)

Definition once {T} (job_name : ScheduledJobName) (period : MonthlyDigestPeriod) (run : proc str T) :
    sched (result str (option T)) :=
  run_once_per_period (mk_JobRunKey job_name (MonthlyDigestPeriod_as_str period)) run.

(** The jobs of the month, after the period is known; [true] when the tick ends
    there. *)
Definition run_monthly_jobs (state : AppState) (config : SchedulerConfig) (period : MonthlyDigestPeriod) :
    sched bool :=
  let skipped job_name error_code :=
    once job_name period (record_precondition_failure_job state job_name (Some period) error_code) in
  hash_result ← once LedgerHashChainFullVerify period
    (run_full_ledger_hash_chain_verify_job state LedgerHashChainFullVerify (Some period));
  signature_result ← once LedgerSignatureFullVerify period
    (run_full_ledger_signature_verify_job state LedgerSignatureFullVerify (Some period));
  if negb (is_ok hash_result) || negb (is_ok signature_result) then
    _ ← skipped MonthlyDigestGenerate "ledger_verification_precondition_failed"%string;
    _ ← skipped ArchiveExport "ledger_verification_precondition_failed"%string;
    mret true
  else
  digest_result ← once MonthlyDigestGenerate period (run_monthly_digest_generate_job state period);
  signed_digest ← match digest_result with
    | Ok (Some digest) => mret (Ok digest)
    | Ok None => outside (in_world (fetch_signed_digest period))
    | Err _ => mret (Err "monthly_digest_generate_failed"%string)
    end;
  match signed_digest with
  | Err error_code => _ ← skipped ArchiveExport error_code; mret true
  | Ok digest => _ ← once ArchiveExport (dg_period digest) (run_archive_export_job state config digest); mret false
  end.

Fixpoint run_quarterly_jobs (state : AppState) (config : SchedulerConfig) (quarter_key : str)
    (jobs : list ScheduledJobName) : sched unit :=
  match jobs with
  | [] => mret tt
  | job_name :: jobs =>
      _ ← run_once_per_period (mk_JobRunKey job_name quarter_key) (run_quarterly_job state config job_name);
      run_quarterly_jobs state config quarter_key jobs
  end.

Definition run_due_jobs (state : AppState) (config : SchedulerConfig) (now : DateTime) : sched unit :=
  ended ← (if monthly_due now (sc_monthly_day config) (sc_monthly_hour_utc config) then
      match previous_month_period now with
      | Err _ => mret true
      | Ok period => run_monthly_jobs state config period
      end
    else mret false);
  if (ended : bool) then mret tt else
  if quarterly_due now (sc_monthly_day config) (sc_quarterly_hour_utc config) then
    run_quarterly_jobs state config (quarter_period_key now)
      [RestoreTest; SignatureKeyReviewReminder; AuditorPermissionReviewReminder]
  else mret tt.

(** ** The loop *)

(** What ends a wait: the shutdown channel changed ([stop]: it closed or now says
    so), or the timer. *)
Inductive Wake := Wake_Shutdown (stop : bool) | Wake_Timer.

Definition sleep_until_first_run (startup_delay : Z) (wake : Wake) : bool :=
  if startup_delay =? 0 then false
  else match wake with Wake_Shutdown stop => stop | Wake_Timer => false end.

Definition sched_now : sched DateTime := λ s, let '(now, s') := now_utc s.2 in (now, (s.1, s')).
Definition tick (state : AppState) (config : SchedulerConfig) : sched unit :=
  now ← sched_now;
  run_due_jobs state config now.

Fixpoint scheduler_loop (state : AppState) (config : SchedulerConfig) (wakes : list Wake) : sched unit :=
  match wakes with
  | [] => mret tt
  | Wake_Shutdown true :: _ => mret tt
  | Wake_Shutdown false :: wakes => scheduler_loop state config wakes
  | Wake_Timer :: wakes => _ ← tick state config; scheduler_loop state config wakes
  end.

(** The loop over what ends its waits, as far as it has gone. *)
Definition run_scheduler_loop (state : AppState) (config : SchedulerConfig) (first : Wake) (wakes : list Wake)
    (s : Shared * World) : SchedulerRuntimeState * (Shared * World) :=
  if sleep_until_first_run (sc_startup_delay config) first then (SchedulerRuntimeState_new, s)
  else ((_ ← tick state config; scheduler_loop state config wakes) (SchedulerRuntimeState_new, s)).2.
End jobs.

(** ** Lemmas: the rows *)

Section row_lemmas.
Context {P : Platform}.
Implicit Types (row : LedgerVerificationMaterialRow) (rows : list LedgerVerificationMaterialRow).

(** A verification that found nothing. *)
Definition found_valid (r : result str LedgerVerificationSummary) : Prop :=
  ∃ summary, r = Ok summary ∧ sv_valid summary = true.

Lemma found_valid_anomaly count code : ¬ found_valid (anomaly count code).
Proof. by intros (summary & [= <-] & ?). Qed.
Lemma found_valid_Err e : ¬ found_valid (Err e).
Proof. by intros (summary & ? & ?). Qed.

Lemma restored_entry_fields row e :
  try_restore_signed_ledger_entry row = Ok e →
  ledger_payload_contains_forbidden_key (row_payload row) = false
  ∧ se_signature_key_version e = row_signature_key_version row.
Proof.
  unfold try_restore_signed_ledger_entry, SignedLedgerEntry_from_stored_parts. intros H. inv_ok.
  match goal with H : LedgerPayload_new _ _ = _ |- _ => apply LedgerPayload_new_Ok in H as (Hp & _ & Hr & _) end.
  split; [|done]. by rewrite search_rejects Hp bool_decide_eq_true_2.
Qed.

Lemma restore_rows_Ok checked rows entries :
  restore_rows checked rows = Ok (inr entries) ↔ try_map try_restore_signed_ledger_entry rows = Ok entries.
Proof.
  rewrite try_map_Ok. revert checked entries. induction rows as [|row rows IH]; intros checked entries; cbn [restore_rows].
  { split; [intros [= <-]; constructor|by intros ->%Forall2_nil_inv_l]. }
  split.
  - case_if; [done|]. intros H. apply result_bind_Ok in H as (e & He%map_err_Ok & H).
    apply result_bind_Ok in H as (rest & Hr & H). destruct rest as [|l]; simplify_eq. constructor; [done|by eapply IH].
  - intros (e & l & He & Hl & ->)%Forall2_cons_inv_l. destruct (restored_entry_fields _ _ He) as [-> _].
    rewrite He. cbn [map_err mbind result_bind]. by rewrite (proj2 (IH _ _) Hl).
Qed.

(** The rows that stop the first loop never count as valid. *)
Lemma restore_rows_inl checked rows summary :
  restore_rows checked rows = Ok (inl summary) →
  ∃ count, summary = mk_LedgerVerificationSummary false count (Some "ledger_payload_forbidden_key"%string).
Proof.
  revert checked. induction rows as [|row rows IH]; intros checked; cbn [restore_rows]; [done|].
  case_if; [intros [= <-]; by eexists|]. intros H. apply result_bind_Ok in H as (e & _ & H).
  apply result_bind_Ok in H as (rest & Hr & H). destruct rest; simplify_eq. by eapply IH.
Qed.

Lemma verify_hash_chain_rows_valid head rows :
  found_valid (verify_hash_chain_rows head rows) ↔
  ∃ entries, try_map try_restore_signed_ledger_entry rows = Ok entries
    ∧ found_valid (check_hash_chain (entry_count (length entries)) head 0 LedgerHash_genesis entries).
Proof.
  unfold verify_hash_chain_rows. change (last_sequence_no LedgerChainHead_genesis) with 0.
  change (last_entry_hash LedgerChainHead_genesis) with LedgerHash_genesis. split.
  - destruct (restore_rows 0 rows) as [[summary|entries]|e] eqn:Hr; cbn [mbind result_bind].
    + apply restore_rows_inl in Hr as (count & ->). by intros (s & [= <-] & ?).
    + apply restore_rows_Ok in Hr. eauto.
    + by intros ?%found_valid_Err.
  - intros (entries & Hr%(restore_rows_Ok 0) & Hv). by rewrite Hr.
Qed.

(** The second loop and the rows' signatures, read as the chain's specification. *)
Definition hash_linked (n : Z) (h : LedgerHash) (e : SignedLedgerEntry) : Prop :=
  se_sequence_no e = n + 1 ∧ n + 1 ≤ u64_max ∧ se_previous_entry_hash e = h
  ∧ LedgerHash_from_canonical_payload (se_canonical_payload e) = se_entry_hash e.

Lemma check_hash_chain_cons count head n h e entries :
  found_valid (check_hash_chain count head n h (e :: entries)) ↔
  hash_linked n h e ∧ found_valid (check_hash_chain count head (se_sequence_no e) (se_entry_hash e) entries).
Proof.
  cbn [check_hash_chain]. unfold hash_linked, SignedLedgerEntry_recompute_entry_hash. split.
  - destruct (u_checked_add u64_max n 1) as [m|] eqn:Hm; cbn [ok_or mbind result_bind]; [|by intros ?%found_valid_Err].
    apply u_checked_add_Some in Hm as [-> ?]. do 3 (case_if; [by intros ?%found_valid_anomaly|]). b2p. naive_solver.
  - intros ((Hs & Hn & Hp & Hh) & Hv).
    assert (u_checked_add u64_max n 1 = Some (n + 1)) as -> by (by apply u_checked_add_Some).
    cbn [ok_or mbind result_bind]. rewrite Hs Z.eqb_refl bool_decide_eq_true_2 // bool_decide_eq_true_2 //. by rewrite -Hs.
Qed.
Lemma check_hash_chain_nil count head n h :
  found_valid (check_hash_chain count head n h []) ↔ head = mk_LedgerChainHead n h.
Proof.
  cbn [check_hash_chain]. destruct head as [m g]. cbn. split.
  - case_if; [by intros ?%found_valid_anomaly|]. b2p. by subst.
  - intros [= -> ->]. rewrite Z.eqb_refl bool_decide_eq_true_2 //. by eexists.
Qed.

Definition row_signed row : Prop :=
  ∃ e key, try_restore_signed_ledger_entry row = Ok e ∧ try_restore_verifying_key row = Ok (Some key)
    ∧ signed_by_key e key.
Lemma check_signature_rows_valid total checked rows :
  found_valid (check_signature_rows total checked rows) ↔ Forall row_signed rows.
Proof.
  revert checked. induction rows as [|row rows IH]; intros checked; cbn [check_signature_rows].
  { split; [constructor|]. by eexists. }
  rewrite Forall_cons. split.
  - case_if; [by intros ?%found_valid_anomaly|].
    destruct (try_restore_signed_ledger_entry row) as [e|] eqn:He; cbn [map_err mbind result_bind]; [|by intros ?%found_valid_Err].
    destruct (try_restore_verifying_key row) as [[key|]|] eqn:Hk; cbn [map_err mbind result_bind];
      [|by intros ?%found_valid_anomaly|by intros ?%found_valid_Err].
    destruct (SignedLedgerEntry_verify_signature e key) as [[]|] eqn:Hv; [|by intros ?%found_valid_anomaly].
    intros H%IH. split; [|done]. apply verify_payload_Ok in Hv. by exists e, key.
  - intros [(e & key & He & Hk & Hv) Hl]. destruct (restored_entry_fields _ _ He) as [-> _].
    rewrite He Hk. cbn [map_err mbind result_bind]. apply verify_payload_Ok in Hv.
    unfold SignedLedgerEntry_verify_signature. rewrite Hv. by apply IH.
Qed.

(** Both loops over the same entries are the chain's verification. *)
Lemma linked_and_signed_Chain keys count head n h rows entries :
  Forall2 (λ row e, try_restore_signed_ledger_entry row = Ok e) rows entries →
  Forall (λ row, ∃ key, try_restore_verifying_key row = Ok (Some key)
    ∧ registered_key keys (row_signature_key_version row) key) rows →
  found_valid (check_hash_chain count head n h entries) ∧ Forall row_signed rows ↔
  Chain keys (mk_LedgerChainHead n h) entries head.
Proof.
  intros Hr. revert n h. induction Hr as [|row e rows entries He Hr IH]; intros n h Hk.
  { rewrite check_hash_chain_nil. split; [intros [-> _]; constructor|]. intros H. by inversion H. }
  apply Forall_cons in Hk as [(key & Hrk & Hreg) Hk]. specialize (IH (se_sequence_no e) (se_entry_hash e) Hk).
  destruct (restored_entry_fields _ _ He) as [_ Hv]. rewrite check_hash_chain_cons Forall_cons. split.
  - intros [[(Hs & Hn & Hp & Hh) Hc] [(e' & key' & He' & Hk' & Hsig) Hl]].
    assert (e' = e) as -> by congruence. assert (key' = key) as -> by congruence.
    eapply Chain_cons; [exact Hs|simpl; lia|exact Hp|exact Hh|rewrite Hv; exact Hreg|done|]. by apply IH.
  - intros H. inversion H as [|? ? ? key' ? H1 H2 H3 H4 Hreg' Hsig Hc]; subst. cbn [last_sequence_no last_entry_hash] in *.
    apply IH in Hc as [Hc Hl]. rewrite Hv in Hreg'.
    assert (key' = key) as ->.
    { apply (find_verification_key_Ok _ _ 0) in Hreg, Hreg'. congruence. }
    split; split; [|done|by exists e, key|done]. unfold hash_linked. split_and!; lia || done.
Qed.
End row_lemmas.

(** ** Lemmas: the calendar *)

(** Four digits and two, for the years and months there are. *)
Definition pad_check (width : nat) (value : Z) : bool :=
  let l := chars (pad_int (Z.of_nat width) value) in
  (length l =? width)%nat && forallb is_ascii_digit l && bool_decide (digits_value 0 l = Some value).
Lemma pad_checked width value :
  pad_check width value = true →
  length (chars (pad_int (Z.of_nat width) value)) = width
  ∧ forallb is_ascii_digit (chars (pad_int (Z.of_nat width) value)) = true
  ∧ digits_value 0 (chars (pad_int (Z.of_nat width) value)) = Some value.
Proof. unfold pad_check. intros H. b2p. done. Qed.
Lemma pad_year y : 0 ≤ y ≤ 9999 → pad_check 4 y = true.
Proof.
  assert (forallb (pad_check 4) (seqZ 0 10000) = true) as H by (by vm_compute).
  intros ?. apply (proj1 (forallb_forall _ _) H). apply list_elem_of_In, elem_of_seqZ. lia.
Qed.
Lemma pad_month m : 1 ≤ m ≤ 12 → pad_check 2 m = true.
Proof.
  assert (forallb (pad_check 2) (seqZ 1 12) = true) as H by (by vm_compute).
  intros ?. apply (proj1 (forallb_forall _ _) H). apply list_elem_of_In, elem_of_seqZ. lia.
Qed.
Lemma parse_month m : 1 ≤ m ≤ 12 → parse_u8 (pad_int 2 m) = Some m.
Proof.
  assert (forallb (λ m, bool_decide (parse_u8 (pad_int 2 m) = Some m)) (seqZ 1 12) = true) as H by (by vm_compute).
  intros ?. apply (bool_decide_eq_true_1 (parse_u8 (pad_int 2 m) = Some m)).
  apply (proj1 (forallb_forall _ _) H). apply list_elem_of_In, elem_of_seqZ. lia.
Qed.

Lemma year_month_text y m :
  0 ≤ y ≤ 9999 → 1 ≤ m ≤ 12 →
  let text := pad_int 4 y +:+ "-" +:+ pad_int 2 m in
  MonthlyDigestPeriod_parse text = Ok (mk_MonthlyDigestPeriod text)
  ∧ digits_value 0 (take 4 (chars text)) = Some y ∧ digits_value 0 (drop 5 (chars text)) = Some m.
Proof.
  intros Hy Hm text. destruct (pad_checked 4 y) as (L1 & D1 & V1); [by apply pad_year|].
  destruct (pad_checked 2 m) as (L2 & D2 & V2); [by apply pad_month|].
  change (Z.of_nat 4) with 4 in *. change (Z.of_nat 2) with 2 in *.
  assert (chars text = chars (pad_int 4 y) ++ "-"%char :: chars (pad_int 2 m)) as Ht by (by unfold text; rewrite !chars_app).
  assert (take 4 (chars text) = chars (pad_int 4 y)) as H4 by (by rewrite Ht -L1 take_app_length).
  assert (drop 5 (chars text) = chars (pad_int 2 m)) as H5.
  { rewrite Ht. change 5%nat with (4 + 1)%nat. by rewrite -(drop_drop (chars (pad_int 4 y) ++ _) 1) -L1 drop_app_length. }
  assert (validate_year_month_format text = Ok tt) as Hv.
  { apply year_month_Ok. rewrite H4 H5 /slice_from H5 of_chars_chars (parse_month m Hm). change (default 0 (Some m)) with m.
    split_and!; [by rewrite Ht length_app /= L1 L2| |done|done|lia|lia].
    rewrite Ht lookup_app_r L1 //. }
  unfold MonthlyDigestPeriod_parse. by rewrite Hv H4 H5.
Qed.

(** ** Lemmas: the state of the scheduler *)

Definition all_free (st : SchedulerRuntimeState) : Prop := ∀ name, rs_running st name = false.
(** Keys are only added. *)
Definition grows (st st' : SchedulerRuntimeState) : Prop :=
  all_free st' ∧ ∀ key, key ∈ rs_completed st → key ∈ rs_completed st'.

Section once_lemmas.
Context {P : Platform}.
Implicit Types (st : SchedulerRuntimeState) (s : Shared * World) (key : JobRunKey).

(** With its lock free a job that is not done runs, its lock is free again, and
    its key is added exactly when it succeeded. *)
Lemma run_once_run {T} key (run : proc str T) st s r st' s' :
  all_free st → run_once_per_period key run (st, s) = (r, (st', s')) →
  (key ∈ rs_completed st ∧ r = Ok None ∧ st' = st ∧ s' = s)
  ∨ (key ∉ rs_completed st ∧ all_free st'
     ∧ ((∃ output, run s = (Ok output, s') ∧ r = Ok (Some output) ∧ rs_completed st' = key :: rs_completed st)
        ∨ ∃ e, run s = (Err e, s') ∧ r = Err e ∧ rs_completed st' = rs_completed st)).
Proof.
  intros Hf. unfold run_once_per_period, try_enter. rewrite Hf. case_bool_decide as Hk; [intros [= <- <- <-]; by left|].
  assert (all_free (release (jk_job_name key) (set_running (jk_job_name key) true st))) as Hfree.
  { intros name. cbn. case_bool_decide; [done|]. apply Hf. }
  intros H. right. split; [done|]. destruct (run s) as [[output|e] s1]; injection H as <- <- <-.
  - unfold complete. change (rs_completed (release _ _)) with (rs_completed st). rewrite bool_decide_eq_false_2 //.
    split; [exact Hfree|left]. by eexists.
  - split; [exact Hfree|right]. by eexists.
Qed.

Lemma run_once_grows {T} key (run : proc str T) st s r st' s' :
  all_free st → run_once_per_period key run (st, s) = (r, (st', s')) →
  grows st st' ∧ (is_ok r = true → key ∈ rs_completed st')
  ∧ ∀ k, k ∈ rs_completed st' → k ∈ rs_completed st ∨ (k = key ∧ ∃ output, run s = (Ok output, s')).
Proof.
  intros Hf [(Hk & -> & -> & ->)|(Hk & Hf' & [(o & Hr & -> & Hc)|(e & Hr & -> & Hc)])]%run_once_run; [..|done].
  - split_and!; [by split|done|]. by left.
  - split; [split; [done|]|split]; rewrite Hc; [set_solver..|]. intros k. rewrite elem_of_cons. intros [->|]; eauto.
  - split; [split; [done|]|split]; rewrite Hc; [set_solver|done|]. by left.
Qed.

Lemma grows_trans st1 st2 st3 : grows st1 st2 → grows st2 st3 → grows st1 st3.
Proof. intros [_ H1] [H2 H3]. split; [done|]. auto. Qed.

Lemma sched_bind_run {T U} (m : sched T) (f : T → sched U) x r y :
  mbind f m x = (r, y) ↔ ∃ a z, m x = (a, z) ∧ f a z = (r, y).
Proof. unfold mbind, sched_bind. destruct (m x) as [a z]. naive_solver. Qed.
End once_lemmas.

(** A digest is only done for a month whose ledger passed both verifications. *)
Definition month_key (job_name : ScheduledJobName) (month : str) : JobRunKey := mk_JobRunKey job_name month.
Definition scheduler_inv (st : SchedulerRuntimeState) : Prop :=
  all_free st
  ∧ ∀ month, month_key MonthlyDigestGenerate month ∈ rs_completed st →
      month_key LedgerHashChainFullVerify month ∈ rs_completed st
      ∧ month_key LedgerSignatureFullVerify month ∈ rs_completed st.

(** A step that adds nothing but keys of other jobs than the digest's. *)
Lemma inv_other st st' key :
  scheduler_inv st → grows st st' → jk_job_name key ≠ MonthlyDigestGenerate →
  (∀ k, k ∈ rs_completed st' → k ∈ rs_completed st ∨ k = key) → scheduler_inv st'.
Proof.
  intros [_ Hi] [Hf Hg] Hk Hn. split; [done|]. intros month [Hd| <-]%Hn; [|done].
  destruct (Hi _ Hd). auto.
Qed.

Section tick_lemmas.
Context {P : Platform} {C : Calendar P} {F : FileSystem} {WF : WholeFiles} {SM : SerdeMembers}.
Context {K : SiemSink} {A : AuditEventAppender} {IS : IncidentService} {NS : NotificationSink}.
Context {Svc : LedgerService} {DS : DigestService} {Rot : KeyRotationService} {MC : MonotonicClock P} {Ck : CheckService}.
Implicit Types (state : AppState) (config : SchedulerConfig) (st : SchedulerRuntimeState) (s : Shared * World).

(** A job other than the digest's. *)
Lemma once_other {T} key (run : proc str T) st s r st' s' :
  jk_job_name key ≠ MonthlyDigestGenerate → scheduler_inv st →
  run_once_per_period key run (st, s) = (r, (st', s')) →
  scheduler_inv st' ∧ grows st st' ∧ (is_ok r = true → key ∈ rs_completed st').
Proof.
  intros Hn Hi H. destruct (run_once_grows _ _ _ _ _ _ _ (proj1 Hi) H) as (Hg & Hk & Hnew).
  split; [|done]. eapply inv_other; [done|done|exact Hn|]. intros k [|[-> _]]%Hnew; auto.
Qed.
(** A job whose precondition failed is never done. *)
Lemma skipped_completed state job_name month period code st s r st' s' :
  all_free st →
  run_once_per_period (month_key job_name month) (record_precondition_failure_job state job_name period code) (st, s)
  = (r, (st', s')) →
  all_free st' ∧ rs_completed st' = rs_completed st.
Proof.
  intros Hf [(_ & _ & -> & _)|(_ & Hf' & [(o & Hr & _)|(e & _ & _ & Hc)])]%run_once_run; [done| |done|done].
  by apply io_bind_Ok in Hr as (? & ? & _ & [? _]%lift_Ok).
Qed.
Lemma skipped_inv state job_name month period code st s r st' s' :
  scheduler_inv st →
  run_once_per_period (month_key job_name month) (record_precondition_failure_job state job_name period code) (st, s)
  = (r, (st', s')) → scheduler_inv st'.
Proof. intros [Hf Hi] [Hf' Hc]%skipped_completed; [|done]. split; [done|]. by rewrite Hc. Qed.

Lemma monthly_inv state config period st s ended st' s' :
  scheduler_inv st → run_monthly_jobs state config period (st, s) = (ended, (st', s')) → scheduler_inv st'.
Proof.
  intros Hi H. apply sched_bind_run in H as (hash & [st1 s1] & H1 & H). apply sched_bind_run in H as (sig & [st2 s2] & H2 & H).
  apply once_other in H1 as (Hi1 & Hg1 & Hk1); [|done..]. apply once_other in H2 as (Hi2 & Hg2 & Hk2); [|done..].
  case_if.
  { apply sched_bind_run in H as (r3 & [st3 s3] & H3 & H). apply sched_bind_run in H as (r4 & [st4 s4] & H4 & [= _ <- _]).
    apply skipped_inv in H3; [|done]. by apply skipped_inv in H4. }
  b2p. apply sched_bind_run in H as (digest & [st3 s3] & H3 & H).
  destruct (run_once_grows _ _ _ _ _ _ _ (proj1 Hi2) H3) as ([Hf3 Hg3] & _ & Hnew).
  assert (scheduler_inv st3) as Hi3.
  { split; [done|]. intros month [Hd|[[= ->] _]]%Hnew; [destruct (proj2 Hi2 _ Hd); auto|]. destruct Hg2; auto. }
  apply sched_bind_run in H as (signed & [st4 s4] & H4 & H).
  assert (st4 = st3) as ->.
  { destruct digest as [[d|]|e]; [by injection H4| |by injection H4]. unfold outside in H4.
    destruct (in_world _ _). by injection H4. }
  destruct signed as [d|e]; apply sched_bind_run in H as (r5 & [st5 s5] & H5 & [= _ <- _]).
  - by apply once_other in H5 as [Hi5 _].
  - by apply skipped_inv in H5.
Qed.

Lemma quarterly_inv state config quarter_key jobs st s st' s' :
  MonthlyDigestGenerate ∉ jobs → scheduler_inv st →
  run_quarterly_jobs state config quarter_key jobs (st, s) = (tt, (st', s')) → scheduler_inv st'.
Proof.
  revert st s. induction jobs as [|job jobs IH]; intros st s Hn Hi; cbn [run_quarterly_jobs]; [by intros [= <- _]|].
  intros (r & [st1 s1] & H1 & H)%sched_bind_run. apply once_other in H1 as [Hi1 _]; [|set_solver|done].
  eapply IH; [set_solver|done|exact H].
Qed.

Lemma due_jobs_inv state config now st s st' s' :
  scheduler_inv st → run_due_jobs state config now (st, s) = (tt, (st', s')) → scheduler_inv st'.
Proof.
  intros Hi (ended & [st1 s1] & H1 & H)%sched_bind_run.
  assert (scheduler_inv st1) as Hi1.
  { destruct (monthly_due _ _ _); [|by injection H1 as _ <- _].
    destruct (previous_month_period now); [by eapply monthly_inv|by injection H1 as _ <- _]. }
  destruct ended; [by injection H as <- _|]. case_if; [|by injection H as <- _].
  eapply quarterly_inv; [|exact Hi1|exact H]. set_solver.
Qed.

Lemma tick_inv state config st s st' s' :
  scheduler_inv st → tick state config (st, s) = (tt, (st', s')) → scheduler_inv st'.
Proof.
  intros Hi (now & [st1 s1] & H1 & H)%sched_bind_run. unfold sched_now in H1. destruct (now_utc _) as [t s2]. injection H1 as _ <- _.
  by eapply due_jobs_inv.
Qed.

Lemma loop_inv state config wakes st s st' s' :
  scheduler_inv st → scheduler_loop state config wakes (st, s) = (tt, (st', s')) → scheduler_inv st'.
Proof.
  revert st s. induction wakes as [|[[]|] wakes IH]; intros st s Hi; cbn [scheduler_loop]; [by intros [= <- _]..|by apply IH|].
  intros ([] & [st1 s1] & H1 & H)%sched_bind_run. eapply IH; [|exact H]. by eapply tick_inv.
Qed.
End tick_lemmas.

(** ** Lemmas: the jobs *)

Section job_lemmas.
Context {P : Platform} {F : FileSystem} {SM : SerdeMembers}.
Context {K : SiemSink} {A : AuditEventAppender} {IS : IncidentService} {NS : NotificationSink}.
Context {Svc : LedgerService} {DS : DigestService} {Rot : KeyRotationService} {MC : MonotonicClock P}.
Implicit Types (state : AppState) (s : Shared * World).

(** What a verification reports when it finds something is an incident. *)
Definition incident_code (r : result str LedgerVerificationSummary) : Prop :=
  ∀ summary, r = Ok summary → sv_valid summary = false →
    ∃ code incident_type, sv_error_code summary = Some code ∧ scheduler_incident_type code = Some incident_type.

Lemma anomaly_incident count code incident_type :
  scheduler_incident_type code = Some incident_type → incident_code (anomaly count code).
Proof. intros H summary [= <-] _. by exists code, incident_type. Qed.
Ltac anomaly := by eapply anomaly_incident.

Lemma check_hash_chain_incident count head n h entries : incident_code (check_hash_chain count head n h entries).
Proof.
  revert n h. induction entries as [|e entries IH]; intros n h; cbn [check_hash_chain].
  { case_if; [anomaly|]. by intros summary [= <-]. }
  destruct (u_checked_add _ _ _); cbn [ok_or mbind result_bind]; [|by intros ?]. do 3 (case_if; [anomaly|]). apply IH.
Qed.
Lemma verify_hash_chain_rows_incident head rows : incident_code (verify_hash_chain_rows head rows).
Proof.
  unfold verify_hash_chain_rows. destruct (restore_rows 0 rows) as [[summary|entries]|e] eqn:Hr; cbn [mbind result_bind].
  - apply restore_rows_inl in Hr as (count & ->). eapply (anomaly_incident count). done.
  - apply check_hash_chain_incident.
  - by intros ?.
Qed.
Lemma verify_signature_rows_incident rows : incident_code (verify_signature_rows rows).
Proof.
  unfold verify_signature_rows. generalize (entry_count (length rows)) as total, 0 as checked. intros total.
  induction rows as [|row rows IH]; intros checked; cbn [check_signature_rows]; [by intros summary [= <-]|].
  case_if; [anomaly|]. destruct (try_restore_signed_ledger_entry row); cbn [map_err mbind result_bind]; [|by intros ?].
  destruct (try_restore_verifying_key row) as [[key|]|]; cbn [map_err mbind result_bind]; [|anomaly|by intros ?].
  destruct (SignedLedgerEntry_verify_signature _ _); [apply IH|anomaly].
Qed.

(** The two jobs and what they verify. *)
Inductive verify_job state : (ScheduledJobName → option MonthlyDigestPeriod → proc str unit) →
    (LedgerChainHead → list LedgerVerificationMaterialRow → result str LedgerVerificationSummary) → Prop :=
| verify_job_hash : verify_job state (run_full_ledger_hash_chain_verify_job state) verify_hash_chain_rows
| verify_job_signature :
    verify_job state (run_full_ledger_signature_verify_job state) (λ _, verify_signature_rows).

Lemma verify_job_run state run_job check :
  verify_job state run_job check →
  ∃ fallback, run_job = run_verify_job state
    ('(head, rows) ← fetch_full_ledger_material_rows; lift (check head rows)) fallback.
Proof. intros []; by eexists. Qed.
Lemma verify_job_incident state run_job check head rows :
  verify_job state run_job check → incident_code (check head rows).
Proof. intros []; [apply verify_hash_chain_rows_incident|apply verify_signature_rows_incident]. Qed.

(** A verification job, step by step. *)
Lemma run_verify_job_run state verification fallback job_name period s r s' :
  run_verify_job state verification fallback job_name period s = (r, s') →
  ∃ outcome w1 duration w2 recorded w3,
    verification (instant_now s.2).2 = (outcome, w1)
    ∧ record_scheduler_job_result state job_name (verify_verdict fallback outcome).1
        (verify_verdict fallback outcome).2 period duration w2 = (recorded, w3)
    ∧ match recorded, (verify_verdict fallback outcome).1 with
      | Err e, _ => r = Err e ∧ s'.2 = w3
      | Ok _, AuditResult_Success => r = Ok tt ∧ s'.2 = w3
      | Ok _, AuditResult_Failure =>
          r = Err (default fallback (verify_verdict fallback outcome).2)
          ∧ (record_mapped_scheduler_incident state job_name (verify_verdict fallback outcome).2 period
              : io World str unit) w3 = (Ok tt, s'.2)
      end.
Proof.
  unfold run_verify_job, mbind, io_bind, infallible, Instant_now, attempted, in_world.
  destruct (instant_now s.2) as [t w0]. cbn [fst snd]. destruct (verification w0) as [outcome w1].
  destruct (verify_verdict fallback outcome) as [res code] eqn:Hv. destruct (elapsed_ms _ _) as [d [sh w2]]. cbn [fst snd].
  destruct (record_scheduler_job_result _ _ _ _ _ _ _) as [recorded w3] eqn:Hrec. intros H.
  exists outcome, w1, d, w2, recorded, w3. rewrite Hv. split; [done|]. split; [exact Hrec|].
  destruct recorded as [[]|e]; [|by injection H as <- <-]. destruct res; [by injection H as <- <-|].
  cbn [fst snd] in H. destruct (record_mapped_scheduler_incident (E := str) state job_name code period w3) as [i w4] eqn:Hi.
  assert (i = Ok tt) as ->.
  { unfold record_mapped_scheduler_incident, record_scheduler_incident in Hi. destruct code as [c|]; [|by injection Hi].
    destruct (scheduler_incident_type c); [rewrite logged_run in Hi|]; by injection Hi. }
  cbn in H. by injection H as <- <-.
Qed.

(** The result of a job is on record in the audit log and in the ledger. *)
Definition job_on_record state (job_name : ScheduledJobName) (res : AuditResult) (error_code : option str)
    (period : option MonthlyDigestPeriod) (w w' : World) : Prop :=
  ∃ event w1 outcome w2 draft w3 appended,
    record (st_audit_fallback_store state) event w1 = (Ok outcome, w2)
    ∧ ev_action (event_parts event) = AuditAction_SchedulerJob ∧ ev_result (event_parts event) = res
    ∧ append (st_ledger_appender state) draft w3 = (Ok appended, w')
    ∧ ad_entry_type draft = LedgerEntryType_SchedulerJobCompleted
    ∧ ad_result draft = match res with AuditResult_Success => LedgerResult_Success | AuditResult_Failure => LedgerResult_Failure end
    ∧ ad_error_code draft = error_code
    ∧ ad_source_event_id draft = Some (ev_audit_event_id (event_parts event))
    ∧ map_get "job_name" (payload_object (ad_payload draft)) = Some (JString (ScheduledJobName_as_str job_name))
    ∧ map_get "target_year_month" (payload_object (ad_payload draft)) = JString ∘ MonthlyDigestPeriod_as_str <$> period.

Lemma job_result_recorded state job_name res error_code period duration w w' :
  record_scheduler_job_result state job_name res error_code period duration w = (Ok tt, w') →
  job_on_record state job_name res error_code period w w'.
Proof.
  unfold record_scheduler_job_result, append_scheduler_ledger_entry. intros H. inv_run.
  match goal with H : LedgerAppendDraft_new _ = _ |- _ => apply LedgerAppendDraft_new_Ok in H as [-> _] end.
  match goal with H : LedgerPayload_new _ _ = _ |- _ => apply LedgerPayload_new_Ok in H as ([= Hp] & _) end.
  match goal with H : AuditEvent_new _ = _ |- _ => apply AuditEvent_new_Ok in H as [-> _] end. simplify_eq.
  eexists _, _, _, _, _, _, _. split; [eassumption|]. split; [done|]. split; [done|]. split; [eassumption|].
  cbn [ad_payload]. rewrite -Hp. split_and!; try done; by destruct period.
Qed.
End job_lemmas.

(** ** Properties *)

Section scheduler_theorems.
Context {P : Platform} {C : Calendar P} {F : FileSystem} {WF : WholeFiles} {SM : SerdeMembers}.
Context {K : SiemSink} {A : AuditEventAppender} {IS : IncidentService} {NS : NotificationSink}.
Context {Svc : LedgerService} {DS : DigestService} {Rot : KeyRotationService} {MC : MonotonicClock P} {Ck : CheckService}.
Implicit Types (state : AppState) (config : SchedulerConfig) (st : SchedulerRuntimeState) (s : Shared * World).

(** C11. The two monthly verifications together are the verification of the chain: the
    rows pass the check of the hashes and that of the signatures if and only if they
    restore to entries that lead from the beginning to the head the database reports,
    when the key each row carries is the registered one. *)
Theorem scheduled_checks_are_chain_verification keys head rows :
  last_sequence_no head ≤ LEDGER_I64_MAX_U64 →
  Forall (λ row, ∃ key, try_restore_verifying_key row = Ok (Some key)
    ∧ registered_key keys (row_signature_key_version row) key) rows →
  found_valid (verify_hash_chain_rows head rows) ∧ found_valid (verify_signature_rows rows) ↔
  ∃ entries, try_map try_restore_signed_ledger_entry rows = Ok entries
    ∧ verify_ledger_chain entries LedgerChainHead_genesis keys = Ok head.
Proof.
  intros Hh Hk. rewrite verify_hash_chain_rows_valid. unfold verify_signature_rows, verify_ledger_chain.
  rewrite check_signature_rows_valid. setoid_rewrite verify_ledger_chain_from_Ok. split.
  - intros [(entries & Hr & Hv) Hs]. exists entries. split; [done|]. split; [|done].
    apply try_map_Ok in Hr. by apply (linked_and_signed_Chain keys (entry_count (length entries)) _ _ _ rows _ Hr Hk).
  - intros (entries & Hr & Hc & _). pose proof Hr as Hr'%try_map_Ok.
    apply (linked_and_signed_Chain keys (entry_count (length entries)) _ _ _ rows _ Hr' Hk) in Hc as [? ?]. eauto.
Qed.

(** C12. However long the scheduler has run and whatever its jobs met, its locks are free
    between ticks, so that no job is ever kept out by an earlier run, and a month's
    digest is only done when both verifications of the ledger are. *)
Theorem digest_only_after_verification state config first wakes s :
  scheduler_inv (run_scheduler_loop state config first wakes s).1.
Proof.
  assert (scheduler_inv SchedulerRuntimeState_new) as Hi by (split; [done|]; intros month; set_solver).
  unfold run_scheduler_loop. case_if; [done|].
  destruct ((_ ← tick state config; scheduler_loop state config wakes) (SchedulerRuntimeState_new, s)) as [[] [st' s']] eqn:H.
  apply sched_bind_run in H as ([] & [st1 s1] & H1 & H).
  eapply loop_inv; [|exact H]. by eapply tick_inv.
Qed.

(** A verification is done only when it was earned: the rows up to the head the
    database reported passed, and the success is on record in the audit log and the
    ledger. *)
Theorem verification_success_is_earned state run_job check job_name period s s' :
  verify_job state run_job check → run_job job_name period s = (Ok tt, s') →
  ∃ head rows w1 w2,
    fetch_full_ledger_material_rows (instant_now s.2).2 = (Ok (head, rows), w1)
    ∧ found_valid (check head rows)
    ∧ job_on_record state job_name AuditResult_Success None period w2 s'.2.
Proof.
  intros (fallback & ->)%verify_job_run (outcome & w1 & d & w2 & recorded & w3 & Hv & Hr & H)%run_verify_job_run.
  destruct recorded as [[]|]; [|by destruct H]. destruct outcome as [summary|]; [|by destruct H].
  cbn [verify_verdict] in *. destruct (sv_valid summary) eqn:Hvalid; [|by destruct H]. cbn [fst snd] in *.
  destruct H as [_ ->]. apply io_bind_Ok in Hv as ([head rows] & w4 & Hf & [Hc _]%lift_Ok).
  exists head, rows, w4, w2. split_and!; [done|by exists summary|]. by eapply job_result_recorded.
Qed.

(** C28. An anomaly of the ledger is an incident: whatever the rows' check reports has a
    type, and the job either ends with its code after running the recorder on that
    type and the job's month, or could not put its own failure on record and ends
    with that error. *)
Theorem ledger_anomaly_raises_incident state run_job check job_name period s r s' head rows w1 summary :
  verify_job state run_job check → run_job job_name period s = (r, s') →
  fetch_full_ledger_material_rows (instant_now s.2).2 = (Ok (head, rows), w1) →
  check head rows = Ok summary → sv_valid summary = false →
  ∃ code incident_type, sv_error_code summary = Some code ∧ scheduler_incident_type code = Some incident_type
    ∧ ((r = Err code ∧ ∃ input w2 recorded, incident_record (st_ledger_appender state) input w2 = (recorded, s'.2)
          ∧ in_incident_type input = incident_type ∧ in_error_code input = code
          ∧ in_detection_source input = ScheduledJobName_as_str job_name ∧ in_target_year_month input = period)
       ∨ ∃ duration w2 e, r = Err e ∧ record_scheduler_job_result state job_name AuditResult_Failure (Some code)
           period duration w2 = (Err e, s'.2)).
Proof.
  intros Hj H Hf Hc Hvalid. destruct (verify_job_incident _ _ _ head rows Hj _ Hc Hvalid) as (code & type & Hcode & Ht).
  exists code, type. split; [done|]. split; [done|]. apply verify_job_run in Hj as (fallback & ->).
  apply run_verify_job_run in H as (outcome & w2 & d & w3 & recorded & w4 & Hv & Hr & H).
  unfold mbind, io_bind in Hv. rewrite Hf in Hv. unfold lift in Hv. rewrite Hc in Hv. injection Hv as <- _.
  cbn [verify_verdict] in *. rewrite Hvalid Hcode in Hr, H. cbn [fst snd] in *.
  destruct recorded as [[]|e]; destruct H as [-> H].
  - left. split; [done|]. cbn in H. rewrite Ht in H. unfold record_scheduler_incident in H. rewrite logged_run in H.
    injection H as H. eexists _, w4, _. split; [rewrite -H; apply surjective_pairing|]. by destruct period.
  - right. subst. by exists d, w3, e.
Qed.

(** A tick whose ledger verification fails ends there: whatever the calendar says of
    the quarter, it marks no job as done but, at most, the verification of the
    signatures; the restore test and the reminders of the quarter, which are only due
    on that same day, do not run. *)
Theorem failed_verification_skips_quarterly state config now period st s e s1 st' s' :
  all_free st → monthly_due now (sc_monthly_day config) (sc_monthly_hour_utc config) = true →
  previous_month_period now = Ok period →
  month_key LedgerHashChainFullVerify (MonthlyDigestPeriod_as_str period) ∉ rs_completed st →
  run_full_ledger_hash_chain_verify_job state LedgerHashChainFullVerify (Some period) s = (Err e, s1) →
  run_due_jobs state config now (st, s) = (tt, (st', s')) →
  ∀ key, key ∈ rs_completed st' →
    key ∈ rs_completed st ∨ key = month_key LedgerSignatureFullVerify (MonthlyDigestPeriod_as_str period).
Proof.
  intros Hfree Hm Hp Hn Hh H. unfold run_due_jobs in H. rewrite Hm Hp in H.
  apply sched_bind_run in H as (ended & [st9 s9] & H & Hend).
  apply sched_bind_run in H as (hash & [st1 s1'] & H1 & H). apply sched_bind_run in H as (sig & [st2 s2] & H2 & H).
  apply run_once_run in H1 as [(? & _)|(_ & Hf1 & [(o & Hr & _)|(e' & Hr & -> & Hc1)])]; [done|congruence| |done].
  destruct (run_once_grows _ _ _ _ _ _ _ Hf1 H2) as ([Hf2 _] & _ & Hnew). cbn [is_ok negb orb] in H.
  apply sched_bind_run in H as (r3 & [st3 s3] & H3 & H). apply sched_bind_run in H as (r4 & [st4 s4] & H4 & [= <- <- <-]).
  apply skipped_completed in H3 as [Hf3 Hc3]; [|done]. apply skipped_completed in H4 as [_ Hc4]; [|done].
  injection Hend as <- _. rewrite Hc4 Hc3. intros key [Hk|[-> _]]%Hnew; [left; by rewrite -Hc1|by right].
Qed.

(** The period of a tick is the month before it, as text: four digits of the year, a
    dash, two digits of the month, whatever the month and across the new year. *)
Theorem previous_month_is_the_month_before now :
  1 ≤ dt_year now ≤ 9999 →
  let before := 12 * dt_year now + (Month_number (dt_month now) - 1) - 1 in
  ∃ period, previous_month_period now = Ok period
    ∧ MonthlyDigestPeriod_parse (MonthlyDigestPeriod_as_str period) = Ok period
    ∧ digits_value 0 (take 4 (chars (MonthlyDigestPeriod_as_str period))) = Some (before / 12)
    ∧ digits_value 0 (drop 5 (chars (MonthlyDigestPeriod_as_str period))) = Some (before mod 12 + 1).
Proof.
  intros Hy before. unfold previous_month_period.
  assert (1 ≤ Month_number (dt_month now) ≤ 12) as Hm by (by destruct (dt_month now)).
  destruct (Z.eqb_spec (Month_number (dt_month now) - 1) 0) as [H0|H0].
  - destruct (year_month_text (dt_year now - 1) 12) as (Hp & H4 & H5); [lia|lia|]. eexists. split; [exact Hp|].
    split; [exact Hp|]. replace (before / 12) with (dt_year now - 1) by (unfold before; Z.to_euclidean_division_equations; lia).
    by replace (before mod 12 + 1) with 12 by (unfold before; Z.to_euclidean_division_equations; lia).
  - destruct (year_month_text (dt_year now) (Month_number (dt_month now) - 1)) as (Hp & H4 & H5); [lia|lia|].
    eexists. split; [exact Hp|]. split; [exact Hp|]. replace (before / 12) with (dt_year now) by (unfold before; Z.to_euclidean_division_equations; lia).
    by replace (before mod 12 + 1) with (Month_number (dt_month now) - 1) by (unfold before; Z.to_euclidean_division_equations; lia).
Qed.
End scheduler_theorems.
