(* ===== verification/Auditor.v ===== *)
(** * The auditor's command ([src/server/auditor.rs])

    [mipsorcu auditor verify --from-sequence n --to-sequence m --format json]
    exports a range of the ledger, restores its entries and keys, and verifies
    the chain.  The standard output is the list of lines printed. *)

From S2P Require Import Prelude RustStd Json Platform Reference Errors Types AuditTypes LedgerTypes LedgerPayload LedgerEntry LedgerChain LedgerRpc LedgerAppender Digest DigestUseCases.

Inductive AuditorCliError :=
| AuditorCliError_Usage (message : str)
| AuditorCliError_Config (message : str)
| AuditorCliError_SupabaseRpc (message : str)
| AuditorCliError_Ledger (message : str)
| AuditorCliError_Io (error : str)
| AuditorCliError_Serialization (message : str)
| AuditorCliError_ExportFailure (message : str).

Definition AuditorCliError_to_string (error : AuditorCliError) : str :=
  match error with
  | AuditorCliError_Usage message => message
  | AuditorCliError_Config message => "auditor config error: " +:+ message
  | AuditorCliError_SupabaseRpc message => "auditor Supabase RPC error: " +:+ message
  | AuditorCliError_Ledger message => "auditor ledger error: " +:+ message
  | AuditorCliError_Io error => "auditor I/O error: " +:+ error
  | AuditorCliError_Serialization message => "auditor serialization error: " +:+ message
  | AuditorCliError_ExportFailure message => "auditor export failure: " +:+ message
  end.

Definition auditor_usage : str :=
  "usage:" +:+ String (ascii_of_nat 10) EmptyString
  +:+ "  mipsorcu auditor verify --from-sequence <n> --to-sequence <n> --format json".
Definition usage_error {A} : result AuditorCliError A := Err (AuditorCliError_Usage auditor_usage).

Definition is_help_args (args : list str) : bool :=
  match args with
  | [flag] => str_in flag ["--help"; "-h"]%string
  | [command; flag] => String.eqb command "verify" && str_in flag ["--help"; "-h"]%string
  | _ => false
  end.

(** ** Arguments *)

Record AuditorArgs := mk_AuditorArgs {
  aa_subcommand : bool;
  aa_from_sequence : option Z;
  aa_to_sequence : option Z;
  aa_format : option str;
}.

Definition sequence_value (value : str) : result AuditorCliError Z :=
  match parse_uint u64_max value with
  | Some parsed => if parsed =? 0 then usage_error else Ok parsed
  | None => usage_error
  end.

(** The [while] loop from the current index on.  A flag takes the argument after
    it, which has to be there and not to be a flag itself. *)
Fixpoint parse_auditor_args (args : list str) (a : AuditorArgs) : result AuditorCliError AuditorArgs :=
  match args with
  | [] => Ok a
  | arg :: rest =>
      if String.eqb arg "verify" && negb (aa_subcommand a) then
        parse_auditor_args rest
          (mk_AuditorArgs true (aa_from_sequence a) (aa_to_sequence a) (aa_format a))
      else if negb (str_in arg ["--from-sequence"; "--to-sequence"; "--format"]%string) then usage_error
      else match rest with
      | [] => usage_error
      | value :: rest =>
          if starts_with value "--" then usage_error
          else if String.eqb arg "--format" then
            parse_auditor_args rest
              (mk_AuditorArgs (aa_subcommand a) (aa_from_sequence a) (aa_to_sequence a) (Some value))
          else
            parsed ← sequence_value value;
            parse_auditor_args rest
              (if String.eqb arg "--from-sequence"
               then mk_AuditorArgs (aa_subcommand a) (Some parsed) (aa_to_sequence a) (aa_format a)
               else mk_AuditorArgs (aa_subcommand a) (aa_from_sequence a) (Some parsed) (aa_format a))
      end
  end.

(** The checks after the loop: the range to verify. *)
Definition auditor_range (args : list str) : result AuditorCliError (Z * Z) :=
  a ← parse_auditor_args args (mk_AuditorArgs false None None None);
  if negb (aa_subcommand a) then usage_error else
  from_sequence ← ok_or (aa_from_sequence a) (AuditorCliError_Usage auditor_usage);
  to_sequence ← ok_or (aa_to_sequence a) (AuditorCliError_Usage auditor_usage);
  if to_sequence <? from_sequence
  then Err (AuditorCliError_Usage "from-sequence must be <= to-sequence") else
  match aa_format a with
  | Some f => if String.eqb f "json" then Ok (from_sequence, to_sequence) else usage_error
  | None => usage_error
  end.

(** ** Verification *)

Record AuditorVerifyFirstError := mk_AuditorVerifyFirstError {
  fe_code : str;
  fe_sequence_no : Z;
}.
Record AuditorVerifyOutput := mk_AuditorVerifyOutput {
  vo_valid : bool;
  vo_checked_count : Z;
  vo_first_sequence_no : Z;
  vo_last_sequence_no : Z;
  vo_first_error : option AuditorVerifyFirstError;
}.

Definition map_error_to_code_and_sequence (error : LedgerError) : str * Z :=
  match error with
  | LedgerError_SequenceGap _ actual => ("sequence_gap", actual)
  | LedgerError_PreviousHashMismatch sequence_no => ("previous_hash_mismatch", sequence_no)
  | LedgerError_HashMismatch sequence_no => ("entry_hash_mismatch", sequence_no)
  | LedgerError_SignatureInvalid sequence_no => ("signature_invalid", sequence_no)
  | LedgerError_UnknownSignatureKey _ sequence_no => ("unknown_signature_key", sequence_no)
  | _ => ("invalid_exported_material", 0)
  end%string.

Inductive ExportLedgerError := ExportLedgerError_InvalidRpcInput | ExportLedgerError_ExportFailed.
Definition ExportLedgerError_as_error_code (e : ExportLedgerError) : str :=
  match e with
  | ExportLedgerError_InvalidRpcInput => "ledger_export_invalid_rpc_input"
  | ExportLedgerError_ExportFailed => "ledger_export_failed"
  end.

Section auditor.
Context {P : Platform} {DSvc : DigestService}.

Definition classify_export_ledger_error (error : SupabaseRpcError) : ExportLedgerError :=
  match error with
  | SupabaseRpcError_NonSuccessStatus _ body =>
      if response_contains_marker body "invalid_rpc_input"
      then ExportLedgerError_InvalidRpcInput else ExportLedgerError_ExportFailed
  | _ => ExportLedgerError_ExportFailed
  end.

(** What the rows of the range show. *)
Definition auditor_verdict (from_sequence to_sequence : Z) (entries : list SignedLedgerEntry)
    (verification_keys : list LedgerVerifyingKey) : AuditorVerifyOutput :=
  match entries with
  | [] => mk_AuditorVerifyOutput true 0 from_sequence to_sequence None
  | first :: _ =>
      let first_seq := se_sequence_no first in
      let last_seq := match last entries with Some e => se_sequence_no e | None => to_sequence end in
      let count := Z.of_nat (length entries) in
      match verify_ledger_chain entries LedgerChainHead_genesis verification_keys with
      | Ok _ => mk_AuditorVerifyOutput true count first_seq last_seq None
      | Err error =>
          let '(code, seq_no) := map_error_to_code_and_sequence error in
          mk_AuditorVerifyOutput false count first_seq last_seq
            (Some (mk_AuditorVerifyFirstError code seq_no))
      end
  end.

(** [http_client] is the outcome of building the outbound client. *)
Definition run_verify_command (http_client : result str unit) (from_sequence to_sequence : Z) :
    io World AuditorCliError AuditorVerifyOutput :=
  _ ← lift (http_client !? AuditorCliError_Config);
  start ← lift (LedgerSequenceNo_new from_sequence
    !? (λ error, AuditorCliError_Usage ("invalid from-sequence: " +:+ LedgerError_to_string error)));
  end_ ← lift (LedgerSequenceNo_new to_sequence
    !? (λ error, AuditorCliError_Usage ("invalid to-sequence: " +:+ LedgerError_to_string error)));
  rows ← export_ledger_verification_materials start end_ !?? (λ error,
    AuditorCliError_SupabaseRpc (ExportLedgerError_as_error_code (classify_export_ledger_error error)
      +:+ ": " +:+ SupabaseRpcError_to_string error));
  entries ← lift (try_map try_restore_signed_ledger_entry rows
    !? (λ error, AuditorCliError_ExportFailure (LedgerError_to_string error)));
  verification_keys ← lift (collect_verification_keys [] rows
    !? (λ error, AuditorCliError_ExportFailure (LedgerError_to_string error)));
  mret (auditor_verdict from_sequence to_sequence entries verification_keys).

(** [#[derive(Serialize)]] of the output. *)
Definition auditor_output_json (output : AuditorVerifyOutput) : Value :=
  JObject [("valid", JBool (vo_valid output));
    ("checked_count", json_uint (vo_checked_count output));
    ("first_sequence_no", json_uint (vo_first_sequence_no output));
    ("last_sequence_no", json_uint (vo_last_sequence_no output));
    ("first_error", match vo_first_error output with
      | Some e => JObject [("code", JString (fe_code e)); ("sequence_no", json_uint (fe_sequence_no e))]
      | None => JNull
      end)]%string.

(** [pretty] is [serde_json::to_string_pretty].  The first component is what was
    printed. *)
Definition auditor_run_cli (http_client : result str unit) (pretty : Value → result str str)
    (args : list str) (w : World) :
    list str * result AuditorCliError unit * World :=
  if is_help_args args then ([auditor_usage], Ok tt, w) else
  match auditor_range args with
  | Err error => ([], Err error, w)
  | Ok (from_sequence, to_sequence) =>
      let '(r, w1) := run_verify_command http_client from_sequence to_sequence w in
      match r with
      | Err error => ([], Err error, w1)
      | Ok output =>
          match pretty (auditor_output_json output) with
          | Err error => ([], Err (AuditorCliError_Serialization error), w1)
          | Ok json_output =>
              ([json_output],
               if vo_valid output then Ok tt
               else Err (AuditorCliError_Ledger "chain verification failed"), w1)
          end
      end
  end.
End auditor.

(** ** Properties *)

Section auditor_theorems.
Context {P : Platform} {DSvc : DigestService}.

Lemma auditor_verdict_valid from to entries keys :
  vo_valid (auditor_verdict from to entries keys) = true ↔
  entries = [] ∨ ∃ final, Chain keys LedgerChainHead_genesis entries final
    ∧ last_sequence_no final ≤ LEDGER_I64_MAX_U64.
Proof.
  destruct entries as [|e entries]; [naive_solver|]. unfold auditor_verdict, verify_ledger_chain.
  destruct (verify_ledger_chain_from _ _ _ _) as [final|error] eqn:Hv.
  - split; [|done]. intros _. right. exists final. by apply verify_ledger_chain_from_Ok in Hv.
  - destruct (map_error_to_code_and_sequence error). split; [done|].
    intros [?|(final & Hc & Hl)]; [done|]. exfalso.
    pose proof (proj2 (verify_ledger_chain_from_Ok keys (last_sequence_no LedgerChainHead_genesis)
      (last_entry_hash LedgerChainHead_genesis) (e :: entries) final) (conj Hc Hl)) as Hv'. congruence.
Qed.

(** The auditor reports a range as valid exactly when nothing was exported or the
    exported entries restore to a chain that starts at the genesis.  So a range
    whose first entry is not the first of the ledger is reported as broken, with
    a gap at that entry, however intact it is. *)
Theorem auditor_verifies_only_from_genesis http_client from to w output w' :
  run_verify_command http_client from to w = (Ok output, w') →
  ∃ start stop rows entries keys w1,
    LedgerSequenceNo_new from = Ok start ∧ LedgerSequenceNo_new to = Ok stop
    ∧ export_ledger_verification_materials start stop w = (Ok rows, w1)
    ∧ try_map try_restore_signed_ledger_entry rows = Ok entries
    ∧ collect_verification_keys [] rows = Ok keys
    ∧ (vo_valid output = true ↔
        rows = [] ∨ ∃ final, Chain keys LedgerChainHead_genesis entries final
          ∧ last_sequence_no final ≤ LEDGER_I64_MAX_U64)
    ∧ vo_checked_count output = Z.of_nat (length rows)
    ∧ (∀ e entries', entries = e :: entries' → se_sequence_no e ≠ 1 →
        vo_valid output = false
        ∧ vo_first_error output = Some (mk_AuditorVerifyFirstError "sequence_gap" (se_sequence_no e))).
Proof.
  unfold run_verify_command. intros H. inv_run.
  select (try_map _ _ = _) (fun H => rename H into Hrows).
  pose proof (Forall2_length _ _ _ (proj1 (try_map_Ok _ _ _) Hrows)) as Hlen.
  match type of Hrows with try_map _ ?rows = Ok ?entries => rename rows into rows0, entries into entries0 end.
  do 6 eexists. split_and!; [done..| | |].
  - assert (entries0 = [] ↔ rows0 = []) as Hnil by (by destruct rows0, entries0).
    by rewrite auditor_verdict_valid Hnil.
  - rewrite Hlen. unfold auditor_verdict. destruct entries0 as [|e entries0]; [done|].
    destruct (verify_ledger_chain _ _ _); [done|]. by destruct (map_error_to_code_and_sequence _).
  - intros e entries' -> Hne. unfold auditor_verdict, verify_ledger_chain.
    cbn [verify_ledger_chain_from]. unfold verify_ledger_entry.
    cbn [last_sequence_no LedgerChainHead_genesis u_checked_add].
    assert (u_checked_add u64_max 0 1 = Some 1) as -> by done. cbn [ok_or mbind result_bind Z.add].
    rewrite (proj2 (Z.eqb_neq (se_sequence_no e) 1) Hne). done.
Qed.
End auditor_theorems.
