(* ===== verification/Timestamping.v ===== *)
(** * Timestamping ([src/timestamping/{service,dummy}.rs],
    [src/server/use_cases/request_timestamping_for_digest.rs])

    An external service stamps the hash of a monthly digest.  The hash of the token it
    answers is recorded in the ledger and in the audit log; a failure is audited and
    may become an incident. *)

From S2P Require Import Prelude RustStd Json Platform Reference Errors Types AuditTypes LedgerTypes LedgerPayload LedgerEntry LedgerChain LedgerRpc LedgerAppender Digest DigestUseCases Files Archive AuditEvent AuditBuilders Incident KeyRotation AuditFallback App ExportUseCase.

(** ** Tokens *)

Definition TIMESTAMPING_TOKEN_MIN_LENGTH : Z := 1.
Definition TIMESTAMPING_TOKEN_MAX_LENGTH : Z := 4 * 1024 * 1024.
Definition TIMESTAMPING_TOKEN_HASH_LENGTH : Z := 32.

Inductive TimestampingServiceError :=
| TimestampingServiceError_BackendFailed (code : str)
| TimestampingServiceError_InvalidResponse (reason : str).
Definition TimestampingServiceError_to_string (e : TimestampingServiceError) : str :=
  match e with
  | TimestampingServiceError_BackendFailed code => "timestamping backend failed: " +:+ code
  | TimestampingServiceError_InvalidResponse reason => "timestamping invalid response: " +:+ reason
  end.

Record TimestampingToken := mk_TimestampingToken { TimestampingToken_as_bytes : bytes }.
#[global] Instance TimestampingToken_eq_dec : EqDecision TimestampingToken.
Proof. solve_decision. Defined.
Definition TimestampingToken_new (bytes : bytes) : result TimestampingServiceError TimestampingToken :=
  if zlen bytes <? TIMESTAMPING_TOKEN_MIN_LENGTH
  then Err (TimestampingServiceError_InvalidResponse "timestamping token must not be empty")
  else if TIMESTAMPING_TOKEN_MAX_LENGTH <? zlen bytes
  then Err (TimestampingServiceError_InvalidResponse "timestamping token exceeds maximum allowed length")
  else Ok (mk_TimestampingToken bytes).
Definition TimestampingToken_len (token : TimestampingToken) : Z := zlen (TimestampingToken_as_bytes token).
Definition TimestampingToken_is_empty (token : TimestampingToken) : bool := TimestampingToken_len token =? 0.
Definition TimestampingToken_wf (token : TimestampingToken) : Prop :=
  1 ≤ TimestampingToken_len token ≤ TIMESTAMPING_TOKEN_MAX_LENGTH.

Record TimestampingTokenHash := mk_TimestampingTokenHash { TimestampingTokenHash_as_bytes : bytes }.

(** The trait: a service sees the hash and nothing else. *)
Class TimestampingService {P : Platform} := {
  request_timestamp : DigestHash → io World TimestampingServiceError TimestampingToken;
}.

Section token_hash.
Context {P : Platform}.
Definition TimestampingTokenHash_from_token (token : TimestampingToken) : TimestampingTokenHash :=
  mk_TimestampingTokenHash (sha256 (TimestampingToken_as_bytes token)).
Definition TimestampingTokenHash_to_hex (h : TimestampingTokenHash) : str :=
  hex_encode (TimestampingTokenHash_as_bytes h).
End token_hash.

(** ** The service in memory *)

#[global] Instance byte_countable : Countable byte := inj_countable Byte.to_N Byte.of_N Byte.of_to_N.

(** The map behind the mutex; [None] is a poisoned mutex. *)
Definition InMemoryTimestampingService : Type := option (gmap bytes TimestampingToken).
Definition InMemoryTimestampingService_new : InMemoryTimestampingService := Some ∅.
Definition issued_count (service : InMemoryTimestampingService) : Z :=
  match service with Some guard => Z.of_nat (size guard) | None => 0 end.
Definition token_for (service : InMemoryTimestampingService) (digest_hash : DigestHash) : option TimestampingToken :=
  guard ← service;
  guard !! DigestHash_as_bytes digest_hash.

Definition DUMMY_TOKEN_PREFIX : bytes := as_bytes "DUMMY-TST-V1:".
Definition build_dummy_token (digest_hash : DigestHash) : result TimestampingServiceError TimestampingToken :=
  TimestampingToken_new (DUMMY_TOKEN_PREFIX ++ DigestHash_as_bytes digest_hash).
Definition in_memory_request_timestamp (digest_hash : DigestHash) :
    io InMemoryTimestampingService TimestampingServiceError TimestampingToken := λ service,
  match service with
  | None => (Err (TimestampingServiceError_BackendFailed "mutex_poisoned"), service)
  | Some guard =>
      match guard !! DigestHash_as_bytes digest_hash with
      | Some existing => (Ok existing, service)
      | None =>
          match build_dummy_token digest_hash with
          | Err error => (Err error, service)
          | Ok token => (Ok token, Some (<[DigestHash_as_bytes digest_hash := token]> guard))
          end
      end
  end.

(** The service that always fails, with its code. *)
Definition failing_request_timestamp {W} (code : str) (_ : DigestHash) :
    io W TimestampingServiceError TimestampingToken :=
  lift (Err (TimestampingServiceError_BackendFailed code)).

(** ** The use case *)

Inductive RequestTimestampingError :=
| RequestTimestampingError_BackendFailed (code : str)
| RequestTimestampingError_LedgerAppendFailed (code : str).
Definition RequestTimestampingError_as_error_code (e : RequestTimestampingError) : str :=
  match e with
  | RequestTimestampingError_BackendFailed code | RequestTimestampingError_LedgerAppendFailed code => code
  end.
Definition RequestTimestampingError_to_string (e : RequestTimestampingError) : str :=
  match e with
  | RequestTimestampingError_BackendFailed code => "timestamping backend failed: " +:+ code
  | RequestTimestampingError_LedgerAppendFailed code => "timestamping ledger append failed: " +:+ code
  end.

Definition timestamping_backend_error_code (error : TimestampingServiceError) : str :=
  match error with
  | TimestampingServiceError_BackendFailed code =>
      if starts_with code "digest_timestamping_" then code else "digest_timestamping_backend_failed"
  | TimestampingServiceError_InvalidResponse _ => "digest_timestamping_invalid_response"
  end.

Section timestamping_use_case.
Context {P : Platform} {F : FileSystem} {SM : SerdeMembers} {A : AuditEventAppender}.
Context {IS : IncidentService} {NS : NotificationSink} {Svc : LedgerService} {TS : TimestampingService}.

Definition record_digest_timestamping_audit {E} (store : LocalAuditFallbackStore) (request_id : RequestId)
    (res : AuditResult) (builder : DigestTimestampingMetadata) : io World E unit :=
  logged (record_built_audit store request_id AuditAction_DigestTimestamping res
    (DigestTimestampingMetadata_build builder)).

Definition record_digest_timestamping_success_audit {E} (store : LocalAuditFallbackStore) (request_id : RequestId)
    (period : MonthlyDigestPeriod) (digest_hash_hex token_hash_hex : str) (requested_at : SourceEventAt) :
    io World E unit :=
  record_digest_timestamping_audit store request_id AuditResult_Success
    (DigestTimestampingMetadata_with_timestamp_token_hash
      (DigestTimestampingMetadata_with_digest_hash (DigestTimestampingMetadata_new period requested_at)
        digest_hash_hex) token_hash_hex).

Definition record_digest_timestamping_failure_audit {E} (store : LocalAuditFallbackStore) (request_id : RequestId)
    (period : MonthlyDigestPeriod) (digest_hash_hex error_code : str) (requested_at : SourceEventAt) :
    io World E unit :=
  record_digest_timestamping_audit store request_id AuditResult_Failure
    (DigestTimestampingMetadata_with_error_code
      (DigestTimestampingMetadata_with_digest_hash (DigestTimestampingMetadata_new period requested_at)
        digest_hash_hex) error_code).

Definition append_digest_timestamped_ledger_entry (appender : LedgerAppender) (digest : SignedMonthlyDigest)
    (token_hash_hex : str) (request_id : RequestId) (requested_at : SourceEventAt) : io World str unit :=
  let entry_type := LedgerEntryType_DigestTimestamped in
  payload ← lift (LedgerPayload_new entry_type (JObject (map_of_list
    [("digest_hash", JString (DigestHash_to_hex (dg_digest_hash digest)));
     ("target_year_month", JString (MonthlyDigestPeriod_as_str (dg_period digest)));
     ("timestamp_token_hash", JString token_hash_hex)]%string))
    !? (λ _, "digest_timestamped_payload_build_failed"%string));
  ledger_entry_id ← LedgerEntryId_generate !?? (λ _, "digest_timestamped_id_generate_failed"%string);
  draft ← lift (LedgerAppendDraft_new (mk_LedgerAppendDraft ledger_entry_id entry_type requested_at request_id
    None None None None None LedgerResult_Success None payload)
    !? (λ _, "digest_timestamped_draft_build_failed"%string));
  _ ← append appender draft !?? (λ _, "digest_timestamped_append_failed"%string);
  mret tt.

Definition request_timestamping_for_digest (store : LocalAuditFallbackStore) (appender : LedgerAppender)
    (digest : SignedMonthlyDigest) (request_id : RequestId) (requested_at : SourceEventAt) :
    io World RequestTimestampingError TimestampingToken :=
  let period := dg_period digest in
  let digest_hash_hex := DigestHash_to_hex (dg_digest_hash digest) in
  io_match (request_timestamp (dg_digest_hash digest)) (λ requested,
    match requested with
    | Err error =>
        let error_code := timestamping_backend_error_code error in
        _ ← record_digest_timestamping_failure_audit store request_id period digest_hash_hex error_code requested_at;
        lift (Err (RequestTimestampingError_BackendFailed error_code))
    | Ok token =>
        let token_hash_hex := TimestampingTokenHash_to_hex (TimestampingTokenHash_from_token token) in
        io_match (append_digest_timestamped_ledger_entry appender digest token_hash_hex request_id requested_at)
          (λ ledger_result,
            _ ← record_digest_timestamping_success_audit store request_id period digest_hash_hex token_hash_hex
                  requested_at;
            match ledger_result with
            | Ok _ => mret token
            | Err code => lift (Err (RequestTimestampingError_LedgerAppendFailed code))
            end)
    end).

Definition request_timestamping_for_digest_with_incident (store : LocalAuditFallbackStore)
    (appender : LedgerAppender) (digest : SignedMonthlyDigest) (request_id : RequestId)
    (requested_at : SourceEventAt) : io World RequestTimestampingError TimestampingToken :=
  io_match (request_timestamping_for_digest store appender digest request_id requested_at) (λ requested,
    match requested with
    | Ok token => mret token
    | Err error =>
        _ ← match digest_timestamping_incident_input "digest_timestamping_verify"
                  (RequestTimestampingError_as_error_code error) (dg_period digest) with
            | Some input => logged (incident_record appender input)
            | None => mret tt
            end;
        lift (Err error)
    end).
End timestamping_use_case.

(** ** Lemmas *)

Lemma TimestampingToken_new_Ok bytes token :
  TimestampingToken_new bytes = Ok token ↔ token = mk_TimestampingToken bytes ∧ TimestampingToken_wf token.
Proof.
  unfold TimestampingToken_new, TimestampingToken_wf, TimestampingToken_len, TIMESTAMPING_TOKEN_MIN_LENGTH.
  destruct (Z.ltb_spec (zlen bytes) 1); [split; [done|intros [-> ?]; cbn in *; lia]|].
  destruct (Z.ltb_spec TIMESTAMPING_TOKEN_MAX_LENGTH (zlen bytes)); split; try done.
  - intros [-> ?]. cbn in *. lia.
  - intros [= <-]. split; [done|]. cbn. lia.
  - by intros [-> _].
Qed.

Section timestamping_lemmas.
Context {P : Platform} {F : FileSystem} {SM : SerdeMembers} {A : AuditEventAppender}.
Context {IS : IncidentService} {NS : NotificationSink} {Svc : LedgerService} {TS : TimestampingService}.
Implicit Types (store : LocalAuditFallbackStore) (appender : LedgerAppender) (digest : SignedMonthlyDigest).

(** The entry the ledger takes for a token. *)
Lemma append_digest_timestamped_Ok appender digest hex rid t w w' :
  append_digest_timestamped_ledger_entry appender digest hex rid t w = (Ok tt, w') →
  ∃ draft w1 outcome, append appender draft w1 = (Ok outcome, w')
    ∧ ad_entry_type draft = LedgerEntryType_DigestTimestamped ∧ ad_result draft = LedgerResult_Success
    ∧ ad_source_event_at draft = t ∧ ad_request_id draft = rid
    ∧ payload_object (ad_payload draft) = [("digest_hash", JString (DigestHash_to_hex (dg_digest_hash digest)));
        ("target_year_month", JString (MonthlyDigestPeriod_as_str (dg_period digest)));
        ("timestamp_token_hash", JString hex)]%string.
Proof.
  unfold append_digest_timestamped_ledger_entry. intros H. inv_run.
  match goal with H : LedgerAppendDraft_new _ = _ |- _ => apply LedgerAppendDraft_new_Ok in H as [-> _] end.
  match goal with H : LedgerPayload_new _ _ = _ |- _ => apply LedgerPayload_new_Ok in H as ([= Hp] & _) end.
  simplify_eq. eexists _, _, _. split; [eassumption|]. by split_and!.
Qed.

Lemma append_digest_timestamped_Err appender digest hex rid t w code w' :
  append_digest_timestamped_ledger_entry appender digest hex rid t w = (Err code, w') →
  code ∈ ["digest_timestamped_payload_build_failed"; "digest_timestamped_id_generate_failed";
          "digest_timestamped_append_failed"]%string.
Proof.
  unfold append_digest_timestamped_ledger_entry, mbind, io_bind, lift, io_map_err.
  destruct (LedgerPayload_new _ _) as [p|] eqn:Hp; cbn [map_err]; [|intros [= <- _]; set_solver].
  apply LedgerPayload_new_Ok in Hp as (_ & Ht & _).
  destruct (LedgerEntryId_generate w) as [[id|] w1]; cbn [map_err]; [|intros [= <- _]; set_solver].
  unfold LedgerAppendDraft_new. cbn [ad_payload ad_entry_type]. rewrite Ht bool_decide_eq_true_2 //. cbn [map_err negb].
  destruct (append appender _ w1) as [[o|] w2]; cbn [map_err]; [done|intros [= <- _]; set_solver].
Qed.

Lemma timestamping_code_prefix error : starts_with (timestamping_backend_error_code error) "digest_timestamping_" = true.
Proof. destruct error as [code|]; [|done]. unfold timestamping_backend_error_code. by case_if. Qed.

(** The three ways a request ends. *)
Lemma request_timestamping_run store appender digest rid t w r w' :
  request_timestamping_for_digest store appender digest rid t w = (r, w') →
  (∃ error, (request_timestamp (dg_digest_hash digest) w).1 = Err error
     ∧ r = Err (RequestTimestampingError_BackendFailed (timestamping_backend_error_code error)))
  ∨ ∃ token w1 recorded w2, request_timestamp (dg_digest_hash digest) w = (Ok token, w1)
     ∧ append_digest_timestamped_ledger_entry appender digest
         (TimestampingTokenHash_to_hex (TimestampingTokenHash_from_token token)) rid t w1 = (recorded, w2)
     ∧ r = match recorded with
           | Ok _ => Ok token
           | Err code => Err (RequestTimestampingError_LedgerAppendFailed code)
           end
     ∧ w' = (record_built_audit store rid AuditAction_DigestTimestamping AuditResult_Success
         (DigestTimestampingMetadata_build (DigestTimestampingMetadata_with_timestamp_token_hash
           (DigestTimestampingMetadata_with_digest_hash (DigestTimestampingMetadata_new (dg_period digest) t)
             (DigestHash_to_hex (dg_digest_hash digest)))
           (TimestampingTokenHash_to_hex (TimestampingTokenHash_from_token token)))) w2).2.
Proof.
  intros (requested & w1 & Hr & H)%io_match_run. rewrite Hr. destruct requested as [token|error].
  - right. apply io_match_run in H as (recorded & w2 & Ha & H). exists token, w1, recorded, w2.
    unfold record_digest_timestamping_success_audit, record_digest_timestamping_audit, mbind, io_bind in H.
    rewrite logged_run in H. by destruct recorded; injection H as <- <-.
  - left. unfold record_digest_timestamping_failure_audit, record_digest_timestamping_audit, mbind, io_bind in H.
    rewrite logged_run in H. injection H as <- _. by exists error.
Qed.
End timestamping_lemmas.

(** ** Properties *)

(** The service in memory only ever holds the token it makes for each hash. *)
Definition issued_inv (service : InMemoryTimestampingService) : Prop :=
  match service with
  | Some guard => map_Forall (λ h token, build_dummy_token (mk_DigestHash h) = Ok token) guard
  | None => True
  end.
Lemma in_memory_request_inv h service r service' :
  issued_inv service → in_memory_request_timestamp h service = (r, service') → issued_inv service'.
Proof.
  destruct h as [h], service as [guard|]; cbn; [|by intros _ [= _ <-]]. intros Hi.
  destruct (guard !! h); [by intros [= _ <-]|]. destruct (build_dummy_token _) eqn:Hb; intros [= _ <-]; [|done].
  by apply map_Forall_insert_2.
Qed.

Lemma in_memory_request_Ok h service t service' :
  issued_inv service → in_memory_request_timestamp h service = (Ok t, service') →
  build_dummy_token h = Ok t ∧ token_for service' h = Some t
  ∧ (∀ k x, token_for service k = Some x → token_for service' k = Some x)
  ∧ (token_for service h = Some t → service' = service).
Proof.
  destruct h as [h], service as [guard|]; cbn; [|done]. intros Hi. destruct (guard !! h) as [x|] eqn:Hl.
  - intros [= -> <-]. split; [by apply Hi|done].
  - destruct (build_dummy_token _); intros [= -> <-]. cbn. split; [done|]. rewrite lookup_insert_eq. split_and!; try done.
    intros [k] x Hk. cbn in *. rewrite lookup_insert_ne //. congruence.
Qed.

Section timestamping_theorems.
Context {P : Platform} {F : FileSystem} {SM : SerdeMembers} {A : AuditEventAppender}.
Context {IS : IncidentService} {NS : NotificationSink} {Svc : LedgerService} {TS : TimestampingService}.
Implicit Types (store : LocalAuditFallbackStore) (appender : LedgerAppender) (digest : SignedMonthlyDigest).

(** A token is answered only for the digest's hash and only when it is recorded: the
    ledger took an entry that binds the digest's hash, its month and the token's hash. *)
Theorem timestamp_is_recorded store appender digest rid t w token w' :
  request_timestamping_for_digest store appender digest rid t w = (Ok token, w') →
  ∃ w1 draft w2 outcome w3, request_timestamp (dg_digest_hash digest) w = (Ok token, w1)
    ∧ append appender draft w2 = (Ok outcome, w3)
    ∧ ad_entry_type draft = LedgerEntryType_DigestTimestamped
    ∧ payload_object (ad_payload draft) = [("digest_hash", JString (DigestHash_to_hex (dg_digest_hash digest)));
        ("target_year_month", JString (MonthlyDigestPeriod_as_str (dg_period digest)));
        ("timestamp_token_hash",
          JString (TimestampingTokenHash_to_hex (TimestampingTokenHash_from_token token)))]%string.
Proof.
  intros [(error & _ & [=])|(token' & w1 & recorded & w2 & Hr & Ha & Heq & _)]%request_timestamping_run.
  destruct recorded as [[]|]; simplify_eq. apply append_digest_timestamped_Ok in Ha as (draft & w3 & outcome & Ha & Ht & _ & _ & _ & Hp).
  eexists _, _, _, _, _. by split_and!.
Qed.

(** When the ledger does not take the entry, the token is gone: the answer is the
    ledger's code, whatever the token was, although the audit log was given the
    token's hash as a success. *)
Theorem timestamp_token_lost_without_ledger store appender digest rid t w token w1 code w2 :
  request_timestamp (dg_digest_hash digest) w = (Ok token, w1) →
  append_digest_timestamped_ledger_entry appender digest
    (TimestampingTokenHash_to_hex (TimestampingTokenHash_from_token token)) rid t w1 = (Err code, w2) →
  request_timestamping_for_digest store appender digest rid t w
  = (Err (RequestTimestampingError_LedgerAppendFailed code),
     (record_built_audit store rid AuditAction_DigestTimestamping AuditResult_Success
       (DigestTimestampingMetadata_build (DigestTimestampingMetadata_with_timestamp_token_hash
         (DigestTimestampingMetadata_with_digest_hash (DigestTimestampingMetadata_new (dg_period digest) t)
           (DigestHash_to_hex (dg_digest_hash digest)))
         (TimestampingTokenHash_to_hex (TimestampingTokenHash_from_token token)))) w2).2).
Proof.
  intros Hr Ha. destruct (request_timestamping_for_digest store appender digest rid t w) as [r w'] eqn:H.
  apply request_timestamping_run in H as [(error & He & _)|(token' & w1' & recorded & w2' & Hr' & Ha' & -> & ->)].
  - by rewrite Hr in He.
  - rewrite Hr in Hr'. simplify_eq. rewrite Ha in Ha'. by simplify_eq.
Qed.

(** Every failure of the service becomes an incident, and so does the ledger's refusal
    of the entry; only a failure to build the entry raises none. *)
Theorem timestamping_failure_is_an_incident store appender digest rid t w error w' :
  request_timestamping_for_digest_with_incident store appender digest rid t w = (Err error, w') →
  (∃ input w1 recorded, incident_record appender input w1 = (recorded, w')
    ∧ in_incident_type input = IncidentType_DigestTimestampingMismatch
    ∧ in_error_code input = RequestTimestampingError_as_error_code error
    ∧ in_target_year_month input = Some (dg_period digest))
  ∨ ∃ code, error = RequestTimestampingError_LedgerAppendFailed code
      ∧ code ∈ ["digest_timestamped_payload_build_failed"; "digest_timestamped_id_generate_failed"]%string.
Proof.
  intros (r & w1 & Hx & H)%io_match_run. destruct r as [|e]; [done|].
  assert (error = e) as ->.
  { destruct (digest_timestamping_incident_input _ _ _); unfold mbind, io_bind in H; [rewrite logged_run in H|];
      by injection H as <- _. }
  assert (digest_timestamping_incident_type (RequestTimestampingError_as_error_code e)
      = Some IncidentType_DigestTimestampingMismatch
    ∨ ∃ code, e = RequestTimestampingError_LedgerAppendFailed code
      ∧ code ∈ ["digest_timestamped_payload_build_failed"; "digest_timestamped_id_generate_failed"]%string) as [Hi|Hi].
  { apply request_timestamping_run in Hx as [(se & _ & [= ->])|(token & w2 & recorded & w3 & _ & Ha & Heq & _)].
    - left. unfold digest_timestamping_incident_type. case_if; [done|]. cbn. by rewrite timestamping_code_prefix.
    - destruct recorded as [|code]; simplify_eq. apply append_digest_timestamped_Err in Ha.
      rewrite !elem_of_cons elem_of_nil in Ha. destruct Ha as [->|[->|[->|[]]]]; [right; eexists; split; [done|set_solver]..|by left]. }
  - left. unfold digest_timestamping_incident_input in H. rewrite Hi in H. cbn [mbind option_bind] in H.
    unfold mbind, io_bind in H. rewrite logged_run in H. injection H as <-.
    eexists _, w1, _. split; [apply surjective_pairing|done].
  - by right.
Qed.

(** The service in memory is faithful to its hashes: from an honest state, asking
    again changes nothing and gives the same token, and two hashes never share one. *)
Theorem in_memory_tokens_are_stable service h1 h2 t1 t2 s1 s2 :
  issued_inv service → in_memory_request_timestamp h1 service = (Ok t1, s1) →
  in_memory_request_timestamp h2 s1 = (Ok t2, s2) →
  (h1 = h2 ↔ t1 = t2) ∧ (h1 = h2 → s2 = s1) ∧ token_for s2 h1 = Some t1 ∧ TimestampingToken_wf t1.
Proof.
  intros Hi H1 H2. pose proof (in_memory_request_inv _ _ _ _ Hi H1) as Hi1.
  apply in_memory_request_Ok in H1 as (Hb1 & Ht1 & _ & _); [|done].
  apply in_memory_request_Ok in H2 as (Hb2 & Ht2 & Hm & Hsame); [|done].
  split_and!; [|intros ->; apply Hsame; congruence|by apply Hm|by apply TimestampingToken_new_Ok in Hb1 as [_ ?]].
  split; [intros ->; congruence|intros ->].
  apply TimestampingToken_new_Ok in Hb1 as [-> _]. apply TimestampingToken_new_Ok in Hb2 as [[= Heq] _].
  destruct h1, h2. cbn in *. by f_equal.
Qed.
End timestamping_theorems.
