(* ===== verification/SignatureKey.v ===== *)
(** * Signature keys ([src/server/signature_key.rs], [src/server/supabase/ledger_public_key_rpc.rs])

    The keys that sign the ledger are registered in the database: created, activated
    and retired by commands of the operator.  Each change is made together with an
    audit event and a ledger entry signed by the configured key, which has to be the
    active one; another command verifies every signature of the ledger. *)

From S2P Require Import Prelude RustStd Json Platform Reference Errors Types AuditTypes LedgerTypes LedgerPayload LedgerEntry LedgerChain LedgerRpc LedgerAppender Digest DigestUseCases Files AuditEvent AuditBuilders KeyRotation Maintenance Scheduler Auditor.

(** ** Rows of the database *)

Record LedgerSigningPublicKeyStatusResponse := mk_LedgerSigningPublicKeyStatusResponse {
  kr_key_version : Z;
  kr_public_key : str;
  kr_public_key_fingerprint : str;
  kr_algorithm : str;
  kr_status : str;
  kr_created_at : str;
  kr_activated_at : option str;
  kr_retired_at : option str;
}.

Record RegisterLedgerSigningPublicKeyParams := mk_RegisterLedgerSigningPublicKeyParams {
  gp_key_version : Z;
  gp_public_key : str;
}.
Record RegisterLedgerSigningPublicKeyResponse := mk_RegisterLedgerSigningPublicKeyResponse {
  gr_out_key_version : Z;
  gr_public_key : str;
  gr_algorithm : str;
  gr_status : str;
  gr_created_at : str;
  gr_retired_at : option str;
  gr_replayed : bool;
}.
Record RegisterLedgerSigningPublicKeyOutcome := mk_RegisterLedgerSigningPublicKeyOutcome { go_replayed : bool }.
Definition RegisterLedgerSigningPublicKeyOutcome_try_from (response : RegisterLedgerSigningPublicKeyResponse) :
    result SupabaseRpcError RegisterLedgerSigningPublicKeyOutcome :=
  if gr_out_key_version response <=? 0
  then Err (SupabaseRpcError_InvalidResponse
    "register ledger signing public key RPC returned invalid out_key_version")
  else Ok (mk_RegisterLedgerSigningPublicKeyOutcome (gr_replayed response)).

Inductive RegisterPublicKeyError :=
| RegisterPublicKeyError_Conflict
| RegisterPublicKeyError_Retired
| RegisterPublicKeyError_InvalidRpcInput
| RegisterPublicKeyError_RegisterFailed.
Definition REGISTER_PUBLIC_KEY_CONFLICT_MARKER : str := "ledger_signing_public_key_conflict".
Definition REGISTER_PUBLIC_KEY_RETIRED_MARKER : str := "ledger_signing_public_key_retired".
Definition REGISTER_INVALID_RPC_INPUT_MARKER : str := "invalid_rpc_input".
Definition RegisterPublicKeyError_as_error_code (e : RegisterPublicKeyError) : str :=
  match e with
  | RegisterPublicKeyError_Conflict => REGISTER_PUBLIC_KEY_CONFLICT_MARKER
  | RegisterPublicKeyError_Retired => REGISTER_PUBLIC_KEY_RETIRED_MARKER
  | RegisterPublicKeyError_InvalidRpcInput => REGISTER_INVALID_RPC_INPUT_MARKER
  | RegisterPublicKeyError_RegisterFailed => "ledger_public_key_register_failed"
  end.
Definition classify_register_public_key_error {P : Platform} (error : SupabaseRpcError) : RegisterPublicKeyError :=
  match error with
  | SupabaseRpcError_NonSuccessStatus _ body =>
      if response_contains_marker body REGISTER_PUBLIC_KEY_CONFLICT_MARKER then RegisterPublicKeyError_Conflict
      else if response_contains_marker body REGISTER_PUBLIC_KEY_RETIRED_MARKER then RegisterPublicKeyError_Retired
      else if response_contains_marker body REGISTER_INVALID_RPC_INPUT_MARKER
      then RegisterPublicKeyError_InvalidRpcInput
      else RegisterPublicKeyError_RegisterFailed
  | _ => RegisterPublicKeyError_RegisterFailed
  end.

(** The key of a creation, the event and the entry, which are sent as for any audit
    event with its entry. *)
Record SignatureKeyLifecycleParams := mk_SignatureKeyLifecycleParams {
  lc_key_version : option Z;
  lc_public_key : option str;
  lc_event_and_entry : AppendAuditEventWithLedgerParams;
}.

Section public_key_rpc.
Context {P : Platform}.

Record LedgerSigningPublicKeyStatus := mk_LedgerSigningPublicKeyStatus {
  ks_key_version : LedgerSignatureKeyVersion;
  ks_public_key : LedgerVerifyingKey;
  ks_public_key_fingerprint : str;
  ks_algorithm : str;
  ks_status : str;
  ks_created_at : str;
  ks_activated_at : option str;
  ks_retired_at : option str;
}.

Definition encode_public_key_as_bytea (bytes : bytes) : str := "\x" +:+ hex_encode bytes.
Definition decode_public_key_bytea (value : str) : result SupabaseRpcError bytes :=
  hex_value ← ok_or (strip_prefix "\x" value) (SupabaseRpcError_InvalidResponse
    "ledger signing public key status returned public_key without bytea prefix");
  ok_or (hex_decode hex_value) (SupabaseRpcError_InvalidResponse
    "ledger signing public key status returned invalid public_key hex").

Definition LedgerSigningPublicKeyStatus_try_from (response : LedgerSigningPublicKeyStatusResponse) :
    result SupabaseRpcError LedgerSigningPublicKeyStatus :=
  let invalid_key_version := SupabaseRpcError_InvalidResponse
    "ledger signing public key status returned invalid key_version" in
  key_version_raw ← ok_or (u_try_from u32_max (kr_key_version response)) invalid_key_version;
  key_version ← LedgerSignatureKeyVersion_new key_version_raw !? (λ _, invalid_key_version);
  public_key_bytes ← decode_public_key_bytea (kr_public_key response);
  public_key ← LedgerVerifyingKey_from_public_key_bytes key_version public_key_bytes
    !? (λ _, SupabaseRpcError_InvalidResponse
      "ledger signing public key status returned invalid public_key");
  if negb (String.eqb (kr_algorithm response) "ed25519")
  then Err (SupabaseRpcError_InvalidResponse "ledger signing public key status returned invalid algorithm")
  else Ok (mk_LedgerSigningPublicKeyStatus key_version public_key (kr_public_key_fingerprint response)
    (kr_algorithm response) (kr_status response) (kr_created_at response) (kr_activated_at response)
    (kr_retired_at response)).

Definition SignatureKeyLifecycleParams_from_event_and_entry (verification_key : option LedgerVerifyingKey)
    (event : AuditEvent) (entry : SignedLedgerEntry) : SignatureKeyLifecycleParams :=
  mk_SignatureKeyLifecycleParams
    ((λ key, LedgerSignatureKeyVersion_get (vk_key_version key)) <$> verification_key)
    ((λ key, encode_public_key_as_bytea (LedgerVerifyingKey_as_bytes key)) <$> verification_key)
    (from_event_and_entry event entry).

(** The remote calls. *)
Class PublicKeyService := {
  svc_register_public_key :
    RegisterLedgerSigningPublicKeyParams → io World SupabaseRpcError (list RegisterLedgerSigningPublicKeyResponse);
  svc_public_key_status : Z → io World SupabaseRpcError (list LedgerSigningPublicKeyStatusResponse);
  svc_create_public_key :
    SignatureKeyLifecycleParams → io World SupabaseRpcError (list AppendLedgerEntryResponse);
  svc_activate_public_key :
    SignatureKeyLifecycleParams → io World SupabaseRpcError (list AppendLedgerEntryResponse);
  svc_retire_public_key :
    SignatureKeyLifecycleParams → io World SupabaseRpcError (list AppendLedgerEntryResponse);
}.
Context {PK : PublicKeyService}.

Definition register_ledger_signing_public_key (verification_key : LedgerVerifyingKey) :
    io World SupabaseRpcError RegisterLedgerSigningPublicKeyOutcome :=
  rows ← svc_register_public_key (mk_RegisterLedgerSigningPublicKeyParams
    (LedgerSignatureKeyVersion_get (vk_key_version verification_key))
    (encode_public_key_as_bytea (LedgerVerifyingKey_as_bytes verification_key)));
  lift (first_row RegisterLedgerSigningPublicKeyOutcome_try_from rows).

Definition get_ledger_signing_public_key_status (key_version : LedgerSignatureKeyVersion) :
    io World SupabaseRpcError LedgerSigningPublicKeyStatus :=
  rows ← svc_public_key_status (LedgerSignatureKeyVersion_get key_version);
  lift (first_row LedgerSigningPublicKeyStatus_try_from rows).

Definition ensure_active_ledger_signing_public_key (verification_key : LedgerVerifyingKey) :
    io World SupabaseRpcError unit :=
  status ← get_ledger_signing_public_key_status (vk_key_version verification_key);
  if negb (String.eqb (ks_status status) "active")
  then lift (Err (SupabaseRpcError_InvalidResponse "ledger signing public key is not active")) else
  if negb (bool_decide (LedgerVerifyingKey_as_bytes (ks_public_key status)
                        = LedgerVerifyingKey_as_bytes verification_key))
  then lift (Err (SupabaseRpcError_InvalidResponse
    "ledger signing public key does not match configured signing key"))
  else mret tt.

Definition parse_lifecycle_outcome (rows : list AppendLedgerEntryResponse) :
    result SupabaseRpcError AppendLedgerEntryOutcome :=
  first_row AppendLedgerEntryOutcome_try_from rows.
Definition create_ledger_signing_public_key_with_ledger (verification_key : LedgerVerifyingKey)
    (event : AuditEvent) (entry : SignedLedgerEntry) : io World SupabaseRpcError AppendLedgerEntryOutcome :=
  rows ← svc_create_public_key (SignatureKeyLifecycleParams_from_event_and_entry (Some verification_key) event entry);
  lift (parse_lifecycle_outcome rows).
Definition activate_ledger_signing_public_key_with_ledger (event : AuditEvent) (entry : SignedLedgerEntry) :
    io World SupabaseRpcError AppendLedgerEntryOutcome :=
  rows ← svc_activate_public_key (SignatureKeyLifecycleParams_from_event_and_entry None event entry);
  lift (parse_lifecycle_outcome rows).
Definition retire_ledger_signing_public_key_with_ledger (event : AuditEvent) (entry : SignedLedgerEntry) :
    io World SupabaseRpcError AppendLedgerEntryOutcome :=
  rows ← svc_retire_public_key (SignatureKeyLifecycleParams_from_event_and_entry None event entry);
  lift (parse_lifecycle_outcome rows).
End public_key_rpc.

(** ** Arguments *)

Inductive SignatureKeyCliError :=
| SignatureKeyCliError_Usage (message : str)
| SignatureKeyCliError_Config (message : str)
| SignatureKeyCliError_Supabase (message : str)
| SignatureKeyCliError_Audit (message : str)
| SignatureKeyCliError_Ledger (message : str)
| SignatureKeyCliError_Serialization (message : str).
Definition SignatureKeyCliError_to_string (error : SignatureKeyCliError) : str :=
  match error with
  | SignatureKeyCliError_Usage message => message
  | SignatureKeyCliError_Config message => "signature key config error: " +:+ message
  | SignatureKeyCliError_Supabase message => "signature key Supabase RPC error: " +:+ message
  | SignatureKeyCliError_Audit message => "signature key audit error: " +:+ message
  | SignatureKeyCliError_Ledger message => "signature key ledger error: " +:+ message
  | SignatureKeyCliError_Serialization message => "signature key serialization error: " +:+ message
  end.

Definition signature_key_usage : str :=
  "usage:" +:+ newline
  +:+ "  mipsorcu signature-key public-key --format json" +:+ newline
  +:+ "  mipsorcu signature-key status --key-version <n> --format json" +:+ newline
  +:+ "  mipsorcu signature-key create --key-version <n> [--public-key-hex <64-hex>]" +:+ newline
  +:+ "  mipsorcu signature-key activate --key-version <n>" +:+ newline
  +:+ "  mipsorcu signature-key retire --key-version <n>" +:+ newline
  +:+ "  mipsorcu signature-key verify-all --format json".
Definition key_usage_error {A} : result SignatureKeyCliError A := Err (SignatureKeyCliError_Usage signature_key_usage).

(** The [while] loops, from the current index on. *)
Fixpoint parse_key_version_from (flag : str) (parsed : option LedgerSignatureKeyVersion) (args : list str) :
    result SignatureKeyCliError LedgerSignatureKeyVersion :=
  match args with
  | [] => match parsed with Some v => Ok v | None => key_usage_error end
  | arg :: rest =>
      if String.eqb arg flag then
        match rest with
        | [] => key_usage_error
        | value :: rest =>
            if starts_with value "--" then key_usage_error
            else match parse_u32 value with
            | None => key_usage_error
            | Some raw =>
                match LedgerSignatureKeyVersion_new raw with
                | Err _ => key_usage_error
                | Ok v => parse_key_version_from flag (Some v) rest
                end
            end
        end
      else parse_key_version_from flag parsed rest
  end.
Definition parse_key_version_arg (args : list str) (flag : str) :
    result SignatureKeyCliError LedgerSignatureKeyVersion :=
  parse_key_version_from flag None args.

Fixpoint parse_format_json_from (found : bool) (args : list str) : result SignatureKeyCliError unit :=
  match args with
  | [] => if found then Ok tt else key_usage_error
  | arg :: rest =>
      if String.eqb arg "--format" then
        match rest with
        | [] => key_usage_error
        | value :: rest => if negb (String.eqb value "json") then key_usage_error else parse_format_json_from true rest
        end
      else if str_in arg ["--key-version"; "--public-key-hex"]%string then
        match rest with
        | [] => if found then Ok tt else key_usage_error
        | _ :: rest => parse_format_json_from found rest
        end
      else parse_format_json_from found rest
  end.
Definition parse_format_json (args : list str) : result SignatureKeyCliError unit := parse_format_json_from false args.

Fixpoint find_public_key_hex (found : option str) (args : list str) : result SignatureKeyCliError (option str) :=
  match args with
  | [] => Ok found
  | arg :: rest =>
      if String.eqb arg "--public-key-hex" then
        match rest with
        | [] => key_usage_error
        | value :: rest => if starts_with value "--" then key_usage_error else find_public_key_hex (Some value) rest
        end
      else find_public_key_hex found rest
  end.

(** ** The commands *)

Section commands.
Context {P : Platform} {Svc : LedgerService} {DS : DigestService} {Rot : KeyRotationService}.
Context {MC : MonotonicClock P} {PK : PublicKeyService}.

(** What of [AppConfig] the commands use: the signing key, and the outcome of
    building the HTTP client; [pretty] is [serde_json::to_string_pretty]. *)
Record KeyCommandConfig := mk_KeyCommandConfig {
  kc_ledger_signing_key : LedgerSigningKey;
  kc_http_client : result str unit;
  kc_pretty : Value → result str str;
}.
Implicit Types (config : KeyCommandConfig).

Definition map_supabase_error (error : SupabaseRpcError) : SignatureKeyCliError :=
  SignatureKeyCliError_Supabase (SupabaseRpcError_to_string error).
Definition key_audit_failure (error : AuditEventError) : SignatureKeyCliError :=
  SignatureKeyCliError_Audit (AuditEventError_to_string error).
Definition key_ledger_failure (error : LedgerError) : SignatureKeyCliError :=
  SignatureKeyCliError_Ledger (LedgerError_to_string error).

Definition parse_public_key_arg (args : list str) (key_version : LedgerSignatureKeyVersion)
    (signing_key : LedgerSigningKey) : result SignatureKeyCliError LedgerVerifyingKey :=
  public_key_hex ← find_public_key_hex None args;
  match public_key_hex with
  | None =>
      let verification_key := LedgerSigningKey_verification_key signing_key in
      if negb (bool_decide (vk_key_version verification_key = key_version))
      then Err (SignatureKeyCliError_Usage
        "key-version must match configured signing key when --public-key-hex is omitted")
      else Ok verification_key
  | Some raw_hex =>
      let normalized := default raw_hex (strip_prefix "\x" raw_hex) in
      match hex_decode normalized with
      | None => key_usage_error
      | Some bytes =>
          if negb (length bytes =? LEDGER_ED25519_PUBLIC_KEY_LENGTH)%nat then key_usage_error
          else LedgerVerifyingKey_from_public_key_bytes key_version bytes
            !? (λ error, SignatureKeyCliError_Usage (LedgerError_to_string error))
      end
  end.

Definition build_client config : result SignatureKeyCliError unit :=
  kc_http_client config !? SignatureKeyCliError_Config.
Definition build_ledger_appender config : LedgerAppender :=
  mk_LedgerAppender (kc_ledger_signing_key config) LedgerAppenderConfig_default.
Definition ensure_current_signing_key_active (signing_key : LedgerSigningKey) : io World SignatureKeyCliError unit :=
  ensure_active_ledger_signing_public_key (LedgerSigningKey_verification_key signing_key) !?? map_supabase_error.
Definition print_json config (value : Value) : result SignatureKeyCliError str :=
  kc_pretty config value !? SignatureKeyCliError_Serialization.

Definition build_signature_key_event (action : AuditAction) (metadata_json : AuditMetadata) :
    io World SignatureKeyCliError AuditEvent :=
  audit_event_id ← AuditEventId_generate !?? key_audit_failure;
  request_id ← RequestId_generate !?? key_audit_failure;
  lift (AuditEvent_new (mk_AuditEventParts audit_event_id request_id None None action None AuditResult_Success
    None metadata_json) !? key_audit_failure).

(** Signing of one draft; [signed_entries.pop()]. *)
Definition sign_one (ledger_appender : LedgerAppender) (draft : LedgerAppendDraft) :
    io World SignatureKeyCliError SignedLedgerEntry :=
  signed_entries ← sign_entries ledger_appender [draft]
    !?? (λ error, SignatureKeyCliError_Ledger (LedgerAppendError_to_string error));
  lift (ok_or (last signed_entries) (SignatureKeyCliError_Ledger "ledger signing returned no entry")).

Definition sign_signature_key_ledger_entry (ledger_appender : LedgerAppender) (event : AuditEvent)
    (entry_type : LedgerEntryType) (source_event_at : str) (payload_value : Value) :
    io World SignatureKeyCliError SignedLedgerEntry :=
  payload ← lift (LedgerPayload_new entry_type payload_value !? key_ledger_failure);
  source_event_at ← lift (SourceEventAt_parse source_event_at
    !? (λ error, SignatureKeyCliError_Ledger (AadError_to_string error)));
  ledger_entry_id ← LedgerEntryId_generate !?? key_ledger_failure;
  draft ← lift (LedgerAppendDraft_new (mk_LedgerAppendDraft ledger_entry_id entry_type source_event_at
    (ev_request_id (event_parts event)) (Some (ev_audit_event_id (event_parts event))) None None None None
    LedgerResult_Success None payload) !? key_ledger_failure);
  sign_one ledger_appender draft.

Definition PublicKeyOutput (key_version : Z) (public_key_hex public_key_fingerprint : str) : Value :=
  JObject [("key_version", json_uint key_version); ("public_key_hex", JString public_key_hex);
    ("public_key_fingerprint", JString public_key_fingerprint)]%string.
Definition StatusOutput_from (status : LedgerSigningPublicKeyStatus) : Value :=
  JObject [("key_version", json_uint (LedgerSignatureKeyVersion_get (ks_key_version status)));
    ("public_key_fingerprint", JString (ks_public_key_fingerprint status));
    ("algorithm", JString (ks_algorithm status)); ("status", JString (ks_status status));
    ("created_at", JString (ks_created_at status)); ("activated_at", json_opt_str (ks_activated_at status));
    ("retired_at", json_opt_str (ks_retired_at status))]%string.
Definition VerifyAllOutput (valid : bool) (checked_count : Z) (error_code : option str) : Value :=
  JObject [("valid", JBool valid); ("checked_count", json_uint checked_count);
    ("error_code", json_opt_str error_code)]%string.

(** Each command answers with the line it prints. *)
Definition public_key config (args : list str) : result SignatureKeyCliError str :=
  _ ← parse_format_json args;
  let verification_key := LedgerSigningKey_verification_key (kc_ledger_signing_key config) in
  print_json config (PublicKeyOutput (LedgerSignatureKeyVersion_get (vk_key_version verification_key))
    (hex_encode (LedgerVerifyingKey_as_bytes verification_key)) (LedgerVerifyingKey_fingerprint_hex verification_key)).

Definition key_status config (args : list str) : io World SignatureKeyCliError str :=
  key_version ← lift (parse_key_version_arg args "--key-version");
  _ ← lift (parse_format_json args);
  _ ← lift (build_client config);
  status ← get_ledger_signing_public_key_status key_version !?? map_supabase_error;
  lift (print_json config (StatusOutput_from status)).

Definition key_line (verb : str) (key_version : LedgerSignatureKeyVersion) (fingerprint : str) : str :=
  "signature_key_" +:+ verb +:+ " key_version=" +:+ int_to_string (LedgerSignatureKeyVersion_get key_version)
  +:+ " public_key_fingerprint=" +:+ fingerprint.
Definition key_payload (key_version : LedgerSignatureKeyVersion) (fingerprint at_key : str)
    (source_event_at : SourceEventAt) : Value :=
  JObject (map_of_list [("signature_key_version"%string, json_uint (LedgerSignatureKeyVersion_get key_version));
    ("public_key_fingerprint"%string, JString fingerprint); (at_key, JString (SourceEventAt_as_str source_event_at))]).

Definition key_create config (args : list str) : io World SignatureKeyCliError str :=
  key_version ← lift (parse_key_version_arg args "--key-version");
  verification_key ← lift (parse_public_key_arg args key_version (kc_ledger_signing_key config));
  _ ← lift (build_client config);
  _ ← ensure_current_signing_key_active (kc_ledger_signing_key config);
  let ledger_appender := build_ledger_appender config in
  source_event_at ← SourceEventAt_now_utc !?? (λ error, SignatureKeyCliError_Audit (AadError_to_string error));
  let fingerprint := LedgerVerifyingKey_fingerprint_hex verification_key in
  metadata ← lift (SignatureKeyCreatedMetadata_build (SignatureKeyCreatedMetadata_new key_version fingerprint
    source_event_at) !? key_audit_failure);
  event ← build_signature_key_event AuditAction_SignatureKeyCreated metadata;
  signed_entry ← sign_signature_key_ledger_entry ledger_appender event LedgerEntryType_SignatureKeyCreated
    (SourceEventAt_as_str source_event_at) (key_payload key_version fingerprint "created_at" source_event_at);
  _ ← create_ledger_signing_public_key_with_ledger verification_key event signed_entry !?? map_supabase_error;
  mret (key_line "created" key_version (LedgerVerifyingKey_fingerprint_hex verification_key)).

(** [activate] and [retire] differ in the action, the entry, the metadata and the
    call. *)
Definition change_key (verb at_key : str) (action : AuditAction) (entry_type : LedgerEntryType)
    (metadata : LedgerSignatureKeyVersion → str → SourceEventAt → result AuditEventError AuditMetadata)
    (call : AuditEvent → SignedLedgerEntry → io World SupabaseRpcError AppendLedgerEntryOutcome)
    config (args : list str) : io World SignatureKeyCliError str :=
  key_version ← lift (parse_key_version_arg args "--key-version");
  _ ← lift (build_client config);
  _ ← ensure_current_signing_key_active (kc_ledger_signing_key config);
  status ← get_ledger_signing_public_key_status key_version !?? map_supabase_error;
  let ledger_appender := build_ledger_appender config in
  source_event_at ← SourceEventAt_now_utc !?? (λ error, SignatureKeyCliError_Audit (AadError_to_string error));
  let fingerprint := ks_public_key_fingerprint status in
  metadata ← lift (metadata key_version fingerprint source_event_at !? key_audit_failure);
  event ← build_signature_key_event action metadata;
  signed_entry ← sign_signature_key_ledger_entry ledger_appender event entry_type
    (SourceEventAt_as_str source_event_at) (key_payload key_version fingerprint at_key source_event_at);
  _ ← call event signed_entry !?? map_supabase_error;
  mret (key_line verb key_version (ks_public_key_fingerprint status)).
Definition key_activate : KeyCommandConfig → list str → io World SignatureKeyCliError str :=
  change_key "activated" "activated_at" AuditAction_SignatureKeyActivated LedgerEntryType_SignatureKeyActivated
    (λ v f t, SignatureKeyActivatedMetadata_build (SignatureKeyActivatedMetadata_new v f t))
    activate_ledger_signing_public_key_with_ledger.
Definition key_retire : KeyCommandConfig → list str → io World SignatureKeyCliError str :=
  change_key "retired" "retired_at" AuditAction_SignatureKeyRetired LedgerEntryType_SignatureKeyRetired
    (λ v f t, SignatureKeyRetiredMetadata_build (SignatureKeyRetiredMetadata_new v f t))
    retire_ledger_signing_public_key_with_ledger.

Definition LEDGER_SIGNATURE_FULL_VERIFY_JOB : str := "ledger_signature_full_verify".
Definition record_verify_all_result (ledger_appender : LedgerAppender) (res : AuditResult)
    (error_code : option str) (duration_ms : Z) : io World SignatureKeyCliError unit :=
  source_event_at ← SourceEventAt_now_utc !?? (λ error, SignatureKeyCliError_Audit (AadError_to_string error));
  let b := SchedulerJobMetadata_new LEDGER_SIGNATURE_FULL_VERIFY_JOB AuditTrigger_Cli source_event_at in
  let b := SchedulerJobMetadata_with_duration_ms b duration_ms in
  let b := match error_code with Some code => SchedulerJobMetadata_with_error_code b code | None => b end in
  metadata ← lift (SchedulerJobMetadata_build b !? key_audit_failure);
  audit_event_id ← AuditEventId_generate !?? key_audit_failure;
  request_id ← RequestId_generate !?? key_audit_failure;
  event ← lift (AuditEvent_new (mk_AuditEventParts audit_event_id request_id None None AuditAction_SchedulerJob
    None res None metadata) !? key_audit_failure);
  let entry_type := LedgerEntryType_SchedulerJobCompleted in
  payload ← lift (LedgerPayload_new entry_type (JObject (map_of_list
    [("duration_ms", json_uint duration_ms); ("job_name", JString LEDGER_SIGNATURE_FULL_VERIFY_JOB);
     ("trigger", JString (AuditTrigger_as_str AuditTrigger_Cli))]%string)) !? key_ledger_failure);
  let ledger_result := if bool_decide (res = AuditResult_Success) then LedgerResult_Success else LedgerResult_Failure in
  ledger_entry_id ← LedgerEntryId_generate !?? key_ledger_failure;
  draft ← lift (LedgerAppendDraft_new (mk_LedgerAppendDraft ledger_entry_id entry_type source_event_at request_id
    (Some (ev_audit_event_id (event_parts event))) None None None None ledger_result error_code payload)
    !? key_ledger_failure);
  signed_entry ← sign_one ledger_appender draft;
  _ ← call_append_audit_event_with_ledger event signed_entry !?? map_supabase_error;
  mret tt.

Definition instant {E} : io World E Z := λ w, let '(t, w') := instant_now w in (Ok t, w').
Definition duration_since (started_at now : Z) : Z :=
  default u64_max (u_try_from u64_max (Z.max 0 (now - started_at) / 1000000)).

(** The line is printed also when the command then fails. *)
Definition verify_all config (args : list str) :
    io World SignatureKeyCliError (str * result SignatureKeyCliError unit) :=
  _ ← lift (parse_format_json args);
  _ ← lift (build_client config);
  _ ← ensure_current_signing_key_active (kc_ledger_signing_key config);
  let ledger_appender := build_ledger_appender config in
  started_at ← instant;
  outcome ← io_match verify_full_ledger_signatures (λ outcome, mret outcome);
  now ← instant;
  let duration_ms := duration_since started_at now in
  let '(valid, checked_count, error_code) := match outcome with
    | Ok summary => (sv_valid summary, sv_checked_count summary, sv_error_code summary)
    | Err error_code => (false, 0, Some error_code)
    end in
  let res := if valid then AuditResult_Success else AuditResult_Failure in
  _ ← record_verify_all_result ledger_appender res error_code duration_ms;
  json_output ← lift (print_json config (VerifyAllOutput valid checked_count error_code));
  mret (json_output, if valid then Ok tt
    else Err (SignatureKeyCliError_Ledger (default "ledger_signature_verification_failed"%string error_code))).

(** The lines printed and the outcome. *)
Definition signature_key_run_cli config (args : list str) (w : World) :
    list str * result SignatureKeyCliError unit * World :=
  let printed (r : result SignatureKeyCliError str * World) :=
    match r with (Ok line, w') => ([line], Ok tt, w') | (Err error, w') => ([], Err error, w') end in
  match args with
  | [] => ([], key_usage_error, w)
  | command :: command_args =>
      if String.eqb command "public-key" then printed (public_key config command_args, w)
      else if String.eqb command "status" then printed (key_status config command_args w)
      else if String.eqb command "create" then printed (key_create config command_args w)
      else if String.eqb command "activate" then printed (key_activate config command_args w)
      else if String.eqb command "retire" then printed (key_retire config command_args w)
      else if String.eqb command "verify-all" then
        match verify_all config command_args w with
        | (Ok (line, outcome), w') => ([line], outcome, w')
        | (Err error, w') => ([], Err error, w')
        end
      else ([], key_usage_error, w)
  end.
End commands.

(** ** Lemmas *)

Section key_lemmas.
Context {P : Platform} {Svc : LedgerService}.

Lemma decode_encode_public_key {LH : HexLaws P} b : decode_public_key_bytea (encode_public_key_as_bytea b) = Ok b.
Proof.
  unfold decode_public_key_bytea, encode_public_key_as_bytea.
  by rewrite (strip_prefix_app "\x") /= hex_decode_encode.
Qed.

(** The row the database keeps of a key it was sent. *)
Lemma registered_key_status {LE : Ed25519Laws P} {LH : HexLaws P} (key : LedgerVerifyingKey) row :
  LedgerSignatureKeyVersion_wf (vk_key_version key) →
  kr_key_version row = LedgerSignatureKeyVersion_get (vk_key_version key) →
  kr_public_key row = encode_public_key_as_bytea (LedgerVerifyingKey_as_bytes key) →
  kr_algorithm row = "ed25519"%string →
  ∃ status, LedgerSigningPublicKeyStatus_try_from row = Ok status
    ∧ ks_key_version status = vk_key_version key ∧ ks_public_key status = key.
Proof.
  intros Hv Hkv Hpk Halg. unfold LedgerSigningPublicKeyStatus_try_from. rewrite Hkv Hpk Halg /=.
  unfold LedgerSignatureKeyVersion_wf, nonzero_u32 in Hv. destruct key as [[v] key]; cbn in *.
  assert (u_try_from u32_max v = Some v) as -> by (apply u_try_from_Some; lia). cbn.
  assert (LedgerSignatureKeyVersion_new v = Ok (mk_LedgerSignatureKeyVersion v)) as ->.
  { unfold LedgerSignatureKeyVersion_new, NonZeroU32_new. by rewrite (proj2 (Z.eqb_neq v 0)); [|lia]. }
  cbn. rewrite decode_encode_public_key /=.
  pose proof (verifying_key_bytes_round_trip (mk_LedgerVerifyingKey (mk_LedgerSignatureKeyVersion v) key)) as Hr.
  cbn in Hr |- *. rewrite Hr. by eexists.
Qed.

(** The signed entry is the draft's, and extends the chain the database reported. *)
Lemma sign_one_Ok {LE : Ed25519Laws P} appender draft w entry w' :
  sign_one appender draft w = (Ok entry, w') →
  (∃ n h, se_fields entry = entry_fields draft n h (sk_key_version (signing_key appender)))
  ∧ ∃ head, fetch_chain_head 1 w = (Ok head, w')
    ∧ ∀ keys, registered_key keys (sk_key_version (signing_key appender))
        (LedgerSigningKey_verification_key (signing_key appender)) →
      ∃ final, verify_ledger_chain [entry] head keys = Ok final.
Proof.
  unfold sign_one. intros H. inv_run. select (sign_entries _ _ _ = _) (fun H => rename H into Hs).
  match goal with H : last ?l = Some _ |- _ => assert (l = [entry]) as -> end.
  { unfold sign_entries in Hs. inv_run. unfold sign_entries_from_head in *.
    select (sign_entries_loop _ _ _ _ = _) (fun H => apply sign_entries_loop_length in H).
    match goal with H : last ?l = Some _ |- _ => destruct l as [|? []]; simplify_eq/= end. done. }
  split; [by eapply sign_entry_fields|]. unfold sign_entries in Hs. inv_run.
  eexists. split; [eassumption|]. intros keys Hk.
  select (fetch_chain_head _ _ = _) (fun H => apply fetch_chain_head_wf in H as [? _]).
  edestruct sign_entries_verify as (final & ? & _); [done|exact Hk|eassumption|]. by exists final.
Qed.

Context {PK : PublicKeyService}.

Lemma active_key_checked key w w' :
  ensure_active_ledger_signing_public_key key w = (Ok tt, w') →
  ∃ status, get_ledger_signing_public_key_status (vk_key_version key) w = (Ok status, w')
    ∧ ks_status status = "active"%string
    ∧ LedgerVerifyingKey_as_bytes (ks_public_key status) = LedgerVerifyingKey_as_bytes key.
Proof.
  unfold ensure_active_ledger_signing_public_key. intros H. inv_run. repeat case_if; inv_run; [done..|].
  repeat match goal with H : negb _ = false |- _ => apply negb_false_iff in H end. b2p.
  match goal with H : String.eqb _ _ = true |- _ => apply String.eqb_eq in H end. simplify_eq. eauto.
Qed.

(** The key of an argument has the version of the other argument. *)
Lemma parse_public_key_arg_version args v signing_key key :
  parse_public_key_arg args v signing_key = Ok key → vk_key_version key = v.
Proof.
  unfold parse_public_key_arg, LedgerVerifyingKey_from_public_key_bytes. intros H. inv_ok.
  select (option str) (fun o => destruct o).
  - destruct (hex_decode _); [|done]. case_if; [done|]. inv_ok. repeat (case_match; inv_ok); done.
  - case_if; [done|]. apply negb_false_iff in Heqb. b2p. by inv_ok.
Qed.
End key_lemmas.

(** ** Properties *)

Section key_theorems.
Context {P : Platform} {Svc : LedgerService} {DS : DigestService} {Rot : KeyRotationService}.
Context {MC : MonotonicClock P} {PK : PublicKeyService}.
Implicit Types (config : KeyCommandConfig).

(** The configured key is the one the database has as active. *)
Definition signs_with_active_key config (w w' : World) : Prop :=
  ∃ status, get_ledger_signing_public_key_status (sk_key_version (kc_ledger_signing_key config)) w = (Ok status, w')
    ∧ ks_status status = "active"%string
    ∧ LedgerVerifyingKey_as_bytes (ks_public_key status)
      = LedgerVerifyingKey_as_bytes (LedgerSigningKey_verification_key (kc_ledger_signing_key config)).

(** The members that name a key, in the metadata of an event and in the payload of an
    entry: its version, its fingerprint and the time of the change. *)
Definition names_key (v : LedgerSignatureKeyVersion) (fingerprint at_key : str) (t : SourceEventAt) (object : Map) : Prop :=
  map_get "signature_key_version" object = Some (json_uint (LedgerSignatureKeyVersion_get v))
  ∧ map_get "public_key_fingerprint" object = Some (JString fingerprint)
  ∧ map_get at_key object = Some (JString (SourceEventAt_as_str t)).

(** An event and an entry of a change of the key of a version: they belong to one
    another, both name the key and the time of the change, and the entry extends the
    chain the database reported under the configured key. *)
Definition key_change_documented config (action : AuditAction) (entry_type : LedgerEntryType) (at_key : str)
    (v : LedgerSignatureKeyVersion) (fingerprint : str) (event : AuditEvent) (entry : SignedLedgerEntry) : Prop :=
  ev_action (event_parts event) = action ∧ ev_result (event_parts event) = AuditResult_Success
  ∧ cf_entry_type (se_fields entry) = entry_type
  ∧ cf_source_event_id (se_fields entry) = Some (ev_audit_event_id (event_parts event))
  ∧ cf_signature_key_version (se_fields entry) = sk_key_version (kc_ledger_signing_key config)
  ∧ (∃ object, AuditMetadata_as_value (ev_metadata_json (event_parts event)) = JObject object
       ∧ names_key v fingerprint at_key (cf_source_event_at (se_fields entry)) object)
  ∧ names_key v fingerprint at_key (cf_source_event_at (se_fields entry)) (payload_object (cf_payload (se_fields entry)))
  ∧ ∃ w w' head, fetch_chain_head 1 w = (Ok head, w')
    ∧ ∀ keys, registered_key keys (sk_key_version (kc_ledger_signing_key config))
        (LedgerSigningKey_verification_key (kc_ledger_signing_key config)) →
      ∃ final, verify_ledger_chain [entry] head keys = Ok final.

(** The metadata of the three commands. *)
Inductive key_metadata (v : LedgerSignatureKeyVersion) (fingerprint : str) (t : SourceEventAt) :
    str → AuditMetadata → Prop :=
| metadata_created m : SignatureKeyCreatedMetadata_build (SignatureKeyCreatedMetadata_new v fingerprint t) = Ok m →
    key_metadata v fingerprint t "created_at" m
| metadata_activated m :
    SignatureKeyActivatedMetadata_build (SignatureKeyActivatedMetadata_new v fingerprint t) = Ok m →
    key_metadata v fingerprint t "activated_at" m
| metadata_retired m : SignatureKeyRetiredMetadata_build (SignatureKeyRetiredMetadata_new v fingerprint t) = Ok m →
    key_metadata v fingerprint t "retired_at" m.
#[local] Hint Constructors key_metadata : core.

Lemma key_metadata_names v fingerprint t at_key m :
  key_metadata v fingerprint t at_key m →
  ∃ object, AuditMetadata_as_value m = JObject object ∧ names_key v fingerprint at_key t object.
Proof. by intros [? ->%build_object_Ok|? ->%build_object_Ok|? ->%build_object_Ok]; eexists; split. Qed.

Lemma signature_key_entry {LE : Ed25519Laws P} config action metadata w event w1 entry_type at_key v fingerprint t entry w2 :
  key_metadata v fingerprint t at_key metadata →
  build_signature_key_event action metadata w = (Ok event, w1) →
  sign_signature_key_ledger_entry (build_ledger_appender config) event entry_type (SourceEventAt_as_str t)
    (key_payload v fingerprint at_key t) w1 = (Ok entry, w2) →
  key_change_documented config action entry_type at_key v fingerprint event entry.
Proof.
  unfold build_signature_key_event, sign_signature_key_ledger_entry. intros Hm H1 H2. inv_run.
  match goal with H : AuditEvent_new _ = _ |- _ => apply AuditEvent_new_Ok in H as [-> _] end.
  match goal with H : LedgerAppendDraft_new _ = _ |- _ => apply LedgerAppendDraft_new_Ok in H as [-> _] end.
  match goal with H : LedgerPayload_new _ _ = _ |- _ => apply LedgerPayload_new_Ok in H as ([= Hp] & _) end.
  match goal with H : SourceEventAt_parse _ = Ok ?t' |- _ => apply SourceEventAt_parse_str in H as [Ht _];
    assert (t' = t) as -> by (destruct t', t; cbn in Ht; by rewrite Ht) end.
  match goal with H : sign_one _ _ _ = _ |- _ => apply sign_one_Ok in H as ((n & h & He) & head & Hf & Hc) end.
  unfold key_change_documented. rewrite He. cbn [event_parts ev_action ev_result ev_metadata_json entry_fields cf_entry_type
    cf_source_event_id cf_source_event_at cf_signature_key_version cf_payload ad_payload ad_source_event_id ad_entry_type].
  rewrite -Hp. split_and!; try done; [by eapply key_metadata_names| |by do 3 eexists]. by destruct Hm.
Qed.

(** C14. A signature key is only created by the holder of the active one: when the command
    succeeds, the configured key was the active key of the database, and the database
    took, in one call, the new key, of the version asked for, with an event and an
    entry of its creation; the metadata of the event and the payload of the entry both
    name the key's version, its fingerprint and the time of the entry as its creation. *)
Theorem key_creation_is_documented {LE : Ed25519Laws P} config args w line w' :
  key_create config args w = (Ok line, w') →
  ∃ v key w1 event entry w2 rows,
    parse_key_version_arg args "--key-version" = Ok v ∧ vk_key_version key = v
    ∧ parse_public_key_arg args v (kc_ledger_signing_key config) = Ok key
    ∧ signs_with_active_key config w w1
    ∧ key_change_documented config AuditAction_SignatureKeyCreated LedgerEntryType_SignatureKeyCreated "created_at" v
        (LedgerVerifyingKey_fingerprint_hex key) event entry
    ∧ svc_create_public_key (SignatureKeyLifecycleParams_from_event_and_entry (Some key) event entry) w2
        = (Ok rows, w')
    ∧ rows ≠ [].
Proof.
  unfold key_create, ensure_current_signing_key_active, create_ledger_signing_public_key_with_ledger,
    parse_lifecycle_outcome, first_row. intros H. inv_run.
  match goal with H : ensure_active_ledger_signing_public_key _ _ = _ |- _ => apply active_key_checked in H end.
  match goal with H : parse_public_key_arg _ _ _ = Ok _ |- _ =>
    pose proof (parse_public_key_arg_version _ _ _ _ H) end.
  do 7 eexists. split_and!; try eassumption.
  - by eapply signature_key_entry; [apply metadata_created|..].
  - by intros ->.
Qed.

(** The two changes of a key, with the call each makes. *)
Inductive key_change : (KeyCommandConfig → list str → io World SignatureKeyCliError str) → AuditAction →
    LedgerEntryType → str → (SignatureKeyLifecycleParams → io World SupabaseRpcError (list AppendLedgerEntryResponse)) → Prop :=
| key_change_activate : key_change key_activate AuditAction_SignatureKeyActivated
    LedgerEntryType_SignatureKeyActivated "activated_at" svc_activate_public_key
| key_change_retire : key_change key_retire AuditAction_SignatureKeyRetired
    LedgerEntryType_SignatureKeyRetired "retired_at" svc_retire_public_key.

(** Activating and retiring a key: when the command succeeds, the configured key was
    the active one, the key is one the database has, and the database took in one call
    the change with an event and an entry that name the key by the version asked for
    and the fingerprint the database gave. *)
Theorem key_change_is_documented {LE : Ed25519Laws P} command action entry_type at_key call config args w line w' :
  key_change command action entry_type at_key call → command config args w = (Ok line, w') →
  ∃ v w1 status w2 event entry w3 rows,
    parse_key_version_arg args "--key-version" = Ok v
    ∧ signs_with_active_key config w w1
    ∧ get_ledger_signing_public_key_status v w1 = (Ok status, w2)
    ∧ key_change_documented config action entry_type at_key v (ks_public_key_fingerprint status) event entry
    ∧ call (SignatureKeyLifecycleParams_from_event_and_entry None event entry) w3 = (Ok rows, w')
    ∧ rows ≠ [].
Proof.
  intros Hc H. destruct Hc; unfold key_activate, key_retire, change_key, ensure_current_signing_key_active,
    activate_ledger_signing_public_key_with_ledger, retire_ledger_signing_public_key_with_ledger,
    parse_lifecycle_outcome, first_row in H; inv_run;
  match goal with H : ensure_active_ledger_signing_public_key _ _ = _ |- _ => apply active_key_checked in H end;
  (do 8 eexists; split_and!; try eassumption; [by eapply signature_key_entry; [constructor|..]|by intros ->]).
Qed.

Lemma verify_all_result_recorded {LE : Ed25519Laws P} appender res error_code duration_ms w w' :
  record_verify_all_result appender res error_code duration_ms w = (Ok tt, w') →
  ∃ event entry w3 appended, call_append_audit_event_with_ledger event entry w3 = (Ok appended, w')
    ∧ ev_result (event_parts event) = res
    ∧ cf_result (se_fields entry)
      = match res with AuditResult_Success => LedgerResult_Success | AuditResult_Failure => LedgerResult_Failure end
    ∧ cf_entry_type (se_fields entry) = LedgerEntryType_SchedulerJobCompleted
    ∧ cf_source_event_id (se_fields entry) = Some (ev_audit_event_id (event_parts event)).
Proof.
  unfold record_verify_all_result. intros H. inv_run.
  match goal with H : AuditEvent_new _ = _ |- _ => apply AuditEvent_new_Ok in H as [-> _] end.
  match goal with H : LedgerAppendDraft_new _ = _ |- _ => apply LedgerAppendDraft_new_Ok in H as [-> _] end.
  match goal with H : sign_one _ _ _ = _ |- _ => apply sign_one_Ok in H as ((n & h & He) & _) end.
  simplify_eq. do 4 eexists. split; [eassumption|]. rewrite He. split_and!; try done. by destruct res.
Qed.

(** The verdict of [verify-all] is that of the signatures, and it is on record before
    it is given: the command succeeds exactly when the rows up to the head the
    database reported pass, and an event and an entry with the verdict were taken. *)
Theorem verify_all_is_recorded {LE : Ed25519Laws P} config args w line outcome w' :
  verify_all config args w = (Ok (line, outcome), w') →
  ∃ w1 verified w2 event entry w3 appended,
    signs_with_active_key config w w1
    ∧ verify_full_ledger_signatures (instant_now w1).2 = (verified, w2)
    ∧ (outcome = Ok tt ↔ found_valid verified)
    ∧ call_append_audit_event_with_ledger event entry w3 = (Ok appended, w')
    ∧ ev_result (event_parts event) = (if is_ok outcome then AuditResult_Success else AuditResult_Failure)
    ∧ cf_result (se_fields entry) = (if is_ok outcome then LedgerResult_Success else LedgerResult_Failure)
    ∧ cf_entry_type (se_fields entry) = LedgerEntryType_SchedulerJobCompleted
    ∧ cf_source_event_id (se_fields entry) = Some (ev_audit_event_id (event_parts event)).
Proof.
  unfold verify_all, ensure_current_signing_key_active. intros H. inv_run.
  match goal with H : ensure_active_ledger_signing_public_key _ ?w = (_, ?w1) |- _ =>
    apply active_key_checked in H; exists w1 end.
  unfold instant, io_match in *. repeat case_match; simplify_eq/=.
  all: match goal with H : mbind _ _ _ = _ |- _ => apply io_bind_Ok in H as ([] & w5 & Hr & H) end; inv_run; simplify_eq/=.
  all: apply verify_all_result_recorded in Hr as (event & entry & w6 & appended & ? & ? & ? & ? & ?).
  all: do 6 eexists; split_and!; try eassumption; try done; [by eexists|].
  - split; [by eexists|done].
  - split; [done|]. intros (? & [= <-] & ?). congruence.
  - split; [done|]. by intros ?%found_valid_Err.
Qed.

(** *** Wrong use *)

(** Operations that never end in a usage error, and those that then did nothing. *)
Definition never_usage {T} (m : io World SignatureKeyCliError T) : Prop :=
  ∀ w message w', m w ≠ (Err (SignatureKeyCliError_Usage message), w').
Definition usage_is_clean {T} (m : io World SignatureKeyCliError T) : Prop :=
  ∀ w message w', m w = (Err (SignatureKeyCliError_Usage message), w') → w' = w.

Lemma never_usage_ret {T} (x : T) : never_usage (mret x).
Proof. by intros w m w' [=]. Qed.
Lemma never_usage_lift {T E} (r : result E T) f :
  (∀ e message, f e ≠ SignatureKeyCliError_Usage message) → never_usage (lift (r !? f)).
Proof. intros Hf w m w' [=]. destruct r; simplify_eq/=. naive_solver. Qed.
Lemma never_usage_ok_or {T} (o : option T) message : never_usage (lift (ok_or o (SignatureKeyCliError_Ledger message))).
Proof. intros w m w' [=]. by destruct o. Qed.
Lemma never_usage_map_err {T E} (m : io World E T) f :
  (∀ e message, f e ≠ SignatureKeyCliError_Usage message) → never_usage (m !?? f).
Proof.
  intros Hf w message w'. unfold io_map_err. destruct (m w) as [[] ?]; intros [=]. naive_solver.
Qed.
Lemma never_usage_bind {T U} (m : io World SignatureKeyCliError T) (f : T → io World SignatureKeyCliError U) :
  never_usage m → (∀ x, never_usage (f x)) → never_usage (m ≫= f).
Proof.
  intros Hm Hf w message w' H. unfold mbind, io_bind in H. destruct (m w) as [[x|e] w1] eqn:E; [by eapply Hf|].
  simplify_eq. by eapply Hm.
Qed.
Lemma never_usage_instant : never_usage instant.
Proof. intros w message w'. unfold instant. by destruct (instant_now w). Qed.
Lemma never_usage_match {T E} (m : io World E T) :
  never_usage (io_match m (λ outcome, mret outcome) : io World SignatureKeyCliError _).
Proof. intros w message w'. unfold io_match. by destruct (m w). Qed.
Lemma never_usage_clean {T} (m : io World SignatureKeyCliError T) : never_usage m → usage_is_clean m.
Proof. intros Hm w message w' H. by apply Hm in H. Qed.
Lemma usage_is_clean_bind {T U} (r : result SignatureKeyCliError T) (f : T → io World SignatureKeyCliError U) :
  (∀ x, usage_is_clean (f x)) → usage_is_clean (lift r ≫= f).
Proof. intros Hf w message w'. destruct r as [x|e]; cbn; [apply Hf|by intros [= _ ->]]. Qed.

Ltac never_usage :=
  repeat first
    [ apply never_usage_ret
    | apply never_usage_ok_or
    | apply never_usage_lift; intros ? ? [=]
    | apply never_usage_map_err; intros ? ? [=]
    | apply never_usage_instant
    | apply never_usage_match
    | apply never_usage_bind; [|intros ?]
    | case_match
    | progress unfold ensure_current_signing_key_active, build_signature_key_event, print_json,
        sign_signature_key_ledger_entry, sign_one, record_verify_all_result ].

(** A command that is used wrongly prints nothing and does nothing. *)
Theorem key_usage_has_no_effect config args w out message w' :
  signature_key_run_cli config args w = (out, Err (SignatureKeyCliError_Usage message), w') → out = [] ∧ w' = w.
Proof.
  assert (usage_is_clean (key_status config (tail args)) ∧ usage_is_clean (key_create config (tail args))
    ∧ usage_is_clean (key_activate config (tail args)) ∧ usage_is_clean (key_retire config (tail args))
    ∧ usage_is_clean (verify_all config (tail args))) as (H1 & H2 & H3 & H4 & H5).
  { split_and!; repeat (apply usage_is_clean_bind; intros ?); apply never_usage_clean.
    all: never_usage. }
  unfold signature_key_run_cli. destruct args as [|command args]; [by intros [= <- _ <-]|]. cbn [tail] in *.
  repeat case_if; repeat case_match; intros [= <- ? ?]; simplify_eq/=; try done; eauto.
  exfalso. unfold verify_all in H. inv_run. repeat case_match; inv_run; simplify_eq/=; case_match; simplify_eq/=.
Qed.
End key_theorems.
