(* ===== verification/DigestCommand.v ===== *)
(** * The digest command ([src/server/digest.rs])

    The operator's way to the monthly digest: generate one, which only the holder of
    the active signature key may, or verify one.  A failed verification is audited and
    may become an incident ([record_monthly_digest_verify_failure_audit] is of
    [verify_monthly_digest.rs]). *)

From S2P Require Import Prelude RustStd Json Platform Reference Errors Types AuditTypes LedgerTypes LedgerPayload LedgerEntry LedgerChain LedgerRpc LedgerAppender Digest DigestUseCases Files Archive AuditEvent AuditBuilders Incident KeyRotation AuditFallback App ExportUseCase Siem Auditor SignatureKey.

Definition GenerateMonthlyDigestError_to_string (e : GenerateMonthlyDigestError) : str :=
  match e with
  | GenerateMonthlyDigestError_DuplicateDigest => "monthly digest already exists for this period"
  | GenerateMonthlyDigestError_NoEntriesForPeriod => "no ledger entries found for the target period"
  | GenerateMonthlyDigestError_FetchFailed code => "monthly digest fetch failed: " +:+ code
  | GenerateMonthlyDigestError_BuildFailed code => "monthly digest build failed: " +:+ code
  | GenerateMonthlyDigestError_AppendFailed code => "monthly digest ledger append failed: " +:+ code
  end.
Definition VerifyMonthlyDigestError_to_string (e : VerifyMonthlyDigestError) : str :=
  match e with
  | VerifyMonthlyDigestError_DigestNotFound => "monthly digest not found for this period"
  | VerifyMonthlyDigestError_FetchFailed code => "fetch failed: " +:+ code
  | VerifyMonthlyDigestError_ChainContinuityError code => "chain continuity error: " +:+ code
  | VerifyMonthlyDigestError_EndHashMismatch => "chain end hash does not match digest end_entry_hash"
  | VerifyMonthlyDigestError_UnknownSignatureKey => "signing public key not registered for this key version"
  | VerifyMonthlyDigestError_DigestHashMismatch => "recomputed digest hash does not match stored hash"
  | VerifyMonthlyDigestError_DigestSignatureInvalid => "digest Ed25519 signature is invalid"
  | VerifyMonthlyDigestError_RangeModifiedAfterDigest => "ledger range was modified after digest was generated"
  end.

Inductive DigestCliError :=
| DigestCliError_Usage (message : str)
| DigestCliError_Config (message : str)
| DigestCliError_GenerateFailed (error : GenerateMonthlyDigestError)
| DigestCliError_VerifyFailed (error : VerifyMonthlyDigestError)
| DigestCliError_Serialization (message : str).
Definition DigestCliError_to_string (error : DigestCliError) : str :=
  match error with
  | DigestCliError_Usage message => message
  | DigestCliError_Config message => "digest config error: " +:+ message
  | DigestCliError_GenerateFailed error =>
      "digest generation failed: " +:+ GenerateMonthlyDigestError_to_string error
  | DigestCliError_VerifyFailed error =>
      "digest verification failed: " +:+ VerifyMonthlyDigestError_to_string error
  | DigestCliError_Serialization message => "digest serialization error: " +:+ message
  end.

Definition digest_usage : str :=
  "usage:" +:+ newline
  +:+ "  mipsorcu digest generate --year-month YYYY-MM --format json" +:+ newline
  +:+ "  mipsorcu digest verify   --year-month YYYY-MM --format json".
Definition digest_usage_error {A} : result DigestCliError A := Err (DigestCliError_Usage digest_usage).

(** ** Arguments *)

Record DigestArgs := mk_DigestArgs {
  da_subcommand : option str;
  da_year_month : option str;
  da_format : option str;
}.
Fixpoint parse_digest_args (args : list str) (a : DigestArgs) : result DigestCliError DigestArgs :=
  match args with
  | [] => Ok a
  | arg :: rest =>
      if str_in arg ["generate"; "verify"]%string && bool_decide (da_subcommand a = None)
      then parse_digest_args rest (mk_DigestArgs (Some arg) (da_year_month a) (da_format a))
      else if String.eqb arg "--year-month" then
        match rest with
        | [] => digest_usage_error
        | value :: rest =>
            if starts_with value "--" then digest_usage_error
            else parse_digest_args rest (mk_DigestArgs (da_subcommand a) (Some value) (da_format a))
        end
      else if String.eqb arg "--format" then
        match rest with
        | [] => digest_usage_error
        | value :: rest =>
            if starts_with value "--" then digest_usage_error
            else parse_digest_args rest (mk_DigestArgs (da_subcommand a) (da_year_month a) (Some value))
        end
      else digest_usage_error
  end.

(** The command and its month. *)
Definition digest_request (args : list str) : result DigestCliError (option str * MonthlyDigestPeriod) :=
  a ← parse_digest_args args (mk_DigestArgs None None None);
  year_month ← ok_or (da_year_month a) (DigestCliError_Usage digest_usage);
  _ ← (if bool_decide (da_format a = Some "json"%string) then Ok tt else digest_usage_error);
  period ← MonthlyDigestPeriod_parse year_month
    !? (λ error, DigestCliError_Usage ("invalid --year-month: " +:+ LedgerError_to_string error));
  Ok (da_subcommand a, period).

(** ** The commands *)

Record DigestVerifyOutputError := mk_DigestVerifyOutputError { dve_code : str; dve_message : str }.
Record DigestVerifyOutput := mk_DigestVerifyOutput {
  dv_period : str;
  dv_valid : bool;
  dv_start_sequence_no : option Z;
  dv_end_sequence_no : option Z;
  dv_entry_count : option Z;
  dv_error : option DigestVerifyOutputError;
  dv_error_variant : option VerifyMonthlyDigestError;
}.
Definition DigestVerifyOutput_json (o : DigestVerifyOutput) : Value :=
  JObject [("period", JString (dv_period o)); ("valid", JBool (dv_valid o));
    ("start_sequence_no", json_opt_uint (dv_start_sequence_no o));
    ("end_sequence_no", json_opt_uint (dv_end_sequence_no o)); ("entry_count", json_opt_uint (dv_entry_count o));
    ("error", match dv_error o with
       | Some e => JObject [("code", JString (dve_code e)); ("message", JString (dve_message e))]
       | None => JNull
       end)]%string.

Section digest_commands.
Context {P : Platform} {F : FileSystem} {SM : SerdeMembers} {A : AuditEventAppender}.
Context {IS : IncidentService} {NS : NotificationSink} {Svc : LedgerService} {DS : DigestService}.
Context {PK : PublicKeyService}.

(** What of [AppConfig] the command uses. *)
Record DigestCommandConfig := mk_DigestCommandConfig {
  dc_ledger_signing_key : LedgerSigningKey;
  dc_http_client : result str unit;
  dc_pretty : Value → result str str;
  dc_audit_fallback_path : str;
  dc_audit_fallback_archive_dir : str;
  dc_audit_fallback_rotate_size_bytes : Z;
}.
Implicit Types (config : DigestCommandConfig).

Definition DigestGenerateOutput_json (d : SignedMonthlyDigest) : Value :=
  JObject [("period", JString (MonthlyDigestPeriod_as_str (dg_period d)));
    ("start_sequence_no", json_uint (LedgerSequenceNo_get (dg_start_sequence_no d)));
    ("end_sequence_no", json_uint (LedgerSequenceNo_get (dg_end_sequence_no d)));
    ("entry_count", json_uint (dg_entry_count d));
    ("digest_hash", JString (DigestHash_to_hex (dg_digest_hash d)));
    ("signature_key_version", json_uint (LedgerSignatureKeyVersion_get (dg_signature_key_version d)));
    ("digest_generated_at", JString (SourceEventAt_as_str (dg_digest_generated_at d)))]%string.

Definition build_audit_recorder config : LocalAuditFallbackStore :=
  LocalAuditFallbackStore_with_rollover_config (dc_audit_fallback_path config) (dc_audit_fallback_archive_dir config)
    (dc_audit_fallback_rotate_size_bytes config).
Definition digest_appender config : LedgerAppender :=
  mk_LedgerAppender (dc_ledger_signing_key config) LedgerAppenderConfig_default.

Definition run_generate_command config (period : MonthlyDigestPeriod) :
    io World DigestCliError SignedMonthlyDigest :=
  _ ← lift (dc_http_client config !? DigestCliError_Config);
  _ ← ensure_active_ledger_signing_public_key (LedgerSigningKey_verification_key (dc_ledger_signing_key config))
    !?? (λ error, DigestCliError_Config (SupabaseRpcError_to_string error));
  generated_at ← SourceEventAt_now_utc !?? (λ error, DigestCliError_Config (AadError_to_string error));
  request_id ← RequestId_generate !?? (λ error, DigestCliError_Config (AuditEventError_to_string error));
  io_match (generate_monthly_digest (digest_appender config)
      (mk_GenerateMonthlyDigestInput period generated_at request_id)) (λ generated,
    match generated with
    | Ok signed_digest => mret signed_digest
    | Err error =>
        _ ← record_monthly_digest_failure_audit (build_audit_recorder config) request_id period error generated_at;
        lift (Err (DigestCliError_GenerateFailed error))
    end).

Definition record_monthly_digest_verify_failure_audit {E} (store : LocalAuditFallbackStore)
    (request_id : RequestId) (period : MonthlyDigestPeriod) (error : VerifyMonthlyDigestError)
    (verified_at : SourceEventAt) : io World E unit :=
  logged (record_built_audit store request_id AuditAction_MonthlyDigestVerify AuditResult_Failure
    (MonthlyDigestVerifyMetadata_build (MonthlyDigestVerifyMetadata_new period
      (VerifyMonthlyDigestError_as_error_code error) verified_at))).

Definition verify_incident_input (period : MonthlyDigestPeriod) (error : VerifyMonthlyDigestError) :
    option IncidentRecordInput :=
  let error_code := VerifyMonthlyDigestError_as_error_code error in
  incident_type ← monthly_digest_incident_type error_code;
  let detection_source := "monthly_digest_verify"%string in
  Some (with_target_year_month (IncidentRecordInput_new incident_type (severity_for_incident incident_type)
    detection_source (dedupe_key incident_type detection_source (Some period)) error_code) period).
Definition record_monthly_digest_verify_incident {E} config (period : MonthlyDigestPeriod)
    (error : VerifyMonthlyDigestError) : io World E unit :=
  match verify_incident_input period error with
  | None => mret tt
  | Some input => logged (incident_record (digest_appender config) input)
  end.

Definition run_digest_verify_command config (period : MonthlyDigestPeriod) :
    io World DigestCliError DigestVerifyOutput :=
  _ ← lift (dc_http_client config !? DigestCliError_Config);
  verified_at ← SourceEventAt_now_utc !?? (λ error, DigestCliError_Config (AadError_to_string error));
  request_id ← RequestId_generate !?? (λ error, DigestCliError_Config (AuditEventError_to_string error));
  io_match (verify_monthly_digest period) (λ verified,
    match verified with
    | Ok info =>
        mret (mk_DigestVerifyOutput (MonthlyDigestPeriod_as_str period) true
          (Some (LedgerSequenceNo_get (vi_start_sequence_no info)))
          (Some (LedgerSequenceNo_get (vi_end_sequence_no info))) (Some (vi_entry_count info)) None None)
    | Err error =>
        _ ← record_monthly_digest_verify_failure_audit (build_audit_recorder config) request_id period error verified_at;
        _ ← record_monthly_digest_verify_incident config period error;
        mret (mk_DigestVerifyOutput (MonthlyDigestPeriod_as_str period) false None None None
          (Some (mk_DigestVerifyOutputError (VerifyMonthlyDigestError_as_error_code error)
            (VerifyMonthlyDigestError_to_string error))) (Some error))
    end).

Definition print_digest_json config (value : Value) : result DigestCliError str :=
  dc_pretty config value !? DigestCliError_Serialization.

(** The line printed and the outcome; the line is printed also when the digest is
    found invalid. *)
Definition digest_run_cli config (args : list str) : io World DigestCliError (str * result DigestCliError unit) :=
  '(subcommand, period) ← lift (digest_request args);
  match subcommand with
  | Some command =>
      if String.eqb command "generate" then
        output ← run_generate_command config period;
        line ← lift (print_digest_json config (DigestGenerateOutput_json output));
        mret (line, Ok tt)
      else if String.eqb command "verify" then
        output ← run_digest_verify_command config period;
        line ← lift (print_digest_json config (DigestVerifyOutput_json output));
        mret (line, match dv_error_variant output with
                    | Some error => Err (DigestCliError_VerifyFailed error)
                    | None => Ok tt
                    end)
      else lift digest_usage_error
  | None => lift digest_usage_error
  end.
End digest_commands.

(** ** Properties *)

Section digest_command_theorems.
Context {P : Platform} {F : FileSystem} {SM : SerdeMembers} {A : AuditEventAppender}.
Context {IS : IncidentService} {NS : NotificationSink} {Svc : LedgerService} {DS : DigestService}.
Context {PK : PublicKeyService}.
Implicit Types (config : DigestCommandConfig).

(** A digest is only generated for the holder of the active signature key: when the
    command prints one, the database had the configured key as active, and the digest
    printed is the one the use case signed and put into the ledger for this month. *)
Theorem generated_digest_is_of_active_key config args period w line w' :
  digest_request args = Ok (Some "generate"%string, period) →
  digest_run_cli config args w = (Ok (line, Ok tt), w') →
  ∃ w1 status input w2 digest,
    get_ledger_signing_public_key_status (sk_key_version (dc_ledger_signing_key config)) w = (Ok status, w1)
    ∧ ks_status status = "active"%string
    ∧ LedgerVerifyingKey_as_bytes (ks_public_key status)
      = LedgerVerifyingKey_as_bytes (LedgerSigningKey_verification_key (dc_ledger_signing_key config))
    ∧ gi_period input = period
    ∧ generate_monthly_digest (digest_appender config) input w2 = (Ok digest, w')
    ∧ dc_pretty config (DigestGenerateOutput_json digest) = Ok line.
Proof.
  unfold digest_run_cli, print_digest_json, run_generate_command. intros Hq H.
  apply io_bind_Ok in H as ([command month] & ? & [Hq' ->]%lift_Ok & H). rewrite Hq in Hq'. injection Hq' as <- <-. cbn in H. inv_run.
  match goal with H : ensure_active_ledger_signing_public_key _ _ = _ |- _ =>
    apply active_key_checked in H as (status & ? & ? & ?) end.
  match goal with H : io_match _ _ _ = _ |- _ => apply io_match_run in H as (r & w5 & Hg & Hr) end.
  destruct r as [digest|error]; [|by apply io_bind_Ok in Hr as (? & ? & _ & [? _]%lift_Ok)]. injection Hr as <- <-.
  eexists _, status, (mk_GenerateMonthlyDigestInput period _ _), _, digest. split_and!; [eassumption..|done|exact Hg|done].
Qed.

(** The verdict on a digest is the use case's: the command succeeds exactly when
    verification does.  When it does not, the failure has been given to the audit log
    and then, for an error that is an anomaly of the digest, to the incident recorder,
    and the command still prints its report and ends with that error. *)
Theorem digest_verdict_is_verification config args period w line outcome w' :
  digest_request args = Ok (Some "verify"%string, period) →
  digest_run_cli config args w = (Ok (line, outcome), w') →
  ∃ w1 rid t verified w2, verify_monthly_digest period w1 = (verified, w2)
    ∧ match verified with
      | Ok _ => outcome = Ok tt ∧ w' = w2
      | Err error => outcome = Err (DigestCliError_VerifyFailed error)
          ∧ let w3 := (record_built_audit (build_audit_recorder config) rid AuditAction_MonthlyDigestVerify
              AuditResult_Failure (MonthlyDigestVerifyMetadata_build (MonthlyDigestVerifyMetadata_new period
                (VerifyMonthlyDigestError_as_error_code error) t)) w2).2 in
            w' = match verify_incident_input period error with
                 | Some input => (incident_record (digest_appender config) input w3).2
                 | None => w3
                 end
      end.
Proof.
  unfold digest_run_cli, run_digest_verify_command. intros Hq H.
  apply io_bind_Ok in H as ([command month] & ? & [Hq' ->]%lift_Ok & H). rewrite Hq in Hq'. injection Hq' as <- <-. cbn in H.
  apply io_bind_Ok in H as (output & w5 & H & H').
  apply io_bind_Ok in H' as (text & w6 & [_ ->]%lift_Ok & [= <- <- <-]). inv_run.
  match goal with H : io_match _ _ _ = _ |- _ => apply io_match_run in H as (r & w7 & Hg & Hr) end.
  eexists _, _, _, r, w7. split; [exact Hg|]. destruct r as [info|error]; [by injection Hr as <- <-|].
  unfold record_monthly_digest_verify_failure_audit, record_monthly_digest_verify_incident, mbind, io_bind in Hr.
  rewrite logged_run in Hr. cbn zeta.
  destruct (verify_incident_input period error); [rewrite logged_run in Hr|]; injection Hr as <- <-; by split.
Qed.

(** The anomalies of a digest are the errors that become incidents; what could not be
    fetched or does not exist is none. *)
Theorem digest_anomalies_are_incidents period error :
  is_Some (verify_incident_input period error) ↔
  match error with
  | VerifyMonthlyDigestError_DigestNotFound => False
  | VerifyMonthlyDigestError_FetchFailed code => is_Some (monthly_digest_incident_type code)
  | _ => True
  end.
Proof.
  unfold verify_incident_input. destruct error as [|code| | | | | |]; cbn; try by (split; [done|by eexists]).
  - split; [by intros [? [=]]|done].
  - destruct (monthly_digest_incident_type code); cbn; split; intros [? [=]]; by eexists.
Qed.

(** The code of a break in the chain is lost on the way to the classification: it
    would make an entry with an unknown signature key a critical incident of its own,
    but every break of the chain, this one too, is reported as a digest mismatch. *)
Theorem chain_break_loses_its_kind period code :
  monthly_digest_incident_type (map_ledger_error_to_code (LedgerError_UnknownSignatureKey 0 0))
    = Some IncidentType_UnknownSignatureKey
  ∧ ∃ input, verify_incident_input period (VerifyMonthlyDigestError_ChainContinuityError code) = Some input
    ∧ in_incident_type input = IncidentType_MonthlyDigestMismatch
    ∧ in_severity input = IncidentSeverity_High.
Proof. split; [done|]. by eexists. Qed.
End digest_command_theorems.
