(* ===== verification/Authentication.v ===== *)
(** * Authentication ([src/auth/{jwks,verifier}.rs], [src/server/middleware.rs])

    A request is authenticated by a JWT signed with a key of the published key set;
    one that is not is answered and audited.  The middleware also gives each request
    its identifier, and limits the rate of the requests and their time. *)

From S2P Require Import Prelude RustStd Json Platform Reference Errors Types Authorization AuditTypes LedgerTypes LedgerPayload LedgerEntry LedgerChain LedgerRpc LedgerAppender ApiError Files AuditEvent AuditBuilders KeyRotation AuditFallback App Siem AuditReporter Handlers Maintenance.

(** ** The key set *)

Record Jwk := mk_Jwk {
  jwk_kty : str;
  jwk_kid : str;
  jwk_alg : option str;
  jwk_public_key_use : option str;
  jwk_n : str;
  jwk_e : str;
}.
Definition SUPPORTED_JWT_ALGORITHM_NAME : str := "RS256".

Definition Jwk_validate_for_rs256 (key : Jwk) : result JwtVerificationError unit :=
  if negb (String.eqb (jwk_kty key) "RSA") then Err JwtVerificationError_InvalidJwks
  else if match jwk_public_key_use key with Some value => negb (String.eqb value "sig") | None => false end
  then Err JwtVerificationError_InvalidJwks
  else if match jwk_alg key with Some value => negb (String.eqb value SUPPORTED_JWT_ALGORITHM_NAME) | None => false end
  then Err JwtVerificationError_UnsupportedAlgorithm
  else if is_empty (trim (jwk_kid key)) || is_empty (trim (jwk_n key)) || is_empty (trim (jwk_e key))
  then Err JwtVerificationError_InvalidJwks
  else Ok tt.

Record Jwks := mk_Jwks { jwks_keys : list Jwk }.
Fixpoint validate_keys (keys : list Jwk) : result JwtVerificationError unit :=
  match keys with
  | [] => Ok tt
  | key :: keys => _ ← Jwk_validate_for_rs256 key; validate_keys keys
  end.
Definition Jwks_new (keys : list Jwk) : result JwtVerificationError Jwks :=
  if bool_decide (keys = []) then Err JwtVerificationError_InvalidJwks
  else
    _ ← validate_keys keys;
    Ok (mk_Jwks keys).
Definition Jwks_find_signing_key (jwks : Jwks) (key_id : str) : result JwtVerificationError Jwk :=
  key ← ok_or (find (λ key, String.eqb (jwk_kid key) key_id) (jwks_keys jwks)) JwtVerificationError_KeyNotFound;
  _ ← Jwk_validate_for_rs256 key;
  Ok key.

(** The set behind the lock; [None] is a poisoned lock. *)
Definition JwksCache : Type := option Jwks.
Definition JwksCache_new (jwks : Jwks) : JwksCache := Some jwks.
Definition JwksCache_snapshot (cache : JwksCache) : result JwtVerificationError Jwks :=
  ok_or cache JwtVerificationError_InvalidJwks.
Definition JwksCache_replace (jwks : Jwks) (cache : JwksCache) : result JwtVerificationError unit * JwksCache :=
  match cache with
  | None => (Err JwtVerificationError_InvalidJwks, cache)
  | Some _ => (Ok tt, Some jwks)
  end.

Inductive JwksFetchError :=
| JwksFetchError_Network (error : str)
| JwksFetchError_NonSuccessStatus (status : Z)
| JwksFetchError_InvalidResponse (message : str)
| JwksFetchError_InvalidJwks (error : JwtVerificationError).
Definition JwksFetchError_to_string (e : JwksFetchError) : str :=
  match e with
  | JwksFetchError_Network error => "jwks fetch network error: " +:+ error
  | JwksFetchError_NonSuccessStatus status => "jwks endpoint returned status " +:+ int_to_string status
  | JwksFetchError_InvalidResponse message => "jwks endpoint returned invalid response: " +:+ message
  | JwksFetchError_InvalidJwks error => "jwks validation failed: " +:+ JwtVerificationError_to_string error
  end.

(** The endpoint: the status, and the keys of the body or why it has none. *)
Class JwksEndpoint {P : Platform} := {
  http_get_jwks : str → io World str (Z * result str (list Jwk));
}.
Definition fetch_jwks {P : Platform} {JE : JwksEndpoint} (jwks_url : str) : io World JwksFetchError Jwks :=
  '(status, body) ← http_get_jwks jwks_url !?? JwksFetchError_Network;
  if negb ((200 <=? status) && (status <=? 299)) then lift (Err (JwksFetchError_NonSuccessStatus status))
  else
    keys ← lift (body !? JwksFetchError_InvalidResponse);
    lift (Jwks_new keys !? JwksFetchError_InvalidJwks).

(** ** The verifier *)

Record JwtVerifierConfig := mk_JwtVerifierConfig {
  jv_issuer : str;
  jv_audience : str;
  jv_leeway_seconds : Z;
}.
Definition JwtVerifierConfig_with_leeway_seconds (issuer audience : str) (leeway_seconds : Z) :
    result JwtVerificationError JwtVerifierConfig :=
  if is_empty (trim issuer) || is_empty (trim audience) then Err JwtVerificationError_MalformedClaims
  else Ok (mk_JwtVerifierConfig issuer audience leeway_seconds).
Definition JwtVerifierConfig_new (issuer audience : str) : result JwtVerificationError JwtVerifierConfig :=
  JwtVerifierConfig_with_leeway_seconds issuer audience 0.

Record RegisteredJwtClaims := mk_RegisteredJwtClaims {
  rc_sub : str;
  rc_iss : str;
  rc_aud : str;
  rc_exp : Z;
  rc_mipsorcu_roles : list str;
}.

(** The crate [jsonwebtoken], as far as it is used. *)
Inductive Algorithm :=
| HS256 | HS384 | HS512 | ES256 | ES384 | RS256 | RS384 | RS512 | PS256 | PS384 | PS512 | EdDSA.
#[global] Instance Algorithm_eq_dec : EqDecision Algorithm.
Proof. solve_decision. Defined.
Definition SUPPORTED_JWT_ALGORITHM : Algorithm := RS256.

Inductive JwtErrorKind :=
| JwtErrorKind_InvalidSignature
| JwtErrorKind_ExpiredSignature
| JwtErrorKind_InvalidIssuer
| JwtErrorKind_InvalidAudience
| JwtErrorKind_InvalidAlgorithm
| JwtErrorKind_Json
| JwtErrorKind_Other.
Record Validation := mk_Validation {
  va_algorithm : Algorithm;
  va_issuer : list str;
  va_audience : list str;
  va_leeway : Z;
}.
Class JwtLibrary {P : Platform} := {
  DecodingKey : Type;
  from_rsa_components : str → str → option DecodingKey;
  decode_header : str → result JwtErrorKind (Algorithm * option str);
  jwt_decode : str → DecodingKey → Validation → io World JwtErrorKind RegisteredJwtClaims;
}.
(** What decoding promises: the claims are those of the token, which carries a
    signature of the key by the algorithm; the issuer and the audience are among those
    asked for; and the token has not expired at the time of the clock, in seconds. *)
Class JwtLaws {P : Platform} (J : JwtLibrary) := {
  jwt_signed : DecodingKey → Algorithm → str → RegisteredJwtClaims → Prop;
  jwt_clock : World → Z;
  jwt_decode_Ok token key validation w claims w' :
    jwt_decode token key validation w = (Ok claims, w') →
    jwt_signed key (va_algorithm validation) token claims
    ∧ rc_iss claims ∈ va_issuer validation ∧ rc_aud claims ∈ va_audience validation
    ∧ jwt_clock w - va_leeway validation ≤ rc_exp claims;
}.

Definition map_jwt_error (kind : JwtErrorKind) : JwtVerificationError :=
  match kind with
  | JwtErrorKind_InvalidSignature => JwtVerificationError_InvalidSignature
  | JwtErrorKind_ExpiredSignature => JwtVerificationError_Expired
  | JwtErrorKind_InvalidIssuer => JwtVerificationError_InvalidIssuer
  | JwtErrorKind_InvalidAudience => JwtVerificationError_InvalidAudience
  | JwtErrorKind_InvalidAlgorithm => JwtVerificationError_UnsupportedAlgorithm
  | JwtErrorKind_Json => JwtVerificationError_MalformedClaims
  | JwtErrorKind_Other => JwtVerificationError_InvalidToken
  end.

Section verifier.
Context {P : Platform} {J : JwtLibrary}.

Definition Jwk_decoding_key (key : Jwk) : result JwtVerificationError DecodingKey :=
  ok_or (from_rsa_components (jwk_n key) (jwk_e key)) JwtVerificationError_InvalidJwks.

(** The cache is read once, when it is needed. *)
Definition JwtVerifier_verify (config : JwtVerifierConfig) (cache : JwksCache) (raw_jwt : RawJwt) :
    io World JwtVerificationError VerifiedJwtClaims :=
  '(alg, kid) ← lift (decode_header (RawJwt_as_str raw_jwt) !? map_jwt_error);
  if negb (bool_decide (alg = SUPPORTED_JWT_ALGORITHM)) then lift (Err JwtVerificationError_UnsupportedAlgorithm) else
  key_id ← lift (ok_or kid JwtVerificationError_MissingKeyId);
  jwks ← lift (JwksCache_snapshot cache);
  jwk ← lift (Jwks_find_signing_key jwks key_id);
  decoding_key ← lift (Jwk_decoding_key jwk);
  let validation := mk_Validation SUPPORTED_JWT_ALGORITHM [jv_issuer config] [jv_audience config]
    (jv_leeway_seconds config) in
  claims ← jwt_decode (RawJwt_as_str raw_jwt) decoding_key validation !?? map_jwt_error;
  subject_user_id ← lift (OwnerUserId_parse (rc_sub claims) !? (λ _, JwtVerificationError_InvalidSubject));
  mret (mk_VerifiedJwtClaims subject_user_id (rc_iss claims) (rc_aud claims) (rc_exp claims)
    (rc_mipsorcu_roles claims)).
End verifier.

(** ** The middleware *)

Definition BEARER_PREFIX : str := "Bearer ".
Definition HEALTH_PATH : str := "/health".
Definition READY_PATH : str := "/ready".

Inductive AuthFailure :=
| AuthFailure_MissingAuthorizationHeader
| AuthFailure_InvalidAuthorizationHeader
| AuthFailure_InvalidAuthorizationScheme
| AuthFailure_MalformedRawJwt.
Definition AuthFailure_audit_error_code (e : AuthFailure) : str :=
  match e with
  | AuthFailure_MissingAuthorizationHeader => "authorization_header_missing"
  | AuthFailure_InvalidAuthorizationHeader => "authorization_header_invalid"
  | AuthFailure_InvalidAuthorizationScheme => "authorization_scheme_invalid"
  | AuthFailure_MalformedRawJwt => "raw_jwt_malformed"
  end.
Definition AuthFailure_into_api_error (e : AuthFailure) : ApiError :=
  ApiError_Unauthorized (match e with
  | AuthFailure_MissingAuthorizationHeader => "missing authorization header"
  | AuthFailure_InvalidAuthorizationHeader => "invalid authorization header"
  | AuthFailure_InvalidAuthorizationScheme => "invalid authorization scheme"
  | AuthFailure_MalformedRawJwt => "invalid bearer token"
  end).

(** [HeaderValue::to_str], and [Uuid::nil]. *)
Class HttpValues {P : Platform} := {
  header_to_str : bytes → option str;
  uuid_nil : Uuid;
}.

(** ** The rate limit *)

(** [Instant::checked_add], on nanoseconds. *)
Class InstantArithmetic := { instant_checked_add : Z → Z → option Z }.
Class InstantArithmeticLaws (IA : InstantArithmetic) : Prop := {
  instant_checked_add_Some t d r : instant_checked_add t d = Some r → r = t + d;
}.

Record FixedWindowRateLimiter := mk_FixedWindowRateLimiter {
  rl_max_requests : Z;
  rl_window : Z;
}.
Record FixedWindowRateLimiterState := mk_FixedWindowRateLimiterState {
  rl_reset_at : Z;
  rl_remaining : Z;
}.

Section limiter.
Context {IA : InstantArithmetic}.

Definition window_end (limiter : FixedWindowRateLimiter) (now : Z) : Z :=
  default now (instant_checked_add now (rl_window limiter)).
Definition FixedWindowRateLimiter_new (limiter : FixedWindowRateLimiter) (now : Z) : FixedWindowRateLimiterState :=
  mk_FixedWindowRateLimiterState (window_end limiter now) (rl_max_requests limiter).

(** One request at [now], the mutex held. *)
Definition try_acquire_locked (limiter : FixedWindowRateLimiter) (now : Z) (state : FixedWindowRateLimiterState) :
    bool * FixedWindowRateLimiterState :=
  let state := if rl_reset_at state <=? now
    then mk_FixedWindowRateLimiterState (window_end limiter now) (rl_max_requests limiter) else state in
  if rl_remaining state =? 0 then (false, state)
  else (true, mk_FixedWindowRateLimiterState (rl_reset_at state) (Z.max 0 (rl_remaining state - 1))).
(** The state is [None] when the mutex is poisoned. *)
Definition try_acquire (limiter : FixedWindowRateLimiter) (now : Z) (state : option FixedWindowRateLimiterState) :
    result unit bool * option FixedWindowRateLimiterState :=
  match state with
  | None => (Err tt, None)
  | Some state => let '(acquired, state) := try_acquire_locked limiter now state in (Ok acquired, Some state)
  end.
End limiter.

Definition is_rate_limit_exempt_path (path : str) : bool := str_in path [HEALTH_PATH; READY_PATH].

Section middleware.
Context {P : Platform} {F : FileSystem} {SM : SerdeMembers} {K : SiemSink} {A : AuditEventAppender}.
Context {J : JwtLibrary} {H : HttpValues}.

Definition RequestId_nil : RequestId := mk_RequestId uuid_nil.
(** [attach_request_context]: the identifier each request gets. *)
Definition new_request_id (w : World) : RequestId * World :=
  let '(generated, w') := RequestId_generate w in
  (match generated with Ok request_id => request_id | Err _ => RequestId_nil end, w').
Definition current_request_id (extension : option RequestId) : RequestId := default RequestId_nil extension.

(** [authorization] is the value of the header, if there is one. *)
Definition parse_bearer_token (authorization : option bytes) : result AuthFailure RawJwt :=
  header_value ← ok_or authorization AuthFailure_MissingAuthorizationHeader;
  header_value ← ok_or (header_to_str header_value) AuthFailure_InvalidAuthorizationHeader;
  token ← ok_or (strip_prefix BEARER_PREFIX header_value) AuthFailure_InvalidAuthorizationScheme;
  RawJwt_new token !? (λ _, AuthFailure_MalformedRawJwt).

Definition record_auth_failure {E} (state : AppState) (request_id : RequestId) (error_code : str) : proc E unit :=
  match AuthFailureMetadata_build (AuthFailureMetadata_new error_code) with
  | Err _ => infallible mark_failure_audit_both_failed
  | Ok metadata =>
      report (failure_record_with_metadata state
        (mk_FailureAuditContext request_id None None AuditAction_AuthFailure) metadata)
  end.

Record AuthenticatedUser := mk_AuthenticatedUser {
  au_claims : VerifiedJwtClaims;
  au_raw_jwt : RawJwt;
}.
(** [AuthenticatedUser::from_request_parts]. *)
Definition authenticate (state : AppState) (config : JwtVerifierConfig) (cache : JwksCache)
    (extension : option RequestId) (authorization : option bytes) : proc RequestAwareApiError AuthenticatedUser :=
  let request_id := current_request_id extension in
  raw_jwt ← match parse_bearer_token authorization with
    | Ok raw_jwt => mret raw_jwt
    | Err error =>
        _ ← record_auth_failure state request_id (AuthFailure_audit_error_code error);
        lift (Err (with_request_id request_id (AuthFailure_into_api_error error)))
    end;
  claims ← io_match (in_world (JwtVerifier_verify config cache raw_jwt)) (λ verified,
    match verified with
    | Ok claims => mret claims
    | Err error =>
        _ ← record_auth_failure state request_id "jwt_verification_failed";
        lift (Err (with_request_id request_id (ApiError_from_JwtVerificationError error)))
    end);
  mret (mk_AuthenticatedUser claims raw_jwt).

(** The status of a body that was not accepted. *)
Definition json_rejection_to_api_error (status : Z) : ApiError :=
  if status =? 415 then ApiError_UnsupportedMediaType "unsupported media type"
  else if status =? 413 then ApiError_PayloadTooLarge "payload too large"
  else ApiError_BadRequest "invalid request body".

(** [enforce_runtime_resilience]: [next] is the handler, cut off when its time is up
    ([None]). *)
Definition enforce_runtime_resilience {IA : InstantArithmetic} {R} (limiter : FixedWindowRateLimiter) (now : Z)
    (extension : option RequestId) (path : str) (next : act (option R))
    (rate : option FixedWindowRateLimiterState) (s : Shared * World) :
    (R + Z * ApiErrorResponse) * (option FixedWindowRateLimiterState * (Shared * World)) :=
  let request_id := current_request_id extension in
  let refused error := inr (into_response (with_request_id request_id error)) in
  let run rate :=
    let '(response, s') := next s in
    (match response with Some response => inl response | None => refused ApiError_RequestTimeout end, (rate, s')) in
  if negb (is_rate_limit_exempt_path path) then
    let '(acquired, rate') := try_acquire limiter now rate in
    match acquired with
    | Ok true => run rate'
    | Ok false => (refused ApiError_RateLimited, (rate', s))
    | Err _ => (refused (ApiError_InternalError "rate limiter unavailable"), (rate', s))
    end
  else run rate.
End middleware.

(** ** Lemmas *)

Lemma validate_keys_Ok keys : validate_keys keys = Ok tt ↔ Forall (λ key, Jwk_validate_for_rs256 key = Ok tt) keys.
Proof.
  induction keys as [|key keys IH]; cbn; [by split|]. rewrite Forall_cons -IH.
  destruct (Jwk_validate_for_rs256 key) as [[]|]; cbn; naive_solver.
Qed.

(** A key set fit for use. *)
Definition Jwks_wf (jwks : Jwks) : Prop :=
  jwks_keys jwks ≠ [] ∧ Forall (λ key, Jwk_validate_for_rs256 key = Ok tt) (jwks_keys jwks).
Lemma Jwks_new_Ok keys jwks : Jwks_new keys = Ok jwks ↔ jwks = mk_Jwks keys ∧ Jwks_wf jwks.
Proof.
  unfold Jwks_new, Jwks_wf. case_bool_decide as Hk; [split; [done|intros [-> [? _]]; done]|].
  rewrite result_bind_Ok. split.
  - intros ([] & Hv%validate_keys_Ok & [= <-]). done.
  - intros [-> [_ Hv%validate_keys_Ok]]. by exists tt.
Qed.

Lemma find_signing_key_Ok jwks key_id key :
  Jwks_find_signing_key jwks key_id = Ok key →
  key ∈ jwks_keys jwks ∧ jwk_kid key = key_id ∧ Jwk_validate_for_rs256 key = Ok tt.
Proof.
  unfold Jwks_find_signing_key. intros H. inv_ok.
  match goal with H : find _ _ = Some _ |- _ => apply find_some in H as [Hin Heq%String.eqb_eq] end.
  by rewrite list_elem_of_In.
Qed.

Lemma validate_for_rs256_Ok key :
  Jwk_validate_for_rs256 key = Ok tt →
  jwk_kty key = "RSA"%string ∧ (∀ use, jwk_public_key_use key = Some use → use = "sig"%string)
  ∧ (∀ alg, jwk_alg key = Some alg → alg = "RS256"%string).
Proof.
  unfold Jwk_validate_for_rs256, SUPPORTED_JWT_ALGORITHM_NAME.
  destruct (String.eqb_spec (jwk_kty key) "RSA") as [->|]; [|done].
  assert (∀ o value, match o with Some v => negb (String.eqb v value) | None => false end = false →
    ∀ v : str, o = Some v → v = value) as Ho.
  { intros o value Hm v ->. by apply negb_false_iff, String.eqb_eq in Hm. }
  cbn [negb].
  destruct (match jwk_public_key_use key with Some _ => _ | None => _ end) eqn:Huse; [done|].
  destruct (match jwk_alg key with Some _ => _ | None => _ end) eqn:Halg; [done|]. eauto.
Qed.

(** A key set that was fetched is fit for use. *)
Lemma fetch_jwks_wf {P : Platform} {JE : JwksEndpoint} url w jwks w' :
  fetch_jwks url w = (Ok jwks, w') → Jwks_wf jwks.
Proof.
  unfold fetch_jwks. intros H. inv_run. case_if; inv_run; simplify_eq.
  by match goal with H : Jwks_new _ = Ok _ |- _ => apply Jwks_new_Ok in H as [_ ?] end.
Qed.

(** Requests one after the other: how many are let through. *)
Section limiter_lemmas.
Context {IA : InstantArithmetic} {LI : InstantArithmeticLaws IA}.
Implicit Types (limiter : FixedWindowRateLimiter) (state : FixedWindowRateLimiterState) (times : list Z).

Fixpoint acquire_all limiter times state : Z :=
  match times with
  | [] => 0
  | now :: times =>
      let '(acquired, state') := try_acquire_locked limiter now state in
      (if acquired then 1 else 0) + acquire_all limiter times state'
  end.
Definition limiter_wf limiter state : Prop := 0 ≤ rl_remaining state ≤ rl_max_requests limiter.

Lemma try_acquire_wf limiter now state :
  0 ≤ rl_max_requests limiter → limiter_wf limiter state → limiter_wf limiter (try_acquire_locked limiter now state).2.
Proof.
  unfold try_acquire_locked, limiter_wf. intros Hm Hw.
  destruct (rl_reset_at state <=? now); cbn; case_match eqn:E; cbn; lia.
Qed.

(** Before the window ends the requests left are let through, and no more. *)
Lemma acquire_within_window limiter times state :
  0 ≤ rl_remaining state → Forall (λ now, now < rl_reset_at state) times →
  acquire_all limiter times state = Z.min (rl_remaining state) (Z.of_nat (length times)).
Proof.
  revert state. induction times as [|now times IH]; intros state Hr Hall; cbn [acquire_all length]; [lia|].
  apply Forall_cons in Hall as [Hn Hall]. unfold try_acquire_locked.
  rewrite (proj2 (Z.leb_gt _ _) Hn). destruct (Z.eqb_spec (rl_remaining state) 0) as [H0|H0].
  - rewrite IH //. lia.
  - rewrite IH /=; [lia|lia|done].
Qed.
End limiter_lemmas.

(** ** Properties *)

Section authentication_theorems.
Context {P : Platform} {F : FileSystem} {SM : SerdeMembers} {K : SiemSink} {A : AuditEventAppender}.
Context {J : JwtLibrary} {H : HttpValues}.
Implicit Types (state : AppState) (config : JwtVerifierConfig) (cache : JwksCache) (s : Shared * World).

Lemma verify_Ok {LJ : JwtLaws J} config cache raw_jwt w claims w' :
  JwtVerifier_verify config cache raw_jwt w = (Ok claims, w') →
  ∃ kid jwks key dk token,
    decode_header (RawJwt_as_str raw_jwt) = Ok (RS256, Some kid)
    ∧ cache = Some jwks ∧ key ∈ jwks_keys jwks ∧ jwk_kid key = kid ∧ Jwk_validate_for_rs256 key = Ok tt
    ∧ from_rsa_components (jwk_n key) (jwk_e key) = Some dk
    ∧ jwt_signed dk RS256 (RawJwt_as_str raw_jwt) token
    ∧ rc_iss token = jv_issuer config ∧ rc_aud token = jv_audience config
    ∧ jwt_clock w - jv_leeway_seconds config ≤ rc_exp token
    ∧ OwnerUserId_parse (rc_sub token) = Ok (claims_subject_user_id claims)
    ∧ claims_mipsorcu_roles claims = rc_mipsorcu_roles token.
Proof.
  unfold JwtVerifier_verify, JwksCache_snapshot, Jwk_decoding_key. intros Hv. inv_run.
  case_if; inv_run; simplify_eq. apply negb_false_iff in Heqb. b2p.
  match goal with H : Jwks_find_signing_key _ _ = _ |- _ => apply find_signing_key_Ok in H as (? & ? & ?) end.
  match goal with H : jwt_decode _ _ _ _ = _ |- _ => apply jwt_decode_Ok in H as (? & Hi & Ha & ?) end.
  cbn in Hi, Ha. apply list_elem_of_singleton in Hi, Ha. subst. do 5 eexists. by split_and!.
Qed.

(** C5. Who is let in is who they say: a request is authenticated only when its header
    carries a token with a valid RS256 signature of a key of the published set, the
    one its header names, which is meant for signatures; the token is from the
    configured issuer for this service, has not expired, and the user and the roles
    are the token's. *)
Theorem authenticated_user_is_genuine {LJ : JwtLaws J} state config cache ext authorization s user s' :
  authenticate state config cache ext authorization s = (Ok user, s') →
  ∃ header kid jwks key dk token,
    authorization = Some header
    ∧ header_to_str header = Some (BEARER_PREFIX +:+ RawJwt_as_str (au_raw_jwt user))
    ∧ decode_header (RawJwt_as_str (au_raw_jwt user)) = Ok (RS256, Some kid)
    ∧ cache = Some jwks ∧ key ∈ jwks_keys jwks ∧ jwk_kid key = kid
    ∧ jwk_kty key = "RSA"%string ∧ (∀ use, jwk_public_key_use key = Some use → use = "sig"%string)
    ∧ from_rsa_components (jwk_n key) (jwk_e key) = Some dk
    ∧ jwt_signed dk RS256 (RawJwt_as_str (au_raw_jwt user)) token
    ∧ rc_iss token = jv_issuer config ∧ rc_aud token = jv_audience config
    ∧ jwt_clock s.2 - jv_leeway_seconds config ≤ rc_exp token
    ∧ OwnerUserId_parse (rc_sub token) = Ok (claims_subject_user_id (au_claims user))
    ∧ claims_mipsorcu_roles (au_claims user) = rc_mipsorcu_roles token.
Proof.
  unfold authenticate. intros Hr. apply io_bind_Ok in Hr as (jwt & s1 & Hp & Hr).
  destruct (parse_bearer_token authorization) as [raw|] eqn:Hb; [|by apply io_bind_Ok in Hp as (? & ? & _ & [? _]%lift_Ok)].
  injection Hp as <- <-. apply io_bind_Ok in Hr as (claims & s2 & Hm & [= <- <-]).
  apply io_match_run in Hm as (r & s3 & Hv & Hm).
  destruct r as [c|]; [|by apply io_bind_Ok in Hm as (? & ? & _ & [? _]%lift_Ok)]. injection Hm as <- <-.
  apply in_world_Ok in Hv as [Hv _].
  apply verify_Ok in Hv as (kid & jwks & key & dk & token & ? & ? & ? & ? & (? & ? & _)%validate_for_rs256_Ok & ? & ? & ? & ? & ? & ? & ?).
  unfold parse_bearer_token, RawJwt_new in Hb. inv_ok. case_if; inv_ok.
  match goal with H : strip_prefix _ _ = Some _ |- _ => apply strip_prefix_Some in H end. subst.
  eexists _, _, jwks, key, dk, token. by split_and!.
Qed.

(** The codes under which a refusal is audited. *)
Definition auth_failure_codes : list str :=
  ["authorization_header_missing"; "authorization_header_invalid"; "authorization_scheme_invalid";
   "raw_jwt_malformed"; "jwt_verification_failed"]%string.
Lemma auth_failure_metadata code :
  code ∈ auth_failure_codes → ∃ metadata, AuthFailureMetadata_build (AuthFailureMetadata_new code) = Ok metadata.
Proof.
  intros Hc. repeat apply elem_of_cons in Hc as [->|Hc]; [by eexists; vm_compute..|by apply not_elem_of_nil in Hc].
Qed.
Lemma auth_failure_run {E T} state rid code (error : E) s (r : result E T) s' :
  code ∈ auth_failure_codes →
  (_ ← record_auth_failure state rid code; (lift (Err error) : proc E T)) s = (r, s') →
  r = Err error ∧ ∃ metadata, AuthFailureMetadata_build (AuthFailureMetadata_new code) = Ok metadata
    ∧ s' = (failure_record_with_metadata state (mk_FailureAuditContext rid None None AuditAction_AuthFailure)
              metadata s).2.
Proof.
  intros (metadata & Hm)%auth_failure_metadata. unfold record_auth_failure. rewrite Hm.
  unfold report, io_match, mbind, io_bind.
  destruct (failure_record_with_metadata _ _ _ s) as [o s1] eqn:Hf. intros [= <- <-].
  split; [done|]. exists metadata. by rewrite Hf.
Qed.

(** Every refusal is a 401 that says nothing else to the caller, and is audited: the
    event of the failure, with the reason's code, was given to the recorder, without
    the token. *)
Theorem refused_user_is_audited state config cache ext authorization s error s' :
  authenticate state config cache ext authorization s = (Err error, s') →
  into_response error = (401, mk_ApiErrorResponse "unauthorized"
    (RequestId_as_canonical_string (current_request_id ext)))
  ∧ ∃ code metadata s1, code ∈ auth_failure_codes
    ∧ AuthFailureMetadata_build (AuthFailureMetadata_new code) = Ok metadata
    ∧ s' = (failure_record_with_metadata state
        (mk_FailureAuditContext (current_request_id ext) None None AuditAction_AuthFailure) metadata s1).2.
Proof.
  unfold authenticate. intros [Hp|(raw & s1 & _ & Hr)]%io_bind_Err.
  - destruct (parse_bearer_token authorization) as [|e]; [done|].
    apply auth_failure_run in Hp as ([= ->] & metadata & Hm & ->); [|destruct e; set_solver].
    split; [done|]. eexists _, metadata, s. split_and!; [|exact Hm|done]. destruct e; set_solver.
  - apply io_bind_Err in Hr as [Hm|(? & ? & _ & [=])]. apply io_match_run in Hm as (r & s2 & _ & Hm).
    destruct r as [|e]; [done|]. apply auth_failure_run in Hm as ([= ->] & metadata & Hm & ->); [|set_solver].
    split; [done|]. eexists _, metadata, s2. split_and!; [|exact Hm|done]. set_solver.
Qed.
End authentication_theorems.

Section limiter_theorems.
Context {IA : InstantArithmetic}.
Implicit Types (limiter : FixedWindowRateLimiter) (state : FixedWindowRateLimiterState) (times : list Z).

(** The first request after the end of a window starts a new one. *)
Lemma acquire_after_window limiter now times state :
  rl_reset_at state ≤ now → now < window_end limiter now →
  acquire_all limiter (now :: times) state = acquire_all limiter (now :: times) (FixedWindowRateLimiter_new limiter now).
Proof.
  intros Hr Hw. cbn [acquire_all]. unfold try_acquire_locked, FixedWindowRateLimiter_new. cbn [rl_reset_at rl_remaining].
  by rewrite (proj2 (Z.leb_le _ _) Hr) (proj2 (Z.leb_gt _ _) Hw).
Qed.

Lemma acquire_new_window {LI : InstantArithmeticLaws IA} limiter start now times state :
  0 ≤ rl_max_requests limiter → is_Some (instant_checked_add now (rl_window limiter)) →
  Forall (λ t, start ≤ t < start + rl_window limiter) (now :: times) → rl_reset_at state ≤ now →
  acquire_all limiter (now :: times) state ≤ rl_max_requests limiter.
Proof.
  intros Hm [e He] Hall Hr. pose proof (instant_checked_add_Some _ _ _ He) as ->.
  assert (window_end limiter now = now + rl_window limiter) as Hw by (unfold window_end; by rewrite He).
  pose proof (Forall_inv Hall) as Hn. cbn in Hn. rewrite acquire_after_window; [|done|lia].
  rewrite acquire_within_window; [apply Z.le_min_l|done|].
  eapply Forall_impl; [exact Hall|]. cbn. intros t Ht. lia.
Qed.

(** The end of a window that starts with the request can be represented by the clock. *)
Definition window_fits limiter (now : Z) : Prop := is_Some (instant_checked_add now (rl_window limiter)).

Lemma rate_within_window {LI : InstantArithmeticLaws IA} limiter start times state :
  limiter_wf limiter state →
  Forall (λ now, start ≤ now < start + rl_window limiter ∧ window_fits limiter now) times →
  acquire_all limiter times state ≤ 2 * rl_max_requests limiter
  ∧ (rl_reset_at state ≤ start → acquire_all limiter times state ≤ rl_max_requests limiter).
Proof.
  intros Hw Hall. assert (0 ≤ rl_max_requests limiter) as Hm by (unfold limiter_wf in Hw; lia).
  assert (acquire_all limiter times state ≤ rl_remaining state + rl_max_requests limiter) as Hb.
  - revert state Hw. induction Hall as [|now times [Hn Ha] Hall IH]; intros state Hw; [unfold limiter_wf in Hw; cbn; lia|].
    destruct (Z.leb_spec (rl_reset_at state) now) as [Hr|Hr].
    + unfold limiter_wf in Hw. trans (rl_max_requests limiter); [|lia]. eapply acquire_new_window; try done.
      constructor; [done|]. eapply Forall_impl; [exact Hall|]. by intros t [? _].
    + pose proof (try_acquire_wf limiter now state Hm Hw) as Hw'. cbn [acquire_all].
      unfold try_acquire_locked in *. rewrite (proj2 (Z.leb_gt _ _) Hr) in Hw' |- *. cbn in Hw'.
      unfold limiter_wf in Hw. destruct (Z.eqb_spec (rl_remaining state) 0); specialize (IH _ Hw'); cbn in IH |- *; lia.
  - unfold limiter_wf in Hw. split; [lia|]. intros Hr. destruct Hall as [|now times [Hn Ha] Hall]; [done|].
    eapply acquire_new_window; try done; [|lia]. constructor; [done|]. eapply Forall_impl; [exact Hall|]. by intros t [? _].
Qed.
Lemma oversized_window_counts limiter times state :
  0 < rl_max_requests limiter → Sorted Z.le (rl_reset_at state :: times) →
  Forall (λ now, ¬ window_fits limiter now) times →
  acquire_all limiter times state = Z.of_nat (length times).
Proof.
  intros Hm Hs Hall. revert state Hs. induction Hall as [|now times Hn Hall IH]; intros state Hs; [done|].
  apply eq_None_not_Some in Hn.
  apply Sorted_inv in Hs as [Hs Hr%HdRel_inv]. cbn [acquire_all length]. unfold try_acquire_locked.
  rewrite (proj2 (Z.leb_le _ _) Hr). cbn [rl_remaining].
  rewrite (proj2 (Z.eqb_neq _ _)); [|lia]. rewrite IH; [lia|]. unfold window_end. by rewrite Hn.
Qed.

(** C21. The rate is bounded as long as the clock can represent the end of the window.  Take
    requests that come within one window's time, however many and whatever came before.
    When the window that would start with each of them has an end the clock can
    represent, at most twice the limit are let through, and at most the limit when the
    last window had ended.  When none of them has one, because the configured window is
    too long for the clock, and the last window has ended, every request is let
    through: the limit is off. *)
Theorem rate_bounded_when_window_fits {LI : InstantArithmeticLaws IA} limiter start times state :
  limiter_wf limiter state → Forall (λ now, start ≤ now < start + rl_window limiter) times →
  (Forall (window_fits limiter) times →
     acquire_all limiter times state ≤ 2 * rl_max_requests limiter
     ∧ (rl_reset_at state ≤ start → acquire_all limiter times state ≤ rl_max_requests limiter))
  ∧ (0 < rl_max_requests limiter → Forall (λ now, ¬ window_fits limiter now) times → Sorted Z.le (rl_reset_at state :: times) →
     acquire_all limiter times state = Z.of_nat (length times)).
Proof.
  intros Hw Hall. split.
  - intros Hf. apply rate_within_window; [done|]. by apply Forall_and.
  - intros Hm Hf Hs. by apply oversized_window_counts.
Qed.

(** Within its window a request is refused only when the limit is used up. *)
Theorem limit_is_granted limiter now times :
  0 ≤ rl_max_requests limiter →
  Forall (λ t, t < window_end limiter now) times →
  acquire_all limiter times (FixedWindowRateLimiter_new limiter now)
  = Z.min (rl_max_requests limiter) (Z.of_nat (length times)).
Proof. intros Hm Ht. by apply acquire_within_window. Qed.

End limiter_theorems.

