(* ===== verification/Background.v ===== *)
(** * Background loops ([src/server/background.rs], [src/server/supabase/readiness.rs])

    The loops that run beside the server: the refresh of the key set, the readiness
    probe, the periodic checks, and the resending of what could not be delivered, with
    the care of the fallback file and of its archive.  Each loop does its work once at
    the start and then at every tick, until it is told to stop. *)

From S2P Require Import Prelude RustStd Json Platform Reference Errors Types Authorization AuditTypes LedgerTypes LedgerPayload LedgerEntry LedgerChain LedgerRpc LedgerAppender ApiError Files AuditEvent AuditBuilders Incident KeyRotation AuditFallback App ExportUseCase Siem AuditReporter Handlers Maintenance Scheduler Authentication.

(** A loop after its first run, over what ends its waits. *)
Fixpoint periodic {S} (once : S → S) (wakes : list Wake) (s : S) : S :=
  match wakes with
  | [] => s
  | Wake_Shutdown true :: _ => s
  | Wake_Shutdown false :: wakes => periodic once wakes s
  | Wake_Timer :: wakes => periodic once wakes (once s)
  end.

(** ** The key set *)

Inductive JwtVerifierInitError :=
| JwtVerifierInitError_Fetch (error : JwksFetchError)
| JwtVerifierInitError_Config (error : JwtVerificationError).
Definition JwtVerifierInitError_to_string (e : JwtVerifierInitError) : str :=
  match e with
  | JwtVerifierInitError_Fetch error => "JWKS loading failed: " +:+ JwksFetchError_to_string error
  | JwtVerifierInitError_Config error =>
      "JWT verifier config is invalid: " +:+ JwtVerificationError_to_string error
  end.
Definition jwks_fetch_error_kind (error : JwksFetchError) : str :=
  match error with
  | JwksFetchError_Network _ => "network"
  | JwksFetchError_NonSuccessStatus _ => "non_success_status"
  | JwksFetchError_InvalidResponse _ => "invalid_response"
  | JwksFetchError_InvalidJwks _ => "invalid_jwks"
  end.

Section jwks_refresh.
Context {P : Platform} {JE : JwksEndpoint}.

Definition initialize_jwt_verifier_from_jwks_url (jwks_url jwt_issuer jwt_audience : str) :
    io World JwtVerifierInitError (JwtVerifierConfig * JwksCache) :=
  jwks ← fetch_jwks jwks_url !?? JwtVerifierInitError_Fetch;
  jwt_config ← lift (JwtVerifierConfig_new jwt_issuer jwt_audience !? JwtVerifierInitError_Config);
  mret (jwt_config, JwksCache_new jwks).

Definition refresh_jwks_cache_once (jwks_url : str) : io (JwksCache * World) JwksFetchError unit := λ '(cache, w),
  match fetch_jwks jwks_url w with
  | (Err error, w') => (Err error, (cache, w'))
  | (Ok jwks, w') =>
      let '(replaced, cache') := JwksCache_replace jwks cache in
      (replaced !? JwksFetchError_InvalidJwks, (cache', w'))
  end.
Definition run_jwks_refresh_loop (jwks_url : str) : list Wake → JwksCache * World → JwksCache * World :=
  periodic (λ s, (refresh_jwks_cache_once jwks_url s).2).
End jwks_refresh.

(** ** Readiness *)

(** The status of a HEAD request to the database, without and with the key. *)
Class ReadinessProbe {P : Platform} := { readiness_probe_status : bool → io World str Z }.
Definition status_is_success (status : Z) : bool := (200 <=? status) && (status <=? 299).

Section loops.
Context {P : Platform} {F : FileSystem} {G : ArchiveCodec} {SM : SerdeMembers} {I : Instants P}.
Context {K : SiemSink} {A : AuditEventAppender} {IS : IncidentService} {NS : NotificationSink}.
Context {Svc : LedgerService} {Rot : KeyRotationService} {MC : MonotonicClock P} {Ck : CheckService}.
Context {RP : ReadinessProbe}.

Definition probe_readiness (w : World) : bool * World :=
  match readiness_probe_status false w with
  | (Ok status, w1) =>
      if status_is_success status then (true, w1)
      else if (status =? 401) || (status =? 403) then
        match readiness_probe_status true w1 with
        | (Ok status, w2) => (status_is_success status, w2)
        | (Err _, w2) => (false, w2)
        end
      else (false, w1)
  | (Err _, w1) => (false, w1)
  end.
Definition run_supabase_readiness_probe_once : act unit := λ s,
  let '(reachable, w) := probe_readiness s.2 in
  record_supabase_probe_result reachable (s.1, w).
Definition run_supabase_readiness_poll_loop (wakes : list Wake) (s : Shared * World) : Shared * World :=
  let once s := (run_supabase_readiness_probe_once s).2 in
  periodic once wakes (once s).

(** ** The periodic checks *)

Definition run_restore_test_loop (state : AppState) (startup_delay sample_limit : Z) (first : Wake)
    (wakes : list Wake) (s : Shared * World) : Shared * World :=
  let once trigger s := (run_restore_test_once state sample_limit trigger s).2 in
  if sleep_until_first_run startup_delay first then s
  else periodic (once AuditTrigger_Background) wakes (once AuditTrigger_Startup s).
Definition run_integrity_check_loop (state : AppState) (startup_delay : Z) (first : Wake)
    (wakes : list Wake) (s : Shared * World) : Shared * World :=
  let once trigger s := (run_integrity_check_once state trigger s).2 in
  if sleep_until_first_run startup_delay first then s
  else periodic (once AuditTrigger_Background) wakes (once AuditTrigger_Startup s).

(** ** The fallback file *)

(** [24 * 60 * 60] seconds, in nanoseconds. *)
Definition AUDIT_ARCHIVE_SWEEP_INTERVAL : Z := 24 * 60 * 60 * 1000000000.

Record AuditFallbackSizeAlert := mk_AuditFallbackSizeAlert { fa_size_bytes : Z; fa_threshold_bytes : Z }.
Definition audit_fallback_file_size (path : str) : io World str (option Z) :=
  io_match (fs_metadata path) (λ metadata,
    match metadata with
    | Ok (is_file, len) => mret (if is_file : bool then Some len else None)
    | Err IoError_NotFound => mret None
    | Err error => lift (Err (IoError_to_string error))
    end).
Definition audit_fallback_size_alert (path : str) (threshold_bytes : Z) :
    io World str (option AuditFallbackSizeAlert) :=
  size_bytes ← audit_fallback_file_size path;
  mret (size_bytes ← size_bytes;
        if threshold_bytes <=? size_bytes then Some (mk_AuditFallbackSizeAlert size_bytes threshold_bytes)
        else None).

(** The blocking tasks of the next two do not panic, so that joining them succeeds. *)
Definition run_audit_fallback_rollover_once : LocalAuditFallbackStore → io World LocalAuditStoreError RolloverOutcome :=
  rollover.
Definition sweep_audit_fallback_archive_once (store : LocalAuditFallbackStore) (retention_ms : Z) :
    io World LocalAuditStoreError (list SweptArchive) :=
  sweep_archive store retention_ms.

Definition should_sweep_archive (last_archive_sweep : option Z) (now : Z) : bool * option Z :=
  match last_archive_sweep with
  | Some last_sweep =>
      if Z.max 0 (now - last_sweep) <? AUDIT_ARCHIVE_SWEEP_INTERVAL then (false, last_archive_sweep)
      else (true, Some now)
  | None => (true, Some now)
  end.

Record AuditResendConfig := mk_AuditResendConfig {
  ar_alert_threshold_bytes : Z;
  ar_archive_auto_delete_enabled : bool;
  ar_archive_retention_ms : Z;
}.
(** The outcomes are only logged. *)
Definition record_audit_fallback_post_resend_tasks (store : LocalAuditFallbackStore) (config : AuditResendConfig)
    (s : option Z * World) : option Z * World :=
  let '(last_archive_sweep, w) := s in
  let w := (audit_fallback_size_alert (st_path store) (ar_alert_threshold_bytes config) w).2 in
  let w := (run_audit_fallback_rollover_once store w).2 in
  if ar_archive_auto_delete_enabled config then
    let '(now, w) := instant_now w in
    let '(sweep, last_archive_sweep) := should_sweep_archive last_archive_sweep now in
    if sweep : bool then (last_archive_sweep, (sweep_audit_fallback_archive_once store (ar_archive_retention_ms config) w).2)
    else (last_archive_sweep, w)
  else (last_archive_sweep, w).
Definition audit_resend_once (store : LocalAuditFallbackStore) (config : AuditResendConfig)
    (s : option Z * World) : option Z * World :=
  record_audit_fallback_post_resend_tasks store config (s.1, (resend_pending store s.2).2).
Definition run_audit_resend_loop (store : LocalAuditFallbackStore) (config : AuditResendConfig)
    (wakes : list Wake) (w : World) : option Z * World :=
  periodic (audit_resend_once store config) wakes (audit_resend_once store config (None, w)).

Definition resend_audit_error_kind (error : AuditRecordError) : str :=
  match error with
  | AuditRecordError_EventConstructionFailed _ => "event_construction_failed"
  | AuditRecordError_LedgerAppendFailed => "ledger_append_failed"
  | AuditRecordError_PrimaryAndFallbackFailed _ _ => "primary_and_fallback_failed"
  | AuditRecordError_IdempotencyConflict => "idempotency_conflict"
  | AuditRecordError_ResendReadFailed _ => "resend_read_failed"
  | AuditRecordError_ResendMarkSentFailed _ => "resend_mark_sent_failed"
  end.
Definition local_audit_store_error_kind (error : LocalAuditStoreError) : str :=
  match error with
  | LocalAuditStoreError_Io _ => "io"
  | LocalAuditStoreError_Json _ => "json"
  | LocalAuditStoreError_TimestampFormat _ => "timestamp_format"
  | LocalAuditStoreError_ArchivePathUnavailable _ => "archive_path_unavailable"
  | LocalAuditStoreError_GzipWriteFailed _ _ => "gzip_write_failed"
  | LocalAuditStoreError_HashReadFailed _ _ => "hash_read_failed"
  | LocalAuditStoreError_CurrentFileRemoveFailed _ _ => "current_file_remove_failed"
  | LocalAuditStoreError_ArchiveDeleteFailed _ _ => "archive_delete_failed"
  | LocalAuditStoreError_LockPoisoned => "lock_poisoned"
  | LocalAuditStoreError_InvalidLine _ _ => "invalid_line"
  | LocalAuditStoreError_Event _ => "event"
  end.

(** ** The SIEM *)

Definition siem_long_failure_input : IncidentRecordInput :=
  let incident_type := IncidentType_SiemLongFailure in
  IncidentRecordInput_new incident_type (severity_for_incident incident_type) "siem_resend_loop"
    "siem-long-failure" "siem_long_outage".
Definition siem_status : act SiemForwarderStatusInner := λ s, (sh_siem_status s.1, s).
Definition record_siem_resend_result (appender : LedgerAppender) (long_failure_threshold : Z) : act unit :=
  now ← now_utc;
  status ← siem_status;
  if is_long_failure status now long_failure_threshold then
    _ ← attempted (in_world (incident_record appender siem_long_failure_input));
    mret tt
  else mret tt.
Definition siem_resend_once (appender : LedgerAppender) (buffer : LocalSiemFallbackBuffer)
    (long_failure_threshold : Z) (s : Shared * World) : Shared * World :=
  let '(_, s) := siem_resend_pending buffer s in
  (record_siem_resend_result appender long_failure_threshold s).2.
Definition run_siem_resend_loop (appender : LedgerAppender) (buffer : LocalSiemFallbackBuffer)
    (long_failure_threshold : Z) (wakes : list Wake) (s : Shared * World) : Shared * World :=
  let once := siem_resend_once appender buffer long_failure_threshold in
  periodic once wakes (once s).
End loops.

(** ** Properties *)

Lemma periodic_inv {S} (inv : S → Prop) once wakes s :
  (∀ s, inv s → inv (once s)) → inv s → inv (periodic once wakes s).
Proof.
  intros Hstep. revert s. induction wakes as [|[[]|] wakes IH]; intros s Hs; cbn; auto.
Qed.

(** C13. Whatever is fetched and whatever fails, the verifier always has a key set to
    verify with: from the start on, after any run of the refresh loop, the cache holds
    a set that is not empty and of which every key is fit for RS256. *)
Theorem key_set_always_usable {P : Platform} {JE : JwksEndpoint} url issuer audience w config cache w' wakes w1 :
  initialize_jwt_verifier_from_jwks_url url issuer audience w = (Ok (config, cache), w') →
  ∃ jwks, (run_jwks_refresh_loop url wakes (cache, w1)).1 = Some jwks ∧ Jwks_wf jwks.
Proof.
  unfold initialize_jwt_verifier_from_jwks_url. intros H. inv_run.
  match goal with H : fetch_jwks _ _ = _ |- _ => apply fetch_jwks_wf in H end. simplify_eq.
  apply (periodic_inv (λ s : JwksCache * World, ∃ jwks, s.1 = Some jwks ∧ Jwks_wf jwks)); [|by eexists].
  intros [c wc] (jwks & Hc & Hw). cbn in Hc. subst c. unfold refresh_jwks_cache_once.
  destruct (fetch_jwks url wc) as [[fetched|error] w2] eqn:Hf; cbn; [apply fetch_jwks_wf in Hf|]; by eexists.
Qed.

(** A refresh that fails leaves the key set as it was; one that succeeds puts exactly
    the fetched set in its place. *)
Theorem refresh_replaces_or_keeps {P : Platform} {JE : JwksEndpoint} url jwks w r cache' w' :
  refresh_jwks_cache_once url (Some jwks, w) = (r, (cache', w')) →
  match r with
  | Ok _ => ∃ fetched, fetch_jwks url w = (Ok fetched, w') ∧ cache' = Some fetched
  | Err error => fetch_jwks url w = (Err error, w') ∧ cache' = Some jwks
  end.
Proof.
  unfold refresh_jwks_cache_once. destruct (fetch_jwks url w) as [[fetched|error] w2]; cbn; intros [= <- <- <-]; eauto.
Qed.

Section loop_theorems.
Context {P : Platform} {F : FileSystem} {G : ArchiveCodec} {SM : SerdeMembers} {I : Instants P}.
Context {K : SiemSink} {A : AuditEventAppender} {IS : IncidentService} {NS : NotificationSink}.
Context {Svc : LedgerService} {MC : MonotonicClock P} {RP : ReadinessProbe}.
Implicit Types (s : Shared * World).

(** The archive is swept only when it may be, and at most once a day: a pass of the
    resend loop either leaves the time of the last sweep, and then removes no archive
    file, or sets it to a time a full interval after the last. *)
Theorem archive_swept_at_most_daily store config last w last' w' :
  audit_resend_once store config (last, w) = (last', w') →
  ∃ w1, (run_audit_fallback_rollover_once store w1).2 = w'
     ∧ ar_archive_auto_delete_enabled config = false ∧ last' = last
  ∨ (ar_archive_auto_delete_enabled config = true
     ∧ let now := (instant_now (run_audit_fallback_rollover_once store w1).2).1 in
       let w2 := (instant_now (run_audit_fallback_rollover_once store w1).2).2 in
       (last' = last ∧ w' = w2 ∧ ∃ t, last = Some t ∧ now - t < AUDIT_ARCHIVE_SWEEP_INTERVAL)
       ∨ (last' = Some now ∧ w' = (sweep_audit_fallback_archive_once store (ar_archive_retention_ms config) w2).2
          ∧ ∀ t, last = Some t → t + AUDIT_ARCHIVE_SWEEP_INTERVAL ≤ now)).
Proof.
  unfold audit_resend_once, record_audit_fallback_post_resend_tasks. cbn [fst snd].
  set (w1 := (audit_fallback_size_alert _ _ _).2). intros H. exists w1. revert H.
  destruct (ar_archive_auto_delete_enabled config); [|by intros [= <- <-]; left].
  destruct (instant_now _) as [now w2]. unfold should_sweep_archive. intros H. right. split; [done|]. cbn [fst snd].
  destruct last as [t|]; [destruct (Z.ltb_spec (Z.max 0 (now - t)) AUDIT_ARCHIVE_SWEEP_INTERVAL) as [Hl|Hl]|];
    injection H as <- <-; [left|right..]; split_and!; try done.
  - exists t. split; [done|]. lia.
  - intros t' [= <-]. unfold AUDIT_ARCHIVE_SWEEP_INTERVAL in *. lia.
Qed.

(** A long outage of the SIEM is an incident at every pass until it ends, and nothing
    else is: after resending, the recorder runs exactly when the outage is as old as
    the threshold. *)
Theorem siem_outage_is_an_incident appender buffer threshold s summary s1 :
  siem_resend_pending buffer s = (summary, s1) →
  let now := (clock_now_utc s1.2).1 in
  let w2 := (clock_now_utc s1.2).2 in
  siem_resend_once appender buffer threshold s
  = if is_long_failure (sh_siem_status s1.1) now threshold
    then (s1.1, (incident_record appender siem_long_failure_input w2).2) else (s1.1, w2).
Proof.
  unfold siem_resend_once, record_siem_resend_result, siem_status, now_utc, mbind, act_bind. intros ->. cbn zeta.
  destruct (clock_now_utc s1.2) as [now w2]. cbn [fst snd]. case_if; [|done].
  unfold attempted, in_world. cbn [fst snd]. by destruct (incident_record _ _ _).
Qed.

(** The readiness the server reports is that of the last probe: after any run of the
    poll loop it is what a probe answered, with the time it was asked, and the rest of
    the shared state is as it was. *)
Theorem readiness_is_the_last_probe wakes s s' :
  run_supabase_readiness_poll_loop wakes s = s' →
  ∃ w, ri_supabase_reachable (sh_readiness s'.1) = (probe_readiness w).1
    ∧ ri_supabase_last_checked_at (sh_readiness s'.1) = Some (clock_now_utc (probe_readiness w).2).1
    ∧ ri_failure_audit_both_failed_last_at (sh_readiness s'.1) = ri_failure_audit_both_failed_last_at (sh_readiness s.1)
    ∧ sh_siem_status s'.1 = sh_siem_status s.1.
Proof.
  intros <-. unfold run_supabase_readiness_poll_loop.
  set (inv s' := ∃ w, ri_supabase_reachable (sh_readiness s'.1) = (probe_readiness w).1
    ∧ ri_supabase_last_checked_at (sh_readiness s'.1) = Some (clock_now_utc (probe_readiness w).2).1
    ∧ ri_failure_audit_both_failed_last_at (sh_readiness s'.1) = ri_failure_audit_both_failed_last_at (sh_readiness s.1)
    ∧ sh_siem_status (s' : Shared * World).1 = sh_siem_status s.1).
  assert (∀ s0, ri_failure_audit_both_failed_last_at (sh_readiness s0.1)
      = ri_failure_audit_both_failed_last_at (sh_readiness s.1) → sh_siem_status s0.1 = sh_siem_status s.1 →
    inv (run_supabase_readiness_probe_once s0).2) as Honce.
  { intros [sh w] Hf Hs. exists w. unfold run_supabase_readiness_probe_once, record_supabase_probe_result, now_utc.
    cbn in *. destruct (probe_readiness w) as [reachable w1]. unfold mbind, act_bind. cbn.
    destruct (clock_now_utc w1) as [t w2]. by cbn. }
  apply (periodic_inv inv); [|by apply Honce]. intros s0 (_ & _ & _ & Hf & Hs). by apply Honce.
Qed.
End loop_theorems.
