(* ===== verification/AuditReport.v ===== *)
(** * The audit report command ([src/server/audit_report.rs],
    [src/server/supabase/audit_report_rpc.rs])

    [mipsorcu audit-report generate --from t --to t --format json|markdown] fetches the
    database's summary of a period, verifies the signatures of the ledger entries the
    summary names, records that a report was made and prints it.  What is printed is
    the value of the command. *)

From S2P Require Import Prelude RustStd Json Platform Reference Errors Types AuditTypes LedgerTypes LedgerPayload LedgerEntry LedgerChain LedgerRpc LedgerAppender Digest DigestUseCases Files AuditEvent AuditBuilders KeyRotation AuditFallback App Siem Auditor.

(** ** The summary the database makes ([audit_report_rpc.rs]) *)

Record HashChainVerificationSummary := mk_HashChainVerificationSummary {
  hv_checked_count : Z;
  hv_detail : option str;
  hv_valid : bool;
}.
Record IntegrityCheckReportItem := mk_IntegrityCheckReportItem {
  ici_checked_audit_event_count : Z;
  ici_checked_secret_count : Z;
  ici_checked_secret_version_count : Z;
  ici_duration_ms : Z;
  ici_occurred_at : str;
  ici_result : str;
  ici_trigger : option str;
  ici_violation_count : Z;
}.
Record MonthlyDigestReportItem := mk_MonthlyDigestReportItem {
  mdi_digest_hash : str;
  mdi_end_sequence_no : Z;
  mdi_entry_count : Z;
  mdi_sequence_no : Z;
  mdi_start_sequence_no : Z;
  mdi_target_year_month : str;
}.
Record RestoreTestReportItem := mk_RestoreTestReportItem {
  rti_duration_ms : Z;
  rti_occurred_at : str;
  rti_result : str;
  rti_sample_count : Z;
  rti_trigger : option str;
}.
Record SignatureKeyVersionReportItem := mk_SignatureKeyVersionReportItem {
  ski_key_version : Z;
  ski_status : str;
}.
Record VerificationFailureReportItem := mk_VerificationFailureReportItem {
  vfi_code : str;
  vfi_occurred_at : str;
  vfi_sequence_no : option Z;
  vfi_source : str;
}.
Record AuditReportSummary := mk_AuditReportSummary {
  as_audit_event_count : Z;
  as_hash_chain_verification : HashChainVerificationSummary;
  as_integrity_checks : list IntegrityCheckReportItem;
  as_ledger_entry_count : Z;
  as_monthly_digests : list MonthlyDigestReportItem;
  as_period_end : str;
  as_period_start : str;
  as_restore_tests : list RestoreTestReportItem;
  as_secret_count : Z;
  as_sequence_end : option Z;
  as_sequence_start : option Z;
  as_signature_key_versions : list SignatureKeyVersionReportItem;
  as_verification_failures : list VerificationFailureReportItem;
}.
Record AuditReportSummaryParams := mk_AuditReportSummaryParams {
  rp_p_period_end : str;
  rp_p_period_start : str;
}.

Class AuditReportService {P : Platform} := {
  svc_audit_report_summary : AuditReportSummaryParams → io World SupabaseRpcError (list AuditReportSummary);
}.

Definition fetch_audit_report_summary {P : Platform} {RS : AuditReportService} (period_start period_end : str) :
    io World SupabaseRpcError AuditReportSummary :=
  rows ← svc_audit_report_summary (mk_AuditReportSummaryParams period_end period_start);
  lift (match rows with row :: _ => Ok row | [] => Err SupabaseRpcError_EmptyResult end).

(** ** Arguments *)

Inductive AuditReportCliError :=
| AuditReportCliError_AuditRecordFailed (error : AuditRecordError)
| AuditReportCliError_Config (message : str)
| AuditReportCliError_FetchFailed (message : str)
| AuditReportCliError_Serialization (message : str)
| AuditReportCliError_Usage (message : str).

Inductive AuditReportFormat := AuditReportFormat_Json | AuditReportFormat_Markdown.
#[global] Instance AuditReportFormat_eq_dec : EqDecision AuditReportFormat.
Proof. solve_decision. Defined.
Definition AuditReportFormat_parse (value : str) : option AuditReportFormat :=
  if String.eqb value "json" then Some AuditReportFormat_Json
  else if String.eqb value "markdown" then Some AuditReportFormat_Markdown else None.
Definition AuditReportFormat_as_str (format : AuditReportFormat) : str :=
  match format with AuditReportFormat_Json => "json" | AuditReportFormat_Markdown => "markdown" end.

Definition audit_report_usage : str :=
  "usage:" +:+ newline
  +:+ "  mipsorcu audit-report generate --from RFC3339_UTC --to RFC3339_UTC --format json" +:+ newline
  +:+ "  mipsorcu audit-report generate --from RFC3339_UTC --to RFC3339_UTC --format markdown".
Definition report_usage_error {A} : result AuditReportCliError A := Err (AuditReportCliError_Usage audit_report_usage).

Record AuditReportArgs := mk_AuditReportArgs {
  ra_subcommand : bool;
  ra_period_start : option str;
  ra_period_end : option str;
  ra_format : option AuditReportFormat;
}.

(** The [while] loop from the current index on. *)
Fixpoint parse_report_args (args : list str) (a : AuditReportArgs) : result AuditReportCliError AuditReportArgs :=
  match args with
  | [] => Ok a
  | arg :: rest =>
      if String.eqb arg "generate" && negb (ra_subcommand a)
      then parse_report_args rest (mk_AuditReportArgs true (ra_period_start a) (ra_period_end a) (ra_format a))
      else if negb (str_in arg ["--from"; "--to"; "--format"]%string) then report_usage_error
      else match rest with
      | [] => report_usage_error
      | value :: rest =>
          if starts_with value "--" then report_usage_error
          else if String.eqb arg "--from" then
            parse_report_args rest (mk_AuditReportArgs (ra_subcommand a) (Some value) (ra_period_end a) (ra_format a))
          else if String.eqb arg "--to" then
            parse_report_args rest (mk_AuditReportArgs (ra_subcommand a) (ra_period_start a) (Some value) (ra_format a))
          else match AuditReportFormat_parse value with
          | None => report_usage_error
          | Some format =>
              parse_report_args rest
                (mk_AuditReportArgs (ra_subcommand a) (ra_period_start a) (ra_period_end a) (Some format))
          end
      end
  end.

(** [start.as_str() >= end.as_str()]: the order of texts. *)
Definition str_ge (s t : str) : bool :=
  match String.compare s t with Lt => false | _ => true end.

Record AuditReportRequest := mk_AuditReportRequest {
  rq_period_start : SourceEventAt;
  rq_period_end : SourceEventAt;
  rq_format : AuditReportFormat;
}.
Definition audit_report_request {P : Platform} (args : list str) : result AuditReportCliError AuditReportRequest :=
  a ← parse_report_args args (mk_AuditReportArgs false None None None);
  if negb (ra_subcommand a) then report_usage_error else
  period_start_raw ← ok_or (ra_period_start a) (AuditReportCliError_Usage audit_report_usage);
  period_end_raw ← ok_or (ra_period_end a) (AuditReportCliError_Usage audit_report_usage);
  format ← ok_or (ra_format a) (AuditReportCliError_Usage audit_report_usage);
  period_start ← SourceEventAt_parse period_start_raw
    !? (λ error, AuditReportCliError_Usage ("invalid --from: " +:+ AadError_to_string error));
  period_end ← SourceEventAt_parse period_end_raw
    !? (λ error, AuditReportCliError_Usage ("invalid --to: " +:+ AadError_to_string error));
  if str_ge (SourceEventAt_as_str period_start) (SourceEventAt_as_str period_end)
  then Err (AuditReportCliError_Usage "--from must be earlier than --to") else
  Ok (mk_AuditReportRequest period_start period_end format).

(** ** The report *)

Record CheckStatus := mk_CheckStatus {
  cst_latest_result : option str;
  cst_performed : bool;
  cst_total_count : Z;
}.
Record SignatureVerificationSummary := mk_SignatureVerificationSummary {
  sv_checked_count : Z;
  sv_detail : option str;
  sv_valid : bool;
}.
Record AuditReportJson := mk_AuditReportJson {
  ar_audit_event_count : Z;
  ar_hash_chain_verification : HashChainVerificationSummary;
  ar_integrity_check_status : CheckStatus;
  ar_integrity_checks : list IntegrityCheckReportItem;
  ar_ledger_entry_count : Z;
  ar_monthly_digests : list MonthlyDigestReportItem;
  ar_period_end : str;
  ar_period_start : str;
  ar_restore_test_status : CheckStatus;
  ar_restore_tests : list RestoreTestReportItem;
  ar_secret_count : Z;
  ar_sequence_end : option Z;
  ar_sequence_start : option Z;
  ar_signature_key_versions : list SignatureKeyVersionReportItem;
  ar_signature_verification : SignatureVerificationSummary;
  ar_verification_failures : list VerificationFailureReportItem;
}.

Definition check_status (results : list str) : CheckStatus :=
  mk_CheckStatus (last results) (negb (bool_decide (results = []))) (Z.of_nat (length results)).
Definition build_report (summary : AuditReportSummary) (signature_verification : SignatureVerificationSummary) :
    AuditReportJson :=
  let restore_test_status := check_status (rti_result <$> as_restore_tests summary) in
  let integrity_check_status := check_status (ici_result <$> as_integrity_checks summary) in
  mk_AuditReportJson (as_audit_event_count summary) (as_hash_chain_verification summary) integrity_check_status
    (as_integrity_checks summary) (as_ledger_entry_count summary) (as_monthly_digests summary)
    (as_period_end summary) (as_period_start summary) restore_test_status (as_restore_tests summary)
    (as_secret_count summary) (as_sequence_end summary) (as_sequence_start summary)
    (as_signature_key_versions summary) signature_verification (as_verification_failures summary).

(** ** Its two forms *)

Definition check_status_json (s : CheckStatus) : Value :=
  JObject [("latest_result", json_opt_str (cst_latest_result s)); ("performed", JBool (cst_performed s));
    ("total_count", json_uint (cst_total_count s))]%string.
Definition hash_chain_json (h : HashChainVerificationSummary) : Value :=
  JObject [("checked_count", json_uint (hv_checked_count h)); ("detail", json_opt_str (hv_detail h));
    ("valid", JBool (hv_valid h))]%string.
Definition signature_summary_json (s : SignatureVerificationSummary) : Value :=
  JObject [("checked_count", json_uint (sv_checked_count s)); ("detail", json_opt_str (sv_detail s));
    ("valid", JBool (sv_valid s))]%string.
Definition integrity_item_json (i : IntegrityCheckReportItem) : Value :=
  JObject [("checked_audit_event_count", json_uint (ici_checked_audit_event_count i));
    ("checked_secret_count", json_uint (ici_checked_secret_count i));
    ("checked_secret_version_count", json_uint (ici_checked_secret_version_count i));
    ("duration_ms", json_uint (ici_duration_ms i)); ("occurred_at", JString (ici_occurred_at i));
    ("result", JString (ici_result i)); ("trigger", json_opt_str (ici_trigger i));
    ("violation_count", json_uint (ici_violation_count i))]%string.
Definition digest_item_json (i : MonthlyDigestReportItem) : Value :=
  JObject [("digest_hash", JString (mdi_digest_hash i)); ("end_sequence_no", json_uint (mdi_end_sequence_no i));
    ("entry_count", json_uint (mdi_entry_count i)); ("sequence_no", json_uint (mdi_sequence_no i));
    ("start_sequence_no", json_uint (mdi_start_sequence_no i));
    ("target_year_month", JString (mdi_target_year_month i))]%string.
Definition restore_item_json (i : RestoreTestReportItem) : Value :=
  JObject [("duration_ms", json_uint (rti_duration_ms i)); ("occurred_at", JString (rti_occurred_at i));
    ("result", JString (rti_result i)); ("sample_count", json_uint (rti_sample_count i));
    ("trigger", json_opt_str (rti_trigger i))]%string.
Definition key_item_json (i : SignatureKeyVersionReportItem) : Value :=
  JObject [("key_version", json_uint (ski_key_version i)); ("status", JString (ski_status i))]%string.
Definition failure_item_json (i : VerificationFailureReportItem) : Value :=
  JObject [("code", JString (vfi_code i)); ("occurred_at", JString (vfi_occurred_at i));
    ("sequence_no", json_opt_uint (vfi_sequence_no i)); ("source", JString (vfi_source i))]%string.

(** [#[derive(Serialize)]] of the report. *)
Definition audit_report_json (r : AuditReportJson) : Value :=
  JObject [("audit_event_count", json_uint (ar_audit_event_count r));
    ("hash_chain_verification", hash_chain_json (ar_hash_chain_verification r));
    ("integrity_check_status", check_status_json (ar_integrity_check_status r));
    ("integrity_checks", JArray (integrity_item_json <$> ar_integrity_checks r));
    ("ledger_entry_count", json_uint (ar_ledger_entry_count r));
    ("monthly_digests", JArray (digest_item_json <$> ar_monthly_digests r));
    ("period_end", JString (ar_period_end r)); ("period_start", JString (ar_period_start r));
    ("restore_test_status", check_status_json (ar_restore_test_status r));
    ("restore_tests", JArray (restore_item_json <$> ar_restore_tests r));
    ("secret_count", json_uint (ar_secret_count r)); ("sequence_end", json_opt_uint (ar_sequence_end r));
    ("sequence_start", json_opt_uint (ar_sequence_start r));
    ("signature_key_versions", JArray (key_item_json <$> ar_signature_key_versions r));
    ("signature_verification", signature_summary_json (ar_signature_verification r));
    ("verification_failures", JArray (failure_item_json <$> ar_verification_failures r))]%string.

Definition render_json {P : Platform} (report : AuditReportJson) : result AuditReportCliError str :=
  json ← serde_to_string (audit_report_json report) !? AuditReportCliError_Serialization;
  Ok (json +:+ newline).

Definition push_kv (key value : str) : str := "- **" +:+ key +:+ "**: " +:+ value +:+ newline.
Definition sequence_range (start end_ : option Z) : str :=
  match start, end_ with
  | Some start, Some end_ => int_to_string start +:+ "-" +:+ int_to_string end_
  | _, _ => "n/a"
  end.
Definition yes_no (value : bool) : str := if value then "yes" else "no".
Definition optional_text (value : option str) : str := default "n/a"%string value.

Definition concat_str (texts : list str) : str := foldr String.append EmptyString texts.
(** A section of the report: a line for each item, or that there is none. *)
Definition push_section {A} (title : str) (line : A → str) (items : list A) : str :=
  newline +:+ "## " +:+ title +:+ newline +:+ newline
  +:+ match items with [] => "- none" +:+ newline | _ => concat_str (line <$> items) end.
Definition failure_line (failure : VerificationFailureReportItem) : str :=
  "- source=" +:+ vfi_source failure +:+ " code=" +:+ vfi_code failure +:+ " occurred_at=" +:+ vfi_occurred_at failure
  +:+ " sequence_no=" +:+ match vfi_sequence_no failure with Some v => int_to_string v | None => "n/a" end +:+ newline.
Definition key_version_line (key : SignatureKeyVersionReportItem) : str :=
  "- key_version=" +:+ int_to_string (ski_key_version key) +:+ " status=" +:+ ski_status key +:+ newline.
Definition digest_line (digest : MonthlyDigestReportItem) : str :=
  "- target_year_month=" +:+ mdi_target_year_month digest +:+ " sequence_no=" +:+ int_to_string (mdi_sequence_no digest)
  +:+ " range=" +:+ int_to_string (mdi_start_sequence_no digest) +:+ "-" +:+ int_to_string (mdi_end_sequence_no digest)
  +:+ " entry_count=" +:+ int_to_string (mdi_entry_count digest) +:+ " digest_hash=" +:+ mdi_digest_hash digest +:+ newline.

Definition render_markdown (report : AuditReportJson) : str :=
  "# mipsorcu audit report" +:+ newline +:+ newline
  +:+ "## Summary" +:+ newline +:+ newline
  +:+ concat_str
    [push_kv "Period" (ar_period_start report +:+ " - " +:+ ar_period_end report);
     push_kv "Sequence range" (sequence_range (ar_sequence_start report) (ar_sequence_end report));
     push_kv "Ledger entry count" (int_to_string (ar_ledger_entry_count report));
     push_kv "Audit event count" (int_to_string (ar_audit_event_count report));
     push_kv "Secret count" (int_to_string (ar_secret_count report));
     push_kv "Restore test performed" (yes_no (cst_performed (ar_restore_test_status report)));
     push_kv "Restore test count" (int_to_string (cst_total_count (ar_restore_test_status report)));
     push_kv "Restore test latest result" (optional_text (cst_latest_result (ar_restore_test_status report)));
     push_kv "Integrity check performed" (yes_no (cst_performed (ar_integrity_check_status report)));
     push_kv "Integrity check count" (int_to_string (cst_total_count (ar_integrity_check_status report)));
     push_kv "Integrity check latest result" (optional_text (cst_latest_result (ar_integrity_check_status report)));
     push_kv "Hash chain valid" (yes_no (hv_valid (ar_hash_chain_verification report)));
     push_kv "Hash chain checked count" (int_to_string (hv_checked_count (ar_hash_chain_verification report)));
     push_kv "Hash chain detail" (optional_text (hv_detail (ar_hash_chain_verification report)));
     push_kv "Signature verification valid" (yes_no (sv_valid (ar_signature_verification report)));
     push_kv "Signature verification checked count" (int_to_string (sv_checked_count (ar_signature_verification report)));
     push_kv "Signature verification detail" (optional_text (sv_detail (ar_signature_verification report)))]
  +:+ push_section "Verification failures" failure_line (ar_verification_failures report)
  +:+ push_section "Signature key versions" key_version_line (ar_signature_key_versions report)
  +:+ push_section "Monthly digests" digest_line (ar_monthly_digests report)
  +:+ newline.

(** ** Verification of the signatures *)

Definition signature_failure_item (code occurred_at : str) (sequence_no : option Z) : VerificationFailureReportItem :=
  mk_VerificationFailureReportItem code occurred_at sequence_no "ledger_signature".

Definition map_ledger_error_to_code_and_sequence (error : LedgerError) (fallback_sequence_no : option Z) : str * Z :=
  match error with
  | LedgerError_SequenceGap _ actual => ("sequence_gap", actual)
  | LedgerError_PreviousHashMismatch sequence_no => ("previous_hash_mismatch", sequence_no)
  | LedgerError_HashMismatch sequence_no => ("entry_hash_mismatch", sequence_no)
  | LedgerError_SignatureInvalid sequence_no => ("signature_invalid", sequence_no)
  | LedgerError_UnknownSignatureKey _ sequence_no => ("unknown_signature_key", sequence_no)
  | _ => ("invalid_exported_material", default 0 fallback_sequence_no)
  end%string.

(** [summary.verification_failures.push(..)]. *)
Definition push_failure (summary : AuditReportSummary) (item : VerificationFailureReportItem) : AuditReportSummary :=
  mk_AuditReportSummary (as_audit_event_count summary) (as_hash_chain_verification summary)
    (as_integrity_checks summary) (as_ledger_entry_count summary) (as_monthly_digests summary)
    (as_period_end summary) (as_period_start summary) (as_restore_tests summary) (as_secret_count summary)
    (as_sequence_end summary) (as_sequence_start summary) (as_signature_key_versions summary)
    (as_verification_failures summary ++ [item]).

Section report.
Context {P : Platform}.

(** What stopped the loop over the rows. *)
Record RowFailure := mk_RowFailure {
  rf_row : LedgerVerificationMaterialRow;
  rf_error : LedgerError;
  rf_checked : nat;
}.

(** The loop: the entries so far and the first key of each version.  A key that is
    refused is noticed after its entry was counted. *)
Fixpoint restore_report_rows (rows : list LedgerVerificationMaterialRow) (entries : list SignedLedgerEntry)
    (verification_keys : list LedgerVerifyingKey) :
    result RowFailure (list SignedLedgerEntry * list LedgerVerifyingKey) :=
  match rows with
  | [] => Ok (entries, verification_keys)
  | row :: rows =>
      entry ← try_restore_signed_ledger_entry row !? (λ error, mk_RowFailure row error (length entries));
      let entries := entries ++ [entry] in
      maybe_key ← try_restore_verifying_key row !? (λ error, mk_RowFailure row error (length entries));
      restore_report_rows rows entries
        (match maybe_key with
         | Some key =>
             if existsb (λ existing, bool_decide (vk_key_version existing = vk_key_version key)) verification_keys
             then verification_keys else verification_keys ++ [key]
         | None => verification_keys
         end)
  end.

Definition initial_head_for_report_range (sequence_start : Z) (entries : list SignedLedgerEntry) :
    result AuditReportCliError LedgerChainHead :=
  if sequence_start =? 1 then Ok LedgerChainHead_genesis else
  first_entry ← ok_or (head entries) (AuditReportCliError_FetchFailed "ledger export returned no entries");
  LedgerChainHead_new (sequence_start - 1) (se_previous_entry_hash first_entry)
    !? (λ error, AuditReportCliError_FetchFailed (LedgerError_to_string error)).

Definition signature_failed (summary : AuditReportSummary) (checked : nat) (code occurred_at : str) (sequence_no : Z) :
    SignatureVerificationSummary * AuditReportSummary :=
  (mk_SignatureVerificationSummary (Z.of_nat checked)
     (Some (code +:+ " at sequence " +:+ int_to_string sequence_no)) false,
   push_failure summary (signature_failure_item code occurred_at (Some sequence_no))).

(** What the exported rows show: a verdict, and the summary with the failure found. *)
Definition report_rows_verdict (summary : AuditReportSummary) (sequence_start : Z)
    (rows : list LedgerVerificationMaterialRow) :
    result AuditReportCliError (SignatureVerificationSummary * AuditReportSummary) :=
  if bool_decide (rows = [])
  then Ok (signature_failed summary 0 "ledger_export_empty" (as_period_end summary) sequence_start) else
  match restore_report_rows rows [] [] with
  | Err failure =>
      let '(code, sequence_no) := map_ledger_error_to_code_and_sequence (rf_error failure)
        (Some (LedgerSequenceNo_get (row_sequence_no (rf_row failure)))) in
      Ok (signature_failed summary (rf_checked failure) code (row_source_event_at (rf_row failure)) sequence_no)
  | Ok (entries, verification_keys) =>
      initial_head ← initial_head_for_report_range sequence_start entries;
      match verify_ledger_chain entries initial_head verification_keys with
      | Ok _ => Ok (mk_SignatureVerificationSummary (Z.of_nat (length entries)) None true, summary)
      | Err error =>
          let '(code, sequence_no) := map_ledger_error_to_code_and_sequence error None in
          let occurred_at :=
            match find (λ entry, se_sequence_no entry =? sequence_no) entries with
            | Some entry => SourceEventAt_as_str (cf_source_event_at (se_fields entry))
            | None => as_period_end summary
            end in
          Ok (signature_failed summary (length entries) code occurred_at sequence_no)
      end
  end.

Definition verify_signatures_for_summary {DS : DigestService} (summary : AuditReportSummary) :
    io World AuditReportCliError (SignatureVerificationSummary * AuditReportSummary) :=
  match as_sequence_start summary, as_sequence_end summary with
  | Some sequence_start, Some sequence_end =>
      start ← lift (LedgerSequenceNo_new sequence_start
        !? (λ error, AuditReportCliError_FetchFailed (LedgerError_to_string error)));
      end_ ← lift (LedgerSequenceNo_new sequence_end
        !? (λ error, AuditReportCliError_FetchFailed (LedgerError_to_string error)));
      rows ← export_ledger_verification_materials start end_
        !?? (λ error, AuditReportCliError_FetchFailed (SupabaseRpcError_to_string error));
      lift (report_rows_verdict summary sequence_start rows)
  | _, _ => mret (mk_SignatureVerificationSummary 0 (Some "no ledger entries in period"%string) true, summary)
  end.

(** ** The command *)

Context {F : FileSystem} {SM : SerdeMembers} {A : AuditEventAppender} {RS : AuditReportService} {DS : DigestService}.

(** What of [AppConfig] the command uses. *)
Record AuditReportConfig := mk_AuditReportConfig {
  rc_http_client : result str unit;
  rc_audit_fallback_path : str;
  rc_audit_fallback_archive_dir : str;
  rc_audit_fallback_rotate_size_bytes : Z;
}.
Implicit Types (config : AuditReportConfig).

Definition report_audit_recorder config : LocalAuditFallbackStore :=
  LocalAuditFallbackStore_with_rollover_config (rc_audit_fallback_path config) (rc_audit_fallback_archive_dir config)
    (rc_audit_fallback_rotate_size_bytes config).

Definition report_metadata_builder (request : AuditReportRequest) (source_event_at : SourceEventAt)
    (error_code : option str) : AuditReportGenerateMetadata :=
  let builder := AuditReportGenerateMetadata_new (AuditReportFormat_as_str (rq_format request))
    (rq_period_start request) (rq_period_end request) source_event_at in
  match error_code with
  | Some error_code => AuditReportGenerateMetadata_with_error_code builder error_code
  | None => builder
  end.
Definition record_audit_report_generation (store : LocalAuditFallbackStore) (request_id : RequestId)
    (request : AuditReportRequest) (source_event_at : SourceEventAt) (res : AuditResult) (error_code : option str) :
    io World AuditReportCliError AuditRecordOutcome :=
  metadata ← lift (AuditReportGenerateMetadata_build (report_metadata_builder request source_event_at error_code)
    !? (λ error, AuditReportCliError_Config (AuditEventError_to_string error)));
  audit_event_id ← AuditEventId_generate !?? (λ error, AuditReportCliError_Config (AuditEventError_to_string error));
  event ← lift (AuditEvent_new (mk_AuditEventParts audit_event_id request_id None None
      AuditAction_AuditReportGenerate None res None metadata)
    !? (λ error, AuditReportCliError_Config (AuditEventError_to_string error)));
  record store event !?? AuditReportCliError_AuditRecordFailed.

(** A failed step is recorded before its error is returned. *)
Definition audited_step {E B} (store : LocalAuditFallbackStore) (request_id : RequestId) (request : AuditReportRequest)
    (source_event_at : SourceEventAt) (error_code : str) (into_error : E → AuditReportCliError) (step : io World E B) :
    io World AuditReportCliError B :=
  io_match step (λ outcome,
    match outcome with
    | Ok value => mret value
    | Err error =>
        _ ← record_audit_report_generation store request_id request source_event_at AuditResult_Failure (Some error_code);
        lift (Err (into_error error))
    end).

Definition render (format : AuditReportFormat) (report : AuditReportJson) : result AuditReportCliError str :=
  match format with
  | AuditReportFormat_Json => render_json report
  | AuditReportFormat_Markdown => Ok (render_markdown report)
  end.

Definition audit_report_run_cli config (args : list str) : io World AuditReportCliError str :=
  request ← lift (audit_report_request args);
  _ ← lift (rc_http_client config !? AuditReportCliError_Config);
  let audit_recorder := report_audit_recorder config in
  request_id ← RequestId_generate !?? (λ error, AuditReportCliError_Config (AuditEventError_to_string error));
  source_event_at ← SourceEventAt_now_utc !?? (λ error, AuditReportCliError_Config (AadError_to_string error));
  summary ← audited_step audit_recorder request_id request source_event_at "audit_report_fetch_failed"
    (λ error, AuditReportCliError_FetchFailed (SupabaseRpcError_to_string error))
    (fetch_audit_report_summary (SourceEventAt_as_str (rq_period_start request))
      (SourceEventAt_as_str (rq_period_end request)));
  '(signature_verification, summary) ← audited_step audit_recorder request_id request source_event_at
    "audit_report_signature_verification_failed" (λ error, error) (verify_signatures_for_summary summary);
  let report := build_report summary signature_verification in
  output ← lift (render (rq_format request) report);
  _ ← record_audit_report_generation audit_recorder request_id request source_event_at AuditResult_Success None;
  mret output.
End report.

(** ** Lemmas *)

Section report_lemmas.
Context {P : Platform}.

(** The one loop over the rows is the two passes the other commands make. *)
Lemma restore_report_rows_Ok rows entries0 keys0 entries keys :
  restore_report_rows rows entries0 keys0 = Ok (entries, keys) ↔
  ∃ entries1, entries = entries0 ++ entries1
    ∧ try_map try_restore_signed_ledger_entry rows = Ok entries1
    ∧ collect_verification_keys keys0 rows = Ok keys.
Proof.
  revert entries0 keys0. induction rows as [|row rows IH]; intros entries0 keys0; cbn [restore_report_rows try_map collect_verification_keys].
  { split; [intros [= <- <-]; exists []; by rewrite app_nil_r|]. intros (es & -> & [= <-] & [= <-]). by rewrite app_nil_r. }
  destruct (try_restore_signed_ledger_entry row) as [entry|]; [|split; [done|by intros (? & _ & ? & _)]].
  destruct (try_restore_verifying_key row) as [maybe_key|];
    [|split; [done|]; intros (? & _ & _ & ?); done].
  cbn [map_err mbind result_bind]. rewrite IH.
  assert (∀ K, (∃ entries1, entries = (entries0 ++ [entry]) ++ entries1
      ∧ try_map try_restore_signed_ledger_entry rows = Ok entries1 ∧ collect_verification_keys K rows = Ok keys)
    ↔ ∃ entries1, entries = entries0 ++ entries1
      ∧ (ys ← try_map try_restore_signed_ledger_entry rows; Ok (entry :: ys)) = Ok entries1
      ∧ collect_verification_keys K rows = Ok keys) as Hsame.
  { intros K. split.
    - intros (es & -> & Hes & HK). exists (entry :: es). rewrite Hes -app_assoc. done.
    - intros (es & -> & Hes & HK). apply result_bind_Ok in Hes as (ys & Hys & [= <-]). exists ys. by rewrite -app_assoc. }
  destruct maybe_key as [key|]; [|apply Hsame]. destruct (existsb _ _); cbn [negb]; apply Hsame.
Qed.

(** The head a range is verified from. *)
Definition range_head (sequence_start : Z) (first : SignedLedgerEntry) : LedgerChainHead :=
  if sequence_start =? 1 then LedgerChainHead_genesis
  else mk_LedgerChainHead (sequence_start - 1) (se_previous_entry_hash first).

Lemma initial_head_for_report_range_Ok n first entries head :
  initial_head_for_report_range n (first :: entries) = Ok head → head = range_head n first.
Proof.
  unfold initial_head_for_report_range, range_head. destruct (n =? 1); [by intros [= <-]|]. cbn.
  intros H%map_err_Ok. by apply LedgerChainHead_new_Ok in H as [-> _].
Qed.

(** What a range has to be for its signatures to be reported as valid. *)
Definition range_verifies (sequence_start : Z) (rows : list LedgerVerificationMaterialRow) (entries : list SignedLedgerEntry) : Prop :=
  ∃ keys first rest final, entries = first :: rest
    ∧ try_map try_restore_signed_ledger_entry rows = Ok entries
    ∧ collect_verification_keys [] rows = Ok keys
    ∧ Chain keys (range_head sequence_start first) entries final
    ∧ last_sequence_no final ≤ LEDGER_I64_MAX_U64.

Lemma signature_failed_invalid summary k c o n : sv_valid (signature_failed summary k c o n).1 = false.
Proof. done. Qed.

Lemma report_rows_verdict_Ok summary n rows sv summary' :
  report_rows_verdict summary n rows = Ok (sv, summary') →
  (sv_valid sv = true ∧ summary' = summary ∧ ∃ entries, range_verifies n rows entries
     ∧ sv = mk_SignatureVerificationSummary (Z.of_nat (length rows)) None true)
  ∨ (sv_valid sv = false ∧ (∀ entries, ¬ range_verifies n rows entries)
     ∧ ∃ code at_ k, summary' = push_failure summary (signature_failure_item code at_ (Some k))
       ∧ sv_detail sv = Some (code +:+ " at sequence " +:+ int_to_string k)).
Proof.
  unfold report_rows_verdict. case_bool_decide as Hr.
  { intros [= <- <-]. right. split_and!; [done| |by do 3 eexists]. subst.
    intros es (ks & f & r & fin & -> & [=] & _). }
  destruct (restore_report_rows rows [] []) as [[entries keys]|failure] eqn:Hrest.
  2:{ destruct (map_ledger_error_to_code_and_sequence _ _) as [code k]. intros [= <- <-]. right.
      split_and!; [done| |by do 3 eexists]. intros es (ks & f & r & fin & -> & Hes & Hks & _).
      assert (restore_report_rows rows [] [] = Ok (f :: r, ks)) as Hok by (apply restore_report_rows_Ok; by exists (f :: r)).
      by rewrite Hrest in Hok. }
  pose proof Hrest as (es & -> & Hes & Hks)%restore_report_rows_Ok. cbn [app] in *.
  pose proof (Forall2_length _ _ _ (proj1 (try_map_Ok _ _ _) Hes)) as Hlen.
  destruct es as [|first rest]; [by destruct rows|].
  intros (head & ->%initial_head_for_report_range_Ok & H)%result_bind_Ok.
  destruct (verify_ledger_chain _ _ _) as [final|error] eqn:Hv.
  - injection H as <- <-. left. split_and!; [done..|]. exists (first :: rest). split; [|by rewrite Hlen].
    apply verify_ledger_chain_from_Ok in Hv as [? ?]. exists keys, first, rest, final. destruct (range_head n first). done.
  - destruct (map_ledger_error_to_code_and_sequence _ _) as [code k]. injection H as <- <-. right.
    split_and!; [done| |by do 3 eexists]. intros es (ks & f & r & fin & -> & Hes' & Hks' & Hc & Hl).
    rewrite Hes in Hes'. rewrite Hks in Hks'. simplify_eq.
    assert (verify_ledger_chain (f :: r) (range_head n f) ks = Ok fin) as Hok;
      [|by rewrite Hok in Hv].
    apply verify_ledger_chain_from_Ok. by destruct (range_head n f).
Qed.
End report_lemmas.

(** ** Properties *)

Section report_theorems.
Context {P : Platform} {F : FileSystem} {SM : SerdeMembers} {A : AuditEventAppender}.
Context {RS : AuditReportService} {DS : DigestService}.
Implicit Types (config : AuditReportConfig).

(** The report's verdict on the signatures is the chain's: for a summary that names a
    range of the ledger it is valid exactly when the database exported something that
    restores and is a signed chain from the head before the range, and then nothing of
    the summary changes; otherwise one failure, of the signatures, is added to those
    the database found, and the same code and sequence number are in the detail. *)
Theorem report_signature_verdict summary w sv summary' w' n m :
  as_sequence_start summary = Some n → as_sequence_end summary = Some m →
  verify_signatures_for_summary summary w = (Ok (sv, summary'), w') →
  ∃ start stop rows, LedgerSequenceNo_new n = Ok start ∧ LedgerSequenceNo_new m = Ok stop
    ∧ export_ledger_verification_materials start stop w = (Ok rows, w')
    ∧ (sv_valid sv = true ↔ ∃ entries, range_verifies n rows entries)
    ∧ (sv_valid sv = true → summary' = summary ∧ sv_checked_count sv = Z.of_nat (length rows))
    ∧ (sv_valid sv = false → ∃ code at_ k,
        summary' = push_failure summary (signature_failure_item code at_ (Some k))
        ∧ sv_detail sv = Some (code +:+ " at sequence " +:+ int_to_string k)).
Proof.
  unfold verify_signatures_for_summary. intros -> -> H. inv_run.
  match goal with H : report_rows_verdict _ _ _ = _ |- _ => apply report_rows_verdict_Ok in H as
    [(Hv & -> & es & Hr & ->)|(Hv & Hno & Hitem)] end;
  do 3 eexists; (split_and!; [done..| | |]); rewrite ?Hv; try done.
  - split; [|done]. by eauto.
  - split; [done|]. intros [es Hr]. by apply Hno in Hr.
Qed.

(** What the event of a report says. *)
Definition report_event config (request : AuditReportRequest) (res : AuditResult) (w w' : World) : Prop :=
  ∃ id rid t code metadata outcome,
    AuditReportGenerateMetadata_build (report_metadata_builder request t code) = Ok metadata
    ∧ record (report_audit_recorder config) (mk_AuditEvent (mk_AuditEventParts id rid None None
        AuditAction_AuditReportGenerate None res None metadata)) w = (Ok outcome, w').

Lemma record_audit_report_generation_Ok config rid request t res code w outcome w' :
  record_audit_report_generation (report_audit_recorder config) rid request t res code w = (Ok outcome, w') →
  ∃ w1, report_event config request res w1 w'.
Proof.
  unfold record_audit_report_generation. intros H. inv_run.
  match goal with H : AuditEvent_new _ = _ |- _ => apply AuditEvent_new_Ok in H as [-> _] end.
  eexists _, _, rid, t, code, _, outcome. split; [done|]. eassumption.
Qed.

Lemma audited_step_Ok {E B} store rid request t code into_error (step : io World E B) w b w' :
  audited_step store rid request t code into_error step w = (Ok b, w') → step w = (Ok b, w').
Proof.
  unfold audited_step. intros (r & w1 & Hs & H)%io_match_run. destruct r; [by injection H as <- <-|].
  by apply io_bind_Ok in H as (? & ? & _ & [? _]%lift_Ok).
Qed.

(** An error of a step that is not one of recording has been recorded. *)
Lemma audited_step_Err {E B} config rid request t code into_error (step : io World E B) w e w' :
  audited_step (report_audit_recorder config) rid request t code into_error step w = (Err e, w') →
  (∃ w1, report_event config request AuditResult_Failure w1 w')
  ∨ (∃ w1, record_audit_report_generation (report_audit_recorder config) rid request t AuditResult_Failure (Some code) w1
      = (Err e, w')).
Proof.
  unfold audited_step. intros (r & w1 & Hs & H)%io_match_run. destruct r; [done|].
  apply io_bind_Err in H as [H|(outcome & w2 & H & [= _ <-])]; [by eauto|].
  left. by eapply record_audit_report_generation_Ok.
Qed.

Lemma recording_is_no_fetch config rid request t res code w m w' :
  record_audit_report_generation (report_audit_recorder config) rid request t res code w
    ≠ (Err (AuditReportCliError_FetchFailed m), w').
Proof.
  unfold record_audit_report_generation. intros H.
  repeat match goal with
  | H : mbind _ _ _ = (Err _, _) |- _ => apply io_bind_Err in H as [?|(? & ? & _ & ?)]
  | H : io_map_err _ ?m _ = (Err _, _) |- _ => unfold io_map_err in H; destruct (m _) as [[] ?]; simplify_eq/=
  | H : lift _ _ = (Err _, _) |- _ => unfold lift in H; injection H as H _
  | H : map_err _ ?r = Err _ |- _ => destruct r; simplify_eq/=
  end.
Qed.

(** Nothing is printed that is not on record: a report was requested with a period and a
    form, holds what the database answered for this period together with the verdict on
    its signatures, and is printed after the event of its making was accepted by the
    audit log or its fallback. *)
Theorem printed_report_is_recorded config args w output w' :
  audit_report_run_cli config args w = (Ok output, w') →
  ∃ request summary sv summary' w1 w2 w3 w4,
    audit_report_request args = Ok request
    ∧ fetch_audit_report_summary (SourceEventAt_as_str (rq_period_start request))
        (SourceEventAt_as_str (rq_period_end request)) w1 = (Ok summary, w2)
    ∧ verify_signatures_for_summary summary w2 = (Ok (sv, summary'), w3)
    ∧ render (rq_format request) (build_report summary' sv) = Ok output
    ∧ report_event config request AuditResult_Success w4 w'.
Proof.
  unfold audit_report_run_cli. intros H.
  apply io_bind_Ok in H as (request & ? & [Hreq ->]%lift_Ok & H).
  apply io_bind_Ok in H as (? & ? & [_ ->]%lift_Ok & H).
  apply io_bind_Ok in H as (rid & ? & _ & H). apply io_bind_Ok in H as (t & ? & _ & H).
  apply io_bind_Ok in H as (summary & ? & Hf%audited_step_Ok & H).
  apply io_bind_Ok in H as ([sv summary'] & ? & Hv%audited_step_Ok & H). cbn zeta in H.
  apply io_bind_Ok in H as (out & ? & [Hr ->]%lift_Ok & H).
  apply io_bind_Ok in H as (outcome & ? & [w4 Hrec]%record_audit_report_generation_Ok & [= <- <-]).
  do 8 eexists. split_and!; done.
Qed.

(** The arguments are refused as arguments. *)
Lemma parse_report_args_Err l a e :
  parse_report_args l a = Err e → e = AuditReportCliError_Usage audit_report_usage.
Proof.
  remember (length l) as n eqn:Hn. revert l a Hn. induction n as [n IH] using lt_wf_ind. intros l a ->.
  destruct l as [|arg [|value l]]; cbn [parse_report_args]; repeat case_match; try done; try (by intros [= <-]);
    intros Hp; (eapply IH; [|reflexivity|exact Hp]); cbn; lia.
Qed.
Lemma audit_report_request_Err args e :
  audit_report_request args = Err e → ∃ message, e = AuditReportCliError_Usage message.
Proof.
  unfold audit_report_request. intros H.
  repeat match goal with
  | H : mbind _ _ = Err _ |- _ => apply result_bind_Err in H as [H|(? & _ & H)]
  | H : (if ?b then _ else _) = Err _ |- _ => destruct b
  | H : ok_or ?o _ = Err _ |- _ => destruct o; simplify_eq/=
  | H : map_err _ ?r = Err _ |- _ => destruct r; simplify_eq/=
  | H : parse_report_args _ _ = Err _ |- _ => apply parse_report_args_Err in H
  end; unfold report_usage_error in *; simplify_eq/=; eauto.
Qed.

(** A report that could not be fetched or verified has left an event of its failure. *)
Theorem failed_report_is_recorded config args w message w' :
  audit_report_run_cli config args w = (Err (AuditReportCliError_FetchFailed message), w') →
  ∃ request w1, audit_report_request args = Ok request ∧ report_event config request AuditResult_Failure w1 w'.
Proof.
  unfold audit_report_run_cli. intros H.
  apply io_bind_Err in H as [[= H _]|(request & ? & [Hreq ->]%lift_Ok & H)];
    [by apply audit_report_request_Err in H as [? [=]]|]. exists request.
  assert (∀ E B (m : io World E B) f u v, (m !?? f) u = (Err (AuditReportCliError_FetchFailed message), v) →
    (∀ e, ∃ c, f e = AuditReportCliError_Config c) → False) as Hconfig.
  { intros E B m f u v Hm Hf. unfold io_map_err in Hm. destruct (m u) as [[b|e] ?]; [done|].
    destruct (Hf e) as [c Hc]. cbn in Hm. by rewrite Hc in Hm. }
  apply io_bind_Err in H as [H|(? & ? & [_ ->]%lift_Ok & H)]; [by destruct (rc_http_client config)|].
  apply io_bind_Err in H as [H|(rid & ? & _ & H)]; [by eapply Hconfig in H; eauto|].
  apply io_bind_Err in H as [H|(t & ? & _ & H)]; [by eapply Hconfig in H; eauto|].
  apply io_bind_Err in H as [H|(summary & ? & _ & H)];
    [by apply audited_step_Err in H as [[w1 ?]|[w1 H]]; [eauto|by apply recording_is_no_fetch in H]|].
  apply io_bind_Err in H as [H|([sv summary'] & ? & _ & H)];
    [by apply audited_step_Err in H as [[w1 ?]|[w1 H]]; [eauto|by apply recording_is_no_fetch in H]|].
  apply io_bind_Err in H as [[= H _]|(out & ? & _ & H)].
  { unfold render, render_json in H. destruct (rq_format request); [|done]. by destruct (serde_to_string _). }
  apply io_bind_Err in H as [H|(? & ? & _ & [=])]. by apply recording_is_no_fetch in H.
Qed.
End report_theorems.
