(* ===== verification/AuditUi.v ===== *)
(** * The auditors' read endpoints ([src/server/handlers/audit_ui.rs],
    [src/server/supabase/audit_ui_rpc.rs])

    Nine endpoints under [/audit/v1] show auditors the inventory of secrets, audit
    events, ledger entries and the outcome of verifications.  Each checks the role,
    parses its query, reads, records the read and answers; [AuditUiRequest] and [serve]
    are the router.  [tokio::task::spawn_blocking] only moves a pure computation to
    another thread: it is that computation. *)

From S2P Require Import Prelude RustStd Json Platform Reference Errors Types Aad Crypto Authorization SecretStore AuditTypes LedgerTypes LedgerPayload LedgerEntry LedgerChain LedgerRpc LedgerAppender ApiError Digest DigestUseCases Files AuditEvent AuditBuilders Incident KeyRotation AuditFallback App ExportUseCase Siem AuditReporter UseCases AliasUseCases Handlers Auditor DigestCommand AuditReport.

Definition DEFAULT_LIMIT : Z := 100.
Definition MAX_LIMIT : Z := 500.

(** ** Rows and parameters of the database ([audit_ui_rpc.rs]) *)

Record AuditUiSecretInventoryRow := mk_AuditUiSecretInventoryRow {
  ur_secret_id : str;
  ur_owner_user_id : str;
  ur_classification : str;
  ur_current_version_id : option str;
  ur_secret_created_at : str;
  ur_secret_updated_at : str;
}.
Record AuditUiAuditEventRow := mk_AuditUiAuditEventRow {
  ue_audit_event_id : str;
  ue_request_id : str;
  ue_actor_user_id : option str;
  ue_actor_device_id : option str;
  ue_action : str;
  ue_target_secret_id : option str;
  ue_result : str;
  ue_key_version : option Z;
  ue_metadata_json : Value;
  ue_occurred_at : str;
}.
Record AuditUiLedgerEntryRow := mk_AuditUiLedgerEntryRow {
  ul_ledger_entry_id : str;
  ul_sequence_no : Z;
  ul_entry_type : str;
  ul_source_event_at : str;
  ul_request_id : str;
  ul_source_event_id : option str;
  ul_target_secret_id : option str;
  ul_target_secret_version_id : option str;
  ul_actor_user_id : option str;
  ul_actor_device_id : option str;
  ul_result : str;
  ul_error_code : option str;
  ul_payload : Value;
  ul_canonicalization_version : Z;
  ul_previous_entry_hash : str;
  ul_entry_hash : str;
  ul_hash_algorithm : str;
  ul_signature : str;
  ul_signature_algorithm : str;
  ul_signature_key_version : Z;
  ul_created_at : str;
}.
Record AuditUiIntegrityStatusRow := mk_AuditUiIntegrityStatusRow {
  us_chain_id : str;
  us_last_sequence_no : Z;
  us_last_entry_hash : str;
  us_chain_state_updated_at : str;
}.
Record AuditUiVerificationFailureRow := mk_AuditUiVerificationFailureRow {
  uf_code : str;
  uf_occurred_at : str;
  uf_sequence_no : option Z;
  uf_source : str;
}.
Record AuditUiHashChainVerification := mk_AuditUiHashChainVerification {
  uv_chain_valid : bool;
  uv_entries_checked : Z;
  uv_first_gap_sequence_no : option Z;
  uv_first_gap_detail : option str;
  uv_first_hash_mismatch_sequence_no : option Z;
  uv_first_hash_mismatch_detail : option str;
  uv_chain_head_sequence_no : option Z;
  uv_chain_head_entry_hash : option str;
}.
(** The row as it is decoded, with signed numbers. *)
Record AuditUiHashChainVerificationResponse := mk_AuditUiHashChainVerificationResponse {
  hr_chain_valid : bool;
  hr_entries_checked : Z;
  hr_first_gap_sequence_no : option Z;
  hr_first_gap_detail : option str;
  hr_first_hash_mismatch_sequence_no : option Z;
  hr_first_hash_mismatch_detail : option str;
  hr_chain_head_sequence_no : option Z;
  hr_chain_head_entry_hash : option str;
}.

Record PageRpcParams := mk_PageRpcParams { pp_p_limit : Z; pp_p_offset : Z }.
Record AuditUiAuditEventsParams := mk_AuditUiAuditEventsParams {
  ep_p_limit : Z;
  ep_p_offset : Z;
  ep_p_period_start : option str;
  ep_p_period_end : option str;
  ep_p_action : option str;
  ep_p_result : option str;
}.
Record AuditUiLedgerEntriesParams := mk_AuditUiLedgerEntriesParams {
  lp_p_limit : Z;
  lp_p_offset : Z;
  lp_p_start_sequence_no : option Z;
  lp_p_end_sequence_no : option Z;
  lp_p_entry_type : option str;
  lp_p_result : option str;
}.
Record AuditUiVerificationFailuresParams := mk_AuditUiVerificationFailuresParams {
  fp_p_limit : Z;
  fp_p_offset : Z;
  fp_p_period_start : str;
  fp_p_period_end : str;
}.
Record AuditUiHashChainParams := mk_AuditUiHashChainParams {
  hp_p_start_sequence_no : option Z;
  hp_p_end_sequence_no : option Z;
}.

(** [value.map(f).transpose()]. *)
Definition try_option {E A B} (f : A → result E B) (value : option A) : result E (option B) :=
  match value with Some a => Some <$> f a | None => Ok None end.

Definition sequence_to_i64 (value : option LedgerSequenceNo) : result SupabaseRpcError (option Z) :=
  try_option (λ sequence, LedgerSequenceNo_as_i64 sequence
    !? (λ _, SupabaseRpcError_InvalidResponse "sequence_no is outside i64 range")) value.
Definition i64_to_u64 (value : Z) (field : str) : result SupabaseRpcError Z :=
  ok_or (u_try_from u64_max value) (SupabaseRpcError_InvalidResponse (field +:+ " returned a negative value")).
Definition optional_i64_to_u64 (value : option Z) (field : str) : result SupabaseRpcError (option Z) :=
  try_option (λ inner, i64_to_u64 inner field) value.
Definition strip_bytea_prefix (value : str) : str := default value (strip_prefix "\x" value).

Definition AuditUiHashChainParams_new (start_sequence_no end_sequence_no : option LedgerSequenceNo) :
    result SupabaseRpcError AuditUiHashChainParams :=
  start ← sequence_to_i64 start_sequence_no;
  end_ ← sequence_to_i64 end_sequence_no;
  Ok (mk_AuditUiHashChainParams start end_).

Definition AuditUiHashChainVerification_try_from (row : AuditUiHashChainVerificationResponse) :
    result SupabaseRpcError AuditUiHashChainVerification :=
  entries_checked ← i64_to_u64 (hr_entries_checked row) "entries_checked";
  first_gap_sequence_no ← optional_i64_to_u64 (hr_first_gap_sequence_no row) "first_gap_sequence_no";
  first_hash_mismatch_sequence_no ←
    optional_i64_to_u64 (hr_first_hash_mismatch_sequence_no row) "first_hash_mismatch_sequence_no";
  chain_head_sequence_no ← optional_i64_to_u64 (hr_chain_head_sequence_no row) "chain_head_sequence_no";
  Ok (mk_AuditUiHashChainVerification (hr_chain_valid row) entries_checked first_gap_sequence_no
    (hr_first_gap_detail row) first_hash_mismatch_sequence_no (hr_first_hash_mismatch_detail row)
    chain_head_sequence_no (strip_bytea_prefix <$> hr_chain_head_entry_hash row)).

(** The calls of the database, with their decoded rows. *)
Class AuditUiService {P : Platform} := {
  fetch_audit_ui_secret_inventory_rpc : PageRpcParams → io World SupabaseRpcError (list AuditUiSecretInventoryRow);
  fetch_audit_ui_audit_events : AuditUiAuditEventsParams → io World SupabaseRpcError (list AuditUiAuditEventRow);
  fetch_audit_ui_ledger_entries : AuditUiLedgerEntriesParams → io World SupabaseRpcError (list AuditUiLedgerEntryRow);
  fetch_audit_ui_integrity_status : io World SupabaseRpcError (list AuditUiIntegrityStatusRow);
  fetch_audit_ui_verification_failures :
    AuditUiVerificationFailuresParams → io World SupabaseRpcError (list AuditUiVerificationFailureRow);
  verify_ledger_hash_chain_rpc :
    AuditUiHashChainParams → io World SupabaseRpcError (list AuditUiHashChainVerificationResponse);
}.

Definition fetch_audit_ui_secret_inventory {P : Platform} {UI : AuditUiService} (limit offset : Z) :
    io World SupabaseRpcError (list AuditUiSecretInventoryRow) :=
  fetch_audit_ui_secret_inventory_rpc (mk_PageRpcParams limit offset).
Definition verify_audit_ui_ledger_hash_chain {P : Platform} {UI : AuditUiService}
    (start_sequence_no end_sequence_no : option LedgerSequenceNo) : io World SupabaseRpcError AuditUiHashChainVerification :=
  params ← lift (AuditUiHashChainParams_new start_sequence_no end_sequence_no);
  rows ← verify_ledger_hash_chain_rpc params;
  row ← lift (ok_or (head rows) SupabaseRpcError_EmptyResult);
  lift (AuditUiHashChainVerification_try_from row).

(** ** Queries and their parsing *)

Record PageQuery := mk_PageQuery { pq_limit : option Z; pq_offset : option Z }.
Record AuditEventsQuery := mk_AuditEventsQuery {
  eq_limit : option Z;
  eq_offset : option Z;
  eq_period_start : option str;
  eq_period_end : option str;
  eq_action : option str;
  eq_result : option str;
}.
Record LedgerEntriesQuery := mk_LedgerEntriesQuery {
  leq_limit : option Z;
  leq_offset : option Z;
  leq_start_sequence_no : option Z;
  leq_end_sequence_no : option Z;
  leq_entry_type : option str;
  leq_result : option str;
}.
Record SequenceRangeQuery := mk_SequenceRangeQuery {
  sq_start_sequence_no : option Z;
  sq_end_sequence_no : option Z;
}.
Record MonthlyDigestQuery := mk_MonthlyDigestQuery { mq_year_month : str }.
Record PeriodPageQuery := mk_PeriodPageQuery {
  ppq_period_start : str;
  ppq_period_end : str;
  ppq_limit : option Z;
  ppq_offset : option Z;
}.
Record PeriodQuery := mk_PeriodQuery { peq_period_start : str; peq_period_end : str }.

Record PageResponse (T : Type) := mk_PageResponse {
  pg_items : list T;
  pg_limit : Z;
  pg_offset : Z;
  pg_has_more : bool;
}.
Arguments mk_PageResponse {T} _ _ _ _.
Arguments pg_items {T} _.
Arguments pg_limit {T} _.
Arguments pg_offset {T} _.
Arguments pg_has_more {T} _.
Record Page := mk_Page { page_limit : Z; page_offset : Z }.

Definition parse_page (limit offset : option Z) : result ApiError Page :=
  let limit := default DEFAULT_LIMIT limit in
  let offset := default 0 offset in
  if (limit =? 0) || (MAX_LIMIT <? limit) then Err (ApiError_BadRequest "invalid limit")
  else Ok (mk_Page limit offset).
(** [saturating_add(1)] on [u32]. *)
Definition rpc_limit (page : Page) : Z := Z.min (page_limit page + 1) u32_max.
Definition page_response {T} (rows : list T) (page : Page) : PageResponse T :=
  let has_more := page_limit page <? Z.of_nat (length rows) in
  let rows := if has_more then take (Z.to_nat (page_limit page)) rows else rows in
  mk_PageResponse rows (page_limit page) (page_offset page) has_more.

Definition validate_optional_audit_action (value : option str) : result ApiError unit :=
  match value with
  | Some value => _ ← AuditAction_parse value !? (λ _, ApiError_BadRequest "invalid action"); Ok tt
  | None => Ok tt
  end.
Definition validate_optional_result (value : option str) : result ApiError unit :=
  match value with
  | Some value =>
      if negb (str_in value ["success"; "failure"]%string) then Err (ApiError_BadRequest "invalid result") else Ok tt
  | None => Ok tt
  end.

Definition parse_optional_sequence_range (start_sequence_no end_sequence_no : option Z) :
    result ApiError (option (LedgerSequenceNo * LedgerSequenceNo)) :=
  match start_sequence_no, end_sequence_no with
  | Some start, Some end_ =>
      start ← LedgerSequenceNo_new start !? (λ _, ApiError_BadRequest "invalid start_sequence_no");
      end_ ← LedgerSequenceNo_new end_ !? (λ _, ApiError_BadRequest "invalid end_sequence_no");
      if LedgerSequenceNo_get end_ <? LedgerSequenceNo_get start
      then Err (ApiError_BadRequest "start_sequence_no must be <= end_sequence_no")
      else Ok (Some (start, end_))
  | None, None => Ok None
  | _, _ => Err (ApiError_BadRequest "start_sequence_no and end_sequence_no must be provided together")
  end.

(** ** What is taken out of an answer *)

Fixpoint contains_forbidden_key (forbidden_keys : list str) (value : Value) : bool :=
  match value with
  | JObject object =>
      (fix any object := match object with
        | [] => false
        | (key, nested) :: object =>
            (let normalized := to_ascii_lowercase (trim key) in
             existsb (λ forbidden, String.eqb normalized forbidden) forbidden_keys
             || contains_forbidden_key forbidden_keys nested) || any object
        end) object
  | JArray values =>
      (fix any values := match values with
        | [] => false
        | nested :: values => contains_forbidden_key forbidden_keys nested || any values
        end) values
  | JNull | JBool _ | JNumber _ | JString _ => false
  end.

Definition redacted : Value := JObject [("redacted"%string, JBool true)].
Definition sanitize_audit_metadata (value : Value) : Value :=
  if contains_forbidden_key FORBIDDEN_AUDIT_METADATA_KEYS value then redacted else value.
Definition sanitize_ledger_payload (value : Value) : Value :=
  if ledger_payload_contains_forbidden_key value then redacted else value.
(** [row.metadata_json = ..] and [row.payload = ..]. *)
Definition sanitize_event_row (row : AuditUiAuditEventRow) : AuditUiAuditEventRow :=
  mk_AuditUiAuditEventRow (ue_audit_event_id row) (ue_request_id row) (ue_actor_user_id row) (ue_actor_device_id row)
    (ue_action row) (ue_target_secret_id row) (ue_result row) (ue_key_version row)
    (sanitize_audit_metadata (ue_metadata_json row)) (ue_occurred_at row).
Definition sanitize_ledger_row (row : AuditUiLedgerEntryRow) : AuditUiLedgerEntryRow :=
  mk_AuditUiLedgerEntryRow (ul_ledger_entry_id row) (ul_sequence_no row) (ul_entry_type row) (ul_source_event_at row)
    (ul_request_id row) (ul_source_event_id row) (ul_target_secret_id row) (ul_target_secret_version_id row)
    (ul_actor_user_id row) (ul_actor_device_id row) (ul_result row) (ul_error_code row)
    (sanitize_ledger_payload (ul_payload row)) (ul_canonicalization_version row) (ul_previous_entry_hash row)
    (ul_entry_hash row) (ul_hash_algorithm row) (ul_signature row) (ul_signature_algorithm row)
    (ul_signature_key_version row) (ul_created_at row).

Section audit_ui.
Context {P : Platform}.

Definition parse_required_period (period_start period_end : str) : result ApiError (SourceEventAt * SourceEventAt) :=
  start ← SourceEventAt_parse period_start !? (λ _, ApiError_BadRequest "invalid period_start");
  end_ ← SourceEventAt_parse period_end !? (λ _, ApiError_BadRequest "invalid period_end");
  if str_ge (SourceEventAt_as_str start) (SourceEventAt_as_str end_)
  then Err (ApiError_BadRequest "period_start must be before period_end") else
  Ok (start, end_).
Definition parse_optional_period (period_start period_end : option str) :
    result ApiError (option (SourceEventAt * SourceEventAt)) :=
  match period_start, period_end with
  | Some start, Some end_ => Some <$> parse_required_period start end_
  | None, None => Ok None
  | _, _ => Err (ApiError_BadRequest "period_start and period_end must be provided together")
  end.

(** ** Verification of signatures *)

Record SignatureVerificationResponse := mk_SignatureVerificationResponse {
  vs_valid : bool;
  vs_checked_count : Z;
  vs_start_sequence_no : option Z;
  vs_end_sequence_no : option Z;
  vs_error_code : option str;
}.

Definition signature_failure (start end_ : LedgerSequenceNo) (checked_count : nat) (error_code : str) :
    SignatureVerificationResponse :=
  mk_SignatureVerificationResponse false (Z.of_nat checked_count) (Some (LedgerSequenceNo_get start))
    (Some (LedgerSequenceNo_get end_)) (Some error_code).
Definition ledger_error_code (error : LedgerError) : str :=
  match error with
  | LedgerError_SequenceGap _ _ => "ledger_sequence_gap"
  | LedgerError_PreviousHashMismatch _ => "ledger_previous_hash_mismatch"
  | LedgerError_HashMismatch _ => "ledger_entry_hash_mismatch"
  | LedgerError_UnknownSignatureKey _ _ => "ledger_signature_key_missing"
  | LedgerError_SignatureInvalid _ => "ledger_signature_invalid"
  | LedgerError_SequenceOverflow => "ledger_sequence_overflow"
  | _ => "ledger_signature_verification_failed"
  end.

Definition initial_chain_head (start : LedgerSequenceNo) (rows : list LedgerVerificationMaterialRow) :
    result LedgerError LedgerChainHead :=
  if LedgerSequenceNo_get start =? 1 then Ok LedgerChainHead_genesis else
  first_previous_hash ← ok_or (row_previous_entry_hash <$> head rows) (LedgerError_InvalidPositiveInteger "sequence_no");
  LedgerChainHead_new (LedgerSequenceNo_get start - 1) first_previous_hash.

(** The key an entry needs when none of its version is known yet. *)
Definition needed_key (verification_keys : list LedgerVerifyingKey) (entry : SignedLedgerEntry)
    (row : LedgerVerificationMaterialRow) : result str (list LedgerVerifyingKey) :=
  if existsb (λ key, bool_decide (vk_key_version key = se_signature_key_version entry)) verification_keys
  then Ok verification_keys
  else match try_restore_verifying_key row with
  | Ok (Some key) => Ok (verification_keys ++ [key])
  | Ok None => Err "ledger_signature_key_missing"%string
  | Err _ => Err "ledger_key_restore_failed"%string
  end.
(** The loop over the rows; a failure carries the number of entries before it. *)
Fixpoint restore_signature_rows (rows : list LedgerVerificationMaterialRow) (entries : list SignedLedgerEntry)
    (verification_keys : list LedgerVerifyingKey) :
    result (nat * str) (list SignedLedgerEntry * list LedgerVerifyingKey) :=
  match rows with
  | [] => Ok (entries, verification_keys)
  | row :: rows =>
      if ledger_payload_contains_forbidden_key (row_payload row)
      then Err (length entries, "ledger_payload_forbidden_key"%string) else
      entry ← try_restore_signed_ledger_entry row !? (λ _, (length entries, "ledger_entry_restore_failed"%string));
      verification_keys ← needed_key verification_keys entry row !? (λ code, (length entries, code));
      restore_signature_rows rows (entries ++ [entry]) verification_keys
  end.
Definition verify_signature_material_rows (start end_ : LedgerSequenceNo)
    (rows : list LedgerVerificationMaterialRow) : SignatureVerificationResponse :=
  match restore_signature_rows rows [] [] with
  | Err (checked, code) => signature_failure start end_ checked code
  | Ok (entries, verification_keys) =>
      match initial_chain_head start rows with
      | Err _ => signature_failure start end_ (length entries) "ledger_chain_head_build_failed"
      | Ok initial_head =>
          match verify_ledger_chain entries initial_head verification_keys with
          | Ok _ =>
              mk_SignatureVerificationResponse true (Z.of_nat (length entries)) (Some (LedgerSequenceNo_get start))
                (Some (LedgerSequenceNo_get end_)) None
          | Err error => signature_failure start end_ (length entries) (ledger_error_code error)
          end
      end
  end.

Definition nothing_to_verify : SignatureVerificationResponse := mk_SignatureVerificationResponse true 0 None None None.
Definition verify_signature_range {DS : DigestService} (start end_ : option LedgerSequenceNo) :
    io World SupabaseRpcError SignatureVerificationResponse :=
  match start, end_ with
  | Some start, Some end_ =>
      rows ← export_ledger_verification_materials start end_;
      mret (match rows with
            | [] => signature_failure start end_ 0 "ledger_range_empty"
            | _ => verify_signature_material_rows start end_ rows
            end)
  | _, _ => mret nothing_to_verify
  end.

Definition resolve_signature_range {Svc : LedgerService} (query : SequenceRangeQuery) :
    io World ApiError (option LedgerSequenceNo * option LedgerSequenceNo) :=
  range ← lift (parse_optional_sequence_range (sq_start_sequence_no query) (sq_end_sequence_no query));
  match range with
  | Some (start, end_) => mret (Some start, Some end_)
  | None =>
      chain_head ← fetch_ledger_chain_head !?? ApiError_from_SupabaseRpcError;
      if last_sequence_no chain_head =? 0 then mret (None, None) else
      start ← lift (LedgerSequenceNo_new 1 !? (λ _, ApiError_InternalInvariantViolation "invalid sequence start"));
      end_ ← lift (LedgerSequenceNo_new (last_sequence_no chain_head)
        !? (λ _, ApiError_InternalInvariantViolation "invalid chain head sequence"));
      mret (Some start, Some end_)
  end.

(** ** The record of a read *)

Record AuditUiReadAuditInput := mk_AuditUiReadAuditInput {
  ui_endpoint : str;
  ui_resource : str;
  ui_result_count : option Z;
  ui_period : option (SourceEventAt * SourceEventAt);
  ui_sequence_range : option (Z * Z);
  ui_target_year_month : option MonthlyDigestPeriod;
  ui_error_code : option str;
}.
Definition AuditUiReadAuditInput_new (endpoint resource : str) : AuditUiReadAuditInput :=
  mk_AuditUiReadAuditInput endpoint resource None None None None None.
Definition audit_with_result_count (i : AuditUiReadAuditInput) (result_count : Z) : AuditUiReadAuditInput :=
  mk_AuditUiReadAuditInput (ui_endpoint i) (ui_resource i) (Some result_count) (ui_period i) (ui_sequence_range i)
    (ui_target_year_month i) (ui_error_code i).
Definition audit_with_period (i : AuditUiReadAuditInput) (period_start period_end : SourceEventAt) : AuditUiReadAuditInput :=
  mk_AuditUiReadAuditInput (ui_endpoint i) (ui_resource i) (ui_result_count i) (Some (period_start, period_end))
    (ui_sequence_range i) (ui_target_year_month i) (ui_error_code i).
Definition audit_with_sequence_range (i : AuditUiReadAuditInput) (start_sequence_no end_sequence_no : Z) :
    AuditUiReadAuditInput :=
  mk_AuditUiReadAuditInput (ui_endpoint i) (ui_resource i) (ui_result_count i) (ui_period i)
    (Some (start_sequence_no, end_sequence_no)) (ui_target_year_month i) (ui_error_code i).
Definition audit_with_target_year_month (i : AuditUiReadAuditInput) (target_year_month : MonthlyDigestPeriod) :
    AuditUiReadAuditInput :=
  mk_AuditUiReadAuditInput (ui_endpoint i) (ui_resource i) (ui_result_count i) (ui_period i) (ui_sequence_range i)
    (Some target_year_month) (ui_error_code i).
Definition audit_with_error_code (i : AuditUiReadAuditInput) (error_code : str) : AuditUiReadAuditInput :=
  mk_AuditUiReadAuditInput (ui_endpoint i) (ui_resource i) (ui_result_count i) (ui_period i) (ui_sequence_range i)
    (ui_target_year_month i) (Some error_code).

(** The builder, given what the input has. *)
Definition read_metadata_builder (input : AuditUiReadAuditInput) (source_event_at : SourceEventAt) : AuditUiReadMetadata :=
  let b := AuditUiReadMetadata_new (ui_endpoint input) (ui_resource input) source_event_at in
  let b := match ui_result_count input with
    | Some result_count => AuditUiReadMetadata_with_result_count b result_count | None => b end in
  let b := match ui_period input with
    | Some (period_start, period_end) => AuditUiReadMetadata_with_period b period_start period_end | None => b end in
  let b := match ui_sequence_range input with
    | Some (start, end_) => AuditUiReadMetadata_with_sequence_range b start end_ | None => b end in
  let b := match ui_target_year_month input with
    | Some target => AuditUiReadMetadata_with_target_year_month b target | None => b end in
  match ui_error_code input with
  | Some error_code => AuditUiReadMetadata_with_error_code b error_code | None => b end.

Context {F : FileSystem} {SM : SerdeMembers} {A : AuditEventAppender}.

Definition record_audit_ui_read (store : LocalAuditFallbackStore) (request_id : RequestId) (actor_user_id : OwnerUserId)
    (res : AuditResult) (input : AuditUiReadAuditInput) : io World ApiError AuditRecordOutcome :=
  source_event_at ← SourceEventAt_now_utc !?? (λ error, ApiError_InternalError (AadError_to_string error));
  metadata ← lift (AuditUiReadMetadata_build (read_metadata_builder input source_event_at)
    !? (λ error, ApiError_InternalError (AuditEventError_to_string error)));
  audit_event_id ← AuditEventId_generate !?? (λ error, ApiError_InternalError (AuditEventError_to_string error));
  event ← lift (AuditEvent_new (mk_AuditEventParts audit_event_id request_id (Some actor_user_id) None
      AuditAction_AuditUiRead None res None metadata)
    !? (λ error, ApiError_InternalError (AuditEventError_to_string error)));
  record store event !?? (λ _, ApiError_AuditRecordFailed).
Definition record_audit_ui_success (store : LocalAuditFallbackStore) (request_id : RequestId)
    (actor_user_id : OwnerUserId) (input : AuditUiReadAuditInput) : io World ApiError unit :=
  _ ← record_audit_ui_read store request_id actor_user_id AuditResult_Success input; mret tt.
Definition record_audit_ui_failure {E} (store : LocalAuditFallbackStore) (request_id : RequestId)
    (actor_user_id : OwnerUserId) (input : AuditUiReadAuditInput) : io World E unit :=
  logged (record_audit_ui_read store request_id actor_user_id AuditResult_Failure input).

Definition ensure_auditor (store : LocalAuditFallbackStore) (request_id : RequestId) (claims : VerifiedJwtClaims)
    (audit : AuditUiReadAuditInput) : io World RequestAwareApiError unit :=
  match authorize_audit_ui_read claims with
  | Err _ =>
      _ ← record_audit_ui_failure store request_id (claims_subject_user_id claims)
        (audit_with_error_code audit "auditor_role_required");
      lift (Err (with_request_id request_id (ApiError_Forbidden "forbidden")))
  | Ok _ => mret tt
  end.
Definition upstream_failure {B} (store : LocalAuditFallbackStore) (request_id : RequestId) (claims : VerifiedJwtClaims)
    (audit : AuditUiReadAuditInput) (error : SupabaseRpcError) : io World RequestAwareApiError B :=
  _ ← record_audit_ui_failure store request_id (claims_subject_user_id claims)
    (audit_with_error_code audit "upstream_dependency_failed");
  lift (Err (with_request_id request_id (ApiError_from_SupabaseRpcError error))).

(** [match call.await { Ok(value) => value, Err(error) => return Err(upstream_failure(..).await) }]. *)
Definition or_upstream_failure {B} (store : LocalAuditFallbackStore) (request_id : RequestId) (claims : VerifiedJwtClaims)
    (audit : AuditUiReadAuditInput) (call : io World SupabaseRpcError B) : io World RequestAwareApiError B :=
  io_match call (λ answer,
    match answer with
    | Ok value => mret value
    | Err error => upstream_failure store request_id claims audit error
    end).

(** ** The endpoints *)

Context {Svc : LedgerService} {DS : DigestService} {RS : AuditReportService} {UI : AuditUiService}.

Record MonthlyDigestVerificationResponse := mk_MonthlyDigestVerificationResponse {
  dr_valid : bool;
  dr_target_year_month : str;
  dr_start_sequence_no : option Z;
  dr_end_sequence_no : option Z;
  dr_entry_count : option Z;
  dr_error_code : option str;
}.
Record SummaryResponse := mk_SummaryResponse {
  sm_summary : AuditReportSummary;
  sm_signature_verification : SignatureVerificationResponse;
}.

Context (store : LocalAuditFallbackStore) (request_id : RequestId) (claims : VerifiedJwtClaims).

Local Notation check r := (lift (r !? with_request_id request_id)).

(** [record_audit_ui_success(..).await.map_err(..)?; Ok(Json(response))]. *)
Definition answer_recorded {B} (audit : AuditUiReadAuditInput) (response : B) : io World RequestAwareApiError B :=
  _ ← record_audit_ui_success store request_id (claims_subject_user_id claims) audit !?? with_request_id request_id;
  mret response.
(** The same for a page, whose items are counted. *)
Definition answer_page {B} (audit : AuditUiReadAuditInput) (response : PageResponse B) :
    io World RequestAwareApiError (PageResponse B) :=
  answer_recorded (audit_with_result_count audit (Z.of_nat (length (pg_items response)))) response.

Definition list_secrets (query : PageQuery) : io World RequestAwareApiError (PageResponse AuditUiSecretInventoryRow) :=
  let audit := AuditUiReadAuditInput_new "/audit/v1/secrets" "secrets" in
  _ ← ensure_auditor store request_id claims audit;
  page ← check (parse_page (pq_limit query) (pq_offset query));
  rows ← or_upstream_failure store request_id claims audit
    (fetch_audit_ui_secret_inventory (rpc_limit page) (page_offset page));
  answer_page audit (page_response rows page).

Definition list_audit_events (query : AuditEventsQuery) :
    io World RequestAwareApiError (PageResponse AuditUiAuditEventRow) :=
  let audit := AuditUiReadAuditInput_new "/audit/v1/audit-events" "audit_events" in
  _ ← ensure_auditor store request_id claims audit;
  page ← check (parse_page (eq_limit query) (eq_offset query));
  period ← check (parse_optional_period (eq_period_start query) (eq_period_end query));
  let audit := match period with Some (start, end_) => audit_with_period audit start end_ | None => audit end in
  _ ← check (validate_optional_audit_action (eq_action query));
  _ ← check (validate_optional_result (eq_result query));
  let params := mk_AuditUiAuditEventsParams (rpc_limit page) (page_offset page)
    ((λ p, SourceEventAt_as_str p.1) <$> period) ((λ p, SourceEventAt_as_str p.2) <$> period)
    (eq_action query) (eq_result query) in
  rows ← or_upstream_failure store request_id claims audit (fetch_audit_ui_audit_events params);
  answer_page audit (page_response (sanitize_event_row <$> rows) page).

Definition list_ledger_entries (query : LedgerEntriesQuery) :
    io World RequestAwareApiError (PageResponse AuditUiLedgerEntryRow) :=
  let audit := AuditUiReadAuditInput_new "/audit/v1/ledger-entries" "ledger_entries" in
  _ ← ensure_auditor store request_id claims audit;
  page ← check (parse_page (leq_limit query) (leq_offset query));
  range ← check (parse_optional_sequence_range (leq_start_sequence_no query) (leq_end_sequence_no query));
  let audit := match range with
    | Some (start, end_) => audit_with_sequence_range audit (LedgerSequenceNo_get start) (LedgerSequenceNo_get end_)
    | None => audit
    end in
  _ ← check (validate_optional_result (leq_result query));
  start ← check (try_option (λ r, LedgerSequenceNo_as_i64 r.1) range
    !? (λ _, ApiError_BadRequest "invalid sequence range"));
  end_ ← check (try_option (λ r, LedgerSequenceNo_as_i64 r.2) range
    !? (λ _, ApiError_BadRequest "invalid sequence range"));
  let params := mk_AuditUiLedgerEntriesParams (rpc_limit page) (page_offset page) start end_
    (leq_entry_type query) (leq_result query) in
  rows ← or_upstream_failure store request_id claims audit (fetch_audit_ui_ledger_entries params);
  answer_page audit (page_response (sanitize_ledger_row <$> rows) page).

Definition integrity_status : io World RequestAwareApiError (list AuditUiIntegrityStatusRow) :=
  let audit := AuditUiReadAuditInput_new "/audit/v1/integrity-status" "integrity_status" in
  _ ← ensure_auditor store request_id claims audit;
  rows ← or_upstream_failure store request_id claims audit fetch_audit_ui_integrity_status;
  answer_recorded (audit_with_result_count audit (Z.of_nat (length rows))) rows.

Definition verify_hash_chain (query : SequenceRangeQuery) : io World RequestAwareApiError AuditUiHashChainVerification :=
  let audit := AuditUiReadAuditInput_new "/audit/v1/verification/hash-chain" "hash_chain" in
  _ ← ensure_auditor store request_id claims audit;
  range ← check (parse_optional_sequence_range (sq_start_sequence_no query) (sq_end_sequence_no query));
  let audit := match range with
    | Some (start, end_) => audit_with_sequence_range audit (LedgerSequenceNo_get start) (LedgerSequenceNo_get end_)
    | None => audit
    end in
  response ← or_upstream_failure store request_id claims audit
    (verify_audit_ui_ledger_hash_chain (fst <$> range) (snd <$> range));
  answer_recorded (audit_with_result_count audit (uv_entries_checked response)) response.

Definition verify_signatures (query : SequenceRangeQuery) : io World RequestAwareApiError SignatureVerificationResponse :=
  let audit := AuditUiReadAuditInput_new "/audit/v1/verification/signatures" "signatures" in
  _ ← ensure_auditor store request_id claims audit;
  '(start, end_) ← resolve_signature_range query !?? with_request_id request_id;
  let audit := match start, end_ with
    | Some start, Some end_ =>
        audit_with_sequence_range audit (LedgerSequenceNo_get start) (LedgerSequenceNo_get end_)
    | _, _ => audit
    end in
  response ← or_upstream_failure store request_id claims audit (verify_signature_range start end_);
  answer_recorded (audit_with_result_count audit (vs_checked_count response)) response.

Definition verify_monthly_digest_endpoint (query : MonthlyDigestQuery) :
    io World RequestAwareApiError MonthlyDigestVerificationResponse :=
  period ← check (MonthlyDigestPeriod_parse (mq_year_month query) !? (λ _, ApiError_BadRequest "invalid year_month"));
  let audit := audit_with_target_year_month
    (AuditUiReadAuditInput_new "/audit/v1/verification/monthly-digest" "monthly_digest") period in
  _ ← ensure_auditor store request_id claims audit;
  verified_at ← SourceEventAt_now_utc
    !?? (λ error, with_request_id request_id (ApiError_InternalError (AadError_to_string error)));
  response ← io_match (verify_monthly_digest period) (λ verified,
    match verified with
    | Ok info =>
        mret (mk_MonthlyDigestVerificationResponse true (MonthlyDigestPeriod_as_str period)
          (Some (LedgerSequenceNo_get (vi_start_sequence_no info)))
          (Some (LedgerSequenceNo_get (vi_end_sequence_no info))) (Some (vi_entry_count info)) None)
    | Err error =>
        _ ← record_monthly_digest_verify_failure_audit store request_id period error verified_at;
        mret (mk_MonthlyDigestVerificationResponse false (MonthlyDigestPeriod_as_str period) None None None
          (Some (VerifyMonthlyDigestError_as_error_code error)))
    end);
  answer_recorded audit response.

Definition list_verification_failures (query : PeriodPageQuery) :
    io World RequestAwareApiError (PageResponse AuditUiVerificationFailureRow) :=
  page ← check (parse_page (ppq_limit query) (ppq_offset query));
  '(period_start, period_end) ← check (parse_required_period (ppq_period_start query) (ppq_period_end query));
  let audit := audit_with_period
    (AuditUiReadAuditInput_new "/audit/v1/verification/failures" "verification_failures") period_start period_end in
  _ ← ensure_auditor store request_id claims audit;
  rows ← or_upstream_failure store request_id claims audit (fetch_audit_ui_verification_failures
    (mk_AuditUiVerificationFailuresParams (rpc_limit page) (page_offset page) (SourceEventAt_as_str period_start)
      (SourceEventAt_as_str period_end)));
  answer_page audit (page_response rows page).

Definition summary_sequence_no (value : Z) (message : str) : result RequestAwareApiError LedgerSequenceNo :=
  LedgerSequenceNo_new value !? (λ _, with_request_id request_id (ApiError_InternalInvariantViolation message)).
Definition verification_summary (query : PeriodQuery) : io World RequestAwareApiError SummaryResponse :=
  '(period_start, period_end) ← check (parse_required_period (peq_period_start query) (peq_period_end query));
  let audit := audit_with_period (AuditUiReadAuditInput_new "/audit/v1/verification/summary" "summary")
    period_start period_end in
  _ ← ensure_auditor store request_id claims audit;
  summary ← or_upstream_failure store request_id claims audit
    (fetch_audit_report_summary (SourceEventAt_as_str period_start) (SourceEventAt_as_str period_end));
  signature_verification ←
    match as_sequence_start summary, as_sequence_end summary with
    | Some start, Some end_ =>
        start ← lift (summary_sequence_no start "audit summary returned invalid sequence_start");
        end_ ← lift (summary_sequence_no end_ "audit summary returned invalid sequence_end");
        or_upstream_failure store request_id claims audit (verify_signature_range (Some start) (Some end_))
    | _, _ => mret nothing_to_verify
    end;
  answer_recorded audit (mk_SummaryResponse summary signature_verification).

(** ** The router ([build_audit_read_router]) *)

Inductive AuditUiRequest :=
| Get_secrets (query : PageQuery)
| Get_audit_events (query : AuditEventsQuery)
| Get_ledger_entries (query : LedgerEntriesQuery)
| Get_integrity_status
| Get_hash_chain (query : SequenceRangeQuery)
| Get_signatures (query : SequenceRangeQuery)
| Get_monthly_digest (query : MonthlyDigestQuery)
| Get_failures (query : PeriodPageQuery)
| Get_summary (query : PeriodQuery).
Inductive AuditUiAnswer :=
| Secrets (page : PageResponse AuditUiSecretInventoryRow)
| AuditEvents (page : PageResponse AuditUiAuditEventRow)
| LedgerEntries (page : PageResponse AuditUiLedgerEntryRow)
| IntegrityStatus (rows : list AuditUiIntegrityStatusRow)
| HashChain (response : AuditUiHashChainVerification)
| Signatures (response : SignatureVerificationResponse)
| MonthlyDigest (response : MonthlyDigestVerificationResponse)
| Failures (page : PageResponse AuditUiVerificationFailureRow)
| Summary (response : SummaryResponse).

Definition answered {B} (wrap : B → AuditUiAnswer) (m : io World RequestAwareApiError B) :
    io World RequestAwareApiError AuditUiAnswer :=
  b ← m; mret (wrap b).
Definition serve (request : AuditUiRequest) : io World RequestAwareApiError AuditUiAnswer :=
  match request with
  | Get_secrets query => answered Secrets (list_secrets query)
  | Get_audit_events query => answered AuditEvents (list_audit_events query)
  | Get_ledger_entries query => answered LedgerEntries (list_ledger_entries query)
  | Get_integrity_status => answered IntegrityStatus integrity_status
  | Get_hash_chain query => answered HashChain (verify_hash_chain query)
  | Get_signatures query => answered Signatures (verify_signatures query)
  | Get_monthly_digest query => answered MonthlyDigest (verify_monthly_digest_endpoint query)
  | Get_failures query => answered Failures (list_verification_failures query)
  | Get_summary query => answered Summary (verification_summary query)
  end.
End audit_ui.

(** ** Lemmas *)

Section audit_ui_lemmas.
Context {P : Platform}.

(** The search finds a forbidden key wherever it is. *)
Lemma contains_forbidden_key_spec keys v :
  contains_forbidden_key keys v = true ↔
  ∃ k, key_occurs k v ∧ to_ascii_lowercase (trim k) ∈ keys.
Proof.
  induction v as [| | | |l IH|m IH] using Value_ind'; try (split; [done|]; intros (k & Hk & _); by inversion Hk).
  - induction IH as [|v l Hv _ IHl]; cbn in *.
    { split; [done|]. intros (k & Hk & _). inversion Hk; set_solver. }
    rewrite orb_true_iff Hv IHl. pose proof (λ k, key_occurs_array (λ _, true) (λ _, tt) k v l). naive_solver.
  - induction IH as [|[k v] l Hv _ IHl]; cbn in *.
    { split; [done|]. intros (k & Hk & _). inversion Hk; set_solver. }
    rewrite !orb_true_iff Hv IHl existsb_exists. setoid_rewrite String.eqb_eq. setoid_rewrite <- list_elem_of_In.
    pose proof (λ k', key_occurs_object (λ _, true) (λ _, tt) k' k v l). naive_solver.
Qed.

Lemma redacted_key k : key_occurs k redacted → k = "redacted"%string.
Proof. intros H. apply (key_occurs_object (λ _, true) (λ _, tt)) in H as [->|[H|H]]; [done|inversion H|inversion H; set_solver]. Qed.

Lemma sanitize_audit_metadata_clean v k :
  key_occurs k (sanitize_audit_metadata v) → is_forbidden_metadata_key k = false.
Proof.
  unfold sanitize_audit_metadata. destruct (contains_forbidden_key _ v) eqn:Hc.
  { by intros ->%redacted_key. }
  intros Hk. apply not_true_iff_false in Hc. rewrite contains_forbidden_key_spec in Hc.
  unfold is_forbidden_metadata_key, str_in. apply bool_decide_eq_false. naive_solver.
Qed.
Lemma sanitize_ledger_payload_clean v k :
  key_occurs k (sanitize_ledger_payload v) → is_forbidden_payload_key k = false.
Proof.
  unfold sanitize_ledger_payload. destruct (ledger_payload_contains_forbidden_key v) eqn:Hc.
  { by intros ->%redacted_key. }
  rewrite search_rejects negb_false_iff bool_decide_eq_true in Hc. intros Hk.
  pose proof (reject_keys_spec is_forbidden_payload_key LedgerError_ForbiddenPayloadKey v) as Hv.
  unfold reject_forbidden_payload_keys in Hc. rewrite Hc in Hv. by apply Hv.
Qed.

(** ** The rows of a signed range *)

Lemma restored_entry_version row e :
  try_restore_signed_ledger_entry row = Ok e → se_signature_key_version e = row_signature_key_version row.
Proof.
  unfold try_restore_signed_ledger_entry, SignedLedgerEntry_from_stored_parts. intros H. inv_ok. repeat case_if; inv_ok; done.
Qed.
Lemma restored_key_version row k :
  try_restore_verifying_key row = Ok (Some k) → vk_key_version k = row_signature_key_version row.
Proof.
  unfold try_restore_verifying_key. intros H. repeat case_match; simplify_eq/=; try done.
  do 2 (apply result_bind_Ok in H as (? & _ & H)). do 2 (case_if; [done|]).
  apply result_bind_Ok in H as (v & _ & H). case_if; [done|]. b2p. unfold LedgerVerifyingKey_from_public_key_bytes in *.
  inv_ok. case_if; [done|]. by inv_ok.
Qed.

Lemma restore_signature_rows_app rows1 rows2 entries keys :
  restore_signature_rows (rows1 ++ rows2) entries keys
  = ('(entries1, keys1) ← restore_signature_rows rows1 entries keys; restore_signature_rows rows2 entries1 keys1).
Proof.
  revert entries keys. induction rows1 as [|row rows1 IH]; intros entries keys; [done|]. cbn [app restore_signature_rows].
  destruct (ledger_payload_contains_forbidden_key _); [done|].
  destruct (try_restore_signed_ledger_entry row) as [e|]; [|done]. cbn [map_err mbind result_bind].
  destruct (needed_key _ _ _); [apply IH|done].
Qed.

(** A key of its version is there for every entry. *)
Definition has_key (keys : list LedgerVerifyingKey) (e : SignedLedgerEntry) : Prop :=
  ∃ k, k ∈ keys ∧ vk_key_version k = se_signature_key_version e.

Lemma needed_key_Ok keys e row keys' :
  try_restore_signed_ledger_entry row = Ok e →
  needed_key keys e row = Ok keys' → keys `prefix_of` keys' ∧ has_key keys' e.
Proof.
  unfold needed_key. intros He. destruct (existsb _ keys) eqn:Hx.
  - intros [= <-]. split; [done|]. apply existsb_exists in Hx as (k & Hk%list_elem_of_In & Hv). b2p. by exists k.
  - destruct (try_restore_verifying_key row) as [[k|]|] eqn:Hk; [|done..]. intros [= <-].
    split; [by exists [k]|]. exists k. split; [set_solver|].
    by rewrite (restored_key_version _ _ Hk) (restored_entry_version _ _ He).
Qed.

Lemma restore_signature_rows_Ok rows entries0 keys0 entries keys :
  restore_signature_rows rows entries0 keys0 = Ok (entries, keys) →
  Forall (has_key keys0) entries0 →
  keys0 `prefix_of` keys ∧ Forall (has_key keys) entries
  ∧ Forall (λ row, ledger_payload_contains_forbidden_key (row_payload row) = false) rows
  ∧ ∃ entries1, entries = entries0 ++ entries1 ∧ try_map try_restore_signed_ledger_entry rows = Ok entries1.
Proof.
  revert entries0 keys0. induction rows as [|row rows IH]; intros entries0 keys0; cbn [restore_signature_rows try_map].
  { intros [= <- <-] H. split_and!; [done..|constructor|]. exists []. by rewrite app_nil_r. }
  destruct (ledger_payload_contains_forbidden_key _) eqn:Hp; [done|]. intros H Hall.
  apply result_bind_Ok in H as (e & He%map_err_Ok & H). apply result_bind_Ok in H as (keys1 & Hk%map_err_Ok & H).
  pose proof (needed_key_Ok _ _ _ _ He Hk) as [Hpre Hhas].
  assert (∀ e', has_key keys0 e' → has_key keys1 e') as Hmono.
  { intros e' (k & Hin & Hv). exists k. split; [|done]. destruct Hpre as [l ->]. set_solver. }
  apply IH in H as (Hpre' & Hent & Hclean & es & -> & Hes).
  2:{ apply Forall_app. split; [|by constructor]. by eapply Forall_impl. }
  split_and!; [by etrans|done|by constructor|]. exists (e :: es). rewrite He Hes -app_assoc. done.
Qed.

Lemma list_find_first_app {B} (f : B → bool) l k :
  List.find f (l ++ k) = match List.find f l with Some x => Some x | None => List.find f k end.
Proof. induction l as [|x l IH]; [done|]. cbn. by destruct (f x). Qed.

(** Entries whose keys are there verify without the keys added later. *)
Lemma Chain_fewer_keys keys1 keys2 head entries final :
  keys1 `prefix_of` keys2 → Forall (has_key keys1) entries → Chain keys2 head entries final → Chain keys1 head entries final.
Proof.
  intros [l ->] Hhas Hc. induction Hc as [|head e entries key final Hs Hm Hp Hh Hkey Hsig Hc IH]; [constructor|].
  apply Forall_cons in Hhas as [(k & Hin & Hv) Hhas]. eapply Chain_cons; eauto.
  apply (find_verification_key_Ok _ _ 0). apply (find_verification_key_Ok _ _ 0) in Hkey.
  unfold find_verification_key_with_seq in *. rewrite ok_or_Ok in Hkey. rewrite list_find_first_app in Hkey.
  destruct (List.find _ keys1) as [k'|] eqn:Hf; [by injection Hkey as ->|].
  apply list_elem_of_In in Hin. pose proof (find_none _ _ Hf _ Hin) as Hn. by apply bool_decide_eq_false in Hn.
Qed.
End audit_ui_lemmas.
(** ** Properties *)

Section audit_ui_theorems.
Context {P : Platform} {F : FileSystem} {SM : SerdeMembers} {A : AuditEventAppender}.
Context {Svc : LedgerService} {DS : DigestService} {RS : AuditReportService} {UI : AuditUiService}.

Lemma ensure_auditor_run store rid claims audit w :
  ensure_auditor store rid claims audit w =
  if has_mipsorcu_role claims AUDITOR_ROLE then (Ok tt, w)
  else (Err (mk_RequestAwareApiError (ApiError_Forbidden "forbidden") rid),
        (record_audit_ui_read store rid (claims_subject_user_id claims) AuditResult_Failure
           (audit_with_error_code audit "auditor_role_required") w).2).
Proof.
  unfold ensure_auditor, authorize_audit_ui_read. destruct (has_mipsorcu_role _ _); [done|]. cbn [negb].
  unfold record_audit_ui_failure, mbind, io_bind. by rewrite logged_run.
Qed.

(** The three endpoints that look at the query before the caller. *)
Definition parses_first (request : AuditUiRequest) : bool :=
  match request with Get_monthly_digest _ | Get_failures _ | Get_summary _ => true | _ => false end.

(** C6. A caller without the auditor's role gets nothing from any of the nine endpoints: the
    answer is 403, and all that happened is that the attempt was given to the audit log
    as a failed read.  Three endpoints parse the query first, and a bad query of such a
    caller is answered 400 without a record. *)
Theorem audit_reads_need_the_role store rid claims request w r w' :
  has_mipsorcu_role claims AUDITOR_ROLE = false →
  serve store rid claims request w = (r, w') →
  (∃ audit, r = Err (mk_RequestAwareApiError (ApiError_Forbidden "forbidden") rid)
    ∧ w' = (record_audit_ui_read store rid (claims_subject_user_id claims) AuditResult_Failure
              (audit_with_error_code audit "auditor_role_required") w).2)
  ∨ (∃ message, parses_first request = true
      ∧ r = Err (mk_RequestAwareApiError (ApiError_BadRequest message) rid) ∧ w' = w).
Proof.
  intros Hrole. destruct request; cbn [serve parses_first];
    unfold answered, list_secrets, list_audit_events, list_ledger_entries, integrity_status, verify_hash_chain,
      verify_signatures; cbn zeta.
  1-6: unfold mbind, io_bind; rewrite ensure_auditor_run Hrole; intros [= <- <-]; left; eauto.
  - unfold verify_monthly_digest_endpoint, mbind, io_bind, lift.
    destruct (MonthlyDigestPeriod_parse _) as [period|]; cbn; [rewrite ensure_auditor_run Hrole|];
      intros [= <- <-]; [left|right]; eauto.
  - unfold list_verification_failures, mbind, io_bind, lift, parse_page.
    destruct (_ || _); cbn; [intros [= <- <-]; right; eauto|]. unfold parse_required_period.
    destruct (SourceEventAt_parse (ppq_period_start query)); cbn; [|intros [= <- <-]; right; eauto].
    destruct (SourceEventAt_parse (ppq_period_end query)); cbn; [|intros [= <- <-]; right; eauto].
    destruct (str_ge _ _); cbn; [intros [= <- <-]; right; eauto|]. rewrite ensure_auditor_run Hrole.
    intros [= <- <-]; left; eauto.
  - unfold verification_summary, mbind, io_bind, lift, parse_required_period.
    destruct (SourceEventAt_parse (peq_period_start query)); cbn; [|intros [= <- <-]; right; eauto].
    destruct (SourceEventAt_parse (peq_period_end query)); cbn; [|intros [= <- <-]; right; eauto].
    destruct (str_ge _ _); cbn; [intros [= <- <-]; right; eauto|]. rewrite ensure_auditor_run Hrole.
    intros [= <- <-]; left; eauto.
Qed.

(** The record a read leaves. *)
Definition read_recorded store rid claims (w w' : World) : Prop :=
  ∃ input t id metadata outcome,
    AuditUiReadMetadata_build (read_metadata_builder input t) = Ok metadata
    ∧ record store (mk_AuditEvent (mk_AuditEventParts id rid (Some (claims_subject_user_id claims)) None
        AuditAction_AuditUiRead None AuditResult_Success None metadata)) w = (Ok outcome, w').

Lemma answer_recorded_Ok {B} store rid claims audit (response b : B) w w' :
  answer_recorded store rid claims audit response w = (Ok b, w') →
  b = response ∧ ∃ w1, read_recorded store rid claims w1 w'.
Proof.
  unfold answer_recorded, record_audit_ui_success, record_audit_ui_read. intros H. inv_run.
  match goal with H : AuditEvent_new _ = _ |- _ => apply AuditEvent_new_Ok in H as [-> _] end.
  split; [done|]. eexists. do 5 eexists. split; eassumption.
Qed.
Lemma ensure_auditor_Ok store rid claims audit w u w' :
  ensure_auditor store rid claims audit w = (Ok u, w') → has_mipsorcu_role claims AUDITOR_ROLE = true ∧ w' = w.
Proof. rewrite ensure_auditor_run. by destruct (has_mipsorcu_role _ _); intros [=]. Qed.
Lemma or_upstream_failure_Ok {B} store rid claims audit (call : io World SupabaseRpcError B) w b w' :
  or_upstream_failure store rid claims audit call w = (Ok b, w') → call w = (Ok b, w').
Proof.
  unfold or_upstream_failure, upstream_failure. intros (r & w1 & Hc & H)%io_match_run.
  destruct r; [by injection H as <- <-|]. by apply io_bind_Ok in H as (? & ? & _ & [? _]%lift_Ok).
Qed.

(** Whatever an endpoint answers, it answers to an auditor, and only after the read was
    recorded in the audit log or its fallback as a success of this caller: recording is
    the last thing that happens. *)
Theorem answered_audit_read_is_recorded store rid claims request w answer w' :
  serve store rid claims request w = (Ok answer, w') →
  has_mipsorcu_role claims AUDITOR_ROLE = true ∧ ∃ w1, read_recorded store rid claims w1 w'.
Proof.
  destruct request; cbn [serve]; unfold answered, list_secrets, list_audit_events, list_ledger_entries,
    integrity_status, verify_hash_chain, verify_signatures, verify_monthly_digest_endpoint,
    list_verification_failures, verification_summary, answer_page; cbn zeta; intros H;
    apply io_bind_Ok in H as (b & w9 & H & [= _ <-]);
    repeat match goal with
    | H : mbind _ _ _ = (Ok _, _) |- _ => apply io_bind_Ok in H as (? & ? & ? & H)
    | p : prod _ _ |- _ => destruct p
    | H : ensure_auditor _ _ _ _ _ = (Ok _, _) |- _ => apply ensure_auditor_Ok in H as [? ->]
    | H : answer_recorded _ _ _ _ _ _ = (Ok _, _) |- _ => apply answer_recorded_Ok in H as [_ ?]; by split
    end.
Qed.

(** C7. What the audit log and the ledger must not hold does not reach an auditor even when
    it is there: in every event and entry that is answered no key, at any depth, in any
    case and with any white space around it, is a forbidden one. *)
Theorem answered_rows_are_redacted store rid claims request w answer w' :
  serve store rid claims request w = (Ok answer, w') →
  match answer with
  | AuditEvents page => Forall (λ row, ∀ k,
      key_occurs k (ue_metadata_json row) → is_forbidden_metadata_key k = false) (pg_items page)
  | LedgerEntries page => Forall (λ row, ∀ k,
      key_occurs k (ul_payload row) → is_forbidden_payload_key k = false) (pg_items page)
  | _ => True
  end.
Proof.
  assert (∀ {T} (Q : T → Prop) rows page, Forall Q rows → Forall Q (pg_items (page_response rows page))) as Hpage.
  { intros T Q rows page HQ. unfold page_response. cbn. case_if; [by apply Forall_take|done]. }
  destruct request; cbn [serve]; unfold answered; intros H; apply io_bind_Ok in H as (b & w9 & H & [= <- _]); try done.
  - unfold list_audit_events, answer_page in H. cbn zeta in H.
    repeat match type of H with mbind _ _ _ = _ => apply io_bind_Ok in H as (? & ? & _ & H) end. apply answer_recorded_Ok in H as [-> _].
    apply Hpage, Forall_fmap, Forall_true. intros row k. apply sanitize_audit_metadata_clean.
  - unfold list_ledger_entries, answer_page in H. cbn zeta in H.
    repeat match type of H with mbind _ _ _ = _ => apply io_bind_Ok in H as (? & ? & _ & H) end. apply answer_recorded_Ok in H as [-> _].
    apply Hpage, Forall_fmap, Forall_true. intros row k. apply sanitize_ledger_payload_clean.
Qed.

(** A page is a window on what the database has.  A limit that is accepted is between 1
    and 500 and asks the database for one row more; given that many rows from the offset
    on, the page holds as many rows as the limit allows, and says that there is more
    exactly when a row follows the window. *)
Theorem pages_are_windows {T} limit offset page (all : list T) :
  (∀ z, limit = Some z → is_u32 z) → (∀ z, offset = Some z → is_u32 z) →
  parse_page limit offset = Ok page →
  let window := drop (Z.to_nat (page_offset page)) all in
  let response := page_response (take (Z.to_nat (rpc_limit page)) window) page in
  1 ≤ page_limit page ≤ 500 ∧ rpc_limit page = page_limit page + 1
  ∧ pg_items response = take (Z.to_nat (page_limit page)) window
  ∧ (pg_has_more response = true ↔ page_offset page + page_limit page < Z.of_nat (length all)).
Proof.
  unfold parse_page. intros Hl Ho H. case_if; [done|]. injection H as <-. cbn [page_limit page_offset]. b2p.
  assert (is_u32 (default DEFAULT_LIMIT limit)) as Hu by (destruct limit; [by apply Hl|done]).
  assert (is_u32 (default 0 offset)) as Hu' by (destruct offset; [by apply Ho|done]).
  set (n := default DEFAULT_LIMIT limit) in *. set (o := default 0 offset) in *. unfold is_u32, u32_max, MAX_LIMIT in *.
  assert (rpc_limit (mk_Page n o) = n + 1) as Hr by (unfold rpc_limit, u32_max; cbn [page_limit]; lia).
  rewrite Hr. unfold page_response. cbn [page_limit page_offset pg_items pg_has_more].
  rewrite length_take length_drop. split_and!; [lia..|done| |].
  - rewrite take_take. destruct (_ <? _) eqn:Hm; [f_equal; lia|]. b2p.
    rewrite !take_ge; [done|..]; rewrite length_drop; lia.
  - rewrite Z.ltb_lt. lia.
Qed.

(** ** The verdict on signatures *)

Lemma signature_rows_valid start end_ rows :
  vs_valid (verify_signature_material_rows start end_ rows) = true ↔
  ∃ entries keys head final, restore_signature_rows rows [] [] = Ok (entries, keys)
    ∧ initial_chain_head start rows = Ok head ∧ Chain keys head entries final
    ∧ last_sequence_no final ≤ LEDGER_I64_MAX_U64.
Proof.
  unfold verify_signature_material_rows. destruct (restore_signature_rows rows [] []) as [[entries keys]|[n c]].
  2:{ split; [done|]. naive_solver. }
  destruct (initial_chain_head start rows) as [head|]; [|split; [done|naive_solver]].
  destruct (verify_ledger_chain entries head keys) as [final|error] eqn:Hv.
  - split; [|done]. intros _. apply verify_ledger_chain_from_Ok in Hv as [? ?]. destruct head. eauto 10.
  - split; [done|]. intros (es & ks & h & final & [= <- <-] & [= <-] & Hc & Hl).
    assert (verify_ledger_chain entries head keys = Ok final) as Hok; [|by rewrite Hok in Hv].
    apply verify_ledger_chain_from_Ok. by destruct head.
Qed.

(** Signatures are reported as valid only for rows that hold no forbidden key, restore to
    entries, bring the key of each of them, and are a chain of signed entries from the
    head before the range; all of them were checked. *)
Theorem signature_verdict_is_sound start end_ rows :
  vs_valid (verify_signature_material_rows start end_ rows) = true →
  ∃ entries keys head final,
    Forall (λ row, reject_forbidden_payload_keys (row_payload row) = Ok tt) rows
    ∧ try_map try_restore_signed_ledger_entry rows = Ok entries
    ∧ Forall (has_key keys) entries
    ∧ initial_chain_head start rows = Ok head ∧ Chain keys head entries final
    ∧ vs_checked_count (verify_signature_material_rows start end_ rows) = Z.of_nat (length rows).
Proof.
  intros Hv. pose proof Hv as (entries & keys & head & final & Hr & Hh & Hc & Hl)%signature_rows_valid.
  exists entries, keys, head, final. pose proof Hr as Hr'.
  apply restore_signature_rows_Ok in Hr as (_ & Hkeys & Hclean & es & -> & Hes); [|constructor]. cbn [app] in *.
  split_and!; [|done..|].
  - eapply Forall_impl; [exact Hclean|]. intros row H. cbn in H.
    by rewrite search_rejects negb_false_iff bool_decide_eq_true in H.
  - revert Hv. unfold verify_signature_material_rows. rewrite Hr' Hh.
    destruct (verify_ledger_chain _ _ _); [|done]. intros _. cbn.
    by rewrite (Forall2_length _ _ _ (proj1 (try_map_Ok _ _ _) Hes)).
Qed.

(** C23. The end of the range is not checked: when the rows of a range are reported as valid,
    so is any shorter, non-empty export of it, with the same range in the answer.  Only
    the number of entries tells that the tail was withheld. *)
Theorem withheld_tail_is_not_noticed start end_ rows1 rows2 :
  rows1 ≠ [] → vs_valid (verify_signature_material_rows start end_ (rows1 ++ rows2)) = true →
  verify_signature_material_rows start end_ rows1
  = mk_SignatureVerificationResponse true (Z.of_nat (length rows1)) (Some (LedgerSequenceNo_get start))
      (Some (LedgerSequenceNo_get end_)) None.
Proof.
  intros Hne (entries & keys & head & final & Hr & Hh & Hc & Hl)%signature_rows_valid.
  rewrite restore_signature_rows_app in Hr. apply result_bind_Ok in Hr as ([es1 ks1] & Hr1 & Hr2).
  pose proof Hr1 as (_ & Hk1 & _ & es & -> & Hes)%restore_signature_rows_Ok; [|constructor]. cbn [app] in *.
  apply restore_signature_rows_Ok in Hr2 as (Hpre & _ & _ & es2 & -> & _); [|done].
  apply Chain_app in Hc as (mid & Hc1 & Hc2). pose proof (Chain_length _ _ _ _ Hc2) as Hlen.
  assert (initial_chain_head start rows1 = Ok head) as Hh1 by (by destruct rows1).
  apply (Chain_fewer_keys ks1) in Hc1; [|done..].
  assert (verify_ledger_chain es head ks1 = Ok mid) as Hv.
  { apply verify_ledger_chain_from_Ok. destruct head. split; [done|]. lia. }
  unfold verify_signature_material_rows. rewrite Hr1 Hh1 Hv.
  by rewrite (Forall2_length _ _ _ (proj1 (try_map_Ok _ _ _) Hes)).
Qed.

(** ** Periods *)

Lemma str_compare_app p s t : String.compare (p +:+ s) (p +:+ t) = String.compare s t.
Proof. 
  induction p as [|a p IH]; [done|]. change (match Ascii.compare a a with Eq => String.compare (p +:+ s) (p +:+ t) | c => c end = String.compare s t).
  unfold Ascii.compare. by rewrite N.compare_refl.
Qed.

(** A period is accepted when both ends are UTC timestamps and the first is before the
    second as a text.  That is not the order of time when one of them has a fraction of
    a second: from half past a second to that second is accepted, and from the second to
    half past it is refused. *)
Theorem periods_are_ordered_as_text a b :
  (∀ start end_, parse_required_period a b = Ok (start, end_) ↔
    SourceEventAt_parse a = Ok start ∧ SourceEventAt_parse b = Ok end_
    ∧ str_lt (SourceEventAt_as_str start) (SourceEventAt_as_str end_))
  ∧ (∀ p t u, SourceEventAt_parse (p +:+ "Z") = Ok t → SourceEventAt_parse (p +:+ ".5Z") = Ok u →
      parse_required_period (p +:+ ".5Z") (p +:+ "Z") = Ok (u, t)
      ∧ parse_required_period (p +:+ "Z") (p +:+ ".5Z")
        = Err (ApiError_BadRequest "period_start must be before period_end")).
Proof.
  unfold parse_required_period, str_lt, str_ge. split.
  - intros start end_. destruct (SourceEventAt_parse a) as [s|]; [|naive_solver].
    destruct (SourceEventAt_parse b) as [t|]; [|naive_solver]. cbn.
    destruct (String.compare _ _) eqn:E; naive_solver congruence.
  - intros p t u Ht Hu. rewrite Ht Hu. cbn. apply SourceEventAt_parse_str in Ht as [-> _], Hu as [-> _].
    by rewrite !str_compare_app.
Qed.
End audit_ui_theorems.
