(* ===== verification/Config.v ===== *)
(** * Configuration ([src/server/config/])

    The server reads its configuration from the variables of the process and from a
    [.env] file, which they take precedence over.  This file has the parser of the
    [.env] file, the parsers of single variables, the loading of the key ring from a
    variable or a directory, and [load_config].  Durations are in nanoseconds. *)

From S2P Require Import Prelude RustStd Json Platform Reference Errors Types Aad Crypto Alias AuditTypes LedgerTypes LedgerPayload Files AuditEvent KeyRotation AuditFallback.

(** ** Errors ([error.rs]) *)

Inductive ConfigError :=
| ConfigError_MissingVar (name : str)
| ConfigError_InvalidValue (name reason : str)
| ConfigError_DotenvLoad (path reason : str).
#[global] Instance ConfigError_eq_dec : EqDecision ConfigError.
Proof. solve_decision. Defined.
Definition ConfigError_to_string (error : ConfigError) : str :=
  match error with
  | ConfigError_MissingVar name => "required environment variable is not set: " +:+ name
  | ConfigError_InvalidValue name reason =>
      "environment variable " +:+ name +:+ " has an invalid value: " +:+ reason
  | ConfigError_DotenvLoad path reason => "failed to load dotenv file " +:+ path +:+ ": " +:+ reason
  end.

(** ** Constants ([constants.rs]) *)

Definition DEFAULT_DOTENV_PATH : str := ".env".
Definition DEFAULT_LISTEN_ADDR : str := "127.0.0.1:3000".
Definition DEFAULT_AUDIT_FALLBACK_PATH : str := "/var/lib/mipsorcu/audit-fallback-current.jsonl".
Definition DEFAULT_SIEM_BUFFER_PATH : str := "/var/lib/mipsorcu/siem-buffer-current.jsonl".
Definition DEFAULT_AUDIT_RESEND_INTERVAL_SECONDS : Z := 60.
Definition DEFAULT_SIEM_RESEND_INTERVAL_SECONDS : Z := 60.
Definition DEFAULT_SIEM_LONG_FAILURE_THRESHOLD_SECONDS : Z := 15 * 60.
Definition DEFAULT_AUDIT_FALLBACK_ALERT_THRESHOLD_BYTES : Z := 10 * 1024 * 1024.
Definition DEFAULT_AUDIT_FALLBACK_ROTATE_SIZE_BYTES : Z := 64 * 1024 * 1024.
Definition DEFAULT_AUDIT_FALLBACK_ARCHIVE_RETENTION_DAYS : Z := 90.
Definition SECONDS_PER_DAY : Z := 24 * 60 * 60.
Definition DEFAULT_RESTORE_TEST_INTERVAL_SECONDS : Z := 24 * 60 * 60.
Definition DEFAULT_RESTORE_TEST_STARTUP_DELAY_SECONDS : Z := 300.
Definition DEFAULT_RESTORE_TEST_SAMPLE_LIMIT : Z := 3.
Definition DEFAULT_INTEGRITY_CHECK_INTERVAL_SECONDS : Z := 24 * 60 * 60.
Definition DEFAULT_INTEGRITY_CHECK_STARTUP_DELAY_SECONDS : Z := 3900.
Definition DEFAULT_JWKS_REFRESH_INTERVAL_SECONDS : Z := 60 * 60.
Definition DEFAULT_HEALTH_READINESS_POLL_INTERVAL_SECONDS : Z := 30.
Definition DEFAULT_OUTBOUND_HTTP_CONNECT_TIMEOUT_SECONDS : Z := 5.
Definition DEFAULT_OUTBOUND_HTTP_REQUEST_TIMEOUT_SECONDS : Z := 20.
Definition DEFAULT_HTTP_HANDLER_TIMEOUT_SECONDS : Z := 75.
Definition DEFAULT_HTTP_RATE_LIMIT_REQUESTS : Z := 300.
Definition DEFAULT_HTTP_RATE_LIMIT_WINDOW_SECONDS : Z := 60.
Definition DEFAULT_SCHEDULER_STARTUP_DELAY_SECONDS : Z := 4500.
Definition DEFAULT_SCHEDULER_POLL_INTERVAL_SECONDS : Z := 60 * 60.
Definition DEFAULT_SCHEDULER_MONTHLY_DAY : Z := 1.
Definition DEFAULT_SCHEDULER_MONTHLY_HOUR_UTC : Z := 3.
Definition DEFAULT_SCHEDULER_QUARTERLY_HOUR_UTC : Z := 4.
Definition DEFAULT_SCHEDULER_LOCAL_ARCHIVE_DIR : str := "/var/lib/mipsorcu/scheduler-archive".

(** The variables are named [MIPSORCU_..]. *)
Definition env_name (suffix : str) : str := "MIPSORCU_" +:+ suffix.
Definition ENV_LISTEN_ADDR : str := env_name "LISTEN_ADDR".
Definition ENV_MASTER_KEY : str := env_name "MASTER_KEY".
Definition ENV_KEY_VERSION : str := env_name "KEY_VERSION".
Definition ENV_ALIAS_ENCRYPTION_KEY : str := env_name "ALIAS_ENCRYPTION_KEY".
Definition ENV_ALIAS_ENCRYPTION_KEY_VERSION : str := env_name "ALIAS_ENCRYPTION_KEY_VERSION".
Definition ENV_ALIAS_FINGERPRINT_KEY : str := env_name "ALIAS_FINGERPRINT_KEY".
Definition ENV_ALIAS_FINGERPRINT_KEY_VERSION : str := env_name "ALIAS_FINGERPRINT_KEY_VERSION".
Definition ENV_ACTIVE_KEY_VERSION : str := env_name "ACTIVE_KEY_VERSION".
Definition ENV_MASTER_KEY_DIR : str := env_name "MASTER_KEY_DIR".
Definition ENV_SUPABASE_URL : str := env_name "SUPABASE_URL".
Definition ENV_SUPABASE_SERVICE_ROLE_KEY : str := env_name "SUPABASE_SERVICE_ROLE_KEY".
Definition ENV_SUPABASE_PUBLISHABLE_KEY : str := env_name "SUPABASE_PUBLISHABLE_KEY".
Definition ENV_LEDGER_SIGNING_KEY : str := env_name "LEDGER_SIGNING_KEY".
Definition ENV_LEDGER_SIGNATURE_KEY_VERSION : str := env_name "LEDGER_SIGNATURE_KEY_VERSION".
Definition ENV_JWT_ISSUER : str := env_name "JWT_ISSUER".
Definition ENV_JWT_AUDIENCE : str := env_name "JWT_AUDIENCE".
Definition ENV_JWKS_URL : str := env_name "JWKS_URL".
Definition ENV_AUDIT_FALLBACK_PATH : str := env_name "AUDIT_FALLBACK_PATH".
Definition ENV_SIEM_BUFFER_PATH : str := env_name "SIEM_BUFFER_PATH".
Definition ENV_AUDIT_RESEND_INTERVAL_SECONDS : str := env_name "AUDIT_RESEND_INTERVAL_SECONDS".
Definition ENV_SIEM_RESEND_INTERVAL_SECONDS : str := env_name "SIEM_RESEND_INTERVAL_SECONDS".
Definition ENV_SIEM_LONG_FAILURE_THRESHOLD_SECONDS : str := env_name "SIEM_LONG_FAILURE_THRESHOLD_SECONDS".
Definition ENV_AUDIT_FALLBACK_ALERT_THRESHOLD_BYTES : str := env_name "AUDIT_FALLBACK_ALERT_THRESHOLD_BYTES".
Definition ENV_AUDIT_FALLBACK_ROTATE_SIZE_BYTES : str := env_name "AUDIT_FALLBACK_ROTATE_SIZE_BYTES".
Definition ENV_AUDIT_FALLBACK_ARCHIVE_DIR : str := env_name "AUDIT_FALLBACK_ARCHIVE_DIR".
Definition ENV_AUDIT_FALLBACK_ARCHIVE_AUTO_DELETE_ENABLED : str :=
  env_name "AUDIT_FALLBACK_ARCHIVE_AUTO_DELETE_ENABLED".
Definition ENV_AUDIT_FALLBACK_ARCHIVE_RETENTION_DAYS : str := env_name "AUDIT_FALLBACK_ARCHIVE_RETENTION_DAYS".
Definition ENV_RESTORE_TEST_INTERVAL_SECONDS : str := env_name "RESTORE_TEST_INTERVAL_SECONDS".
Definition ENV_RESTORE_TEST_STARTUP_DELAY_SECONDS : str := env_name "RESTORE_TEST_STARTUP_DELAY_SECONDS".
Definition ENV_RESTORE_TEST_SAMPLE_LIMIT : str := env_name "RESTORE_TEST_SAMPLE_LIMIT".
Definition ENV_INTEGRITY_CHECK_INTERVAL_SECONDS : str := env_name "INTEGRITY_CHECK_INTERVAL_SECONDS".
Definition ENV_INTEGRITY_CHECK_STARTUP_DELAY_SECONDS : str := env_name "INTEGRITY_CHECK_STARTUP_DELAY_SECONDS".
Definition ENV_JWKS_REFRESH_INTERVAL_SECONDS : str := env_name "JWKS_REFRESH_INTERVAL_SECONDS".
Definition ENV_HEALTH_READINESS_POLL_INTERVAL_SECONDS : str := env_name "HEALTH_READINESS_POLL_INTERVAL_SECONDS".
Definition ENV_OUTBOUND_HTTP_CONNECT_TIMEOUT_SECONDS : str := env_name "OUTBOUND_HTTP_CONNECT_TIMEOUT_SECONDS".
Definition ENV_OUTBOUND_HTTP_REQUEST_TIMEOUT_SECONDS : str := env_name "OUTBOUND_HTTP_REQUEST_TIMEOUT_SECONDS".
Definition ENV_HTTP_HANDLER_TIMEOUT_SECONDS : str := env_name "HTTP_HANDLER_TIMEOUT_SECONDS".
Definition ENV_HTTP_RATE_LIMIT_REQUESTS : str := env_name "HTTP_RATE_LIMIT_REQUESTS".
Definition ENV_HTTP_RATE_LIMIT_WINDOW_SECONDS : str := env_name "HTTP_RATE_LIMIT_WINDOW_SECONDS".
Definition ENV_SCHEDULER_ENABLED : str := env_name "SCHEDULER_ENABLED".
Definition ENV_SCHEDULER_STARTUP_DELAY_SECONDS : str := env_name "SCHEDULER_STARTUP_DELAY_SECONDS".
Definition ENV_SCHEDULER_POLL_INTERVAL_SECONDS : str := env_name "SCHEDULER_POLL_INTERVAL_SECONDS".
Definition ENV_SCHEDULER_MONTHLY_DAY : str := env_name "SCHEDULER_MONTHLY_DAY".
Definition ENV_SCHEDULER_MONTHLY_HOUR_UTC : str := env_name "SCHEDULER_MONTHLY_HOUR_UTC".
Definition ENV_SCHEDULER_QUARTERLY_HOUR_UTC : str := env_name "SCHEDULER_QUARTERLY_HOUR_UTC".
Definition ENV_SCHEDULER_LOCAL_ARCHIVE_DIR : str := env_name "SCHEDULER_LOCAL_ARCHIVE_DIR".

(** ** The [.env] file ([env.rs]) *)

(** [str::lines]. *)
Fixpoint str_lines_loop (rev_line l : list ascii) : list str :=
  match l with
  | [] => match rev_line with [] => [] | _ => [of_chars (rev rev_line)] end
  | a :: l =>
      if Ascii.eqb a line_feed then of_chars (rev (chomp rev_line)) :: str_lines_loop [] l
      else str_lines_loop (a :: rev_line) l
  end.
Definition str_lines (s : str) : list str := str_lines_loop [] (chars s).

(** [str::split_once] at a character. *)
Fixpoint split_once (c : ascii) (s : str) : option (str * str) :=
  match s with
  | EmptyString => None
  | String a s =>
      if Ascii.eqb a c then Some (EmptyString, s)
      else '(before, after) ← split_once c s; Some (String a before, after)
  end.

Definition DotenvVars : Type := gmap str str.

Definition quote_mark : ascii := ascii_of_nat 34.
Definition apostrophe : ascii := ascii_of_nat 39.
Definition backslash : ascii := ascii_of_nat 92.
Definition tab : ascii := ascii_of_nat 9.

Definition dotenv_parse_error (path : str) (line_number : Z) (reason : str) : ConfigError :=
  ConfigError_DotenvLoad path ("line " +:+ int_to_string line_number +:+ ": " +:+ reason).

Definition is_ascii_alphabetic (a : ascii) : bool := is_ascii_uppercase a || is_ascii_lowercase a.
Definition is_dotenv_key_char (a : ascii) : bool := Ascii.eqb a "_" || is_ascii_alphabetic a || is_ascii_digit a.
Definition is_valid_dotenv_key (key : str) : bool :=
  match chars key with
  | [] => false
  | first :: rest => (Ascii.eqb first "_" || is_ascii_alphabetic first) && forallb is_dotenv_key_char rest
  end.

(** The bytes of the first character of a text. *)
Definition first_char (l : list ascii) : list ascii :=
  match l with
  | [] => []
  | a :: l => a :: take (if code a <? 0xC0 then 0%nat else if code a <? 0xE0 then 1%nat else if code a <? 0xF0 then 2%nat else 3%nat) l
  end.
(** What a backslash and this character stand for. *)
Definition unescape_char (a : ascii) : option ascii :=
  if Ascii.eqb a backslash then Some backslash
  else if Ascii.eqb a quote_mark then Some quote_mark
  else if Ascii.eqb a "n" then Some line_feed
  else if Ascii.eqb a "r" then Some carriage_return
  else if Ascii.eqb a "t" then Some tab
  else None.
(** The loop over the characters: the ones that matter are ASCII, so it goes by bytes. *)
Fixpoint parse_double_quoted (path : str) (line_number : Z) (l : list ascii) : result ConfigError (list ascii) :=
  match l with
  | [] => Ok []
  | a :: l =>
      if negb (Ascii.eqb a backslash) then cons a <$> parse_double_quoted path line_number l else
      match l with
      | [] => Err (dotenv_parse_error path line_number "unterminated escape sequence")
      | escaped :: l' =>
          match unescape_char escaped with
          | Some value => cons value <$> parse_double_quoted path line_number l'
          | None => Err (dotenv_parse_error path line_number
              ("unsupported escape sequence `\" +:+ of_chars (first_char l) +:+ "`"))
          end
      end
  end.
Definition parse_double_quoted_dotenv_value (raw_value : str) (path : str) (line_number : Z) : result ConfigError str :=
  of_chars <$> parse_double_quoted path line_number (chars raw_value).

(** [&s[1..s.len() - 1]]. *)
Definition inner (s : str) : str := of_chars (take (String.length s - 2) (drop 1 (chars s))).
Definition quoted_by (c : ascii) (s : str) : bool := starts_with s (String c EmptyString).
Definition closed_by (c : ascii) (s : str) : bool :=
  negb ((str_len s <? 2) || negb (ends_with s (String c EmptyString))).
Definition parse_dotenv_value (raw_value path : str) (line_number : Z) : result ConfigError str :=
  if quoted_by quote_mark raw_value then
    if negb (closed_by quote_mark raw_value)
    then Err (dotenv_parse_error path line_number "double-quoted value must terminate on the same line")
    else parse_double_quoted_dotenv_value (inner raw_value) path line_number
  else if quoted_by apostrophe raw_value then
    if negb (closed_by apostrophe raw_value)
    then Err (dotenv_parse_error path line_number "single-quoted value must terminate on the same line")
    else Ok (inner raw_value)
  else Ok raw_value.

Definition parse_dotenv_line (line path : str) (line_number : Z) : result ConfigError (option (str * str)) :=
  let trimmed := trim line in
  if is_empty trimmed || starts_with trimmed "#" then Ok None else
  let binding := default trimmed (strip_prefix "export " trimmed) in
  match split_once "=" binding with
  | None => Err (dotenv_parse_error path line_number "line must contain `=`")
  | Some (name, raw_value) =>
      let name := trim name in
      if negb (is_valid_dotenv_key name)
      then Err (dotenv_parse_error path line_number ("invalid key `" +:+ name +:+ "`")) else
      value ← parse_dotenv_value (trim raw_value) path line_number;
      Ok (Some (name, value))
  end.

(** The loop over the lines; a later binding of a name replaces an earlier one. *)
Fixpoint parse_dotenv_lines (path : str) (line_number : Z) (lines : list str) (dotenv : DotenvVars) :
    result ConfigError DotenvVars :=
  match lines with
  | [] => Ok dotenv
  | line :: lines =>
      binding ← parse_dotenv_line line path line_number;
      parse_dotenv_lines path (line_number + 1) lines
        (match binding with Some (name, value) => <[name := value]> dotenv | None => dotenv end)
  end.
Definition parse_dotenv_contents (contents path : str) : result ConfigError DotenvVars :=
  parse_dotenv_lines path 1 (str_lines contents) ∅.

(** ** Variables *)

Section variables.
Context (get_process_var : str → option str) (dotenv : DotenvVars).

Definition required_var (name : str) : result ConfigError str :=
  value ← ok_or (match get_process_var name with Some value => Some value | None => dotenv !! name end)
    (ConfigError_MissingVar name);
  if is_empty (trim value) then Err (ConfigError_InvalidValue name "value must not be empty") else Ok value.

Definition optional_var (name : str) : option str :=
  match get_process_var name with
  | Some value => if negb (is_empty (trim value)) then Some value else None
  | None => value ← dotenv !! name; if negb (is_empty (trim value)) then Some value else None
  end.
End variables.

(** ** Numbers ([parse.rs]) *)

(** The error of [str::parse] at an unsigned type. *)
Fixpoint int_scan_error (max acc : Z) (l : list ascii) : str :=
  match l with
  | [] => EmptyString
  | a :: l =>
      if negb (is_ascii_digit a) then "invalid digit found in string"
      else let acc := 10 * acc + (code a - 48) in
        if max <? acc then "number too large to fit in target type" else int_scan_error max acc l
  end.
Definition int_error (max : Z) (s : str) : str :=
  match chars s with
  | [] => "cannot parse integer from empty string"
  | ["+"%char] | ["-"%char] => "invalid digit found in string"
  | "+"%char :: l => int_scan_error max 0 l
  | l => int_scan_error max 0 l
  end.
Definition parse_int (max : Z) (name value : str) : result ConfigError Z :=
  ok_or (parse_uint max value) (ConfigError_InvalidValue name (int_error max value)).

Definition parse_positive_u64_config (value : option str) (name : str) (default_value : Z) : result ConfigError Z :=
  match value with
  | None => Ok default_value
  | Some value =>
      parsed ← parse_int u64_max name value;
      if parsed =? 0 then Err (ConfigError_InvalidValue name "value must be greater than zero") else Ok parsed
  end.
Definition parse_non_negative_u64_config (value : option str) (name : str) (default_value : Z) : result ConfigError Z :=
  match value with
  | None => Ok default_value
  | Some value => parse_int u64_max name value
  end.
Definition parse_u8_range (value : option str) (name : str) (default_value min max : Z) : result ConfigError Z :=
  match value with
  | None => Ok default_value
  | Some value =>
      parsed ← parse_int u8_max name value;
      if (parsed <? min) || (max <? parsed)
      then Err (ConfigError_InvalidValue name
        ("value must be between " +:+ int_to_string min +:+ " and " +:+ int_to_string max))
      else Ok parsed
  end.

Definition Duration_from_secs (seconds : Z) : Z := seconds * 1000000000.
Definition Duration_as_secs (duration : Z) : Z := duration / 1000000000.

(** ** HTTP, queues, checks and scheduler ([http.rs], [audit_fallback.rs], [siem.rs],
    [operational_checks.rs], [scheduler.rs]) *)

Definition parse_jwks_refresh_interval (value : option str) : result ConfigError Z :=
  Duration_from_secs <$> parse_positive_u64_config value ENV_JWKS_REFRESH_INTERVAL_SECONDS
    DEFAULT_JWKS_REFRESH_INTERVAL_SECONDS.
Definition parse_health_readiness_poll_interval (value : option str) : result ConfigError Z :=
  Duration_from_secs <$> parse_positive_u64_config value ENV_HEALTH_READINESS_POLL_INTERVAL_SECONDS
    DEFAULT_HEALTH_READINESS_POLL_INTERVAL_SECONDS.
Definition parse_outbound_http_connect_timeout (value : option str) : result ConfigError Z :=
  Duration_from_secs <$> parse_positive_u64_config value ENV_OUTBOUND_HTTP_CONNECT_TIMEOUT_SECONDS
    DEFAULT_OUTBOUND_HTTP_CONNECT_TIMEOUT_SECONDS.
Definition parse_outbound_http_request_timeout (value : option str) : result ConfigError Z :=
  Duration_from_secs <$> parse_positive_u64_config value ENV_OUTBOUND_HTTP_REQUEST_TIMEOUT_SECONDS
    DEFAULT_OUTBOUND_HTTP_REQUEST_TIMEOUT_SECONDS.

(** [checked_mul]. *)
Definition u_checked_mul (max a b : Z) : option Z := if a * b <=? max then Some (a * b) else None.
Definition minimum_http_handler_timeout (outbound_http_request_timeout : Z) : result ConfigError Z :=
  seconds ← ok_or (tripled ← u_checked_mul u64_max (Duration_as_secs outbound_http_request_timeout) 3;
                   u_checked_add u64_max tripled 15)
    (ConfigError_InvalidValue ENV_OUTBOUND_HTTP_REQUEST_TIMEOUT_SECONDS "value is too large");
  Ok (Duration_from_secs seconds).
Definition parse_http_handler_timeout (value : option str) (outbound_http_request_timeout : Z) : result ConfigError Z :=
  timeout ← Duration_from_secs <$> parse_positive_u64_config value ENV_HTTP_HANDLER_TIMEOUT_SECONDS
    DEFAULT_HTTP_HANDLER_TIMEOUT_SECONDS;
  minimum ← minimum_http_handler_timeout outbound_http_request_timeout;
  if timeout <? minimum
  then Err (ConfigError_InvalidValue ENV_HTTP_HANDLER_TIMEOUT_SECONDS
    ("value must be at least " +:+ int_to_string (Duration_as_secs minimum)
     +:+ " seconds for the configured outbound request timeout"))
  else Ok timeout.
Definition parse_http_rate_limit_requests (value : option str) : result ConfigError Z :=
  parse_positive_u64_config value ENV_HTTP_RATE_LIMIT_REQUESTS DEFAULT_HTTP_RATE_LIMIT_REQUESTS.
Definition parse_http_rate_limit_window (value : option str) : result ConfigError Z :=
  Duration_from_secs <$> parse_positive_u64_config value ENV_HTTP_RATE_LIMIT_WINDOW_SECONDS
    DEFAULT_HTTP_RATE_LIMIT_WINDOW_SECONDS.

Definition parse_audit_resend_interval (value : option str) : result ConfigError Z :=
  match value with
  | None => Ok (Duration_from_secs DEFAULT_AUDIT_RESEND_INTERVAL_SECONDS)
  | Some value =>
      seconds ← parse_int u64_max ENV_AUDIT_RESEND_INTERVAL_SECONDS value;
      if seconds =? 0
      then Err (ConfigError_InvalidValue ENV_AUDIT_RESEND_INTERVAL_SECONDS "value must be greater than zero")
      else Ok (Duration_from_secs seconds)
  end.
Definition parse_audit_fallback_alert_threshold (value : option str) : result ConfigError Z :=
  parse_positive_u64_config value ENV_AUDIT_FALLBACK_ALERT_THRESHOLD_BYTES DEFAULT_AUDIT_FALLBACK_ALERT_THRESHOLD_BYTES.
Definition parse_audit_fallback_rotate_size (value : option str) : result ConfigError Z :=
  parse_positive_u64_config value ENV_AUDIT_FALLBACK_ROTATE_SIZE_BYTES DEFAULT_AUDIT_FALLBACK_ROTATE_SIZE_BYTES.
Definition parse_audit_fallback_archive_auto_delete_enabled (value : option str) : result ConfigError bool :=
  match value with
  | None => Ok false
  | Some value =>
      let normalized := to_ascii_lowercase (trim value) in
      if String.eqb normalized "true" then Ok true
      else if String.eqb normalized "false" then Ok false
      else Err (ConfigError_InvalidValue ENV_AUDIT_FALLBACK_ARCHIVE_AUTO_DELETE_ENABLED "value must be true or false")
  end.
Definition parse_audit_fallback_archive_retention_days (value : option str) : result ConfigError Z :=
  days ← parse_positive_u64_config value ENV_AUDIT_FALLBACK_ARCHIVE_RETENTION_DAYS
    DEFAULT_AUDIT_FALLBACK_ARCHIVE_RETENTION_DAYS;
  ok_or (Duration_from_secs <$> u_checked_mul u64_max days SECONDS_PER_DAY)
    (ConfigError_InvalidValue ENV_AUDIT_FALLBACK_ARCHIVE_RETENTION_DAYS "value is too large").
Definition default_audit_fallback_archive_dir {P : Platform} {F : FileSystem} (path : str) : str :=
  path_join (default "."%string
    (parent ← path_parent path; if negb (is_empty parent) then Some parent else None)) "archive".

Definition parse_siem_resend_interval (value : option str) : result ConfigError Z :=
  Duration_from_secs <$> parse_positive_u64_config value ENV_SIEM_RESEND_INTERVAL_SECONDS
    DEFAULT_SIEM_RESEND_INTERVAL_SECONDS.
Definition parse_siem_long_failure_threshold (value : option str) : result ConfigError Z :=
  Duration_from_secs <$> parse_positive_u64_config value ENV_SIEM_LONG_FAILURE_THRESHOLD_SECONDS
    DEFAULT_SIEM_LONG_FAILURE_THRESHOLD_SECONDS.

Definition parse_restore_test_interval (value : option str) : result ConfigError Z :=
  Duration_from_secs <$> parse_positive_u64_config value ENV_RESTORE_TEST_INTERVAL_SECONDS
    DEFAULT_RESTORE_TEST_INTERVAL_SECONDS.
Definition parse_restore_test_startup_delay (value : option str) : result ConfigError Z :=
  Duration_from_secs <$> parse_non_negative_u64_config value ENV_RESTORE_TEST_STARTUP_DELAY_SECONDS
    DEFAULT_RESTORE_TEST_STARTUP_DELAY_SECONDS.
Definition parse_restore_test_sample_limit (value : option str) : result ConfigError Z :=
  match value with
  | None => Ok DEFAULT_RESTORE_TEST_SAMPLE_LIMIT
  | Some value =>
      parsed ← parse_int u32_max ENV_RESTORE_TEST_SAMPLE_LIMIT value;
      if parsed =? 0
      then Err (ConfigError_InvalidValue ENV_RESTORE_TEST_SAMPLE_LIMIT "value must be greater than zero")
      else Ok parsed
  end.
Definition parse_integrity_check_interval (value : option str) : result ConfigError Z :=
  Duration_from_secs <$> parse_positive_u64_config value ENV_INTEGRITY_CHECK_INTERVAL_SECONDS
    DEFAULT_INTEGRITY_CHECK_INTERVAL_SECONDS.
Definition parse_integrity_check_startup_delay (value : option str) : result ConfigError Z :=
  Duration_from_secs <$> parse_non_negative_u64_config value ENV_INTEGRITY_CHECK_STARTUP_DELAY_SECONDS
    DEFAULT_INTEGRITY_CHECK_STARTUP_DELAY_SECONDS.

Definition parse_scheduler_enabled (value : option str) : result ConfigError bool :=
  match value with
  | None => Ok true
  | Some value =>
      let normalized := to_ascii_lowercase (trim value) in
      if str_in normalized ["true"; "1"; "yes"]%string then Ok true
      else if str_in normalized ["false"; "0"; "no"]%string then Ok false
      else Err (ConfigError_InvalidValue ENV_SCHEDULER_ENABLED "value must be true or false")
  end.
Definition parse_scheduler_startup_delay (value : option str) : result ConfigError Z :=
  Duration_from_secs <$> parse_non_negative_u64_config value ENV_SCHEDULER_STARTUP_DELAY_SECONDS
    DEFAULT_SCHEDULER_STARTUP_DELAY_SECONDS.
Definition parse_scheduler_poll_interval (value : option str) : result ConfigError Z :=
  Duration_from_secs <$> parse_positive_u64_config value ENV_SCHEDULER_POLL_INTERVAL_SECONDS
    DEFAULT_SCHEDULER_POLL_INTERVAL_SECONDS.
Definition parse_scheduler_monthly_day (value : option str) : result ConfigError Z :=
  parse_u8_range value ENV_SCHEDULER_MONTHLY_DAY DEFAULT_SCHEDULER_MONTHLY_DAY 1 28.
Definition parse_scheduler_monthly_hour_utc (value : option str) : result ConfigError Z :=
  parse_u8_range value ENV_SCHEDULER_MONTHLY_HOUR_UTC DEFAULT_SCHEDULER_MONTHLY_HOUR_UTC 0 23.
Definition parse_scheduler_quarterly_hour_utc (value : option str) : result ConfigError Z :=
  parse_u8_range value ENV_SCHEDULER_QUARTERLY_HOUR_UTC DEFAULT_SCHEDULER_QUARTERLY_HOUR_UTC 0 23.

(** ** Keys ([keyring.rs], [ledger_signing.rs]) *)

(** What the directory of keys and single files are read with: an entry has its path,
    whether it is a file, and its name when that is UTF-8; the text of a file is read
    at once.  [hex_error] is the text of the hex decoder's error, [socket_addr_parse]
    the parser of socket addresses. *)
Record KeyDirEntry := mk_KeyDirEntry {
  ke_path : str;
  ke_is_file : result str bool;
  ke_file_name : option str;
}.
Class ConfigSystem {P : Platform} := {
  read_to_string : str → io World IoError str;
  read_key_dir : str → io World str (list (result str KeyDirEntry));
  hex_error : str → str;
  SocketAddr : Type;
  socket_addr_parse : str → result str SocketAddr;
}.

Section loading.
Context {P : Platform} {F : FileSystem} {CS : ConfigSystem}.

Definition load_dotenv_file (path : str) : io World ConfigError DotenvVars :=
  io_match (read_to_string path) (λ read,
    match read with
    | Ok contents => lift (parse_dotenv_contents contents path)
    | Err IoError_NotFound => mret ∅
    | Err error => lift (Err (ConfigError_DotenvLoad path (IoError_to_string error)))
    end).

Definition parse_fixed_length_key_hex (name value : str) : result ConfigError bytes :=
  key_bytes ← ok_or (hex_decode value) (ConfigError_InvalidValue name (hex_error value));
  if negb (length key_bytes =? MASTER_KEY_LENGTH)%nat
  then Err (ConfigError_InvalidValue name
    (CryptoError_to_string (CryptoError_InvalidMasterKeyLength (zlen key_bytes))))
  else Ok key_bytes.
Definition parse_master_key_hex (name value : str) : result ConfigError MasterKey :=
  mk_MasterKey <$> parse_fixed_length_key_hex name value.
Definition parse_key_version_config (name value : str) : result ConfigError KeyVersion :=
  parsed ← parse_int u32_max name value;
  KeyVersion_new parsed !? (λ error, ConfigError_InvalidValue name (CryptoError_to_string error)).
Definition keyring_config_error (error : KeyringError) : ConfigError :=
  ConfigError_InvalidValue ENV_MASTER_KEY_DIR (KeyringError_to_string error).

(** [str::strip_suffix]. *)
Definition strip_suffix (suffix s : str) : option str :=
  if ends_with s suffix then Some (slice_to s (String.length s - String.length suffix)) else None.

Definition key_dir_error {A} (reason : str) : result ConfigError A := Err (ConfigError_InvalidValue ENV_MASTER_KEY_DIR reason).
Definition parse_master_key_file_entry (directory : str) (entry : result str KeyDirEntry) :
    io World ConfigError (KeyVersion * MasterKey) :=
  entry ← lift (entry !? (λ error, ConfigError_InvalidValue ENV_MASTER_KEY_DIR
    ("failed to read directory entry in " +:+ directory +:+ ": " +:+ error)));
  let path := ke_path entry in
  is_file ← lift (ke_is_file entry !? (λ error, ConfigError_InvalidValue ENV_MASTER_KEY_DIR
    ("failed to inspect key file " +:+ path +:+ ": " +:+ error)));
  if negb is_file then lift (key_dir_error ("keyring entry must be a file: " +:+ path)) else
  file_name ← lift (ok_or (ke_file_name entry)
    (ConfigError_InvalidValue ENV_MASTER_KEY_DIR ("key file name must be UTF-8: " +:+ path)));
  match strip_suffix ".key" file_name with
  | None => lift (key_dir_error ("key file name must match <positive-version>.key: " +:+ file_name))
  | Some key_version_text =>
      key_version ← lift (parse_key_version_config ENV_MASTER_KEY_DIR key_version_text);
      key_hex ← read_to_string path !?? (λ error, ConfigError_InvalidValue ENV_MASTER_KEY_DIR
        ("failed to read key file " +:+ path +:+ ": " +:+ IoError_to_string error));
      master_key ← lift (parse_master_key_hex ENV_MASTER_KEY_DIR (trim key_hex));
      mret (key_version, master_key)
  end.

Section sources.
Context (get_process_var : str → option str) (dotenv : DotenvVars).
Local Notation required name := (lift (required_var get_process_var dotenv name)).
Local Notation optional name := (optional_var get_process_var dotenv name).

Definition load_legacy_single_master_key_ring : io World ConfigError MasterKeyRing :=
  value ← required ENV_MASTER_KEY;
  master_key ← lift (parse_master_key_hex ENV_MASTER_KEY value);
  value ← required ENV_KEY_VERSION;
  key_version ← lift (parse_key_version_config ENV_KEY_VERSION value);
  lift (MasterKeyRing_single key_version master_key !? keyring_config_error).
Definition load_master_key_ring_from_directory (directory : str) : io World ConfigError MasterKeyRing :=
  value ← required ENV_ACTIVE_KEY_VERSION;
  active_key_version ← lift (parse_key_version_config ENV_ACTIVE_KEY_VERSION value);
  dir_entries ← read_key_dir directory !?? (λ error, ConfigError_InvalidValue ENV_MASTER_KEY_DIR
    ("failed to read directory " +:+ directory +:+ ": " +:+ error));
  entries ← io_map (parse_master_key_file_entry directory) dir_entries;
  lift (MasterKeyRing_from_key_entries active_key_version entries !? keyring_config_error).
Definition load_master_key_ring : io World ConfigError MasterKeyRing :=
  match optional ENV_MASTER_KEY_DIR with
  | Some directory => load_master_key_ring_from_directory directory
  | None => load_legacy_single_master_key_ring
  end.

Definition parse_ledger_signature_key_version (value : str) : result ConfigError LedgerSignatureKeyVersion :=
  parsed ← parse_int u32_max ENV_LEDGER_SIGNATURE_KEY_VERSION value;
  LedgerSignatureKeyVersion_new parsed
    !? (λ error, ConfigError_InvalidValue ENV_LEDGER_SIGNATURE_KEY_VERSION (LedgerError_to_string error)).
Definition load_ledger_signing_key : result ConfigError LedgerSigningKey :=
  value ← required_var get_process_var dotenv ENV_LEDGER_SIGNATURE_KEY_VERSION;
  key_version ← parse_ledger_signature_key_version value;
  value ← required_var get_process_var dotenv ENV_LEDGER_SIGNING_KEY;
  key_bytes ← ok_or (hex_decode value) (ConfigError_InvalidValue ENV_LEDGER_SIGNING_KEY (hex_error value));
  if (length key_bytes =? LEDGER_ED25519_SECRET_KEY_LENGTH)%nat
  then LedgerSigningKey_from_secret_key_bytes key_version key_bytes
    !? (λ error, ConfigError_InvalidValue ENV_LEDGER_SIGNING_KEY (LedgerError_to_string error))
  else Err (ConfigError_InvalidValue ENV_LEDGER_SIGNING_KEY
    ("decoded key must be " +:+ int_to_string (Z.of_nat LEDGER_ED25519_SECRET_KEY_LENGTH) +:+ " bytes")).

(** ** The configuration ([model.rs], [load.rs]) *)

Record AppConfig := mk_AppConfig {
  ac_listen_addr : SocketAddr;
  ac_master_key_ring : MasterKeyRing;
  ac_alias_encryption_key : AliasEncryptionKey;
  ac_alias_encryption_key_version : KeyVersion;
  ac_alias_fingerprint_key : AliasFingerprintKey;
  ac_alias_fingerprint_key_version : KeyVersion;
  ac_supabase_url : str;
  ac_supabase_service_role_key : str;
  ac_supabase_publishable_key : str;
  ac_ledger_signing_key : LedgerSigningKey;
  ac_jwt_issuer : str;
  ac_jwt_audience : str;
  ac_jwks_url : str;
  ac_jwks_refresh_interval : Z;
  ac_health_readiness_poll_interval : Z;
  ac_outbound_http_connect_timeout : Z;
  ac_outbound_http_request_timeout : Z;
  ac_http_handler_timeout : Z;
  ac_http_rate_limit_requests : Z;
  ac_http_rate_limit_window : Z;
  ac_audit_fallback_path : str;
  ac_siem_buffer_path : str;
  ac_audit_resend_interval : Z;
  ac_siem_resend_interval : Z;
  ac_siem_long_failure_threshold : Z;
  ac_audit_fallback_alert_threshold_bytes : Z;
  ac_audit_fallback_rotate_size_bytes : Z;
  ac_audit_fallback_archive_dir : str;
  ac_audit_fallback_archive_auto_delete_enabled : bool;
  ac_audit_fallback_archive_retention : Z;
  ac_restore_test_interval : Z;
  ac_restore_test_startup_delay : Z;
  ac_restore_test_sample_limit : Z;
  ac_integrity_check_interval : Z;
  ac_integrity_check_startup_delay : Z;
  ac_scheduler_enabled : bool;
  ac_scheduler_startup_delay : Z;
  ac_scheduler_poll_interval : Z;
  ac_scheduler_monthly_day : Z;
  ac_scheduler_monthly_hour_utc : Z;
  ac_scheduler_quarterly_hour_utc : Z;
  ac_scheduler_local_archive_dir : str;
}.

Definition load_config_from_sources : io World ConfigError AppConfig :=
  listen_addr ← lift (socket_addr_parse (default DEFAULT_LISTEN_ADDR (optional ENV_LISTEN_ADDR))
    !? ConfigError_InvalidValue ENV_LISTEN_ADDR);
  master_key_ring ← load_master_key_ring;
  value ← required ENV_ALIAS_ENCRYPTION_KEY;
  alias_encryption_key ← lift (mk_AliasEncryptionKey <$> parse_fixed_length_key_hex ENV_ALIAS_ENCRYPTION_KEY value);
  value ← required ENV_ALIAS_ENCRYPTION_KEY_VERSION;
  alias_encryption_key_version ← lift (parse_key_version_config ENV_ALIAS_ENCRYPTION_KEY_VERSION value);
  value ← required ENV_ALIAS_FINGERPRINT_KEY;
  alias_fingerprint_key ← lift (mk_AliasFingerprintKey <$> parse_fixed_length_key_hex ENV_ALIAS_FINGERPRINT_KEY value);
  value ← required ENV_ALIAS_FINGERPRINT_KEY_VERSION;
  alias_fingerprint_key_version ← lift (parse_key_version_config ENV_ALIAS_FINGERPRINT_KEY_VERSION value);
  supabase_url ← required ENV_SUPABASE_URL;
  supabase_service_role_key ← required ENV_SUPABASE_SERVICE_ROLE_KEY;
  supabase_publishable_key ← required ENV_SUPABASE_PUBLISHABLE_KEY;
  ledger_signing_key ← lift load_ledger_signing_key;
  jwt_issuer ← required ENV_JWT_ISSUER;
  jwt_audience ← required ENV_JWT_AUDIENCE;
  jwks_url ← required ENV_JWKS_URL;
  jwks_refresh_interval ← lift (parse_jwks_refresh_interval (optional ENV_JWKS_REFRESH_INTERVAL_SECONDS));
  health_readiness_poll_interval ← lift (parse_health_readiness_poll_interval
    (optional ENV_HEALTH_READINESS_POLL_INTERVAL_SECONDS));
  outbound_http_connect_timeout ← lift (parse_outbound_http_connect_timeout
    (optional ENV_OUTBOUND_HTTP_CONNECT_TIMEOUT_SECONDS));
  outbound_http_request_timeout ← lift (parse_outbound_http_request_timeout
    (optional ENV_OUTBOUND_HTTP_REQUEST_TIMEOUT_SECONDS));
  http_handler_timeout ← lift (parse_http_handler_timeout (optional ENV_HTTP_HANDLER_TIMEOUT_SECONDS)
    outbound_http_request_timeout);
  http_rate_limit_requests ← lift (parse_http_rate_limit_requests (optional ENV_HTTP_RATE_LIMIT_REQUESTS));
  http_rate_limit_window ← lift (parse_http_rate_limit_window (optional ENV_HTTP_RATE_LIMIT_WINDOW_SECONDS));
  let audit_fallback_path := default DEFAULT_AUDIT_FALLBACK_PATH (optional ENV_AUDIT_FALLBACK_PATH) in
  let siem_buffer_path := default DEFAULT_SIEM_BUFFER_PATH (optional ENV_SIEM_BUFFER_PATH) in
  let audit_fallback_archive_dir :=
    default (default_audit_fallback_archive_dir audit_fallback_path) (optional ENV_AUDIT_FALLBACK_ARCHIVE_DIR) in
  audit_resend_interval ← lift (parse_audit_resend_interval (optional ENV_AUDIT_RESEND_INTERVAL_SECONDS));
  siem_resend_interval ← lift (parse_siem_resend_interval (optional ENV_SIEM_RESEND_INTERVAL_SECONDS));
  siem_long_failure_threshold ← lift (parse_siem_long_failure_threshold
    (optional ENV_SIEM_LONG_FAILURE_THRESHOLD_SECONDS));
  audit_fallback_alert_threshold_bytes ← lift (parse_audit_fallback_alert_threshold
    (optional ENV_AUDIT_FALLBACK_ALERT_THRESHOLD_BYTES));
  audit_fallback_rotate_size_bytes ← lift (parse_audit_fallback_rotate_size
    (optional ENV_AUDIT_FALLBACK_ROTATE_SIZE_BYTES));
  audit_fallback_archive_auto_delete_enabled ← lift (parse_audit_fallback_archive_auto_delete_enabled
    (optional ENV_AUDIT_FALLBACK_ARCHIVE_AUTO_DELETE_ENABLED));
  audit_fallback_archive_retention ← lift (parse_audit_fallback_archive_retention_days
    (optional ENV_AUDIT_FALLBACK_ARCHIVE_RETENTION_DAYS));
  restore_test_interval ← lift (parse_restore_test_interval (optional ENV_RESTORE_TEST_INTERVAL_SECONDS));
  restore_test_startup_delay ← lift (parse_restore_test_startup_delay (optional ENV_RESTORE_TEST_STARTUP_DELAY_SECONDS));
  restore_test_sample_limit ← lift (parse_restore_test_sample_limit (optional ENV_RESTORE_TEST_SAMPLE_LIMIT));
  integrity_check_interval ← lift (parse_integrity_check_interval (optional ENV_INTEGRITY_CHECK_INTERVAL_SECONDS));
  integrity_check_startup_delay ← lift (parse_integrity_check_startup_delay
    (optional ENV_INTEGRITY_CHECK_STARTUP_DELAY_SECONDS));
  scheduler_enabled ← lift (parse_scheduler_enabled (optional ENV_SCHEDULER_ENABLED));
  scheduler_startup_delay ← lift (parse_scheduler_startup_delay (optional ENV_SCHEDULER_STARTUP_DELAY_SECONDS));
  scheduler_poll_interval ← lift (parse_scheduler_poll_interval (optional ENV_SCHEDULER_POLL_INTERVAL_SECONDS));
  scheduler_monthly_day ← lift (parse_scheduler_monthly_day (optional ENV_SCHEDULER_MONTHLY_DAY));
  scheduler_monthly_hour_utc ← lift (parse_scheduler_monthly_hour_utc (optional ENV_SCHEDULER_MONTHLY_HOUR_UTC));
  scheduler_quarterly_hour_utc ← lift (parse_scheduler_quarterly_hour_utc (optional ENV_SCHEDULER_QUARTERLY_HOUR_UTC));
  let scheduler_local_archive_dir := default DEFAULT_SCHEDULER_LOCAL_ARCHIVE_DIR (optional ENV_SCHEDULER_LOCAL_ARCHIVE_DIR) in
  mret {|
    ac_listen_addr := listen_addr;
    ac_master_key_ring := master_key_ring;
    ac_alias_encryption_key := alias_encryption_key;
    ac_alias_encryption_key_version := alias_encryption_key_version;
    ac_alias_fingerprint_key := alias_fingerprint_key;
    ac_alias_fingerprint_key_version := alias_fingerprint_key_version;
    ac_supabase_url := supabase_url;
    ac_supabase_service_role_key := supabase_service_role_key;
    ac_supabase_publishable_key := supabase_publishable_key;
    ac_ledger_signing_key := ledger_signing_key;
    ac_jwt_issuer := jwt_issuer;
    ac_jwt_audience := jwt_audience;
    ac_jwks_url := jwks_url;
    ac_jwks_refresh_interval := jwks_refresh_interval;
    ac_health_readiness_poll_interval := health_readiness_poll_interval;
    ac_outbound_http_connect_timeout := outbound_http_connect_timeout;
    ac_outbound_http_request_timeout := outbound_http_request_timeout;
    ac_http_handler_timeout := http_handler_timeout;
    ac_http_rate_limit_requests := http_rate_limit_requests;
    ac_http_rate_limit_window := http_rate_limit_window;
    ac_audit_fallback_path := audit_fallback_path;
    ac_siem_buffer_path := siem_buffer_path;
    ac_audit_resend_interval := audit_resend_interval;
    ac_siem_resend_interval := siem_resend_interval;
    ac_siem_long_failure_threshold := siem_long_failure_threshold;
    ac_audit_fallback_alert_threshold_bytes := audit_fallback_alert_threshold_bytes;
    ac_audit_fallback_rotate_size_bytes := audit_fallback_rotate_size_bytes;
    ac_audit_fallback_archive_dir := audit_fallback_archive_dir;
    ac_audit_fallback_archive_auto_delete_enabled := audit_fallback_archive_auto_delete_enabled;
    ac_audit_fallback_archive_retention := audit_fallback_archive_retention;
    ac_restore_test_interval := restore_test_interval;
    ac_restore_test_startup_delay := restore_test_startup_delay;
    ac_restore_test_sample_limit := restore_test_sample_limit;
    ac_integrity_check_interval := integrity_check_interval;
    ac_integrity_check_startup_delay := integrity_check_startup_delay;
    ac_scheduler_enabled := scheduler_enabled;
    ac_scheduler_startup_delay := scheduler_startup_delay;
    ac_scheduler_poll_interval := scheduler_poll_interval;
    ac_scheduler_monthly_day := scheduler_monthly_day;
    ac_scheduler_monthly_hour_utc := scheduler_monthly_hour_utc;
    ac_scheduler_quarterly_hour_utc := scheduler_quarterly_hour_utc;
    ac_scheduler_local_archive_dir := scheduler_local_archive_dir;
  |}.
End sources.

(** [current_process_var] is [get_process_var]. *)
Definition load_config (get_process_var : str → option str) : io World ConfigError AppConfig :=
  dotenv ← load_dotenv_file DEFAULT_DOTENV_PATH;
  load_config_from_sources get_process_var dotenv.
End loading.

(** ** Lemmas *)

Lemma parse_int_Ok max name value z : parse_int max name value = Ok z → 0 ≤ z ≤ max.
Proof. unfold parse_int. intros H%ok_or_Ok. by eapply parse_uint_range. Qed.
Lemma parse_positive_Ok value name d z :
  0 < d ≤ u64_max → parse_positive_u64_config value name d = Ok z → 0 < z ≤ u64_max.
Proof.
  unfold parse_positive_u64_config. destruct value as [v|]; [|by intros ? [= <-]]. intros _ H.
  apply result_bind_Ok in H as (y & Hy%parse_int_Ok & H). case_if; [done|]. injection H as <-. b2p. lia.
Qed.
Lemma parse_non_negative_Ok value name d z :
  0 ≤ d ≤ u64_max → parse_non_negative_u64_config value name d = Ok z → 0 ≤ z ≤ u64_max.
Proof.
  unfold parse_non_negative_u64_config. destruct value as [v|]; [|by intros ? [= <-]]. by intros _ H%parse_int_Ok.
Qed.
Lemma parse_u8_range_Ok value name d lo hi z :
  lo ≤ d ≤ hi → parse_u8_range value name d lo hi = Ok z → lo ≤ z ≤ hi.
Proof.
  unfold parse_u8_range. destruct value as [v|]; [|by intros ? [= <-]]. intros _ H.
  apply result_bind_Ok in H as (y & Hy & H). case_if; [done|]. injection H as <-. b2p. lia.
Qed.
(** A duration of a positive number of seconds. *)
Lemma positive_duration (m : result ConfigError Z) d :
  (∀ z, m = Ok z → 0 < z ≤ u64_max) → Duration_from_secs <$> m = Ok d → 0 < d.
Proof. intros Hm H. apply result_fmap_Ok in H as (z & Hz & ->). apply Hm in Hz. unfold Duration_from_secs. lia. Qed.

Section loading_lemmas.
Context {P : Platform} {F : FileSystem} {CS : ConfigSystem}.

Lemma parse_fixed_length_key_hex_Ok name value key :
  parse_fixed_length_key_hex name value = Ok key ↔ hex_decode value = Some key ∧ length key = MASTER_KEY_LENGTH.
Proof.
  unfold parse_fixed_length_key_hex. destruct (hex_decode value) as [b|]; [|split; [done|naive_solver]]. cbn [ok_or mbind result_bind].
  destruct (length b =? MASTER_KEY_LENGTH)%nat eqn:E; cbn [negb]; b2p; naive_solver.
Qed.
Lemma parse_key_version_config_Ok name value v : parse_key_version_config name value = Ok v → KeyVersion_wf v.
Proof.
  unfold parse_key_version_config, KeyVersion_new. intros H. inv_ok.
  match goal with H : parse_int _ _ _ = _ |- _ => apply parse_int_Ok in H end.
  unfold NonZeroU32_new in *. unfold KeyVersion_wf, nonzero_u32. case_if; [done|]. simplify_eq/=. b2p. lia.
Qed.

(** What a ring loaded from a variable or a directory holds. *)
Definition ring_usable (ring : MasterKeyRing) : Prop :=
  (∃ k, MasterKeyRing_active ring = Some (ring_active_key_version ring, k))
  ∧ ∀ v k, MasterKeyRing_get ring v = Ok k → KeyVersion_wf v ∧ MasterKey_wf k.

Lemma ring_of_entries active entries ring :
  MasterKeyRing_from_key_entries active entries = Ok ring →
  Forall (λ e, KeyVersion_wf e.1 ∧ MasterKey_wf e.2) entries → ring_usable ring.
Proof.
  intros Hr Hwf. destruct (keyring_from_entries active entries) as [Hiff Hget].
  destruct (Hget ring Hr) as [[k Hk] Hkeys]. apply Hiff in Hr as (_ & _ & ->). split; [by exists k|].
  intros v k' H%Hkeys. rewrite Forall_forall in Hwf. by apply (Hwf (v, k')).
Qed.

(** The file of a key: its name is the version, its text the key. *)
Definition key_file (entry : result str KeyDirEntry) (key : KeyVersion * MasterKey) : Prop :=
  ∃ e name version_text parsed text w w',
    entry = Ok e ∧ ke_is_file e = Ok true ∧ ke_file_name e = Some name
    ∧ strip_suffix ".key" name = Some version_text
    ∧ parse_uint u32_max version_text = Some parsed ∧ KeyVersion_new parsed = Ok key.1
    ∧ read_to_string (ke_path e) w = (Ok text, w')
    ∧ hex_decode (trim text) = Some (MasterKey_as_bytes key.2).

Lemma parse_master_key_file_entry_Ok directory entry w key w' :
  parse_master_key_file_entry directory entry w = (Ok key, w') →
  key_file entry key ∧ KeyVersion_wf key.1 ∧ MasterKey_wf key.2.
Proof.
  unfold parse_master_key_file_entry. intros H.
  apply io_bind_Ok in H as (e & ? & [He%map_err_Ok ->]%lift_Ok & H). cbn zeta in H.
  apply io_bind_Ok in H as (is_file & ? & [Hf%map_err_Ok ->]%lift_Ok & H). destruct is_file; [cbn [negb] in H|done].
  apply io_bind_Ok in H as (name & ? & [Hn%ok_or_Ok ->]%lift_Ok & H).
  destruct (strip_suffix ".key" name) as [vt|] eqn:Hs; [|done].
  apply io_bind_Ok in H as (v & ? & [Hv ->]%lift_Ok & H).
  apply io_bind_Ok in H as (text & w2 & Ht%io_map_err_Ok & H).
  apply io_bind_Ok in H as (k & ? & [Hk ->]%lift_Ok & [= <- <-]).
  pose proof (parse_key_version_config_Ok _ _ _ Hv) as Hwf.
  unfold parse_key_version_config, parse_int in Hv. apply result_bind_Ok in Hv as (z & Hz%ok_or_Ok & Hv%map_err_Ok).
  unfold parse_master_key_hex in Hk. apply result_fmap_Ok in Hk as (b & Hb & ->).
  apply parse_fixed_length_key_hex_Ok in Hb as [Hb Hl]. split; [|by split].
  exists e, name, vt, z, text, w, w2. by split_and!.
Qed.

End loading_lemmas.

(** ** The [.env] file read back *)

(** A value between double quotes. *)
Definition escape_char (a : ascii) : list ascii :=
  if Ascii.eqb a backslash then [backslash; backslash]
  else if Ascii.eqb a quote_mark then [backslash; quote_mark]
  else if Ascii.eqb a line_feed then [backslash; "n"%char]
  else if Ascii.eqb a carriage_return then [backslash; "r"%char]
  else [a].
Definition dotenv_quoted (value : str) : list ascii := [quote_mark] ++ (chars value ≫= escape_char) ++ [quote_mark].
Definition dotenv_binding (binding : str * str) : list ascii :=
  chars binding.1 ++ ["="%char] ++ dotenv_quoted binding.2.
Definition dotenv_text (bindings : list (str * str)) : str :=
  of_chars (bindings ≫= λ b, dotenv_binding b ++ [line_feed]).

Lemma parse_double_quoted_escaped path n value :
  parse_double_quoted path n (value ≫= escape_char) = Ok value.
Proof.
  induction value as [|a value IH]; [done|]. cbn [mbind list_bind]. unfold escape_char at 1.
  destruct (Ascii.eqb_spec a backslash) as [->|H1]; [cbn [app parse_double_quoted]; by rewrite IH|].
  destruct (Ascii.eqb_spec a quote_mark) as [->|H2]; [cbn [app parse_double_quoted]; by rewrite IH|].
  destruct (Ascii.eqb_spec a line_feed) as [->|H3]; [cbn [app parse_double_quoted]; by rewrite IH|].
  destruct (Ascii.eqb_spec a carriage_return) as [->|H4]; [cbn [app parse_double_quoted]; by rewrite IH|].
  cbn [app parse_double_quoted]. rewrite (proj2 (Ascii.eqb_neq _ _) H1). cbn [negb]. by rewrite IH.
Qed.

Lemma escaped_one_line value : line_feed ∉ value ≫= escape_char.
Proof.
  induction value as [|a value IH]; [set_solver|]. cbn [mbind list_bind]. rewrite not_elem_of_app. split; [|exact IH].
  unfold escape_char.
  destruct (Ascii.eqb_spec a backslash), (Ascii.eqb_spec a quote_mark), (Ascii.eqb_spec a line_feed),
    (Ascii.eqb_spec a carriage_return); rewrite !not_elem_of_cons; split_and!; try done; set_solver.
Qed.

Lemma str_lines_loop_line acc l rest :
  line_feed ∉ l → str_lines_loop acc (l ++ line_feed :: rest) = of_chars (rev (chomp (rev l ++ acc))) :: str_lines_loop [] rest.
Proof.
  revert acc. induction l as [|a l IH]; intros acc Hl; [done|]. apply not_elem_of_cons in Hl as [Ha Hl].
  cbn [app str_lines_loop]. destruct (Ascii.eqb_spec a line_feed) as [->|_]; [done|]. rewrite IH; [|done].
  cbn [rev]. by rewrite -app_assoc.
Qed.

Lemma split_once_app c name rest :
  c ∉ chars name → split_once c (name +:+ String c rest) = Some (name, rest).
Proof.
  induction name as [|a name IH]; intros Hc; simpl; [by rewrite Ascii.eqb_refl|].
  simpl in Hc. apply not_elem_of_cons in Hc as [Ha Hc]. destruct (Ascii.eqb_spec a c) as [->|_]; [done|]. by rewrite IH.
Qed.

Lemma key_char_plain a : is_dotenv_key_char a = true → plain a = true ∧ a ≠ "="%char ∧ a ≠ " "%char ∧ a ≠ line_feed.
Proof. destruct a as [[] [] [] [] [] [] [] []]; vm_compute; naive_solver. Qed.
Lemma valid_key_chars key :
  is_valid_dotenv_key key = true → chars key ≠ [] ∧ Forall (λ a, is_dotenv_key_char a = true) (chars key).
Proof.
  unfold is_valid_dotenv_key, is_dotenv_key_char. destruct (chars key) as [|a l]; [done|]. intros [Ha Hl]%andb_true_iff.
  split; [done|]. constructor; [by rewrite Ha|]. rewrite forallb_forall in Hl. apply Forall_forall. intros x Hx%list_elem_of_In. by apply Hl.
Qed.

(** No binding starts with [export ]. *)
Lemma no_export name rest :
  Forall (λ a, is_dotenv_key_char a = true) (chars name) → strip_prefix "export " (name +:+ String "=" rest) = None.
Proof.
  intros Hk. destruct (strip_prefix _ _) as [t|] eqn:Hs; [|done]. exfalso. apply strip_prefix_Some in Hs.
  apply (f_equal chars) in Hs. rewrite !chars_app in Hs. set (l := chars name) in *. clearbody l.
  do 7 (destruct l as [|? l]; [by vm_compute in Hs|]; apply Forall_cons in Hk as [? Hk]; injection Hs as ? Hs; subst).
  done.
Qed.

Lemma quoted_value_parses value path n :
  let raw := of_chars (dotenv_quoted value) in
  trim raw = raw ∧ parse_dotenv_value raw path n = Ok value.
Proof.
  intros raw. assert (chars raw = quote_mark :: (chars value ≫= escape_char) ++ [quote_mark]) as Hraw by apply chars_of_chars.
  assert (String.length raw = S (S (length (chars value ≫= escape_char)))) as Hlen.
  { rewrite -length_chars Hraw. cbn [length]. rewrite length_app. cbn [length]. lia. }
  split.
  { apply (trim_plain_ends raw quote_mark ((chars value ≫= escape_char) ++ [quote_mark])
      (quote_mark :: (chars value ≫= escape_char)) quote_mark); done. }
  unfold parse_dotenv_value. assert (quoted_by quote_mark raw = true) as ->.
  { unfold quoted_by, starts_with, raw, dotenv_quoted. done. }
  assert (closed_by quote_mark raw = true) as ->.
  { unfold closed_by, ends_with, str_len. rewrite Hraw Hlen. rewrite bool_decide_true.
    2:{ exists (quote_mark :: (chars value ≫= escape_char)). done. }
    assert (Z.of_nat (S (S (length (chars value ≫= escape_char)))) <? 2 = false) as -> by (apply Z.ltb_ge; lia). done. }
  cbn [negb]. unfold parse_double_quoted_dotenv_value, inner. rewrite chars_of_chars Hraw Hlen.
  cbn [drop skipn]. replace (S (S (length (chars value ≫= escape_char))) - 2)%nat
    with (length (chars value ≫= escape_char)) by lia.
  rewrite take_app_length parse_double_quoted_escaped. cbn. by rewrite of_chars_chars.
Qed.

Lemma binding_parses name value path n :
  is_valid_dotenv_key name = true →
  parse_dotenv_line (of_chars (dotenv_binding (name, value))) path n = Ok (Some (name, value)).
Proof.
  intros Hv. pose proof (valid_key_chars _ Hv) as [Hne Hk].
  set (raw := of_chars (dotenv_quoted value)).
  assert (of_chars (dotenv_binding (name, value)) = name +:+ String "=" raw) as Hline.
  { apply chars_inj. rewrite chars_of_chars chars_app. cbn [chars list_ascii_of_string]. unfold raw. by rewrite -/(chars (of_chars _)) chars_of_chars. }
  rewrite Hline. destruct (quoted_value_parses value path n) as [Htrim Hval]. fold raw in Htrim, Hval.
  assert (Forall (λ a, plain a = true) (chars name)) as Hplain
    by (eapply Forall_impl; [exact Hk|]; intros a Ha; by apply key_char_plain).
  destruct (chars name) as [|a l] eqn:Hname; [done|].
  assert (trim (name +:+ String "=" raw) = name +:+ String "=" raw) as Htl.
  { apply (trim_plain_ends _ a (l ++ "="%char :: dotenv_quoted value)
      (chars name ++ ["="%char; quote_mark] ++ (chars value ≫= escape_char)) quote_mark); [..|by inversion Hplain|done].
    - rewrite chars_app Hname. cbn [chars list_ascii_of_string app]. unfold raw. by rewrite -/(chars (of_chars _)) chars_of_chars.
    - rewrite chars_app. cbn [chars list_ascii_of_string app]. unfold raw. rewrite -/(chars (of_chars _)) chars_of_chars.
      unfold dotenv_quoted. by rewrite -!app_assoc. }
  unfold parse_dotenv_line. rewrite Htl.
  assert (is_empty (name +:+ String "=" raw) = false) as ->.
  { apply is_empty_false. intros H%(f_equal chars). rewrite chars_app Hname in H. done. }
  assert (starts_with (name +:+ String "=" raw) "#" = false) as ->.
  { unfold starts_with. destruct (strip_prefix "#" _) as [t|] eqn:E; [|done]. exfalso. apply strip_prefix_Some in E.
    apply (f_equal chars) in E. rewrite chars_app Hname in E. injection E as -> _.
    apply Forall_cons in Hk as [Hk _]. done. }
  cbn [orb]. rewrite no_export; [|by rewrite Hname]. cbn [default].
  rewrite split_once_app; [|rewrite Hname; intros H; rewrite Forall_forall in Hk; by apply Hk, key_char_plain in H as (_ & ? & _)].
  rewrite (trim_all_plain name); [|by rewrite Hname]. by rewrite Hv Htrim Hval.
Qed.

Lemma dotenv_lines_text bindings :
  Forall (λ b, is_valid_dotenv_key b.1 = true) bindings →
  str_lines (dotenv_text bindings) = (λ b, of_chars (dotenv_binding b)) <$> bindings.
Proof.
  unfold str_lines, dotenv_text. rewrite chars_of_chars. induction 1 as [|[name value] bindings Hb _ IH]; [done|].
  cbn [mbind list_bind fmap list_fmap]. rewrite -app_assoc. cbn [app]. rewrite str_lines_loop_line.
  2:{ pose proof (valid_key_chars _ Hb) as [_ Hk]. unfold dotenv_binding, dotenv_quoted. cbn [fst snd].
      rewrite !not_elem_of_app. split_and!; [|by rewrite list_elem_of_singleton|by rewrite list_elem_of_singleton| |by rewrite list_elem_of_singleton].
      - intros H. rewrite Forall_forall in Hk. by apply Hk, key_char_plain in H as (_ & _ & _ & ?).
      - apply escaped_one_line. }
  rewrite app_nil_r. f_equal; [|exact IH]. unfold dotenv_binding, dotenv_quoted. cbn [fst snd].
  rewrite !app_assoc rev_unit. cbn [chomp]. by rewrite -rev_unit rev_involutive.
Qed.

Lemma parse_dotenv_lines_bindings path n bindings dotenv :
  Forall (λ b, is_valid_dotenv_key b.1 = true) bindings →
  parse_dotenv_lines path n ((λ b, of_chars (dotenv_binding b)) <$> bindings) dotenv
  = Ok (foldl (λ (m : DotenvVars) b, <[b.1 := b.2]> m) dotenv bindings).
Proof.
  intros Hb. revert n dotenv. induction Hb as [|[name value] bindings Hv _ IH]; intros n dotenv; [done|].
  cbn [fmap list_fmap parse_dotenv_lines]. rewrite binding_parses; [|done]. cbn [mbind result_bind]. apply IH.
Qed.

(** ** Properties *)

(** A file of bindings is read back: for valid names and any values, written between double
    quotes with quotes, backslashes and line ends escaped, one to a line, parsing gives the
    bindings, the last one for each name. *)
Theorem dotenv_round_trip path bindings :
  Forall (λ b, is_valid_dotenv_key b.1 = true) bindings →
  parse_dotenv_contents (dotenv_text bindings) path
  = Ok (foldl (λ (m : DotenvVars) b, <[b.1 := b.2]> m) ∅ bindings).
Proof.
  intros Hb. unfold parse_dotenv_contents. rewrite dotenv_lines_text; [|done]. by apply parse_dotenv_lines_bindings.
Qed.

(** A required variable is the process's when it has one, else the file's, and is never
    blank.  A blank variable of the process hides the file: then a required variable is
    refused and an optional one has its default, whatever the file says. *)
Theorem process_variables_take_precedence get dotenv name :
  (∀ v, required_var get dotenv name = Ok v ↔
    is_empty (trim v) = false ∧ (get name = Some v ∨ (get name = None ∧ dotenv !! name = Some v)))
  ∧ (∀ v, optional_var get dotenv name = Some v ↔ required_var get dotenv name = Ok v)
  ∧ (∀ v, get name = Some v → is_empty (trim v) = true →
      required_var get dotenv name = Err (ConfigError_InvalidValue name "value must not be empty")
      ∧ optional_var get dotenv name = None).
Proof.
  unfold required_var, optional_var. destruct (get name) as [g|]; [|destruct (dotenv !! name) as [d|]]; cbn.
  - destruct (is_empty (trim g)) eqn:E; cbn; naive_solver congruence.
  - destruct (is_empty (trim d)) eqn:E; cbn; naive_solver congruence.
  - naive_solver.
Qed.

Section config_theorems.
Context {P : Platform} {F : FileSystem} {CS : ConfigSystem}.

(** A ring loaded from a directory holds exactly the keys of its files: every entry of the
    directory is a file named after a version with a key of 32 bytes in hex in it, no
    version occurs twice and the active one is there.  Anything else in the directory
    keeps the server from starting. *)
Theorem key_directory_is_the_ring get dotenv directory w ring w' :
  load_master_key_ring_from_directory get dotenv directory w = (Ok ring, w') →
  ∃ active dir_entries entries w1,
    read_key_dir directory w = (Ok dir_entries, w1)
    ∧ Forall2 key_file dir_entries entries
    ∧ NoDup entries.*1 ∧ active ∈ entries.*1 ∧ ring = mk_MasterKeyRing active (list_to_map entries)
    ∧ ring_usable ring.
Proof.
  unfold load_master_key_ring_from_directory. intros H.
  apply io_bind_Ok in H as (value & ? & [_ ->]%lift_Ok & H).
  apply io_bind_Ok in H as (active & ? & [_ ->]%lift_Ok & H).
  apply io_bind_Ok in H as (dir_entries & w1 & Hd%io_map_err_Ok & H).
  apply io_bind_Ok in H as (entries & w2 & He & [Hr%map_err_Ok ->]%lift_Ok).
  assert (Forall2 (λ entry key, key_file entry key ∧ KeyVersion_wf key.1 ∧ MasterKey_wf key.2) dir_entries entries) as Hall
    by (eapply io_map_Forall2; [|exact He]; intros a u b u'; apply parse_master_key_file_entry_Ok).
  pose proof (proj1 (proj1 (keyring_from_entries active entries) ring) Hr) as (Hnd & Hin & Heq).
  exists active, dir_entries, entries, w1. split_and!; [done| |done..|].
  - eapply Forall2_impl; [exact Hall|naive_solver].
  - eapply ring_of_entries; [exact Hr|]. clear -Hall. induction Hall; constructor; naive_solver.
Qed.
End config_theorems.

Section loaded_config.
Context {P : Platform} {F : FileSystem} {CS : ConfigSystem}.

Lemma load_master_key_ring_usable get dotenv w ring w' :
  load_master_key_ring get dotenv w = (Ok ring, w') → ring_usable ring.
Proof.
  unfold load_master_key_ring. destruct (optional_var _ _ _) as [directory|].
  - unfold load_master_key_ring_from_directory. intros H.
    apply io_bind_Ok in H as (value & ? & [_ ->]%lift_Ok & H).
    apply io_bind_Ok in H as (active & ? & [_ ->]%lift_Ok & H).
    apply io_bind_Ok in H as (dir_entries & w1 & _ & H).
    apply io_bind_Ok in H as (entries & w2 & He & [Hr%map_err_Ok ->]%lift_Ok).
    eapply ring_of_entries; [exact Hr|].
    assert (Forall2 (λ _ key, KeyVersion_wf key.1 ∧ MasterKey_wf key.2) dir_entries entries) as Hall
      by (eapply io_map_Forall2; [|exact He]; intros a u b u' Hp; by apply parse_master_key_file_entry_Ok in Hp as [_ ?]).
    clear -Hall. induction Hall; by constructor.
  - unfold load_legacy_single_master_key_ring, MasterKeyRing_single. intros H.
    apply io_bind_Ok in H as (value & ? & [_ ->]%lift_Ok & H).
    apply io_bind_Ok in H as (key & ? & [Hk ->]%lift_Ok & H).
    apply io_bind_Ok in H as (value' & ? & [_ ->]%lift_Ok & H).
    apply io_bind_Ok in H as (v & ? & [Hv%parse_key_version_config_Ok ->]%lift_Ok & [Hr%map_err_Ok ->]%lift_Ok).
    eapply ring_of_entries; [exact Hr|]. unfold parse_master_key_hex in Hk.
    apply result_fmap_Ok in Hk as (b & [_ Hl]%parse_fixed_length_key_hex_Ok & ->). constructor; [by split|constructor].
Qed.

Lemma load_ledger_signing_key_Ok get dotenv key :
  load_ledger_signing_key get dotenv = Ok key → LedgerSignatureKeyVersion_wf (sk_key_version key).
Proof.
  unfold load_ledger_signing_key, parse_ledger_signature_key_version. intros H. inv_ok.
  match goal with H : parse_int _ _ _ = _ |- _ => apply parse_int_Ok in H end.
  case_if; [|done]. inv_ok. unfold LedgerSigningKey_from_secret_key_bytes in *. case_if; [done|]. simplify_eq/=.
  unfold LedgerSignatureKeyVersion_new, NonZeroU32_new in *. inv_ok. case_if; [done|]. simplify_eq/=.
  unfold LedgerSignatureKeyVersion_wf, nonzero_u32. cbn. b2p. lia.
Qed.

(** What the rest of the program relies on in a configuration. *)
Record config_usable (c : AppConfig) : Prop := {
  usable_ring : ring_usable (ac_master_key_ring c);
  usable_alias_keys :
    length (AliasEncryptionKey_as_bytes (ac_alias_encryption_key c)) = MASTER_KEY_LENGTH
    ∧ length (AliasFingerprintKey_as_bytes (ac_alias_fingerprint_key c)) = MASTER_KEY_LENGTH
    ∧ KeyVersion_wf (ac_alias_encryption_key_version c) ∧ KeyVersion_wf (ac_alias_fingerprint_key_version c);
  usable_signing_key : LedgerSignatureKeyVersion_wf (sk_key_version (ac_ledger_signing_key c));
  usable_intervals : Forall (Z.lt 0)
    [ac_jwks_refresh_interval c; ac_health_readiness_poll_interval c; ac_outbound_http_connect_timeout c;
     ac_outbound_http_request_timeout c; ac_http_rate_limit_window c; ac_audit_resend_interval c;
     ac_siem_resend_interval c; ac_siem_long_failure_threshold c; ac_audit_fallback_archive_retention c;
     ac_restore_test_interval c; ac_integrity_check_interval c; ac_scheduler_poll_interval c];
  usable_counts : Forall (Z.lt 0)
    [ac_http_rate_limit_requests c; ac_audit_fallback_alert_threshold_bytes c; ac_audit_fallback_rotate_size_bytes c;
     ac_restore_test_sample_limit c];
  usable_timeout :
    3 * ac_outbound_http_request_timeout c + Duration_from_secs 15 ≤ ac_http_handler_timeout c;
  usable_calendar : 1 ≤ ac_scheduler_monthly_day c ≤ 28 ∧ 0 ≤ ac_scheduler_monthly_hour_utc c ≤ 23
    ∧ 0 ≤ ac_scheduler_quarterly_hour_utc c ≤ 23;
}.

Lemma parse_http_handler_timeout_Ok value v r t :
  parse_outbound_http_request_timeout v = Ok r → parse_http_handler_timeout value r = Ok t →
  3 * r + Duration_from_secs 15 ≤ t.
Proof.
  unfold parse_outbound_http_request_timeout, parse_http_handler_timeout, minimum_http_handler_timeout. intros Hr H.
  apply result_fmap_Ok in Hr as (seconds & _ & ->). apply result_bind_Ok in H as (timeout & _ & H).
  apply result_bind_Ok in H as (minimum & Hm & H). case_if; [done|]. injection H as <-. b2p.
  apply result_bind_Ok in Hm as (total & Ht%ok_or_Ok & [= <-]). apply bind_Some in Ht as (tripled & Hm & [-> _]%u_checked_add_Some).
  unfold u_checked_mul in Hm. case_if; [|done]. injection Hm as <-. unfold Duration_from_secs, Duration_as_secs in *.
  rewrite Z.div_mul in Heqb; [|done]. lia.
Qed.
Lemma parse_audit_resend_interval_Ok value d : parse_audit_resend_interval value = Ok d → 0 < d.
Proof.
  unfold parse_audit_resend_interval. destruct value; [|by intros [= <-]]. intros H.
  apply result_bind_Ok in H as (z & Hz%parse_int_Ok & H). case_if; [done|]. injection H as <-. b2p.
  unfold Duration_from_secs. lia.
Qed.
Lemma parse_retention_Ok value d : parse_audit_fallback_archive_retention_days value = Ok d → 0 < d.
Proof.
  unfold parse_audit_fallback_archive_retention_days, u_checked_mul. intros H.
  apply result_bind_Ok in H as (z & Hz%parse_positive_Ok & H%ok_or_Ok); [|done].
  apply fmap_Some in H as (s & Hs & ->). case_if; [|done]. injection Hs as <-. unfold Duration_from_secs, SECONDS_PER_DAY. lia.
Qed.
Lemma parse_sample_limit_Ok value z : parse_restore_test_sample_limit value = Ok z → 0 < z.
Proof.
  unfold parse_restore_test_sample_limit. destruct value; [|by intros [= <-]]. intros H.
  apply result_bind_Ok in H as (y & Hy%parse_int_Ok & H). case_if; [done|]. injection H as <-. b2p. lia.
Qed.
Lemma alias_key_Ok {K} (mk : bytes → K) name value k :
  mk <$> parse_fixed_length_key_hex name value = Ok k → ∃ b, k = mk b ∧ length b = MASTER_KEY_LENGTH.
Proof. intros H. apply result_fmap_Ok in H as (b & [_ ?]%parse_fixed_length_key_hex_Ok & ->). eauto. Qed.

Lemma load_config_usable get w c w' :
  load_config get w = (Ok c, w') → config_usable c.
Proof.
  unfold load_config. intros H. apply io_bind_Ok in H as (dotenv & w0 & _ & H). unfold load_config_from_sources in H.
  repeat match type of H with
  | mbind _ _ _ = _ => apply io_bind_Ok in H as (? & ? & ? & H)
  | (let _ := _ in _) _ = _ => cbn zeta in H
  end.
  injection H as <- <-.
  repeat match goal with H : lift _ _ = (Ok _, _) |- _ => apply lift_Ok in H as [H _] end.
  repeat match goal with H : _ <$> parse_fixed_length_key_hex _ _ = _ |- _ => apply alias_key_Ok in H as (? & -> & ?) end.
  split; cbn.
  - by eapply load_master_key_ring_usable.
  - split_and!; [done..| |]; by eapply parse_key_version_config_Ok.
  - by eapply load_ledger_signing_key_Ok.
  - repeat constructor; first [by eapply parse_audit_resend_interval_Ok | by eapply parse_retention_Ok
      | eapply positive_duration; [|eassumption]; intros z; by apply parse_positive_Ok].
  - repeat constructor; first [by eapply parse_sample_limit_Ok | eapply parse_positive_Ok; [|eassumption]; done].
  - by eapply parse_http_handler_timeout_Ok.
  - split; [|split]; (eapply parse_u8_range_Ok; [|eassumption]; done).
Qed.

(** A server that starts has a configuration it can run with: a key ring whose active key
    is there and whose keys all have their length, alias keys of the length the cipher
    needs, positive intervals, limits and sizes, a handler timeout that leaves room for
    three outbound requests and fifteen seconds, and a day and hours that exist in every
    month. *)
Theorem loaded_config_is_usable get w c w' :
  load_config get w = (Ok c, w') → config_usable c.
Proof. apply load_config_usable. Qed.
End loaded_config.
