(* ===== verification/S3Client.v ===== *)
(** * The client of the object store ([src/archive/s3/])

    The archive keeps its documents in an S3 bucket with object lock.  This file has
    the settings of the bucket ([config.rs]), the retention ([object_lock.rs]), the
    signing of requests ([sigv4.rs]) and the client ([client.rs]), which is the
    implementation of the interface [S3Http] the archive backend uses.  What sends
    requests (reqwest) is the interface [S3Transport]; what a store that is reached
    over it promises is the class [S3Server]. *)

From S2P Require Import Prelude RustStd Json Platform Reference Errors Types Files Archive KeyRotation App Config.

(** ** Strings *)

(** [str::split_once] and [str::find] at a string. *)
Fixpoint split_once_str (pat s : str) : option (str * str) :=
  match strip_prefix pat s with
  | Some after => Some (EmptyString, after)
  | None =>
      match s with
      | EmptyString => None
      | String a s => '(before, after) ← split_once_str pat s; Some (String a before, after)
      end
  end.

(** [str::split] at a character. *)
Fixpoint str_split (c : ascii) (s : str) : list str :=
  match s with
  | EmptyString => [EmptyString]
  | String a s =>
      if Ascii.eqb a c then EmptyString :: str_split c s else
      match str_split c s with
      | [] => [String a EmptyString]
      | part :: parts => String a part :: parts
      end
  end.

(** [str::replace] of a non-empty pattern: [skip] counts the characters of a match
    that are still to be dropped. *)
Fixpoint str_replace_loop (pat to : list ascii) (skip : nat) (l : list ascii) : list ascii :=
  match l with
  | [] => []
  | a :: l' =>
      match skip with
      | S skip => str_replace_loop pat to skip l'
      | O =>
          if bool_decide (pat `prefix_of` l) then to ++ str_replace_loop pat to (length pat - 1) l'
          else a :: str_replace_loop pat to 0 l'
      end
  end.
Definition str_replace (pat to s : str) : str := of_chars (str_replace_loop (chars pat) (chars to) 0 (chars s)).

(** [str::trim_end_matches] of a character. *)
Fixpoint drop_while_char (c : ascii) (l : list ascii) : list ascii :=
  match l with a :: l' => if Ascii.eqb a c then drop_while_char c l' else l | [] => [] end.
Definition trim_end_matches (c : ascii) (s : str) : str := of_chars (rev (drop_while_char c (rev (chars s)))).

Definition contains_char (c : ascii) (s : str) : bool := bool_decide (c ∈ chars s).
Definition is_ascii_alphanumeric (a : ascii) : bool := is_ascii_alphabetic a || is_ascii_digit a.
(** [char::is_ascii_whitespace]: unlike [trim] it leaves out the vertical tab. *)
Definition is_ascii_whitespace (a : ascii) : bool :=
  (code a =? 32) || (code a =? 9) || (code a =? 10) || (code a =? 12) || (code a =? 13).

(** ** Errors ([error.rs]) *)

Definition S3BackendError_to_string (error : S3BackendError) : str :=
  match error with
  | S3BackendError_InvalidConfig reason => "invalid s3 config: " +:+ reason
  | S3BackendError_RequestBuild reason => "s3 request build failed: " +:+ reason
  | S3BackendError_Network reason => "s3 network error: " +:+ reason
  | S3BackendError_Unauthenticated => "s3 authentication failed"
  | S3BackendError_OverwriteRejected => "s3 overwrite rejected"
  | S3BackendError_NotFound => "s3 object not found"
  | S3BackendError_ServerError status => "s3 server error: " +:+ int_to_string status
  | S3BackendError_Unexpected status => "s3 unexpected status: " +:+ int_to_string status
  | S3BackendError_ResponseRead reason => "s3 response read failed: " +:+ reason
  end.

(** ** Object lock ([object_lock.rs]) *)

Inductive S3ObjectLockMode := S3ObjectLockMode_Governance | S3ObjectLockMode_Compliance.
#[global] Instance S3ObjectLockMode_eq_dec : EqDecision S3ObjectLockMode.
Proof. solve_decision. Defined.

Definition S3ObjectLockMode_parse (value : str) : result S3BackendError S3ObjectLockMode :=
  let lower := to_ascii_lowercase (trim value) in
  if bool_decide (lower = "governance") then Ok S3ObjectLockMode_Governance
  else if bool_decide (lower = "compliance") then Ok S3ObjectLockMode_Compliance
  else Err (S3BackendError_InvalidConfig "object_lock_mode must be 'governance' or 'compliance'").
Definition S3ObjectLockMode_as_header_value (mode : S3ObjectLockMode) : str :=
  match mode with S3ObjectLockMode_Governance => "GOVERNANCE" | S3ObjectLockMode_Compliance => "COMPLIANCE" end.

(** ** Settings ([config.rs]) *)

Definition s3_env_name (suffix : str) : str := "MIPSORCU_ARCHIVE_S3_" +:+ suffix.
Definition ENV_S3_ENDPOINT_URL : str := s3_env_name "ENDPOINT_URL".
Definition ENV_S3_REGION : str := s3_env_name "REGION".
Definition ENV_S3_BUCKET : str := s3_env_name "BUCKET".
Definition ENV_S3_ACCESS_KEY_ID : str := s3_env_name "ACCESS_KEY_ID".
Definition ENV_S3_SECRET_ACCESS_KEY : str := s3_env_name "SECRET_ACCESS_KEY".
Definition ENV_S3_SESSION_TOKEN : str := s3_env_name "SESSION_TOKEN".
Definition ENV_S3_OBJECT_LOCK_MODE : str := s3_env_name "OBJECT_LOCK_MODE".
Definition ENV_S3_RETENTION_DAYS : str := s3_env_name "RETENTION_DAYS".
Definition ENV_S3_PATH_STYLE : str := s3_env_name "PATH_STYLE".
Definition ENV_S3_FORBID_OVERWRITE : str := s3_env_name "FORBID_OVERWRITE".
Definition ENV_S3_MAX_RETRIES : str := s3_env_name "MAX_RETRIES".
Definition ENV_S3_RETRY_BASE_MILLIS : str := s3_env_name "RETRY_BASE_MILLIS".
Definition DEFAULT_PATH_STYLE : bool := true.
Definition DEFAULT_FORBID_OVERWRITE : bool := true.
Definition DEFAULT_MAX_RETRIES : Z := 4.
Definition DEFAULT_RETRY_BASE_MILLIS : Z := 250.

Record SecretString := mk_SecretString { expose : str }.

Inductive S3ArchiveBackendConfigError :=
| S3ArchiveBackendConfigError_MissingVar (name : str)
| S3ArchiveBackendConfigError_InvalidValue (name reason : str).
#[global] Instance S3ArchiveBackendConfigError_eq_dec : EqDecision S3ArchiveBackendConfigError.
Proof. solve_decision. Defined.
Definition S3ArchiveBackendConfigError_to_string (error : S3ArchiveBackendConfigError) : str :=
  match error with
  | S3ArchiveBackendConfigError_MissingVar name => "missing required env var: " +:+ name
  | S3ArchiveBackendConfigError_InvalidValue name reason => "invalid env var " +:+ name +:+ ": " +:+ reason
  end.

(** The whole [S3ArchiveBackendConfig]; the backend of [Archive] reads two of its
    fields. *)
Record S3ArchiveBackendSettings := mk_S3ArchiveBackendSettings {
  s3_endpoint_url : str;
  s3_region : str;
  s3_bucket : str;
  s3_access_key_id : str;
  s3_secret_access_key : SecretString;
  s3_session_token : option SecretString;
  s3_object_lock_mode : S3ObjectLockMode;
  s3_retention_days : Z;
  s3_path_style : bool;
  s3_forbid_overwrite : bool;
  s3_max_retries : Z;
  s3_retry_base_millis : Z;
}.

Definition s3_backend_config (c : S3ArchiveBackendSettings) : S3ArchiveBackendConfig :=
  mk_S3ArchiveBackendConfig (s3_max_retries c) (s3_retry_base_millis c).

(** The authority of a URL, and whether something other than a slash follows it. *)
Definition endpoint_authority (rest : str) : str * bool :=
  match split_once "/" rest with
  | Some (authority, path) => (authority, negb (is_empty path))
  | None => (rest, false)
  end.
Definition validate_endpoint_url (endpoint_url : str) : result str unit :=
  '(scheme, rest) ← ok_or (split_once_str "://" endpoint_url) "endpoint_url must include scheme (http:// or https://)";
  if negb (str_in scheme ["http"; "https"]) then Err "endpoint_url scheme must be http or https" else
  if contains_char "?" rest then Err "endpoint_url must not include query" else
  if contains_char "#" rest then Err "endpoint_url must not include fragment" else
  let '(authority, has_path) := endpoint_authority rest in
  if is_empty authority then Err "endpoint_url host is empty" else
  if contains_char "@" authority then Err "endpoint_url must not include userinfo" else
  if has_path then Err "endpoint_url path must be empty or /" else
  Ok tt.

(** The loop returns [false] at the first part that is not a number of a byte. *)
Definition is_ipv4_address_like (bucket : str) : bool :=
  let parts := str_split "." bucket in
  forallb (λ part, negb (is_empty part) && forallb is_ascii_digit (chars part)
                   && match parse_u8 part with Some _ => true | None => false end) parts
  && (length parts =? 4)%nat.

Definition bucket_alnum (a : ascii) : bool := is_ascii_lowercase a || is_ascii_digit a.
Definition validate_bucket_name (bucket : str) : result str unit :=
  if negb ((3 <=? str_len bucket) && (str_len bucket <=? 63)) then Err "bucket must be 3 to 63 characters" else
  if negb (forallb (λ a, bucket_alnum a || Ascii.eqb a "." || Ascii.eqb a "-") (chars bucket))
  then Err "bucket contains invalid characters" else
  if negb (match head (chars bucket) with Some a => bucket_alnum a | None => false end)
  then Err "bucket must start with a lowercase letter or digit" else
  if negb (match last (chars bucket) with Some a => bucket_alnum a | None => false end)
  then Err "bucket must end with a lowercase letter or digit" else
  if str_contains bucket ".." || str_contains bucket ".-" || str_contains bucket "-."
  then Err "bucket contains invalid dot or hyphen sequence" else
  if is_ipv4_address_like bucket then Err "bucket must not be formatted as an IPv4 address" else
  Ok tt.

(** [Option::filter] of empty values. *)
Definition non_empty (value : option str) : option str :=
  v ← value; if is_empty v then None else Some v.

Definition S3ArchiveBackendConfig_new (endpoint_url region bucket access_key_id secret_access_key : str)
    (session_token : option str) (object_lock_mode : S3ObjectLockMode) (retention_days : Z) :
    result S3BackendError S3ArchiveBackendSettings :=
  let endpoint_url := trim endpoint_url in
  let region := trim region in
  let bucket := trim bucket in
  let access_key_id := trim access_key_id in
  let secret_access_key := trim secret_access_key in
  let session_token := non_empty (trim <$> session_token) in
  if is_empty endpoint_url then Err (S3BackendError_InvalidConfig "endpoint_url is empty") else
  _ ← validate_endpoint_url endpoint_url !? S3BackendError_InvalidConfig;
  if is_empty region then Err (S3BackendError_InvalidConfig "region is empty") else
  if is_empty bucket then Err (S3BackendError_InvalidConfig "bucket is empty") else
  _ ← validate_bucket_name bucket !? S3BackendError_InvalidConfig;
  if is_empty access_key_id then Err (S3BackendError_InvalidConfig "access_key_id is empty") else
  if is_empty secret_access_key then Err (S3BackendError_InvalidConfig "secret_access_key is empty") else
  if retention_days =? 0 then Err (S3BackendError_InvalidConfig "retention_days must be > 0") else
  Ok (mk_S3ArchiveBackendSettings endpoint_url region bucket access_key_id (mk_SecretString secret_access_key)
        (mk_SecretString <$> session_token) object_lock_mode retention_days
        DEFAULT_PATH_STYLE DEFAULT_FORBID_OVERWRITE DEFAULT_MAX_RETRIES DEFAULT_RETRY_BASE_MILLIS).

Section setters.
Context (c : S3ArchiveBackendSettings).
Definition S3ArchiveBackendConfig_with_path_style (path_style : bool) : S3ArchiveBackendSettings :=
  mk_S3ArchiveBackendSettings (s3_endpoint_url c) (s3_region c) (s3_bucket c) (s3_access_key_id c)
    (s3_secret_access_key c) (s3_session_token c) (s3_object_lock_mode c) (s3_retention_days c)
    path_style (s3_forbid_overwrite c) (s3_max_retries c) (s3_retry_base_millis c).
Definition S3ArchiveBackendConfig_with_forbid_overwrite (forbid_overwrite : bool) : S3ArchiveBackendSettings :=
  mk_S3ArchiveBackendSettings (s3_endpoint_url c) (s3_region c) (s3_bucket c) (s3_access_key_id c)
    (s3_secret_access_key c) (s3_session_token c) (s3_object_lock_mode c) (s3_retention_days c)
    (s3_path_style c) forbid_overwrite (s3_max_retries c) (s3_retry_base_millis c).
Definition S3ArchiveBackendConfig_with_max_retries (max_retries : Z) : S3ArchiveBackendSettings :=
  mk_S3ArchiveBackendSettings (s3_endpoint_url c) (s3_region c) (s3_bucket c) (s3_access_key_id c)
    (s3_secret_access_key c) (s3_session_token c) (s3_object_lock_mode c) (s3_retention_days c)
    (s3_path_style c) (s3_forbid_overwrite c) max_retries (s3_retry_base_millis c).
Definition S3ArchiveBackendConfig_with_retry_base_millis (retry_base_millis : Z) : S3ArchiveBackendSettings :=
  mk_S3ArchiveBackendSettings (s3_endpoint_url c) (s3_region c) (s3_bucket c) (s3_access_key_id c)
    (s3_secret_access_key c) (s3_session_token c) (s3_object_lock_mode c) (s3_retention_days c)
    (s3_path_style c) (s3_forbid_overwrite c) (s3_max_retries c) retry_base_millis.
End setters.

Section from_env.
Context (get_var : str → option str).

Definition s3_required (name : str) : result S3ArchiveBackendConfigError str :=
  value ← ok_or (get_var name) (S3ArchiveBackendConfigError_MissingVar name);
  if is_empty (trim value) then Err (S3ArchiveBackendConfigError_InvalidValue name "value must not be empty")
  else Ok (trim value).
Definition s3_optional (name : str) : option str := non_empty (trim <$> get_var name).

Definition parse_bool_optional (name : str) : result S3ArchiveBackendConfigError (option bool) :=
  match s3_optional name with
  | None => Ok None
  | Some raw =>
      let lower := to_ascii_lowercase raw in
      if str_in lower ["true"; "1"; "yes"] then Ok (Some true)
      else if str_in lower ["false"; "0"; "no"] then Ok (Some false)
      else Err (S3ArchiveBackendConfigError_InvalidValue name "must be 'true' or 'false'")
  end.
Definition parse_u32_optional (name : str) : result S3ArchiveBackendConfigError (option Z) :=
  match s3_optional name with
  | None => Ok None
  | Some raw => Some <$> ok_or (parse_uint u32_max raw)
      (S3ArchiveBackendConfigError_InvalidValue name "must be a u32")
  end.
Definition parse_u64_optional (name : str) : result S3ArchiveBackendConfigError (option Z) :=
  match s3_optional name with
  | None => Ok None
  | Some raw => Some <$> ok_or (parse_uint u64_max raw)
      (S3ArchiveBackendConfigError_InvalidValue name "must be a u64")
  end.

Definition S3ArchiveBackendConfig_from_env : result S3ArchiveBackendConfigError S3ArchiveBackendSettings :=
  endpoint_url ← s3_required ENV_S3_ENDPOINT_URL;
  _ ← validate_endpoint_url endpoint_url !? S3ArchiveBackendConfigError_InvalidValue ENV_S3_ENDPOINT_URL;
  region ← s3_required ENV_S3_REGION;
  bucket ← s3_required ENV_S3_BUCKET;
  _ ← validate_bucket_name bucket !? S3ArchiveBackendConfigError_InvalidValue ENV_S3_BUCKET;
  access_key_id ← s3_required ENV_S3_ACCESS_KEY_ID;
  secret_access_key ← s3_required ENV_S3_SECRET_ACCESS_KEY;
  let session_token := s3_optional ENV_S3_SESSION_TOKEN in
  object_lock_mode_raw ← s3_required ENV_S3_OBJECT_LOCK_MODE;
  object_lock_mode ← S3ObjectLockMode_parse object_lock_mode_raw !? (λ error,
    S3ArchiveBackendConfigError_InvalidValue ENV_S3_OBJECT_LOCK_MODE (S3BackendError_to_string error));
  retention_days_raw ← s3_required ENV_S3_RETENTION_DAYS;
  retention_days ← ok_or (parse_uint u32_max (trim retention_days_raw))
    (S3ArchiveBackendConfigError_InvalidValue ENV_S3_RETENTION_DAYS "must be a non-negative integer");
  if retention_days =? 0
  then Err (S3ArchiveBackendConfigError_InvalidValue ENV_S3_RETENTION_DAYS "must be greater than 0") else
  path_style ← parse_bool_optional ENV_S3_PATH_STYLE;
  forbid_overwrite ← parse_bool_optional ENV_S3_FORBID_OVERWRITE;
  max_retries ← parse_u32_optional ENV_S3_MAX_RETRIES;
  retry_base_millis ← parse_u64_optional ENV_S3_RETRY_BASE_MILLIS;
  Ok (mk_S3ArchiveBackendSettings endpoint_url region bucket access_key_id (mk_SecretString secret_access_key)
        (mk_SecretString <$> session_token) object_lock_mode retention_days
        (default DEFAULT_PATH_STYLE path_style) (default DEFAULT_FORBID_OVERWRITE forbid_overwrite)
        (default DEFAULT_MAX_RETRIES max_retries) (default DEFAULT_RETRY_BASE_MILLIS retry_base_millis)).
End from_env.

(** ** Sending requests *)

Record HttpRequest := mk_HttpRequest {
  req_method : str;
  req_url : str;
  req_headers : list (str * str);
  req_body : bytes;
}.
(** [reqwest::Error], as far as the client looks at it. *)
Record ReqwestError := mk_ReqwestError {
  re_is_timeout : bool;
  re_is_connect : bool;
  re_is_request : bool;
  re_status : option Z;
  re_text : str;
}.

(** reqwest with its responses, HMAC-SHA-256, and what the client uses of [time]: the
    two formats of a UTC date and [checked_add] of a duration in nanoseconds. *)
Class S3Transport {P : Platform} := {
  HttpResponse : Type;
  response_status : HttpResponse → Z;
  http_send : HttpRequest → io World ReqwestError HttpResponse;
  response_text : HttpResponse → io World str str;
  response_bytes : HttpResponse → io World str bytes;
  hmac_sha256_mac : bytes → bytes → option bytes;
  dt_format_amz_date : DateTime → option str;
  dt_format_date_stamp : DateTime → option str;
  dt_checked_add : DateTime → Z → option DateTime;
}.

Definition s3_status_is_success (status : Z) : bool := (200 <=? status) && (status <? 300).

Section client.
Context {P : Platform} {T : S3Transport}.

(** ** Retention ([object_lock.rs]) *)

Definition LOCK_SECONDS_PER_DAY : Z := 24 * 60 * 60.
Definition retain_until_date (now : DateTime) (retention_days : Z) : result S3BackendError str :=
  days_secs ← ok_or (u_checked_mul u64_max retention_days LOCK_SECONDS_PER_DAY)
    (S3BackendError_InvalidConfig "retention_days too large");
  offset ← ok_or (time_duration_try_from (Duration_from_secs days_secs))
    (S3BackendError_InvalidConfig "retention_days overflows time::Duration");
  target ← ok_or (dt_checked_add now offset) (S3BackendError_InvalidConfig "retain_until_date overflowed");
  dt_format target !? (λ _, S3BackendError_InvalidConfig "failed to format retain_until_date").

(** ** Signing ([sigv4.rs]) *)

Definition ALGORITHM : str := "AWS4-HMAC-SHA256".
Definition AWS4_REQUEST : str := "aws4_request".
Definition SERVICE_S3 : str := "s3".

Record SignedRequest := mk_SignedRequest {
  authorization_header : str;
  content_sha256_hex : str;
  signed_amz_date : str;
}.
Record SignRequestInput := mk_SignRequestInput {
  si_method : str;
  si_canonical_uri : str;
  si_canonical_query_string : str;
  si_headers : list (str * str);
  si_payload : bytes;
  si_region : str;
  si_access_key_id : str;
  si_secret_access_key : str;
  si_amz_date : str;
  si_date_stamp : str;
}.

Definition sigv4_hmac_sha256 (key message : bytes) : result S3BackendError bytes :=
  ok_or (hmac_sha256_mac key message) (S3BackendError_InvalidConfig "hmac key construction failed").
Definition derive_signing_key (secret_access_key date_stamp region service : str) : result S3BackendError bytes :=
  let k_secret := "AWS4" +:+ secret_access_key in
  k_date ← sigv4_hmac_sha256 (as_bytes k_secret) (as_bytes date_stamp);
  k_region ← sigv4_hmac_sha256 k_date (as_bytes region);
  k_service ← sigv4_hmac_sha256 k_region (as_bytes service);
  sigv4_hmac_sha256 k_service (as_bytes AWS4_REQUEST).

Fixpoint collapse_whitespace (last_was_space : bool) (l : list ascii) : list ascii :=
  match l with
  | [] => []
  | a :: l =>
      if is_ascii_whitespace a
      then (if last_was_space then [] else [" "%char]) ++ collapse_whitespace true l
      else a :: collapse_whitespace false l
  end.
Definition trim_header_value (value : str) : str := of_chars (collapse_whitespace false (chars (trim value))).

(** A stable sort by the names. *)
Definition name_le (x y : str * str) : Prop := String.compare x.1 y.1 ≠ Gt.
#[global] Instance name_le_dec x y : Decision (name_le x y).
Proof. unfold name_le. solve_decision. Defined.
Fixpoint insert_header (x : str * str) (l : list (str * str)) : list (str * str) :=
  match l with [] => [x] | y :: l' => if decide (name_le x y) then x :: l else y :: insert_header x l' end.
Definition sort_headers (l : list (str * str)) : list (str * str) := foldr insert_header [] l.

Definition sorted_headers (headers : list (str * str)) : list (str * str) :=
  sort_headers ((λ h, (to_ascii_lowercase h.1, trim_header_value h.2)) <$> headers).
Definition header_line (h : str * str) : str := h.1 +:+ ":" +:+ h.2 +:+ newline.
Definition canonical_headers (headers : list (str * str)) : str :=
  foldr (λ h text, header_line h +:+ text) EmptyString (sorted_headers headers).
Definition signed_headers (headers : list (str * str)) : str := String.concat ";" (sorted_headers headers).*1.
Definition sigv4_canonical_request (input : SignRequestInput) : str :=
  si_method input +:+ newline +:+ si_canonical_uri input +:+ newline +:+ si_canonical_query_string input +:+ newline
  +:+ canonical_headers (si_headers input) +:+ newline +:+ signed_headers (si_headers input) +:+ newline
  +:+ hex_encode (sha256 (si_payload input)).
Definition credential_scope (input : SignRequestInput) : str :=
  si_date_stamp input +:+ "/" +:+ si_region input +:+ "/" +:+ SERVICE_S3 +:+ "/" +:+ AWS4_REQUEST.
Definition string_to_sign (input : SignRequestInput) : str :=
  ALGORITHM +:+ newline +:+ si_amz_date input +:+ newline +:+ credential_scope input +:+ newline
  +:+ hex_encode (sha256 (as_bytes (sigv4_canonical_request input))).
Definition sign (input : SignRequestInput) : result S3BackendError SignedRequest :=
  signing_key ← derive_signing_key (si_secret_access_key input) (si_date_stamp input) (si_region input) SERVICE_S3;
  mac ← sigv4_hmac_sha256 signing_key (as_bytes (string_to_sign input));
  Ok (mk_SignedRequest
        (ALGORITHM +:+ " Credential=" +:+ si_access_key_id input +:+ "/" +:+ credential_scope input
         +:+ ", SignedHeaders=" +:+ signed_headers (si_headers input) +:+ ", Signature=" +:+ hex_encode mac)
        (hex_encode (sha256 (si_payload input))) (si_amz_date input)).

(** [format!("%{:02X}", byte)]. *)
Definition hex_digit_upper (n : N) : ascii := ascii_of_N (if n <? 10 then 48 + n else 55 + n)%N.
Definition percent_encode_byte (a : ascii) : list ascii :=
  ["%"%char; hex_digit_upper (N_of_ascii a / 16)%N; hex_digit_upper (N_of_ascii a mod 16)%N].
Definition is_unreserved (a : ascii) : bool :=
  is_ascii_alphanumeric a || Ascii.eqb a "-" || Ascii.eqb a "_" || Ascii.eqb a "." || Ascii.eqb a "~".
Definition percent_encode_path_segment (key : str) : str :=
  of_chars (chars key ≫= λ a, if is_unreserved a || Ascii.eqb a "/" then [a] else percent_encode_byte a).
Definition percent_encode_query_value (value : str) : str :=
  of_chars (chars value ≫= λ a, if is_unreserved a then [a] else percent_encode_byte a).

(** ** The client ([client.rs]) *)

Definition HEADER_HOST : str := "host".
Definition HEADER_X_AMZ_DATE : str := "x-amz-date".
Definition HEADER_X_AMZ_CONTENT_SHA256 : str := "x-amz-content-sha256".
Definition HEADER_X_AMZ_SECURITY_TOKEN : str := "x-amz-security-token".
Definition HEADER_X_AMZ_OBJECT_LOCK_MODE : str := "x-amz-object-lock-mode".
Definition HEADER_X_AMZ_OBJECT_LOCK_RETAIN_UNTIL_DATE : str := "x-amz-object-lock-retain-until-date".
Definition HEADER_CONTENT_TYPE : str := "content-type".
Definition HEADER_IF_NONE_MATCH : str := "if-none-match".
Definition CONTENT_TYPE_JSON : str := "application/json".

Inductive PutOutcome := PutOutcome_Created.
Inductive HeadOutcome := HeadOutcome_Found | HeadOutcome_NotFound.
Record ListObjectsV2Output := mk_ListObjectsV2Output {
  list_keys : list str;
  next_continuation_token : option str;
}.

Record ParsedEndpoint := mk_ParsedEndpoint { pe_scheme : str; pe_host : str }.
Definition parse_endpoint (endpoint : str) : result S3BackendError ParsedEndpoint :=
  '(scheme, rest) ← ok_or (split_once_str "://" endpoint)
    (S3BackendError_InvalidConfig "endpoint_url must include scheme (http:// or https://)");
  if negb (str_in scheme ["http"; "https"])
  then Err (S3BackendError_InvalidConfig "endpoint_url scheme must be http or https") else
  if contains_char "?" rest then Err (S3BackendError_InvalidConfig "endpoint_url must not include query") else
  if contains_char "#" rest then Err (S3BackendError_InvalidConfig "endpoint_url must not include fragment") else
  let '(host_with_port, has_path) := endpoint_authority rest in
  if is_empty host_with_port then Err (S3BackendError_InvalidConfig "endpoint_url host is empty") else
  if contains_char "@" host_with_port
  then Err (S3BackendError_InvalidConfig "endpoint_url must not include userinfo") else
  if has_path then Err (S3BackendError_InvalidConfig "endpoint_url path must be empty or /") else
  Ok (mk_ParsedEndpoint scheme host_with_port).

Definition format_amz_date (now : DateTime) : result S3BackendError str :=
  ok_or (dt_format_amz_date (dt_to_utc now)) (S3BackendError_InvalidConfig "failed to format x-amz-date").
Definition format_date_stamp (now : DateTime) : result S3BackendError str :=
  ok_or (dt_format_date_stamp (dt_to_utc now)) (S3BackendError_InvalidConfig "failed to format date stamp").

Definition unescape_minimal_xml (value : str) : str :=
  str_replace "&amp;" "&" (str_replace "&apos;" "'" (str_replace "&quot;" (String quote_mark EmptyString)
    (str_replace "&gt;" ">" (str_replace "&lt;" "<" value)))).

(** The loop of [extract_xml_tags]: a round drops at least the two tags, so as many
    rounds as the text has characters are enough. *)
Fixpoint extract_loop (open close : str) (rounds : nat) (rest : str) : list str :=
  match rounds with
  | O => []
  | S rounds =>
      match split_once_str open rest with
      | None => []
      | Some (_, after_open) =>
          match split_once_str close after_open with
          | None => []
          | Some (value, rest) => unescape_minimal_xml value :: extract_loop open close rounds rest
          end
      end
  end.
Definition open_tag (tag : str) : str := "<" +:+ tag +:+ ">".
Definition close_tag (tag : str) : str := "</" +:+ tag +:+ ">".
Definition extract_xml_tags (xml tag : str) : list str :=
  extract_loop (open_tag tag) (close_tag tag) (String.length xml) xml.
Definition parse_list_objects_v2_response (xml : str) : result S3BackendError ListObjectsV2Output :=
  let keys := extract_xml_tags xml "Key" in
  let next_continuation_token := head (extract_xml_tags xml "NextContinuationToken") in
  Ok (mk_ListObjectsV2Output keys next_continuation_token).

Definition classify_failure_status (status : Z) : result S3BackendError PutOutcome :=
  if (status =? 401) || (status =? 403) then Err S3BackendError_Unauthenticated
  else if status =? 412 then Err S3BackendError_OverwriteRejected
  else if status =? 404 then Err S3BackendError_NotFound
  else if (status =? 408) || (status =? 429) then Err (S3BackendError_ServerError status)
  else if (500 <=? status) && (status <=? 599) then Err (S3BackendError_ServerError status)
  else Err (S3BackendError_Unexpected status).
Definition classify_reqwest_error (error : ReqwestError) : S3BackendError :=
  if re_is_timeout error || re_is_connect error || re_is_request error then S3BackendError_Network (re_text error)
  else match re_status error with
    | Some status =>
        match classify_failure_status status with
        | Err classified => classified
        | Ok _ => S3BackendError_Unexpected status
        end
    | None => S3BackendError_Network (re_text error)
    end.

Context (config : S3ArchiveBackendSettings).

Definition endpoint : str := trim_end_matches "/" (s3_endpoint_url config).
Definition S3HttpClient_build_url_and_host (object_key : str) : result S3BackendError (str * str) :=
  parsed ← parse_endpoint endpoint;
  let encoded_key := percent_encode_path_segment object_key in
  if s3_path_style config
  then Ok (endpoint +:+ "/" +:+ s3_bucket config +:+ "/" +:+ encoded_key, pe_host parsed)
  else let host_with_bucket := s3_bucket config +:+ "." +:+ pe_host parsed in
    Ok (pe_scheme parsed +:+ "://" +:+ host_with_bucket +:+ "/" +:+ encoded_key, host_with_bucket).
Definition S3HttpClient_canonical_uri (object_key : str) : str :=
  let encoded_key := percent_encode_path_segment object_key in
  if s3_path_style config then "/" +:+ s3_bucket config +:+ "/" +:+ encoded_key else "/" +:+ encoded_key.
Definition S3HttpClient_build_list_url_and_signing_parts (continuation_token : option str) :
    result S3BackendError (str * str * str * str) :=
  parsed ← parse_endpoint endpoint;
  let canonical_query_string := match continuation_token with
    | Some token => "continuation-token=" +:+ percent_encode_query_value token +:+ "&list-type=2"
    | None => "list-type=2"
    end in
  if s3_path_style config
  then Ok (endpoint +:+ "/" +:+ s3_bucket config +:+ "?" +:+ canonical_query_string, pe_host parsed,
           "/" +:+ s3_bucket config, canonical_query_string)
  else let host_with_bucket := s3_bucket config +:+ "." +:+ pe_host parsed in
    Ok (pe_scheme parsed +:+ "://" +:+ host_with_bucket +:+ "/?" +:+ canonical_query_string, host_with_bucket,
        "/", canonical_query_string).

(** What the operations share: the headers of every request, and the request with
    its signature. *)
Definition base_headers (host amz_date : str) (body : bytes) : list (str * str) :=
  [(HEADER_HOST, host); (HEADER_X_AMZ_DATE, amz_date); (HEADER_X_AMZ_CONTENT_SHA256, hex_encode (sha256 body))].
Definition token_headers : list (str * str) :=
  match s3_session_token config with
  | Some token => [(HEADER_X_AMZ_SECURITY_TOKEN, expose token)]
  | None => []
  end.
Definition signed_request (method url canonical_uri canonical_query_string amz_date date_stamp : str)
    (headers : list (str * str)) (body : bytes) : result S3BackendError HttpRequest :=
  signed ← sign (mk_SignRequestInput method canonical_uri canonical_query_string headers body (s3_region config)
    (s3_access_key_id config) (expose (s3_secret_access_key config)) amz_date date_stamp);
  Ok (mk_HttpRequest method url (headers ++ [("Authorization", authorization_header signed)]) body).

Definition put_headers (host amz_date retain_until : str) (body : bytes) : list (str * str) :=
  base_headers host amz_date body
  ++ [(HEADER_CONTENT_TYPE, CONTENT_TYPE_JSON);
      (HEADER_X_AMZ_OBJECT_LOCK_MODE, S3ObjectLockMode_as_header_value (s3_object_lock_mode config));
      (HEADER_X_AMZ_OBJECT_LOCK_RETAIN_UNTIL_DATE, retain_until)]
  ++ (if s3_forbid_overwrite config then [(HEADER_IF_NONE_MATCH, "*")] else [])
  ++ token_headers.
Definition put_request (object_key : str) (body : bytes) (now : DateTime) : result S3BackendError HttpRequest :=
  '(url, host) ← S3HttpClient_build_url_and_host object_key;
  let canonical_uri := S3HttpClient_canonical_uri object_key in
  amz_date ← format_amz_date now;
  date_stamp ← format_date_stamp now;
  retain_until ← retain_until_date now (s3_retention_days config);
  signed_request "PUT" url canonical_uri EmptyString amz_date date_stamp (put_headers host amz_date retain_until body) body.
(** A request for an object, without a body: [HEAD] or [GET]. *)
Definition object_request (method object_key : str) (now : DateTime) : result S3BackendError HttpRequest :=
  '(url, host) ← S3HttpClient_build_url_and_host object_key;
  let canonical_uri := S3HttpClient_canonical_uri object_key in
  amz_date ← format_amz_date now;
  date_stamp ← format_date_stamp now;
  signed_request method url canonical_uri EmptyString amz_date date_stamp
    (base_headers host amz_date [] ++ token_headers) [].
Definition list_request (continuation_token : option str) (now : DateTime) : result S3BackendError HttpRequest :=
  '(url, host, canonical_uri, canonical_query_string) ← S3HttpClient_build_list_url_and_signing_parts continuation_token;
  amz_date ← format_amz_date now;
  date_stamp ← format_date_stamp now;
  signed_request "GET" url canonical_uri canonical_query_string amz_date date_stamp
    (base_headers host amz_date [] ++ token_headers) [].

Definition S3HttpClient_put_object (object_key : str) (body : bytes) (now : DateTime) :
    io World S3BackendError PutOutcome :=
  request ← lift (put_request object_key body now);
  response ← http_send request !?? classify_reqwest_error;
  let status := response_status response in
  if s3_status_is_success status then mret PutOutcome_Created else lift (classify_failure_status status).
Definition S3HttpClient_head_object (object_key : str) (now : DateTime) : io World S3BackendError HeadOutcome :=
  request ← lift (object_request "HEAD" object_key now);
  response ← http_send request !?? classify_reqwest_error;
  let status := response_status response in
  if s3_status_is_success status then mret HeadOutcome_Found else
  if status =? 404 then mret HeadOutcome_NotFound else
  lift ((λ _, HeadOutcome_Found) <$> classify_failure_status status).
Definition S3HttpClient_get_object_bytes (object_key : str) (now : DateTime) :
    io World S3BackendError (option bytes) :=
  request ← lift (object_request "GET" object_key now);
  response ← http_send request !?? classify_reqwest_error;
  let status := response_status response in
  if s3_status_is_success status then
    body ← response_bytes response !?? S3BackendError_ResponseRead; mret (Some body) else
  if status =? 404 then mret None else
  lift ((λ _, None) <$> classify_failure_status status).
Definition list_failure_status (status : Z) : S3BackendError :=
  if (status =? 401) || (status =? 403) then S3BackendError_Unauthenticated
  else if (status =? 408) || (status =? 429) then S3BackendError_ServerError status
  else if (500 <=? status) && (status <=? 599) then S3BackendError_ServerError status
  else S3BackendError_Unexpected status.
Definition S3HttpClient_list_objects_v2 (continuation_token : option str) (now : DateTime) :
    io World S3BackendError ListObjectsV2Output :=
  request ← lift (list_request continuation_token now);
  response ← http_send request !?? classify_reqwest_error;
  let status := response_status response in
  if s3_status_is_success status then
    text ← response_text response !?? S3BackendError_ResponseRead; lift (parse_list_objects_v2_response text) else
  lift (Err (list_failure_status status)).

(** The client as the interface of the archive backend; [sleep] is the timer. *)
Definition s3_http_client (sleep : Z → World → World) : S3Http := {|
  s3_put_object key body now := _ ← S3HttpClient_put_object key body now; mret tt;
  s3_get_object_bytes key now := S3HttpClient_get_object_bytes key now;
  s3_head_object key now := outcome ← S3HttpClient_head_object key now;
    mret (match outcome with HeadOutcome_Found => true | HeadOutcome_NotFound => false end);
  s3_list_objects_v2 token now := page ← S3HttpClient_list_objects_v2 token now;
    mret (list_keys page, next_continuation_token page);
  tokio_sleep := sleep |}.
End client.

(** ** Lemmas on strings *)

Lemma elem_of_bool_chars c s : contains_char c s = false ↔ c ∉ chars s.
Proof. apply bool_decide_eq_false. Qed.

Lemma sep_inj (c : ascii) k k' x y : c ∉ k → c ∉ k' → k ++ c :: x = k' ++ c :: y → k = k' ∧ x = y.
Proof.
  revert k'. induction k as [|a k IH]; intros [|b k'] Hk Hk' H; simpl in H.
  - by injection H.
  - injection H as -> _. set_solver.
  - injection H as <- _. set_solver.
  - apply not_elem_of_cons in Hk as [_ Hk], Hk' as [_ Hk']. injection H as -> H. by apply IH in H as [-> ->].
Qed.

Lemma split_once_Some c s before after :
  split_once c s = Some (before, after) → s = before +:+ String c after ∧ c ∉ chars before.
Proof.
  revert before. induction s as [|a s IH]; intros before; simpl; [done|].
  destruct (Ascii.eqb_spec a c) as [->|Ha]; [intros [= <- <-]; split; [done|apply not_elem_of_nil]|].
  intros ([b r] & Hs & [= <- <-])%bind_Some. apply IH in Hs as [-> Hc]. split; [done|].
  simpl. by apply not_elem_of_cons.
Qed.
Lemma split_once_None c s : split_once c s = None → c ∉ chars s.
Proof.
  induction s as [|a s IH]; simpl; [intros _; apply not_elem_of_nil|].
  destruct (Ascii.eqb_spec a c) as [->|Ha]; [done|]. destruct (split_once c s) as [[]|]; [done|].
  intros _. apply not_elem_of_cons. split; [done|by apply IH].
Qed.

Lemma split_once_str_Some pat s before after :
  split_once_str pat s = Some (before, after) → s = before +:+ pat +:+ after.
Proof.
  revert before. induction s as [|a s IH]; intros before.
  - cbn [split_once_str]. destruct (strip_prefix pat EmptyString) eqn:Hp; [|done].
    intros [= <- <-]. by apply strip_prefix_Some in Hp.
  - cbn [split_once_str]. destruct (strip_prefix pat (String a s)) eqn:Hp.
    + intros [= <- <-]. by apply strip_prefix_Some in Hp.
    + intros ([b r] & Hs & [= <- <-])%bind_Some. apply IH in Hs as ->. done.
Qed.

(** The first match is not moved by what follows it. *)
Lemma split_once_str_extend pat g rest :
  split_once_str pat (g +:+ pat) = Some (g, EmptyString) →
  split_once_str pat (g +:+ pat +:+ rest) = Some (g, rest).
Proof.
  assert (∀ s, strip_prefix pat (pat +:+ s) = Some s) as Hpre by apply strip_prefix_app.
  induction g as [|a g IH]; simpl.
  - intros _. destruct (pat +:+ rest) eqn:E; simpl; rewrite -?E Hpre //.
  - destruct (strip_prefix pat (String a (g +:+ pat))) as [after|] eqn:Hp; [done|].
    intros ([b r] & Hs & [= -> ->])%bind_Some. rewrite IH //.
    destruct (strip_prefix pat (String a (g +:+ pat +:+ rest))) as [after|] eqn:Hq; [|done].
    exfalso. apply strip_prefix_Some in Hq.
    (* a match that starts before the tag would end within it *)
    apply (f_equal chars) in Hq. assert (strip_prefix pat (String a (g +:+ pat)) ≠ None) as Hn; [|by rewrite Hp in Hn].
    assert (chars pat `prefix_of` chars (String a (g +:+ pat))) as [k Hk].
    { destruct (prefix_weak_total (chars pat) (chars (String a (g +:+ pat))) (chars (String a (g +:+ pat +:+ rest)))) as [Hx|Hx].
      - exists (chars after). by rewrite Hq chars_app.
      - exists (chars rest). change (chars (String a (g +:+ pat +:+ rest))) with (a :: chars (g +:+ pat +:+ rest)).
        change (chars (String a (g +:+ pat))) with (a :: chars (g +:+ pat)). rewrite !chars_app. cbn [app]. by rewrite -app_assoc.
      - done.
      - apply prefix_length in Hx. change (chars (String a (g +:+ pat))) with (a :: chars (g +:+ pat)) in Hx.
        rewrite chars_app in Hx. cbn [length] in Hx. rewrite length_app in Hx. lia. }
    assert (String a (g +:+ pat) = pat +:+ of_chars k) as Heq by (apply chars_inj; by rewrite chars_app chars_of_chars).
    by rewrite Heq Hpre.
Qed.

(** A pattern is not found before the first place its first character occurs at. *)
Lemma split_once_str_skip c p k rest :
  c ∉ chars k → split_once_str (String c p) (k +:+ String c p +:+ rest) = Some (k, rest).
Proof.
  induction k as [|a k IH]; intros Hc.
  - simpl. by rewrite Ascii.eqb_refl strip_prefix_app.
  - simpl in Hc. apply not_elem_of_cons in Hc as [Ha Hc]. simpl.
    destruct (Ascii.eqb_spec c a) as [->|_]; [done|]. by rewrite IH.
Qed.

Lemma drop_while_char_stop c a l : a ≠ c → drop_while_char c (a :: l) = a :: l.
Proof. intros Ha. simpl. by destruct (Ascii.eqb_spec a c). Qed.
Lemma trim_end_matches_stop c p k : k ≠ EmptyString → c ∉ chars k → trim_end_matches c (p +:+ k) = p +:+ k.
Proof.
  intros Hk Hc. assert (chars k ≠ []) as Hk' by (intros E; apply Hk; apply chars_inj; by rewrite E).
  destruct (exists_last Hk') as (l & b & Hb). unfold trim_end_matches. rewrite chars_app Hb app_assoc rev_unit.
  rewrite drop_while_char_stop; [|intros ->; apply Hc; rewrite Hb; set_solver].
  by rewrite -rev_unit rev_involutive -app_assoc -Hb -chars_app of_chars_chars.
Qed.
Lemma trim_end_matches_one c s : trim_end_matches c (s +:+ String c EmptyString) = trim_end_matches c s.
Proof.
  unfold trim_end_matches. rewrite chars_app. cbn [chars list_ascii_of_string]. rewrite rev_unit. simpl.
  by rewrite Ascii.eqb_refl.
Qed.

(** ** Percent encoding *)

Definition hex_digit_value (a : ascii) : option N :=
  if is_ascii_digit a then Some (N_of_ascii a - 48)%N
  else if between 65 70 a then Some (N_of_ascii a - 55)%N
  else if between 97 102 a then Some (N_of_ascii a - 87)%N
  else None.
(** What a server reads: an escape is the byte of its two digits. *)
Fixpoint percent_decode (l : list ascii) : list ascii :=
  match l with
  | [] => []
  | c :: l1 =>
      match l1 with
      | a :: b :: l2 =>
          if Ascii.eqb c "%" then
            match hex_digit_value a, hex_digit_value b with
            | Some m, Some n => ascii_of_N (16 * m + n) :: percent_decode l2
            | _, _ => c :: percent_decode l1
            end
          else c :: percent_decode l1
      | _ => c :: percent_decode l1
      end
  end.

Lemma percent_decode_byte a l : percent_decode (percent_encode_byte a ++ l) = a :: percent_decode l.
Proof. by destruct a as [[] [] [] [] [] [] [] []]. Qed.
Lemma percent_decode_plain a l : a ≠ "%"%char → percent_decode (a :: l) = a :: percent_decode l.
Proof. intros Ha. simpl. destruct l as [|? [|? ?]]; [done|done|]. by destruct (Ascii.eqb_spec a "%"). Qed.
Lemma percent_decode_encode (keep : ascii → bool) l :
  keep "%"%char = false →
  percent_decode (l ≫= λ a, if keep a then [a] else percent_encode_byte a) = l.
Proof.
  intros Hk. induction l as [|a l IH]; [done|]. cbn [mbind list_bind]. destruct (keep a) eqn:Ha.
  - cbn [app]. rewrite percent_decode_plain; [by f_equal|]. intros ->. by rewrite Hk in Ha.
  - rewrite percent_decode_byte. by f_equal.
Qed.

(** A character of a path or a query that is neither white space nor a control one. *)
Definition url_char (a : ascii) : bool := is_unreserved a || Ascii.eqb a "/" || Ascii.eqb a "%".
Lemma percent_encode_byte_chars a : Forall (λ b, url_char b = true) (percent_encode_byte a).
Proof. destruct a as [[] [] [] [] [] [] [] []]; repeat constructor. Qed.
Lemma percent_encode_chars (keep : ascii → bool) l :
  (∀ a, keep a = true → url_char a = true) →
  Forall (λ b, url_char b = true) (l ≫= λ a, if keep a then [a] else percent_encode_byte a).
Proof.
  intros Hk. induction l as [|a l IH]; [constructor|]. cbn [mbind list_bind]. apply Forall_app. split; [|done].
  destruct (keep a) eqn:Ha; [constructor; [by apply Hk|done]|apply percent_encode_byte_chars].
Qed.
Lemma url_char_no_lf l : Forall (λ b, url_char b = true) l → line_feed ∉ l.
Proof. intros H Hl. rewrite Forall_forall in H. by apply H in Hl. Qed.

(** ** Validated settings *)

Lemma str_in_true s l : str_in s l = true ↔ s ∈ l.
Proof. apply bool_decide_eq_true. Qed.

(** An accepted endpoint is a scheme, an authority without slash, and at most one
    slash after it. *)
Lemma validate_endpoint_url_Ok endpoint_url :
  validate_endpoint_url endpoint_url = Ok tt →
  ∃ scheme authority slash,
    endpoint_url = scheme +:+ "://" +:+ authority +:+ slash ∧ scheme ∈ ["http"; "https"] ∧ slash ∈ [EmptyString; "/"]
    ∧ authority ≠ EmptyString ∧ Forall (λ c, c ∉ chars authority) ["?"; "#"; "@"; "/"]%char.
Proof.
  unfold validate_endpoint_url. intros ([scheme rest] & Hs%ok_or_Ok%split_once_str_Some & H)%result_bind_Ok.
  destruct (str_in scheme _) eqn:Hscheme; [|done]. apply str_in_true in Hscheme. cbn [negb] in H.
  destruct (contains_char "?" rest) eqn:Hq; [done|]. apply elem_of_bool_chars in Hq.
  destruct (contains_char "#" rest) eqn:Hh; [done|]. apply elem_of_bool_chars in Hh.
  destruct (endpoint_authority rest) as [authority has_path] eqn:Ha.
  destruct (is_empty authority) eqn:He; [done|]. apply is_empty_false in He.
  destruct (contains_char "@" authority) eqn:Hat; [done|]. apply elem_of_bool_chars in Hat.
  destruct has_path; [done|]. unfold endpoint_authority in Ha.
  destruct (split_once "/" rest) as [[authority' path]|] eqn:Hsp.
  - injection Ha as <- Hp. apply negb_false_iff, is_empty_true in Hp as ->. apply split_once_Some in Hsp as [-> Hsl].
    rewrite chars_app in Hq, Hh. exists scheme, authority', "/". split_and!; [done|done|set_solver|done|].
    repeat constructor; set_solver.
  - injection Ha as <-. apply split_once_None in Hsp. exists scheme, rest, EmptyString. split_and!; [|done|set_solver|done|].
    + rewrite Hs. do 2 f_equal. apply chars_inj. rewrite chars_app. by rewrite app_nil_r.
    + repeat constructor; done.
Qed.

Lemma parse_endpoint_url scheme authority :
  scheme ∈ ["http"; "https"] → authority ≠ EmptyString → Forall (λ c, c ∉ chars authority) ["?"; "#"; "@"; "/"]%char →
  parse_endpoint (scheme +:+ "://" +:+ authority) = Ok (mk_ParsedEndpoint scheme authority).
Proof.
  intros Hs Ha Hc. repeat (apply Forall_cons in Hc as [? Hc]).
  assert (split_once_str "://" (scheme +:+ "://" +:+ authority) = Some (scheme, authority)) as E.
  { apply split_once_str_skip. apply list_elem_of_In in Hs as [<-|[<-|[]]]; vm_compute; set_solver. }
  unfold parse_endpoint. rewrite E. cbn [ok_or mbind result_bind]. rewrite (proj2 (str_in_true _ _) Hs). cbn [negb].
  repeat (rewrite (proj2 (elem_of_bool_chars _ authority)); [|done]). unfold endpoint_authority.
  assert (split_once "/" authority = None) as ->.
  { destruct (split_once "/" authority) as [[]|] eqn:Hsp; [|done]. apply split_once_Some in Hsp as [-> _].
    rewrite chars_app in H2. set_solver. }
  rewrite (proj2 (is_empty_false authority)) //. by repeat (rewrite (proj2 (elem_of_bool_chars _ authority)); [|done]).
Qed.

(** An endpoint that is accepted when the settings are made is accepted when they
    are used, and is the scheme and the host it is read as. *)
Lemma validated_endpoint_parses config :
  validate_endpoint_url (s3_endpoint_url config) = Ok tt →
  ∃ p, parse_endpoint (endpoint config) = Ok p ∧ endpoint config = pe_scheme p +:+ "://" +:+ pe_host p.
Proof.
  intros (scheme & authority & slash & Hu & Hs & Hsl & Ha & Hc)%validate_endpoint_url_Ok.
  assert (endpoint config = scheme +:+ "://" +:+ authority) as He.
  { unfold endpoint. rewrite Hu. assert ("/"%char ∉ chars authority) by (by repeat (apply Forall_cons in Hc as [? Hc])).
    assert (∀ x y z : str, x +:+ y +:+ z = (x +:+ y) +:+ z) as Has
      by (intros; apply chars_inj; rewrite !chars_app; apply app_assoc).
    apply list_elem_of_In in Hsl as [<-|[<-|[]]].
    - rewrite Has Has. assert (∀ x : str, x +:+ EmptyString = x) as -> by (intros; apply chars_inj; rewrite chars_app; apply app_nil_r).
      by rewrite trim_end_matches_stop // -Has.
    - rewrite !Has trim_end_matches_one. by rewrite trim_end_matches_stop // -Has. }
  exists (mk_ParsedEndpoint scheme authority). rewrite He. split; [by apply parse_endpoint_url|done].
Qed.

Record settings_valid (c : S3ArchiveBackendSettings) : Prop := {
  valid_endpoint : validate_endpoint_url (s3_endpoint_url c) = Ok tt;
  valid_bucket : validate_bucket_name (s3_bucket c) = Ok tt;
  valid_region : s3_region c ≠ EmptyString;
  valid_credentials : s3_access_key_id c ≠ EmptyString ∧ expose (s3_secret_access_key c) ≠ EmptyString;
  valid_session_token : s3_session_token c ≠ Some (mk_SecretString EmptyString);
  valid_retention : s3_retention_days c ≠ 0;
}.

Lemma non_empty_Some o : non_empty o ≠ Some EmptyString.
Proof. destruct o as [v|]; [|done]. simpl. destruct (is_empty v) eqn:E; [done|]. apply is_empty_false in E. naive_solver. Qed.

Lemma session_token_valid o : mk_SecretString <$> non_empty o ≠ Some (mk_SecretString EmptyString).
Proof. pose proof (non_empty_Some o) as Ho. destruct (non_empty o); cbn; naive_solver. Qed.

Lemma new_valid e r b a k t m d c : S3ArchiveBackendConfig_new e r b a k t m d = Ok c → settings_valid c.
Proof.
  unfold S3ArchiveBackendConfig_new. cbv zeta. intros H.
  destruct (is_empty (trim e)) eqn:?; [done|]. apply result_bind_Ok in H as ([] & He%map_err_Ok & H).
  destruct (is_empty (trim r)) eqn:Hr; [done|]. destruct (is_empty (trim b)) eqn:?; [done|].
  apply result_bind_Ok in H as ([] & Hb%map_err_Ok & H).
  destruct (is_empty (trim a)) eqn:Ha; [done|]. destruct (is_empty (trim k)) eqn:Hk; [done|].
  destruct (d =? 0) eqn:Hd; [done|]. injection H as <-. apply is_empty_false in Hr, Ha, Hk. b2p.
  constructor; cbn; [done..|apply session_token_valid|done].
Qed.

Lemma s3_required_Ok get_var name v :
  s3_required get_var name = Ok v → ∃ raw, get_var name = Some raw ∧ v = trim raw ∧ is_empty (trim raw) = false.
Proof.
  unfold s3_required. intros (raw & Hr%ok_or_Ok & H)%result_bind_Ok. destruct (is_empty (trim raw)) eqn:E; [done|].
  injection H as <-. eauto.
Qed.

Lemma new_accepts e r b a k t m d :
  is_empty (trim e) = false → validate_endpoint_url (trim e) = Ok tt → is_empty (trim r) = false →
  is_empty (trim b) = false → validate_bucket_name (trim b) = Ok tt → is_empty (trim a) = false →
  is_empty (trim k) = false → d =? 0 = false →
  S3ArchiveBackendConfig_new e r b a k t m d
  = Ok (mk_S3ArchiveBackendSettings (trim e) (trim r) (trim b) (trim a) (mk_SecretString (trim k))
          (mk_SecretString <$> non_empty (trim <$> t)) m d
          DEFAULT_PATH_STYLE DEFAULT_FORBID_OVERWRITE DEFAULT_MAX_RETRIES DEFAULT_RETRY_BASE_MILLIS).
Proof. unfold S3ArchiveBackendConfig_new. cbv zeta. by intros -> -> -> -> -> -> -> ->. Qed.

(** Settings read from the environment are those the constructor makes of the same
    texts, with the four optional values replaced: they pass the same checks, so the
    archive never starts with an endpoint, a bucket or a retention the constructor
    refuses. *)
Theorem environment_settings_are_constructed get_var c :
  S3ArchiveBackendConfig_from_env get_var = Ok c →
  settings_valid c
  ∧ ∃ e r b a k mode_text days_text mode days base,
      get_var ENV_S3_ENDPOINT_URL = Some e ∧ get_var ENV_S3_REGION = Some r ∧ get_var ENV_S3_BUCKET = Some b
      ∧ get_var ENV_S3_ACCESS_KEY_ID = Some a ∧ get_var ENV_S3_SECRET_ACCESS_KEY = Some k
      ∧ get_var ENV_S3_OBJECT_LOCK_MODE = Some mode_text ∧ S3ObjectLockMode_parse (trim mode_text) = Ok mode
      ∧ get_var ENV_S3_RETENTION_DAYS = Some days_text ∧ parse_uint u32_max (trim (trim days_text)) = Some days
      ∧ S3ArchiveBackendConfig_new e r b a k (get_var ENV_S3_SESSION_TOKEN) mode days = Ok base
      ∧ c = S3ArchiveBackendConfig_with_retry_base_millis
              (S3ArchiveBackendConfig_with_max_retries
                (S3ArchiveBackendConfig_with_forbid_overwrite
                  (S3ArchiveBackendConfig_with_path_style base (s3_path_style c)) (s3_forbid_overwrite c))
                (s3_max_retries c)) (s3_retry_base_millis c).
Proof.
  intros H. unfold S3ArchiveBackendConfig_from_env in H. cbv zeta in H.
  repeat match type of H with mbind _ _ = _ => apply result_bind_Ok in H as (? & ? & H) end.
  case_if; [done|].
  repeat match type of H with mbind _ _ = _ => apply result_bind_Ok in H as (? & ? & H) end.
  injection H as <-.
  repeat select (s3_required _ _ = Ok _) (fun H => apply s3_required_Ok in H as (? & ? & -> & ?)).
  repeat select (unit) (fun u => destruct u).
  repeat select (map_err _ _ = Ok _) (fun H => apply map_err_Ok in H).
  select (ok_or _ _ = Ok _) (fun H => apply ok_or_Ok in H).
  split.
  - constructor; cbn; [done..|by apply is_empty_false|split; by apply is_empty_false|apply session_token_valid|by b2p].
  - do 10 eexists. split_and!; [done..|by apply new_accepts|reflexivity].
Qed.

(** ** The text that is signed *)

Lemma name_le_total x y : ¬ name_le x y → name_le y x.
Proof.
  unfold name_le. intros H%dec_stable. rewrite String.compare_antisym H. done.
Qed.
#[global] Instance name_le_trans : Transitive name_le.
Proof.
  intros [x ?] [y ?] [z ?]. unfold name_le. cbn. intros Hxy Hyz.
  destruct (String.compare x y) eqn:Exy; [|clear Hxy|done].
  { apply str_compare_eq in Exy as ->. done. }
  destruct (String.compare y z) eqn:Eyz; [|clear Hyz|done].
  { apply str_compare_eq in Eyz as ->. by rewrite Exy. }
  assert (str_lt x z) as Hxz by (by eapply str_lt_trans). by rewrite Hxz.
Qed.
Lemma name_le_antisymm x y : name_le x y → name_le y x → x.1 = y.1.
Proof.
  unfold name_le. intros Hxy. rewrite String.compare_antisym. destruct (String.compare x.1 y.1) eqn:E; [|done..].
  intros _. by apply str_compare_eq in E.
Qed.

Lemma insert_header_perm x l : insert_header x l ≡ₚ x :: l.
Proof. induction l as [|y l IH]; simpl; [done|]. destruct (decide _); [done|]. rewrite IH. constructor. Qed.
Lemma sort_headers_perm l : sort_headers l ≡ₚ l.
Proof. induction l as [|x l IH]; simpl; [done|]. by rewrite insert_header_perm IH. Qed.
Lemma insert_header_sorted x l : StronglySorted name_le l → StronglySorted name_le (insert_header x l).
Proof.
  induction 1 as [|y l Hs IH Hy]; simpl; [repeat constructor|]. destruct (decide _) as [Hxy|Hxy].
  - constructor; [by constructor|]. constructor; [done|]. eapply Forall_impl; [done|]. intros z ?. by etrans.
  - constructor; [done|]. rewrite insert_header_perm. constructor; [by apply name_le_total|done].
Qed.
Lemma sort_headers_sorted l : StronglySorted name_le (sort_headers l).
Proof. induction l; simpl; [constructor|by apply insert_header_sorted]. Qed.

(** Sorting forgets the order the headers are given in. *)
Lemma sort_headers_unique l k : NoDup l.*1 → l ≡ₚ k → sort_headers l = sort_headers k.
Proof.
  intros Hnd Hp. assert (Hl : sort_headers l ≡ₚ sort_headers k) by (by rewrite !sort_headers_perm).
  assert (NoDup (sort_headers l).*1) as Hnd' by (by rewrite sort_headers_perm).
  pose proof (sort_headers_sorted l) as Hs. pose proof (sort_headers_sorted k) as Hs'.
  generalize dependent (sort_headers k). generalize dependent (sort_headers l). clear.
  induction 2 as [|x l Hs IH Hx]; intros k Hp Hk; [by apply Permutation_nil_l in Hp|].
  destruct k as [|y k]; [by apply Permutation_nil_r in Hp|].
  apply StronglySorted_inv in Hk as [Hk Hy]. cbn in Hnd'. apply NoDup_cons in Hnd' as [Hxl Hnd].
  assert (x = y) as <-.
  { assert (x ∈ y :: k) as [->|Hxk]%elem_of_cons by (rewrite -Hp; by left); [done|].
    assert (y ∈ x :: l) as [->|Hyl]%elem_of_cons by (rewrite Hp; by left); [done|].
    rewrite Forall_forall in Hx. rewrite Forall_forall in Hy.
    destruct Hxl. rewrite (name_le_antisymm x y); [by apply list_elem_of_fmap_2|by apply Hx|by apply Hy]. }
  f_equal. apply IH; [done|by apply Permutation_cons_inv in Hp|done].
Qed.

Lemma collapse_no_lf b l : line_feed ∉ collapse_whitespace b l.
Proof.
  revert b. induction l as [|a l IH]; intros b; simpl; [apply not_elem_of_nil|].
  destruct (is_ascii_whitespace a) eqn:Ha.
  - apply not_elem_of_app. split; [|done]. destruct b; [apply not_elem_of_nil|].
    apply not_elem_of_cons. split; [by vm_compute|apply not_elem_of_nil].
  - apply not_elem_of_cons. split; [|done]. intros <-. done.
Qed.

(** What a name of a header is: not empty, without a colon and without a line feed. *)
Definition header_name (name : str) : Prop :=
  name ≠ EmptyString ∧ ":"%char ∉ chars name ∧ line_feed ∉ chars name.
Lemma ascii_to_lower_other a b : ascii_to_lower a = b → is_ascii_lowercase b = false → a = b.
Proof. intros <-. by destruct a as [[] [] [] [] [] [] [] []]. Qed.
Lemma header_name_lower name : header_name name → header_name (to_ascii_lowercase name).
Proof.
  unfold header_name, to_ascii_lowercase. intros (Hn & Hc & Hl).
  assert (∀ c, is_ascii_lowercase c = false → c ∉ chars name → c ∉ chars (of_chars (ascii_to_lower <$> chars name))) as Hlow.
  { intros c Hlc Hcn. rewrite chars_of_chars. intros (a & -> & Ha)%list_elem_of_fmap.
    apply Hcn. by rewrite -(ascii_to_lower_other a _ eq_refl Hlc). }
  split_and!; [|by apply Hlow..]. destruct name; [done|]. done.
Qed.

Definition header_normal (h : str * str) : Prop := header_name h.1 ∧ line_feed ∉ chars h.2.
Definition normalize_header (h : str * str) : str * str := (to_ascii_lowercase h.1, trim_header_value h.2).

Lemma sorted_headers_normal headers :
  Forall (λ h, header_name h.1) headers → Forall header_normal (sorted_headers headers).
Proof.
  intros H. unfold sorted_headers. rewrite sort_headers_perm Forall_fmap. eapply Forall_impl; [done|].
  intros [n v] Hn. split; [by apply header_name_lower|]. cbn [fst snd]. unfold trim_header_value. rewrite chars_of_chars. apply collapse_no_lf.
Qed.

(** The block of header lines ends at its first empty line. *)
Lemma header_block_inj l k x y :
  Forall header_normal l → Forall header_normal k →
  chars (foldr (λ h text, header_line h +:+ text) EmptyString l) ++ line_feed :: x
  = chars (foldr (λ h text, header_line h +:+ text) EmptyString k) ++ line_feed :: y →
  l = k ∧ x = y.
Proof.
  assert (∀ h z, chars (header_line h +:+ z) = chars h.1 ++ ":"%char :: chars h.2 ++ line_feed :: chars z) as Hline.
  { intros h z. unfold header_line. rewrite !chars_app. cbn [chars list_ascii_of_string app]. rewrite -app_assoc. cbn [app]. by rewrite -app_assoc. }
  assert (∀ h z x0 x1, header_normal h → line_feed :: x0 ≠ chars (header_line h +:+ z) ++ x1) as Hend.
  { intros [n v] z x0 x1 [(Hn & _ & Hlf) _]. rewrite Hline. cbn in *. destruct n as [|a n]; [done|].
    simpl in Hlf. intros E. injection E as <- _. set_solver. }
  intros Hl. revert k. induction Hl as [|h l Hh Hl IH]; intros [|h' k] Hk; cbn [foldr].
  - intros [= ->]. done.
  - intros E. apply Forall_cons in Hk as [Hh' _]. by apply Hend in E.
  - intros E. symmetry in E. by apply Hend in E.
  - apply Forall_cons in Hk as [Hh' Hk]. rewrite !Hline.
    destruct Hh as [(_ & Hc & _) Hv], Hh' as [(_ & Hc' & _) Hv'].
    rewrite -!app_assoc. cbn [app]. rewrite -!app_assoc. cbn [app]. intros (En & E)%sep_inj; [|done..].
    apply sep_inj in E as [Ev E]; [|done..]. apply IH in E as [-> ->]; [|done]. split; [|done].
    f_equal. apply chars_inj in En, Ev. destruct h, h'; simpl in *; congruence.
Qed.

Section signing.
Context {P : Platform} {T : S3Transport} {LH : HexLaws P}.

Lemma hex_encode_no_lf b : line_feed ∉ chars (hex_encode b).
Proof. pose proof (hex_encode_lower b) as H. rewrite Forall_forall in H. intros Hl. by apply H in Hl as [Hl _]. Qed.

Record signable (i : SignRequestInput) : Prop := {
  signable_lines : line_feed ∉ chars (si_method i) ∧ line_feed ∉ chars (si_canonical_uri i)
                   ∧ line_feed ∉ chars (si_canonical_query_string i);
  signable_names : Forall (λ h, header_name h.1) (si_headers i);
  signable_distinct : NoDup (to_ascii_lowercase <$> (si_headers i).*1);
}.

(** C17. The signed text pins down the request: two requests have the same text exactly
    when method, path, query and the hash of the body agree and the headers agree as
    a collection, names without their case and values with white space normalized.
    So a signature does not verify for a request with a header added, removed or
    changed, with another path or another body; and the order of the headers does
    not matter. *)
Theorem signed_text_determines_request i j :
  signable i → signable j →
  sigv4_canonical_request i = sigv4_canonical_request j ↔
    si_method i = si_method j ∧ si_canonical_uri i = si_canonical_uri j
    ∧ si_canonical_query_string i = si_canonical_query_string j
    ∧ normalize_header <$> si_headers i ≡ₚ normalize_header <$> si_headers j
    ∧ sha256 (si_payload i) = sha256 (si_payload j).
Proof.
  assert (∀ i, chars (sigv4_canonical_request i) =
    chars (si_method i) ++ line_feed :: chars (si_canonical_uri i) ++ line_feed :: chars (si_canonical_query_string i)
    ++ line_feed :: chars (canonical_headers (si_headers i)) ++ line_feed :: chars (signed_headers (si_headers i))
    ++ line_feed :: chars (hex_encode (sha256 (si_payload i)))) as Hc.
  { intros i'. unfold sigv4_canonical_request. by rewrite !chars_app. }
  intros [(Hm & Hu & Hq) Hn Hd] [(Hm' & Hu' & Hq') Hn' Hd']. split.
  - intros E%(f_equal chars). rewrite !Hc in E. unfold canonical_headers in E.
    apply sep_inj in E as [Em E]; [|done..]. apply sep_inj in E as [Eu E]; [|done..]. apply sep_inj in E as [Eq E]; [|done..].
    apply header_block_inj in E as [Eh E]; [|by apply sorted_headers_normal..]. unfold signed_headers in E. rewrite Eh in E.
    apply app_inv_head in E. injection E as E. apply chars_inj, hex_encode_inj in E.
    split_and!; [by apply chars_inj..| |done]. rewrite -(sort_headers_perm (normalize_header <$> si_headers i)).
    rewrite -(sort_headers_perm (normalize_header <$> si_headers j)).
    unfold sorted_headers in Eh. by rewrite /normalize_header Eh.
  - intros (Em & Eu & Eq & Eh & Es). assert (sorted_headers (si_headers i) = sorted_headers (si_headers j)) as Hs.
    { apply sort_headers_unique; [|done]. rewrite -list_fmap_compose. rewrite -list_fmap_compose in Hd. exact Hd. }
    apply chars_inj. rewrite !Hc. unfold canonical_headers, signed_headers. by rewrite Em Eu Eq Es Hs.
Qed.

(** ** Requests *)

Lemma bucket_chars bucket :
  validate_bucket_name bucket = Ok tt → Forall (λ a, url_char a = true) (chars bucket).
Proof.
  unfold validate_bucket_name. do 2 (case_if; [done|]). intros _. select (negb (forallb _ _) = false) (fun H => rename H into Hf).
  apply negb_false_iff in Hf. rewrite forallb_forall in Hf. apply Forall_forall. intros a Ha%list_elem_of_In.
  apply Hf in Ha. clear -Ha. by destruct a as [[] [] [] [] [] [] [] []].
Qed.
Lemma path_chars key : Forall (λ a, url_char a = true) (chars (percent_encode_path_segment key)).
Proof.
  unfold percent_encode_path_segment. rewrite chars_of_chars. apply percent_encode_chars.
  intros a. unfold url_char. by intros ->.
Qed.
Lemma query_chars value : Forall (λ a, url_char a = true) (chars (percent_encode_query_value value)).
Proof.
  unfold percent_encode_query_value. rewrite chars_of_chars. apply percent_encode_chars.
  intros a. unfold url_char. by intros ->.
Qed.

Context (config : S3ArchiveBackendSettings).

Definition query_suffix (query : str) : str := if is_empty query then EmptyString else "?" +:+ query.

(** A request that is signed as it is sent: the URL is made of the host and of the path
    and query that are signed, every header but the signature itself is signed, and
    host, date and the hash of the body are among them. *)
Definition request_signed (now : DateTime) (query : str) (request : HttpRequest) : Prop :=
  ∃ scheme host uri headers amz_date date_stamp signed,
    req_url request = scheme +:+ "://" +:+ host +:+ uri +:+ query_suffix query
    ∧ format_amz_date now = Ok amz_date ∧ format_date_stamp now = Ok date_stamp
    ∧ signable (mk_SignRequestInput (req_method request) uri query headers (req_body request) (s3_region config)
        (s3_access_key_id config) (expose (s3_secret_access_key config)) amz_date date_stamp)
    ∧ sign (mk_SignRequestInput (req_method request) uri query headers (req_body request) (s3_region config)
        (s3_access_key_id config) (expose (s3_secret_access_key config)) amz_date date_stamp) = Ok signed
    ∧ req_headers request = headers ++ [("Authorization", authorization_header signed)]
    ∧ [(HEADER_HOST, host); (HEADER_X_AMZ_DATE, amz_date);
       (HEADER_X_AMZ_CONTENT_SHA256, hex_encode (sha256 (req_body request)))] ⊆ headers.

Lemma str_app_assoc (x y z : str) : (x +:+ y) +:+ z = x +:+ y +:+ z.
Proof. apply chars_inj. rewrite !chars_app. symmetry. apply app_assoc. Qed.
Lemma str_app_nil (x : str) : x +:+ EmptyString = x.
Proof. apply chars_inj. rewrite chars_app. apply app_nil_r. Qed.

(** The URL of an object and of the listing, from the settings. *)
Lemma object_url key :
  settings_valid config →
  ∃ scheme host, S3HttpClient_build_url_and_host config key
    = Ok (scheme +:+ "://" +:+ host +:+ S3HttpClient_canonical_uri config key, host).
Proof.
  intros [He _ _ _ _ _]. apply validated_endpoint_parses in He as (p & Hp & He).
  unfold S3HttpClient_build_url_and_host, S3HttpClient_canonical_uri. rewrite Hp. cbn [mbind result_bind].
  destruct (s3_path_style config).
  - exists (pe_scheme p), (pe_host p). by rewrite {1}He !str_app_assoc.
  - exists (pe_scheme p), (s3_bucket config +:+ "." +:+ pe_host p). by rewrite !str_app_assoc.
Qed.
Lemma list_url token :
  settings_valid config →
  ∃ scheme host uri query, S3HttpClient_build_list_url_and_signing_parts config token
    = Ok (scheme +:+ "://" +:+ host +:+ uri +:+ query_suffix query, host, uri, query)
    ∧ Forall (λ a, url_char a = true) (chars uri) ∧ line_feed ∉ chars query
    ∧ query = match token with
        | Some t => "continuation-token=" +:+ percent_encode_query_value t +:+ "&list-type=2"
        | None => "list-type=2"
        end.
Proof.
  intros [He Hb _ _ _ _]. apply validated_endpoint_parses in He as (p & Hp & He). apply bucket_chars in Hb.
  unfold S3HttpClient_build_list_url_and_signing_parts. rewrite Hp. cbn [mbind result_bind]. cbv zeta.
  set (query := match token with Some _ => _ | None => _ end).
  assert (line_feed ∉ chars query) as Hq.
  { subst query. destruct token as [t|]; [|by apply (bool_decide_unpack _)]. rewrite !chars_app.
    pose proof (url_char_no_lf _ (query_chars t)) as Ht. rewrite !not_elem_of_app.
    split_and!; [by apply (bool_decide_unpack _)|done|by apply (bool_decide_unpack _)]. }
  assert (query_suffix query = "?" +:+ query) as Hs.
  { unfold query_suffix. subst query. by destruct token. }
  destruct (s3_path_style config).
  - exists (pe_scheme p), (pe_host p), ("/" +:+ s3_bucket config), query. split_and!; [|by constructor|done|done].
    by rewrite Hs {1}He !str_app_assoc.
  - exists (pe_scheme p), (s3_bucket config +:+ "." +:+ pe_host p), "/", query.
    split_and!; [|by repeat constructor|done|done]. by rewrite Hs !str_app_assoc.
Qed.

Lemma canonical_uri_chars key :
  settings_valid config → Forall (λ a, url_char a = true) (chars (S3HttpClient_canonical_uri config key)).
Proof.
  intros [_ Hb%bucket_chars _ _ _ _]. pose proof (path_chars key) as Hk. unfold S3HttpClient_canonical_uri.
  destruct (s3_path_style config); rewrite !chars_app; repeat (apply Forall_app; split); done || by repeat constructor.
Qed.

Lemma put_headers_names host amz_date retain_until body :
  Forall (λ h, header_name h.1) (put_headers config host amz_date retain_until body)
  ∧ NoDup (to_ascii_lowercase <$> (put_headers config host amz_date retain_until body).*1).
Proof.
  unfold put_headers, token_headers. destruct (s3_forbid_overwrite config), (s3_session_token config);
    (split; [repeat (constructor; [repeat split; by apply (bool_decide_unpack _)|]); constructor|by apply (bool_decide_unpack _)]).
Qed.
Lemma get_headers_names host amz_date :
  Forall (λ h, header_name h.1) (base_headers host amz_date [] ++ token_headers config)
  ∧ NoDup (to_ascii_lowercase <$> (base_headers host amz_date [] ++ token_headers config).*1).
Proof.
  unfold token_headers. destruct (s3_session_token config);
    (split; [repeat (constructor; [repeat split; by apply (bool_decide_unpack _)|]); constructor|by apply (bool_decide_unpack _)]).
Qed.

Lemma signed_request_is_signed now method scheme host uri query amz_date date_stamp headers body request :
  line_feed ∉ chars method → Forall (λ a, url_char a = true) (chars uri) → line_feed ∉ chars query →
  format_amz_date now = Ok amz_date → format_date_stamp now = Ok date_stamp →
  Forall (λ h, header_name h.1) headers ∧ NoDup (to_ascii_lowercase <$> headers.*1) →
  base_headers host amz_date body ⊆ headers →
  signed_request config method (scheme +:+ "://" +:+ host +:+ uri +:+ query_suffix query) uri query amz_date date_stamp
    headers body = Ok request →
  request_signed now query request.
Proof.
  intros Hm Hu Hq Ha Hd [Hn Hnd] Hb. unfold signed_request. intros (signed & Hs & [= <-])%result_bind_Ok.
  exists scheme, host, uri, headers, amz_date, date_stamp, signed. split_and!; try done.
  constructor; cbn; [|done|done]. split_and!; [done|by apply url_char_no_lf|done].
Qed.

Lemma signed_object_request now method scheme host key amz_date date_stamp headers body request :
  settings_valid config → line_feed ∉ chars method →
  format_amz_date now = Ok amz_date → format_date_stamp now = Ok date_stamp →
  Forall (λ h, header_name h.1) headers ∧ NoDup (to_ascii_lowercase <$> headers.*1) →
  base_headers host amz_date body ⊆ headers →
  signed_request config method (scheme +:+ "://" +:+ host +:+ S3HttpClient_canonical_uri config key)
    (S3HttpClient_canonical_uri config key) EmptyString amz_date date_stamp headers body = Ok request →
  request_signed now EmptyString request ∧ req_method request = method ∧ req_body request = body.
Proof.
  intros Hv Hm Ha Hd Hn Hb H. split.
  - eapply (signed_request_is_signed now method scheme host (S3HttpClient_canonical_uri config key) EmptyString); try done;
      [by apply canonical_uri_chars|apply not_elem_of_nil|].
    change (query_suffix EmptyString) with EmptyString. rewrite str_app_nil. exact H.
  - unfold signed_request in H. by apply result_bind_Ok in H as (? & _ & [= <-]).
Qed.

(** Under validated settings every request the client sends is signed as it is sent:
    no header, path, query or body goes out that its signature does not cover. *)
Theorem every_request_is_signed now :
  settings_valid config →
  (∀ key body request, put_request config key body now = Ok request →
     request_signed now EmptyString request ∧ req_method request = "PUT" ∧ req_body request = body)
  ∧ (∀ method key request, method ∈ ["HEAD"; "GET"] → object_request config method key now = Ok request →
       request_signed now EmptyString request ∧ req_method request = method ∧ req_body request = [])
  ∧ (∀ token request, list_request config token now = Ok request →
       ∃ query, request_signed now query request ∧ req_method request = "GET" ∧ req_body request = []).
Proof.
  intros Hv. split_and!.
  - intros key body request H. unfold put_request in H. destruct (object_url key Hv) as (scheme & host & Hurl).
    rewrite Hurl in H. cbn [mbind result_bind] in H. cbv zeta in H.
    apply result_bind_Ok in H as (amz_date & Ha & H). apply result_bind_Ok in H as (date_stamp & Hd & H).
    apply result_bind_Ok in H as (retain_until & Hr & H).
    refine (signed_object_request _ _ _ _ _ _ _ _ _ _ Hv _ Ha Hd (put_headers_names _ _ _ _) _ H);
      [by apply (bool_decide_unpack _)|unfold put_headers; set_solver].
  - intros method key request Hm H. unfold object_request in H. destruct (object_url key Hv) as (scheme & host & Hurl).
    rewrite Hurl in H. cbn [mbind result_bind] in H. cbv zeta in H.
    apply result_bind_Ok in H as (amz_date & Ha & H). apply result_bind_Ok in H as (date_stamp & Hd & H).
    refine (signed_object_request _ _ _ _ _ _ _ _ _ _ Hv _ Ha Hd (get_headers_names host amz_date) _ H); [|set_solver].
    apply list_elem_of_In in Hm as [<-|[<-|[]]]; by apply (bool_decide_unpack _).
  - intros token request H. unfold list_request in H. destruct (list_url token Hv) as (scheme & host & uri & query & Hurl & Hu & Hq & _).
    rewrite Hurl in H. cbn [mbind result_bind] in H.
    apply result_bind_Ok in H as (amz_date & Ha & H). apply result_bind_Ok in H as (date_stamp & Hd & H). exists query. split.
    + refine (signed_request_is_signed _ "GET" _ _ _ _ _ _ _ _ _ _ Hu Hq Ha Hd (get_headers_names host amz_date) _ H);
        [by apply (bool_decide_unpack _)|set_solver].
    + unfold signed_request in H. by apply result_bind_Ok in H as (? & _ & [= <-]).
Qed.

(** Before anything is sent, only the settings can be at fault. *)
Definition only_config_errors {A} (r : result S3BackendError A) : Prop :=
  match r with Ok _ => True | Err error => ∃ reason, error = S3BackendError_InvalidConfig reason end.
Lemma config_errors_bind {A B} (m : result S3BackendError A) (f : A → result S3BackendError B) :
  only_config_errors m → (∀ a, only_config_errors (f a)) → only_config_errors (m ≫= f).
Proof. destruct m; cbn; auto. Qed.
Lemma config_errors_ok_or {A} (o : option A) reason :
  only_config_errors (ok_or o (S3BackendError_InvalidConfig reason)).
Proof. destruct o; cbn; eauto. Qed.
Lemma parse_endpoint_errors e : only_config_errors (parse_endpoint e).
Proof.
  unfold parse_endpoint. apply config_errors_bind; [apply config_errors_ok_or|]. intros [scheme rest].
  repeat case_if; try (cbn; by eauto). destruct (endpoint_authority rest) as [h []]; repeat case_if; cbn; eauto.
Qed.
Lemma sign_errors i : only_config_errors (sign i).
Proof.
  unfold sign, derive_signing_key, sigv4_hmac_sha256. cbv zeta.
  repeat (apply config_errors_bind; [|intros ?]); try apply config_errors_ok_or; done.
Qed.
Lemma retain_until_date_errors now days : only_config_errors (retain_until_date now days).
Proof.
  unfold retain_until_date. repeat (apply config_errors_bind; [apply config_errors_ok_or|intros ?]).
  destruct (dt_format _); cbn; eauto.
Qed.
Lemma put_request_Err key body now error :
  put_request config key body now = Err error → ∃ reason, error = S3BackendError_InvalidConfig reason.
Proof.
  intros H. assert (only_config_errors (put_request config key body now)) as Hc; [|by rewrite H in Hc].
  unfold put_request, format_amz_date, format_date_stamp, signed_request. apply config_errors_bind.
  - unfold S3HttpClient_build_url_and_host. apply config_errors_bind; [apply parse_endpoint_errors|].
    intros p. by destruct (s3_path_style config).
  - intros [url host]. cbv zeta. do 2 (apply config_errors_bind; [apply config_errors_ok_or|intros ?]).
    apply config_errors_bind; [apply retain_until_date_errors|]. intros retain_until.
    apply config_errors_bind; [apply sign_errors|done].
Qed.

(** The date of the end of the retention: for a number of days of type [u32] neither
    the product nor the conversion overflows, so only the calendar can refuse it. *)
Lemma retain_until_date_eq now days :
  0 ≤ days ≤ u32_max →
  retain_until_date now days = match dt_checked_add now (days * 86400 * 1000000000) with
    | Some target => dt_format target !? (λ _, S3BackendError_InvalidConfig "failed to format retain_until_date")
    | None => Err (S3BackendError_InvalidConfig "retain_until_date overflowed")
    end.
Proof.
  intros Hdays. unfold retain_until_date, u_checked_mul.
  assert (days * LOCK_SECONDS_PER_DAY <=? u64_max = true) as ->.
  { apply Z.leb_le. unfold LOCK_SECONDS_PER_DAY, u64_max, u32_max in *. lia. }
  cbn [ok_or mbind result_bind]. unfold time_duration_try_from, Duration_from_secs.
  assert (days * LOCK_SECONDS_PER_DAY * 1000000000 / 1000000000 <=? i64_max = true) as ->.
  { apply Z.leb_le. rewrite Z.div_mul //. unfold LOCK_SECONDS_PER_DAY, i64_max, u32_max in *. lia. }
  cbn [ok_or mbind result_bind]. unfold LOCK_SECONDS_PER_DAY. change (24 * 60 * 60) with 86400.
  by destruct (dt_checked_add _ _).
Qed.
Lemma put_request_Ok key body now request :
  0 ≤ s3_retention_days config ≤ u32_max → put_request config key body now = Ok request →
  ∃ target retain_until host amz_date,
    dt_checked_add now (s3_retention_days config * 86400 * 1000000000) = Some target
    ∧ dt_format target = Ok retain_until ∧ req_method request = "PUT" ∧ req_body request = body
    ∧ put_headers config host amz_date retain_until body ⊆ req_headers request.
Proof.
  intros Hdays H. unfold put_request in H. apply result_bind_Ok in H as ([url host] & _ & H). cbv zeta in H.
  apply result_bind_Ok in H as (amz_date & _ & H). apply result_bind_Ok in H as (date_stamp & _ & H).
  apply result_bind_Ok in H as (retain_until & Hr & H). rewrite retain_until_date_eq // in Hr.
  destruct (dt_checked_add _ _) as [target|] eqn:Hadd; [|done]. apply map_err_Ok in Hr.
  unfold signed_request in H. apply result_bind_Ok in H as (signed & _ & [= <-]).
  exists target, retain_until, host, amz_date. cbn [req_headers]. split_and!; try done. set_solver.
Qed.
(** An operation is a request and what is made of its answer. *)
Lemma exchange_run {A} (m : result S3BackendError HttpRequest) (k : HttpResponse → io World S3BackendError A) w :
  (request ← lift m; response ← http_send request !?? classify_reqwest_error; k response) w
  = match m with
    | Ok request => match http_send request w with
        | (Ok response, w1) => k response w1
        | (Err error, w1) => (Err (classify_reqwest_error error), w1)
        end
    | Err error => (Err error, w)
    end.
Proof.
  destruct m as [request|]; [|done]. unfold lift, io_map_err. cbv [mbind io_bind].
  by destruct (http_send request w) as [[response|error] w1].
Qed.
Lemma classify_never_Ok status outcome : classify_failure_status status ≠ Ok outcome.
Proof. unfold classify_failure_status. by repeat case_if. Qed.

(** Uploads are locked: an upload either fails before anything is sent, or is one [PUT]
    of the given bytes that carries the lock mode, the end of the retention (the time of
    the call plus the configured days) and, unless overwriting is allowed, the condition
    that no object exists.  It is reported as created exactly when the store answers
    with success. *)
Theorem uploads_are_locked key body now w r w' :
  0 ≤ s3_retention_days config ≤ u32_max →
  S3HttpClient_put_object config key body now w = (r, w') →
  (∃ reason, r = Err (S3BackendError_InvalidConfig reason) ∧ w' = w)
  ∨ ∃ request answer target retain_until,
      http_send request w = (answer, w')
      ∧ req_method request = "PUT" ∧ req_body request = body
      ∧ dt_checked_add now (s3_retention_days config * 86400 * 1000000000) = Some target
      ∧ dt_format target = Ok retain_until
      ∧ (HEADER_X_AMZ_OBJECT_LOCK_MODE, S3ObjectLockMode_as_header_value (s3_object_lock_mode config)) ∈ req_headers request
      ∧ (HEADER_X_AMZ_OBJECT_LOCK_RETAIN_UNTIL_DATE, retain_until) ∈ req_headers request
      ∧ (s3_forbid_overwrite config = true → (HEADER_IF_NONE_MATCH, "*") ∈ req_headers request)
      ∧ (r = Ok PutOutcome_Created ↔ ∃ response, answer = Ok response ∧ s3_status_is_success (response_status response) = true).
Proof.
  intros Hdays H. unfold S3HttpClient_put_object in H. rewrite exchange_run in H.
  destruct (put_request config key body now) as [request|error] eqn:Hreq; last first.
  { left. injection H as <- <-. apply put_request_Err in Hreq as [reason ->]. eauto. }
  right. destruct (http_send request w) as [answer w1] eqn:Hsend.
  apply put_request_Ok in Hreq as (target & retain_until & host & amz_date & Hadd & Hfmt & Hm & Hb & Hh); [|done].
  exists request, answer, target, retain_until.
  assert (w' = w1 ∧ (r = Ok PutOutcome_Created ↔ ∃ response, answer = Ok response ∧ s3_status_is_success (response_status response) = true)) as [-> Hr].
  { destruct answer as [response|e]; [|injection H as <- <-; naive_solver].
    destruct (s3_status_is_success (response_status response)) eqn:Hs; cbn in H; injection H as <- <-; [naive_solver|].
    split; [done|]. split; [intros Hc; by apply classify_never_Ok in Hc|intros (? & [= <-] & Hs'); congruence]. }
  split_and!; try done; [apply Hh; unfold put_headers; set_solver..|].
  intros Hf. apply Hh. unfold put_headers. rewrite Hf. set_solver.
Qed.
End signing.

(** ** The bucket behind the client

    What a store with object lock promises to who sends it requests: a created object
    is what was sent, a found one is what there is, and an object that exists is not
    changed by reading it or by an upload that asks for there being none. *)
Class S3Server {P : Platform} {T : S3Transport} (sleep : Z → World → World) := {
  object_at : str → World → option bytes;
  server_put_created request w response w' :
    req_method request = "PUT" → http_send request w = (Ok response, w') →
    s3_status_is_success (response_status response) = true → object_at (req_url request) w' = Some (req_body request);
  server_get_found request w response w1 body w' :
    req_method request = "GET" → http_send request w = (Ok response, w1) →
    s3_status_is_success (response_status response) = true → response_bytes response w1 = (Ok body, w') →
    object_at (req_url request) w' = Some body;
  server_get_missing request w response w' :
    req_method request = "GET" → http_send request w = (Ok response, w') → response_status response = 404 →
    object_at (req_url request) w' = None;
  server_keeps request w answer w' url b :
    req_method request = "GET" ∨ (req_method request = "PUT" ∧ (HEADER_IF_NONE_MATCH, "*") ∈ req_headers request) →
    http_send request w = (answer, w') → object_at url w = Some b → object_at url w' = Some b;
  server_reading_keeps response w r w' url b :
    response_bytes response w = (r, w') → object_at url w = Some b → object_at url w' = Some b;
  server_clock_keeps w url b : object_at url w = Some b → object_at url (clock_now_utc w).2 = Some b;
  server_sleep_keeps nanos w url b : object_at url w = Some b → object_at url (sleep nanos w) = Some b;
}.

Section store.
Context {P : Platform} {T : S3Transport} {sleep : Z → World → World} {Server : S3Server sleep}.
Context (config : S3ArchiveBackendSettings) (Hforbid : s3_forbid_overwrite config = true).

(** The object under a key. *)
Definition bucket_object (key : str) (w : World) : option bytes :=
  match S3HttpClient_build_url_and_host config key with Ok (url, _) => object_at url w | Err _ => None end.

Lemma put_request_url key body now request :
  put_request config key body now = Ok request →
  ∃ host, S3HttpClient_build_url_and_host config key = Ok (req_url request, host)
    ∧ req_method request = "PUT" ∧ req_body request = body ∧ (HEADER_IF_NONE_MATCH, "*") ∈ req_headers request.
Proof.
  intros H. unfold put_request in H. apply result_bind_Ok in H as ([url host] & Hu & H). cbv zeta in H.
  apply result_bind_Ok in H as (amz_date & _ & H). apply result_bind_Ok in H as (date_stamp & _ & H).
  apply result_bind_Ok in H as (retain_until & _ & H). apply result_bind_Ok in H as (signed & _ & [= <-]).
  exists host. split_and!; try done. unfold put_headers. cbn [req_headers]. rewrite Hforbid. set_solver.
Qed.
Lemma object_request_url method key now request :
  object_request config method key now = Ok request →
  ∃ host, S3HttpClient_build_url_and_host config key = Ok (req_url request, host) ∧ req_method request = method.
Proof.
  intros H. unfold object_request in H. apply result_bind_Ok in H as ([url host] & Hu & H). cbv zeta in H.
  apply result_bind_Ok in H as (amz_date & _ & H). apply result_bind_Ok in H as (date_stamp & _ & H).
  apply result_bind_Ok in H as (signed & _ & [= <-]). eauto.
Qed.

Lemma client_put_Ok key body now w w' :
  S3HttpClient_put_object config key body now w = (Ok PutOutcome_Created, w') → bucket_object key w' = Some body.
Proof.
  unfold S3HttpClient_put_object. rewrite exchange_run.
  destruct (put_request config key body now) as [request|] eqn:Hreq; [|done].
  apply put_request_url in Hreq as (host & Hu & Hm & <- & _). destruct (http_send request w) as [[response|] w1] eqn:Hs; [|done].
  destruct (s3_status_is_success _) eqn:Hst; cbn; [intros [= <-]|intros [= Hc <-]; by apply classify_never_Ok in Hc].
  unfold bucket_object. rewrite Hu. by eapply server_put_created.
Qed.
Lemma client_put_keeps key body now w r w' url b :
  S3HttpClient_put_object config key body now w = (r, w') → object_at url w = Some b → object_at url w' = Some b.
Proof.
  unfold S3HttpClient_put_object. rewrite exchange_run.
  destruct (put_request config key body now) as [request|] eqn:Hreq; [|by intros [= _ <-]].
  apply put_request_url in Hreq as (host & Hu & Hm & _ & Hh). destruct (http_send request w) as [answer w1] eqn:Hs.
  intros H Ho. assert (w' = w1) as ->.
  { destruct answer as [response|]; [|by injection H]. by destruct (s3_status_is_success _); injection H. }
  eapply server_keeps; eauto.
Qed.
Lemma client_get_Ok key now w o w' :
  S3HttpClient_get_object_bytes config key now w = (Ok o, w') → bucket_object key w' = o.
Proof.
  unfold S3HttpClient_get_object_bytes. rewrite exchange_run.
  destruct (object_request config "GET" key now) as [request|] eqn:Hreq; [|done].
  apply object_request_url in Hreq as (host & Hu & Hm). destruct (http_send request w) as [[response|] w1] eqn:Hs; [|done].
  unfold bucket_object. rewrite Hu. destruct (s3_status_is_success _) eqn:Hst.
  - intros (body & w2 & Hb%io_map_err_Ok & [= <- <-])%io_bind_Ok. by eapply server_get_found.
  - destruct (_ =? 404) eqn:H404; b2p; [intros [= <- <-]; by eapply server_get_missing|].
    intros [(outcome & Hc & _)%result_fmap_Ok _]%lift_Ok. by apply classify_never_Ok in Hc.
Qed.
Lemma client_get_keeps key now w r w' url b :
  S3HttpClient_get_object_bytes config key now w = (r, w') → object_at url w = Some b → object_at url w' = Some b.
Proof.
  unfold S3HttpClient_get_object_bytes. rewrite exchange_run.
  destruct (object_request config "GET" key now) as [request|] eqn:Hreq; [|by intros [= _ <-]].
  apply object_request_url in Hreq as (host & Hu & Hm). destruct (http_send request w) as [answer w1] eqn:Hs.
  intros H Ho. assert (object_at url w1 = Some b) as Ho1 by (eapply server_keeps; eauto).
  destruct answer as [response|]; [|by injection H as _ <-]. destruct (s3_status_is_success _).
  - cbv [mbind io_bind io_map_err] in H. destruct (response_bytes response w1) as [rb w2] eqn:Hb.
    assert (w' = w2) as -> by (by destruct rb; injection H). by eapply server_reading_keeps.
  - destruct (_ =? 404); by injection H as _ <-.
Qed.

Lemma bucket_keeps (w w' : World) :
  (∀ url b, object_at url w = Some b → object_at url w' = Some b) →
  ∀ key b, bucket_object key w = Some b → bucket_object key w' = Some b.
Proof. intros H key b. unfold bucket_object. destruct (S3HttpClient_build_url_and_host config key) as [[url host]|]; [apply H|done]. Qed.

(** The client over such a bucket is the store the archive backend relies on. *)
#[refine] Instance client_store : S3Store (s3_http_client config sleep) := {| s3_stored := bucket_object |}.
Proof.
  - intros key body t w w' H. apply io_bind_Ok in H as ([] & w1 & H & [= <-]). by eapply client_put_Ok.
  - intros key t w o w' H. exact (client_get_Ok _ _ _ _ _ H).
  - intros key body t w r w' key' b H. apply bucket_keeps. intros url b'. cbn in H. cbv [mbind io_bind] in H.
    destruct (S3HttpClient_put_object config key body t w) as [o w1] eqn:Hp.
    assert (w' = w1) as -> by (by destruct o; injection H). by eapply client_put_keeps.
  - intros key t w r w' key' b H. apply bucket_keeps. intros url b'. exact (client_get_keeps _ _ _ _ _ _ _ H).
  - intros w key b. apply bucket_keeps. intros url b'. apply server_clock_keeps.
  - intros nanos w key b. apply bucket_keeps. intros url b'. apply server_sleep_keeps.
Defined.

Lemma canonical_uri_inj key key' :
  S3HttpClient_canonical_uri config key = S3HttpClient_canonical_uri config key' → key = key'.
Proof.
  assert (∀ k, percent_decode (chars (percent_encode_path_segment k)) = chars k) as Hd.
  { intros k. unfold percent_encode_path_segment. rewrite chars_of_chars. by apply percent_decode_encode. }
  unfold S3HttpClient_canonical_uri. intros E%(f_equal chars). apply chars_inj. rewrite -(Hd key) -(Hd key'). f_equal.
  destruct (s3_path_style config); rewrite !chars_app in E; [by do 3 apply app_inv_head in E|by apply app_inv_head in E].
Qed.

(** A retried operation keeps what every attempt keeps. *)
Lemma with_retry_keeps {A} (operation : DateTime → io World S3BackendError A) url b w r w' :
  0 ≤ s3_max_retries config →
  (∀ now w1 r1 w2, operation now w1 = (r1, w2) → object_at url w1 = Some b → object_at url w2 = Some b) →
  with_retry (H := s3_http_client config sleep) (s3_backend_config config) operation w = (r, w') →
  object_at url w = Some b → object_at url w' = Some b.
Proof.
  intros Hm Hop Hrun. unfold with_retry, run_with_backoff in Hrun.
  apply run_with_backoff_loop_attempts in Hrun as (k & Hk & _); [|cbn; lia..].
  assert (∀ w1 r1 w2, (let '(now, w0) := clock_now_utc w1 in operation now w0) = (r1, w2) →
    object_at url w1 = Some b → object_at url w2 = Some b) as Hone.
  { intros w1 r1 w2 H Ho. apply server_clock_keeps in Ho. destruct (clock_now_utc w1) as [now w0]. by eapply Hop. }
  clear Hm.   induction Hk as [n w r w' Ho _|n w e w1 k r w' Ho _ _ _ IH]; [by eapply Hone|].
  intros Hw. apply IH. cbn. apply server_sleep_keeps. by eapply Hone.
Qed.

Lemma backend_put_keeps url b key package w r w' :
  0 ≤ s3_max_retries config →
  put_object (H := s3_http_client config sleep) (s3_backend_config config) key package w = (r, w') →
  object_at url w = Some b → object_at url w' = Some b.
Proof.
  intros Hm H Ho. unfold put_object in H. cbv [mbind io_bind lift] in H.
  destruct (ArchiveExportPackage_to_json_bytes package) as [body|]; [|by injection H as _ <-].
  unfold put_object_bytes, io_match in H.
  destruct (put_object_bytes_strict _ _ _ w) as [o w1] eqn:Hp.
  eapply with_retry_keeps in Hp; [|done| |done]; last first.
  { intros now w2 r2 w3 H2. cbn in H2. cbv [mbind io_bind] in H2.
    destruct (S3HttpClient_put_object config (ArchiveObjectKey_as_str key) body now w2) as [o2 w4] eqn:Hc.
    assert (w3 = w4) as -> by (by destruct o2; injection H2). by eapply client_put_keeps. }
  destruct o as [[]|[]]; try by injection H as _ <-.
  unfold verify_existing_object_bytes in H. cbv [mbind io_bind io_map_err lift] in H.
  destruct (get_object_bytes_with_retry _ _ w1) as [g w2] eqn:Hg.
  eapply with_retry_keeps in Hg; [|done|intros now w3 r3 w4 H3; exact (client_get_keeps _ _ _ _ _ _ _ H3)|done].
  destruct g; by injection H as _ <-.
Qed.

Lemma stored_and_kept key package w w' :
  settings_valid config → 0 ≤ s3_max_retries config →
  put_object (H := s3_http_client config sleep) (s3_backend_config config) key package w = (Ok tt, w') →
  ∃ scheme host body,
    let url k := scheme +:+ "://" +:+ host +:+ S3HttpClient_canonical_uri config (ArchiveObjectKey_as_str k) in
    ArchiveExportPackage_to_json_bytes package = Ok body
    ∧ object_at (url key) w' = Some body
    ∧ (∀ key', url key' = url key → key' = key)
    ∧ ∀ key' package' r w'',
        put_object (H := s3_http_client config sleep) (s3_backend_config config) key' package' w' = (r, w'') →
        object_at (url key) w'' = Some body.
Proof.
  intros Hv Hm H. unfold put_object in H. apply io_bind_Ok in H as (body & w1 & [Hbody <-]%lift_Ok & H).
  eapply put_object_bytes_Ok in H; [|done]. cbn [s3_stored client_store] in H.
  destruct (object_url config (ArchiveObjectKey_as_str key) Hv) as (scheme & host & Hu).
  exists scheme, host, body. cbv zeta. unfold bucket_object in H. rewrite Hu in H. split_and!; [done|done| |].
  - intros [key'] E%(f_equal chars). rewrite !chars_app in E. do 3 apply app_inv_head in E.
    apply chars_inj, canonical_uri_inj in E. destruct key. cbn in E. by rewrite E.
  - intros key' package' r w'' Hp. by eapply backend_put_keeps.
Qed.
End store.

Section immutable.
Context {P : Platform} {T : S3Transport} {sleep : Z → World → World} {Server : S3Server sleep}.

Lemma unconditional_upload config key body now request :
  s3_forbid_overwrite config = false → put_request config key body now = Ok request →
  HEADER_IF_NONE_MATCH ∉ (req_headers request).*1.
Proof.
  intros Hf H. unfold put_request in H. apply result_bind_Ok in H as ([url host] & _ & H). cbv zeta in H.
  apply result_bind_Ok in H as (amz_date & _ & H). apply result_bind_Ok in H as (date_stamp & _ & H).
  apply result_bind_Ok in H as (retain_until & _ & H). apply result_bind_Ok in H as (signed & _ & [= <-]).
  cbn [req_headers]. unfold put_headers, token_headers. rewrite Hf.
  destruct (s3_session_token config); by apply (bool_decide_unpack _).
Qed.

(** C16. The archive in the bucket, while the configuration forbids to overwrite
    ([forbid_overwrite], which is the default).  When the backend reports that a document
    was stored, the bucket has exactly its bytes at the URL of its key, which is the URL
    of no other key, and no later upload, of whatever outcome, changes them.  When the
    configuration allows to overwrite, no upload carries the condition that protects
    what is there. *)
Theorem archived_document_is_immutable config key package w w' :
  settings_valid config → 0 ≤ s3_max_retries config →
  put_object (H := s3_http_client config sleep) (s3_backend_config config) key package w = (Ok tt, w') →
  (s3_forbid_overwrite config = true →
   ∃ scheme host body,
     let url k := scheme +:+ "://" +:+ host +:+ S3HttpClient_canonical_uri config (ArchiveObjectKey_as_str k) in
     ArchiveExportPackage_to_json_bytes package = Ok body
     ∧ object_at (url key) w' = Some body
     ∧ (∀ key', url key' = url key → key' = key)
     ∧ ∀ key' package' r w'',
         put_object (H := s3_http_client config sleep) (s3_backend_config config) key' package' w' = (r, w'') →
         object_at (url key) w'' = Some body)
  ∧ (s3_forbid_overwrite config = false →
     ∀ key' body now request, put_request config key' body now = Ok request →
       HEADER_IF_NONE_MATCH ∉ (req_headers request).*1).
Proof.
  intros Hv Hm H. split.
  - intros Hforbid. by eapply stored_and_kept.
  - intros Hallow key' body now request. by apply unconditional_upload.
Qed.
End immutable.

(** ** Paths, answers and listings *)

(** A server reads from an encoded path or query exactly the text that was encoded,
    and the encoded text has only characters a URL has. *)
Theorem percent_encoding_round_trip s :
  percent_decode (chars (percent_encode_path_segment s)) = chars s
  ∧ percent_decode (chars (percent_encode_query_value s)) = chars s
  ∧ Forall (λ a, url_char a = true) (chars (percent_encode_path_segment s))
  ∧ Forall (λ a, url_char a = true) (chars (percent_encode_query_value s)).
Proof.
  split_and!; [| |apply path_chars|apply query_chars].
  - unfold percent_encode_path_segment. rewrite chars_of_chars. by apply percent_decode_encode.
  - unfold percent_encode_query_value. rewrite chars_of_chars. by apply percent_decode_encode.
Qed.

(** An answer other than a success is an error; it is tried again exactly when it is a
    timeout, a rate limit or a fault of the server, for a listing as for an object. *)
Theorem retried_answers status :
  ∃ error, classify_failure_status status = Err error
    ∧ (S3BackendError_is_retriable error = true ↔ status = 408 ∨ status = 429 ∨ 500 ≤ status ≤ 599)
    ∧ S3BackendError_is_retriable (list_failure_status status) = S3BackendError_is_retriable error.
Proof.
  assert (∀ a b : bool, (a || b)%bool = true ↔ a = true ∨ b = true) as Hor by apply orb_true_iff.
  unfold classify_failure_status, list_failure_status.
  destruct ((status =? 401) || (status =? 403)) eqn:H1.
  { apply Hor in H1 as [?|?]; b2p; eexists; (split_and!; [done|split; [done|lia]|done]). }
  destruct (status =? 412) eqn:H2; b2p.
  { subst. eexists. split_and!; [done|split; [done|lia]|done]. }
  destruct (status =? 404) eqn:H3; b2p.
  { subst. eexists. split_and!; [done|split; [done|lia]|done]. }
  destruct ((status =? 408) || (status =? 429)) eqn:H4.
  { apply Hor in H4 as [?|?]; b2p; eexists; (split_and!; [done|split; [lia|done]|done]). }
  apply orb_false_iff in H4 as [??]. destruct ((500 <=? status) && (status <=? 599)) eqn:H5.
  { b2p. eexists. split_and!; [done|split; [lia|done]|done]. }
  apply andb_false_iff in H5 as [?|?]; b2p; eexists; (split_and!; [done|split; [done|lia]|done]).
Qed.

(** Replacing one entity, when the characters of a text are written as entities by
    a table. *)
Definition entity_char (table : list (ascii * str)) (a : ascii) : list ascii :=
  match list_find (λ entry, entry.1 = a) table with
  | Some (_, (_, entity)) => "&"%char :: chars entity
  | None => [a]
  end.

Section entities.
Context (c : ascii) (entity : str) (table : list (ascii * str)).
Context (Hinner : "&"%char ∉ chars entity) (Htable : Forall (λ e, "&"%char ∉ chars e.2) table).
Context (Hamp : "&"%char ∈ c :: table.*1).
Context (Hother : Forall (λ e, e.1 ≠ c ∧ ¬ chars entity `prefix_of` chars e.2 ∧ ¬ chars e.2 `prefix_of` chars entity) table).

Lemma replace_skip pat to k l : str_replace_loop pat to (length k) (k ++ l) = str_replace_loop pat to 0 l.
Proof. induction k as [|a k IH]; [by destruct l|]. done. Qed.
Lemma replace_keeps pat to k l :
  "&"%char ∉ k → str_replace_loop ("&"%char :: pat) to 0 (k ++ l) = k ++ str_replace_loop ("&"%char :: pat) to 0 l.
Proof.
  induction k as [|a k IH]; intros Hk; [done|]. apply not_elem_of_cons in Hk as [Ha Hk]. cbn [app str_replace_loop].
  rewrite bool_decide_false; [by rewrite IH|]. intros [? ?]. naive_solver.
Qed.
Lemma replace_entity l :
  str_replace_loop ("&"%char :: chars entity) [c] 0 (l ≫= entity_char ((c, entity) :: table))
  = l ≫= entity_char table.
Proof.
  assert (list_find (λ entry : ascii * str, entry.1 = c) table = None) as Hnone.
  { apply list_find_None. eapply Forall_impl; [exact Hother|]. by intros [? ?] [? _]. }
  induction l as [|a l IH]; [done|]. cbn [mbind list_bind]. destruct (decide (c = a)) as [<-|Hca].
  - unfold entity_char at 1. cbn [list_find fst]. rewrite decide_True //. unfold entity_char at 2. rewrite Hnone.
    cbn [app str_replace_loop]. rewrite bool_decide_true; [|by apply prefix_cons, prefix_app_r].
    cbn [app length]. rewrite Nat.sub_succ Nat.sub_0_r replace_skip. by f_equal.
  - assert (entity_char ((c, entity) :: table) a = entity_char table a) as ->.
    { unfold entity_char. cbn [list_find fst]. rewrite decide_False //. by destruct (list_find (λ entry, entry.1 = a) table) as [[? [? ?]]|]. }
    unfold entity_char at 1 3. destruct (list_find (λ entry, entry.1 = a) table) as [[n [a' e]]|] eqn:Hf.
    + apply list_find_Some in Hf as (Hl & _ & _). apply list_elem_of_lookup_2 in Hl.
      pose proof (proj1 (Forall_forall _ _) Htable _ Hl) as He.
      destruct (proj1 (Forall_forall _ _) Hother _ Hl) as (_ & Hp1 & Hp2). cbn [app str_replace_loop snd] in *.
      rewrite bool_decide_false; [by rewrite replace_keeps // IH|]. intros Hp%prefix_cons_inv_2.
      destruct (prefix_weak_total (chars entity) (chars e) (chars e ++ (l ≫= entity_char ((c, entity) :: table)))) as [|];
        [done|by apply prefix_app_r|done|done].
    + rewrite replace_keeps; [by rewrite IH|]. intros Ha%list_elem_of_singleton. apply list_find_None in Hf.
      pose proof Hamp as Hin. rewrite Ha in Hin. apply elem_of_cons in Hin as [->|(x & -> & Hx)%list_elem_of_fmap]; [done|].
      rewrite Forall_forall in Hf. by apply (Hf x).
Qed.
End entities.

Definition xml_entities : list (ascii * str) :=
  [("<"%char, "lt;"); (">"%char, "gt;"); (quote_mark, "quot;"); (apostrophe, "apos;"); ("&"%char, "amp;")].
(** How a store writes a value between tags. *)
Definition escape_xml (value : str) : str := of_chars (chars value ≫= entity_char xml_entities).

Lemma unescape_escape value : unescape_minimal_xml (escape_xml value) = value.
Proof.
  unfold unescape_minimal_xml, escape_xml, str_replace, xml_entities. rewrite !chars_of_chars.
  change (chars "&lt;") with ("&"%char :: chars "lt;"). change (chars "&gt;") with ("&"%char :: chars "gt;").
  change (chars "&quot;") with ("&"%char :: chars "quot;"). change (chars "&apos;") with ("&"%char :: chars "apos;").
  change (chars "&amp;") with ("&"%char :: chars "amp;").
  change (chars "<") with ["<"%char]. change (chars ">") with [">"%char]. change (chars "'") with [apostrophe].
  change (chars "&") with ["&"%char]. change (chars (String quote_mark EmptyString)) with [quote_mark].
  rewrite !replace_entity; try by apply (bool_decide_unpack _).
  apply chars_inj. rewrite chars_of_chars. induction (chars value) as [|a l IH]; [done|]. cbn. by f_equal.
Qed.
Lemma escape_no_lt value : "<"%char ∉ chars (escape_xml value).
Proof.
  unfold escape_xml. rewrite chars_of_chars. induction (chars value) as [|a l IH]; [apply not_elem_of_nil|].
  cbn [mbind list_bind]. apply not_elem_of_app. split; [|done]. clear.
  destruct a as [[] [] [] [] [] [] [] []]; by apply (bool_decide_unpack _).
Qed.

Lemma str_length_app (s t : str) : String.length (s +:+ t) = (String.length s + String.length t)%nat.
Proof. by rewrite -!length_chars chars_app length_app. Qed.

(** The loop over the tags ends by itself: beyond the length of the text the number of
    rounds does not matter. *)
Lemma extract_loop_enough tag close n m rest :
  (String.length rest ≤ n)%nat → (String.length rest ≤ m)%nat →
  extract_loop (open_tag tag) close n rest = extract_loop (open_tag tag) close m rest.
Proof.
  assert (∀ k s, (String.length s ≤ 0)%nat → extract_loop (open_tag tag) close k s = []) as H0.
  { intros [|k] [|? ?] H; simpl in *; [done|lia|done|lia]. }
  revert m rest. induction n as [|n IH]; intros m rest Hn Hm; [by rewrite !H0|].
  destruct m as [|m]; [by rewrite !H0|]. cbn [extract_loop].
  destruct (split_once_str (open_tag tag) rest) as [[before after]|] eqn:Ho; [|done].
  destruct (split_once_str close after) as [[value rest']|] eqn:Hc; [|done].
  apply split_once_str_Some in Ho, Hc. subst. rewrite !str_length_app in Hn, Hm. cbn in Hn, Hm. f_equal. apply IH; lia.
Qed.

(** A text with tagged values, each after a gap that does not have the tag, and what
    follows the last. *)
Definition tagged_text (tag : str) (items : list (str * str)) (tail : str) : str :=
  foldr (λ item text, item.1 +:+ open_tag tag +:+ escape_xml item.2 +:+ close_tag tag +:+ text) tail items.

(** Listings are read back: from an answer that has the values between their tags, with
    whatever the store writes around them, exactly these values are read, in order and
    whatever characters they have. *)
Theorem listing_is_read_back tag items tail :
  Forall (λ item, split_once_str (open_tag tag) (item.1 +:+ open_tag tag) = Some (item.1, EmptyString)) items →
  split_once_str (open_tag tag) tail = None →
  extract_xml_tags (tagged_text tag items tail) tag = items.*2.
Proof.
  intros Hitems Htail. unfold extract_xml_tags.
  assert (∀ n, (length items ≤ n)%nat →
    extract_loop (open_tag tag) (close_tag tag) n (tagged_text tag items tail) = items.*2) as Hloop.
  { induction Hitems as [|[gap value] items Hgap Hitems IH]; intros n Hn.
    - destruct n as [|n]; [done|]. cbn [extract_loop tagged_text foldr]. by rewrite Htail.
    - cbn [length] in Hn. destruct n as [|n]; [lia|]. cbn [extract_loop tagged_text foldr fst snd].
      rewrite split_once_str_extend //.
      pose proof (split_once_str_skip "<" ("/" +:+ tag +:+ ">") _ (tagged_text tag items tail) (escape_no_lt value)) as Hclose.
      change (String "<" ("/" +:+ tag +:+ ">")) with (close_tag tag) in Hclose. unfold tagged_text in Hclose. rewrite Hclose.
      rewrite unescape_escape. cbn [fmap list_fmap snd]. f_equal. apply IH. lia. }
  apply Hloop. clear. induction items as [|item items IH]; [apply le_0_n|].
  cbn [tagged_text foldr length]. rewrite !str_length_app. cbn. unfold tagged_text in IH. lia.
Qed.
