(* ===== verification/Backends.v ===== *)
(** * Implementations of the interfaces ([src/server/supabase/audit_rpc.rs],
      [src/siem/dummy.rs], [src/archive/dummy.rs])

    The recorder, the forwarder and the export use case are written over traits.
    This file has their implementations: the appender of audit events to the
    database, the sinks the server forwards security events to, and the archive in
    memory.  A shared vector or map behind a mutex is a state of its own, [None] when
    the mutex is poisoned. *)

From S2P Require Import Prelude RustStd Json Platform Reference Errors Types AuditTypes LedgerTypes LedgerPayload LedgerEntry LedgerChain LedgerRpc Digest Files Archive AuditEvent AuditFallback Siem.

(** ** Audit events into the database ([audit_rpc.rs]) *)

Definition AUDIT_EVENT_ID_CONFLICT_MARKER : str := "audit_event_id_conflict".

Section audit_rpc.
Context {P : Platform}.

Record AppendAuditEventParams := mk_AppendAuditEventParams {
  ap_audit_event_id : str;
  ap_request_id : str;
  ap_actor_user_id : option str;
  ap_actor_device_id : option str;
  ap_action : str;
  ap_target_secret_id : option str;
  ap_result : str;
  ap_key_version : option Z;
  ap_metadata_json : Value;
}.
Definition AppendAuditEventParams_from_event (event : AuditEvent) : AppendAuditEventParams :=
  let e := event_parts event in {|
  ap_audit_event_id := AuditEventId_as_canonical_string (ev_audit_event_id e);
  ap_request_id := RequestId_as_canonical_string (ev_request_id e);
  ap_actor_user_id := OwnerUserId_as_canonical_string <$> ev_actor_user_id e;
  ap_actor_device_id := DeviceId_as_str <$> ev_actor_device_id e;
  ap_action := AuditAction_as_str (ev_action e);
  ap_target_secret_id := SecretId_as_canonical_string <$> ev_target_secret_id e;
  ap_result := AuditResult_as_str (ev_result e);
  ap_key_version := KeyVersion_get <$> ev_key_version e;
  ap_metadata_json := AuditMetadata_as_value (ev_metadata_json e);
|}.

(** The remote call: the status and the text of the answer. *)
Class AuditRpc := {
  rpc_append_audit_event : AppendAuditEventParams → io World str (Z * str);
}.
Context {R : AuditRpc}.

(** [ensure_success]. *)
Definition call_append_audit_event (event : AuditEvent) : io World SupabaseRpcError unit :=
  '(status, body) ← rpc_append_audit_event (AppendAuditEventParams_from_event event) !?? SupabaseRpcError_Network;
  if (200 <=? status) && (status <=? 299) then mret tt
  else lift (Err (SupabaseRpcError_NonSuccessStatus status body)).

Definition response_contains_audit_event_id_conflict (body : str) : bool :=
  response_contains_marker body AUDIT_EVENT_ID_CONFLICT_MARKER.
Definition classify_append_audit_error (error : SupabaseRpcError) : AuditAppendError :=
  match error with
  | SupabaseRpcError_NonSuccessStatus status body =>
      if (status =? 409) && response_contains_audit_event_id_conflict body
      then AuditAppendError_IdempotencyConflict
      else AuditAppendError_ExternalDependencyFailed "supabase_rpc_failed"
  | SupabaseRpcError_Network _ | SupabaseRpcError_InvalidResponse _ | SupabaseRpcError_EmptyResult =>
      AuditAppendError_ExternalDependencyFailed "supabase_rpc_failed"
  end.
Definition SupabaseAuditAppender_append_audit_event (event : AuditEvent) : io World AuditAppendError unit :=
  call_append_audit_event event !?? classify_append_audit_error.

(** The database as the appender the recorder is written over. *)
Definition SupabaseAuditAppender : AuditEventAppender :=
  {| append_audit_event := SupabaseAuditAppender_append_audit_event |}.
End audit_rpc.

(** ** Sinks of security events ([siem/dummy.rs]) *)

Definition InMemorySiemSink : Type := option (list SiemEvent).
Definition InMemorySiemSink_new : InMemorySiemSink := Some [].
Definition InMemorySiemSink_event_count (sink : InMemorySiemSink) : nat :=
  match sink with Some events => length events | None => 0%nat end.
Definition InMemorySiemSink_events (sink : InMemorySiemSink) : list SiemEvent := default [] sink.
Definition InMemorySiemSink_send_event (event : SiemEvent) : io InMemorySiemSink SiemSinkError unit := λ sink,
  match sink with
  | None => (Err (SiemSinkError_BackendFailed "mutex_poisoned"), None)
  | Some events => (Ok tt, Some (events ++ [event]))
  end.
Definition FailingSiemSink_send_event {W} (code : str) (event : SiemEvent) : io W SiemSinkError unit := λ w,
  (Err (SiemSinkError_BackendFailed code), w).

(** ** The archive in memory ([archive/dummy.rs]) *)

Section in_memory.
Context {P : Platform}.

Definition InMemoryArchiveBackend : Type := option (gmap str bytes).
Definition InMemoryArchiveBackend_new : InMemoryArchiveBackend := Some ∅.
Definition InMemoryArchiveBackend_get_bytes (store : InMemoryArchiveBackend) (key : str) : option bytes :=
  objects ← store; objects !! key.
Definition InMemoryArchiveBackend_len (store : InMemoryArchiveBackend) : nat :=
  match store with Some objects => size objects | None => 0%nat end.
Definition InMemoryArchiveBackend_is_empty (store : InMemoryArchiveBackend) : bool :=
  (InMemoryArchiveBackend_len store =? 0)%nat.

Definition archive_mutex_poisoned : ArchiveBackendError := ArchiveBackendError_BackendFailed "mutex_poisoned".
Definition InMemoryArchiveBackend_put_object (key : ArchiveObjectKey) (package : ArchiveExportPackage) :
    io InMemoryArchiveBackend ArchiveBackendError unit := λ store,
  match ArchiveExportPackage_to_json_bytes package with
  | Err error => (Err error, store)
  | Ok b =>
      match store with
      | None => (Err archive_mutex_poisoned, None)
      | Some objects => (Ok tt, Some (<[ArchiveObjectKey_as_str key := b]> objects))
      end
  end.
Definition InMemoryArchiveBackend_verify_object (key : ArchiveObjectKey) (package : ArchiveExportPackage) :
    io InMemoryArchiveBackend ArchiveBackendError ArchiveVerifyOutcome := λ store,
  match ArchiveExportPackage_to_json_bytes package with
  | Err error => (Err error, store)
  | Ok expected =>
      match store with
      | None => (Err archive_mutex_poisoned, None)
      | Some objects =>
          (Ok (match objects !! ArchiveObjectKey_as_str key with
               | None => ArchiveVerifyOutcome_NotFound
               | Some stored =>
                   if bool_decide (stored = expected) then ArchiveVerifyOutcome_Valid
                   else ArchiveVerifyOutcome_ContentMismatch
               end), store)
      end
  end.
(** The keys come in the order of the map. *)
Definition InMemoryArchiveBackend_list_objects : io InMemoryArchiveBackend ArchiveBackendError (list ArchiveObjectKey) :=
  λ store,
  match store with
  | None => (Err archive_mutex_poisoned, None)
  | Some objects => (try_map ArchiveObjectKey_new (map_to_list objects).*1, store)
  end.
End in_memory.

(** ** Properties *)

Section properties.
Context {P : Platform} {R : AuditRpc}.

Lemma option_fmap_inj {A B} (f : A → B) (o o' : option A) :
  (∀ a a', f a = f a' → a = a') → f <$> o = f <$> o' → o = o'.
Proof. intros Hf. destruct o, o'; cbn; try done. intros [= ?%Hf]. by subst. Qed.

(** The parameters are the event: what the database is sent determines every field of
    the event. *)
Theorem sent_event_is_the_event {LU : UuidLaws P} event event' :
  AppendAuditEventParams_from_event event = AppendAuditEventParams_from_event event' → event = event'.
Proof.
  destruct event as [[id rid user device action secret res kv meta]].
  destruct event' as [[id' rid' user' device' action' secret' res' kv' meta']].
  unfold AppendAuditEventParams_from_event. cbn [event_parts]. intros H.
  injection H as Hid Hrid Huser Hdevice Haction Hsecret Hres Hkv Hmeta.
  destruct id, id', rid, rid', meta, meta'. cbn in *. apply uuid_hyphenated_inj in Hid, Hrid.
  apply (f_equal AuditAction_parse) in Haction. rewrite !AuditAction_parse_as_str in Haction.
  apply (f_equal AuditResult_parse) in Hres. rewrite !AuditResult_parse_as_str in Hres.
  apply option_fmap_inj in Huser; [|by intros [a] [b] ?%uuid_hyphenated_inj; simplify_eq/=].
  apply option_fmap_inj in Hsecret; [|by intros [a] [b] ?%uuid_hyphenated_inj; simplify_eq/=].
  apply option_fmap_inj in Hdevice; [|by intros [a] [b] ?; simplify_eq/=].
  apply option_fmap_inj in Hkv; [|by intros [a] [b] ?; simplify_eq/=].
  by simplify_eq/=.
Qed.

(** A conflict is reported exactly when the database answered 409 and named the event
    id in its answer; every other failure is one of the dependency, after which the
    event goes to the fallback file. *)
Theorem audit_conflict_is_named event w :
  let '(sent, w') := rpc_append_audit_event (AppendAuditEventParams_from_event event) w in
  SupabaseAuditAppender_append_audit_event event w
  = (match sent with
     | Ok (status, body) =>
         if (200 <=? status) && (status <=? 299) then Ok tt
         else if (status =? 409) && response_contains_marker body "audit_event_id_conflict"
         then Err AuditAppendError_IdempotencyConflict
         else Err (AuditAppendError_ExternalDependencyFailed "supabase_rpc_failed")
     | Err _ => Err (AuditAppendError_ExternalDependencyFailed "supabase_rpc_failed")
     end, w').
Proof.
  unfold SupabaseAuditAppender_append_audit_event, call_append_audit_event, io_map_err. cbv [mbind io_bind].
  destruct (rpc_append_audit_event _ w) as [[[status body]|error] w']; cbn; [|done].
  destruct (_ && _); cbn; [done|]. unfold response_contains_audit_event_id_conflict, AUDIT_EVENT_ID_CONFLICT_MARKER.
  by destruct (_ && _).
Qed.
End properties.

(** The archive in memory gives back what it was given: a stored package verifies, one
    with other bytes under the same key is a mismatch, the listing has its key, and no
    other object is touched. *)
Theorem in_memory_archive_round_trip {P : Platform} key package b store store' :
  ArchiveExportPackage_to_json_bytes package = Ok b →
  InMemoryArchiveBackend_put_object key package store = (Ok tt, store') →
  InMemoryArchiveBackend_verify_object key package store' = (Ok ArchiveVerifyOutcome_Valid, store')
  ∧ (∀ other b', ArchiveExportPackage_to_json_bytes other = Ok b' → b' ≠ b →
       InMemoryArchiveBackend_verify_object key other store' = (Ok ArchiveVerifyOutcome_ContentMismatch, store'))
  ∧ (∀ keys, (InMemoryArchiveBackend_list_objects store').1 = Ok keys → key ∈ keys)
  ∧ ∀ key', key' ≠ ArchiveObjectKey_as_str key →
      InMemoryArchiveBackend_get_bytes store' key' = InMemoryArchiveBackend_get_bytes store key'.
Proof.
  intros Hb. unfold InMemoryArchiveBackend_put_object. rewrite Hb. destruct store as [objects|]; [|done].
  intros [= <-]. split_and!.
  - unfold InMemoryArchiveBackend_verify_object. by rewrite Hb lookup_insert_eq bool_decide_true.
  - intros other b' Ho Hne. unfold InMemoryArchiveBackend_verify_object. by rewrite Ho lookup_insert_eq bool_decide_false.
  - intros keys Hl. cbn in Hl. apply try_map_Ok in Hl.
    assert (ArchiveObjectKey_as_str key ∈ (map_to_list (<[ArchiveObjectKey_as_str key := b]> objects)).*1) as Hin.
    { apply list_elem_of_fmap. exists (ArchiveObjectKey_as_str key, b). split; [done|]. apply elem_of_map_to_list, lookup_insert_eq. }
    apply list_elem_of_lookup_1 in Hin as [i Hi]. destruct (Forall2_lookup_l _ _ _ _ _ Hl Hi) as (k & Hki & Hnew).
    assert (k = key) as <-; [|by apply list_elem_of_lookup_2 in Hki].
    unfold ArchiveObjectKey_new in Hnew. repeat case_if; [done..|]. destruct key. by simplify_eq/=.
  - intros key' Hne. cbn. by rewrite lookup_insert_ne.
Qed.

(** The sink in memory forgets nothing: it holds every event it was ever sent, in their
    order, so what it holds grows with every event. *)
Theorem in_memory_sink_keeps_everything events sink :
  sink ≠ None →
  let sink' := foldl (λ s e, (InMemorySiemSink_send_event e s).2) sink events in
  InMemorySiemSink_events sink' = InMemorySiemSink_events sink ++ events
  ∧ InMemorySiemSink_event_count sink' = (InMemorySiemSink_event_count sink + length events)%nat.
Proof.
  cbv zeta. revert sink. induction events as [|e events IH]; intros [l|] Hs; [|done| |done].
  - cbn. by rewrite app_nil_r Nat.add_0_r.
  - cbn [foldl]. change (InMemorySiemSink_send_event e (Some l)).2 with (Some (l ++ [e])).
    destruct (IH (Some (l ++ [e]))) as [-> ->]; [done|]. cbn. rewrite length_app -app_assoc. cbn. split; [done|lia].
Qed.
