(* ===== verification/Runtime.v ===== *)
(** * Startup ([src/server/runtime.rs], [src/server/router.rs])

    The program reads its command, loads the configuration, and either runs a command
    or starts the server: it fetches the key set, checks that its signing key is
    active in the database, starts the loops of [Background] and [Scheduler], and
    serves.  A start that fails ends the process with a code.  What is spawned is
    recorded as a list of [BackgroundTask]s; binding and serving a socket and building
    the HTTP client are the interface [ServerSystem]. *)

From S2P Require Import Prelude RustStd Json Platform Reference Errors Types Aad Crypto Authorization Alias AuditTypes LedgerTypes LedgerPayload LedgerEntry LedgerChain LedgerRpc LedgerAppender ApiError Files AuditEvent AuditBuilders Incident KeyRotation AuditFallback App ExportUseCase Siem AuditReporter Handlers Maintenance Scheduler Auditor SignatureKey DigestCommand Authentication Background AuditReport Config.

(** ** Commands *)

Inductive EntrypointCommand :=
| EntrypointCommand_Server
| EntrypointCommand_KeyRotation (args : list str)
| EntrypointCommand_IntegrityCheck (args : list str)
| EntrypointCommand_Auditor (args : list str)
| EntrypointCommand_Digest (args : list str)
| EntrypointCommand_AuditReport (args : list str)
| EntrypointCommand_SignatureKey (args : list str)
| EntrypointCommand_Usage.
#[global] Instance EntrypointCommand_eq_dec : EqDecision EntrypointCommand.
Proof. solve_decision. Defined.

Definition parse_entrypoint_command (args : list str) : EntrypointCommand :=
  match args with
  | [] => EntrypointCommand_Server
  | command :: command_args =>
      if String.eqb command "server" then
        match command_args with [] => EntrypointCommand_Server | _ => EntrypointCommand_Usage end
      else if String.eqb command "key-rotation" then EntrypointCommand_KeyRotation command_args
      else if String.eqb command "integrity-check" then EntrypointCommand_IntegrityCheck command_args
      else if String.eqb command "auditor" then EntrypointCommand_Auditor command_args
      else if String.eqb command "digest" then EntrypointCommand_Digest command_args
      else if String.eqb command "audit-report" then EntrypointCommand_AuditReport command_args
      else if String.eqb command "signature-key" then EntrypointCommand_SignatureKey command_args
      else EntrypointCommand_Usage
  end.

Definition entrypoint_usage : str :=
  String.concat newline ["usage:" +:+ newline +:+ "  mipsorcu [server]"; usage; integrity_check_usage; auditor_usage;
    digest_usage; audit_report_usage; signature_key_usage].

(** ** The router ([router.rs]) *)

Inductive HttpMethod := GET | HEAD | POST | PUT | DELETE | OTHER.
#[global] Instance HttpMethod_eq_dec : EqDecision HttpMethod.
Proof. solve_decision. Defined.

(** The handler of a request, with the part of the path it is given.  A known path
    with another method is refused by the framework. *)
Inductive Route :=
| Route_audit_ui (rest : list str)
| Route_create_secret
| Route_rotate_secret (secret_ref : str)
| Route_decrypt_secret (secret_ref : str)
| Route_create_secret_alias (secret_id : str)
| Route_update_secret_alias (alias_id : str)
| Route_delete_secret_alias (alias_id : str)
| Route_list_secret_aliases
| Route_resolve_secret_alias
| Route_health_check
| Route_ready_check
| Route_method_not_allowed
| Route_not_found.

(** A segment of a path that is registered, and the value of its variable segment in
    a path that fits. *)
Inductive Segment := Fixed (s : str) | Param.
Fixpoint match_segments (pattern : list Segment) (path : list str) (param : str) : option str :=
  match pattern, path with
  | [], [] => Some param
  | Fixed s :: pattern, x :: path => if String.eqb s x then match_segments pattern path param else None
  | Param :: pattern, x :: path => match_segments pattern path x
  | _, _ => None
  end.

(** The registered paths with the handlers of their methods; a fixed segment takes
    precedence over a variable one, so its path is first. *)
Definition routes : list (list Segment * list (HttpMethod * (str → Route))) :=
  [([Fixed "v1"; Fixed "secrets"], [(POST, λ _, Route_create_secret)]);
   ([Fixed "v1"; Fixed "secrets"; Param; Fixed "versions"], [(POST, Route_rotate_secret)]);
   ([Fixed "v1"; Fixed "secrets"; Param; Fixed "decrypt"], [(POST, Route_decrypt_secret)]);
   ([Fixed "v1"; Fixed "secrets"; Param; Fixed "aliases"], [(POST, Route_create_secret_alias)]);
   ([Fixed "v1"; Fixed "aliases"; Fixed "resolve"], [(POST, λ _, Route_resolve_secret_alias)]);
   ([Fixed "v1"; Fixed "aliases"; Param], [(PUT, Route_update_secret_alias); (DELETE, Route_delete_secret_alias)]);
   ([Fixed "v1"; Fixed "aliases"], [(GET, λ _, Route_list_secret_aliases)]);
   ([Fixed "health"], [(GET, λ _, Route_health_check)]);
   ([Fixed "ready"], [(GET, λ _, Route_ready_check)])]%string.
Fixpoint find_route (routes : list (list Segment * list (HttpMethod * (str → Route)))) (path : list str) :
    option (str * list (HttpMethod * (str → Route))) :=
  match routes with
  | [] => None
  | (pattern, handlers) :: routes =>
      match match_segments pattern path EmptyString with
      | Some param => Some (param, handlers)
      | None => find_route routes path
      end
  end.
(** A handler of [GET] answers [HEAD] too. *)
Definition serves (registered method : HttpMethod) : bool :=
  bool_decide (method = registered) || (bool_decide (registered = GET) && bool_decide (method = HEAD)).
Fixpoint on_method (method : HttpMethod) (param : str) (handlers : list (HttpMethod * (str → Route))) : Route :=
  match handlers with
  | [] => Route_method_not_allowed
  | (registered, handler) :: handlers =>
      if serves registered method then handler param else on_method method param handlers
  end.
Definition build_app_route (method : HttpMethod) (path : list str) : Route :=
  match path with
  | a :: v :: rest =>
      if String.eqb a "audit" && String.eqb v "v1" then Route_audit_ui rest else
      match find_route routes path with
      | Some (param, handlers) => on_method method param handlers
      | None => Route_not_found
      end
  | _ =>
      match find_route routes path with
      | Some (param, handlers) => on_method method param handlers
      | None => Route_not_found
      end
  end.

(** ** Starting ([run_server_with_config]) *)

Section startup.
Context {P : Platform} {F : FileSystem} {CS : ConfigSystem} {JE : JwksEndpoint} {PK : PublicKeyService}.

Record RuntimeResilience := mk_RuntimeResilience { rr_handler_timeout : Z; rr_rate_limiter : FixedWindowRateLimiter }.
Definition RuntimeResilience_new (handler_timeout rate_limit_requests rate_limit_window : Z) : RuntimeResilience :=
  mk_RuntimeResilience handler_timeout (mk_FixedWindowRateLimiter rate_limit_requests rate_limit_window).

Inductive BackgroundTask :=
| Task_jwks_refresh_loop (jwks_url : str) (interval : Z)
| Task_supabase_readiness_poll_loop (interval : Z)
| Task_audit_resend_loop (store : LocalAuditFallbackStore) (interval : Z) (config : AuditResendConfig)
| Task_restore_test_loop (interval startup_delay sample_limit : Z)
| Task_integrity_check_loop (interval startup_delay : Z)
| Task_siem_resend_loop (buffer : LocalSiemFallbackBuffer) (interval long_failure_threshold : Z)
| Task_scheduler_loop (config : SchedulerConfig).

Record StartedServer := mk_StartedServer {
  sv_state : AppState;
  sv_jwt_config : JwtVerifierConfig;
  sv_jwks_cache : JwksCache;
  sv_resilience : RuntimeResilience;
  sv_tasks : list BackgroundTask;
}.

Class ServerSystem := {
  build_outbound_http_client : AppConfig → result str unit;
  tcp_bind : SocketAddr → io World str unit;
  axum_serve : StartedServer → io World str unit;
}.
Context {SS : ServerSystem}.

Definition LedgerAppender_new (signing_key : LedgerSigningKey) : LedgerAppender :=
  mk_LedgerAppender signing_key LedgerAppenderConfig_default.

Definition ensure_active_ledger_signing_public_key_at_startup (signing_key : LedgerSigningKey) : io World Z unit :=
  ensure_active_ledger_signing_public_key (LedgerSigningKey_verification_key signing_key) !?? (λ _, 1).

Definition server_state (c : AppConfig) : AppState := {|
  st_master_key_ring := ac_master_key_ring c;
  st_alias_encryption_key := ac_alias_encryption_key c;
  st_alias_encryption_key_version := ac_alias_encryption_key_version c;
  st_alias_fingerprint_key := ac_alias_fingerprint_key c;
  st_alias_fingerprint_key_version := ac_alias_fingerprint_key_version c;
  st_ledger_appender := LedgerAppender_new (ac_ledger_signing_key c);
  st_audit_fallback_store := LocalAuditFallbackStore_with_rollover_config (ac_audit_fallback_path c)
    (ac_audit_fallback_archive_dir c) (ac_audit_fallback_rotate_size_bytes c);
  st_siem_buffer := mk_LocalSiemFallbackBuffer (ac_siem_buffer_path c);
|}.
Definition server_scheduler_config (c : AppConfig) : SchedulerConfig := {|
  sc_startup_delay := ac_scheduler_startup_delay c;
  sc_poll_interval := ac_scheduler_poll_interval c;
  sc_monthly_day := ac_scheduler_monthly_day c;
  sc_monthly_hour_utc := ac_scheduler_monthly_hour_utc c;
  sc_quarterly_hour_utc := ac_scheduler_quarterly_hour_utc c;
  sc_restore_test_sample_limit := ac_restore_test_sample_limit c;
  sc_local_archive_dir := ac_scheduler_local_archive_dir c;
|}.
(** In the order they are spawned. *)
Definition server_tasks (c : AppConfig) : list BackgroundTask :=
  let state := server_state c in
  [Task_jwks_refresh_loop (ac_jwks_url c) (ac_jwks_refresh_interval c);
   Task_supabase_readiness_poll_loop (ac_health_readiness_poll_interval c);
   Task_audit_resend_loop (st_audit_fallback_store state) (ac_audit_resend_interval c)
     (mk_AuditResendConfig (ac_audit_fallback_alert_threshold_bytes c) (ac_audit_fallback_archive_auto_delete_enabled c)
        (ac_audit_fallback_archive_retention c / 1000000))]
  ++ (if ac_scheduler_enabled c then [] else
      [Task_restore_test_loop (ac_restore_test_interval c) (ac_restore_test_startup_delay c) (ac_restore_test_sample_limit c)])
  ++ [Task_integrity_check_loop (ac_integrity_check_interval c) (ac_integrity_check_startup_delay c);
      Task_siem_resend_loop (st_siem_buffer state) (ac_siem_resend_interval c) (ac_siem_long_failure_threshold c)]
  ++ (if ac_scheduler_enabled c then [Task_scheduler_loop (server_scheduler_config c)] else []).

Definition start_server (c : AppConfig) : io World Z StartedServer :=
  _ ← lift (build_outbound_http_client c !? (λ _, 1));
  jwks ← fetch_jwks (ac_jwks_url c) !?? (λ _, 1);
  let jwks_cache := JwksCache_new jwks in
  jwt_config ← lift (JwtVerifierConfig_new (ac_jwt_issuer c) (ac_jwt_audience c) !? (λ _, 1));
  _ ← ensure_active_ledger_signing_public_key_at_startup (ac_ledger_signing_key c);
  mret (mk_StartedServer (server_state c) jwt_config jwks_cache
    (RuntimeResilience_new (ac_http_handler_timeout c) (ac_http_rate_limit_requests c) (ac_http_rate_limit_window c))
    (server_tasks c)).

Definition serve_app (listen_addr : SocketAddr) (server : StartedServer) : io World Z unit :=
  _ ← tcp_bind listen_addr !?? (λ _, 1);
  axum_serve server !?? (λ _, 1).
Definition run_server_with_config (c : AppConfig) : io World Z unit :=
  server ← start_server c;
  serve_app (ac_listen_addr c) server.
(** The process ends with code 1 when the configuration cannot be loaded. *)
Definition run_server (get_process_var : str → option str) : io World Z unit :=
  config ← load_config get_process_var !?? (λ _, 1);
  run_server_with_config config.

(** A command ends with code 2 when it fails. *)
Definition run_cli_command (get_process_var : str → option str) (run_cli : AppConfig → list str → io World str unit)
    (args : list str) : io World Z unit :=
  config ← load_config get_process_var !?? (λ _, 1);
  run_cli config args !?? (λ _, 2).

(** The commands, each the [run_cli] of its module over the configuration. *)
Record Commands := mk_Commands {
  key_rotation_run_cli : AppConfig → list str → io World str unit;
  integrity_check_cli : AppConfig → list str → io World str unit;
  auditor_cli : AppConfig → list str → io World str unit;
  digest_cli : AppConfig → list str → io World str unit;
  audit_report_cli : AppConfig → list str → io World str unit;
  signature_key_cli : AppConfig → list str → io World str unit;
}.
Definition run_entrypoint (commands : Commands) (get_process_var : str → option str) (args : list str) : io World Z unit :=
  match parse_entrypoint_command args with
  | EntrypointCommand_Server => run_server get_process_var
  | EntrypointCommand_KeyRotation args => run_cli_command get_process_var (key_rotation_run_cli commands) args
  | EntrypointCommand_IntegrityCheck args => run_cli_command get_process_var (integrity_check_cli commands) args
  | EntrypointCommand_Auditor args => run_cli_command get_process_var (auditor_cli commands) args
  | EntrypointCommand_Digest args => run_cli_command get_process_var (digest_cli commands) args
  | EntrypointCommand_AuditReport args => run_cli_command get_process_var (audit_report_cli commands) args
  | EntrypointCommand_SignatureKey args => run_cli_command get_process_var (signature_key_cli commands) args
  | EntrypointCommand_Usage => lift (Err 2)
  end.

(** ** What a server that started has *)

(** The tasks that run the restore test: its own loop, and the scheduler. *)
Definition runs_restore_test (task : BackgroundTask) : bool :=
  match task with Task_restore_test_loop _ _ _ | Task_scheduler_loop _ => true | _ => false end.

(** C18. A server that starts from a loaded configuration can do its work: the key ring has
    its active key, the cache has a well-formed key set and the verifier an issuer and
    an audience, the database knows the key the ledger is signed with as active, a
    handler has time for three requests to the database, the rate limit lets something
    through, the restore test has exactly one runner, and the schedule has days and hours
    every month has. *)
Theorem started_server_is_usable get_process_var w c w1 server w2 :
  load_config get_process_var w = (Ok c, w1) → start_server c w1 = (Ok server, w2) →
  ring_usable (st_master_key_ring (sv_state server))
  ∧ (∃ jwks, sv_jwks_cache server = Some jwks ∧ Jwks_wf jwks)
  ∧ (is_empty (trim (jv_issuer (sv_jwt_config server))) = false ∧ is_empty (trim (jv_audience (sv_jwt_config server))) = false)
  ∧ (let key := LedgerSigningKey_verification_key (signing_key (st_ledger_appender (sv_state server))) in
     ∃ w3 status, get_ledger_signing_public_key_status (vk_key_version key) w3 = (Ok status, w2)
       ∧ ks_status status = "active"%string
       ∧ LedgerVerifyingKey_as_bytes (ks_public_key status) = LedgerVerifyingKey_as_bytes key)
  ∧ 3 * ac_outbound_http_request_timeout c + Duration_from_secs 15 ≤ rr_handler_timeout (sv_resilience server)
  ∧ 0 < rl_max_requests (rr_rate_limiter (sv_resilience server)) ∧ 0 < rl_window (rr_rate_limiter (sv_resilience server))
  ∧ length (filter (λ task, runs_restore_test task = true) (sv_tasks server)) = 1%nat
  ∧ ∀ sc, Task_scheduler_loop sc ∈ sv_tasks server →
      1 ≤ sc_monthly_day sc ≤ 28 ∧ 0 ≤ sc_monthly_hour_utc sc ≤ 23 ∧ 0 ≤ sc_quarterly_hour_utc sc ≤ 23.
Proof.
  intros Hc%load_config_usable H. destruct Hc as [Hring _ _ Hint Hcounts Htimeout Hcal].
  unfold start_server in H. apply io_bind_Ok in H as (_ & ? & [_ ->]%lift_Ok & H).
  apply io_bind_Ok in H as (jwks & w3 & Hj%io_map_err_Ok%fetch_jwks_wf & H). cbv zeta in H.
  apply io_bind_Ok in H as (jwt_config & ? & [Hjwt%map_err_Ok ->]%lift_Ok & H).
  apply io_bind_Ok in H as ([] & w4 & Hk%io_map_err_Ok & [= <- <-]). cbn [sv_state sv_jwks_cache sv_jwt_config sv_resilience sv_tasks].
  split_and!.
  - done.
  - by exists jwks.
  - unfold JwtVerifierConfig_new, JwtVerifierConfig_with_leeway_seconds in Hjwt. case_if; [done|].
    injection Hjwt as <-. by apply orb_false_iff in Heqb as [? _].
  - unfold JwtVerifierConfig_new, JwtVerifierConfig_with_leeway_seconds in Hjwt. case_if; [done|].
    injection Hjwt as <-. by apply orb_false_iff in Heqb as [_ ?].
  - apply active_key_checked in Hk as (status & ? & ? & ?). by exists w3, status.
  - done.
  - by apply Forall_cons in Hcounts as [? _].
  - by repeat (apply Forall_cons in Hint as [? Hint]).
  - unfold server_tasks. by destruct (ac_scheduler_enabled c).
  - intros sc Hsc. assert (sc = server_scheduler_config c) as -> by (unfold server_tasks in Hsc; destruct (ac_scheduler_enabled c); set_solver).
    exact Hcal.
Qed.

Lemma exit_code_io {E A} (m : io World E A) (k : Z) w code w' :
  (m !?? (λ _, k)) w = (Err code, w') → code = k ∧ ∃ error, m w = (Err error, w').
Proof. unfold io_map_err. destruct (m w) as [[a|e] w1]; cbn; intros [= <- <-]. eauto. Qed.
Lemma exit_code_lift {E A} (r : result E A) (k : Z) (w : World) code w' :
  lift (r !? (λ _, k)) w = (Err code, w') → code = k.
Proof. unfold lift. destruct r; cbn; by intros [= <- <-]. Qed.

(** The server is served only after it started: when the configuration, the key set or
    the active key is missing, the process ends with code 1 before a socket is bound. *)
Theorem failed_start_ends_the_process get_process_var w code w' :
  run_server get_process_var w = (Err code, w') →
  code = 1
  ∧ ((∃ error, load_config get_process_var w = (Err error, w'))
     ∨ (∃ c w1, load_config get_process_var w = (Ok c, w1)
        ∧ (start_server c w1 = (Err 1, w')
           ∨ ∃ server w2, start_server c w1 = (Ok server, w2) ∧ serve_app (ac_listen_addr c) server w2 = (Err 1, w')))).
Proof.
  unfold run_server. intros [H|(c & w1 & Hc%io_map_err_Ok & H)]%io_bind_Err.
  { apply exit_code_io in H as [-> He]. eauto. }
  unfold run_server_with_config in H. apply io_bind_Err in H as [H|(server & w2 & Hs & H)].
  - assert (code = 1) as ->; [|naive_solver]. unfold start_server in H.
    repeat (apply io_bind_Err in H as [H|(? & ? & _ & H)]; [first [by apply exit_code_lift in H|by apply exit_code_io in H as [? _]]|]; cbv zeta in H). done.
  - assert (code = 1) as ->; [|naive_solver]. unfold serve_app in H.
    apply io_bind_Err in H as [H|(? & ? & _ & H)]; by apply exit_code_io in H as [? _].
Qed.

(** What is not a command has no effect: the usage is printed and the process ends
    with code 2, without the configuration being read. *)
Theorem unknown_command_has_no_effect commands get_process_var command args w :
  command ∉ ["server"; "key-rotation"; "integrity-check"; "auditor"; "digest"; "audit-report"; "signature-key"]%string →
  run_entrypoint commands get_process_var (command :: args) w = (Err 2, w).
Proof.
  intros H. unfold run_entrypoint, parse_entrypoint_command.
  repeat match goal with |- context [String.eqb command ?s] => destruct (String.eqb_spec command s); [set_solver|] end. done.
Qed.
End startup.

(** ** The router *)

(** Where a handler is reached, its variable segment at [Param]. *)
Definition route_address (route : Route) : option (HttpMethod * list str) :=
  match route with
  | Route_create_secret => Some (POST, ["v1"; "secrets"])
  | Route_rotate_secret secret_ref => Some (POST, ["v1"; "secrets"; secret_ref; "versions"])
  | Route_decrypt_secret secret_ref => Some (POST, ["v1"; "secrets"; secret_ref; "decrypt"])
  | Route_create_secret_alias secret_id => Some (POST, ["v1"; "secrets"; secret_id; "aliases"])
  | Route_update_secret_alias alias_id => Some (PUT, ["v1"; "aliases"; alias_id])
  | Route_delete_secret_alias alias_id => Some (DELETE, ["v1"; "aliases"; alias_id])
  | Route_list_secret_aliases => Some (GET, ["v1"; "aliases"])
  | Route_resolve_secret_alias => Some (POST, ["v1"; "aliases"; "resolve"])
  | Route_health_check => Some (GET, ["health"])
  | Route_ready_check => Some (GET, ["ready"])
  | Route_audit_ui _ | Route_method_not_allowed | Route_not_found => None
  end%string.

Fixpoint instantiate (pattern : list Segment) (param : str) : list str :=
  match pattern with
  | [] => []
  | Fixed s :: pattern => s :: instantiate pattern param
  | Param :: pattern => param :: instantiate pattern param
  end.


Lemma routes_match :
  Forall (λ entry, ∀ path x, match_segments entry.1 path EmptyString = Some x → path = instantiate entry.1 x) routes.
Proof.
  unfold routes. repeat (apply Forall_cons; split); [..|by apply Forall_nil]; cbn [fst]; intros path x;
    cbn [match_segments]; repeat match goal with
    | |- (if String.eqb ?a ?b then _ else _) = _ → _ => destruct (String.eqb_spec a b) as [<-|]; [|discriminate]
    | |- match ?p with [] => _ | _ :: _ => _ end = _ → _ => destruct p; [discriminate || by intros [= <-]|discriminate || idtac]
    end.
Qed.
Lemma find_route_Some table path param handlers :
  Forall (λ entry, ∀ path x, match_segments entry.1 path EmptyString = Some x → path = instantiate entry.1 x) table →
  find_route table path = Some (param, handlers) → ∃ pattern, (pattern, handlers) ∈ table ∧ path = instantiate pattern param.
Proof.
  induction 1 as [|[pattern hs] table Hp _ IH]; cbn [find_route]; [done|].
  destruct (match_segments pattern path EmptyString) as [x|] eqn:E.
  - intros [= <- <-]. exists pattern. split; [by left|by apply Hp].
  - intros (p & Hin & Hp')%IH. exists p. split; [by right|done].
Qed.
Lemma on_method_handler method param handlers route :
  on_method method param handlers = route → route ≠ Route_method_not_allowed →
  ∃ registered handler, (registered, handler) ∈ handlers ∧ serves registered method = true ∧ route = handler param.
Proof.
  intros <-. induction handlers as [|[m h] handlers IH]; cbn [on_method]; [done|].
  destruct (serves m method) eqn:Hs; [|intros (r & h' & Hin & ?)%IH; exists r, h'; split; [by right|done]].
  intros _. exists m, h. split; [by left|done].
Qed.

(** Every handler has one address: it is reached at its path, with its method (or with
    [HEAD] in place of [GET]), and nowhere else.  A request for the secret or alias
    that a path names is never given to another handler; only [resolve] is no alias. *)
Theorem handlers_have_one_address route m path :
  route_address route = Some (m, path) →
  (∀ method path', build_app_route method path' = route → path' = path ∧ serves m method = true)
  ∧ (∀ method, serves m method = true →
       route = Route_resolve_secret_alias ∨ path ≠ ["v1"; "aliases"; "resolve"]%string →
       build_app_route method path = route).
Proof.
  intros Ha. split.
  - intros method path' Hr.
    assert (∃ param handlers, find_route routes path' = Some (param, handlers) ∧ on_method method param handlers = route)
      as (param & handlers & Hf & Ho).
    { unfold build_app_route in Hr. destruct path' as [|a [|v rest]].
      1, 2: destruct (find_route _ _) as [[x hs]|]; [eauto|by subst].
      destruct (_ && _); [by subst|]. destruct (find_route _ _) as [[x hs]|]; [eauto|by subst]. }
    apply find_route_Some in Hf as (pattern & Hin & ->); [|apply routes_match].
    apply on_method_handler in Ho as (registered & handler & Hh & Hs & ->); [|by intros ->].
    apply list_elem_of_In in Hin.
    repeat (destruct Hin as [[= <- <-]|Hin]; [apply list_elem_of_In in Hh;
      repeat (destruct Hh as [[= <- <-]|Hh]; [by injection Ha as <- <-|]); done|]). done.
  - intros method Hs Hp. unfold build_app_route.
    destruct route; try discriminate; injection Ha as <- <-; destruct method; try discriminate Hs; try reflexivity.
    all: cbn [find_route routes match_segments]; cbn -[String.eqb]; destruct (String.eqb_spec "resolve" alias_id) as [<-|];
      [by destruct Hp|reflexivity].
Qed.
