(* ===== verification/Examples.v ===== *)
(** * The ledger and alias properties at concrete data

    A signing key, three purge entries signed from the genesis head, and a
    database, on the reference platform: each property of the components below
    that has hypotheses is applied here at data that meets them. *)

From S2P Require Import Prelude RustStd Json Platform Reference Errors Types Aad Crypto Authorization SecretStore Alias AuditTypes LedgerTypes LedgerPayload LedgerEntry LedgerChain LedgerRpc LedgerAppender ApiError WriteLedger Digest DigestUseCases.

(** The fields of three entries signed in a row. *)
Lemma sign_three_fields {P : Platform} {LE : Ed25519Laws P} key n h d1 d2 d3 e1 e2 e3 :
  0 ≤ n → sign_entries_loop key n h [d1; d2; d3] = Ok [e1; e2; e3] →
  se_fields e1 = entry_fields d1 (mk_LedgerSequenceNo (n + 1)) h (sk_key_version key)
  ∧ se_fields e2 = entry_fields d2 (mk_LedgerSequenceNo (n + 2)) (se_entry_hash e1) (sk_key_version key)
  ∧ se_fields e3 = entry_fields d3 (mk_LedgerSequenceNo (n + 3)) (se_entry_hash e2) (sk_key_version key).
Proof.
  assert (∀ m k i, 0 ≤ i → LedgerSequenceNo_new (i + 1) = Ok m → i = n + k → m = mk_LedgerSequenceNo (n + (k + 1)))
    as Hnext.
  { intros [m] k i Hi [? _]%next_sequence_Ok ->; [|done]. simpl in *. f_equal. lia. }
  intros Hn H. cbn [sign_entries_loop] in H. inv_ok.
  repeat select (u_checked_add _ _ _ = _) (fun H => apply u_checked_add_Some in H as [-> _]).
  repeat select (sign_with_sequence _ _ _ _ = _) (fun H => apply sign_with_sequence_Ok in H as (_ & ? & _ & ->)).
  unfold se_sequence_no in *. cbn [se_fields entry_fields cf_sequence_no se_entry_hash] in *.
  select (LedgerSequenceNo_new (n + 1) = _) (fun H => apply (Hnext _ 0) in H as ->; [|lia..]).
  cbn [LedgerSequenceNo_get] in *.
  select (LedgerSequenceNo_new (n + (0 + 1) + 1) = _) (fun H => apply (Hnext _ 1) in H as ->; [|lia..]).
  cbn [LedgerSequenceNo_get] in *.
  select (LedgerSequenceNo_new _ = _) (fun H => apply (Hnext _ 2) in H as ->; [|lia..]). done.
Qed.

Lemma sign_entries_from_head_loop {P : Platform} a drafts head :
  sign_entries_from_head a drafts head
  = sign_entries_loop (signing_key a) (last_sequence_no head) (last_entry_hash head) drafts.
Proof. reflexivity. Qed.

Section examples.
#[local] Existing Instance reference.

(** ** Aliases *)

Definition sample_alias_key : AliasEncryptionKey := mk_AliasEncryptionKey (replicate 32 x44).
Definition sample_fingerprint_key : AliasFingerprintKey := mk_AliasFingerprintKey (replicate 32 x66).
Definition sample_alias : NormalizedAlias := mk_NormalizedAlias "db_password-1".
Definition sample_created_at : CreatedAt := @mk_CreatedAt reference (5%positive, true).
Definition sample_alias_id : SecretAliasId := mk_SecretAliasId (ref_from_random_bytes [x21]).

Lemma sample_alias_wf : NormalizedAlias_wf sample_alias.
Proof. split_and!; [done|done|]. repeat constructor. Qed.

Lemma sample_key_version_wf : KeyVersion_wf (mk_KeyVersion 1).
Proof. done. Qed.

Lemma alias_write_then_read_witness :
  ∃ p, decrypt_alias_row sample_alias_key (pc_secret_alias_id p) sample_secret_id sample_owner
      (mk_KeyVersion 1) (pc_ciphertext p) (pc_nonce p) (pc_aad_context p)
    = Ok (mk_DecryptedAlias (pc_secret_alias_id p) sample_secret_id sample_alias).
Proof.
  destruct (is_ok_io_inv (prepare_alias_create sample_alias_key (mk_KeyVersion 1) sample_fingerprint_key
    (mk_KeyVersion 1) sample_secret_id sample_owner sample_alias sample_created_at sample_world))
    as (p & w & E); [vm_compute; reflexivity|].
  destruct (is_ok_io_inv (prepare_alias_update sample_alias_key (mk_KeyVersion 1) sample_fingerprint_key
    (mk_KeyVersion 1) sample_alias_id sample_secret_id sample_owner sample_alias sample_world))
    as (p2 & w2 & E2); [vm_compute; reflexivity|].
  exists p. exact (proj1 (alias_write_then_read sample_alias_key (mk_KeyVersion 1) sample_fingerprint_key
    (mk_KeyVersion 1) sample_alias_id sample_secret_id sample_owner sample_alias sample_created_at sample_world p w
    sample_world p2 w2 eq_refl eq_refl sample_key_version_wf sample_alias_wf E E2)).
Defined.

Lemma alias_fingerprint_separates_witness :
  ∃ f, compute_alias_fingerprint sample_fingerprint_key sample_owner sample_alias = Ok f
    ∧ (sample_alias = sample_alias ∨ fingerprint_message sample_owner sample_alias
        ≠ fingerprint_message sample_owner sample_alias).
Proof.
  destruct (is_ok_inv (compute_alias_fingerprint sample_fingerprint_key sample_owner sample_alias))
    as [f E]; [vm_compute; reflexivity|].
  exists f. split; [exact E|].
  destruct (alias_fingerprint_separates sample_fingerprint_key sample_owner sample_alias sample_owner
    sample_alias f E E) as [[_ H]|[H _]]; [left; exact H|right; exact H].
Defined.

(** ** A signed ledger *)

Definition ex_key : LedgerSigningKey :=
  mk_LedgerSigningKey (mk_LedgerSignatureKeyVersion 1) (replicate 32 x55).
Definition ex_keys : list LedgerVerifyingKey := [LedgerSigningKey_verification_key ex_key].
Definition ex_appender : LedgerAppender := mk_LedgerAppender ex_key LedgerAppenderConfig_default.
Definition ex_request : RequestId := mk_RequestId (ref_from_random_bytes [x31]).

Definition ex_draft (b : byte) : LedgerAppendDraft := {|
  ad_ledger_entry_id := mk_LedgerEntryId (ref_from_random_bytes [b]);
  ad_entry_type := LedgerEntryType_SecretVersionPurged;
  ad_source_event_at := mk_SourceEventAt "101Z";
  ad_request_id := ex_request;
  ad_source_event_id := None;
  ad_target_secret_id := Some sample_secret_id;
  ad_target_secret_version_id := None;
  ad_actor_user_id := Some sample_owner;
  ad_actor_device_id := Some (mk_DeviceId "sbc-1");
  ad_result := LedgerResult_Success;
  ad_error_code := None;
  ad_payload := mk_LedgerPayload LedgerEntryType_SecretVersionPurged
    [("key_version", json_uint 1); ("retention_limit", json_uint 4); ("version", json_uint 9)]%string;
|}.
Definition ex_drafts : list LedgerAppendDraft := [ex_draft x01; ex_draft x02; ex_draft x03].

Lemma ex_draft_wf b : LedgerAppendDraft_wf (ex_draft b).
Proof. by split_and!. Qed.
Lemma ex_drafts_wf : Forall LedgerAppendDraft_wf ex_drafts.
Proof. repeat constructor; apply ex_draft_wf. Qed.
Lemma ex_drafts_signable : Forall draft_signable ex_drafts.
Proof. by repeat constructor. Qed.
Lemma ex_appender_wf : LedgerAppender_wf ex_appender.
Proof. by split. Qed.
Lemma ex_key_registered :
  registered_key ex_keys (sk_key_version ex_key) (LedgerSigningKey_verification_key ex_key).
Proof. by exists [], []. Qed.

Lemma ex_genesis_wf : LedgerChainHead_wf LedgerChainHead_genesis.
Proof. done. Qed.

Definition ex_v : LedgerSignatureKeyVersion := mk_LedgerSignatureKeyVersion 1.

Lemma ex_signed :
  ∃ e1 e2 e3 final, sign_entries_from_head ex_appender ex_drafts LedgerChainHead_genesis = Ok [e1; e2; e3]
    ∧ Forall SignedLedgerEntry_wf [e1; e2; e3]
    ∧ verify_ledger_chain [e1; e2; e3] LedgerChainHead_genesis ex_keys = Ok final
    ∧ se_fields e1 = entry_fields (ex_draft x01) (mk_LedgerSequenceNo 1) LedgerHash_genesis ex_v
    ∧ se_fields e2 = entry_fields (ex_draft x02) (mk_LedgerSequenceNo 2) (se_entry_hash e1) ex_v
    ∧ se_fields e3 = entry_fields (ex_draft x03) (mk_LedgerSequenceNo 3) (se_entry_hash e2) ex_v.
Proof.
  destruct (is_ok_inv (sign_entries_from_head ex_appender ex_drafts LedgerChainHead_genesis)) as [l E];
    [vm_compute; reflexivity|].
  destruct (sign_entries_verify ex_appender ex_drafts _ ex_keys l ex_genesis_wf
    ex_key_registered E) as (final & Hv & _).
  pose proof E as E'. rewrite sign_entries_from_head_loop in E'.
  pose proof (sign_entries_loop_entries (signing_key ex_appender) (last_sequence_no LedgerChainHead_genesis)
    (last_entry_hash LedgerChainHead_genesis) ex_drafts l ltac:(done) eq_refl
    (proj1 ex_appender_wf) ltac:(done) ex_drafts_wf E') as Hent.
  pose proof (sign_entries_loop_length _ _ _ _ _ E') as Hlen.
  destruct l as [|e1 [|e2 [|e3 [|]]]]; try discriminate Hlen. exists e1, e2, e3, final.
  split; [exact E|]. split.
  { repeat (apply Forall2_cons_1 in Hent as [[[? _] _] Hent]; constructor; [done|]). constructor. }
  split; [exact Hv|]. exact (sign_three_fields _ _ _ _ _ _ _ _ _ (proj1 ex_genesis_wf) E').
Qed.

Lemma verify_ledger_chain_pinpoints_witness :
  ∃ e2 e3 l1 x l2 mid, [e2; e3] = l1 ++ x :: l2 ∧ Chain ex_keys LedgerChainHead_genesis l1 mid
    ∧ verify_ledger_entry ex_keys (last_sequence_no mid) (last_entry_hash mid) x
      = Err (LedgerError_SequenceGap 1 2).
Proof.
  destruct ex_signed as (e1 & e2 & e3 & final & _ & Hwf & _ & _ & He2 & _).
  apply Forall_cons in Hwf as [_ Hwf].
  assert (verify_ledger_chain [e2; e3] LedgerChainHead_genesis ex_keys = Err (LedgerError_SequenceGap 1 2)) as Hv.
  { cbn [verify_ledger_chain verify_ledger_chain_from]. unfold verify_ledger_entry, se_sequence_no. by rewrite He2. }
  destruct (proj1 (verify_ledger_chain_pinpoints [e2; e3] LedgerChainHead_genesis ex_keys _ ex_genesis_wf Hwf) Hv)
    as (l1 & x & l2 & mid & H). exists e2, e3, l1, x, l2, mid. exact H.
Defined.

Lemma verify_ledger_chain_incremental_witness :
  ∃ e1 e2 e3 final, (mid ← verify_ledger_chain [e1; e2] LedgerChainHead_genesis ex_keys;
    verify_ledger_chain [e3] mid ex_keys) = Ok final.
Proof.
  destruct ex_signed as (e1 & e2 & e3 & final & _ & Hwf & Hv & _). exists e1, e2, e3, final.
  apply (Forall_take _ 2%nat) in Hwf.
  rewrite <- (verify_ledger_chain_incremental [e1; e2] [e3] LedgerChainHead_genesis ex_keys ex_genesis_wf Hwf).
  exact Hv.
Defined.

Lemma ledger_tamper_evident_witness :
  ∃ l, length l = 3%nat ∧ (se_fields <$> l = se_fields <$> l ∨ ledgers_collide l l).
Proof.
  destruct ex_signed as (e1 & e2 & e3 & final & _ & Hwf & Hv & _). exists [e1; e2; e3].
  split; [reflexivity|]. exact (ledger_tamper_evident _ _ _ _ _ _ Hwf Hwf Hv Hv).
Defined.

Lemma removed_entry_detected_witness :
  ∃ e1 e2 e3, verify_ledger_chain [e1; e3] LedgerChainHead_genesis ex_keys
    = Err (LedgerError_SequenceGap (se_sequence_no e2) (se_sequence_no e2 + 1)).
Proof.
  destruct ex_signed as (e1 & e2 & e3 & final & _ & Hwf & Hv & _). exists e1, e2, e3.
  exact (removed_entry_detected [e1] e2 e3 [] LedgerChainHead_genesis ex_keys final Hv).
Defined.

(** The second entry with another request, under its stored hash and signature. *)
Definition ex_other_draft : LedgerAppendDraft :=
  let d := ex_draft x02 in
  mk_LedgerAppendDraft (ad_ledger_entry_id d) (ad_entry_type d) (ad_source_event_at d)
    (mk_RequestId (ref_from_random_bytes [x32])) (ad_source_event_id d) (ad_target_secret_id d)
    (ad_target_secret_version_id d) (ad_actor_user_id d) (ad_actor_device_id d) (ad_result d)
    (ad_error_code d) (ad_payload d).

Lemma edited_entry_detected_witness :
  ∃ e1 e2 e2' e3, se_fields e2' ≠ se_fields e2
    ∧ (verify_ledger_chain [e1; e2'; e3] LedgerChainHead_genesis ex_keys
         = Err (LedgerError_HashMismatch (se_sequence_no e2)) ∨ sha256_collision e2' e2).
Proof.
  destruct ex_signed as (e1 & e2 & e3 & final & _ & Hwf & Hv & _ & He2 & _).
  assert (LedgerAppendDraft_wf ex_other_draft) as Hd by (by split_and!).
  destruct (sign_with_sequence_total ex_other_draft (mk_LedgerSequenceNo 2) (se_entry_hash e1) ex_key)
    as (e & (_ & b & Hb & ->)%sign_with_sequence_Ok); [done|by split|done|done|].
  set (e2' := mk_SignedLedgerEntry (se_ledger_entry_id e2)
    (entry_fields ex_other_draft (mk_LedgerSequenceNo 2) (se_entry_hash e1) ex_v) b
    (se_entry_hash e2) (se_signature e2)).
  assert (se_fields e2' ≠ se_fields e2) as Hne.
  { rewrite He2. intros H%(f_equal cf_request_id). discriminate H. }
  exists e1, e2, e2', e3. split; [exact Hne|].
  assert (SignedLedgerEntry_wf e2) as Hwf2 by (by apply Forall_cons in Hwf as [_ [? _]%Forall_cons]).
  assert (SignedLedgerEntry_wf e2') as Hwf2'.
  { split; [by apply entry_fields_wf|exact Hb]. }
  apply (edited_entry_detected [e1] e2 e2' [e3] LedgerChainHead_genesis ex_keys final Hwf2 Hwf2' Hv).
  - unfold se_sequence_no. by rewrite He2.
  - unfold se_previous_entry_hash. by rewrite He2.
  - reflexivity.
  - exact Hne.
Defined.

(** ** The appender *)

Lemma signed_batch_verifies_witness :
  ∃ entries final, verify_ledger_chain entries LedgerChainHead_genesis ex_keys = Ok final
    ∧ last_sequence_no final = 3.
Proof.
  destruct ex_signed as (e1 & e2 & e3 & _ & Hs & _).
  destruct (signed_batch_verifies ex_appender ex_drafts LedgerChainHead_genesis ex_keys [e1; e2; e3]
    ex_genesis_wf ex_key_registered Hs) as (final & H). exists [e1; e2; e3], final. exact H.
Defined.

Lemma signing_succeeds_iff_in_range_witness :
  is_ok (sign_entries_from_head ex_appender ex_drafts LedgerChainHead_genesis) = true.
Proof.
  apply (signing_succeeds_iff_in_range ex_appender ex_drafts LedgerChainHead_genesis ex_appender_wf
    ex_genesis_wf ex_drafts_wf ex_drafts_signable). vm_compute. discriminate.
Defined.

(** The row the database keeps for an entry, with the key registered for it. *)
Definition ex_response (e : SignedLedgerEntry) : LedgerVerificationMaterialResponse :=
  let p := LedgerEntryRpcParams_from_signed_entry e in
  let key := LedgerSigningKey_verification_key ex_key in {|
  mr_ledger_entry_id := p_ledger_entry_id p;
  mr_sequence_no := p_sequence_no p;
  mr_entry_hash := Some (p_entry_hash p);
  mr_previous_entry_hash := Some (p_previous_entry_hash p);
  mr_signature := Some (p_signature p);
  mr_signature_key_version := Some (p_signature_key_version p);
  mr_pk_key_version := Some 1;
  mr_pk_public_key := Some ("\x" +:+ hex_encode (LedgerVerifyingKey_as_bytes key));
  mr_pk_algorithm := Some "ed25519"%string;
  mr_pk_status := Some "active"%string;
  mr_entry_type := Some (p_entry_type p);
  mr_source_event_at := Some (p_source_event_at p);
  mr_request_id := Some (p_request_id p);
  mr_source_event_id := p_source_event_id p;
  mr_target_secret_id := p_target_secret_id p;
  mr_target_secret_version_id := p_target_secret_version_id p;
  mr_actor_user_id := p_actor_user_id p;
  mr_actor_device_id := p_actor_device_id p;
  mr_result := Some (p_result p);
  mr_error_code := p_error_code p;
  mr_payload := Some (p_payload p);
  mr_canonicalization_version := Some (p_canonicalization_version p);
  mr_hash_algorithm := Some (p_hash_algorithm p);
  mr_signature_algorithm := Some (p_signature_algorithm p);
|}.

Lemma ex_response_stored e :
  stored_as (LedgerEntryRpcParams_from_signed_entry e) (ex_response e)
  ∧ key_registered (LedgerSigningKey_verification_key (signing_key ex_appender)) (ex_response e).
Proof.
  split; [by split|]. split_and!; [done..|]. exists "active"%string. split; [done|]. right. by left.
Qed.

Lemma exported_ledger_verifies_witness :
  ∃ entries rows keys final,
    try_map LedgerVerificationMaterialRow_try_from (ex_response <$> entries) = Ok rows
    ∧ try_map try_restore_signed_ledger_entry rows = Ok entries
    ∧ try_map try_restore_verifying_key rows = Ok (Some <$> keys)
    ∧ verify_ledger_chain entries LedgerChainHead_genesis keys = Ok final.
Proof.
  destruct ex_signed as (e1 & e2 & e3 & _ & Hs & _). exists [e1; e2; e3].
  apply (exported_ledger_verifies ex_appender ex_drafts LedgerChainHead_genesis [e1; e2; e3]
    (ex_response <$> [e1; e2; e3]) ex_appender_wf ltac:(discriminate) ex_genesis_wf eq_refl ex_drafts_wf Hs).
  repeat (constructor; [apply ex_response_stored|]). constructor.
Defined.

(** A database whose chain is always one entry ahead of the writer. *)
#[local] Instance ex_conflicting_service : LedgerService := {|
  svc_append_ledger_entry := λ _ w,
    (Err (SupabaseRpcError_NonSuccessStatus 409 "ledger_sequence_mismatch"), ref_tick w);
  svc_read_chain_state := λ w,
    (Ok [mk_LedgerChainStateResponse 0 (LedgerHash_to_bytea_hex LedgerHash_genesis)], ref_tick w);
|}.

Lemma append_bounded_rounds_witness :
  ∃ r w' conflicts w1, append ex_appender (ex_draft x01) sample_world = (r, w')
    ∧ retried ex_appender (ex_draft x01) 0 sample_world conflicts w1
    ∧ last_round ex_appender (ex_draft x01) (Z.of_nat (length conflicts)) w1 r w'.
Proof.
  destruct (append ex_appender (ex_draft x01) sample_world) as [r w'] eqn:E.
  destruct (append_bounded_rounds ex_appender (ex_draft x01) sample_world r w' ex_appender_wf E)
    as (conflicts & w1 & H1 & _ & H2). exists r, w', conflicts, w1. exact (conj eq_refl (conj H1 H2)).
Defined.

Lemma append_errors_witness :
  ∃ e w', append ex_appender (ex_draft x01) sample_world = (Err e, w')
    ∧ LedgerAppendError_as_error_code e ≠ "ledger_append_retry_exhausted"%string.
Proof.
  destruct (is_err_io_inv (append ex_appender (ex_draft x01) sample_world)) as (e & w' & E);
    [vm_compute; reflexivity|].
  exists e, w'. split; [exact E|].
  exact (proj1 (append_errors ex_appender (ex_draft x01) sample_world e w' ex_appender_wf E)).
Defined.

(** ** Rotation: the fifth version of a secret with four stored ones *)

Definition ex_prepared : PreparedSecretVersion := {|
  prep_write_action := EncryptRotate;
  prep_secret_id := sample_secret_id;
  prep_secret_version_id := mk_SecretVersionId (ref_from_random_bytes [x45]);
  prep_version := mk_SecretVersion 5;
  prep_owner_user_id := sample_owner;
  prep_classification := mk_Classification "confidential";
  prep_created_by_device_id := mk_DeviceId "sbc-1";
  prep_created_at := sample_created_at;
  prep_key_version := mk_KeyVersion 2;
  prep_ciphertext := mk_Ciphertext [x01];
  prep_encrypted_data_key := sample_wrapped;
  prep_nonce_or_iv := mk_Nonce (replicate 24 x07);
  prep_aad_context := JNull;
|}.
Definition ex_snapshot : list RetentionVersionSnapshot :=
  (λ p, mk_RetentionVersionSnapshot (mk_SecretVersionId (ref_from_random_bytes [p.1]))
    (mk_SecretVersion p.2) (mk_KeyVersion 1)) <$> [(x41, 1); (x42, 2); (x43, 3); (x44, 4)].

Lemma ex_prepared_wf : prepared_wf ex_prepared.
Proof. by split_and!. Qed.
Lemma ex_snapshot_wf : Forall snapshot_wf ex_snapshot.
Proof. by repeat constructor. Qed.

Lemma rotation_purges_oldest_witness :
  ∃ kept purged drafts, length kept = 4%nat
    ∧ Forall2 (purge_draft_of ex_request ex_prepared) purged drafts
    ∧ mk_RetentionVersionSnapshot (prep_secret_version_id ex_prepared) (prep_version ex_prepared)
        (prep_key_version ex_prepared) ∈ kept.
Proof.
  destruct (is_ok_io_inv (build_purge_ledger_drafts ex_request ex_prepared ex_snapshot sample_world))
    as (drafts & w & E); [vm_compute; reflexivity|].
  destruct (rotation_purges_oldest ex_request ex_prepared ex_snapshot sample_world drafts w
    ex_prepared_wf ex_snapshot_wf eq_refl E) as (kept & purged & _ & H1 & _ & _ & H2 & H3).
  exists kept, purged, drafts. split; [exact H1|]. split; [exact H2|]. apply H3. by repeat constructor.
Defined.

Lemma write_entries_extend_chain_witness :
  ∃ params head entries final,
    wp_ledger_entries params = LedgerEntryRpcParams_from_signed_entry <$> entries
    ∧ verify_ledger_chain entries head ex_keys = Ok final ∧ length entries = 2%nat.
Proof.
  destruct (is_ok_io_inv (build_rpc_params ex_appender ex_request ex_prepared (Some ex_snapshot) sample_world))
    as (params & w & E); [vm_compute; reflexivity|].
  destruct (write_entries_extend_chain ex_appender ex_request ex_prepared (Some ex_snapshot) sample_world
    params w ex_prepared_wf ex_snapshot_wf E) as (head & entries & final & H1 & H2 & H3 & _).
  exists params, head, entries, final. exact (conj H1 (conj H2 H3)).
Defined.

(** ** Digests: a database with the three entries and the digest of their month *)

Definition ex_period : MonthlyDigestPeriod := mk_MonthlyDigestPeriod "2026-03".
Definition ex_at : SourceEventAt := mk_SourceEventAt "111Z".
Definition ex_entries : list SignedLedgerEntry :=
  match sign_entries_from_head ex_appender ex_drafts LedgerChainHead_genesis with
  | Ok l => l
  | Err _ => []
  end.
Definition ex_hash (i : nat) : LedgerHash := from_option se_entry_hash LedgerHash_genesis (ex_entries !! i).
Definition ex_range : LedgerRangeForMonth :=
  mk_LedgerRangeForMonth (mk_LedgerSequenceNo 1) (mk_LedgerSequenceNo 3) (ex_hash 0) (ex_hash 2) 3.
Definition ex_input : GenerateMonthlyDigestInput := mk_GenerateMonthlyDigestInput ex_period ex_at ex_request.

Definition ex_digest_response : list DigestForVerificationResponse :=
  match sign_digest ex_appender ex_input ex_range with
  | Ok d => [mk_DigestForVerificationResponse 1 3 3 (DigestHash_to_hex (dg_digest_hash d))
      (MonthlyDigestPeriod_as_str ex_period) (SourceEventAt_as_str ex_at)
      (LedgerSignature_to_bytea_hex (dg_sbc_signature d)) 1
      (Some ("\x" +:+ hex_encode (LedgerVerifyingKey_as_bytes (LedgerSigningKey_verification_key ex_key))))
      (LedgerHash_to_bytea_hex (ex_hash 0)) (LedgerHash_to_bytea_hex (ex_hash 2))]
  | Err _ => []
  end.

#[local] Instance ex_digest_service : DigestService := {|
  svc_check_monthly_digest_exists := λ _ w, (Ok [false], ref_tick w);
  svc_fetch_ledger_range_for_month := λ _ w,
    (Ok [mk_LedgerRangeResponse 1 3 (LedgerHash_to_bytea_hex (ex_hash 0))
      (LedgerHash_to_bytea_hex (ex_hash 2)) 3], ref_tick w);
  svc_fetch_monthly_digest_for_verification := λ _ w, (Ok ex_digest_response, ref_tick w);
  svc_export_ledger_verification_materials := λ _ _ w, (Ok (ex_response <$> ex_entries), ref_tick w);
|}.

(** A database that appends what it is sent. *)
Definition ex_accepting_service : LedgerService := {|
  svc_append_ledger_entry := λ p w,
    (Ok [mk_AppendLedgerEntryResponse (p_ledger_entry_id p) (p_sequence_no p) (p_entry_hash p)
      (p_sequence_no p) (p_entry_hash p) false], ref_tick w);
  svc_read_chain_state := λ w,
    (Ok [mk_LedgerChainStateResponse 3 (LedgerHash_to_bytea_hex (ex_hash 2))], ref_tick w);
|}.

Lemma verify_monthly_digest_sound_witness :
  ∃ info w' m rows, verify_monthly_digest ex_period sample_world = (Ok info, w')
    ∧ digest_established ex_period m rows.
Proof.
  destruct (is_ok_io_inv (verify_monthly_digest ex_period sample_world)) as (info & w' & E);
    [vm_compute; reflexivity|].
  destruct (verify_monthly_digest_sound ex_period sample_world info w' E)
    as (m & rows & _ & _ & _ & _ & _ & _ & H & _). exists info, w', m, rows. exact (conj E H).
Defined.

Lemma generated_digest_is_signed_witness :
  ∃ digest w', generate_monthly_digest (Svc := ex_accepting_service) ex_appender ex_input sample_world
      = (Ok digest, w')
    ∧ LedgerVerifyingKey_verify_digest_bytes (LedgerSigningKey_verification_key ex_key)
        (DigestCanonicalBytes_as_bytes (dg_canonical_bytes digest)) (dg_sbc_signature digest) = Ok tt.
Proof.
  destruct (is_ok_io_inv (generate_monthly_digest (Svc := ex_accepting_service) ex_appender ex_input sample_world))
    as (digest & w' & E); [vm_compute; reflexivity|].
  exists digest, w'. split; [exact E|].
  exact (proj1 (proj2 (generated_digest_is_signed (Svc := ex_accepting_service) ex_appender ex_input
    sample_world digest w' E))).
Defined.

Lemma ex_digest_fields_wf :
  digest_fields_wf (mk_LedgerSequenceNo 1) (mk_LedgerSequenceNo 3) 3 (mk_LedgerSignatureKeyVersion 1).
Proof. by split_and!. Qed.

Lemma digest_canonical_form_binding_witness :
  ∃ b, build_monthly_digest_canonical_form ex_period (mk_LedgerSequenceNo 1) (mk_LedgerSequenceNo 3)
      LedgerHash_genesis LedgerHash_genesis 3 ex_at ex_v = Ok b ∧ ex_period = ex_period.
Proof.
  destruct (is_ok_inv (build_monthly_digest_canonical_form ex_period (mk_LedgerSequenceNo 1)
    (mk_LedgerSequenceNo 3) LedgerHash_genesis LedgerHash_genesis 3 ex_at ex_v)) as [b E];
    [vm_compute; reflexivity|].
  exists b. split; [exact E|].
  exact (proj1 (digest_canonical_form_binding _ _ _ _ _ _ _ _ _ _ _ _ _ _ _ _ b
    ex_digest_fields_wf ex_digest_fields_wf E E)).
Defined.

(** Materials with the signature the database has: that of the ledger entry. *)
Definition ex_stored_materials (e : SignedLedgerEntry) : MonthlyDigestVerificationMaterials :=
  mk_MonthlyDigestVerificationMaterials (mk_LedgerSequenceNo 1) (mk_LedgerSequenceNo 3) 3
    (DigestHash_to_hex (DigestHash_from_canonical_bytes (mk_DigestCanonicalBytes []))) ex_period ex_at
    (se_signature e) ex_v (Some (LedgerSigningKey_verification_key ex_key)) LedgerHash_genesis LedgerHash_genesis.

Lemma entry_signature_never_verifies_digest_witness :
  ∃ e, sign_with_sequence (ex_draft x01) (mk_LedgerSequenceNo 4) LedgerHash_genesis ex_key = Ok e
    ∧ (is_ok (verify_digest_materials ex_period (ex_stored_materials e) []) = false
       ∨ ∃ canonical, signature_reuse ex_key (LedgerCanonicalPayload_as_bytes (se_canonical_payload e)) canonical).
Proof.
  destruct (sign_with_sequence_total (ex_draft x01) (mk_LedgerSequenceNo 4) LedgerHash_genesis ex_key)
    as (e & E); [apply ex_draft_wf|by split|done|done|].
  exists e. split; [exact E|].
  destruct (entry_signature_never_verifies_digest ex_period (ex_stored_materials e) e ex_key (ex_draft x01)
    (mk_LedgerSequenceNo 4) LedgerHash_genesis [] ex_digest_fields_wf (ex_draft_wf x01) ltac:(done) ltac:(done)
    E eq_refl eq_refl) as [H|(b & _ & H)]; [left; exact H|right; by eexists].
Defined.
End examples.
