(* ===== verification/ServerExamples.v ===== *)
(** * The audit and key rotation properties at concrete data

    On the reference platform: metadata, events, and a database that hands out one
    row to rewrap. *)

From S2P Require Import Prelude RustStd Json Platform Reference Errors Types Aad Crypto Authorization SecretStore AuditTypes LedgerTypes LedgerPayload LedgerEntry LedgerChain LedgerRpc LedgerAppender Digest AuditEvent AuditSchema AuditBuilders KeyRotation Files AuditFallback Archive.

(** A row made of an identifier and a wrapped key parses to them. *)
Lemma parse_row_of {P : Platform} {LU : UuidLaws P} {LH : HexLaws P} id i n k kv v parsed :
  SecretId_wf i →
  parse_rotation_batch_row (mk_KeyRotationBatchRow id (SecretId_as_canonical_string i) n
    (encode_bytea (EncryptedDataKey_as_bytes k)) kv) v = Ok parsed →
  i = pr_secret_id parsed ∧ k = pr_encrypted_data_key parsed.
Proof.
  intros Hi (_ & Hid & b & Hb & Hk)%parse_row_fields. simpl in Hid, Hb.
  rewrite SecretId_parse_canonical // in Hid. rewrite decode_encode_bytea in Hb. split; [congruence|].
  destruct k, (pr_encrypted_data_key parsed). simpl in *. congruence.
Qed.

Section server_examples.
#[local] Existing Instance reference.

(** ** Audit events *)

Definition sx_metadata : Map :=
  [("new_key_version", json_uint 2); ("old_key_version", json_uint 1);
   ("source_event_at", JString "101Z")]%string.
Definition sx_request : RequestId := mk_RequestId (ref_from_random_bytes [x31]).
Definition sx_parts : AuditEventParts := {|
  ev_audit_event_id := mk_AuditEventId (ref_from_random_bytes [x41]);
  ev_request_id := sx_request;
  ev_actor_user_id := None;
  ev_actor_device_id := None;
  ev_action := AuditAction_KeyRotationStart;
  ev_target_secret_id := None;
  ev_result := AuditResult_Success;
  ev_key_version := Some (mk_KeyVersion 2);
  ev_metadata_json := mk_AuditMetadata (JObject sx_metadata);
|}.

Lemma audit_metadata_acceptance_witness :
  AuditMetadata_new (JObject sx_metadata) = Ok (mk_AuditMetadata (JObject sx_metadata))
  ∧ ∃ k, AuditMetadata_new (JObject [("trigger", JArray [JObject [(" JWT", JNull)]])]%string)
      = Err (AuditEventError_ForbiddenMetadataKey k).
Proof.
  assert (∀ k, key_occurs k (JObject sx_metadata) → is_forbidden_metadata_key k = false) as Hk.
  { intros k Hk%flat_key_occurs; [|by repeat constructor].
    apply (allowed_not_forbidden AuditAction_KeyRotationStart AuditResult_Success).
    unfold sx_metadata in Hk. set_solver. }
  split.
  - apply (proj1 (audit_metadata_acceptance (JObject sx_metadata) eq_refl)). split; [reflexivity|].
    split; [exact Hk|]. exists sx_metadata. split; [reflexivity|]. split.
    + intros v [= <-]. exists (mk_SourceEventAt "101Z"). by vm_compute.
    + discriminate.
  - destruct (proj2 (audit_metadata_acceptance (JObject [("trigger", JArray [JObject [(" JWT", JNull)]])]%string)
      eq_refl) _ " JWT"%string eq_refl) as (k & H & _); [|reflexivity|exists k; exact H].
    eapply occurs_in_field; [by left|]. eapply occurs_in_item; [by left|]. eapply occurs_here. by left.
Defined.

Lemma sx_metadata_wf : AuditMetadata_wf (ev_metadata_json sx_parts).
Proof. split; [reflexivity|]. by vm_compute. Qed.
Lemma audit_event_acceptance_witness :
  AuditEvent_new sx_parts = Ok (mk_AuditEvent sx_parts)
  ∧ conforms AuditAction_KeyRotationStart AuditResult_Success sx_metadata.
Proof.
  destruct (is_ok_inv (AuditEvent_new sx_parts)) as [e E]; [vm_compute; reflexivity|].
  pose proof (audit_event_acceptance sx_parts e sx_metadata_wf) as [H _].
  destruct (H E) as (-> & _ & _ & object & [= <-] & Hc). split; [exact E|exact Hc].
Defined.

(** ** Key rotation *)

Definition sx_appender : LedgerAppender :=
  mk_LedgerAppender (mk_LedgerSigningKey (mk_LedgerSignatureKeyVersion 1) (replicate 32 x55))
    LedgerAppenderConfig_default.
Definition sx_row : KeyRotationBatchRow :=
  mk_KeyRotationBatchRow "row-1" (SecretId_as_canonical_string sample_secret_id) 3
    (encode_bytea (EncryptedDataKey_as_bytes sample_wrapped)) 1.

(** A database with one row under the first key and the genesis head. *)
#[local] Instance sx_ledger : LedgerService := {|
  svc_append_ledger_entry _ := λ w, (Ok [], w);
  svc_read_chain_state := λ w, (Ok [mk_LedgerChainStateResponse 0
    (LedgerHash_to_bytea_hex LedgerHash_genesis)], w);
|}.
#[local] Instance sx_rotation : KeyRotationService := {|
  svc_key_rotation_status v := λ w, (Ok [mk_KeyRotationStatus v 1], w);
  svc_list_key_rotation_batch v limit := λ w, (Ok (if v =? 1 then [sx_row] else []), w);
  svc_apply_key_rotation_batch params := λ w, (Ok [mk_KeyRotationApplyOutcome 1 0], w);
  svc_complete_key_rotation params := λ w, (Ok [mk_KeyRotationCompleteOutcome 0], w);
  svc_append_audit_event_with_ledger params := λ w, (Ok [], w);
|}.

Definition sx_args (old new : str) : list str :=
  ["--old-key-version"; old; "--new-key-version"; new; "--batch-limit"; "10"]%string.

Lemma sx_key_version_wf : KeyVersion_wf (mk_KeyVersion 2).
Proof. done. Qed.
Lemma sx_old_key_version_wf : KeyVersion_wf (mk_KeyVersion 1).
Proof. done. Qed.

Lemma rewrap_sends_rewrapped_batch_witness :
  ∃ w' params w2 out, rewrap sample_ring sx_appender (sx_args "1" "2") sample_world = (Ok tt, w')
    ∧ svc_apply_key_rotation_batch params w2 = (Ok out, w') ∧ ap_new_key_version params = 2.
Proof.
  destruct (is_ok_io_inv (rewrap sample_ring sx_appender (sx_args "1" "2") sample_world))
    as ([] & w' & E); [vm_compute; reflexivity|].
  destruct (rewrap_sends_rewrapped_batch _ _ _ _ _ E)
    as (old & new & limit & omk & nmk & rows & w1 & Hold & Hnew & _ & _ & Hrows & H).
  assert (old = mk_KeyVersion 1) as -> by (vm_compute in Hold; congruence).
  assert (new = mk_KeyVersion 2) as -> by (vm_compute in Hnew; congruence).
  destruct H as [[-> _]|(params & w2 & out & Happ & _ & _ & Hv & _)]; [discriminate Hrows|].
  exists w', params, w2, out. exact (conj E (conj Happ Hv)).
Defined.

Lemma rotation_needs_two_versions_witness :
  start_with_ledger sample_ring sx_appender (sx_args "2" "2") sample_world ≠ (Ok tt, sample_world).
Proof.
  exact (proj1 (rotation_needs_two_versions sample_ring sx_appender (sx_args "2" "2")
    (mk_KeyVersion 2) sample_world sample_world eq_refl eq_refl)).
Defined.

(** The stored version the row belongs to, as its owner reads it. *)
Definition sx_input : DecryptCurrentSecretVersionInput := {|
  dec_claims := sample_claims;
  dec_secret_id := sample_secret_id;
  dec_version := mk_SecretVersion 3;
  dec_current_version := mk_SecretVersion 3;
  dec_owner_user_id := sample_owner;
  dec_classification := mk_Classification "confidential";
  dec_created_at := @mk_CreatedAt reference (5%positive, true);
  dec_key_version := mk_KeyVersion 1;
  dec_encrypted_data_key := sample_wrapped;
  dec_nonce_or_iv := mk_Nonce (replicate 24 x01);
  dec_ciphertext := mk_Ciphertext [x02];
  dec_aad_context := JNull;
|}.

Lemma sx_parsed :
  ∃ parsed, parse_rotation_batch_row sx_row (mk_KeyVersion 1) = Ok parsed
    ∧ sample_secret_id = pr_secret_id parsed ∧ sample_wrapped = pr_encrypted_data_key parsed.
Proof.
  destruct (is_ok_inv (parse_rotation_batch_row sx_row (mk_KeyVersion 1))) as [parsed E]; [vm_compute; reflexivity|].
  exists parsed. split; [exact E|]. exact (parse_row_of _ sample_secret_id _ _ _ _ _ eq_refl E).
Qed.

Lemma rewrapped_version_decrypts_alike_witness :
  ∃ update w' k,
    rewrap_row (mk_MasterKey (replicate 32 x11)) (mk_MasterKey (replicate 32 x22)) (mk_KeyVersion 1)
      (mk_KeyVersion 2) sx_row sample_world = (Ok update, w')
    ∧ decrypt_current_secret_version_with_keyring sample_ring (rewrapped_input sx_input (mk_KeyVersion 2) k)
      = decrypt_current_secret_version_with_keyring sample_ring sx_input.
Proof.
  destruct (is_ok_io_inv (rewrap_row (mk_MasterKey (replicate 32 x11)) (mk_MasterKey (replicate 32 x22))
    (mk_KeyVersion 1) (mk_KeyVersion 2) sx_row sample_world)) as (update & w' & E); [vm_compute; reflexivity|].
  destruct sx_parsed as (parsed & Hp & Hid & Hk).
  destruct (rewrapped_version_decrypts_alike sample_ring (mk_KeyVersion 1) (mk_KeyVersion 2) _ _ sx_row
    sample_world update w' parsed sx_input eq_refl eq_refl sx_key_version_wf E Hp Hid eq_refl Hk)
    as (parsed' & _ & _ & _ & H).
  exists update, w', (pr_encrypted_data_key parsed'). exact (conj E H).
Defined.

Lemma rotation_events_accepted_witness :
  ∃ e w', build_key_rotation_reencrypt_event sx_request
      (mk_KeyVersion 1) (mk_KeyVersion 2) 5 5 7 sample_world = (Ok e, w')
    ∧ ev_action (event_parts e) = AuditAction_KeyRotationReencrypt.
Proof.
  destruct (is_ok_io_inv (SourceEventAt_now_utc sample_world)) as (t & w1 & Et); [vm_compute; reflexivity|].
  destruct (is_ok_io_inv (AuditEventId_generate w1)) as (id & w2 & Ei).
  { replace w1 with (SourceEventAt_now_utc sample_world).2 by (rewrite Et; reflexivity). vm_compute. reflexivity. }
  destruct (rotation_events_accepted sx_request (mk_KeyVersion 1)
    (mk_KeyVersion 2) 5 7 sample_world t w1 id w2 sx_old_key_version_wf sx_key_version_wf
    ltac:(done) ltac:(done) Et Ei) as (m1 & m2 & m3 & _ & E & _).
  do 2 eexists. split; [exact E|reflexivity].
Defined.

Definition sx_builder : Builder :=
  B_RestoreTest (RestoreTestMetadata_with_source_event_at
    (RestoreTestMetadata_with_reason (RestoreTestMetadata_new 4 AuditTrigger_Cli) "no_current_secret_versions")
    (mk_SourceEventAt "101Z")).

Lemma builders_well_typed_witness :
  built AuditAction_RestoreTest (Some (mk_SourceEventAt "101Z")) (builder_build sx_builder).
Proof.
  apply (builders_well_typed sx_builder). intros t [= <-]. vm_compute. reflexivity.
Defined.

(** ** The audit queue *)

Definition sx_event : AuditEvent := mk_AuditEvent sx_parts.
Definition sx_store : LocalAuditFallbackStore := mk_LocalAuditFallbackStore "queue.jsonl" "archive" 1.

#[local] Instance sx_codec : ArchiveCodec := {|
  gzip_encode s := s;
  gzip_decode s := (s, None);
  archive_timestamp_text _ := "20260601T000000Z"%string;
|}.
Definition sx_down : AuditEventAppender :=
  {| append_audit_event _ := λ w, (Err (AuditAppendError_ExternalDependencyFailed "database_unreachable"), w) |}.
Definition sx_up : AuditEventAppender := {| append_audit_event _ := λ w, (Ok tt, w) |}.

Lemma sx_event_storable : event_storable sx_event.
Proof.
  destruct (is_ok_inv (AuditEvent_new sx_parts)) as [e E]; [vm_compute; reflexivity|].
  destruct (is_ok_inv (AuditMetadata_new (JObject sx_metadata))) as [m M]; [vm_compute; reflexivity|].
  assert (representable (JObject sx_metadata) = true) as R by (vm_compute; reflexivity).
  pose proof (AuditMetadata_new_wf _ _ R M) as Hwf. pose proof M as [-> _]%(AuditMetadata_new_Ok _ _ R).
  pose proof E as [-> _]%AuditEvent_new_Ok.
  refine (conj E (conj Hwf (conj _ (conj _ (conj _ _))))).
  - vm_compute. reflexivity.
  - intros d Hd. discriminate Hd.
  - intros i Hi. discriminate Hi.
  - intros v Hv. injection Hv as <-. exact sx_key_version_wf.
Qed.
Lemma sx_empty_queue : queue_holds "queue.jsonl" [] sample_world.
Proof. split; [constructor|by left]. Qed.

Lemma fallback_file_refines_queue_witness :
  ∃ w', append_pending sx_store sx_event sample_world = (Ok tt, w')
    ∧ queue_holds "queue.jsonl" [(sx_event, DeliveryStatus_Pending)] w'.
Proof.
  destruct (is_ok_io_inv (append_pending sx_store sx_event sample_world)) as ([] & w' & E);
    [vm_compute; reflexivity|].
  exists w'. split; [exact E|].
  exact (proj2 (fallback_file_refines_queue sx_store [] sx_event DeliveryStatus_Pending sample_world
    (Ok []) w' sx_empty_queue sx_event_storable) E).
Defined.

Lemma recorded_event_not_lost_witness :
  ∃ outcome w', record (A := sx_down) sx_store sx_event sample_world = (Ok outcome, w')
    ∧ outcome = AuditRecordOutcome_FallbackSucceeded
    ∧ queue_holds "queue.jsonl" [(sx_event, DeliveryStatus_Pending)] w'.
Proof.
  destruct (is_ok_io_inv (record (A := sx_down) sx_store sx_event sample_world)) as (o & w' & E);
    [vm_compute; reflexivity|].
  pose proof (recorded_event_not_lost (A := sx_down) sx_store [] sx_event sample_world o w'
    ltac:(by intros e w r w1 [= _ <-]) sx_empty_queue sx_event_storable E) as H.
  exists o, w'. split; [exact E|]. destruct o; [destruct H as [H _]; discriminate H|].
  split; [reflexivity|]. exact (proj1 (proj2 H)).
Defined.

(** The queue after one event was recorded while the database was down. *)
Lemma sx_queued :
  ∃ w, queue_holds "queue.jsonl" [(sx_event, DeliveryStatus_Pending)] w.
Proof.
  destruct (is_ok_io_inv (append_pending sx_store sx_event sample_world)) as ([] & w & E);
    [vm_compute; reflexivity|].
  exists w. apply (append_record_Ok sx_store sx_event DeliveryStatus_Pending [] sample_world w
    sx_event_storable sx_empty_queue E).
Qed.

Lemma resend_drains_queue_witness :
  ∃ w w', queue_holds "queue.jsonl" [(sx_event, DeliveryStatus_Pending)] w
    ∧ resend_pending (A := sx_up) sx_store w = (Ok (mk_ResendAuditSummary 1 1 0), w').
Proof.
  destruct sx_queued as [w Hw].
  destruct (resend_drains_queue (A := sx_up) sx_store [(sx_event, DeliveryStatus_Pending)] w
    ltac:(by intros e w1 r w2 [= _ <-]) ltac:(intros e w1; exists w1; reflexivity) Hw eq_refl)
    as (events & w1 & w' & q' & _ & _ & Hp & _ & E & _).
  pose proof (pending_events_refines sx_store _ w _ w1 Hw Hp) as [_ Hev].
  assert (length events = 1%nat) as Hl by (rewrite Hev; vm_compute; reflexivity). rewrite Hl in E.
  exists w, w'. exact (conj Hw E).
Defined.

Lemma resend_pending_exact_witness :
  ∃ w summary w', resend_pending (A := sx_down) sx_store w = (Ok summary, w')
    ∧ rs_sent summary + rs_failed summary = rs_attempted summary.
Proof.
  destruct sx_queued as [w Hw]. destruct (pending_events_works sx_store _ w Hw eq_refl) as (w1 & Hp & _).
  assert (∃ s, resend_pending (A := sx_down) sx_store w = (Ok s, w1)) as [s E].
  { unfold resend_pending, mbind, io_bind, io_map_err. rewrite Hp. eexists. vm_compute. reflexivity. }
  destruct (resend_pending_exact (A := sx_down) sx_store _ w s w1
    ltac:(by intros e w2 r w3 [= _ <-]) Hw E) as (answers & q' & _ & _ & _ & _ & _ & H).
  exists w, s, w1. exact (conj E H).
Defined.

Definition is_sealed (r : result LocalAuditStoreError RolloverOutcome) : bool :=
  match r with Ok (RolloverOutcome_Sealed _) => true | _ => false end.
Lemma is_sealed_inv {W} (r : result LocalAuditStoreError RolloverOutcome * W) :
  is_sealed r.1 = true → ∃ archive w, r = (Ok (RolloverOutcome_Sealed archive), w).
Proof. destruct r as [[[|archive]|] w]; try done. by exists archive, w. Qed.

Lemma rollover_keeps_pending_witness :
  ∃ w archive w', rollover sx_store w = (Ok (RolloverOutcome_Sealed archive), w')
    ∧ queue_holds "queue.jsonl" [] w'.
Proof.
  destruct (is_sealed_inv (rollover sx_store (mark_sent sx_store sx_event sample_world).2))
    as (archive & w' & E); [vm_compute; reflexivity|].
  destruct (is_ok_io_inv (mark_sent sx_store sx_event sample_world)) as ([] & w & Em);
    [vm_compute; reflexivity|].
  rewrite Em in E. exists w, archive, w'. split; [exact E|].
  pose proof (append_record_Ok sx_store sx_event DeliveryStatus_Sent [] sample_world w
    sx_event_storable sx_empty_queue Em) as Hw.
  destruct (proj2 (rollover_keeps_pending sx_store [(sx_event, DeliveryStatus_Sent)] w _ w' Hw E) archive eq_refl)
    as (data & _ & _ & _ & _ & _ & H).
  exact H.
Defined.
(** ** The archive *)

Definition sx_digest_bytes : result LedgerError DigestCanonicalBytes :=
  build_monthly_digest_canonical_form (mk_MonthlyDigestPeriod "2026-05") (mk_LedgerSequenceNo 1)
    (mk_LedgerSequenceNo 3) LedgerHash_genesis LedgerHash_genesis 3 (mk_SourceEventAt "101Z")
    (mk_LedgerSignatureKeyVersion 1).
Definition sx_digest (b : DigestCanonicalBytes) : SignedMonthlyDigest := {|
  dg_period := mk_MonthlyDigestPeriod "2026-05";
  dg_start_sequence_no := mk_LedgerSequenceNo 1;
  dg_end_sequence_no := mk_LedgerSequenceNo 3;
  dg_start_entry_hash := LedgerHash_genesis;
  dg_end_entry_hash := LedgerHash_genesis;
  dg_entry_count := 3;
  dg_digest_generated_at := mk_SourceEventAt "101Z";
  dg_signature_key_version := mk_LedgerSignatureKeyVersion 1;
  dg_canonical_bytes := b;
  dg_digest_hash := DigestHash_from_canonical_bytes b;
  dg_sbc_signature := mk_LedgerSignature (replicate 64 x07);
|}.
Lemma sx_digest_made b : sx_digest_bytes = Ok b → digest_made (sx_digest b).
Proof. intros Hb. split; [repeat split; cbv; discriminate|]. exact (conj Hb eq_refl). Qed.

Lemma archived_document_verifiable_witness :
  ∃ b package, sx_digest_bytes = Ok b ∧ ArchiveExportPackage_from_digest (sx_digest b) = Ok package
    ∧ ∃ text, ArchiveExportPackage_to_json_bytes package = Ok text.
Proof.
  destruct (is_ok_inv sx_digest_bytes) as [b E]; [vm_compute; reflexivity|].
  destruct (archived_document_verifiable (sx_digest b) (sx_digest_made b E))
    as (package & text & document & digest & Hp & Ht & _).
  exists b, package. split; [exact E|]. split; [exact Hp|]. exists text. exact Ht.
Defined.

(** A store that cannot be reached. *)
#[local] Instance sx_s3 : S3Http := {|
  s3_put_object _ _ _ := λ w, (Err (S3BackendError_Network "unreachable"), w);
  s3_get_object_bytes _ _ := λ w, (Err (S3BackendError_Network "unreachable"), w);
  s3_head_object _ _ := λ w, (Err (S3BackendError_Network "unreachable"), w);
  s3_list_objects_v2 _ _ := λ w, (Err (S3BackendError_Network "unreachable"), w);
  tokio_sleep _ := λ w, w;
|}.
#[local] Instance sx_s3_store : S3Store sx_s3.
Proof. by refine {| s3_stored := λ _ _, None |}. Defined.

Definition sx_time : @DateTime reference := (1%positive, true).

Lemma run_with_backoff_bounded_witness :
  ∃ r w' k, run_with_backoff 2 5 (s3_put_object "key" [] sx_time) sample_world = (r, w')
    ∧ Attempts 2 5 (s3_put_object "key" [] sx_time) 0 sample_world k r w'.
Proof.
  destruct (run_with_backoff 2 5 (s3_put_object "key" [] sx_time) sample_world)
    as [r w'] eqn:E.
  destruct (run_with_backoff_bounded 2 5 (s3_put_object "key" [] sx_time) sample_world r w'
    ltac:(lia) ltac:(lia) E) as [(k & Hk & _) _].
  exists r, w', k. exact (conj eq_refl Hk).
Defined.

Definition sx_key : ArchiveObjectKey := mk_ArchiveObjectKey "digests/2026-05/digest.json".
Definition sx_package : ArchiveExportPackage := mk_ArchiveExportPackage "aa" "bb" 1 (JObject []).
Definition sx_config : S3ArchiveBackendConfig := mk_S3ArchiveBackendConfig 1 100.
Definition sx_queue : LocalArchiveQueue := mk_LocalArchiveQueue "archive-queue.jsonl".

Lemma sx_put_fails w : ∃ w', put_object sx_config sx_key sx_package w
    = (Err (ArchiveBackendError_BackendFailed "archive_export_network_failed"), w') ∧ w'.2 = w.2.
Proof. eexists. split; reflexivity. Qed.

Lemma export_stored_or_queued_witness :
  ∃ outcome w' b, put_object_or_enqueue sx_config sx_key sx_package sx_queue sample_world = (Ok outcome, w')
    ∧ ArchiveExportPackage_to_json_bytes sx_package = Ok b.
Proof.
  destruct (is_ok_io_inv (put_object_or_enqueue sx_config sx_key sx_package sx_queue sample_world))
    as (outcome & w' & E); [vm_compute; reflexivity|].
  destruct (export_stored_or_queued sx_config sx_key sx_package sx_queue [] sample_world outcome w'
    ltac:(vm_compute; discriminate) ltac:(split; vm_compute; congruence)
    ltac:(intros w1 r w2 Hp; destruct (sx_put_fails w1) as (w3 & Hf & Hs); rewrite Hf in Hp;
          injection Hp as _ <-; intros path; cbn; unfold ref_contents; rewrite Hs; reflexivity)
    ltac:(split; [constructor|left; split; reflexivity]) E) as (b & Hb & _).
  exists outcome, w', b. exact (conj E Hb).
Defined.
End server_examples.
