(* ===== verification/OpsExamples.v ===== *)
(** * The operational properties at concrete data

    On the reference platform: the health of the server, the SIEM forwarder with
    a sink that refuses, and the auditor's command over a database that exports
    nothing. *)

From S2P Require Import Prelude RustStd Json Platform Reference Errors Types AuditTypes LedgerTypes LedgerPayload LedgerEntry LedgerChain LedgerRpc LedgerAppender Digest DigestUseCases Files AuditEvent AuditBuilders AuditFallback Archive App Siem Auditor Examples ServerExamples.

Section ops_examples.
#[local] Existing Instance reference.

(** One tick of the reference clock is one second. *)
#[local] Instance ox_instants : Instants reference := {| dt_nanos d := Zpos d.1 * 1000000000 |}.

Definition ox_shared : Shared :=
  mk_Shared (mk_ReadinessStateInner true (Some (6%positive, true)) None) SiemForwarderStatus_new.

(** ** Health *)

Lemma ready_iff_recent_probe_witness :
  ∃ response s', ready_check (λ _ _, None) 5000000000 "queue.jsonl" (ox_shared, sample_world) = (response, s')
    ∧ response.1 = 200.
Proof.
  destruct (ready_check (λ _ _, None) 5000000000 "queue.jsonl" (ox_shared, sample_world)) as [response s'] eqn:E.
  destruct (ready_iff_recent_probe (λ _ _, None) 5000000000 "queue.jsonl" (ox_shared, sample_world) response s'
    ltac:(lia) ltac:(vm_compute; discriminate) E) as (_ & [_ H] & _).
  exists response, s'. split; [reflexivity|]. apply H. split; [reflexivity|].
  exists (6%positive, true). split; [reflexivity|]. vm_compute. discriminate.
Defined.

(** ** The SIEM *)

#[local] Instance ox_sink : SiemSink :=
  {| siem_send_event _ := λ w, (Err (SiemSinkError_BackendFailed "siem_unreachable"), w) |}.
Definition ox_buffer : LocalSiemFallbackBuffer := mk_LocalSiemFallbackBuffer "siem.jsonl".
Definition ox_siem_event : SiemEvent := SiemEvent_from_audit_event sx_event.

Lemma ox_storable : siem_storable ox_siem_event.
Proof. split; [|split; [|split]]; [by vm_compute| |by vm_compute..]. intros z [= <-]. by vm_compute. Qed.

Lemma siem_event_kept_witness :
  ∃ outcome s', forward ox_buffer ox_siem_event (ox_shared, sample_world) = (outcome, s')
    ∧ sh_readiness s'.1 = sh_readiness ox_shared.
Proof.
  destruct (forward ox_buffer ox_siem_event (ox_shared, sample_world)) as [outcome s'] eqn:E.
  destruct (siem_event_kept (K := ox_sink) ox_buffer [] ox_siem_event (ox_shared, sample_world) outcome s'
    ltac:(by intros e w r w1 [= _ <-]) ox_storable ltac:(split; [constructor|left; split; reflexivity]) E) as [H _].
  exists outcome, s'. exact (conj eq_refl H).
Defined.

Lemma siem_outage_tracked_witness :
  ∃ obs s', siem_run ox_buffer obs (ox_shared, sample_world) s'
    ∧ si_failure_since (sh_siem_status s'.1) = Some (8%positive, true).
Proof.
  destruct (siem_resend_pending ox_buffer (ox_shared, sample_world)) as [summary s1] eqn:E1.
  destruct (forward ox_buffer ox_siem_event s1) as [outcome s'] eqn:E2.
  pose proof (run_resend ox_buffer _ summary s1 _ s' E1
    (run_forward ox_buffer ox_siem_event _ outcome s' [] s' E2 (run_done ox_buffer s'))) as Hrun.
  destruct (siem_outage_tracked ox_buffer _ (ox_shared, sample_world) s' (9%positive, true) 0 Hrun eq_refl) as [H _].
  eexists _, s'. split; [exact Hrun|]. apply H.
  assert (resend_answers ox_buffer (ox_shared, sample_world).2 = []) as Ha by (vm_compute; reflexivity).
  assert (forward_failed_at ox_siem_event s1.2 = Some (8%positive, true)) as Hf.
  { change s1 with (summary, s1).2. rewrite -E1. vm_compute. reflexivity. }
  rewrite Ha Hf. exists [], [Obs_Resend []], []. split; [reflexivity|].
  split; [left; reflexivity|]. split; [|constructor]. constructor; [|constructor].
  split; [exists []; reflexivity|]. intros [Hne _]. exact (Hne eq_refl).
Defined.

Lemma siem_events_carry_no_secret_keys_witness :
  ∃ e, head ex_entries = Some e
    ∧ (∀ k, key_occurs k (SiemEvent_to_value (SiemEvent_from_audit_event sx_event)) →
        is_forbidden_metadata_key k = false)
    ∧ ∀ k, key_occurs k (SiemEvent_to_value (SiemEvent_from_signed_ledger_entry e)) →
        is_forbidden_payload_key k = false.
Proof.
  destruct ex_signed as (e1 & e2 & e3 & final & E & _ & _ & H1 & _).
  assert (LedgerPayload_wf (cf_payload (se_fields e1))) as Hp.
  { rewrite H1. destruct (ex_draft_wf x01) as (_ & Hp & _). exact Hp. }
  destruct (siem_events_carry_no_secret_keys sx_event e1 (proj1 (proj2 sx_event_storable)) Hp) as (Ha & Hb & _).
  exists e1. split; [unfold ex_entries; rewrite E; reflexivity|]. exact (conj Ha Hb).
Defined.

(** ** The auditor *)

(** A database with the second entry of the chain only. *)
#[local] Instance ox_digest_service : DigestService := {|
  svc_check_monthly_digest_exists := λ _ w, (Ok [], w);
  svc_fetch_ledger_range_for_month := λ _ w, (Ok [], w);
  svc_fetch_monthly_digest_for_verification := λ _ w, (Ok [], w);
  svc_export_ledger_verification_materials := λ _ _ w, (Ok (ex_response <$> take 1 (drop 1 ex_entries)), w);
|}.

Lemma auditor_verifies_only_from_genesis_witness :
  ∃ output w', run_verify_command (Ok tt) 2 2 sample_world = (Ok output, w')
    ∧ vo_valid output = false ∧ vo_checked_count output = 1.
Proof.
  destruct (is_ok_io_inv (run_verify_command (Ok tt) 2 2 sample_world)) as (output & w' & E); [vm_compute; reflexivity|].
  destruct (auditor_verifies_only_from_genesis (Ok tt) 2 2 sample_world output w' E)
    as (start & stop & rows & entries & keys & w1 & _ & _ & _ & _ & _ & _ & Hc & _).
  exists output, w'. split; [exact E|].
  assert ((λ r, match r with Ok o => negb (vo_valid o) && (vo_checked_count o =? 1) | Err _ => false end)
    (run_verify_command (Ok tt) 2 2 sample_world).1 = true) as H by (vm_compute; reflexivity).
  rewrite E in H. cbn [fst] in H. apply andb_true_iff in H as [H1 H2]. apply negb_true_iff in H1.
  apply Z.eqb_eq in H2. exact (conj H1 H2).
Defined.
End ops_examples.
