(* ===== verification/UseCaseExamples.v ===== *)
(** * The use cases at concrete data

    On the reference platform: a server over a database that stores one version of a
    secret, takes every write and appends every entry it is sent. *)

From S2P Require Import Prelude RustStd Json Platform Reference Errors Types Aad Crypto Authorization SecretStore Alias AuditTypes LedgerTypes LedgerPayload LedgerEntry LedgerChain LedgerRpc LedgerAppender ApiError WriteLedger ReadModel Digest DigestUseCases Files Archive AuditEvent AuditBuilders Incident KeyRotation AuditFallback App ExportUseCase Siem AuditReporter UseCases AliasUseCases Handlers Maintenance Scheduler Examples ServerExamples OpsExamples.

Section use_case_examples.
#[local] Existing Instance reference.

(** ** The server and its database *)

Definition ux_state : AppState :=
  mk_AppState sample_ring sample_alias_key (mk_KeyVersion 1) sample_fingerprint_key (mk_KeyVersion 1)
    sx_appender sx_store ox_buffer.
Definition ux_shared : Shared := ox_shared.

#[local] Instance ux_ledger : LedgerService := {|
  svc_append_ledger_entry := λ p w,
    (Ok [mk_AppendLedgerEntryResponse (p_ledger_entry_id p) (p_sequence_no p) (p_entry_hash p)
      (p_sequence_no p) (p_entry_hash p) false], ref_tick w);
  svc_read_chain_state := λ w,
    (Ok [mk_LedgerChainStateResponse 0 (LedgerHash_to_bytea_hex LedgerHash_genesis)], ref_tick w);
|}.

(** The version that is stored, and its row. *)
Definition ux_version : PreparedSecretVersion :=
  match prepare_new_secret_version_with_keyring sample_ring sample_new_input sample_world with
  | Some (Ok p, _) => p
  | _ => ex_prepared
  end.
Definition ux_params : option WriteSecretVersionParams :=
  match build_rpc_params sx_appender sx_request ux_version None sample_world with
  | (Ok params, _) => Some params
  | _ => None
  end.
Definition ux_row_of (params : WriteSecretVersionParams) : SecretVersionReadRow :=
  mk_SecretVersionReadRow (wp_secret_version_id params) (wp_secret_id params) (wp_version params)
    (wp_ciphertext params) (wp_encrypted_data_key params) (wp_key_version params) (wp_algorithm params)
    (wp_classification params) (wp_nonce_or_iv params) (wp_aad_context params) (wp_owner_user_id params)
    (wp_created_at params)
    (mk_SecretReadJoin (wp_secret_version_id params) (wp_owner_user_id params) (wp_classification params)).
Definition ux_sample_of (params : WriteSecretVersionParams) : RestoreTestSampleRow :=
  mk_RestoreTestSampleRow (wp_secret_version_id params) (wp_secret_id params) (wp_version params)
    (wp_ciphertext params) (wp_encrypted_data_key params) (wp_key_version params) (wp_nonce_or_iv params)
    (wp_aad_context params) (wp_classification params) (wp_created_at params).
Definition ux_rows : list SecretVersionReadRow :=
  from_option (λ params, [ux_row_of params]) [] ux_params.
Definition ux_samples : list RestoreTestSampleRow :=
  from_option (λ params, [ux_sample_of params]) [] ux_params.

#[local] Instance ux_secrets : SecretService := {|
  svc_read_secret_versions := λ _ _ w, (Ok ux_rows, ref_tick w);
  svc_read_retention_snapshot := λ _ w, (Ok [], ref_tick w);
  svc_write_secret_version := λ p w,
    (Ok [mk_WriteSecretVersionResponse (wp_secret_id p) (wp_secret_version_id p) (wp_version p) []], ref_tick w);
  svc_resolve_secret_alias := λ _ w, (Ok [], ref_tick w);
|}.
#[local] Instance ux_rotation : KeyRotationService := {|
  svc_key_rotation_status v := λ w, (Ok [], w);
  svc_list_key_rotation_batch v limit := λ w, (Ok [], w);
  svc_apply_key_rotation_batch params := λ w, (Ok [], w);
  svc_complete_key_rotation params := λ w, (Ok [], w);
  svc_append_audit_event_with_ledger p := λ w,
    (Ok [mk_AppendLedgerEntryResponse (wl_ledger_entry_id p) (wl_sequence_no p) (wl_entry_hash p)
      (wl_sequence_no p) (wl_entry_hash p) false], ref_tick w);
|}.
#[local] Instance ux_aliases : AliasService := {|
  svc_create_secret_alias := λ p w, (Ok [mk_CreateSecretAliasResponse (ca_secret_alias_id p)], ref_tick w);
  svc_update_secret_alias := λ _ w, (Ok [], w);
  svc_delete_secret_alias := λ _ w, (Ok [], w);
  svc_list_secret_aliases := λ _ w, (Ok [], w);
  svc_get_secret_alias_for_update := λ _ w, (Ok [], w);
|}.
#[local] Instance ux_audit : AuditEventAppender := sx_up.
#[local] Instance ux_sink : SiemSink := {| siem_send_event _ := λ w, (Ok tt, w) |}.
#[local] Instance ux_clock : MonotonicClock reference := {| instant_now w := (Z.of_nat w.1, ref_tick w) |}.
#[local] Instance ux_checks : CheckService := {|
  svc_sample_restore_test := λ _ w, (Ok ux_samples, ref_tick w);
  svc_integrity_check := λ w, (Ok [IntegrityCheckSummary_zero], ref_tick w);
|}.

Definition ux_jwt : RawJwt := mk_RawJwt "jwt".
Definition ux_ref : SecretRef := SecretRef_Id (prep_secret_id ux_version).
Definition ux_s : Shared * World := (ux_shared, sample_world).


(** A clock that counts half microseconds, and a column that drops the half. *)
#[local] Instance ux_instants : Instants reference := {| dt_nanos d := (Zpos d.1 - 1) * 500 |}.
Definition ux_whole (p : positive) : positive := match p with xO _ => Pos.pred p | _ => p end.
Lemma ux_whole_nanos p : (Zpos (ux_whole p) - 1) * 500 mod 1000 = 0.
Proof.
  assert (∃ k, Zpos (ux_whole p) - 1 = 2 * k) as [k ->].
  { destruct p as [p|p|]; cbn [ux_whole]; [exists (Zpos p); lia|exists (Zpos p - 1); lia|by exists 0]. }
  replace (2 * k * 500) with (k * 1000) by lia. apply Z.mod_mul. lia.
Qed.
#[local] Instance ux_column : TimestampColumn reference.
Proof.
  refine {| timestamptz := λ d : @DateTime reference, (ux_whole d.1, true) |}.
  - done.
  - intros d. apply ux_whole_nanos.
  - intros [p b] Hb Hw. cbn in *. subst b. f_equal. destruct p as [p|p|]; [done| |done].
    exfalso. revert Hw. replace ((Zpos p~0 - 1) * 500) with (500 + (Zpos p - 1) * 1000) by lia.
    rewrite Z.mod_add; [|lia]. done.
Defined.

(** ** Secrets *)

Definition ux_create : CreateSecretRequest := mk_CreateSecretRequest "confidential" "sbc-1" "6869".

Lemma created_secret_is_answered_witness :
  ∃ status answer s' params w response,
    handle_create_secret "join" "hex" ux_state sx_request sample_claims ux_create ux_s = (Ok (status, answer), s')
    ∧ call_write_secret_version params w = (Ok response, s'.2)
    ∧ cp_secret_id answer = SecretId_as_canonical_string (wo_secret_id response).
Proof.
  destruct (is_ok_io_inv (handle_create_secret "join" "hex" ux_state sx_request sample_claims ux_create ux_s))
    as ([status answer] & s' & E); [vm_compute; reflexivity|].
  destruct (created_secret_is_answered "join" "hex" ux_state sx_request sample_claims ux_create ux_s status answer s'
    sample_ring_wf sx_key_version_wf E) as (params & w & response & secret_id & created_at & w0 & w1 & H1 & H2 & _).
  exists status, answer, s', params, w, response. exact (conj E (conj H1 H2)).
Defined.

Lemma plaintext_only_after_record_witness :
  ∃ out s' event entry w3 appended w4,
    decrypt_secret ux_state sx_request ux_ref ux_jwt sample_claims ux_s = (Ok out, s')
    ∧ call_append_audit_event_with_ledger event entry w3 = (Ok appended, w4)
    ∧ ev_action (event_parts event) = AuditAction_Decrypt.
Proof.
  destruct (is_ok_io_inv (decrypt_secret ux_state sx_request ux_ref ux_jwt sample_claims ux_s))
    as (out & s' & E); [vm_compute; reflexivity|].
  destruct (plaintext_only_after_record ux_state sx_request ux_ref ux_jwt sample_claims ux_s out s' E)
    as (secret_id & row & w1 & w2 & event & entry & w3 & appended & w4 & _ & _ & _ & _ & _ & H1 & H2 & _).
  exists out, s', event, entry, w3, appended, w4. exact (conj E (conj H1 H2)).
Defined.

Definition ux_rotate : RotateSecretCommand :=
  mk_RotateSecretCommand ux_ref (mk_DeviceId "sbc-1") (mk_Plaintext [x6a]) sample_created_at.

Lemma rotate_writes_next_version_witness :
  ∃ out s' current p params w4 response,
    rotate_secret "join" ux_state sx_request ux_jwt sample_claims ux_rotate ux_s = (Ok out, s')
    ∧ SecretVersion_get (prep_version p) = SecretVersion_get (pd_version current) + 1
    ∧ call_write_secret_version params w4 = (Ok response, s'.2) ∧ wu_version out = wo_version response.
Proof.
  destruct (is_ok_io_inv (rotate_secret "join" ux_state sx_request ux_jwt sample_claims ux_rotate ux_s))
    as (out & s' & E); [vm_compute; reflexivity|].
  destruct (rotate_writes_next_version "join" ux_state sx_request ux_jwt sample_claims ux_rotate ux_s out s'
    sample_ring_wf eq_refl E)
    as (secret_id & current & w1 & w2 & snapshot & p & params & w3 & w4 & response & _ & _ & _ & _ & H1 & _ & _ & _ & H2 & _ & H3).
  exists out, s', current, p, params, w4, response. exact (conj E (conj H1 (conj H2 H3))).
Defined.

Definition ux_failure : FailureAuditContext :=
  mk_FailureAuditContext sx_request (Some sample_owner) None AuditAction_EncryptCreate.

Lemma write_failure_without_version_unaudited_witness :
  ∃ e s', failure_record ux_state ux_failure ux_s = (Err (AuditRecordError_EventConstructionFailed e), s').
Proof.
  destruct (failure_record ux_state ux_failure ux_s) as [r s'] eqn:E.
  destruct (write_failure_without_version_unaudited ux_state ux_failure ux_s r s'
    ltac:(apply list_elem_of_here) E) as (e & w & -> & _).
  exists e, s'. reflexivity.
Defined.

(** ** Aliases *)

Definition ux_alias : CreateSecretAliasCommand := mk_CreateSecretAliasCommand (prep_secret_id ux_version) sample_alias.

Lemma created_alias_is_listed_witness :
  ∃ out s', create_secret_alias ux_state sx_request ux_jwt sample_claims ux_alias ux_s = (Ok out, s')
    ∧ co_secret_id out = prep_secret_id ux_version.
Proof.
  destruct (is_ok_io_inv (create_secret_alias ux_state sx_request ux_jwt sample_claims ux_alias ux_s))
    as (out & s' & E); [vm_compute; reflexivity|].
  destruct (created_alias_is_listed ux_state sx_request ux_jwt sample_claims ux_alias ux_s out s'
    ltac:(vm_compute; reflexivity) sx_old_key_version_wf sample_alias_wf E) as [H _].
  exists out, s'. exact (conj E H).
Defined.

(** ** Restore test *)

Definition is_success (outcome : RestoreTestOutcome) : bool :=
  match outcome with RestoreTestOutcome_Success => true | _ => false end.
Lemma is_success_inv {W} (r : RestoreTestOutcome * W) :
  is_success r.1 = true → ∃ s', r = (RestoreTestOutcome_Success, s').
Proof. destruct r as [[] s']; [by exists s'|done]. Qed.

Lemma restore_test_success_is_earned_witness :
  ∃ s' rows w1 w2, run_restore_test_once ux_state 5 AuditTrigger_Background ux_s = (RestoreTestOutcome_Success, s')
    ∧ call_sample_restore_test 5 w1 = (Ok rows, w2) ∧ Forall (restorable sample_ring) rows.
Proof.
  destruct (is_success_inv (run_restore_test_once ux_state 5 AuditTrigger_Background ux_s)) as [s' E];
    [vm_compute; reflexivity|].
  destruct (restore_test_success_is_earned ux_state 5 AuditTrigger_Background ux_s s' E)
    as (rid & rows & w1 & w2 & H1 & H2 & _).
  exists s', rows, w1, w2. exact (conj E (conj H1 H2)).
Defined.

Lemma ux_version_prepared :
  prepared_from sample_ring (new_owner_user_id sample_new_input) (new_plaintext sample_new_input) ux_version.
Proof.
  destruct (succeeds_inv (prepare_new_secret_version_with_keyring sample_ring sample_new_input
    sample_world)) as (p & w' & E); [vm_compute; reflexivity|].
  unfold ux_version. rewrite E. 
  exact (from_create sample_ring sample_new_input sample_world p w' (conj eq_refl eq_refl) E).
Qed.
Lemma ux_samples_stored :
  ∃ times, Forall2 (written_sample sample_ring) times ux_samples ∧ Forall whole_microseconds times.
Proof.
  unfold ux_samples, ux_params. destruct (build_rpc_params sx_appender sx_request ux_version None sample_world)
    as [[params|] w'] eqn:E; [|exists []; split; constructor].
  assert (CreatedAt_wf (prep_created_at ux_version)) as Hwf by (vm_compute; reflexivity).
  assert (whole_microseconds (prep_created_at ux_version)) as Hw by (vm_compute; reflexivity).
  pose proof (build_rpc_params_fields _ _ _ _ _ _ _ E) as (_ & _ & _ & _ & Ht & _).
  exists [prep_created_at ux_version]. split; [|constructor; [exact Hw|constructor]].
  constructor; [|constructor].
  eexists _, _, ux_version, sx_appender, sx_request, None, sample_world, params, w'.
  split; [exact ux_version_prepared|]. split; [reflexivity|]. split; [exact E|].
  split_and!; [reflexivity..|]. cbn [rt_created_at ux_sample_of]. rewrite (CreatedAt_round_trip _ _ Hwf Ht).
  cbn [fmap result_fmap]. exact (f_equal Ok (eq_sym (proj2 (kept_created_at_exact _ Hwf) Hw))).
Qed.

Lemma written_versions_pass_restore_test_witness :
  length ux_samples = 1%nat
  ∧ (run_restore_test_once ux_state 5 AuditTrigger_Background ux_s).1
    ∈ [RestoreTestOutcome_Success; RestoreTestOutcome_Failure "request_id_generation_failed";
       RestoreTestOutcome_Failure "restore_test_audit_record_failed"].
Proof.
  split; [vm_compute; reflexivity|]. destruct ux_samples_stored as (times & Hrows & Hw).
  exact (proj1 (written_versions_pass_restore_test ux_state 5 AuditTrigger_Background ux_s times ux_samples (λ _, eq_refl)
    sample_ring_wf sx_key_version_wf Hrows) Hw).
Defined.

(** ** Incidents *)

#[local] Instance ux_incidents : IncidentService := {|
  svc_incident_recently_seen := λ _ w, (Ok false, ref_tick w);
  svc_record_incident := λ p w,
    (Ok [mk_RecordIncidentResponse (ri_audit_event_id p) (Some "entry"%string) false], ref_tick w);
|}.
#[local] Instance ux_notifications : NotificationSink := {|
  sink_name := "dummy"%string;
  sink_notify := λ _ w, (Ok tt, ref_tick w);
|}.
Definition ux_incident : IncidentRecordInput := non_auditor_ledger_read_input "audit_ui".

Lemma raised_incidents_are_accepted_witness :
  is_ok (build_incident_metadata ux_incident NotificationResult_Sent "dummy" ex_at) = true.
Proof.
  exact (proj1 (raised_incidents_are_accepted "audit_ui" ux_incident NotificationResult_Sent "dummy" ex_at
    ltac:(split; [split; vm_compute; reflexivity || discriminate|repeat constructor]) ltac:(split; vm_compute; reflexivity || discriminate)
    ltac:(vm_compute; reflexivity) (raised_ledger_read "audit_ui"))).
Defined.

Lemma incident_is_recorded_or_known_witness :
  ∃ r w' event entry nr row rows w4, incident_record sx_appender ux_incident sample_world = (Ok r, w')
    ∧ svc_record_incident (RecordIncidentParams_from_input ux_incident event entry nr) w4 = (Ok (row :: rows), w').
Proof.
  destruct (is_ok_io_inv (incident_record sx_appender ux_incident sample_world)) as (r & w' & E);
    [vm_compute; reflexivity|].
  destruct (incident_is_recorded_or_known sx_appender ux_incident sample_world r w' E)
    as (t & w1 & Ht & [[H _]|(w2 & nr & w3 & event & entry & row & rows & w4 & id & _ & _ & H & _)]); [discriminate H|].
  exists r, w', event, entry, nr, row, rows, w4. exact (conj E H).
Defined.

(** ** Exports *)

#[local] Instance ux_files : WholeFiles := {|
  fs_write path data := λ w, (Ok tt, (w.1, <[path := data]> w.2));
  fs_read_file path := λ w,
    match w.2 !! path with Some data => (Ok data, w) | None => (Err IoError_NotFound, w) end;
|}.
Definition ux_digest : SignedMonthlyDigest :=
  sx_digest match sx_digest_bytes with Ok b => b | Err _ => mk_DigestCanonicalBytes [] end.

Lemma export_is_verified_and_recorded_witness :
  ∃ key w' package w1 w2,
    export_digest_to_archive (B := LocalFileArchiveBackend "archive") sx_store sx_appender ux_digest sx_request ex_at
      sample_world = (Ok key, w')
    ∧ local_verify_object "archive" key package w1 = (Ok ArchiveVerifyOutcome_Valid, w2).
Proof.
  destruct (is_ok_io_inv (export_digest_to_archive (B := LocalFileArchiveBackend "archive") sx_store sx_appender
    ux_digest sx_request ex_at sample_world)) as (key & w' & E); [vm_compute; reflexivity|].
  destruct (export_is_verified_and_recorded (B := LocalFileArchiveBackend "archive") sx_store sx_appender ux_digest
    sx_request ex_at sample_world key w' E) as (package & w1 & w2 & _ & _ & _ & _ & _ & _ & _ & H & _).
  exists key, w', package, w1, w2. exact (conj E H).
Defined.

(** ** The scheduler *)

Definition is_valid (r : result str LedgerVerificationSummary) : bool :=
  match r with Ok summary => sv_valid summary | Err _ => false end.
Lemma is_valid_inv r : is_valid r = true → found_valid r.
Proof. destruct r as [summary|]; [by exists summary|done]. Qed.

(** The rows of a ledger of three entries, and its head. *)
Definition ux_chain_rows : list LedgerVerificationMaterialRow :=
  match try_map LedgerVerificationMaterialRow_try_from (ex_response <$> ex_entries) with Ok rows => rows | Err _ => [] end.
Definition ux_head : LedgerChainHead := mk_LedgerChainHead 3 (ex_hash 2).
Definition ux_key : LedgerVerifyingKey := LedgerSigningKey_verification_key ex_key.
Definition ux_key_columns (row : LedgerVerificationMaterialRow) : bool :=
  bool_decide (row_signature_key_version row = ex_v) && bool_decide (row_pk_key_version row = Some 1)
  && bool_decide (row_pk_public_key row = Some ("\x" +:+ hex_encode (LedgerVerifyingKey_as_bytes ux_key)))
  && bool_decide (row_pk_algorithm row = Some "ed25519"%string)
  && bool_decide (row_pk_status row = Some "active"%string).
Lemma ux_chain_keys :
  Forall (λ row, ∃ key, try_restore_verifying_key row = Ok (Some key)
    ∧ registered_key ex_keys (row_signature_key_version row) key) ux_chain_rows.
Proof.
  assert (forallb ux_key_columns ux_chain_rows = true) as H by (vm_compute; reflexivity).
  apply Forall_forall. intros row Hrow%list_elem_of_In. apply (proj1 (forallb_forall _ _) H) in Hrow.
  unfold ux_key_columns in Hrow. rewrite !andb_true_iff !bool_decide_eq_true in Hrow.
  destruct Hrow as [[[[H1 H2] H3] H4] H5]. exists ux_key. split.
  - assert (vk_key_version ux_key = ex_v) as Hk by reflexivity.
    apply (restore_registered_key row ux_key "active"); rewrite ?Hk; [by split|done|exact H1|exact H2|exact H3|exact H4
      |exact H5|]. right. left.
  - exists [], []. rewrite H1. split; [reflexivity|]. split; [reflexivity|constructor].
Qed.

Lemma scheduled_checks_are_chain_verification_witness :
  ∃ entries, try_map try_restore_signed_ledger_entry ux_chain_rows = Ok entries
    ∧ verify_ledger_chain entries LedgerChainHead_genesis ex_keys = Ok ux_head.
Proof.
  apply (scheduled_checks_are_chain_verification ex_keys ux_head ux_chain_rows ltac:(discriminate) ux_chain_keys).
  split; apply is_valid_inv; vm_compute; reflexivity.
Defined.

(** A database that lost the last entry of three. *)
#[local] Instance ux_short_ledger : DigestService := {|
  svc_check_monthly_digest_exists := λ _ w, (Ok [false], ref_tick w);
  svc_fetch_ledger_range_for_month := λ _ w, (Ok [], ref_tick w);
  svc_fetch_monthly_digest_for_verification := λ _ w, (Ok [], ref_tick w);
  svc_export_ledger_verification_materials := λ _ _ w, (Ok (ex_response <$> take 2 ex_entries), ref_tick w);
|}.
Definition ux_long_chain : LedgerService := ex_accepting_service.
Definition ux_period : MonthlyDigestPeriod := mk_MonthlyDigestPeriod "2025-12".

(** The anomaly in what was fetched, by evaluation. *)
Definition finds_anomaly {W} (fetched : result str (LedgerChainHead * list LedgerVerificationMaterialRow) * W) : bool :=
  match fetched with
  | (Ok (head, rows), _) =>
      match verify_hash_chain_rows head rows with Ok summary => negb (sv_valid summary) | Err _ => false end
  | _ => false
  end.
Lemma finds_anomaly_inv {W} (fetched : result str (LedgerChainHead * list LedgerVerificationMaterialRow) * W) :
  finds_anomaly fetched = true →
  ∃ head rows w summary, fetched = (Ok (head, rows), w) ∧ verify_hash_chain_rows head rows = Ok summary
    ∧ sv_valid summary = false.
Proof.
  destruct fetched as [[[head rows]|] w]; [|done]. cbn. destruct (verify_hash_chain_rows head rows) as [summary|] eqn:E; [|done].
  intros H%negb_true_iff. by exists head, rows, w, summary.
Qed.

Lemma ledger_anomaly_raises_incident_witness :
  ∃ r s' code incident_type,
    run_full_ledger_hash_chain_verify_job (Svc := ux_long_chain) ux_state LedgerHashChainFullVerify (Some ux_period) ux_s
      = (r, s') ∧ scheduler_incident_type code = Some incident_type.
Proof.
  destruct (finds_anomaly_inv (fetch_full_ledger_material_rows (Svc := ux_long_chain) (instant_now ux_s.2).2))
    as (head & rows & w1 & summary & Hf & Hc & Hv); [vm_compute; reflexivity|].
  destruct (run_full_ledger_hash_chain_verify_job (Svc := ux_long_chain) ux_state LedgerHashChainFullVerify
    (Some ux_period) ux_s) as [r s'] eqn:E.
  destruct (ledger_anomaly_raises_incident (Svc := ux_long_chain) ux_state _ _ LedgerHashChainFullVerify (Some ux_period)
    ux_s r s' head rows w1 summary (verify_job_hash (Svc := ux_long_chain) ux_state) E Hf Hc Hv)
    as (code & incident_type & _ & H & _).
  exists r, s', code, incident_type. exact (conj eq_refl H).
Defined.

(** The first of January, five o'clock. *)
#[local] Instance ux_calendar : Calendar reference :=
  {| dt_year _ := 2026; dt_month _ := January; dt_day _ := 1; dt_hour _ := 5 |}.
Definition ux_config : SchedulerConfig := mk_SchedulerConfig 0 60000000000 1 3 4 5 "archive".

Definition is_err {E A W} (r : result E A * W) : bool := match r.1 with Err _ => true | Ok _ => false end.
Lemma is_err_inv {E A W} (r : result E A * W) : is_err r = true → ∃ e w, r = (Err e, w).
Proof. destruct r as [[|e] w]; [done|by exists e, w]. Qed.

Lemma failed_verification_skips_quarterly_witness :
  quarterly_due sx_time (sc_monthly_day ux_config) (sc_quarterly_hour_utc ux_config) = true
  ∧ ∃ st' s', run_due_jobs (Svc := ux_long_chain) ux_state ux_config sx_time (SchedulerRuntimeState_new, ux_s) = (tt, (st', s'))
    ∧ mk_JobRunKey RestoreTest "2026-Q1" ∉ rs_completed st'.
Proof.
  split; [reflexivity|].
  destruct (is_err_inv (run_full_ledger_hash_chain_verify_job (Svc := ux_long_chain) ux_state LedgerHashChainFullVerify
    (Some ux_period) ux_s)) as (e & s1 & E); [vm_compute; reflexivity|].
  destruct (run_due_jobs (Svc := ux_long_chain) ux_state ux_config sx_time (SchedulerRuntimeState_new, ux_s))
    as [[] [st' s']] eqn:R.
  exists st', s'. split; [reflexivity|]. intros Hin.
  destruct (failed_verification_skips_quarterly (C := ux_calendar) (Svc := ux_long_chain) ux_state ux_config sx_time ux_period
    SchedulerRuntimeState_new ux_s e s1 st' s' (λ _, eq_refl) eq_refl ltac:(vm_compute; reflexivity)
    ltac:(apply not_elem_of_nil) E R _ Hin) as [H|H]; [exact (not_elem_of_nil _ H)|discriminate H].
Defined.

Lemma previous_month_is_the_month_before_witness :
  ∃ period, previous_month_period sx_time = Ok period
    ∧ digits_value 0 (take 4 (chars (MonthlyDigestPeriod_as_str period))) = Some 2025
    ∧ digits_value 0 (drop 5 (chars (MonthlyDigestPeriod_as_str period))) = Some 12.
Proof.
  destruct (previous_month_is_the_month_before (C := ux_calendar) sx_time ltac:(split; discriminate)) as (period & H1 & _ & H2 & H3).
  exists period. exact (conj H1 (conj H2 H3)).
Defined.
End use_case_examples.
