(* ===== verification/AccessExamples.v ===== *)
(** * Authentication, signature keys and timestamps at concrete data

    On the reference platform: one token of one issuer, signed with the one key of a
    published set; a database that has the signing key as active; a service that
    stamps, over a ledger that refuses the entry; and auditors who read a log with a
    secret in it. *)

From S2P Require Import Prelude RustStd Json Platform Reference Errors Types Aad Crypto Authorization SecretStore Alias AuditTypes LedgerTypes LedgerPayload LedgerEntry LedgerChain LedgerRpc LedgerAppender ApiError WriteLedger ReadModel Digest DigestUseCases Files Archive AuditEvent AuditBuilders Incident KeyRotation AuditFallback App ExportUseCase Siem AuditReporter UseCases AliasUseCases Handlers Maintenance Scheduler Auditor Timestamping SignatureKey DigestCommand Authentication Background AuditReport AuditUi Examples ServerExamples OpsExamples UseCaseExamples.

Section access_examples.
#[local] Existing Instance reference.
#[local] Existing Instance ux_ledger.
#[local] Existing Instance ux_rotation.
#[local] Existing Instance ux_audit.
#[local] Existing Instance ux_sink.
#[local] Existing Instance ux_clock.
#[local] Existing Instance ux_incidents.
#[local] Existing Instance ux_notifications.
#[local] Existing Instance ux_short_ledger.

(** ** Authentication *)

Definition ax_key : Jwk := mk_Jwk "RSA" "key-1" (Some "RS256"%string) (Some "sig"%string) "n" "e".
Definition ax_jwks : Jwks := mk_Jwks [ax_key].
Definition ax_config : JwtVerifierConfig := mk_JwtVerifierConfig "issuer" "mipsorcu" 0.
Definition ax_claims : RegisteredJwtClaims :=
  mk_RegisteredJwtClaims (OwnerUserId_as_canonical_string sample_owner) "issuer" "mipsorcu" 100 ["auditor"%string].
Definition ax_decodes (token key : str) (v : Validation) : bool :=
  String.eqb token "token" && String.eqb key "ne" && bool_decide (va_algorithm v = RS256)
  && str_in (rc_iss ax_claims) (va_issuer v) && str_in (rc_aud ax_claims) (va_audience v)
  && (0 - va_leeway v <=? rc_exp ax_claims).

#[local] Instance ax_jwt : JwtLibrary := {|
  DecodingKey := str;
  from_rsa_components n e := Some (n +:+ e);
  decode_header _ := Ok (RS256, Some "key-1"%string);
  jwt_decode token key v := λ w, if ax_decodes token key v then (Ok ax_claims, w) else (Err JwtErrorKind_Other, w);
|}.
Lemma str_in_elem s l : str_in s l = true → s ∈ l.
Proof. unfold str_in. by rewrite bool_decide_eq_true. Qed.
#[local] Instance ax_jwt_laws : JwtLaws ax_jwt.
Proof.
  refine {| jwt_signed key alg token claims := key = "ne"%string ∧ alg = RS256 ∧ token = "token"%string ∧ claims = ax_claims;
            jwt_clock := λ _, 0 |}.
  intros token key v w claims w'. cbn. destruct (ax_decodes token key v) eqn:E; [|discriminate].
  intros [= <- _]. unfold ax_decodes in E. rewrite !andb_true_iff bool_decide_eq_true !String.eqb_eq in E.
  destruct E as [[[[[-> ->] H1] H2%str_in_elem] H3%str_in_elem] H4%Z.leb_le]. by split_and!.
Defined.
#[local] Instance ax_http : HttpValues := {|
  header_to_str b := Some (from_bytes b);
  uuid_nil := RequestId_0 sx_request;
|}.
Definition ax_header : bytes := as_bytes "Bearer token".

Lemma authenticated_user_is_genuine_witness :
  ∃ user s' token, authenticate ux_state ax_config (Some ax_jwks) (Some sx_request) (Some ax_header) ux_s = (Ok user, s')
    ∧ jwt_signed (JwtLaws := ax_jwt_laws) "ne"%string RS256 "token"%string token
    ∧ OwnerUserId_parse (rc_sub token) = Ok (claims_subject_user_id (au_claims user)).
Proof.
  destruct (is_ok_io_inv (authenticate ux_state ax_config (Some ax_jwks) (Some sx_request) (Some ax_header) ux_s))
    as (user & s' & E); [vm_compute; reflexivity|].
  destruct (authenticated_user_is_genuine (LJ := ax_jwt_laws) ux_state ax_config (Some ax_jwks) (Some sx_request)
    (Some ax_header) ux_s user s' E)
    as (header & kid & jwks & key & dk & token & _ & _ & _ & _ & _ & _ & _ & _ & _ & (_ & _ & _ & H) & _ & _ & _ & Hs & _).
  exists user, s', token. split; [exact E|]. split; [by repeat split|exact Hs].
Defined.

#[local] Instance ax_endpoint : JwksEndpoint := {| http_get_jwks _ := λ w, (Ok (200, Ok [ax_key]), ref_tick w) |}.
Lemma key_set_always_usable_witness :
  ∃ config cache w' jwks,
    initialize_jwt_verifier_from_jwks_url "url" "issuer" "mipsorcu" sample_world = (Ok (config, cache), w')
    ∧ (run_jwks_refresh_loop "url" [Wake_Timer; Wake_Shutdown false; Wake_Timer] (cache, w')).1 = Some jwks ∧ Jwks_wf jwks.
Proof.
  destruct (is_ok_io_inv (initialize_jwt_verifier_from_jwks_url "url" "issuer" "mipsorcu" sample_world))
    as ([config cache] & w' & E); [vm_compute; reflexivity|].
  destruct (key_set_always_usable "url" "issuer" "mipsorcu" sample_world config cache w'
    [Wake_Timer; Wake_Shutdown false; Wake_Timer] w' E) as (jwks & H1 & H2).
  exists config, cache, w', jwks. exact (conj E (conj H1 H2)).
Defined.

(** ** The rate limit *)

(** A clock whose instants end at a million. *)
#[local] Instance ax_instants : InstantArithmetic := {|
  instant_checked_add t d := if t + d <=? 1000000 then Some (t + d) else None;
|}.
#[local] Instance ax_instants_laws : InstantArithmeticLaws ax_instants.
Proof. constructor. intros t d r. cbn. by destruct (t + d <=? 1000000); intros [= <-]. Qed.
Definition ax_limiter : FixedWindowRateLimiter := mk_FixedWindowRateLimiter 2 10.

Definition ax_endless : FixedWindowRateLimiter := mk_FixedWindowRateLimiter 1 2000000.
Lemma ax_never_fits times : Forall (λ t, 0 ≤ t) times → Forall (λ now, ¬ window_fits ax_endless now) times.
Proof.
  intros H. eapply Forall_impl; [exact H|]. cbn. intros t Ht [e He]. revert He. cbn.
  destruct (Z.leb_spec (t + 2000000) 1000000); [lia|discriminate].
Qed.

Lemma rate_bounded_when_window_fits_witness :
  (acquire_all ax_limiter [5; 6; 7; 10; 11; 12] (FixedWindowRateLimiter_new ax_limiter 0) = 4
   ∧ acquire_all ax_limiter [5; 6; 7; 10; 11; 12] (FixedWindowRateLimiter_new ax_limiter 0)
     ≤ 2 * rl_max_requests ax_limiter)
  ∧ acquire_all ax_endless [1; 1; 1; 2] (FixedWindowRateLimiter_new ax_endless 0) = 4.
Proof.
  split; [split; [reflexivity|]|].
  - apply (rate_bounded_when_window_fits ax_limiter 5 [5; 6; 7; 10; 11; 12] (FixedWindowRateLimiter_new ax_limiter 0));
      [split; vm_compute; discriminate|..]; repeat constructor; first [vm_compute; reflexivity | vm_compute; discriminate | by eexists].
  - apply (rate_bounded_when_window_fits ax_endless 1 [1; 1; 1; 2] (FixedWindowRateLimiter_new ax_endless 0));
      [split; vm_compute; discriminate|repeat constructor; vm_compute; first [reflexivity | discriminate]|reflexivity|..].
    + apply ax_never_fits. repeat constructor; vm_compute; discriminate.
    + repeat constructor; vm_compute; discriminate.
Defined.

(** ** Signature keys *)

Definition ax_status : LedgerSigningPublicKeyStatusResponse :=
  mk_LedgerSigningPublicKeyStatusResponse 1
    (encode_public_key_as_bytea (LedgerVerifyingKey_as_bytes (LedgerSigningKey_verification_key ex_key)))
    "fingerprint" "ed25519" "active" "2026-01-01T00:00:00Z" None None.
Definition ax_taken (p : SignatureKeyLifecycleParams) (w : World) :
    result SupabaseRpcError (list AppendLedgerEntryResponse) * World :=
  let p := lc_event_and_entry p in
  (Ok [mk_AppendLedgerEntryResponse (wl_ledger_entry_id p) (wl_sequence_no p) (wl_entry_hash p)
    (wl_sequence_no p) (wl_entry_hash p) false], ref_tick w).
#[local] Instance ax_keys : PublicKeyService := {|
  svc_register_public_key := λ _ w, (Ok [], w);
  svc_public_key_status := λ _ w, (Ok [ax_status], ref_tick w);
  svc_create_public_key := ax_taken;
  svc_activate_public_key := ax_taken;
  svc_retire_public_key := ax_taken;
|}.
Definition ax_key_config : KeyCommandConfig := mk_KeyCommandConfig ex_key (Ok tt) (λ _, Ok "{}"%string).
Definition ax_key_args : list str := ["--key-version"; "1"]%string.

Lemma key_creation_is_documented_witness :
  ∃ line w' v key w1 event entry w2 rows, key_create ax_key_config ax_key_args sample_world = (Ok line, w')
    ∧ parse_key_version_arg ax_key_args "--key-version" = Ok v
    ∧ signs_with_active_key ax_key_config sample_world w1
    ∧ svc_create_public_key (SignatureKeyLifecycleParams_from_event_and_entry (Some key) event entry) w2 = (Ok rows, w').
Proof.
  destruct (is_ok_io_inv (key_create ax_key_config ax_key_args sample_world)) as (line & w' & E);
    [vm_compute; reflexivity|].
  destruct (key_creation_is_documented ax_key_config ax_key_args sample_world line w' E)
    as (v & key & w1 & event & entry & w2 & rows & H1 & _ & _ & H2 & _ & H3 & _).
  exists line, w', v, key, w1, event, entry, w2, rows. exact (conj E (conj H1 (conj H2 H3))).
Defined.

(** ** Timestamps *)

#[local] Instance ax_stamps : TimestampingService := {|
  request_timestamp h := λ w, (build_dummy_token h, ref_tick w);
|}.
(** A ledger that cannot be read. *)
Definition ax_no_ledger : LedgerService := {|
  svc_append_ledger_entry := λ _ w, (Err SupabaseRpcError_EmptyResult, w);
  svc_read_chain_state := λ w, (Err SupabaseRpcError_EmptyResult, w);
|}.

(** The service stamps and the ledger refuses, by evaluation. *)
Definition ax_stamped {E} (requested : result E TimestampingToken * World) : bool :=
  match requested with
  | (Ok token, w) => is_err (append_digest_timestamped_ledger_entry (Svc := ax_no_ledger) sx_appender ux_digest
      (TimestampingTokenHash_to_hex (TimestampingTokenHash_from_token token)) sx_request ex_at w)
  | _ => false
  end.
Lemma ax_stamped_inv {E} (requested : result E TimestampingToken * World) :
  ax_stamped requested = true →
  ∃ token w1 code w2, requested = (Ok token, w1)
    ∧ append_digest_timestamped_ledger_entry (Svc := ax_no_ledger) sx_appender ux_digest
        (TimestampingTokenHash_to_hex (TimestampingTokenHash_from_token token)) sx_request ex_at w1 = (Err code, w2).
Proof.
  destruct requested as [[token|] w1]; [|done]. unfold ax_stamped. intros H%is_err_inv. destruct H as (code & w2 & H).
  exists token, w1, code, w2. exact (conj eq_refl H).
Qed.

Lemma timestamp_token_lost_without_ledger_witness :
  ∃ token w1 code w', request_timestamp (dg_digest_hash ux_digest) sample_world = (Ok token, w1)
    ∧ request_timestamping_for_digest (Svc := ax_no_ledger) sx_store sx_appender ux_digest sx_request ex_at sample_world
      = (Err (RequestTimestampingError_LedgerAppendFailed code), w').
Proof.
  destruct (ax_stamped_inv (request_timestamp (dg_digest_hash ux_digest) sample_world))
    as (token & w1 & code & w2 & E1 & E2); [vm_compute; reflexivity|].
  exists token, w1, code. eexists. split; [exact E1|].
  exact (timestamp_token_lost_without_ledger (Svc := ax_no_ledger) sx_store sx_appender ux_digest sx_request ex_at
    sample_world token w1 code w2 E1 E2).
Defined.

(** ** Auditors *)

Definition ax_event (metadata : Value) : AuditUiAuditEventRow :=
  mk_AuditUiAuditEventRow "id" "request" None None "decrypt" None "success" None metadata "101Z".
#[local] Instance ax_ui : AuditUiService := {|
  fetch_audit_ui_secret_inventory_rpc := λ _ w, (Ok [], ref_tick w);
  fetch_audit_ui_audit_events := λ _ w,
    (Ok [ax_event (JObject [("nested"%string, JObject [(" Master_Key "%string, JString "secret")])]);
         ax_event (JObject [("version"%string, json_uint 1)])], ref_tick w);
  fetch_audit_ui_ledger_entries := λ _ w, (Ok [], ref_tick w);
  fetch_audit_ui_integrity_status := λ w, (Ok [], ref_tick w);
  fetch_audit_ui_verification_failures := λ _ w, (Ok [], ref_tick w);
  verify_ledger_hash_chain_rpc := λ _ w, (Ok [], ref_tick w);
|}.
#[local] Instance ax_report : AuditReportService := {| svc_audit_report_summary := λ _ w, (Ok [], ref_tick w) |}.
Definition ax_caller (roles : list str) : VerifiedJwtClaims := mk_VerifiedJwtClaims sample_owner "issuer" "mipsorcu" 100 roles.
Definition ax_request : AuditUiRequest := Get_audit_events (mk_AuditEventsQuery (Some 10) None None None None None).

Lemma audit_reads_need_the_role_witness :
  has_mipsorcu_role (ax_caller ["operator"%string]) AUDITOR_ROLE = false
  ∧ is_ok (serve sx_store sx_request (ax_caller ["operator"%string]) ax_request sample_world).1 = false.
Proof.
  split; [reflexivity|].
  destruct (serve sx_store sx_request (ax_caller ["operator"%string]) ax_request sample_world) as [r w'] eqn:E.
  destruct (audit_reads_need_the_role sx_store sx_request (ax_caller ["operator"%string]) ax_request sample_world r w'
    eq_refl E) as [(audit & -> & _)|(message & _ & -> & _)]; reflexivity.
Defined.

(** The answer to a read of events, as a page. *)
Definition events_page (answer : AuditUiAnswer) : option (PageResponse AuditUiAuditEventRow) :=
  match answer with AuditEvents page => Some page | _ => None end.
Definition ax_two_events {E} (r : result E AuditUiAnswer * World) : bool :=
  match r with
  | (Ok answer, _) => match events_page answer with Some page => Nat.eqb (length (pg_items page)) 2 | None => false end
  | _ => false
  end.
Lemma ax_two_events_inv {E} (r : result E AuditUiAnswer * World) :
  ax_two_events r = true → ∃ page w, r = (Ok (AuditEvents page), w) ∧ length (pg_items page) = 2%nat.
Proof. destruct r as [[[]|] w]; try done. cbn. intros H%Nat.eqb_eq. eauto. Qed.

Lemma answered_rows_are_redacted_witness :
  ∃ page w', serve sx_store sx_request (ax_caller ["auditor"%string]) ax_request sample_world = (Ok (AuditEvents page), w')
    ∧ length (pg_items page) = 2%nat
    ∧ Forall (λ row, ∀ k, key_occurs k (ue_metadata_json row) → is_forbidden_metadata_key k = false) (pg_items page).
Proof.
  destruct (ax_two_events_inv (serve sx_store sx_request (ax_caller ["auditor"%string]) ax_request sample_world))
    as (page & w' & E & Hl); [vm_compute; reflexivity|]. exists page, w'. split; [exact E|]. split; [exact Hl|].
  exact (answered_rows_are_redacted sx_store sx_request (ax_caller ["auditor"%string]) ax_request sample_world
    (AuditEvents page) w' E).
Defined.

(** The exported rows of the ledger of [Examples]. *)
Definition ax_rows : list LedgerVerificationMaterialRow :=
  match sign_entries_from_head ex_appender ex_drafts LedgerChainHead_genesis with
  | Ok entries =>
      match try_map LedgerVerificationMaterialRow_try_from (ex_response <$> entries) with Ok rows => rows | Err _ => [] end
  | Err _ => []
  end.
Lemma withheld_tail_is_not_noticed_witness :
  length ax_rows = 3%nat
  ∧ verify_signature_material_rows (mk_LedgerSequenceNo 1) (mk_LedgerSequenceNo 3) (take 1 ax_rows)
    = mk_SignatureVerificationResponse true 1 (Some 1) (Some 3) None.
Proof.
  split; [vm_compute; reflexivity|]. assert (length (take 1 ax_rows) = 1%nat) as Hl by (vm_compute; reflexivity).
  pose proof (withheld_tail_is_not_noticed (mk_LedgerSequenceNo 1) (mk_LedgerSequenceNo 3) (take 1 ax_rows) (drop 1 ax_rows))
    as H. rewrite Hl in H. apply H; [|vm_compute; reflexivity].
  intros E. rewrite E in Hl. discriminate Hl.
Defined.
End access_examples.
