(* ===== verification/StoreExamples.v ===== *)
(** * Configuration and object store at concrete data

    On the reference platform: a process with the required variables and a key in
    the [.env] file, and a bucket whose objects are kept in the world. *)

From S2P Require Import Prelude RustStd Json Platform Reference Errors Types Aad Crypto Alias AuditTypes LedgerTypes LedgerPayload LedgerEntry LedgerChain LedgerRpc LedgerAppender Digest Files Archive AuditEvent KeyRotation AuditFallback App Siem AuditReporter Scheduler SignatureKey Authentication Background Config S3Client Runtime Examples ServerExamples OpsExamples UseCaseExamples AccessExamples.

Section store_examples.
#[local] Existing Instance reference.

(** ** Configuration *)

Definition cx_hex : str := "0101010101010101010101010101010101010101010101010101010101010101".
Definition cx_var (name : str) : option str :=
  map_get name [(ENV_KEY_VERSION, "3"); (ENV_ALIAS_ENCRYPTION_KEY, cx_hex); (ENV_ALIAS_ENCRYPTION_KEY_VERSION, "1");
    (ENV_ALIAS_FINGERPRINT_KEY, cx_hex); (ENV_ALIAS_FINGERPRINT_KEY_VERSION, "1"); (ENV_SUPABASE_URL, "https://db");
    (ENV_SUPABASE_SERVICE_ROLE_KEY, "role"); (ENV_SUPABASE_PUBLISHABLE_KEY, "public");
    (ENV_LEDGER_SIGNATURE_KEY_VERSION, "1"); (ENV_LEDGER_SIGNING_KEY, cx_hex); (ENV_JWT_ISSUER, "issuer");
    (ENV_JWT_AUDIENCE, "mipsorcu"); (ENV_JWKS_URL, "https://keys"); (ENV_SCHEDULER_MONTHLY_DAY, "28")]%string.
#[local] Instance cx_system : ConfigSystem := {|
  read_to_string path := λ w, if String.eqb path ".env"
    then (Ok (dotenv_text [(ENV_MASTER_KEY, cx_hex); (ENV_JWT_ISSUER, "ignored")])%string, ref_tick w)
    else (Err IoError_NotFound, ref_tick w);
  read_key_dir _ := λ w, (Err "no directory"%string, w);
  hex_error _ := "invalid hex"%string;
  SocketAddr := str;
  socket_addr_parse s := Ok s;
|}.

Lemma loaded_config_is_usable_witness :
  ∃ c w', load_config cx_var sample_world = (Ok c, w') ∧ config_usable c ∧ 1 ≤ ac_scheduler_monthly_day c ≤ 28.
Proof.
  destruct (is_ok_io_inv (load_config cx_var sample_world)) as (c & w' & E); [vm_compute; reflexivity|].
  pose proof (loaded_config_is_usable cx_var sample_world c w' E) as H.
  exists c, w'. split; [exact E|]. split; [exact H|]. exact (proj1 (usable_calendar c H)).
Defined.

(** ** Startup *)

Definition cx_signing_key : LedgerSigningKey :=
  match load_ledger_signing_key cx_var ∅ with Ok key => key | Err _ => ex_key end.
Definition cx_status : LedgerSigningPublicKeyStatusResponse :=
  mk_LedgerSigningPublicKeyStatusResponse 1
    (encode_public_key_as_bytea (LedgerVerifyingKey_as_bytes (LedgerSigningKey_verification_key cx_signing_key)))
    "fingerprint" "ed25519" "active" "2026-01-01T00:00:00Z" None None.
#[local] Instance cx_keys : PublicKeyService := {|
  svc_register_public_key := λ _ w, (Ok [], w);
  svc_public_key_status := λ _ w, (Ok [cx_status], ref_tick w);
  svc_create_public_key := ax_taken;
  svc_activate_public_key := ax_taken;
  svc_retire_public_key := ax_taken;
|}.
#[local] Existing Instance ax_endpoint.
#[local] Instance cx_server : ServerSystem := {|
  build_outbound_http_client _ := Ok tt;
  tcp_bind _ := λ w, (Ok tt, w);
  axum_serve _ := λ w, (Ok tt, w);
|}.

Lemma started_server_is_usable_witness :
  ∃ c w1 server w2, load_config cx_var sample_world = (Ok c, w1) ∧ start_server c w1 = (Ok server, w2)
    ∧ length (filter (λ task, runs_restore_test task = true) (sv_tasks server)) = 1%nat.
Proof.
  destruct (is_ok_io_inv (load_config cx_var sample_world)) as (c & w1 & E); [vm_compute; reflexivity|].
  assert (match load_config cx_var sample_world with (Ok c, w1) => is_ok (start_server c w1).1 | _ => false end = true) as Hs
    by (vm_compute; reflexivity).
  rewrite E in Hs. apply is_ok_io_inv in Hs as (server & w2 & Es).
  destruct (started_server_is_usable cx_var sample_world c w1 server w2 E Es) as (_ & _ & _ & _ & _ & _ & _ & H & _).
  exists c, w1, server, w2. split; [exact E|]. split; [exact Es|exact H].
Defined.

Lemma dotenv_round_trip_witness :
  parse_dotenv_contents (dotenv_text [(ENV_MASTER_KEY, cx_hex); ("NAME", "a \ b # c")])%string ".env"
  = Ok (<["NAME" := "a \ b # c"]> (<[ENV_MASTER_KEY := cx_hex]> ∅))%string.
Proof.
  apply (dotenv_round_trip ".env" [(ENV_MASTER_KEY, cx_hex); ("NAME", "a \ b # c")]%string).
  repeat constructor; vm_compute; reflexivity.
Defined.

(** ** The bucket *)

(** Objects are files of the world; nothing is overwritten. *)
Definition ox_object (url : str) (w : RefWorld) : option bytes := as_bytes <$> w.2 !! url.
Definition ox_send (request : HttpRequest) (w : RefWorld) : result ReqwestError (Z * bytes) * RefWorld :=
  if String.eqb (req_method request) "PUT" then
    match w.2 !! req_url request with
    | Some _ => (Ok (412, []), w)
    | None => (Ok (200, []), (S w.1, <[req_url request := from_bytes (req_body request)]> w.2))
    end
  else match ox_object (req_url request) w with
    | Some body => (Ok (200, body), ref_tick w)
    | None => (Ok (404, []), ref_tick w)
    end.
#[local] Instance ox_transport : S3Transport := {|
  HttpResponse := Z * bytes;
  response_status := fst;
  http_send := ox_send;
  response_text response := λ w, (Ok (from_bytes response.2), w);
  response_bytes response := λ w, (Ok response.2, w);
  hmac_sha256_mac k m := Some (replicate 32 (checksum (k ++ m)));
  dt_format_amz_date d := match dt_format d with Ok s => Some s | Err _ => None end;
  dt_format_date_stamp d := match dt_format d with Ok s => Some s | Err _ => None end;
  dt_checked_add d nanos := Some ((d.1 + Z.to_pos nanos)%positive, d.2);
|}.

Definition ox_sleep (nanos : Z) (w : @World reference) : @World reference := ref_tick w.

Lemma as_bytes_from_bytes b : as_bytes (from_bytes b) = b.
Proof. apply list_byte_of_string_of_list_byte. Qed.
#[local] Instance ox_server : S3Server ox_sleep.
Proof.
  refine {| object_at := (ox_object : str → @World reference → option bytes) |}.
  - intros request w response w' Hm. cbn. unfold ox_send. rewrite Hm. cbn.
    destruct (w.2 !! req_url request) eqn:E; intros [= <- <-]; [done|]. intros _. unfold ox_object. cbn.
    by rewrite lookup_insert_eq /= as_bytes_from_bytes.
  - intros request w response w1 body w' Hm. cbn. unfold ox_send. rewrite Hm. cbn.
    destruct (ox_object (req_url request) w) eqn:E; intros [= <- <-]; [|done]. intros _ [= <- <-]. exact E.
  - intros request w response w' Hm. cbn. unfold ox_send. rewrite Hm. cbn.
    destruct (ox_object (req_url request) w) eqn:E; intros [= <- <-]; [done|]. intros _. exact E.
  - intros request w answer w' url b Hm. cbn. unfold ox_send.
    destruct (String.eqb (req_method request) "PUT").
    + destruct (w.2 !! req_url request) as [x|] eqn:E; intros [= <- <-]; [done|]. unfold ox_object. cbn.
      intros Ho. rewrite lookup_insert_ne; [done|]. intros <-. by rewrite E in Ho.
    + destruct (ox_object (req_url request) w); intros [= <- <-]; done.
  - by intros response w r w' url b [= <- <-].
  - done.
  - done.
Defined.

Definition ox_settings : S3ArchiveBackendSettings :=
  mk_S3ArchiveBackendSettings "https://s3.example/" "us-east-1" "mipsorcu-archive" "AKIA" (mk_SecretString "secret")
    None S3ObjectLockMode_Compliance 30 true true 4 250.
Lemma ox_settings_valid : settings_valid ox_settings.
Proof. split; vm_compute; try split; first [reflexivity|discriminate]. Qed.

Definition ox_key : ArchiveObjectKey := mk_ArchiveObjectKey "digests/2026-05/digest.json".
Definition ox_package : ArchiveExportPackage := mk_ArchiveExportPackage "aa" "bb" 1 (JObject []).

Lemma archived_document_is_immutable_witness :
  ∃ w' url body, put_object (H := s3_http_client ox_settings ox_sleep) (s3_backend_config ox_settings)
      ox_key ox_package sample_world = (Ok tt, w')
    ∧ ArchiveExportPackage_to_json_bytes ox_package = Ok body ∧ ox_object url w' = Some body.
Proof.
  destruct (is_ok_io_inv (put_object (H := s3_http_client ox_settings ox_sleep) (s3_backend_config ox_settings)
    ox_key ox_package sample_world)) as ([] & w' & E); [vm_compute; reflexivity|].
  destruct (archived_document_is_immutable (Server := ox_server) ox_settings ox_key ox_package sample_world w'
    ox_settings_valid ltac:(vm_compute; discriminate) E) as [H _].
  destruct (H eq_refl) as (scheme & host & body & Hb & Ho & _).
  eexists w', _, body. split; [exact E|]. split; [exact Hb|exact Ho].
Defined.

Definition ox_input (headers : list (str * str)) : SignRequestInput :=
  mk_SignRequestInput "PUT" "/key" EmptyString headers [] "us-east-1" "AKIA" "secret" "20260501T000000Z" "20260501".
Lemma ox_signable headers :
  Forall (λ h, header_name h.1) headers → NoDup (to_ascii_lowercase <$> headers.*1) → signable (ox_input headers).
Proof. intros Hn Hd. split; [|exact Hn|exact Hd]. repeat split; by apply (bool_decide_unpack _). Qed.
Lemma signed_text_determines_request_witness :
  sigv4_canonical_request (ox_input [("host", "a"); ("X-Amz-Date", " b  c ")]%string)
  = sigv4_canonical_request (ox_input [("x-amz-date", "b c"); ("host", "a")]%string).
Proof.
  apply (signed_text_determines_request (ox_input [("host", "a"); ("X-Amz-Date", " b  c ")]%string)
    (ox_input [("x-amz-date", "b c"); ("host", "a")]%string)).
  1, 2: apply ox_signable; [repeat (constructor; [repeat split; by apply (bool_decide_unpack _)|]); constructor
                            |by apply (bool_decide_unpack _)].
  split; [reflexivity|]. split; [reflexivity|]. split; [reflexivity|]. split; [|reflexivity].
  apply perm_swap.
Defined.

Definition ox_now : @DateTime reference := (1%positive, true).
Lemma uploads_are_locked_witness :
  ∃ w' request answer, S3HttpClient_put_object ox_settings "key" [x01] ox_now sample_world = (Ok PutOutcome_Created, w')
    ∧ http_send request sample_world = (answer, w') ∧ (HEADER_IF_NONE_MATCH, "*"%string) ∈ req_headers request.
Proof.
  destruct (is_ok_io_inv (S3HttpClient_put_object ox_settings "key" [x01] ox_now sample_world))
    as ([] & w' & E); [vm_compute; reflexivity|].
  destruct (uploads_are_locked ox_settings "key" [x01] ox_now sample_world (Ok PutOutcome_Created) w'
    ltac:(split; vm_compute; discriminate) E)
    as [(reason & Hr & _)|(request & answer & target & until & Hs & _ & _ & _ & _ & _ & _ & Hn & _)]; [discriminate Hr|].
  exists w', request, answer. split; [exact E|]. split; [exact Hs|]. exact (Hn eq_refl).
Defined.

(** The listing of the test of [parse_list_objects_v2_response], and a key with an
    escaped character. *)
Example listing_example :
  parse_list_objects_v2_response
    "<ListBucketResult><Contents><Key>digests/2026-05/digest.json</Key></Contents><Contents><Key>a&amp;b</Key></Contents><NextContinuationToken>next-token</NextContinuationToken></ListBucketResult>"
  = Ok (mk_ListObjectsV2Output ["digests/2026-05/digest.json"; "a&b"] (Some "next-token"))%string.
Proof. vm_compute. reflexivity. Qed.
End store_examples.
